(* ===== verification/_CoqProject ===== *)
-Q . S2P
Prelude.v
RustStr.v
Net.v
SortBy.v
Search.v
F32.v
Transform.v
Samples.v
Cameras.v
Kinematics.v
Enrichment.v
Digests.v
RateLimit.v
SshTypes.v
Auth.v
CommandFilter.v
Standalone.v
Paths.v
Effects.v
Nucleus.v
Emergency.v
Proto.v
Peers.v
Dispatcher.v
Links.v
PluginLoader.v
PluginManager.v
PluginHost.v
FileSys.v
Sftp.v
Handler.v
SshServer.v
Forwarding.v
Relay.v
Policy.v
Buffer.v
Mcap.v
Privacy.v
Triggers.v
Storage.v
Packager.v
Upload.v
Collector.v
Health.v
Recording.v
SshClient.v
Fleet.v
Updater.v
Routing.v
Tunnel.v
Api.v
Config.v
Login.v
Session.v
Service.v
Start.v
Helper.v
CliSsh.v
Desktop.v
DesktopData.v
