(* ===== verification/Prelude.v ===== *)
(** * OmniEdge: a verification development for the Rust workspace under src/

    ** The program

    OmniEdge is a mesh VPN.  The workspace src/crates/ has the protocol
    (omni-proto), the tunnel devices (omni-tun), the manager of networks and
    peers (omni-core), the API client (omni-api), the command line (omni-cli),
    the privileged helper (omni-helper), an SSH server for the peers of the VPN
    (omni-ssh) and a plugin system with a robotics plugin (omni-plugin).  Four
    parts decide most without the operating system, and they are modelled: the
    SSH server, the SSH client, the links between peers, and the plugins; with
    them the manager of the connection, which logs in over the API, joins and
    leaves networks and sets the routes of an exit node, its configuration and
    its tunnel, and the command line: login, updater, the service that runs in
    the background, and the commands that start, stop and configure it.

    SSH.  The server asks the rate limiter and the backend whether to admit an
    address and gives it a handler; at the login the authenticator asks the
    backend who is behind the address and which policy applies, and turns the
    first rule that matches into a verdict; the policy manager caches that
    policy; the action of the rule configures the command filter and the SFTP
    server of the sessions the handler starts.  Emergency access obtains
    tokens from the API.  Forwards and the health monitor stand beside it, and
    the recorder writes what a session shows to a file, to the cloud, or to a
    signed chain of chunks.

    SSH client.  A connection resolves the target, asks the store of known
    hosts about the key of the server, and collects what a command prints; a
    fleet operation runs one command on many nodes, a bounded number at a time.

    Links.  The protocol library turns datagrams into messages (directly or
    after decryption) and tells endpoints of the Nucleus apart from those of
    peers; the manager keeps a record per peer; the dispatcher of the core
    reacts to messages and ticks: it registers with the Nucleus, learns peers
    and endpoints, probes them, and tells the tunnel which key has which
    address.

    Plugins.  The loader reads packages from directories and archives, the
    registry keeps what is known of them, the manager loads and runs them in
    sandboxes whose host functions they call.  The robotics plugin keeps sensor
    samples in ring buffers; triggers start episodes, the packager writes an
    episode from the buffers, the storage keeps it within limits and the upload
    queue sends it on.  Beside it stand the cameras of a robot, where its joints
    put them, and the frames that carry that pose.

    Command line.  A start logs in, registers the device, chooses a network and
    installs the service; the service joins that network by the manager of the
    connection, or answers the signaling of others as a nucleus.  The privileged
    helper gives that manager to every user of the machine over a socket, and
    the commands for ssh reach the peers of the network with the SSH client.

    Desktop.  The application of the window asks the helper and falls back on a
    manager of its own; it logs in, waits for connections, keeps its state in
    step with the helper's, and runs the data collection plugin, a simulation of
    it, the plugin manager and the updater for its front end.

    ** The files

    Prelude       results, machine integers, clocks, automation, step relations
    RustStr       the operations of [str], integer parsing and printing (std)
    Net           [IpAddr] and [SocketAddr], their grammar and text (std)
    SortBy        stable sorting by a key (std)
    F32           [f32] and [f64]: conversions and arithmetic (the language)
    Transform     robotics/transform.rs: quaternions and transforms
    Samples       robotics/data_collection/types.rs and streams.rs: samples,
                  their values and sizes, streams and compression
    Search        binary search in a sorted slice (std)
    Digests       the hash, HMAC and base64 functions, as a class with laws
    RateLimit     omni-ssh/src/server/rate_limit.rs: [ConnectionRateLimiter] as
                  a record of maps, each method a function of the state and of
                  the readings of the clock it makes; [exec] runs a schedule
    SshTypes      omni-ssh/src/types.rs: the structs, enums and defaults
    Auth          omni-ssh/src/server/auth.rs: [authenticate] and the functions
                  below it, against the class [SshBackend]
    CommandFilter omni-ssh/src/server/command_filter.rs: all operations
    Standalone    omni-ssh/src/standalone.rs: configuration, peers, generated
                  identities and policy; an instance of [SshBackend]
    Paths         the part of [std::path] the sources use
    Effects       programs over effects, run by a handler or judged by [wp]
                  against every reply of the system, the monad [SM] of programs
                  with a state that may fail, and programs of a component
                  inside a larger program ([zoom])
    Emergency     omni-ssh/src/emergency/mod.rs: the requests of access and the
                  token cache, programs over the API, the clocks and the maps
                  the tasks share
    Proto         omni-proto/src/lib.rs: what the edge makes of the packets of
                  the Nucleus
    Peers         omni-core/src/manager.rs, first part: strategies for a pair
                  of NATs, the record the manager keeps of a peer
    Dispatcher    the same file, the loop of [start_loops]: the handling of
                  every datagram and of the ticks, programs over socket,
                  tunnel and clock
    Links         what the dispatcher guarantees about peers and pings
    PluginLoader  omni-plugin/src/manifest.rs, loader.rs, error.rs: manifests,
                  packages and installation, programs over the disk
    PluginManager omni-plugin/src/registry.rs, manager.rs: the registry with its
                  capability index, and every operation of the manager
    PluginHost    omni-plugin/src/host/mod.rs: log, configuration, store and the
                  host list of a plugin
    FileSys       the file-system calls of the SFTP server as an effect
    Sftp          omni-ssh/src/sftp/mod.rs: every request of the handler, a
                  program over the file system in a state and error monad
    Handler       omni-ssh/src/server/handler.rs and server/config.rs: the
                  handler of one connection, every request of the client a
                  program over backend, user database, terminals and protocol
    SshServer     omni-ssh/src/server/mod.rs: the task of a connection as a
                  program, the server that interleaves them as a step relation
    Forwarding    omni-ssh/src/forwarding/mod.rs: the syntax of forwards, and
                  the [Forwarder] with its tasks as a step relation
    Relay         the same file: the tasks of one forwarded connection (copy
                  loops and the SOCKS5 handshake), programs over stream and
                  tunnel
    Policy        omni-ssh/src/policy/mod.rs: the cached policy and its manager,
                  programs over clock, shared cache, backend and file
    Buffer        omni-plugin/src/robotics/data_collection/buffer.rs: the ring
                  buffer, and the manager with the references it shares
    Mcap          data_collection/mcap_writer.rs: the writer of MCAP files, and
                  a reader of their records as its specification
    Privacy       data_collection/privacy.rs: filters over pixels and metadata
    Triggers      data_collection/triggers.rs and trigger_impl.rs: the trait as
                  a class with the laws the manager relies on, the six
                  triggers, the manager over a heap of shared triggers
    Storage       data_collection/storage.rs: the index of the episodes and its
                  manager, programs over clock, disk and codec
    Packager      data_collection/packager.rs: an episode from the buffers to a
                  package, over the writer and the filters
    Upload        data_collection/upload.rs: configuration, queue and manager
    Collector     data_collection/plugin.rs: the plugin that joins them
    Cameras       data_collection/camera_config.rs: cameras, devices, lenses, the
                  validation of a configuration
    Kinematics    data_collection/urdf.rs: links, joints, the poses of cameras
    Enrichment    data_collection/enrichment.rs: the buffer of joint states, and
                  frames with the pose of their camera
    Health        omni-ssh/src/health/mod.rs: one connection and the monitor
    Recording     omni-ssh/src/recording/: the recorder with its three writers,
                  the signed chain and its check, and the recorder a session
                  starts; what the writers promise is the class [Sink]
    SshClient     omni-ssh/src/client/mod.rs: known hosts, the check of server
                  keys, the connection and the commands it runs
    Fleet         omni-ssh/src/fleet/mod.rs: targets, the tasks of an execution
                  as a step relation, the results
    Updater       omni-cli/src/updater.rs: versions, releases, installation
    Routing       omni-core/src/routing.rs: the commands that set up and undo
                  the routes of an exit node, programs over the shell
    Nucleus       omni-core/src/manager.rs and omni-cli/src/service.rs: the
                  server of a nucleus around the protocol of signaling
    Tunnel        omni-tun/src/lib.rs: the device, its addresses and peers,
                  programs over the WireGuard interface and the shell
    Api           omni-api/src/: the client, the requests of every service, how
                  responses are read; programs over HTTP
    Config        omni-core/src/config.rs: the settings, the file they are kept
                  in, the address of the API; programs over the system
    Login         omni-cli/src/oauth.rs: logging in, over Api and Config
    Session       omni-core/src/manager.rs (the rest) and state.rs: the manager
                  with its logins, joining and leaving networks, the exit node
                  and the rounds of its loops, over Api, Config and Routing
    Service       omni-cli/src/service.rs: status, the workers, installing and
                  removing the service, over Session and Nucleus
    Start         omni-cli/src/main.rs and utils.rs: the commands start, stop,
                  config and scan, over Service, Login and Api
    Helper        omni-helper/src/lib.rs and main.rs: the requests of the helper,
                  the tasks they start as a step relation over the manager of
                  Session, the connections and their loop
    CliSsh        omni-cli/src/main.rs, omni-ssh/src/client and sftp (the SFTP
                  client): the commands ssh, sftp, scp and ssh-server, over
                  SshClient, Standalone and Api
    Desktop       ui/desktop/src-tauri/src/lib.rs: the commands about login and
                  connection and the synchronisation, programs over the helper's
                  socket, Session and Config; the logins that wait as a step
                  relation; the application and Helper.v together
    DesktopData   the same file: data collection over Collector, the simulation,
                  the places of the windows, plugins over PluginManager, updates
                  over Updater

    Definitions keep the names of the functions they model.  A method with
    [&mut self] (or interior mutability) takes and returns the record; a method
    that waits on the outside world is a program of Effects.v, so that what
    other tasks and the system do between two of its calls is a free reply.
    Objects shared by reference live in a heap.  Where a [HashMap] is walked
    and its order could matter, the order is a reply too, or any permutation;
    [load_all] and [unload_all] of the plugin manager walk in one fixed order.

    ** What the theorems show

    - Authentication: a login is accepted exactly when the first live rule
      accepts it ([authenticate_accept_iff], [evaluate_policy_first_match]),
      it fails only when the backend does, and time windows are the minutes
      they say; the standalone backend accepts exactly the addresses it allows
      and its peer list implements a map.
    - Connections: terminals, typed input and SFTP sessions come about only
      for a local user and action that a rule of the policy grants, within the
      limits of the action ([connection_licensed]); exec requests run exactly
      the commands the filter allows ([exec_filtered]); the protocol runs
      exactly for admitted connections, once, with a fresh handler.
    - Rate limiting: the quota over any minute under any schedule, lock-out
      after the configured number of failures, conservation of permits, and
      that the cleanup changes no answer about the address.
    - Command filter: the verdict on commands and directories, with the text
      searches as they are (and what they let through).
    - SFTP: whatever the file system replies, every path a session touches
      passed the checks of its configuration ([session_contained]); read-only
      sessions make no mutating call; a resolved path stays below the root;
      handle names are never used twice, stale ones are refused; writes respect
      the limit; READDIR lists every entry once and then says end of file.
    - Forwarding: parsing inverts printing; the invariant of the registry
      under every interleaving of its tasks, and that finished forwards stay
      finished; the copy loops deliver every byte in order as long as the
      tunnel takes what it is given; the handshake connects to the host and
      port asked for.
    - Policy: the outcome of [get_policy] in every state of cache, backend and
      file; how validity depends on the age.
    - Emergency access: which requests reach the API, that a cached token
      stands for a grant the API gave for that token and target, that waiting
      for approval ends, and what a revocation leaves behind.
    - Links: a known peer keeps its key and its routes whatever arrives
      ([known_peer_keeps_key]), a link comes up only on proof
      ([link_up_needs_proof]), pings that stay unanswered end; announced peers
      arrive as announced; both ends choose one strategy.
    - Plugins: a valid manifest names one plain directory; only registered and
      enabled plugins run, whatever fails; the capability index is exact as
      long as nothing is registered twice.
    - Data collection: a ring buffer holds the latest samples in order, and an
      episode is the samples of the window, stream by stream; an evaluation of
      the triggers is exactly the events of those that are due
      ([evaluation_exact]), with the cooldown between two events of one
      trigger, teleop triggers on rising edges, periodic triggers without
      gaps, manual triggers a box for one request; the storage keeps its books
      whatever the disk does ([books_kept]) and stays within its limits,
      deleting what its strategy chooses; the upload queue is sorted, without
      duplicates, and drains; the plugin's state and episode agree
      ([plugin_life_coherent]) and a finished episode is in the storage
      ([finished_episode_kept]), which the plugin's proof takes from the
      storage's specification through [zoom].  A package holds the samples of
      its window, stream by stream and in order, as messages a reader of the
      file gets back ([packaged_samples], on top of
      [session_writes_messages]), and it carries the name the plugin relies on
      ([packager_meets_promise]).  A blurred region shows blocks of averages
      and the rest of the image is untouched ([blur_region_pixelates]); with
      the filters a default configuration adds, no image is ever blurred
      ([default_filters_never_blur]).
    - Cameras: a configuration is accepted exactly when its ids are distinct,
      its references exist and each camera is acceptable ([validate_exact]);
      the chain of a link is found exactly when its ancestors end at a root,
      and no fuel is enough in a circle ([chain_of_link],
      [circle_never_ends]); a pose is that of the parent and the joint between
      ([pose_recursion]); the buffer of joint states stays sorted and within
      its bounds ([adding_keeps_buffer]), and a frame is enriched or refused on
      every branch as stated ([enrich_outcome]).
    - Transforms: an identity moves nothing, an inverse is undone by another,
      and Euler angles come back with their pitch mirrored
      ([pitch_comes_back_mirrored]).
    - Health: when missed keepalives kill a connection.
    - Recording: what a finished recording holds is the output of the session
      ([recording_delivered], against the interface of the writers); a signed
      recording verifies ([signed_recording_verifies]) and a chunk that
      verifies was signed with the key ([accepted_chunk_was_signed]).
    - SSH client: a known host keeps its key whatever other visits write
      ([known_host_pinned]), and a connection outside the insecure mode is made
      to the key of the store ([connect_pins_key]).
    - Fleet: never more tasks than permits, every execution ends, and the
      results are those of the tasks ([fleet_results_sound]).
    - Logins and sessions: a login that succeeds is the one the next program
      loads ([login_survives], from [saved_config_loads]); saving gives the file
      only to the user behind sudo ([saving_is_careful]); requests go to the
      base of the client with its token ([services_to_base]); connecting joins
      with all the parts of a connection or leaves no tunnel
      ([connect_outcome]), leaving leaves nothing behind
      ([disconnect_leaves_nothing]), and the state says connected only with the
      parts there, under every operation ([operations_coherent]); the discovery
      asks about the unknown devices and no other ([discovery_exact]).
    - Tunnel and nucleus: after a peer is added the interface has the peers the
      tunnel knows, a reset of an expired tunnel included
      ([add_peer_restores]); the setup of the device on every branch
      ([setup_outcome]); network addresses are the masked addresses
      ([ipv6_network_address_masks]); the nucleus answers every message as its
      protocol says, in order ([nucleus_serves]).
    - Service and commands: the unit of systemd runs the program with the
      arguments it would start a daemon with ([units_run_the_daemon]); a start
      launches only what was asked for and checked
      ([start_launches_vetted], through the login, the API and the
      installation by [zoom]); a service reported as running is backed by what
      the system said ([status_sound]); no command on the settings makes valid
      ones invalid ([config_command_keeps_valid]).
    - Helper: every request is answered as its kind says
      ([requests_answered]); however requests and tasks interleave, the
      attempts to connect are the starts that were accepted, each once, and
      the manager is connected only to the network of one of them
      ([helper_accounts]); a stop leaves the starts that wait
      ([stop_keeps_waiting]); every connection is served
      ([every_connection_served]) and errors read back as sent
      ([errors_read_back]).
    - SSH commands: a connection asks the system for no name of a peer and
      goes to the address of the peer ([names_stay_in_network]), the one
      [resolves_namesakes_first] says; copies deliver the whole file
      ([transfers_copy]), the arguments of scp are read as meant
      ([scp_reads_both]) up to the misreadings shown, and the standalone server
      admits what its arguments name ([server_lets_in]).
    - Desktop: choosing an exit node is out of the reach of the window
      ([exit_node_out_of_reach], an invariant of all its commands); connecting
      ends once the deadline has passed, as long as answers can be read
      ([connect_ends], and [connect_may_not_end] without), and succeeds only on
      the word of the helper ([connect_needs_word]); at most one login waits,
      and any that ends takes the sender of that one ([one_login_lives]); what
      the window shows and stops through the socket is the helper's state
      ([state_through_socket], [stop_through_socket]).
    - Desktop data: the plugin of the window is never there
      ([data_collection_never_starts]); pages put together are the list as long
      as nothing wraps ([pages_in_order], [page_wraps]); the simulation stays
      coherent ([simulation_coherent]) and deletes what is named
      ([deletion_exact]); windows stay on their screen ([window_on_screen]).
    - Routing and updates: the default route goes only after the route to the
      nucleus is there ([default_route_deleted_last]); versions are ordered
      ([newer_is_order]); the executable survives a failed installation as its
      backup.

    Theorems about errors record behaviour that a reader of the code may not
    expect (shells past the command filter, a server that never bans, a
    directory that escapes when its parent is missing, bytes lost by a short
    write, a policy on disk that never expires, a sample lost in a race, a
    dead connection revived, a stranger that becomes a peer, a packet accepted
    without its signature, plugin signatures never verified, archives that
    write anywhere, a large episode that wipes the storage, an upload queue
    taken from the wrong end, a demonstration missed by its trigger, an
    episode lost when packaging fails, output lost before the recorder starts,
    a recording outside its directory, a chunk that can be dropped between two
    equal ones, node tags that select everyone, an execution that waits for
    ever without permits, a failed route setup that stays half done, a login
    without a time, a mapping told with the address of the gateway, a network
    recorded that was never joined, a joint that closes a circle, a service
    reported as started whatever became of its commands, a secret that adds
    arguments to a unit, a daemon that takes itself for another, a scan that
    always panics, a start that outlives the stop, a name that resolves to a
    peer that only resembles it, a path of scp taken for a host, a connection
    elsewhere taken for the one asked for, an episode discarded that goes on, a
    recording nobody watched that is empty).

    ** Bounds and fuel

    Integers of the code are [Z] at their width: counters wrap at [u64_max],
    the fields of times at [u32_max]; theorems that need a counter not to wrap
    say so ([handles_never_reused], [ring_keeps_latest], [room] and [in_time]).
    Durations are nanoseconds.  The copy loops of Relay.v run on fuel; the
    theorems ask for more fuel than the stream and the tunnel have turns, and
    prove that the loop then ends.  The wait for approval runs on fuel too,
    which suffices as soon as it exceeds the polls that fit into the timeout
    ([wait_for_approval_ends]).  The loops that make room in the storage get a
    round more than there are episodes, and every round deletes one: their
    outcome is proved with that fuel.  [readdir_drains] bounds the number of
    requests by the number of entries, [queue_drains] the turns by the jobs.
    Address parsing runs on fuel fixed by the number of groups, the digits of a
    duration by their number, the trimming of text by its length.  The reading
    of a command's output runs on fuel that suffices once it exceeds the
    messages the server sends; the polling of the device flow and the wait for
    a browser, on fuel that suffices once it exceeds the answers that decide
    nothing; the trimming of the address of the API, on its length; the reader
    of MCAP records, on fuel that the length of the file bounds; the climb from a
    link to its root, on one more than there are links; the server of a nucleus, on fuel that suffices once it
    exceeds the events until it is stopped; the loop that accepts the helper's
    connections, on the length of its events; the wait of the window for a
    connection, on more than its deadline has half seconds (121 rounds); a copy over SFTP, on fuel that
    exceeds the chunks of the file; a binary search, on the length of
    the slice; finalizing a recording writer, on the number of
    integrity writers around it.  All other recursion is structural.

    ** Parameters

    The regex crate ([RegexEngine]), the UTC calendar of chrono
    ([UtcCalendar]), the JSON codec of policies ([PolicyCodec]), the defaults
    of the russh-sftp crate ([SftpProtocol]), the ipnet crate ([IpNetworks]),
    the backend of the server ([SshBackend]), the codecs and ciphers of the
    signaling messages ([Signaling]), the endpoint sets ([EndpointSets]), the
    disco messages ([Disco]), and the types and codecs of plugin packages
    ([PluginTypes], [PluginCodecs], [StateCodec]), the digests of the ring and
    base64 crates ([Digests]), the JSON of recordings ([RecordingJson]) and of
    releases ([ReleaseJson]), of the API ([ApiJson]) and of the configuration
    ([ConfigCodec]) and of the helper's requests ([HelperJson]) on both sides ([DesktopJson]), the protocol of
    a nucleus (the omninervous crate,
    [NucleusLogic]), the JSON of samples ([SampleJson]), the keys of
    the russh crate ([PublicKeys]) and the functions of libm ([Libm]) are
    classes; the text of
    floating-point numbers and of quoted paths, the decoding of hexadecimal, the
    letters outside ASCII and the parsing of a CIDR are arguments.  Every theorem
    with such a parameter and a hypothesis is applied to a concrete instance.

    ** Not modelled

    Left out as operating-system or network glue: the PTY and incubator, the
    wasmtime runtime and sandbox, TAP devices
    and the feature for layer 2; of the command line, the parsing of arguments
    and everything that is only printed (help, status, version), and the
    commands for plugins, which print what the modelled manager returns; of the
    helper, its installation as a service and its pipe on windows; of the desktop, the
    front end, the installation of the helper, the set-up of the window system,
    the opening of logs and quitting; in the
    modelled files, logging, host keys, the windows branches
    (with the windows service) and the recording feature; of the data
    collection, the web interface of api.rs, the codecs of compression.rs and
    the record of metadata.rs beyond what a package uses.  The plugin of
    Collector.v calls the packager as an effect that promises to keep the name
    of the episode, a promise Packager.v discharges.  The handler of Handler.v
    is the build without the recording feature; Recording.v has the lines the
    feature adds to it. *)

From Stdlib Require Export ZArith Lia.
From Stdlib Require Import Ascii.
From stdpp Require Export base gmap strings list pretty sorting.

Open Scope Z_scope.

(** ** Automation shared by all components *)

(** Facts that rewrite or resolve without side conditions worth naming. *)
Create HintDb omni discriminated.
Create Rewrite HintDb omni_str.

(** Case analysis on every scrutinee of a [match] or [if] in the goal and in
    the hypotheses, keeping the equations. *)
Ltac split_match := repeat case_match.

(** Turn boolean comparisons into propositions. *)
Ltac reflect_bools :=
  repeat match goal with
  | H : (_ <? _) = true |- _ => apply Z.ltb_lt in H
  | H : (_ <? _) = false |- _ => apply Z.ltb_ge in H
  | H : (_ <=? _) = true |- _ => apply Z.leb_le in H
  | H : (_ <=? _) = false |- _ => apply Z.leb_gt in H
  | H : (_ =? _) = true |- _ => apply Z.eqb_eq in H
  | H : (_ =? _) = false |- _ => apply Z.eqb_neq in H
  | H : (_ && _) = true |- _ => apply andb_true_iff in H; destruct H
  | H : (_ || _) = false |- _ => apply orb_false_iff in H; destruct H
  | H : negb _ = true |- _ => apply negb_true_iff in H
  | H : negb _ = false |- _ => apply negb_false_iff in H
  | H : bool_decide _ = true |- _ => apply bool_decide_eq_true in H
  | H : bool_decide _ = false |- _ => apply bool_decide_eq_false in H
  end.

(** Evaluate a goal whose subject is closed. *)
Ltac by_compute := vm_compute; first [ reflexivity | intuition congruence ].

(** ** Results: the Rust type [Result<A, E>] *)

Inductive result (E A : Type) : Type :=
| Ok (a : A)
| Err (e : E).
Arguments Ok {E A} _.
Arguments Err {E A} _.

#[global] Instance result_ret E : MRet (result E) := fun A a => Ok a.
#[global] Instance result_bind E : MBind (result E) := fun A B f r =>
  match r with Ok a => f a | Err e => Err e end.
#[global] Instance result_fmap E : FMap (result E) := fun A B f r =>
  match r with Ok a => Ok (f a) | Err e => Err e end.

(** [r.ok()]. *)
Definition ok {E A} (r : result E A) : option A :=
  match r with Ok a => Some a | Err _ => None end.

(** [o.ok_or(e)]. *)
Definition ok_or {E A} (e : E) (o : option A) : result E A :=
  match o with Some a => Ok a | None => Err e end.

(** [r.is_ok()]. *)
Definition is_ok {E A} (r : result E A) : bool :=
  match r with Ok _ => true | Err _ => false end.

Lemma result_bind_ok {E A B} (f : A -> result E B) (r : result E A) b :
  r ≫= f = Ok b -> exists a, r = Ok a /\ f a = Ok b.
Proof. destruct r; simpl; [eauto | discriminate]. Qed.

Lemma ok_or_Ok {E A} (e : E) (o : option A) a : ok_or e o = Ok a <-> o = Some a.
Proof. destruct o; simpl; split; congruence. Qed.

(** Peel the binds of a successful computation. *)
Ltac inv_result :=
  repeat match goal with
  | H : (_ ≫= _) = Ok _ |- _ =>
      let Ha := fresh "Hbind" in
      apply result_bind_ok in H as (? & Ha & H)
  | H : ok_or _ _ = Ok _ |- _ => apply ok_or_Ok in H
  | H : Ok _ = Ok _ |- _ => injection H as H; subst
  | H : Ok _ = Err _ |- _ => discriminate
  | H : Err _ = Ok _ |- _ => discriminate
  end.

(** ** Machine integers *)

Definition u16_max : Z := 2 ^ 16 - 1.
Definition u32_max : Z := 2 ^ 32 - 1.
Definition u64_max : Z := 2 ^ 64 - 1.

(** Wrapping addition, the behaviour of [fetch_add] on [AtomicU64] and of
    [+] on integers in a release build. *)
Definition wrap_add (max a b : Z) : Z := (a + b) `mod` (max + 1).

(** [saturating_sub] on unsigned integers. *)
Definition sat_sub (a b : Z) : Z := Z.max 0 (a - b).

Lemma wrap_add_small max a b :
  0 <= a + b <= max -> wrap_add max a b = a + b.
Proof. intros. unfold wrap_add. apply Z.mod_small. lia. Qed.

Lemma wrap_add_bound max a b : 0 <= max -> 0 <= wrap_add max a b <= max.
Proof.
  intros. unfold wrap_add.
  pose proof (Z.mod_pos_bound (a + b) (max + 1) ltac:(lia)). lia.
Qed.

(** ** Time

    A [Duration] is a number of nanoseconds; an [Instant] is a reading of the
    monotonic clock in nanoseconds.  A call that reads the clock several times
    takes the sequence of its readings. *)

Definition nanos_per_sec : Z := 1000000000.
Definition from_secs (s : Z) : Z := s * nanos_per_sec.
Definition duration_max : Z := u64_max * nanos_per_sec + 999999999.

(** [Instant::elapsed] and [duration_since] saturate at zero. *)
Definition elapsed (since now : Z) : Z := sat_sub now since.

Definition Clock := nat -> Z.
Definition monotone_clock (clk : Clock) : Prop :=
  forall i j, (i <= j)%nat -> clk i <= clk j.

Lemma const_clock_monotone t : monotone_clock (fun _ => t).
Proof. intros i j _. lia. Qed.
#[export] Hint Resolve const_clock_monotone : omni.

(** ** Option and list lemmas the components share *)

(** [Vec::push]. *)
Definition push {A} (l : list A) (x : A) : list A := l ++ [x].

Lemma existsb_elem_of {A} (f : A -> bool) l :
  existsb f l = true <-> exists x, x ∈ l /\ f x = true.
Proof.
  rewrite existsb_exists. setoid_rewrite list_elem_of_In. done.
Qed.

Lemma existsb_false {A} (f : A -> bool) l :
  existsb f l = false <-> forall x, x ∈ l -> f x = false.
Proof.
  rewrite <- not_true_iff_false, existsb_elem_of. split.
  - intros Hn x Hx. destruct (f x) eqn:E; [exfalso; eauto | done].
  - intros Hall (x & Hx & E). rewrite Hall in E; congruence.
Qed.

Lemma succ_mod n c : (0 < c)%nat -> (S n mod c = if S (n mod c) =? c then 0 else S (n mod c))%nat.
Proof.
  intros Hc. pose proof (Nat.div_mod_eq n c) as Hd. pose proof (Nat.mod_upper_bound n c ltac:(lia)) as Hm.
  destruct (Nat.eqb_spec (S (n mod c)) c) as [E|E].
  - symmetry. apply (Nat.mod_unique _ _ (S (n / c))); lia.
  - symmetry. apply (Nat.mod_unique _ _ (n / c)); lia.
Qed.

(** Reachability: the reflexive transitive closure of a labelled step. *)
Section Runs.
Context {S L : Type} (step : S -> L -> S -> Prop).

Inductive run : S -> list L -> S -> Prop :=
| run_nil s : run s [] s
| run_cons s l s1 ls s2 : step s l s1 -> run s1 ls s2 -> run s (l :: ls) s2.

Lemma run_invariant (I : S -> Prop) :
  (forall s l s', I s -> step s l s' -> I s') ->
  forall s ls s', run s ls s' -> I s -> I s'.
Proof. intros Hstep s ls s'. induction 1; eauto. Qed.

Lemma run_app s1 l1 s2 l2 s3 : run s1 l1 s2 -> run s2 l2 s3 -> run s1 (l1 ++ l2) s3.
Proof. induction 1; simpl; [done | econstructor; eauto]. Qed.
End Runs.
