(* ===== verification/RustStr.v ===== *)
(** * Rust strings

    The [str] and [String] operations the sources use, on byte strings.  All
    the separators and affixes the sources search for are ASCII, so the
    byte-wise operations below agree with the UTF-8 ones. *)

From Stdlib Require Import Ascii.
From S2P Require Import Prelude.

Open Scope string_scope.
Open Scope list_scope.
Open Scope Z_scope.

(** ** Affixes and search *)

(** [s.starts_with(p)]. *)
Definition starts_with (s p : string) : bool := String.prefix p s.

(** [&s[n..]] at a byte index inside the string. *)
Fixpoint drop_str (n : nat) (s : string) : string :=
  match n, s with
  | O, _ => s
  | S n, String _ s => drop_str n s
  | S _, EmptyString => EmptyString
  end.

(** [&s[..n]]. *)
Fixpoint take_str (n : nat) (s : string) : string :=
  match n, s with
  | S n, String a s => String a (take_str n s)
  | _, _ => EmptyString
  end.

(** [s.ends_with(p)]. *)
Definition ends_with (s p : string) : bool :=
  (String.length p <=? String.length s)%nat &&
  bool_decide (drop_str (String.length s - String.length p) s = p).

(** [s.contains(p)]. *)
Fixpoint contains (s p : string) : bool :=
  starts_with s p ||
  match s with EmptyString => false | String _ s' => contains s' p end.

(** [s.find(c)], the byte index of the first occurrence. *)
Fixpoint find_char (c : ascii) (s : string) : option nat :=
  match s with
  | EmptyString => None
  | String a s' => if bool_decide (a = c) then Some O else S <$> find_char c s'
  end.

(** [s.rfind(c)]. *)
Fixpoint rfind_char (c : ascii) (s : string) : option nat :=
  match s with
  | EmptyString => None
  | String a s' =>
      match rfind_char c s' with
      | Some n => Some (S n)
      | None => if bool_decide (a = c) then Some O else None
      end
  end.

(** [s.split(c).collect::<Vec<_>>()]. *)
Fixpoint split (c : ascii) (s : string) : list string :=
  match s with
  | EmptyString => [""]
  | String a s' =>
      if bool_decide (a = c) then "" :: split c s'
      else match split c s' with
           | w :: ws => String a w :: ws
           | [] => [String a ""]
           end
  end.

(** [parts.join(c)]. *)
Fixpoint join (c : ascii) (ws : list string) : string :=
  match ws with
  | [] => ""
  | [w] => w
  | w :: ws => w +:+ String c (join c ws)
  end.

(** [s.trim_end_matches(c)]. *)
Fixpoint trim_end_matches (c : ascii) (s : string) : string :=
  match s with
  | EmptyString => EmptyString
  | String a s' =>
      match trim_end_matches c s' with
      | EmptyString => if bool_decide (a = c) then EmptyString else String a ""
      | t => String a t
      end
  end.

(** [s.chars().take(n).collect()]: a continuation byte belongs to the
    character before it. *)
Fixpoint take_chars (n : nat) (s : string) : string :=
  match s with
  | EmptyString => EmptyString
  | String a s' =>
      if (128 <=? nat_of_ascii a)%nat && (nat_of_ascii a <? 192)%nat then String a (take_chars n s')
      else match n with O => EmptyString | S n => String a (take_chars n s') end
  end.

Lemma take_chars_short n s : (String.length s <= n)%nat -> take_chars n s = s.
Proof.
  revert n. induction s as [|a s IH]; intros n Hn; [done|]. simpl in *. destruct n as [|n]; [lia|].
  case_match; rewrite IH by lia; done.
Qed.

(** ** Lowercase: [str::to_lowercase]

    ASCII letters, and the two other characters whose lowercase contains an
    ASCII character (the Kelvin sign, U+212A, and the dotted capital I,
    U+0130).  The lowercase of every other character is non-ASCII text, kept
    here as it stands: the sources only compare the result with ASCII text. *)

Definition ascii_lower (a : ascii) : ascii :=
  let n := nat_of_ascii a in
  if (65 <=? n)%nat && (n <=? 90)%nat then ascii_of_nat (n + 32) else a.

Fixpoint to_lowercase (s : string) : string :=
  match s with
  | String "226" (String "132" (String "170" s')) => String "k" (to_lowercase s')
  | String "196" (String "176" s') =>
      String "i" (String "204" (String "135" (to_lowercase s')))
  | String a s' => String (ascii_lower a) (to_lowercase s')
  | EmptyString => EmptyString
  end.

Fixpoint is_ascii_str (s : string) : bool :=
  match s with
  | EmptyString => true
  | String a s' => (nat_of_ascii a <? 128)%nat && is_ascii_str s'
  end.

(** ** Unsigned integers: [FromStr] and [Display] *)

(** The digit in a radix: [char::to_digit]. *)
Definition to_digit (radix : Z) (a : ascii) : option Z :=
  let n := Z.of_nat (nat_of_ascii a) in
  let d := if (48 <=? n) && (n <=? 57) then Some (n - 48)
           else if (97 <=? n) && (n <=? 122) then Some (n - 87)
           else if (65 <=? n) && (n <=? 90) then Some (n - 55)
           else None in
  match d with
  | Some d => if d <? radix then Some d else None
  | None => None
  end.

(** Accumulate decimal digits, failing on another character and on overflow
    ([checked_mul], [checked_add]). *)
Fixpoint parse_digits (max acc : Z) (s : string) : option Z :=
  match s with
  | EmptyString => Some acc
  | String a s' =>
      match to_digit 10 a with
      | Some d => let acc' := acc * 10 + d in
                  if acc' <=? max then parse_digits max acc' s' else None
      | None => None
      end
  end.

(** [s.parse::<uN>()]: an optional plus sign, then at least one digit. *)
Definition parse_uint (max : Z) (s : string) : option Z :=
  match s with
  | EmptyString => None
  | String "+" EmptyString => None
  | String "+" s' => parse_digits max 0 s'
  | _ => parse_digits max 0 s
  end.

(** [format!("{}", n)] for an unsigned integer. *)
Definition show_uint (n : Z) : string := pretty (Z.to_N n).

(** ** Lemmas: affixes *)

Lemma append_nil_r s : s +:+ "" = s.
Proof. induction s; simpl; [done | unfold String.app in *; simpl; congruence]. Qed.

Lemma append_cons a s t : String a s +:+ t = String a (s +:+ t).
Proof. done. Qed.

Lemma append_nil_l t : "" +:+ t = t.
Proof. done. Qed.

Lemma append_assoc s t u : (s +:+ t) +:+ u = s +:+ (t +:+ u).
Proof.
  induction s as [|a s IH]; [done|]. by rewrite !append_cons, IH.
Qed.

Lemma length_append s t : String.length (s +:+ t) = (String.length s + String.length t)%nat.
Proof. induction s as [|a s IH]; [done|]. rewrite append_cons. simpl. by rewrite IH. Qed.

Lemma append_last_inj s t a b : s +:+ String a "" = t +:+ String b "" -> s = t /\ a = b.
Proof.
  revert t. induction s as [|c s IH]; intros [|d t]; rewrite ?append_cons, ?append_nil_l; intros H.
  - by injection H.
  - injection H as _ H. by destruct t.
  - injection H as _ H. by destruct s.
  - injection H as -> H. apply IH in H as [-> ->]. done.
Qed.

Lemma append_inv_l s t u : s +:+ t = s +:+ u -> t = u.
Proof. apply inj, _. Qed.

#[export] Hint Rewrite append_nil_r append_nil_l append_cons length_append : omni_str.

Lemma starts_with_spec s p : starts_with s p = true <-> exists t, s = p +:+ t.
Proof.
  unfold starts_with. revert s. induction p as [|a p IH]; intros s.
  - destruct s; simpl; (split; [intros _; eexists; by rewrite append_nil_l | done]).
  - destruct s as [|b s]; simpl.
    + split; [done | intros [t Ht]; rewrite append_cons in Ht; congruence].
    + destruct (ascii_dec a b) as [->|Hne].
      * rewrite IH. setoid_rewrite append_cons. split; intros [t Ht]; exists t; congruence.
      * split; [done | intros [t Ht]; rewrite append_cons in Ht; congruence].
Qed.

Lemma starts_with_app p t : starts_with (p +:+ t) p = true.
Proof. apply starts_with_spec. eauto. Qed.

Lemma starts_with_refl p : starts_with p p = true.
Proof. apply starts_with_spec. exists "". by rewrite append_nil_r. Qed.

Lemma drop_str_app s t : drop_str (String.length s) (s +:+ t) = t.
Proof. induction s as [|a s IH]; [by destruct t |]. by rewrite append_cons. Qed.

Lemma take_drop_str n s : take_str n s +:+ drop_str n s = s.
Proof.
  revert s. induction n as [|n IH]; intros [|a s]; simpl; try done.
  by rewrite append_cons, IH.
Qed.

Lemma length_take_str n s :
  (n <= String.length s)%nat -> String.length (take_str n s) = n.
Proof.
  revert s. induction n as [|n IH]; intros [|a s]; simpl; intros; try lia.
  rewrite IH; lia.
Qed.

Lemma length_drop_str n s : String.length (drop_str n s) = (String.length s - n)%nat.
Proof. revert s. induction n as [|n IH]; intros [|a s]; simpl; auto. Qed.

Lemma ends_with_spec s p : ends_with s p = true <-> exists t, s = t +:+ p.
Proof.
  unfold ends_with. rewrite andb_true_iff, Nat.leb_le, bool_decide_eq_true. split.
  - intros [Hlen Hd].
    exists (take_str (String.length s - String.length p) s). rewrite <- Hd at 2.
    by rewrite take_drop_str.
  - intros [t ->]. rewrite length_append. split; [lia|].
    replace (String.length t + String.length p - String.length p)%nat
      with (String.length t) by lia.
    apply drop_str_app.
Qed.

Lemma contains_spec s p : contains s p = true <-> exists a b, s = a +:+ p +:+ b.
Proof.
  induction s as [|c s IH]; cbn [contains]; rewrite orb_true_iff, starts_with_spec.
  - split.
    + intros [[t Ht]|]; [|done]. by exists "", t.
    + intros (a & b & Hab). left. destruct a; [by exists b | discriminate].
  - rewrite IH. split.
    + intros [[t Ht]|(a & b & ->)]; [by exists "", t|]. by exists (String c a), b.
    + intros ([|c' a] & b & Hab); [left; by exists b|].
      right. exists a, b. rewrite append_cons in Hab. congruence.
Qed.

(** ** Lemmas: splitting *)

Lemma split_not_nil c s : split c s <> [].
Proof. destruct s; simpl; [done|]. case_bool_decide; [done|]. by destruct (split c s). Qed.

Lemma join_split c s : join c (split c s) = s.
Proof.
  induction s as [|a s IH]; [done|]. simpl. pose proof (split_not_nil c s) as Hne.
  case_bool_decide as E; subst.
  - destruct (split c s) eqn:Es; [done|]. simpl in *. by rewrite append_nil_l, IH.
  - destruct (split c s) as [|w [|w' ws]] eqn:Es; [done| |]; simpl in *.
    + by rewrite IH.
    + by rewrite append_cons, IH.
Qed.

(** A string without the separator. *)
Definition no_char (c : ascii) (s : string) : Prop := find_char c s = None.

Lemma no_char_cons c a s : no_char c (String a s) <-> a <> c /\ no_char c s.
Proof.
  unfold no_char. simpl. case_bool_decide; [by split; [|intros []]|].
  destruct (find_char c s); simpl; split; intuition congruence.
Qed.

Lemma no_char_app c s t : no_char c s -> no_char c t -> no_char c (s +:+ t).
Proof.
  intros Hs Ht. induction s as [|a s IH]; [done|]. apply no_char_cons in Hs as [Ha Hs].
  rewrite append_cons. apply no_char_cons. auto.
Qed.

Lemma split_no_char c s : no_char c s -> split c s = [s].
Proof.
  induction s as [|a s IH]; [done|]. rewrite no_char_cons. intros [Ha Hs].
  simpl. rewrite bool_decide_false by done. by rewrite IH.
Qed.

Lemma split_app c s t : no_char c s -> split c (s +:+ String c t) = s :: split c t.
Proof.
  induction s as [|a s IH].
  - intros _. rewrite append_nil_l. simpl. by rewrite bool_decide_true.
  - rewrite no_char_cons. intros [Ha Hs]. rewrite append_cons. simpl.
    rewrite bool_decide_false by done. by rewrite IH.
Qed.

Lemma split_join c ws :
  ws <> [] -> Forall (no_char c) ws -> split c (join c ws) = ws.
Proof.
  induction ws as [|w ws IH]; [done|]. intros _ Hall. inversion Hall; subst.
  destruct ws as [|w' ws].
  - by apply split_no_char.
  - change (join c (w :: w' :: ws)) with (w +:+ String c (join c (w' :: ws))).
    rewrite split_app by done. by rewrite IH.
Qed.

Lemma split_no_char_all c s : Forall (no_char c) (split c s).
Proof.
  induction s as [|a s IH]; simpl; [by repeat constructor|].
  case_bool_decide as E; [by constructor|].
  destruct (split c s) as [|w ws]; inversion IH; subst;
    repeat constructor; try done; by apply no_char_cons.
Qed.

Lemma rfind_no_char c s : no_char c s -> rfind_char c s = None.
Proof.
  induction s as [|a s IH]; [done|]. intros [Ha Hs]%no_char_cons. simpl. rewrite IH by done.
  by rewrite bool_decide_false.
Qed.

Lemma take_str_app s t : take_str (String.length s) (s +:+ t) = s.
Proof. induction s as [|a s IH]; [by destruct t|]. rewrite append_cons. simpl. by rewrite IH. Qed.

Lemma drop_str_S_app c s t : drop_str (S (String.length s)) (s +:+ String c t) = t.
Proof. induction s as [|a s IH]; [done|]. rewrite append_cons. exact IH. Qed.

(** ** Lemmas: integers *)

Lemma pretty_N_char_digit d :
  (d < 10)%N -> to_digit 10 (pretty_N_char d) = Some (Z.of_N d).
Proof.
  intros Hd. assert (d = 0 \/ d = 1 \/ d = 2 \/ d = 3 \/ d = 4 \/ d = 5 \/ d = 6 \/ d = 7
    \/ d = 8 \/ d = 9)%N as Hcases by lia.
  intuition (subst; reflexivity).
Qed.

Lemma parse_digits_go max n s :
  Z.of_N n <= max ->
  parse_digits max 0 (pretty_N_go n s) = parse_digits max (Z.of_N n) s.
Proof.
  revert s. induction (N.lt_wf_0 n) as [n _ IH]. intros s Hmax.
  destruct (N.lt_decidable 0 n) as [Hpos|Hz].
  - rewrite pretty_N_go_step by done.
    assert (n / 10 < n)%N by (apply N.div_lt; lia).
    rewrite IH; [|done|lia]. cbn [parse_digits].
    rewrite pretty_N_char_digit by (apply N.mod_lt; lia).
    assert (Z.of_N (n / 10) * 10 + Z.of_N (n mod 10) = Z.of_N n) as ->.
    { rewrite N2Z.inj_div, N2Z.inj_mod. pose proof (Z.div_mod (Z.of_N n) 10). lia. }
    apply Z.leb_le in Hmax. by rewrite Hmax.
  - assert (n = 0%N) as -> by lia. by rewrite pretty_N_go_0.
Qed.

Lemma pretty_N_go_nil n s : pretty_N_go n s = "" -> s = "".
Proof.
  revert s. induction (N.lt_wf_0 n) as [n _ IH]. intros s Hs.
  destruct (N.lt_decidable 0 n) as [Hn|Hn].
  - rewrite pretty_N_go_step in Hs by done. apply IH in Hs; [done|].
    apply N.div_lt; lia.
  - assert (n = 0%N) as -> by lia. by rewrite pretty_N_go_0 in Hs.
Qed.

Lemma pretty_N_not_nil (n : N) : pretty n <> "".
Proof.
  unfold pretty, pretty_N. case_decide; [done|].
  rewrite pretty_N_go_step by lia. by intros ?%pretty_N_go_nil.
Qed.

Lemma parse_digits_pretty max (n : N) :
  Z.of_N n <= max -> parse_digits max 0 (pretty n) = Some (Z.of_N n).
Proof.
  intros Hn. unfold pretty, pretty_N. case_decide as E.
  - subst. change (parse_digits max 0 "0") with (if 0 <=? max then Some 0 else None).
    destruct (Z.leb_spec 0 max); [done | lia].
  - by rewrite parse_digits_go.
Qed.

(** [Display] followed by [FromStr] is the identity on in-range integers. *)
Lemma parse_show_uint max n : 0 <= n <= max -> parse_uint max (show_uint n) = Some n.
Proof.
  intros Hn. unfold show_uint, parse_uint.
  pose proof (parse_digits_pretty max (Z.to_N n) ltac:(lia)) as Hgo.
  rewrite Z2N.id in Hgo by lia.
  destruct (pretty (Z.to_N n)) as [|a s] eqn:E; [by apply pretty_N_not_nil in E|].
  destruct a as [[] [] [] [] [] [] [] []]; try exact Hgo; done.
Qed.

Lemma parse_digits_bound max acc s n :
  0 <= acc -> parse_digits max acc s = Some n -> acc <= max -> 0 <= n <= max.
Proof.
  revert acc. induction s as [|a s IH]; simpl; intros acc Ha Hp Hm; [simplify_eq; lia|].
  destruct (to_digit 10 a) as [d|] eqn:Ed; [|done].
  assert (0 <= d).
  { unfold to_digit in Ed. split_match; simplify_eq; reflect_bools; lia. }
  destruct (acc * 10 + d <=? max) eqn:E; [|done]. reflect_bools.
  eapply IH; [|done|]; lia.
Qed.

(** A parsed integer is within the width asked for. *)
Lemma parse_uint_bound max s n : 0 <= max -> parse_uint max s = Some n -> 0 <= n <= max.
Proof.
  intros Hm Hp. unfold parse_uint in Hp.
  assert (exists t, parse_digits max 0 t = Some n) as [t Ht].
  { split_match; simplify_eq; eauto. }
  eapply parse_digits_bound; [|done|]; lia.
Qed.

Lemma pretty_N_char_plain (c : ascii) d :
  to_digit 10 c = None -> (d < 10)%N -> pretty_N_char d <> c.
Proof. intros Hc Hd <-. by rewrite pretty_N_char_digit in Hc. Qed.

Lemma pretty_N_go_no_char c n s :
  to_digit 10 c = None -> no_char c s -> no_char c (pretty_N_go n s).
Proof.
  intros Hc. revert s. induction (N.lt_wf_0 n) as [n _ IH]. intros s Hs.
  destruct (N.lt_decidable 0 n) as [Hn|Hn].
  - rewrite pretty_N_go_step by done. apply IH; [apply N.div_lt; lia|].
    apply no_char_cons. split; [|done].
    apply pretty_N_char_plain; [done | apply N.mod_lt; lia].
  - assert (n = 0%N) as -> by lia. by rewrite pretty_N_go_0.
Qed.

(** The text of an integer contains only digits. *)
Lemma show_uint_no_char c n : to_digit 10 c = None -> no_char c (show_uint n).
Proof.
  intros Hc. unfold show_uint, pretty, pretty_N. case_decide.
  - apply no_char_cons. split; [|done]. by intros <-.
  - by apply pretty_N_go_no_char.
Qed.

(** ** Bytes and UTF-8 *)

Definition bytes_string (l : list Z) : string :=
  String.string_of_list_ascii (map (fun b => ascii_of_nat (Z.to_nat b)) l).

(** [s.as_bytes()]. *)
Definition string_bytes (s : string) : list Z := map (fun a => Z.of_N (N_of_ascii a)) (String.list_ascii_of_string s).

Lemma string_bytes_range s : Forall (fun b => 0 <= b < 256) (string_bytes s).
Proof.
  unfold string_bytes. apply Forall_map, Forall_true. intros a. pose proof (N_ascii_bounded a). simpl. lia.
Qed.

Lemma bytes_string_bytes s : bytes_string (string_bytes s) = s.
Proof.
  unfold bytes_string, string_bytes. rewrite map_map.
  rewrite (map_ext _ id), map_id; [apply String.string_of_list_ascii_of_string|].
  intros a. rewrite <- Z_N_nat, N2Z.id. apply ascii_nat_embedding.
Qed.

Lemma string_bytes_string l : Forall (fun b => 0 <= b < 256) l -> string_bytes (bytes_string l) = l.
Proof.
  unfold bytes_string, string_bytes. rewrite String.list_ascii_of_string_of_list_ascii, map_map.
  induction 1 as [|b l Hb _ IH]; [done|]. simpl. rewrite IH. f_equal.
  unfold ascii_of_nat. rewrite Z_nat_N, N_ascii_embedding by lia. lia.
Qed.

Definition in_range (lo hi b : Z) : bool := (lo <=? b) && (b <=? hi).

(** The well-formed byte sequences of UTF-8. *)
Fixpoint valid_utf8 (l : list Z) : bool :=
  match l with
  | [] => true
  | b :: l1 =>
      if in_range 0 127 b then valid_utf8 l1
      else match l1 with
      | [] => false
      | c :: l2 =>
          if in_range 194 223 b then in_range 128 191 c && valid_utf8 l2
          else match l2 with
          | [] => false
          | d :: l3 =>
              if in_range 224 239 b then
                (if b =? 224 then in_range 160 191 c else if b =? 237 then in_range 128 159 c
                 else in_range 128 191 c) && in_range 128 191 d && valid_utf8 l3
              else match l3 with
              | [] => false
              | e :: l4 =>
                  in_range 240 244 b &&
                  (if b =? 240 then in_range 144 191 c else if b =? 244 then in_range 128 143 c
                   else in_range 128 191 c) && in_range 128 191 d && in_range 128 191 e && valid_utf8 l4
              end
          end
      end
  end.

(** The second byte of a sequence of three or four. *)
Definition second_ok (b c : Z) : bool :=
  if b =? 224 then in_range 160 191 c else if b =? 237 then in_range 128 159 c
  else if b =? 240 then in_range 144 191 c else if b =? 244 then in_range 128 143 c
  else in_range 128 191 c.

(** The sequence that starts with [b]: whether it is well formed, and how many
    bytes it has up to its end or its first fault.  A missing byte is zero. *)
Definition utf8_sequence (b : Z) (l : list Z) : bool * nat :=
  let get i := nth i l 0 in
  let cont i := in_range 128 191 (get i) in
  if in_range 0 127 b then (true, 1%nat)
  else if in_range 194 223 b then if cont 0%nat then (true, 2%nat) else (false, 1%nat)
  else if in_range 224 239 b then
    if negb (second_ok b (get 0%nat)) then (false, 1%nat)
    else if cont 1%nat then (true, 3%nat) else (false, 2%nat)
  else if in_range 240 244 b then
    if negb (second_ok b (get 0%nat)) then (false, 1%nat)
    else if negb (cont 1%nat) then (false, 2%nat)
    else if cont 2%nat then (true, 4%nat) else (false, 3%nat)
  else (false, 1%nat).

(** [String::from_utf8_lossy]: each faulty sequence becomes U+FFFD. *)
Fixpoint lossy_from (skip : nat) (l : list Z) : list Z :=
  match l with
  | [] => []
  | b :: l' =>
      match skip with
      | S k => lossy_from k l'
      | O => let '(ok, n) := utf8_sequence b l' in
             (if ok then take n l else [239; 191; 189]) ++ lossy_from (n - 1) l'
      end
  end.

Definition from_utf8_lossy (l : list Z) : list Z := lossy_from 0 l.

Lemma second_ok_3 b c :
  in_range 224 239 b = true ->
  (if b =? 224 then in_range 160 191 c else if b =? 237 then in_range 128 159 c
   else in_range 128 191 c) = second_ok b c.
Proof.
  unfold second_ok, in_range at 1. intros [_ ?%Z.leb_le]%andb_true_iff.
  destruct (b =? 224); [done|]. destruct (b =? 237); [done|].
  destruct (Z.eqb_spec b 240); [lia|]. by destruct (Z.eqb_spec b 244); [lia|].
Qed.

Lemma second_ok_4 b c :
  in_range 240 244 b = true ->
  (if b =? 240 then in_range 144 191 c else if b =? 244 then in_range 128 143 c
   else in_range 128 191 c) = second_ok b c.
Proof.
  unfold second_ok, in_range at 1. intros [?%Z.leb_le _]%andb_true_iff.
  destruct (Z.eqb_spec b 224); [lia|]. by destruct (Z.eqb_spec b 237); [lia|].
Qed.

(** Well-formed text is left as it is. *)
Lemma from_utf8_lossy_valid l : valid_utf8 l = true -> from_utf8_lossy l = l.
Proof.
  unfold from_utf8_lossy. remember (length l) as n eqn:Hn. revert l Hn.
  induction n as [n IH] using lt_wf_ind. intros [|b l1] Hn; [done|]. cbn [valid_utf8 lossy_from].
  unfold utf8_sequence. destruct (in_range 0 127 b).
  { intros Hv. simpl. f_equal. apply (IH (length l1)); simpl in *; [lia|done|done]. }
  destruct l1 as [|c l2]; [done|]. destruct (in_range 194 223 b).
  { intros [Hc Hv]%andb_true_iff. cbn [nth]. rewrite Hc. simpl. do 2 f_equal.
    apply (IH (length l2)); simpl in *; [lia|done|done]. }
  destruct l2 as [|d l3]; [done|]. destruct (in_range 224 239 b) eqn:H3.
  { rewrite second_ok_3 by done. intros [[Hc Hd]%andb_true_iff Hv]%andb_true_iff.
    cbn [nth]. rewrite Hc, Hd. simpl. do 3 f_equal.
    apply (IH (length l3)); simpl in *; [lia|done|done]. }
  destruct l3 as [|e l4]; [done|]. destruct (in_range 240 244 b) eqn:H4; [|done].
  rewrite second_ok_4 by done.
  intros [[[Hc Hd]%andb_true_iff He]%andb_true_iff Hv]%andb_true_iff; cbn [andb] in Hc.
  cbn [nth]. rewrite Hc, Hd, He. simpl. do 4 f_equal.
  apply (IH (length l4)); simpl in *; [lia|done|done].
Qed.

(** ** Blank text: [s.trim().is_empty()]

    Every character has the Unicode property White_Space. *)
Definition ascii_white (a : ascii) : bool :=
  let n := nat_of_ascii a in in_range 9 13 (Z.of_nat n) || (n =? 32)%nat.

Fixpoint is_blank (s : string) : bool :=
  match s with
  | EmptyString => true
  | String "194" (String "133" s') | String "194" (String "160" s') => is_blank s'
  | String "225" (String "154" (String "128" s')) => is_blank s'
  | String "226" (String "128" (String c s')) =>
      let n := Z.of_nat (nat_of_ascii c) in
      (in_range 128 138 n || in_range 168 169 n || (n =? 175)) && is_blank s'
  | String "226" (String "129" (String "159" s')) => is_blank s'
  | String "227" (String "128" (String "128" s')) => is_blank s'
  | String a s' => ascii_white a && is_blank s'
  end.

Example is_blank_examples :
  map is_blank [""; " "; String "009" (String "010" " "); " x "; String "194" (String "160" "");
                String "226" (String "128" (String "139" ""))] = [true; true; true; false; true; false].
Proof. reflexivity. Qed.

(** ** White space: [trim], [split_whitespace] *)

(** The bytes of the white-space character the text starts with, 0 if it
    starts with another one. *)
Definition white_len (s : string) : nat :=
  match s with
  | EmptyString => 0
  | String "194" (String "133" _) | String "194" (String "160" _) => 2
  | String "225" (String "154" (String "128" _)) => 3
  | String "226" (String "128" (String c _)) =>
      let n := Z.of_nat (nat_of_ascii c) in
      if in_range 128 138 n || in_range 168 169 n || (n =? 175) then 3 else 0
  | String "226" (String "129" (String "159" _)) | String "227" (String "128" (String "128" _)) => 3
  | String a _ => if ascii_white a then 1 else 0
  end.

(** [skip]: bytes of the current white-space character still to pass. *)
Fixpoint trim_start_from (skip : nat) (s : string) : string :=
  match s with
  | EmptyString => EmptyString
  | String a s' =>
      match skip with
      | S k => trim_start_from k s'
      | O => match white_len s with O => s | S k => trim_start_from k s' end
      end
  end.

Fixpoint trim_end (s : string) : string :=
  if is_blank s then EmptyString
  else match s with String a s' => String a (trim_end s') | EmptyString => EmptyString end.

(** [s.trim()]. *)
Definition trim (s : string) : string := trim_end (trim_start_from 0 s).

(** The word read so far, unless it is empty. *)
Definition flush_word (cur : string) : list string := if bool_decide (cur = "") then [] else [cur].

Fixpoint words_from (skip : nat) (cur : string) (s : string) : list string :=
  match s with
  | EmptyString => flush_word cur
  | String a s' =>
      match skip with
      | S k => words_from k cur s'
      | O => match white_len s with
             | O => words_from 0 (cur +:+ String a "") s'
             | S k => flush_word cur ++ words_from k "" s'
             end
      end
  end.

(** [s.split_whitespace().collect::<Vec<_>>()]. *)
Definition split_whitespace (s : string) : list string := words_from 0 "" s.

Example white_space_examples :
  trim (String "009" "  a b " +:+ String "194" (String "160" "")) = "a b" /\
  split_whitespace " host  ssh-rsa AAAA " = ["host"; "ssh-rsa"; "AAAA"] /\ split_whitespace "  " = [].
Proof. by vm_compute. Qed.

(** ASCII text without white space is one word. *)
Fixpoint dark (s : string) : bool :=
  match s with
  | EmptyString => true
  | String a s' => (nat_of_ascii a <? 128)%nat && negb (ascii_white a) && dark s'
  end.

Lemma white_len_dark a s : (nat_of_ascii a <? 128)%nat && negb (ascii_white a) = true -> white_len (String a s) = 0%nat.
Proof.
  intros [Ha Hw]%andb_true_iff. apply negb_true_iff in Hw. apply Nat.ltb_lt in Ha. unfold white_len. rewrite Hw.
  destruct a as [[] [] [] [] [] [] [] []]; try reflexivity; exfalso; vm_compute in Ha; lia.
Qed.

Lemma words_dark cur s t :
  dark s = true -> words_from 0 cur (s +:+ t) = words_from 0 (cur +:+ s) t.
Proof.
  revert cur. induction s as [|a s IH]; intros cur; [by rewrite append_nil_r|]. cbn [dark].
  intros [Ha Hs]%andb_true_iff. rewrite append_cons. cbn [words_from]. rewrite white_len_dark by done.
  rewrite IH by done. by rewrite append_assoc.
Qed.

Lemma words_space cur t : words_from 0 cur (String " " t) = flush_word cur ++ words_from 0 "" t.
Proof. done. Qed.

(** Words joined by blanks are found again. *)
Lemma split_whitespace_join ws :
  Forall (fun w => dark w = true /\ w <> "") ws -> split_whitespace (join " " ws) = ws.
Proof.
  unfold split_whitespace. induction 1 as [|w ws [Hd Hne] Hws IH]; [done|].
  assert (flush_word w = [w]) as Hf by (unfold flush_word; by rewrite bool_decide_false).
  destruct ws as [|w' ws].
  - cbn [join]. rewrite <- (append_nil_r w) at 1. rewrite words_dark by done. cbn [words_from].
    by rewrite append_nil_l, Hf.
  - change (join " " (w :: w' :: ws)) with (w +:+ String " " (join " " (w' :: ws))).
    rewrite words_dark, append_nil_l, words_space, IH, Hf by done. done.
Qed.

Lemma is_blank_ascii a s : (nat_of_ascii a <? 128)%nat = true -> is_blank (String a s) = ascii_white a && is_blank s.
Proof.
  intros Ha. apply Nat.ltb_lt in Ha.
  destruct a as [[] [] [] [] [] [] [] []]; try reflexivity; exfalso; vm_compute in Ha; lia.
Qed.

Lemma dark_ascii s : dark s = true -> is_ascii_str s = true.
Proof. induction s as [|a s IH]; [done|]. simpl. intros [[-> _]%andb_true_iff Hs]%andb_true_iff. by apply IH. Qed.

Lemma is_blank_dark_end u s :
  is_ascii_str u = true -> dark s = true -> s <> "" -> is_blank (u +:+ s) = false.
Proof.
  intros Hu Hs Hne. induction u as [|a u IH].
  - rewrite append_nil_l. destruct s as [|a s]; [done|]. simpl in Hs. apply andb_true_iff in Hs as [[Ha Hw]%andb_true_iff _].
    rewrite is_blank_ascii by done. apply negb_true_iff in Hw. by rewrite Hw.
  - simpl in Hu. apply andb_true_iff in Hu as [Ha Hu]. rewrite append_cons, is_blank_ascii, IH by done. apply andb_false_r.
Qed.

(** Text that begins and ends with a word has nothing to trim. *)
Lemma trim_end_dark_end u s : is_ascii_str u = true -> dark s = true -> s <> "" -> trim_end (u +:+ s) = u +:+ s.
Proof.
  intros Hu Hs Hne. induction u as [|a u IH].
  - rewrite append_nil_l. induction s as [|a s IHs]; [done|]. unfold trim_end; fold trim_end.
    pose proof (is_blank_dark_end "" (String a s) eq_refl Hs Hne) as Hb. rewrite append_nil_l in Hb. rewrite Hb.
    f_equal. simpl in Hs. apply andb_true_iff in Hs as [_ Hs].
    destruct s; [done|]. by apply IHs.
  - pose proof (is_blank_dark_end (String a u) s Hu Hs Hne) as Hb. rewrite append_cons in Hb |- *. cbn [trim_end]. rewrite Hb.
    f_equal. simpl in Hu. apply andb_true_iff in Hu as [_ Hu]. by apply IH.
Qed.

Lemma trim_start_dark a s : (nat_of_ascii a <? 128)%nat && negb (ascii_white a) = true -> trim_start_from 0 (String a s) = String a s.
Proof. intros Ha. cbn [trim_start_from]. by rewrite white_len_dark. Qed.

Lemma trim_words w u v :
  dark w = true -> w <> "" -> is_ascii_str u = true -> dark v = true -> v <> "" ->
  trim (w +:+ u +:+ v) = w +:+ u +:+ v.
Proof.
  intros Hw Hne Hu Hv Hvne. unfold trim. destruct w as [|a w]; [done|]. rewrite append_cons.
  pose proof Hw as Ha. simpl in Ha. apply andb_true_iff in Ha as [Ha Hw'].
  rewrite trim_start_dark by done. rewrite <- append_cons, <- append_assoc. apply trim_end_dark_end; [|done..].
  apply dark_ascii in Hw. clear -Hw Hu. revert Hw. generalize (String a w). intros z.
  induction z as [|b z IH]; [done|]. rewrite append_cons. simpl. intros [-> Hz]%andb_true_iff. by apply IH.
Qed.

(** [s.lines().next()]: up to the first newline, without a carriage return
    before it; the empty text has no line. *)
Definition first_line (s : string) : option string :=
  if bool_decide (s = "") then None
  else match find_char "010" s with
       | None => Some s
       | Some n =>
           let line := take_str n s in
           Some (if ends_with line (String "013" "") then take_str (n - 1) line else line)
       end.

Example first_line_examples :
  first_line "" = None /\ first_line "a" = Some "a" /\ first_line (String "010" "b") = Some "" /\
  first_line ("ab" +:+ String "013" (String "010" "c")) = Some "ab".
Proof. by vm_compute. Qed.
