(* ===== verification/Net.v ===== *)
(** * Network addresses

    [std::net::IpAddr] and [SocketAddr], and the [FromStr] grammar of the
    standard library's address parser: dotted decimal without leading zeros,
    and IPv6 groups with one [::] and an optional trailing dotted quad. *)

From Stdlib Require Import Ascii.
From S2P Require Import Prelude RustStr.

Open Scope string_scope.
Open Scope list_scope.
Open Scope Z_scope.

Inductive IpAddr : Type :=
| V4 (bits : Z)
| V6 (bits : Z).

#[global] Instance IpAddr_eq_dec : EqDecision IpAddr.
Proof. solve_decision. Defined.

#[global] Instance IpAddr_countable : Countable IpAddr.
Proof.
  refine (inj_countable'
    (fun a => match a with V4 z => inl z | V6 z => inr z end)
    (fun s => match s with inl z => V4 z | inr z => V6 z end) _).
  by intros [].
Defined.

Record SocketAddr : Type := { sa_ip : IpAddr; sa_port : Z }.

#[global] Instance SocketAddr_eq_dec : EqDecision SocketAddr.
Proof. solve_decision. Defined.

(** [Ipv4Addr::from([a, b, c, d])]. *)
Definition ipv4 (a b c d : Z) : IpAddr := V4 (((a * 256 + b) * 256 + c) * 256 + d).

Definition localhost_v4 : IpAddr := ipv4 127 0 0 1.
Definition unspecified_v4 : IpAddr := ipv4 0 0 0 0.

(** ** The parser

    A parser takes the rest of the input; [None] leaves the input where it
    was, which is the standard library's [read_atomically]. *)

Definition Parser (A : Type) : Type := string -> option (A * string).

Definition read_given_char (c : ascii) : Parser unit := fun s =>
  match s with
  | String a s' => if bool_decide (a = c) then Some (tt, s') else None
  | EmptyString => None
  end.

(** [read_number]: digits of the radix, at most [max_digits] of them, each
    accumulation checked against the width. *)
Fixpoint read_digits (radix max : Z) (room : nat) (acc : Z) (n : nat) (s : string)
    : option (Z * nat * string) :=
  match s with
  | EmptyString => Some (acc, n, s)
  | String a s' =>
      match to_digit radix a with
      | None => Some (acc, n, s)
      | Some d =>
          match room with
          | O => None
          | S room =>
              let acc' := acc * radix + d in
              if acc' <=? max then read_digits radix max room acc' (S n) s' else None
          end
      end
  end.

Definition read_number (radix max : Z) (max_digits : nat) (allow_zero_prefix : bool)
    : Parser Z := fun s =>
  let has_leading_zero := match s with String "0" _ => true | _ => false end in
  match read_digits radix max max_digits 0 0 s with
  | Some (v, n, rest) =>
      if (n =? 0)%nat then None
      else if negb allow_zero_prefix && has_leading_zero && (1 <? n)%nat then None
      else Some (v, rest)
  | None => None
  end.

Definition read_octet : Parser Z := read_number 10 255 3 false.

Definition read_ipv4_addr : Parser (list Z) := fun s =>
  '(a, s) ← read_octet s; '(_, s) ← read_given_char "." s;
  '(b, s) ← read_octet s; '(_, s) ← read_given_char "." s;
  '(c, s) ← read_octet s; '(_, s) ← read_given_char "." s;
  '(d, s) ← read_octet s; Some ([a; b; c; d], s).

(** [read_separator]: the separator is read before every element but the first. *)
Definition read_separator {A} (sep : ascii) (index : nat) (p : Parser A) : Parser A := fun s =>
  match index with
  | O => p s
  | S _ => '(_, s) ← read_given_char sep s; p s
  end.

(** [read_groups]: up to [limit] groups from [index] on, and whether the last
    two came from a dotted quad. *)
Fixpoint read_groups (fuel index limit : nat) (s : string) : list Z * bool * string :=
  match fuel with
  | O => ([], false, s)
  | S fuel =>
      let v4 := if (index <? limit - 1)%nat
                then read_separator ":" index read_ipv4_addr s else None in
      match v4 with
      | Some ([a; b; c; d], rest) => ([a * 256 + b; c * 256 + d], true, rest)
      | _ =>
          match read_separator ":" index (read_number 16 65535 4 true) s with
          | Some (g, rest) =>
              let '(gs, q, rest) := read_groups fuel (S index) limit rest in
              (g :: gs, q, rest)
          | None => ([], false, s)
          end
      end
  end.

Definition groups_value (gs : list Z) : Z := fold_left (fun acc g => acc * 65536 + g) gs 0.

Definition read_ipv6_addr : Parser Z := fun s =>
  let '(head, head_ipv4, s) := read_groups 8 0 8 s in
  if (length head =? 8)%nat then Some (groups_value head, s)
  else if head_ipv4 then None
  else
    '(_, s) ← read_given_char ":" s;
    '(_, s) ← read_given_char ":" s;
    let limit := (8 - (length head + 1))%nat in
    let '(tail, _, s) := read_groups limit 0 limit s in
    Some (groups_value (head ++ replicate (8 - length head - length tail) 0 ++ tail), s).

(** [parse_with]: the parser must consume the whole input. *)
Definition parse_with {A} (p : Parser A) (s : string) : option A :=
  match p s with Some (a, EmptyString) => Some a | _ => None end.

Definition quad (l : list Z) : option IpAddr :=
  match l with [a; b; c; d] => Some (ipv4 a b c d) | _ => None end.

Definition read_ip_addr : Parser IpAddr := fun s =>
  match read_ipv4_addr s with
  | Some (l, rest) => a ← quad l; Some (a, rest)
  | None => '(v, rest) ← read_ipv6_addr s; Some (V6 v, rest)
  end.

(** [s.parse::<Ipv4Addr>()], [s.parse::<Ipv6Addr>()] and [s.parse::<IpAddr>()]. *)
Definition parse_ipv4 (s : string) : option IpAddr :=
  if (15 <? String.length s)%nat then None else l ← parse_with read_ipv4_addr s; quad l.
Definition parse_ipv6 (s : string) : option IpAddr := V6 <$> parse_with read_ipv6_addr s.
Definition parse_ip (s : string) : option IpAddr := parse_with read_ip_addr s.

(** [s.parse::<SocketAddr>()]: a port follows the address, which is in brackets
    when it has colons; a scope is read but not kept, since no part of the
    program looks at it. *)
Definition read_port : Parser Z := fun s =>
  '(_, s) ← read_given_char ":" s; read_number 10 65535 (String.length s) true s.

Definition read_socket_addr_v4 : Parser SocketAddr := fun s =>
  '(l, s) ← read_ipv4_addr s; a ← quad l; '(port, s) ← read_port s;
  Some ({| sa_ip := a; sa_port := port |}, s).

Definition read_scope_id : Parser Z := fun s =>
  '(_, s) ← read_given_char "%" s; read_number 10 u32_max (String.length s) true s.

Definition read_socket_addr_v6 : Parser SocketAddr := fun s =>
  '(_, s) ← read_given_char "[" s; '(v, s) ← read_ipv6_addr s;
  let s := match read_scope_id s with Some (_, s) => s | None => s end in
  '(_, s) ← read_given_char "]" s; '(port, s) ← read_port s;
  Some ({| sa_ip := V6 v; sa_port := port |}, s).

Definition read_socket_addr : Parser SocketAddr := fun s =>
  match read_socket_addr_v4 s with Some r => Some r | None => read_socket_addr_v6 s end.

Definition parse_socket_addr (s : string) : option SocketAddr := parse_with read_socket_addr s.

Example parse_socket_addr_v4 :
  parse_socket_addr "10.0.0.1:51820" = Some {| sa_ip := ipv4 10 0 0 1; sa_port := 51820 |}.
Proof. reflexivity. Qed.
Example parse_socket_addr_v6 :
  parse_socket_addr "[::1]:0080" = Some {| sa_ip := V6 1; sa_port := 80 |} /\
  parse_socket_addr "[fe80::1%3]:1" = Some {| sa_ip := V6 (0xfe80 * 2 ^ 112 + 1); sa_port := 1 |} /\
  parse_socket_addr "::1:80" = None /\ parse_socket_addr "10.0.0.1:65536" = None.
Proof. by vm_compute. Qed.

Example parse_ip_v4 : parse_ip "127.0.0.1" = Some localhost_v4.
Proof. reflexivity. Qed.
Example parse_ip_v6 : parse_ip "::1" = Some (V6 1).
Proof. reflexivity. Qed.
Example parse_ip_v6_tail : parse_ip "2001:4860:4860::8888" = Some (V6 42541956123769884636017138956568135816).
Proof. reflexivity. Qed.
Example parse_ip_mapped : parse_ip "::ffff:1.2.3.4" = Some (V6 281470698652420).
Proof. reflexivity. Qed.
Example parse_ip_leading_zero : parse_ip "127.0.0.01" = None.
Proof. reflexivity. Qed.

(** ** Display

    Dotted decimal; for IPv6 the longest run of at least two zero groups (the
    first of them) becomes [::], and a mapped IPv4 address shows its quad. *)

Definition v4_octets (z : Z) : list Z :=
  [z / 2 ^ 24 mod 256; z / 2 ^ 16 mod 256; z / 2 ^ 8 mod 256; z mod 256].

Definition show_ipv4 (z : Z) : string := join "." (map show_uint (v4_octets z)).

Definition v6_groups (z : Z) : list Z :=
  map (fun i => z / 2 ^ (16 * Z.of_nat (7 - i)) mod 65536) (seq 0 8).

Definition hex_digit (d : Z) : ascii :=
  ascii_of_nat (Z.to_nat (if d <? 10 then 48 + d else 87 + d)).

(** [{:x}] of a group. *)
Definition show_group (g : Z) : string :=
  let ds := [g / 4096 mod 16; g / 256 mod 16; g / 16 mod 16; g mod 16] in
  String.string_of_list_ascii (map hex_digit
    (if g <? 16 then drop 3 ds else if g <? 256 then drop 2 ds else if g <? 4096 then drop 1 ds else ds)).

(** The first longest run of zero groups, as a start and a length. *)
Fixpoint longest_zeros (i : nat) (gs : list Z) (cur best : nat * nat) : nat * nat :=
  match gs with
  | [] => best
  | g :: gs =>
      if g =? 0 then
        let cur := if (cur.2 =? 0)%nat then (i, 1%nat) else (cur.1, S cur.2) in
        longest_zeros (S i) gs cur (if (best.2 <? cur.2)%nat then cur else best)
      else longest_zeros (S i) gs (0%nat, 0%nat) best
  end.

Definition show_ipv6 (z : Z) : string :=
  let gs := v6_groups z in
  if forallb (Z.eqb 0) (take 5 gs) && (nth 5 gs 0 =? 65535) then "::ffff:" +:+ show_ipv4 (z mod 2 ^ 32)
  else let '(start, len) := longest_zeros 0 gs (0%nat, 0%nat) (0%nat, 0%nat) in
       if (1 <? len)%nat then
         join ":" (map show_group (take start gs)) +:+ "::" +:+
         join ":" (map show_group (drop (start + len) gs))
       else join ":" (map show_group gs).

Definition show_ip (a : IpAddr) : string :=
  match a with V4 z => show_ipv4 z | V6 z => show_ipv6 z end.

(** [SocketAddr::to_string]. *)
Definition show_socket_addr (a : SocketAddr) : string :=
  match sa_ip a with
  | V4 _ => show_ip (sa_ip a) +:+ ":" +:+ show_uint (sa_port a)
  | V6 _ => "[" +:+ show_ip (sa_ip a) +:+ "]:" +:+ show_uint (sa_port a)
  end.

Example show_ip_v4 : show_ip localhost_v4 = "127.0.0.1".
Proof. reflexivity. Qed.
Example show_ip_v6 : show_ip (V6 42541956123769884636017138956568135816) = "2001:4860:4860::8888".
Proof. vm_compute. reflexivity. Qed.
Example show_ip_edges : show_ip (V6 0) = "::" /\ show_ip (V6 1) = "::1" /\
  show_ip (V6 281470698652420) = "::ffff:1.2.3.4" /\ show_ip (V6 (2 ^ 112)) = "1::".
Proof. by vm_compute. Qed.

(** ** Lemmas *)

Lemma read_octet_show n rest :
  0 <= n <= 255 -> (rest = "" \/ (exists t, rest = String "." t) \/ exists t, rest = String ":" t) ->
  read_octet (show_uint n +:+ rest) = Some (n, rest).
Proof.
  intros Hn Hr.
  assert (Hall : Forall (fun n => read_octet (show_uint n +:+ rest) = Some (n, rest)) (map Z.of_nat (seq 0 256))).
  { destruct Hr as [->|[[t ->]|[t ->]]]; repeat (constructor; [reflexivity|]); constructor. }
  rewrite Forall_forall in Hall. apply Hall, list_elem_of_In, in_map_iff.
  exists (Z.to_nat n). split; [lia|]. apply in_seq. lia.
Qed.

Lemma v4_octets_value z : 0 <= z < 2 ^ 32 -> quad (v4_octets z) = Some (V4 z).
Proof.
  intros Hz. unfold quad, v4_octets, ipv4. do 2 f_equal.
  replace (z / 2 ^ 8) with (z / 256) by done.
  replace (z / 2 ^ 16) with (z / 256 / 256) by (by rewrite Z.div_div).
  replace (z / 2 ^ 24) with (z / 256 / 256 / 256) by (by rewrite !Z.div_div).
  pose proof (Z.div_mod z 256). pose proof (Z.div_mod (z / 256) 256).
  pose proof (Z.div_mod (z / 256 / 256) 256).
  rewrite (Z.mod_small (z / 256 / 256 / 256)); [lia|].
  rewrite !Z.div_div by lia. split; [apply Z.div_pos; lia|apply Z.div_lt_upper_bound; lia].
Qed.

Lemma read_ipv4_show a b c d rest :
  Forall (fun n => 0 <= n <= 255) [a; b; c; d] -> (rest = "" \/ exists t, rest = String ":" t) ->
  read_ipv4_addr (join "." (map show_uint [a; b; c; d]) +:+ rest) = Some ([a; b; c; d], rest).
Proof.
  intros Hall Hrest. inversion Hall as [|? ? Ha Hall']; subst. inversion Hall' as [|? ? Hb Hall'']; subst.
  inversion Hall'' as [|? ? Hc Hd']; subst. inversion Hd' as [|? ? Hd _]; subst.
  unfold read_ipv4_addr. cbn [map join].
  assert (Hdot : forall t, read_given_char "." (String "." t) = Some (tt, t)) by done.
  do 3 (rewrite append_assoc, append_cons, read_octet_show by eauto; cbn [mbind option_bind];
        rewrite Hdot; cbn [mbind option_bind]).
  rewrite read_octet_show; [done|done|naive_solver].
Qed.

Lemma v4_octets_bound z : Forall (fun n => 0 <= n <= 255) (v4_octets z).
Proof.
  assert (Hmod : forall a, 0 <= a mod 256 <= 255) by (intros a; pose proof (Z.mod_pos_bound a 256); lia).
  repeat constructor; apply Hmod.
Qed.

(** [to_string] followed by [parse] gives an IPv4 address back. *)
Lemma parse_show_ipv4 z : 0 <= z < 2 ^ 32 -> parse_ip (show_ipv4 z) = Some (V4 z).
Proof.
  intros Hz. unfold parse_ip, parse_with, read_ip_addr, show_ipv4.
  pose proof (v4_octets_bound z) as Hb. pose proof (v4_octets_value z Hz) as Hq. unfold v4_octets in *.
  rewrite <-(append_nil_r (join _ _)), read_ipv4_show by eauto. by rewrite Hq.
Qed.

(** What is read as a number of its own is read up to its end. *)
Lemma read_digits_parse max room acc n s v :
  0 <= max -> parse_digits max acc s = Some v -> (String.length s <= room)%nat ->
  read_digits 10 max room acc n s = Some (v, (n + String.length s)%nat, "").
Proof.
  intros Hmax. revert room acc n. induction s as [|a s IH]; intros room acc n H Hl; simpl in *.
  - simplify_eq. rewrite Nat.add_0_r. by destruct room.
  - destruct room as [|room]; [lia|]. simpl. destruct (to_digit 10 a) as [d|]; [|done].
    destruct (_ <=? max); [|done]. rewrite (IH room _ (S n)) by (done || lia). do 3 f_equal. lia.
Qed.

Lemma read_port_show port : 0 <= port <= u16_max -> read_port (String ":" (show_uint port)) = Some (port, "").
Proof.
  intros Hp. unfold read_port. cbn [read_given_char]. rewrite bool_decide_true by done.
  cbn [mbind option_bind]. unfold read_number.
  assert (Hd : parse_digits u16_max 0 (show_uint port) = Some port).
  { unfold show_uint. rewrite parse_digits_pretty by lia. f_equal. lia. }
  rewrite (read_digits_parse u16_max _ 0 0 _ port); [|done|exact Hd|done].
  destruct (show_uint port) as [|c s] eqn:E; [|done].
  exfalso. by apply (pretty_N_not_nil (Z.to_N port)).
Qed.

(** An IPv4 socket address is read back from its text. *)
Lemma parse_show_socket_addr z port :
  0 <= z < 2 ^ 32 -> 0 <= port <= u16_max ->
  parse_socket_addr (show_socket_addr {| sa_ip := V4 z; sa_port := port |}) =
  Some {| sa_ip := V4 z; sa_port := port |}.
Proof.
  intros Hz Hp. unfold parse_socket_addr, parse_with, read_socket_addr, read_socket_addr_v4, show_socket_addr.
  cbn [sa_ip sa_port show_ip]. unfold show_ipv4.
  pose proof (v4_octets_bound z) as Hb. pose proof (v4_octets_value z Hz) as Hq. unfold v4_octets in *.
  rewrite append_cons, append_nil_l, read_ipv4_show by eauto. cbn [mbind option_bind].
  rewrite Hq. cbn [mbind option_bind]. by rewrite read_port_show.
Qed.

Lemma show_ipv4_no_char c z : c <> "."%char -> to_digit 10 c = None -> no_char c (show_ipv4 z).
Proof.
  intros Hdot Hd. unfold show_ipv4, v4_octets. cbn [map join].
  repeat (apply no_char_app; [by apply show_uint_no_char|]; apply no_char_cons; split; [congruence|]).
  by apply show_uint_no_char.
Qed.

(** The address parser on text without colons: only dotted quads. *)
Lemma read_digits_no_char c radix max room acc n s r :
  no_char c s -> read_digits radix max room acc n s = Some r -> no_char c r.2.
Proof.
  revert room acc n. induction s as [|a s IH]; intros room acc n Hs H; destruct room as [|room];
    simpl in H; repeat case_match; simplify_eq; try done.
  apply no_char_cons in Hs as [_ Hs]. eauto.
Qed.

Lemma read_number_no_char c radix max digits z s v r :
  no_char c s -> read_number radix max digits z s = Some (v, r) -> no_char c r.
Proof.
  intros Hs. unfold read_number. destruct (read_digits _ _ _ _ _ _) as [[[v' n] r']|] eqn:E; [|done].
  apply read_digits_no_char with (c := c) in E; [|done]. repeat case_match; intros; by simplify_eq.
Qed.

Lemma read_given_char_none c s : no_char c s -> read_given_char c s = None.
Proof. destruct s as [|a s]; [done|]. intros [Ha _]%no_char_cons. simpl. by rewrite bool_decide_false. Qed.

Lemma quad_v4 l a : quad l = Some a -> exists z, a = V4 z.
Proof. destruct l as [|? [|? [|? [|? []]]]]; try done. intros [= <-]. eexists. reflexivity. Qed.

Lemma read_groups_S fuel index limit s :
  read_groups (S fuel) index limit s =
  match (if (index <? limit - 1)%nat then read_separator ":" index read_ipv4_addr s else None) with
  | Some ([a; b; c; d], rest) => ([a * 256 + b; c * 256 + d], true, rest)
  | _ =>
      match read_separator ":" index (read_number 16 65535 4 true) s with
      | Some (g, rest) =>
          let '(gs, q, rest) := read_groups fuel (S index) limit rest in (g :: gs, q, rest)
      | None => ([], false, s)
      end
  end.
Proof. done. Qed.

Lemma read_groups_end fuel index limit s :
  no_char ":" s -> read_groups (S fuel) (S index) limit s = ([], false, s).
Proof.
  intros Hs. rewrite read_groups_S. unfold read_separator. rewrite (read_given_char_none ":" s Hs).
  cbn [mbind option_bind]. by destruct (_ <? _)%nat.
Qed.

Lemma parse_ip_no_colon s a : no_char ":" s -> parse_ip s = Some a -> exists z, a = V4 z.
Proof.
  intros Hs. unfold parse_ip, parse_with, read_ip_addr.
  destruct (read_ipv4_addr s) as [[l r]|] eqn:E4.
  - destruct (quad l) as [b|] eqn:Eq; cbn [mbind option_bind]; [|done].
    apply quad_v4 in Eq as [z ->]. destruct r; [|done]. intros [= <-]. eauto.
  - unfold read_ipv6_addr.
    assert (Hg : exists g r, read_groups 8 0 8 s = (g, false, r) /\ (length g <= 1)%nat /\ no_char ":" r).
    { destruct (read_number 16 65535 4 true s) as [[g r]|] eqn:En.
      - exists [g], r. rewrite read_groups_S. cbn [Nat.ltb Nat.leb Nat.sub read_separator]. rewrite E4, En.
        apply read_number_no_char with (c := ":"%char) in En; [|done].
        by rewrite read_groups_end.
      - exists [], s. rewrite read_groups_S. cbn [Nat.ltb Nat.leb Nat.sub read_separator]. rewrite E4, En.
        split; [done|]. split; [simpl; lia|done]. }
    destruct Hg as (g & r & -> & Hlen & Hr).
    replace (length g =? 8)%nat with false by (symmetry; apply Nat.eqb_neq; lia).
    by rewrite (read_given_char_none ":" r Hr).
Qed.
