(* ===== verification/SortBy.v ===== *)
(** * Stable sorting by a key (the standard library's [sort_by])

    Insertion sort with the order as a boolean function: what it returns is a
    rearrangement in order, elements that compare equal keep their places. *)

From Stdlib Require Import Sorting.Sorted.
From S2P Require Import Prelude.

Section SortBy.
Context {A : Type} (le : A -> A -> bool).

Fixpoint insert_by (x : A) (l : list A) : list A :=
  match l with
  | [] => [x]
  | y :: l' => if le x y then x :: l else y :: insert_by x l'
  end.

(** [sort_by]: equal elements keep their order. *)
Definition sort_by (l : list A) : list A := foldr insert_by [] l.

Lemma insert_by_perm x l : insert_by x l ≡ₚ x :: l.
Proof. induction l as [|y l IH]; simpl; [done|]. case_match; [done|]. rewrite IH. apply Permutation_swap. Qed.

Lemma sort_by_perm l : sort_by l ≡ₚ l.
Proof. induction l as [|x l IH]; simpl; [done|]. by rewrite insert_by_perm, IH. Qed.

Definition ordered (x y : A) : Prop := le x y = true.

Context (le_total : forall x y, le x y = false -> le y x = true).
Context (le_trans : forall x y z, le x y = true -> le y z = true -> le x z = true).

Lemma insert_by_sorted x l : StronglySorted ordered l -> StronglySorted ordered (insert_by x l).
Proof.
  induction 1 as [|y l Hl IH Hy]; simpl; [by repeat constructor|]. destruct (le x y) eqn:E.
  - constructor; [by constructor|]. constructor; [done|]. eapply Forall_impl; [exact Hy|].
    intros z Hz. by eapply le_trans.
  - constructor; [done|]. rewrite insert_by_perm. constructor; [by apply le_total|done].
Qed.

Lemma sort_by_sorted l : StronglySorted ordered (sort_by l).
Proof. induction l as [|x l IH]; simpl; [constructor|]. by apply insert_by_sorted. Qed.

(** A list sorted without ties is what sorting any rearrangement gives. *)
Lemma sort_by_unique l l' :
  StronglySorted ordered l' -> (forall x y, x ∈ l' -> y ∈ l' -> le x y = true -> le y x = true -> x = y) ->
  l ≡ₚ l' -> sort_by l = l'.
Proof.
  intros Hs Ha Hp. apply (StronglySorted_unique_strong ordered).
  - intros x y Hx Hy. rewrite sort_by_perm, Hp in Hx. by apply Ha.
  - apply sort_by_sorted.
  - done.
  - by rewrite sort_by_perm.
Qed.
End SortBy.

(** The first of a sorted list comes before every other. *)
Lemma sort_by_head {A} (le : A -> A -> bool) l x y :
  (forall x, le x x = true) -> (forall x y, le x y = false -> le y x = true) ->
  (forall x y z, le x y = true -> le y z = true -> le x z = true) ->
  head (sort_by le l) = Some x -> y ∈ l -> le x y = true.
Proof.
  intros Hr Ht Htr Hx Hy. rewrite <- (sort_by_perm le l) in Hy. pose proof (sort_by_sorted le Ht Htr l) as Hs.
  destruct Hs as [|a l' Hs Ha]; [done|]. injection Hx as ->. apply elem_of_cons in Hy as [->|Hy]; [apply Hr|].
  rewrite Forall_forall in Ha. by apply Ha.
Qed.

Lemma sort_by_head_in {A} (le : A -> A -> bool) l x : head (sort_by le l) = Some x -> x ∈ l.
Proof.
  intros Hx. rewrite <- (sort_by_perm le l). destruct (sort_by le l) as [|a l']; [done|]. injection Hx as ->. by left.
Qed.

Lemma sort_by_head_none {A} (le : A -> A -> bool) l : head (sort_by le l) = None -> l = [].
Proof.
  intros Hx. pose proof (sort_by_perm le l) as Hp. destruct (sort_by le l); [|done]. symmetry in Hp. by apply Permutation_nil_r in Hp.
Qed.
