(* ===== verification/Search.v ===== *)
(** * Binary search (the standard library's [binary_search_by_key])

    The search in a slice that is in order: where the key is, or where it would
    be inserted. *)

From Stdlib Require Import Sorting.Sorted.
From S2P Require Import Prelude.

Open Scope Z_scope.

(** The loop: [base] moves up to the middle unless the middle is greater, the
    size is halved.  The size falls in every turn, so its initial value is
    enough fuel. *)
Fixpoint narrow (fuel : nat) (ks : list Z) (t : Z) (base size : nat) : nat :=
  match fuel with
  | O => base
  | S fuel =>
      if (size <=? 1)%nat then base
      else
        let half := (size / 2)%nat in
        let mid := (base + half)%nat in
        let base := match ks !! mid with Some k => if t <? k then base else mid | None => base end in
        narrow fuel ks t base (size - half)
  end.

(** [ks]: the keys of the slice. *)
Definition binary_search (ks : list Z) (t : Z) : result nat nat :=
  if bool_decide (ks = []) then Err 0%nat
  else
    let base := narrow (length ks) ks t 0 (length ks) in
    match ks !! base with
    | Some k => if k =? t then Ok base else if k <? t then Err (base + 1)%nat else Err base
    | None => Err base
    end.

(** [v.insert(i, x)] for [i] at most the length. *)
Definition vec_insert {A} (l : list A) (i : nat) (x : A) : list A := take i l ++ x :: drop i l.

Section SearchTheorems.
Context (ks : list Z) (t : Z).

Lemma sorted_lookup i j a b :
  StronglySorted Z.le ks -> (i <= j)%nat -> ks !! i = Some a -> ks !! j = Some b -> a <= b.
Proof.
  intros Hs. revert i j. induction Hs as [|k l Hl IH Hk]; intros i j Hij Hi Hj; [done|].
  destruct i as [|i], j as [|j]; simpl in *; try lia; simplify_eq; [lia| |eapply IH; [|done|done]; lia].
  rewrite Forall_forall in Hk. apply Hk. by eapply list_elem_of_lookup_2.
Qed.

(** What is left to search: nothing below [base] is greater than [t], and all
    beyond the end of the window is. *)
Definition window (base size : nat) : Prop :=
  (1 <= size)%nat /\ (base + size <= length ks)%nat /\
  (base = 0%nat \/ (exists k, ks !! base = Some k /\ k <= t)) /\
  (forall j k, (base + size <= j)%nat -> ks !! j = Some k -> t < k).

Lemma narrow_window fuel base size :
  StronglySorted Z.le ks -> (size <= fuel)%nat -> window base size -> window (narrow fuel ks t base size) 1.
Proof.
  intros Hs. revert base size. induction fuel as [|f IH]; intros base size Hf (H1 & H2 & H3 & H4); [lia|].
  cbn [narrow]. destruct (Nat.leb_spec size 1) as [Hsz|Hsz].
  - assert (size = 1)%nat as -> by lia. by repeat split.
  - assert (0 < size / 2 < size)%nat as Hhalf
      by (split; [apply Nat.div_str_pos; lia|apply Nat.div_lt; lia]).
    apply IH; [lia|].
    destruct (lookup_lt_is_Some_2 ks (base + size / 2)) as [k Hk]; [lia|]. rewrite Hk.
    destruct (Z.ltb_spec t k) as [Hlt|Hge]; (split; [lia|split; [lia|split]]).
    + done.
    + intros j k' Hj Hk'. destruct (decide (base + size <= j)%nat) as [Hb|Hb]; [by eapply H4|].
      assert (2 * (size / 2) <= size)%nat by (apply Nat.Div0.mul_div_le).
      destruct (decide (base + size / 2 <= j)%nat) as [Hm|Hm].
      * pose proof (sorted_lookup _ _ _ _ Hs Hm Hk Hk'). lia.
      * lia.
    + right. eauto.
    + intros j k' Hj Hk'. eapply H4; [|exact Hk']. lia.
Qed.

Lemma binary_search_ok i : binary_search ks t = Ok i -> ks !! i = Some t.
Proof.
  unfold binary_search. case_bool_decide; [done|]. destruct (ks !! _) as [k|] eqn:E; [|done].
  destruct (Z.eqb_spec k t) as [->|]; [by intros [= <-]|]. by destruct (k <? t).
Qed.

(** A key that is not found goes after all smaller and before all greater ones. *)
Lemma binary_search_err i :
  StronglySorted Z.le ks -> binary_search ks t = Err i ->
  (i <= length ks)%nat /\ Forall (fun k => k < t) (take i ks) /\ Forall (fun k => t < k) (drop i ks).
Proof.
  intros Hs. unfold binary_search. case_bool_decide as Hnil; [intros [= <-]; by rewrite Hnil|].
  assert (0 < length ks)%nat as Hlen by (destruct ks; [done|simpl; lia]).
  assert (window 0 (length ks)) as Hw.
  { repeat split; [lia|lia|by left|]. intros j k Hj Hk. apply lookup_lt_Some in Hk. lia. }
  destruct (narrow_window (length ks) 0 (length ks) Hs ltac:(lia) Hw) as (_ & H2 & H3 & H4).
  set (b := narrow _ _ _ _ _) in *. destruct (lookup_lt_is_Some_2 ks b) as [k Hk]; [lia|]. rewrite Hk.
  destruct (Z.eqb_spec k t) as [->|Hne]; [done|].
  assert (Hcut : forall c, (c <= length ks)%nat ->
    (forall j x, (j < c)%nat -> ks !! j = Some x -> x < t) -> (forall j x, (c <= j)%nat -> ks !! j = Some x -> t < x) ->
    (c <= length ks)%nat /\ Forall (fun k => k < t) (take c ks) /\ Forall (fun k => t < k) (drop c ks)).
  { intros c Hc Hlo Hhi. split; [done|]. split; apply Forall_lookup; intros j x Hx.
    - apply lookup_take_Some in Hx as [Hx Hj]. by eapply Hlo.
    - rewrite lookup_drop in Hx. eapply Hhi; [|exact Hx]. lia. }
  destruct (Z.ltb_spec k t) as [Hlt|Hge]; intros [= <-]; apply Hcut; try lia.
  - intros j x Hj Hx. pose proof (sorted_lookup j b x k Hs ltac:(lia) Hx Hk). lia.
  - intros j x Hj Hx. by eapply H4.
  - intros j x Hj Hx. destruct H3 as [->|(k' & Hk' & Hle)]; [lia|]. rewrite Hk in Hk'. injection Hk' as <-. lia.
  - intros j x Hj Hx. pose proof (sorted_lookup b j k x Hs ltac:(lia) Hk Hx). lia.
Qed.

Lemma search_position i :
  StronglySorted Z.le ks -> (binary_search ks t = Ok i \/ binary_search ks t = Err i) ->
  (i <= length ks)%nat /\ Forall (fun k => k <= t) (take i ks) /\ Forall (fun k => t <= k) (drop i ks).
Proof.
  intros Hs [H|H].
  - apply binary_search_ok in H as Hi. pose proof (lookup_lt_Some _ _ _ Hi). split; [lia|].
    split; apply Forall_lookup; intros j x Hx.
    + apply lookup_take_Some in Hx as [Hx Hj]. eapply (sorted_lookup j i); try done; lia.
    + rewrite lookup_drop in Hx. eapply (sorted_lookup i (i + j)); try done; lia.
  - destruct (binary_search_err i Hs H) as (H1 & H2 & H3). split; [done|].
    split; (eapply Forall_impl; [eassumption|]); simpl; lia.
Qed.

(** Inserting at the place that was found keeps the order. *)
Lemma insert_found_sorted i :
  StronglySorted Z.le ks -> (binary_search ks t = Ok i \/ binary_search ks t = Err i) ->
  StronglySorted Z.le (vec_insert ks i t).
Proof.
  intros Hs Hi. destruct (search_position i Hs Hi) as (_ & Hlo & Hhi). unfold vec_insert.
  rewrite <- (take_drop i ks) in Hs. apply StronglySorted_app in Hs as (Hx & Hs1 & Hs2).
  apply StronglySorted_app. rewrite Forall_forall in Hlo, Hhi. split_and!.
  - intros x y Hx1 Hy. apply elem_of_cons in Hy as [->|Hy]; [by apply Hlo|by apply Hx].
  - done.
  - apply StronglySorted_cons. split; [by apply Forall_forall|done].
Qed.
End SearchTheorems.

Lemma vec_insert_perm {A} (l : list A) i x : vec_insert l i x ≡ₚ x :: l.
Proof. unfold vec_insert. rewrite <- Permutation_middle. by rewrite take_drop. Qed.

Lemma map_vec_insert {A B} (f : A -> B) l i x : map f (vec_insert l i x) = vec_insert (map f l) i (f x).
Proof. unfold vec_insert. rewrite map_app. simpl. by rewrite <- firstn_map, <- skipn_map. Qed.

Lemma sorted_keys_filter {A} (key : A -> Z) (P : A -> Prop) `{forall x, Decision (P x)} (l : list A) :
  StronglySorted Z.le (map key l) -> StronglySorted Z.le (map key (filter P l)).
Proof.
  induction l as [|x l IH]; intros Hs; [done|]. apply StronglySorted_inv in Hs as [Hs Hx].
  rewrite filter_cons. destruct (decide (P x)); [|by apply IH]. simpl. constructor; [by apply IH|].
  rewrite Forall_forall in Hx. apply Forall_forall. intros k Hk. apply Hx.
  apply list_elem_of_fmap in Hk as (y & -> & Hy). apply list_elem_of_filter in Hy as [_ Hy].
  by apply list_elem_of_fmap_2.
Qed.

Example binary_search_examples :
  binary_search [1; 3; 5; 7] 5 = Ok 2%nat /\ binary_search [1; 3; 5; 7] 4 = Err 2%nat /\
  binary_search [1; 3; 5; 7] 0 = Err 0%nat /\ binary_search [1; 3; 5; 7] 9 = Err 4%nat /\ binary_search [] 9 = Err 0%nat.
Proof. by vm_compute. Qed.
