(* ===== verification/F32.v ===== *)
(** * Arithmetic of [f32] and [f64] (the language)

    Binary floating-point numbers at their precision, with the conversions from
    and to integers and the text-free operations the sources use. *)

From Stdlib Require Export Floats.SpecFloat.
From S2P Require Import Prelude.

Open Scope Z_scope.

(** [z as f32]: to the nearest, ties to even. *)
Definition f32_of (z : Z) : spec_float := binary_normalize 24 128 z 0 false.
Definition f32_div : spec_float -> spec_float -> spec_float := SFdiv 24 128.
Definition f32_mul : spec_float -> spec_float -> spec_float := SFmul 24 128.
Definition f32_add : spec_float -> spec_float -> spec_float := SFadd 24 128.

(** [z as f64], and its division. *)
Definition f64_of (z : Z) : spec_float := binary_normalize 53 1024 z 0 false.
Definition f64_div : spec_float -> spec_float -> spec_float := SFdiv 53 1024.

(** [x as u64]: towards zero, saturating, 0 for NaN. *)
Definition f32_to_u64 (x : spec_float) : Z :=
  match x with
  | S754_finite false m e => Z.min u64_max (Z.shiftl (Zpos m) e)
  | S754_infinity false => u64_max
  | _ => 0
  end.

(** [(secs * 1_000_000_000.0) as u64]. *)
Definition f32_nanos (secs : spec_float) : Z := f32_to_u64 (f32_mul secs (f32_of 1000000000)).

(** [n as f64 / 1_000_000_000.0]. *)
Definition f64_seconds (n : Z) : spec_float := f64_div (f64_of n) (f64_of 1000000000).

Definition f64_add : spec_float -> spec_float -> spec_float := SFadd 53 1024.
Definition f64_sub : spec_float -> spec_float -> spec_float := SFsub 53 1024.
Definition f64_mul : spec_float -> spec_float -> spec_float := SFmul 53 1024.
Definition f64_sqrt : spec_float -> spec_float := SFsqrt 53 1024.

(** [x.signum()]: one with the sign of [x], also of a zero; NaN for NaN. *)
Definition f64_signum (x : spec_float) : spec_float :=
  match x with
  | S754_zero s | S754_infinity s | S754_finite s _ _ => if s then SFopp (f64_of 1) else f64_of 1
  | S754_nan => S754_nan
  end.

(** [z as u32] from [f32]: towards zero, saturating, 0 for NaN. *)
Definition f32_to_u32 (x : spec_float) : Z :=
  match x with
  | S754_finite false m e => Z.min u32_max (Z.shiftl (Zpos m) e)
  | S754_infinity false => u32_max
  | _ => 0
  end.

(** [Duration::as_secs_f64]: the whole seconds and the rest are converted
    apart. *)
Definition as_secs_f64 (n : Z) : spec_float :=
  f64_add (f64_of (n / nanos_per_sec)) (f64_div (f64_of (n mod nanos_per_sec)) (f64_of nanos_per_sec)).

Lemma f32_to_u64_bound x : 0 <= f32_to_u64 x <= u64_max.
Proof.
  assert (0 <= u64_max) by (unfold u64_max; lia).
  destruct x as [|[]| |[] m e]; simpl; try lia.
  assert (0 <= Z.shiftl (Zpos m) e) by (by apply Z.shiftl_nonneg). lia.
Qed.

(** Minutes are not exact: 60 seconds become 60.000002048. *)
Example f32_nanos_examples :
  f32_nanos (f32_of 5) = 5000000000 /\ f32_nanos (f32_of 60) = 60000002048 /\
  f32_nanos (S754_finite false 13421773 (-27)) = 100000000 /\ f32_nanos (S754_finite true 1 0) = 0 /\
  f32_nanos S754_nan = 0.
Proof. by vm_compute. Qed.
