(* ===== verification/Transform.v ===== *)
(** * Transforms (omni-plugin/src/robotics/data_collection/transform.rs)

    Rotations in four representations and rigid transforms, in the arithmetic of
    [f64].  The trigonometric functions are those of the platform. *)

From S2P Require Import Prelude F32.

Open Scope Z_scope.

Declare Scope f64_scope.
Delimit Scope f64_scope with f64.
#[local] Infix "+" := f64_add : f64_scope.
#[local] Infix "-" := f64_sub : f64_scope.
#[local] Infix "*" := f64_mul : f64_scope.
#[local] Infix "/" := f64_div : f64_scope.
#[local] Notation "- x" := (SFopp x) : f64_scope.
#[local] Notation "x <? y" := (SFltb x y) : f64_scope.

(** The functions whose precision the standard library leaves open. *)
Class Libm : Type := {
  f64_sin : spec_float -> spec_float; f64_cos : spec_float -> spec_float; f64_asin : spec_float -> spec_float;
  f64_atan2 : spec_float -> spec_float -> spec_float }.

(** [[f64; 3]], [[f64; 4]] and [[[f64; 3]; 3]]. *)
Record Vec3 : Set := { v0 : spec_float; v1 : spec_float; v2 : spec_float }.
Record Quat : Set := { qx : spec_float; qy : spec_float; qz : spec_float; qw : spec_float }.
Record Mat3 : Set := { row0 : Vec3; row1 : Vec3; row2 : Vec3 }.

Inductive Rotation3D : Set :=
| Quaternion (q : Quat)
| Euler (roll pitch yaw : spec_float)
| Matrix (data : Mat3)
| AxisAngle (axis : Vec3) (angle : spec_float).

Record Transform3D : Set := { translation : Vec3; rotation : Rotation3D }.

#[local] Abbreviation zero := (f64_of 0).
#[local] Abbreviation one := (f64_of 1).
#[local] Abbreviation two := (f64_of 2).
Definition quarter : spec_float := f64_div (f64_of 1) (f64_of 4).
(** The literals 1e-10, 0.99999 and the constant pi/2. *)
Definition tiny : spec_float := f64_div (f64_of 1) (f64_of (10 ^ 10)).
Definition near_one : spec_float := f64_div (f64_of 99999) (f64_of 100000).
Definition frac_pi_2 : spec_float := S754_finite false 7074237752028440 (-52).

Definition rotation_identity : Rotation3D := Quaternion {| qx := zero; qy := zero; qz := zero; qw := one |}.
Definition transform_identity : Transform3D :=
  {| translation := {| v0 := zero; v1 := zero; v2 := zero |}; rotation := rotation_identity |}.
Definition from_translation (x y z : spec_float) : Transform3D :=
  {| translation := {| v0 := x; v1 := y; v2 := z |}; rotation := rotation_identity |}.
Definition from_quaternion (tx ty tz x y z w : spec_float) : Transform3D :=
  {| translation := {| v0 := tx; v1 := ty; v2 := tz |};
     rotation := Quaternion {| qx := x; qy := y; qz := z; qw := w |} |}.

Section Rotations.
Context `{Libm}.

Definition from_rotation_x (angle : spec_float) : Rotation3D :=
  let half := (angle / two)%f64 in
  Quaternion {| qx := f64_sin half; qy := zero; qz := zero; qw := f64_cos half |}.
Definition from_rotation_y (angle : spec_float) : Rotation3D :=
  let half := (angle / two)%f64 in
  Quaternion {| qx := zero; qy := f64_sin half; qz := zero; qw := f64_cos half |}.
Definition from_rotation_z (angle : spec_float) : Rotation3D :=
  let half := (angle / two)%f64 in
  Quaternion {| qx := zero; qy := zero; qz := f64_sin half; qw := f64_cos half |}.

Definition euler_quaternion (roll pitch yaw : spec_float) : Quat :=
  let sr := f64_sin (roll / two)%f64 in let cr := f64_cos (roll / two)%f64 in
  let sp := f64_sin (pitch / two)%f64 in let cp := f64_cos (pitch / two)%f64 in
  let sy := f64_sin (yaw / two)%f64 in let cy := f64_cos (yaw / two)%f64 in
  {| qx := (sr * cp * cy - cr * sp * sy)%f64; qy := (cr * sp * cy + sr * cp * sy)%f64;
     qz := (cr * cp * sy - sr * sp * cy)%f64; qw := (cr * cp * cy + sr * sp * sy)%f64 |}.

Definition matrix_quaternion (m : Mat3) : Quat :=
  let m00 := v0 (row0 m) in let m01 := v1 (row0 m) in let m02 := v2 (row0 m) in
  let m10 := v0 (row1 m) in let m11 := v1 (row1 m) in let m12 := v2 (row1 m) in
  let m20 := v0 (row2 m) in let m21 := v1 (row2 m) in let m22 := v2 (row2 m) in
  let trace := (m00 + m11 + m22)%f64 in
  if (zero <? trace)%f64 then
    let s := (f64_sqrt (trace + one) * two)%f64 in
    {| qx := ((m21 - m12) / s)%f64; qy := ((m02 - m20) / s)%f64; qz := ((m10 - m01) / s)%f64;
       qw := (quarter * s)%f64 |}
  else if ((m11 <? m00) && (m22 <? m00))%f64 then
    let s := (f64_sqrt (one + m00 - m11 - m22) * two)%f64 in
    {| qx := (quarter * s)%f64; qy := ((m01 + m10) / s)%f64; qz := ((m02 + m20) / s)%f64;
       qw := ((m21 - m12) / s)%f64 |}
  else if (m22 <? m11)%f64 then
    let s := (f64_sqrt (one + m11 - m00 - m22) * two)%f64 in
    {| qx := ((m01 + m10) / s)%f64; qy := (quarter * s)%f64; qz := ((m12 + m21) / s)%f64;
       qw := ((m02 - m20) / s)%f64 |}
  else
    let s := (f64_sqrt (one + m22 - m00 - m11) * two)%f64 in
    {| qx := ((m02 + m20) / s)%f64; qy := ((m12 + m21) / s)%f64; qz := (quarter * s)%f64;
       qw := ((m10 - m01) / s)%f64 |}.

Definition axis_quaternion (axis : Vec3) (angle : spec_float) : Quat :=
  let half := (angle / two)%f64 in
  let s := f64_sin half in
  let norm := f64_sqrt (v0 axis * v0 axis + v1 axis * v1 axis + v2 axis * v2 axis)%f64 in
  if (norm <? tiny)%f64 then {| qx := zero; qy := zero; qz := zero; qw := one |}
  else {| qx := (v0 axis / norm * s)%f64; qy := (v1 axis / norm * s)%f64; qz := (v2 axis / norm * s)%f64;
          qw := f64_cos half |}.

Definition as_quaternion (r : Rotation3D) : Quat :=
  match r with
  | Quaternion q => q
  | Euler roll pitch yaw => euler_quaternion roll pitch yaw
  | Matrix data => matrix_quaternion data
  | AxisAngle axis angle => axis_quaternion axis angle
  end.

Definition quaternion_matrix (q : Quat) : Mat3 :=
  let x := qx q in let y := qy q in let z := qz q in let w := qw q in
  let xx := (x * x)%f64 in let yy := (y * y)%f64 in let zz := (z * z)%f64 in
  let xy := (x * y)%f64 in let xz := (x * z)%f64 in let yz := (y * z)%f64 in
  let wx := (w * x)%f64 in let wy := (w * y)%f64 in let wz := (w * z)%f64 in
  {| row0 := {| v0 := (one - two * (yy + zz))%f64; v1 := (two * (xy - wz))%f64; v2 := (two * (xz + wy))%f64 |};
     row1 := {| v0 := (two * (xy + wz))%f64; v1 := (one - two * (xx + zz))%f64; v2 := (two * (yz - wx))%f64 |};
     row2 := {| v0 := (two * (xz - wy))%f64; v1 := (two * (yz + wx))%f64; v2 := (one - two * (xx + yy))%f64 |} |}.
Definition as_matrix (r : Rotation3D) : Mat3 := quaternion_matrix (as_quaternion r).

(** [[roll, pitch, yaw]]. *)
Definition as_euler (r : Rotation3D) : Vec3 :=
  let mat := as_matrix r in
  let sy := (- v2 (row0 mat))%f64 in
  if (near_one <? SFabs sy)%f64 then
    {| v0 := f64_atan2 (v0 (row1 mat)) (v1 (row1 mat)); v1 := (frac_pi_2 * f64_signum sy)%f64; v2 := zero |}
  else
    {| v0 := f64_atan2 (v2 (row1 mat)) (v2 (row2 mat)); v1 := f64_asin sy;
       v2 := f64_atan2 (v1 (row0 mat)) (v0 (row0 mat)) |}.

Definition cross (q : Quat) (v : Vec3) : Vec3 :=
  {| v0 := (qy q * v2 v - qz q * v1 v)%f64; v1 := (qz q * v0 v - qx q * v2 v)%f64;
     v2 := (qx q * v1 v - qy q * v0 v)%f64 |}.
Definition rotate_vector (r : Rotation3D) (v : Vec3) : Vec3 :=
  let q := as_quaternion r in
  let cross1 := cross q v in
  let cross2 := cross q cross1 in
  {| v0 := (v0 v + two * (qw q * v0 cross1 + v0 cross2))%f64;
     v1 := (v1 v + two * (qw q * v1 cross1 + v1 cross2))%f64;
     v2 := (v2 v + two * (qw q * v2 cross1 + v2 cross2))%f64 |}.

Definition rotation_inverse (r : Rotation3D) : Rotation3D :=
  let q := as_quaternion r in
  Quaternion {| qx := (- qx q)%f64; qy := (- qy q)%f64; qz := (- qz q)%f64; qw := qw q |}.

Definition rotation_compose (a b : Rotation3D) : Rotation3D :=
  let q1 := as_quaternion a in
  let q2 := as_quaternion b in
  Quaternion {|
    qx := (qw q1 * qx q2 + qx q1 * qw q2 + qy q1 * qz q2 - qz q1 * qy q2)%f64;
    qy := (qw q1 * qy q2 - qx q1 * qz q2 + qy q1 * qw q2 + qz q1 * qx q2)%f64;
    qz := (qw q1 * qz q2 + qx q1 * qy q2 - qy q1 * qx q2 + qz q1 * qw q2)%f64;
    qw := (qw q1 * qw q2 - qx q1 * qx q2 - qy q1 * qy q2 - qz q1 * qz q2)%f64 |}.

Definition normalized (r : Rotation3D) : Rotation3D :=
  let q := as_quaternion r in
  let norm := f64_sqrt (qx q * qx q + qy q * qy q + qz q * qz q + qw q * qw q)%f64 in
  if (norm <? tiny)%f64 then rotation_identity
  else Quaternion {| qx := (qx q / norm)%f64; qy := (qy q / norm)%f64; qz := (qz q / norm)%f64;
                     qw := (qw q / norm)%f64 |}.

(** ** Transforms *)

Definition add3 (a b : Vec3) : Vec3 := {| v0 := (v0 a + v0 b)%f64; v1 := (v1 a + v1 b)%f64; v2 := (v2 a + v2 b)%f64 |}.

Definition compose (a b : Transform3D) : Transform3D := {|
  translation := add3 (translation a) (rotate_vector (rotation a) (translation b));
  rotation := rotation_compose (rotation a) (rotation b) |}.

Definition inverse (t : Transform3D) : Transform3D :=
  let inv_rotation := rotation_inverse (rotation t) in
  let rotated := rotate_vector inv_rotation (translation t) in
  {| translation := {| v0 := (- v0 rotated)%f64; v1 := (- v1 rotated)%f64; v2 := (- v2 rotated)%f64 |};
     rotation := inv_rotation |}.

Definition transform_point (t : Transform3D) (p : Vec3) : Vec3 :=
  add3 (translation t) (rotate_vector (rotation t) p).
End Rotations.

(** ** What holds in spite of rounding *)

Section RotationTheorems.
Context `{Libm}.

Definition finite (x : spec_float) : Prop :=
  match x with S754_zero _ | S754_finite _ _ _ => True | _ => False end.
Definition finite3 (v : Vec3) : Prop := finite (v0 v) /\ finite (v1 v) /\ finite (v2 v).
(** Equal as numbers: the two zeros are one. *)
Definition same3 (a b : Vec3) : Prop :=
  SFeqb (v0 a) (v0 b) = true /\ SFeqb (v1 a) (v1 b) = true /\ SFeqb (v2 a) (v2 b) = true.
Definition is_zero (x : spec_float) : Prop := exists s, x = S754_zero s.

Lemma zero_mul z x : is_zero z -> finite x -> is_zero (z * x)%f64.
Proof. intros [s ->] Hx. destruct x; try done; by eexists. Qed.
Lemma mul_zero x z : finite x -> is_zero z -> is_zero (x * z)%f64.
Proof. intros Hx [s ->]. destruct x; try done; by eexists. Qed.
Lemma zero_add a b : is_zero a -> is_zero b -> is_zero (a + b)%f64.
Proof. intros [[|] ->] [[|] ->]; by eexists. Qed.
Lemma zero_sub a b : is_zero a -> is_zero b -> is_zero (a - b)%f64.
Proof. intros [[|] ->] [[|] ->]; by eexists. Qed.
Lemma zero_finite a : is_zero a -> finite a.
Proof. by intros [s ->]. Qed.

Lemma SFeqb_refl x : finite x -> SFeqb x x = true.
Proof.
  destruct x as [s|s| |s m e]; try done. intros _. unfold SFeqb, SFcompare. destruct s; rewrite Z.compare_refl, Pos.compare_cont_refl; done.
Qed.

(** Adding zeros changes no number. *)
Lemma SFeqb_zeros x a b : finite x -> is_zero a -> is_zero b -> SFeqb (a + (x + b))%f64 x = true.
Proof.
  intros Hx [s ->] [t ->]. destruct x as [u|u| |u m e]; try done.
  - by destruct s, t, u.
  - apply (SFeqb_refl (S754_finite u m e)). done.
Qed.

Lemma cross_zero q v :
  is_zero (qx q) -> is_zero (qy q) -> is_zero (qz q) -> finite3 v ->
  is_zero (v0 (cross q v)) /\ is_zero (v1 (cross q v)) /\ is_zero (v2 (cross q v)).
Proof.
  intros Hx Hy Hz (H0 & H1 & H2). unfold cross. cbn [v0 v1 v2].
  split; [|split]; apply zero_sub; by apply zero_mul.
Qed.

(** The identity transform moves no point, whatever its coordinates, as long as
    they are numbers. *)
Theorem identity_moves_nothing p : finite3 p -> same3 (transform_point transform_identity p) p.
Proof.
  intros Hp. set (q := {| qx := zero; qy := zero; qz := zero; qw := one |}).
  assert (is_zero zero) as Hz by (by exists false).
  destruct (cross_zero q p Hz Hz Hz Hp) as (A0 & A1 & A2).
  destruct (cross_zero q (cross q p) Hz Hz Hz) as (B0 & B1 & B2); [repeat split; by apply zero_finite|].
  assert (Hr : forall a b, is_zero a -> is_zero b -> is_zero (two * (one * a + b))%f64).
  { intros a b Ha Hb. apply mul_zero; [done|]. apply zero_add; [|done]. by apply mul_zero. }
  destruct Hp as (H0 & H1 & H2).
  repeat split; (apply SFeqb_zeros; [done|done|apply Hr; done]).
Qed.

Lemma SFopp_opp x : (- - x)%f64 = x.
Proof. destruct x as [[]|[]| |[] m e]; done. Qed.

(** Inverting twice gives the quaternion of the rotation, bit by bit. *)
Theorem inverse_inverse r : rotation_inverse (rotation_inverse r) = Quaternion (as_quaternion r).
Proof. unfold rotation_inverse. cbn. rewrite !SFopp_opp. by destruct (as_quaternion r). Qed.

(** The square root of one half is between these two neighbours. *)
Definition half_root (x : spec_float) : Prop :=
  x = S754_finite false 6369051672525772 (-53) \/ x = S754_finite false 6369051672525773 (-53).

(** Angles come back mirrored: a quarter turn about the pitch axis, made into a
    quaternion and back, is a quarter turn the other way. *)
Theorem pitch_comes_back_mirrored :
  f64_sin zero = zero -> f64_cos zero = one -> half_root (f64_sin (frac_pi_2 / two)%f64) ->
  half_root (f64_cos (frac_pi_2 / two)%f64) ->
  v1 (as_euler (Euler zero frac_pi_2 zero)) = (- frac_pi_2)%f64.
Proof.
  intros Hs Hc Hs4 Hc4. unfold as_euler, as_matrix. cbn [as_quaternion]. unfold euler_quaternion.
  assert ((zero / two)%f64 = zero) as -> by by_compute. rewrite Hs, Hc.
  destruct Hs4 as [-> | ->], Hc4 as [-> | ->]; vm_compute; done.
Qed.
End RotationTheorems.

(** A platform whose functions are right at these angles. *)
#[export] Instance demo_libm : Libm := {|
  f64_sin x := if SFeqb x (f64_of 0) then x else S754_finite false 6369051672525772 (-53);
  f64_cos x := if SFeqb x (f64_of 0) then f64_of 1 else S754_finite false 6369051672525773 (-53);
  f64_asin x := x; f64_atan2 x y := x |}.

Lemma pitch_comes_back_mirrored_witness :
  half_root (f64_sin (frac_pi_2 / f64_of 2)%f64) /\
  v1 (as_euler (Euler (f64_of 0) frac_pi_2 (f64_of 0))) = (- frac_pi_2)%f64.
Proof.
  split; [by left|]. apply pitch_comes_back_mirrored; [done|done| by left | by right].
Defined.

Lemma identity_moves_nothing_witness :
  let p := {| v0 := f64_of 3; v1 := SFopp (f64_of 5); v2 := f64_of 0 |} in
  same3 (transform_point transform_identity p) p.
Proof. intros p. apply identity_moves_nothing. by vm_compute. Defined.
