(* ===== verification/Samples.v ===== *)
(** * Samples and streams (data_collection/types.rs, streams.rs, camera_config.rs)

    What a sample carries, the size the buffers count for it and the bytes it is
    written as; the kinds of streams and what is expected of their rate. *)

From S2P Require Import Prelude F32 Transform.

Open Scope string_scope.
Open Scope list_scope.
Open Scope Z_scope.

(** ** What a sample carries (types.rs) *)

Record JointState : Set := {
  names : list string; positions : list spec_float; velocities : option (list spec_float);
  efforts : option (list spec_float) }.

Record SensorReading : Set := {
  sensor_type : string; sr_sensor_id : string; values : list spec_float; units : option string;
  sr_frame_id : option string }.

Inductive EventType : Set :=
| TeleopStart | TeleopEnd | TaskStart | TaskComplete | TaskFailed | Collision | EStop | Intervention
| NovelSituation | ErrorEvent | CustomEvent (name : string).

Inductive Severity : Set := Info | Warning | SeverityError | Critical.

Inductive TeleopDeviceType : Set :=
| SpaceMouse | VrController | Keyboard | Gamepad | HapticDevice | LeaderArm | CustomDevice (name : string).

Record TeleopInput : Set := {
  ti_device_type : TeleopDeviceType; ti_device_id : string; buttons : gmap string bool;
  axes : gmap string spec_float; pose : option Transform3D }.

Definition new_joint_state (ns : list string) (ps : list spec_float) : JointState :=
  {| names := ns; positions := ps; velocities := None; efforts := None |}.
Definition with_velocities (v : list spec_float) (js : JointState) : JointState :=
  {| names := names js; positions := positions js; velocities := Some v; efforts := efforts js |}.
Definition with_efforts (e : list spec_float) (js : JointState) : JointState :=
  {| names := names js; positions := positions js; velocities := velocities js; efforts := Some e |}.

(** The first joint of the name; [None]: the positions are too few, a panic. *)
Definition get_position (name : string) (js : JointState) : option (option spec_float) :=
  match list_find (fun n => n = name) (names js) with
  | Some (i, _) => match positions js !! i with Some p => Some (Some p) | None => None end
  | None => Some None
  end.

(** Later entries of the zip overwrite earlier ones. *)
Definition as_map (js : JointState) : gmap string spec_float :=
  foldl (fun m kv => <[kv.1 := kv.2]> m) ∅ (zip (names js) (positions js)).

Section Sampling.
(** [serde_json::Value], and [serde_json::to_vec] of the five types. *)
Context {Json : Set}.

Record RobotCommand : Set := {
  command_type : string; target_positions : option (list spec_float); target_velocities : option (list spec_float);
  target_efforts : option (list spec_float); parameters : gmap string Json }.

Record EventMarker : Set := {
  event_type : EventType; description : string; severity : Severity; ev_data : gmap string Json }.

Inductive SampleData : Set :=
| Binary (bytes : list Z)
| JointStateData (js : JointState)
| Command (cmd : RobotCommand)
| Sensor (sr : SensorReading)
| Event (ev : EventMarker)
| Teleop (ti : TeleopInput).

(** [size_of_val] of a command is a constant of the build. *)
Definition size_bytes (command_size : Z) (d : SampleData) : Z :=
  match d with
  | Binary data => Z.of_nat (length data)
  | JointStateData js => Z.of_nat (length (names js)) * 32 + Z.of_nat (length (positions js)) * 8 * 3
  | Command _ => command_size + 256
  | Sensor sr => Z.of_nat (length (values sr)) * 8 + 64
  | Event _ => 256
  | Teleop _ => 256
  end.

Class SampleJson : Type := {
  joint_json : JointState -> result string (list Z);
  command_json : RobotCommand -> result string (list Z);
  sensor_json : SensorReading -> result string (list Z);
  event_json : EventMarker -> result string (list Z);
  teleop_json : TeleopInput -> result string (list Z) }.

Definition to_bytes `{SampleJson} (d : SampleData) : list Z :=
  match d with
  | Binary data => data
  | JointStateData js => from_option id [] (ok (joint_json js))
  | Command cmd => from_option id [] (ok (command_json cmd))
  | Sensor sr => from_option id [] (ok (sensor_json sr))
  | Event ev => from_option id [] (ok (event_json ev))
  | Teleop ti => from_option id [] (ok (teleop_json ti))
  end.

Definition as_binary (d : SampleData) : option (list Z) :=
  match d with Binary data => Some data | _ => None end.
End Sampling.
Arguments RobotCommand : clear implicits.
Arguments EventMarker : clear implicits.
Arguments SampleData : clear implicits.
Arguments SampleJson : clear implicits.

(** [QualityMetrics] and its default. *)
Record QualityMetrics : Set := {
  overall_score : spec_float; sharpness : option spec_float; exposure : option spec_float; motion_blur : bool;
  usable : bool; rejection_reason : option string }.
Definition QualityMetrics_default : QualityMetrics := {|
  overall_score := f32_of 1; sharpness := None; exposure := None; motion_blur := false; usable := true;
  rejection_reason := None |}.

Inductive Priority : Set := PLow | PNormal | PHigh | PCritical.

(** ** Pixel formats (camera_config.rs) *)

Inductive PixelFormat : Set :=
| Rgb8 | Bgr8 | Rgba8 | Mono8 | Mono16 | Yuyv | Mjpeg | PixelH264 | PixelH265 | Depth16 | Depth32f
| BayerRggb8 | BayerBggr8.

Definition bytes_per_pixel (f : PixelFormat) : Z :=
  match f with
  | Rgb8 | Bgr8 => 3
  | Rgba8 => 4
  | Mono8 | BayerRggb8 | BayerBggr8 => 1
  | Mono16 | Depth16 | Yuyv => 2
  | Depth32f => 4
  | Mjpeg | PixelH264 | PixelH265 => 1
  end.
Definition is_compressed (f : PixelFormat) : bool :=
  match f with Mjpeg | PixelH264 | PixelH265 => true | _ => false end.
Definition is_depth (f : PixelFormat) : bool := match f with Depth16 | Depth32f => true | _ => false end.

(** ** Streams (streams.rs) *)

Inductive StreamType : Set :=
| RgbCamera (camera_id : string) (width height : Z) (encoding : PixelFormat)
| DepthCamera (camera_id : string) (width height : Z) (min_depth_m max_depth_m : spec_float)
| PointCloud (source_id : string) (max_points : Z) (has_color has_normals : bool)
| JointStates (joint_names : list string) (include_velocities include_efforts : bool)
| ForceTorque (sensor_id frame_id : string)
| Imu (sensor_id frame_id : string) (include_orientation : bool)
| Wrench (sensor_id frame_id : string)
| Telemetry (topic message_type : string) (expected_size : Z)
| TeleopStream (device_type : TeleopDeviceType) (device_id : string)
| Audio (mic_id : string) (sample_rate channels bits_per_sample : Z)
| CommandStream (command_type : string)
| EventStream (source : string).

Inductive StreamCompression : Set := NoneSC | Zstd | Lz4 | Jpeg | Png | H264 | H265.
Record CompressionConfig : Set := { algorithm : StreamCompression; level : Z }.
Definition zstd (level : Z) : CompressionConfig := {| algorithm := Zstd; level := level |}.
Definition lz4 : CompressionConfig := {| algorithm := Lz4; level := 1 |}.
Definition jpeg (quality : Z) : CompressionConfig := {| algorithm := Jpeg; level := quality |}.

(** compression.rs. *)
Inductive CompressionAlgorithm : Set := CaNone | CaZstd | CaLz4 | CaJpeg | CaPng.
Definition to_algorithm (sc : StreamCompression) : CompressionAlgorithm :=
  match sc with
  | NoneSC => CaNone | Zstd => CaZstd | Lz4 => CaLz4 | Jpeg => CaJpeg | Png => CaPng
  | H264 | H265 => CaNone
  end.

(** Products of [usize]. *)
Definition wrap_mul (a b : Z) : Z := (a * b) `mod` (u64_max + 1).

Definition estimated_sample_size (t : StreamType) : Z :=
  match t with
  | RgbCamera _ w h encoding => wrap_mul (wrap_mul w h) (bytes_per_pixel encoding)
  | DepthCamera _ w h _ _ => wrap_mul (wrap_mul w h) 2
  | PointCloud _ max_points has_color has_normals =>
      wrap_mul max_points (12 + (if has_color then 4 else 0) + (if has_normals then 12 else 0))
  | JointStates joint_names include_velocities include_efforts =>
      let num_joints := Z.of_nat (length joint_names) in
      num_joints * 8 + (if include_velocities then num_joints * 8 else 0)
        + (if include_efforts then num_joints * 8 else 0) + 64
  | ForceTorque _ _ => 48 + 32
  | Imu _ _ include_orientation => 72 + (if include_orientation then 32 else 0) + 32
  | Wrench _ _ => 48 + 32
  | Telemetry _ _ expected_size => if 0 <? expected_size then expected_size else 256
  | TeleopStream _ _ => 256
  | Audio _ sample_rate channels bits_per_sample =>
      wrap_mul (wrap_mul (sample_rate / 50) channels) (bits_per_sample / 8)
  | CommandStream _ => 512
  | EventStream _ => 256
  end.

Definition type_name (t : StreamType) : string :=
  match t with
  | RgbCamera _ _ _ _ => "rgb_camera"
  | DepthCamera _ _ _ _ _ => "depth_camera"
  | PointCloud _ _ _ _ => "point_cloud"
  | JointStates _ _ _ => "joint_state"
  | ForceTorque _ _ => "force_torque"
  | Imu _ _ _ => "imu"
  | Wrench _ _ => "wrench"
  | Telemetry _ _ _ => "telemetry"
  | TeleopStream _ _ => "teleop_input"
  | Audio _ _ _ _ => "audio"
  | CommandStream _ => "command"
  | EventStream _ => "event"
  end.

Record StreamConfig : Set := {
  sc_stream_id : string; stream_type : StreamType; frequency_hz : spec_float;
  buffer_duration_seconds : spec_float; compression : option CompressionConfig; priority : Priority;
  sc_enabled : bool }.

Definition new_stream_config (id : string) (t : StreamType) (frequency : spec_float) : StreamConfig := {|
  sc_stream_id := id; stream_type := t; frequency_hz := frequency; buffer_duration_seconds := f32_of 60;
  compression := None; priority := PNormal; sc_enabled := true |}.

(** [(n as f32 * x) as usize]. *)
Definition scale_f32 (n : Z) (x : spec_float) : Z := f32_to_u64 (f32_mul (f32_of n) x).

Definition estimated_bytes_per_second (c : StreamConfig) : Z :=
  scale_f32 (estimated_sample_size (stream_type c)) (frequency_hz c).
Definition estimated_buffer_size (c : StreamConfig) : Z :=
  scale_f32 (estimated_bytes_per_second c) (buffer_duration_seconds c).

(** ** What the sizes and the lookups mean *)

Example stream_estimates :
  estimated_sample_size (RgbCamera "cam1" 1920 1080 Rgb8) = 1920 * 1080 * 3 /\
  (1000000000 <? estimated_buffer_size (new_stream_config "rgb" (RgbCamera "cam1" 640 480 Rgb8) (f32_of 30))) = true /\
  estimated_sample_size (Audio "mic" 44100 2 16) = 882 * 4.
Proof. by vm_compute. Qed.

Lemma zip_map_lookup (ns : list string) (ps : list spec_float) (m : gmap string spec_float) k :
  NoDup ns -> (length ns <= length ps)%nat ->
  foldl (fun m kv => <[kv.1 := kv.2]> m) m (zip ns ps) !! k =
  match list_find (fun n => n = k) ns with Some (i, _) => ps !! i | None => m !! k end.
Proof.
  revert ps m. induction ns as [|a ns IH]; intros [|p ps] m Hn Hl; try done; [simpl in Hl; lia|].
  apply NoDup_cons in Hn as [Ha Hn]. cbn [zip zip_with foldl fst snd]. simpl in Hl. rewrite IH by (done || lia).
  cbn [list_find]. destruct (decide (a = k)) as [->|Hne].
  - destruct (list_find _ ns) as [[i n]|] eqn:E; [|by rewrite lookup_insert_eq].
    apply list_find_Some in E as (Hi & -> & _). by apply list_elem_of_lookup_2 in Hi.
  - destruct (list_find _ ns) as [[i n]|]; [done|]. by rewrite lookup_insert_ne.
Qed.

(** The two lookups of a joint agree when no name occurs twice and no position
    is missing; then neither panics. *)
Theorem positions_agree name js :
  NoDup (names js) -> (length (names js) <= length (positions js))%nat ->
  get_position name js = Some (as_map js !! name).
Proof.
  intros Hn Hl. unfold get_position, as_map. rewrite zip_map_lookup by done.
  destruct (list_find _ (names js)) as [[i n]|] eqn:E; [|by rewrite lookup_empty].
  apply list_find_Some in E as (Hi & _ & _). apply lookup_lt_Some in Hi.
  by destruct (lookup_lt_is_Some_2 (positions js) i ltac:(lia)) as [p ->].
Qed.

Lemma positions_agree_witness :
  let js := new_joint_state ["a"; "b"] [f64_of 1; f64_of 2] in get_position "b" js = Some (Some (f64_of 2)).
Proof.
  intros js. rewrite (positions_agree "b" js); [by vm_compute| |by simpl; lia].
  repeat constructor; set_solver.
Defined.

(** A joint without a position makes one panic and is left out by the other. *)
Example missing_position :
  let js := new_joint_state ["a"; "b"] [f64_of 1] in get_position "b" js = None /\ as_map js !! "b" = None.
Proof. by vm_compute. Qed.

(** Estimates never exceed the type, whatever the rate. *)
Lemma estimates_bounded c : 0 <= estimated_bytes_per_second c <= u64_max /\ 0 <= estimated_buffer_size c <= u64_max.
Proof. split; apply f32_to_u64_bound. Qed.
