(* ===== verification/Cameras.v ===== *)
(** * Cameras (data_collection/camera_config.rs)

    The configuration of the cameras of a robot: how a camera finds its device,
    what it captures, what its lens does to a point, and the validation of the
    whole. *)

From S2P Require Import Prelude F32 RustStr Transform Samples.
From S2P Require Net.

Open Scope string_scope.
Open Scope list_scope.
Open Scope Z_scope.

#[local] Infix "+" := f64_add : f64_scope.
#[local] Infix "-" := f64_sub : f64_scope.
#[local] Infix "*" := f64_mul : f64_scope.
#[local] Infix "/" := f64_div : f64_scope.
#[local] Abbreviation zero := (f64_of 0).
#[local] Abbreviation one := (f64_of 1).

(** ** The device of a camera *)

Inductive DeviceMatchStrategy : Set :=
| DeviceIndex (index : Z)
| DevicePath (path : string)
| UsbPath (path : string)
| SerialNumber (serial : string)
| DeviceName (name_pattern : string) (is_regex : bool)
| UsbVidPid (vendor_id product_id : Z) (usb_port : option string)
| UdevSymlink (symlink : string)
| V4l2Capabilities (capabilities : list string) (driver : option string).

Definition is_deterministic (s : DeviceMatchStrategy) : bool :=
  match s with
  | DeviceIndex _ | DevicePath _ | V4l2Capabilities _ _ => false
  | UsbPath _ | SerialNumber _ | DeviceName _ _ | UdevSymlink _ => true
  | UsbVidPid _ _ usb_port => bool_decide (is_Some usb_port)
  end.

(** [{:04x}] of a [u16]. *)
Definition hex4 (n : Z) : string :=
  String.string_of_list_ascii (map (fun k => Net.hex_digit (Z.land (Z.shiftr n k) 15)) [12; 8; 4; 0]).

(** [debug]: the text [{:?}] gives a list of strings. *)
Definition description (debug : list string -> string) (s : DeviceMatchStrategy) : string :=
  match s with
  | DeviceIndex index => "device index " +:+ show_uint index
  | DevicePath path => "device path '" +:+ path +:+ "'"
  | UsbPath path => "USB path '" +:+ path +:+ "'"
  | SerialNumber serial => "serial number '" +:+ serial +:+ "'"
  | DeviceName name_pattern _ => "device name matching '" +:+ name_pattern +:+ "'"
  | UsbVidPid vendor_id product_id usb_port =>
      let port_info := match usb_port with Some p => " at port " +:+ p | None => "" end in
      "USB " +:+ hex4 vendor_id +:+ ":" +:+ hex4 product_id +:+ port_info
  | UdevSymlink symlink => "udev symlink '" +:+ symlink +:+ "'"
  | V4l2Capabilities capabilities _ => "V4L2 capabilities: " +:+ debug capabilities
  end.

Inductive CameraPosition : Set :=
| Head | Chest | WristLeft | WristRight | External | ShoulderLeft | ShoulderRight | EyeLeft | EyeRight
| CustomPosition (name : string).

Definition position_text (p : CameraPosition) : string :=
  match p with
  | Head => "head" | Chest => "chest" | WristLeft => "wrist_left" | WristRight => "wrist_right"
  | External => "external" | ShoulderLeft => "shoulder_left" | ShoulderRight => "shoulder_right"
  | EyeLeft => "eye_left" | EyeRight => "eye_right" | CustomPosition name => name
  end.

Inductive CameraType : Set := Rgb | Depth | Rgbd | Stereo | Fisheye | Infrared | Thermal | Event.

Record DeviceMatchResult : Set := {
  mr_camera_id : string; mr_matched : bool; device_path : option string; usb_path : option string;
  mr_serial : option string; device_name : option string; strategy : string; warning : option string }.
Definition matched (camera_id device : string) : DeviceMatchResult := {|
  mr_camera_id := camera_id; mr_matched := true; device_path := Some device; usb_path := None; mr_serial := None;
  device_name := None; strategy := ""; warning := None |}.
Definition not_found (camera_id strat : string) : DeviceMatchResult := {|
  mr_camera_id := camera_id; mr_matched := false; device_path := None; usb_path := None; mr_serial := None;
  device_name := None; strategy := strat; warning := None |}.
Definition with_warning (w : string) (r : DeviceMatchResult) : DeviceMatchResult := {|
  mr_camera_id := mr_camera_id r; mr_matched := mr_matched r; device_path := device_path r; usb_path := usb_path r;
  mr_serial := mr_serial r; device_name := device_name r; strategy := strategy r; warning := Some w |}.

(** ** What a camera captures *)

Record CaptureSettings : Set := {
  cap_width : Z; cap_height : Z; fps : spec_float; cap_format : PixelFormat; auto_exposure : bool;
  auto_white_balance : bool; exposure_us : option Z; gain : option spec_float }.

Definition CaptureSettings_default : CaptureSettings := {|
  cap_width := 640; cap_height := 480; fps := f32_of 30; cap_format := Rgb8; auto_exposure := true;
  auto_white_balance := true; exposure_us := None; gain := None |}.

(** [..Default::default()]. *)
Definition sized (w h : Z) (rate : spec_float) : CaptureSettings := {|
  cap_width := w; cap_height := h; fps := rate; cap_format := cap_format CaptureSettings_default;
  auto_exposure := auto_exposure CaptureSettings_default;
  auto_white_balance := auto_white_balance CaptureSettings_default;
  exposure_us := exposure_us CaptureSettings_default; gain := gain CaptureSettings_default |}.
Definition hd_720p : spec_float -> CaptureSettings := sized 1280 720.
Definition full_hd : spec_float -> CaptureSettings := sized 1920 1080.
Definition uhd_4k : spec_float -> CaptureSettings := sized 3840 2160.

Definition bytes_per_frame (c : CaptureSettings) : Z :=
  wrap_mul (wrap_mul (cap_width c) (cap_height c)) (bytes_per_pixel (cap_format c)).
Definition bytes_per_second (c : CaptureSettings) : Z := scale_f32 (bytes_per_frame c) (fps c).

(** ** The lens *)

Inductive DistortionModel : Set := NoDistortion | PlumbBob | Rational | Equidistant | FisheyeModel.

Record CameraIntrinsics : Set := {
  fx : spec_float; fy : spec_float; cx : spec_float; cy : spec_float; distortion_model : DistortionModel;
  distortion_coeffs : list spec_float; ci_width : option Z; ci_height : option Z }.

Definition pinhole (x y px py : spec_float) : CameraIntrinsics := {|
  fx := x; fy := y; cx := px; cy := py; distortion_model := NoDistortion; distortion_coeffs := [];
  ci_width := None; ci_height := None |}.
Definition with_plumb_bob (k1 k2 p1 p2 k3 : spec_float) (i : CameraIntrinsics) : CameraIntrinsics := {|
  fx := fx i; fy := fy i; cx := cx i; cy := cy i; distortion_model := PlumbBob;
  distortion_coeffs := [k1; k2; p1; p2; k3]; ci_width := ci_width i; ci_height := ci_height i |}.

Definition camera_matrix (i : CameraIntrinsics) : Mat3 := {|
  row0 := {| v0 := fx i; v1 := zero; v2 := cx i |};
  row1 := {| v0 := zero; v1 := fy i; v2 := cy i |};
  row2 := {| v0 := zero; v1 := zero; v2 := one |} |}.

(** [[f64; 2]] is a pair. *)
Definition project (i : CameraIntrinsics) (p : Vec3) : option (spec_float * spec_float) :=
  if SFleb (v2 p) zero then None
  else
    let x := (v0 p / v2 p)%f64 in
    let y := (v1 p / v2 p)%f64 in
    Some ((fx i * x + cx i)%f64, (fy i * y + cy i)%f64).

Definition unproject (i : CameraIntrinsics) (p : spec_float * spec_float) : Vec3 :=
  let x := ((p.1 - cx i) / fx i)%f64 in
  let y := ((p.2 - cy i) / fy i)%f64 in
  let norm := f64_sqrt (x * x + y * y + one)%f64 in
  {| v0 := (x / norm)%f64; v1 := (y / norm)%f64; v2 := (one / norm)%f64 |}.

(** ** Pairs, groups and defaults *)

Record StereoPairConfig : Set := {
  pair_id : string; left_camera_id : string; right_camera_id : string; baseline_meters : spec_float;
  hardware_sync : bool }.

Inductive SyncMode : Set := Hardware | Software | NoSync | Ptp.
Record SyncGroupConfig : Set := {
  group_id : string; camera_ids : list string; sync_mode : SyncMode; master_camera_id : option string }.

Inductive VideoCodec : Set := NoCodec | JpegCodec | H264Codec | H265Codec | Vp9 | Av1.
Record CompressionSettings : Set := { codec : VideoCodec; quality : Z; bitrate_kbps : option Z }.

Record CameraDefaults : Set := {
  def_capture : option CaptureSettings; def_compression : option CompressionSettings;
  buffer_duration : spec_float }.
(** The derived default: the duration is zero, not [default_buffer_duration]. *)
Definition CameraDefaults_default : CameraDefaults :=
  {| def_capture := None; def_compression := None; buffer_duration := f32_of 0 |}.
Definition default_buffer_duration : spec_float := f32_of 60.

Inductive ConfigValidationError : Set :=
| DuplicateCameraId (id : string)
| InvalidCameraReference (id : string)
| EmptyCameraId
| InvalidCaptureSettings (id reason : string)
| UrdfLinkNotFoundError (link : string)
| CameraParseError (msg : string).

(** ** A camera, and all of them *)

Section Cameras.
(** [serde_json::Value]. *)
Context {Json : Set}.

Record CameraDeviceConfig : Set := {
  camera_id : string; cam_position : CameraPosition; device_match : DeviceMatchStrategy; camera_type : CameraType;
  capture : CaptureSettings; urdf_link : option string; link_to_optical_frame : option Transform3D;
  intrinsics : option CameraIntrinsics; cam_enabled : bool; extra : gmap string Json }.

Definition new_camera (id : string) (p : CameraPosition) (dm : DeviceMatchStrategy) (t : CameraType)
    : CameraDeviceConfig := {|
  camera_id := id; cam_position := p; device_match := dm; camera_type := t; capture := CaptureSettings_default;
  urdf_link := None; link_to_optical_frame := None; intrinsics := None; cam_enabled := true; extra := ∅ |}.
Definition with_urdf_link (link : string) (c : CameraDeviceConfig) : CameraDeviceConfig := {|
  camera_id := camera_id c; cam_position := cam_position c; device_match := device_match c;
  camera_type := camera_type c; capture := capture c; urdf_link := Some link;
  link_to_optical_frame := link_to_optical_frame c; intrinsics := intrinsics c; cam_enabled := cam_enabled c;
  extra := extra c |}.
Definition with_optical_transform (t : Transform3D) (c : CameraDeviceConfig) : CameraDeviceConfig := {|
  camera_id := camera_id c; cam_position := cam_position c; device_match := device_match c;
  camera_type := camera_type c; capture := capture c; urdf_link := urdf_link c; link_to_optical_frame := Some t;
  intrinsics := intrinsics c; cam_enabled := cam_enabled c; extra := extra c |}.
Definition with_intrinsics (i : CameraIntrinsics) (c : CameraDeviceConfig) : CameraDeviceConfig := {|
  camera_id := camera_id c; cam_position := cam_position c; device_match := device_match c;
  camera_type := camera_type c; capture := capture c; urdf_link := urdf_link c;
  link_to_optical_frame := link_to_optical_frame c; intrinsics := Some i; cam_enabled := cam_enabled c;
  extra := extra c |}.

Definition has_urdf_integration (c : CameraDeviceConfig) : bool := bool_decide (is_Some (urdf_link c)).
Definition get_link_to_optical (c : CameraDeviceConfig) : Transform3D :=
  default transform_identity (link_to_optical_frame c).

Definition validate_camera (c : CameraDeviceConfig) : result ConfigValidationError unit :=
  if bool_decide (camera_id c = "") then Err EmptyCameraId
  else if (cap_width (capture c) =? 0) || (cap_height (capture c) =? 0)
  then Err (InvalidCaptureSettings (camera_id c) "Resolution must be non-zero")
  else if SFleb (fps (capture c)) (f32_of 0)
  then Err (InvalidCaptureSettings (camera_id c) "FPS must be positive")
  else Ok tt.

Record CameraSystemConfig : Set := {
  cameras : list CameraDeviceConfig; stereo_pairs : list StereoPairConfig; sync_groups : list SyncGroupConfig;
  defaults : CameraDefaults }.

Definition new_system : CameraSystemConfig :=
  {| cameras := []; stereo_pairs := []; sync_groups := []; defaults := CameraDefaults_default |}.
Definition add_camera (c : CameraDeviceConfig) (s : CameraSystemConfig) : CameraSystemConfig := {|
  cameras := push (cameras s) c; stereo_pairs := stereo_pairs s; sync_groups := sync_groups s;
  defaults := defaults s |}.
Definition get_camera (id : string) (s : CameraSystemConfig) : option CameraDeviceConfig :=
  snd <$> list_find (fun c => camera_id c = id) (cameras s).
Definition all_camera_ids (s : CameraSystemConfig) : list string := map camera_id (cameras s).

(** [for x in l { f(x)?; }]. *)
Fixpoint check_all {A} (f : A -> result ConfigValidationError unit) (l : list A) : result ConfigValidationError unit :=
  match l with
  | [] => Ok tt
  | x :: l' => f x ≫= fun _ => check_all f l'
  end.

(** The loop with [seen_ids]. *)
Fixpoint check_ids (seen : gset string) (l : list CameraDeviceConfig) : result ConfigValidationError unit :=
  match l with
  | [] => Ok tt
  | c :: l' =>
      if bool_decide (camera_id c ∈ seen) then Err (DuplicateCameraId (camera_id c))
      else check_ids ({[camera_id c]} ∪ seen) l'
  end.

Definition check_reference (s : CameraSystemConfig) (id : string) : result ConfigValidationError unit :=
  match get_camera id s with
  | None => Err (InvalidCameraReference id)
  | Some _ => Ok tt
  end.

Definition validate (s : CameraSystemConfig) : result ConfigValidationError unit :=
  _ ← check_ids ∅ (cameras s);
  _ ← check_all (fun pair => _ ← check_reference s (left_camera_id pair);
                             check_reference s (right_camera_id pair)) (stereo_pairs s);
  _ ← check_all (fun group => check_all (check_reference s) (camera_ids group)) (sync_groups s);
  check_all validate_camera (cameras s).
End Cameras.
Arguments CameraDeviceConfig : clear implicits.
Arguments CameraSystemConfig : clear implicits.

(** ** What the validation promises *)

Section CameraTheorems.
Context {Json : Set}.
Implicit Types (c : CameraDeviceConfig Json) (s : CameraSystemConfig Json).

Definition camera_ok c : Prop :=
  camera_id c <> "" /\ cap_width (capture c) <> 0 /\ cap_height (capture c) <> 0 /\
  SFleb (fps (capture c)) (f32_of 0) = false.

Lemma validate_camera_ok c : validate_camera c = Ok tt <-> camera_ok c.
Proof.
  unfold validate_camera, camera_ok. case_bool_decide as Hid; [naive_solver|].
  destruct (Z.eqb_spec (cap_width (capture c)) 0) as [Hw|Hw]; [naive_solver|].
  destruct (Z.eqb_spec (cap_height (capture c)) 0) as [Hh|Hh]; [naive_solver|].
  cbn [orb]. destruct (SFleb _ _); naive_solver.
Qed.

Lemma validate_camera_err c e :
  validate_camera c = Err e ->
  (e = EmptyCameraId /\ camera_id c = "") \/ (exists reason, e = InvalidCaptureSettings (camera_id c) reason).
Proof. unfold validate_camera. case_bool_decide; split_match; intros [= <-]; eauto. Qed.

Lemma check_all_ok {A} (f : A -> result ConfigValidationError unit) l :
  check_all f l = Ok tt <-> Forall (fun x => f x = Ok tt) l.
Proof.
  induction l as [|x l IH]; simpl; [by split|]. rewrite Forall_cons. destruct (f x) as [[]|e]; simpl.
  - rewrite IH. naive_solver.
  - intuition congruence.
Qed.

(** The error of the first element that fails. *)
Lemma check_all_err {A} (f : A -> result ConfigValidationError unit) l e :
  check_all f l = Err e -> exists x, x ∈ l /\ f x = Err e.
Proof.
  induction l as [|x l IH]; simpl; [done|]. destruct (f x) as [[]|e'] eqn:E; simpl.
  - intros H. destruct (IH H) as (y & Hy & Ey). exists y. split; [by right|done].
  - intros [= ->]. exists x. split; [by left|done].
Qed.

Lemma check_ids_ok seen (l : list (CameraDeviceConfig Json)) :
  check_ids seen l = Ok tt <-> NoDup (map camera_id l) /\ (forall id, id ∈ map camera_id l -> id ∉ seen).
Proof.
  revert seen. induction l as [|c l IH]; intros seen; simpl.
  - split; [|done]. intros _. split; [constructor|]. intros id. by rewrite elem_of_nil.
  - rewrite NoDup_cons. case_bool_decide as Hin.
    + split; [done|]. intros [_ H]. destruct (H (camera_id c)); [by left|done].
    + rewrite IH. setoid_rewrite elem_of_cons. set_solver.
Qed.

Lemma check_ids_err seen (l : list (CameraDeviceConfig Json)) e :
  check_ids seen l = Err e ->
  exists l1 c l2, l = l1 ++ c :: l2 /\ e = DuplicateCameraId (camera_id c) /\
    (camera_id c ∈ seen \/ camera_id c ∈ map camera_id l1).
Proof.
  revert seen. induction l as [|c l IH]; intros seen; simpl; [done|]. case_bool_decide as Hin.
  - intros [= <-]. exists [], c, l. auto.
  - intros H. destruct (IH _ H) as (l1 & c' & l2 & -> & -> & Hc). exists (c :: l1), c', l2.
    split; [done|]. split; [done|]. simpl. rewrite elem_of_cons. set_solver.
Qed.

Lemma get_camera_some id s c : get_camera id s = Some c -> c ∈ cameras s /\ camera_id c = id.
Proof.
  unfold get_camera. rewrite fmap_Some. intros ([i c'] & H & ->). apply list_find_Some in H as (Hl & Hid & _).
  split; [|done]. by eapply list_elem_of_lookup_2.
Qed.
Lemma get_camera_none id s : get_camera id s = None <-> id ∉ all_camera_ids s.
Proof.
  unfold get_camera, all_camera_ids. rewrite fmap_None, list_find_None, Forall_forall. setoid_rewrite list_elem_of_fmap. naive_solver.
Qed.

Lemma check_reference_ok s id : check_reference s id = Ok tt <-> id ∈ all_camera_ids s.
Proof.
  unfold check_reference. pose proof (get_camera_none id s) as H. destruct (get_camera id s) as [c|] eqn:E.
  - apply get_camera_some in E as [Hc <-]. split; [|done]. intros _. by apply list_elem_of_fmap_2.
  - split; [done|]. intros Hin. by destruct (proj1 H eq_refl).
Qed.
Lemma check_reference_err s id e :
  check_reference s id = Err e -> e = InvalidCameraReference id /\ id ∉ all_camera_ids s.
Proof.
  unfold check_reference. destruct (get_camera id s) eqn:E; [done|]. intros [= <-]. split; [done|].
  by apply get_camera_none.
Qed.

(** The cameras a configuration refers to. *)
Definition references s : list string :=
  (stereo_pairs s ≫= fun p => [left_camera_id p; right_camera_id p]) ++ (sync_groups s ≫= camera_ids).

Lemma check_pair_ok s p :
  (_ ← check_reference s (left_camera_id p); check_reference s (right_camera_id p)) = Ok tt <->
  Forall (fun id => id ∈ all_camera_ids s) [left_camera_id p; right_camera_id p].
Proof.
  rewrite !Forall_cons. rewrite <- !check_reference_ok. simpl. destruct (check_reference s (left_camera_id p)) as [[]|e]; simpl.
  - split; [by repeat split|tauto].
  - intuition congruence.
Qed.

Lemma Forall_bind {A B} (P : B -> Prop) (f : A -> list B) l :
  Forall P (l ≫= f) <-> Forall (fun a => Forall P (f a)) l.
Proof. induction l as [|a l IH]; csimpl; [split; constructor|]. by rewrite Forall_app, Forall_cons, IH. Qed.

Lemma check_all_bind {A B} (P : B -> Prop) (f : A -> result ConfigValidationError unit) (g : A -> list B) l :
  (forall a, f a = Ok tt <-> Forall P (g a)) -> check_all f l = Ok tt <-> Forall P (l ≫= g).
Proof.
  intros H. rewrite check_all_ok, Forall_bind. split; intros Hl; (eapply Forall_impl; [exact Hl|]); intros a; apply H.
Qed.

Lemma check_group_ok s g :
  check_all (check_reference s) (camera_ids g) = Ok tt <-> Forall (fun id => id ∈ all_camera_ids s) (camera_ids g).
Proof.
  rewrite check_all_ok. split; intros Hl; (eapply Forall_impl; [exact Hl|]); intros id; apply check_reference_ok.
Qed.

Lemma check_cameras_ok s : check_all validate_camera (cameras s) = Ok tt <-> Forall camera_ok (cameras s).
Proof.
  rewrite check_all_ok. split; intros Hl; (eapply Forall_impl; [exact Hl|]); intros c; apply validate_camera_ok.
Qed.

(** What is accepted: names of their own, references to cameras that exist, and
    for every camera a name, a size and a rate that is not at most zero. *)
Theorem validate_exact s :
  validate s = Ok tt <->
  NoDup (all_camera_ids s) /\ Forall (fun id => id ∈ all_camera_ids s) (references s) /\ Forall camera_ok (cameras s).
Proof.
  unfold validate, references. rewrite Forall_app, <- check_cameras_ok.
  rewrite <- (check_all_bind _ _ _ (stereo_pairs s) (check_pair_ok s)).
  rewrite <- (check_all_bind _ _ _ (sync_groups s) (check_group_ok s)).
  assert (Hid := check_ids_ok ∅ (cameras s)). fold (all_camera_ids s) in Hid.
  destruct (check_ids ∅ (cameras s)) as [[]|e]; simpl.
  - destruct (proj1 Hid eq_refl) as [Hnd _]. destruct (check_all _ (stereo_pairs s)) as [[]|]; simpl; [|naive_solver].
    destruct (check_all _ (sync_groups s)) as [[]|]; simpl; naive_solver.
  - split; [done|]. intros (Hnd & _). assert (@Err ConfigValidationError unit e = Ok tt) as [=]. apply Hid.
    split; [done|]. intros. set_solver.
Qed.

(** After a validation a name stands for one camera. *)
Theorem get_camera_unique s id c :
  validate s = Ok tt -> get_camera id s = Some c <-> (c ∈ cameras s /\ camera_id c = id).
Proof.
  intros (Hnd & _)%validate_exact. split; [apply get_camera_some|]. intros [Hc <-].
  destruct (get_camera (camera_id c) s) as [c'|] eqn:E.
  - apply get_camera_some in E as [Hc' Heq]. f_equal. unfold all_camera_ids in Hnd.
    apply list_elem_of_lookup in Hc as [i Hi], Hc' as [j Hj].
    assert (i = j) as ->; [|congruence]. eapply NoDup_lookup; [exact Hnd| |].
    + rewrite list_lookup_fmap, Hi. done.
    + rewrite list_lookup_fmap, Hj. simpl. by rewrite Heq.
  - apply get_camera_none in E. destruct E. by apply list_elem_of_fmap_2.
Qed.

(** What an error says of the configuration. *)
Definition blames s (e : ConfigValidationError) : Prop :=
  match e with
  | DuplicateCameraId id => exists l1 c l2, cameras s = l1 ++ c :: l2 /\ camera_id c = id /\ id ∈ map camera_id l1
  | InvalidCameraReference id => id ∈ references s /\ id ∉ all_camera_ids s
  | EmptyCameraId => "" ∈ all_camera_ids s
  | InvalidCaptureSettings id _ => exists c, c ∈ cameras s /\ camera_id c = id /\ ~ camera_ok c
  | UrdfLinkNotFoundError _ | CameraParseError _ => False
  end.

Theorem validate_blames s e : validate s = Err e -> blames s e.
Proof.
  unfold validate. destruct (check_ids ∅ (cameras s)) as [[]|e0] eqn:E0; simpl.
  2: { intros [= <-]. apply check_ids_err in E0 as (l1 & c & l2 & Hl & -> & [H|H]); [set_solver|]. simpl. eauto 6. }
  destruct (check_all _ (stereo_pairs s)) as [[]|e1] eqn:E1; simpl.
  2: { intros [= <-]. apply check_all_err in E1 as (p & Hp & Ep). unfold references.
    destruct (check_reference s (left_camera_id p)) as [[]|e2] eqn:El; simpl in Ep;
      [|injection Ep as <-; rename El into Ep];
      apply check_reference_err in Ep as [-> Hn]; (split; [|done]); apply elem_of_app; left;
      apply list_elem_of_bind; exists p; (split; [|done]); set_solver. }
  destruct (check_all _ (sync_groups s)) as [[]|e1'] eqn:E2; simpl.
  2: { intros [= <-]. apply check_all_err in E2 as (g & Hg & Eg). apply check_all_err in Eg as (id & Hid & Eg).
    apply check_reference_err in Eg as [-> Hn]. split; [|done]. apply elem_of_app. right.
    apply list_elem_of_bind. eauto. }
  intros H. apply check_all_err in H as (c & Hc & Ec).
  destruct (validate_camera_err c e Ec) as [[-> Hid]|[reason ->]]; simpl.
  - rewrite <- Hid. by apply list_elem_of_fmap_2.
  - exists c. split; [done|]. split; [done|]. rewrite <- validate_camera_ok. congruence.
Qed.
End CameraTheorems.

(** A rate that is not a number is accepted, and so is a group whose master is
    no camera at all. *)
Example nan_rate_accepted :
  let c : CameraDeviceConfig unit := {|
    camera_id := "head"; cam_position := Head; device_match := SerialNumber "1"; camera_type := Rgb;
    capture := sized 640 480 S754_nan; urdf_link := None; link_to_optical_frame := None; intrinsics := None;
    cam_enabled := true; extra := ∅ |} in
  validate {| cameras := [c]; stereo_pairs := [];
    sync_groups := [{| group_id := "g"; camera_ids := ["head"]; sync_mode := Hardware; master_camera_id := Some "gone" |}];
    defaults := CameraDefaults_default |} = Ok tt.
Proof. by vm_compute. Qed.

Lemma validate_blames_witness :
  let c : CameraDeviceConfig unit := new_camera "camera1" Head (DeviceIndex 0) Rgb in
  let s := add_camera c (add_camera c new_system) in
  validate s = Err (DuplicateCameraId "camera1") /\ blames s (DuplicateCameraId "camera1").
Proof.
  intros c s. assert (H : validate s = Err (DuplicateCameraId "camera1")) by by_compute.
  split; [exact H | exact (validate_blames s _ H)].
Defined.

Lemma get_camera_unique_witness :
  let c : CameraDeviceConfig unit := new_camera "head" Head (SerialNumber "1") Rgb in
  let s := add_camera c new_system in
  validate s = Ok tt /\ get_camera "head" s = Some c.
Proof.
  intros c s. assert (H : validate s = Ok tt) by by_compute. split; [exact H|].
  apply (get_camera_unique s "head" c H). split; [by left|done].
Defined.

(** ** Sizes *)

(** The size of a frame is the product, as long as that is a number of 64 bits;
    a camera may ask for more than that. *)
Lemma bytes_per_frame_exact c :
  0 <= cap_width c -> 0 <= cap_height c ->
  cap_width c * cap_height c * bytes_per_pixel (cap_format c) <= u64_max ->
  bytes_per_frame c = cap_width c * cap_height c * bytes_per_pixel (cap_format c).
Proof.
  intros Hw Hh Hb. assert (1 <= bytes_per_pixel (cap_format c)) by (by destruct (cap_format c)).
  unfold bytes_per_frame, wrap_mul. rewrite (Z.mod_small (cap_width c * cap_height c)) by nia. apply Z.mod_small. nia.
Qed.

Example capture_examples :
  bytes_per_frame (full_hd (f32_of 30)) = 6220800 /\ bytes_per_second (full_hd (f32_of 30)) = 186624000 /\
  bytes_per_frame {| cap_width := 2 ^ 32 - 1; cap_height := 2 ^ 32 - 1; fps := f32_of 30; cap_format := Rgba8;
    auto_exposure := true; auto_white_balance := true; exposure_us := None; gain := None |} < 2 ^ 64 - 2 ^ 34.
Proof. by vm_compute. Qed.

Example description_examples :
  description (fun _ => "") (UsbVidPid 4660 171 (Some "1-2")) = "USB 1234:00ab at port 1-2" /\ description (fun _ => "") (DeviceIndex 7) = "device index 7".
Proof. by vm_compute. Qed.

(** ** The lens *)

(** A point is projected exactly when it is not behind the camera; one whose
    depth is not a number counts as before it. *)
Lemma project_none i p : project i p = None <-> SFleb (v2 p) zero = true.
Proof. unfold project. destruct (SFleb (v2 p) zero); split; congruence. Qed.

Lemma zero_plus z x : is_zero z -> finite x -> SFeqb (z + x)%f64 x = true.
Proof.
  intros [s ->] Hx. destruct x as [t|t| |t m e]; try done.
  - by destruct s, t.
  - apply (SFeqb_refl (S754_finite t m e)). done.
Qed.

(** What lies on the axis of the camera is seen at the principal point, at any
    distance. *)
Theorem axis_projects_to_centre i z s :
  finite z -> SFleb z zero = false -> finite (fx i) -> finite (fy i) -> finite (cx i) -> finite (cy i) ->
  exists x y, project i {| v0 := S754_zero s; v1 := S754_zero s; v2 := z |} = Some (x, y) /\
    SFeqb x (cx i) = true /\ SFeqb y (cy i) = true.
Proof.
  intros Hz Hpos Hfx Hfy Hcx Hcy. unfold project. cbn [v0 v1 v2]. rewrite Hpos.
  assert (is_zero (S754_zero s / z)%f64) as H0 by (destruct z as [t|t| |t m e]; try done; by eexists).
  eexists _, _. split; [reflexivity|]. split; (apply zero_plus; [by apply mul_zero|done]).
Qed.

Lemma axis_projects_to_centre_witness :
  let i := pinhole (f64_of 500) (f64_of 500) (f64_of 320) (f64_of 240) in
  exists x y, project i {| v0 := f64_of 0; v1 := f64_of 0; v2 := f64_of 7 |} = Some (x, y) /\
    SFeqb x (f64_of 320) = true /\ SFeqb y (f64_of 240) = true.
Proof. intros i. by apply (axis_projects_to_centre i (f64_of 7) false). Defined.

Example project_examples :
  let i := pinhole (f64_of 500) (f64_of 500) (f64_of 320) (f64_of 240) in
  project i {| v0 := f64_of 1; v1 := f64_of 0; v2 := f64_of 1 |} = Some (f64_of 820, f64_of 240) /\
  project i {| v0 := f64_of 1; v1 := f64_of 0; v2 := SFopp (f64_of 1) |} = None /\
  unproject i (f64_of 320, f64_of 240) = {| v0 := f64_of 0; v1 := f64_of 0; v2 := f64_of 1 |}.
Proof. by vm_compute. Qed.
