(* ===== verification/Kinematics.v ===== *)
(** * Forward kinematics (data_collection/urdf.rs)

    The links and joints of a robot, the cameras mounted on them, and where a
    camera is for given positions of the joints.  Indexing past the end of a
    vector is a panic; the climb from a link to its root runs on fuel. *)

From stdpp Require Import relations.
From S2P Require Import Prelude F32 RustStr Transform Samples Cameras.

Open Scope string_scope.
Open Scope list_scope.
Open Scope Z_scope.

#[local] Infix "+" := f64_add : f64_scope.
#[local] Infix "*" := f64_mul : f64_scope.
#[local] Infix "/" := f64_div : f64_scope.
#[local] Abbreviation zero := (f64_of 0).
#[local] Abbreviation one := (f64_of 1).
#[local] Abbreviation two := (f64_of 2).

(** ** Calls that may panic or not return *)

Inductive partial (A : Type) : Type := Val (a : A) | Panic | OutOfFuel.
Arguments Val {A} _.
Arguments Panic {A}.
Arguments OutOfFuel {A}.
#[global] Instance partial_ret : MRet partial := fun A a => Val a.
#[global] Instance partial_bind : MBind partial := fun A B f m =>
  match m with Val a => f a | Panic => Panic | OutOfFuel => OutOfFuel end.

(** [v[i]] and [v[i] = x]. *)
Definition index {A} (l : list A) (i : nat) : partial A :=
  match l !! i with Some x => Val x | None => Panic end.
Definition store {A} (l : list A) (i : nat) (x : A) : partial (list A) :=
  if (i <? length l)%nat then Val (<[i := x]> l) else Panic.

(** [n as i32]. *)
Definition as_i32 (n : nat) : Z := (Z.of_nat n + 2 ^ 31) `mod` 2 ^ 32 - 2 ^ 31.

(** ** The data *)

Inductive JointType : Set := Fixed | Revolute | Continuous | Prismatic | Floating | Planar.
#[global] Instance JointType_eq_dec : EqDecision JointType.
Proof. solve_decision. Defined.

Record JointLimits : Set := { lower : spec_float; upper : spec_float; velocity : spec_float; effort : spec_float }.
Record LinkInfo : Set := { l_name : string; l_index : nat }.
Record JointInfo : Set := {
  j_name : string; j_index : nat; joint_type : JointType; parent_link_idx : nat; child_link_idx : nat;
  origin : Transform3D; axis : Vec3; limits : option JointLimits }.
Record CameraLinkInfo : Set := {
  cl_camera_id : string; link_name : string; link_idx : nat; link_to_optical : Transform3D;
  chain_joints : list nat }.
Record CameraPoseStamped : Set := {
  timestamp_ns : Z; p_camera_id : string; pose_world_optical : Transform3D; pose_base_optical : Transform3D;
  joint_positions : list spec_float; pose_joint_names : list string }.

Record RobotModel : Set := {
  name : string; links : list LinkInfo; joints : list JointInfo; link_indices : gmap string nat;
  joint_indices : gmap string nat; camera_links : gmap string CameraLinkInfo; parent_link : list Z;
  parent_joint : list (option nat) }.

Inductive UrdfError : Set :=
| ParseError (msg : string) | LinkNotFound (link : string) | JointNotFound (joint : string)
| CameraNotRegistered (camera : string) | IoError (msg : string) | InvalidChain.

(** ** Building a model *)

Definition new_model (n : string) : RobotModel := {|
  name := n; links := []; joints := []; link_indices := ∅; joint_indices := ∅; camera_links := ∅;
  parent_link := []; parent_joint := [] |}.

Definition add_link (n : string) (m : RobotModel) : RobotModel * nat :=
  let index := length (links m) in
  ({| name := name m; links := push (links m) {| l_name := n; l_index := index |}; joints := joints m;
      link_indices := <[n := index]> (link_indices m); joint_indices := joint_indices m;
      camera_links := camera_links m; parent_link := push (parent_link m) (-1);
      parent_joint := push (parent_joint m) None |}, index).

Definition link_index (n : string) (m : RobotModel) : result UrdfError nat :=
  ok_or (LinkNotFound n) (link_indices m !! n).

Definition add_joint (n : string) (t : JointType) (parent child : string) (o : Transform3D) (a : Vec3)
    (lim : option JointLimits) (m : RobotModel) : partial (result UrdfError (RobotModel * nat)) :=
  match link_index parent m with
  | Err e => Val (Err e)
  | Ok parent_idx =>
      match link_index child m with
      | Err e => Val (Err e)
      | Ok child_idx =>
          let index := length (joints m) in
          let info := {| j_name := n; j_index := index; joint_type := t; parent_link_idx := parent_idx;
                         child_link_idx := child_idx; origin := o; axis := a; limits := lim |} in
          pl ← store (parent_link m) child_idx (as_i32 parent_idx);
          pj ← store (parent_joint m) child_idx (Some index);
          Val (Ok ({| name := name m; links := links m; joints := push (joints m) info;
                      link_indices := link_indices m; joint_indices := <[n := index]> (joint_indices m);
                      camera_links := camera_links m; parent_link := pl; parent_joint := pj |}, index))
      end
  end.

(** The constants of [simple_arm]. *)
Definition PI : spec_float := S754_finite false 7074237752028440 (-51).
Definition tenth : spec_float := f64_div (f64_of 1) (f64_of 10).

Definition arm_step (m : RobotModel) (i : nat) : partial RobotModel :=
  let link := "link_" +:+ show_uint (Z.of_nat (i + 1)) in
  let joint := "joint_" +:+ show_uint (Z.of_nat (i + 1)) in
  let parent := if (i =? 0)%nat then "base_link" else "link_" +:+ show_uint (Z.of_nat i) in
  let m := (add_link link m).1 in
  r ← add_joint joint Revolute parent link (from_translation zero zero tenth)
        {| v0 := zero; v1 := zero; v2 := one |}
        (Some {| lower := SFopp PI; upper := PI; velocity := f64_of 2; effort := f64_of 100 |}) m;
  match r with Ok (m, _) => Val m | Err _ => Panic end.

Fixpoint arm_steps (m : RobotModel) (ixs : list nat) : partial RobotModel :=
  match ixs with
  | [] => Val m
  | i :: ixs => m ← arm_step m i; arm_steps m ixs
  end.
Definition simple_arm (n : string) (num_joints : nat) : partial RobotModel :=
  arm_steps (add_link "base_link" (new_model n)).1 (seq 0 num_joints).

Definition joint_names (m : RobotModel) : list string := map j_name (joints m).
Definition link_names (m : RobotModel) : list string := map l_name (links m).
Definition get_joint (n : string) (m : RobotModel) : partial (option JointInfo) :=
  match joint_indices m !! n with
  | Some i => j ← index (joints m) i; Val (Some j)
  | None => Val None
  end.
Definition get_link (n : string) (m : RobotModel) : partial (option LinkInfo) :=
  match link_indices m !! n with
  | Some i => l ← index (links m) i; Val (Some l)
  | None => Val None
  end.

(** ** The chain of joints above a link *)

Fixpoint climb (fuel : nat) (m : RobotModel) (current : nat) (chain : list nat) : partial (list nat) :=
  match fuel with
  | O => OutOfFuel
  | S fuel =>
      p ← index (parent_link m) current;
      if 0 <=? p then
        pj ← index (parent_joint m) current;
        climb fuel m (Z.to_nat p) (match pj with Some j => push chain j | None => chain end)
      else Val (reverse chain)
  end.
Definition compute_chain (m : RobotModel) (link : nat) : partial (list nat) :=
  climb (S (length (links m))) m link [].

(** ** Cameras on links *)

Definition insert_camera (id : string) (info : CameraLinkInfo) (m : RobotModel) : RobotModel := {|
  name := name m; links := links m; joints := joints m; link_indices := link_indices m;
  joint_indices := joint_indices m; camera_links := <[id := info]> (camera_links m);
  parent_link := parent_link m; parent_joint := parent_joint m |}.

Definition register_camera (id link : string) (optical : Transform3D) (m : RobotModel)
    : partial (result UrdfError RobotModel) :=
  match link_index link m with
  | Err e => Val (Err e)
  | Ok idx =>
      chain ← compute_chain m idx;
      Val (Ok (insert_camera id {| cl_camera_id := id; link_name := link; link_idx := idx;
                                   link_to_optical := optical; chain_joints := chain |} m))
  end.

(** The cameras before a failing one stay registered. *)
Fixpoint register_cameras {Json : Set} (cs : list (CameraDeviceConfig Json)) (registered : list string)
    (m : RobotModel) : partial (RobotModel * result UrdfError (list string)) :=
  match cs with
  | [] => Val (m, Ok registered)
  | c :: cs =>
      match urdf_link c with
      | Some link =>
          r ← register_camera (camera_id c) link (get_link_to_optical c) m;
          match r with
          | Ok m => register_cameras cs (push registered (camera_id c)) m
          | Err e => Val (m, Err e)
          end
      | None => register_cameras cs registered m
      end
  end.
Definition register_cameras_from_config {Json : Set} (config : CameraSystemConfig Json) (m : RobotModel)
    : partial (RobotModel * result UrdfError (list string)) :=
  register_cameras (cameras config) [] m.

(** ** Poses *)

Section Poses.
Context `{Libm}.

Definition rotation_from_axis_angle (axis : Vec3) (angle : spec_float) : Rotation3D :=
  let half := (angle / two)%f64 in
  let s := f64_sin half in
  let norm := f64_sqrt (v0 axis * v0 axis + v1 axis * v1 axis + v2 axis * v2 axis)%f64 in
  if SFltb norm tiny then rotation_identity
  else Quaternion {| qx := (v0 axis / norm * s)%f64; qy := (v1 axis / norm * s)%f64; qz := (v2 axis / norm * s)%f64;
                     qw := f64_cos half |}.

(** [joint_positions.get(name).copied().unwrap_or(0.0)]. *)
Definition position_of (positions : gmap string spec_float) (n : string) : spec_float :=
  default zero (positions !! n).

(** Limits are only compared for a warning. *)
Definition compute_joint_transform (j : JointInfo) (positions : gmap string spec_float) : Transform3D :=
  match joint_type j with
  | Fixed | Floating | Planar => origin j
  | Revolute | Continuous =>
      compose (origin j)
        {| translation := {| v0 := zero; v1 := zero; v2 := zero |};
           rotation := rotation_from_axis_angle (axis j) (position_of positions (j_name j)) |}
  | Prismatic =>
      let position := position_of positions (j_name j) in
      compose (origin j)
        {| translation := {| v0 := (v0 (axis j) * position)%f64; v1 := (v1 (axis j) * position)%f64;
                             v2 := (v2 (axis j) * position)%f64 |};
           rotation := rotation_identity |}
  end.

Fixpoint chain_transform (m : RobotModel) (positions : gmap string spec_float) (t : Transform3D) (chain : list nat)
    : partial Transform3D :=
  match chain with
  | [] => Val t
  | i :: chain =>
      j ← index (joints m) i;
      chain_transform m positions (compose t (compute_joint_transform j positions)) chain
  end.
Definition compute_chain_transform (m : RobotModel) (chain : list nat) (positions : gmap string spec_float)
    : partial Transform3D :=
  chain_transform m positions transform_identity chain.

Definition compute_link_pose (m : RobotModel) (link : string) (positions : gmap string spec_float)
    : partial (result UrdfError Transform3D) :=
  match link_index link m with
  | Err e => Val (Err e)
  | Ok idx => chain ← compute_chain m idx; t ← compute_chain_transform m chain positions; Val (Ok t)
  end.

Fixpoint index_all {A} (l : list A) (ixs : list nat) : partial (list A) :=
  match ixs with
  | [] => Val []
  | i :: ixs => x ← index l i; xs ← index_all l ixs; Val (x :: xs)
  end.

Definition compute_camera_pose (m : RobotModel) (id : string) (positions : gmap string spec_float)
    (base_pose_world : option Transform3D) (timestamp : Z) : partial (result UrdfError CameraPoseStamped) :=
  match camera_links m !! id with
  | None => Val (Err (CameraNotRegistered id))
  | Some info =>
      base_to_link ← compute_chain_transform m (chain_joints info) positions;
      let base_optical := compose base_to_link (link_to_optical info) in
      let world_optical := match base_pose_world with Some b => compose b base_optical | None => base_optical end in
      js ← index_all (joints m) (chain_joints info);
      let chain_names := map j_name js in
      Val (Ok {| timestamp_ns := timestamp; p_camera_id := id; pose_world_optical := world_optical;
                 pose_base_optical := base_optical; joint_positions := map (position_of positions) chain_names;
                 pose_joint_names := chain_names |})
  end.

(** [keys]: the order the map is walked in. *)
Fixpoint compute_all_camera_poses (m : RobotModel) (keys : list string) (positions : gmap string spec_float)
    (base : option Transform3D) (timestamp : Z) : partial (list (result UrdfError CameraPoseStamped)) :=
  match keys with
  | [] => Val []
  | id :: keys =>
      r ← compute_camera_pose m id positions base timestamp;
      rs ← compute_all_camera_poses m keys positions base timestamp;
      Val (r :: rs)
  end.
Definition compute_all_camera_poses_ok (m : RobotModel) (keys : list string) (positions : gmap string spec_float)
    (base : option Transform3D) (timestamp : Z) : partial (list CameraPoseStamped) :=
  rs ← compute_all_camera_poses m keys positions base timestamp; Val (omap (M := list) ok rs).
End Poses.

(** A stub: nothing is ever parsed. *)
Definition parse_urdf_string (urdf_xml : string) : result UrdfError RobotModel :=
  Err (ParseError "URDF parsing requires the 'urdf_rs' feature. Use RobotModel::simple_arm() for testing.").
(** [content]: what reading the file gives. *)
Definition parse_urdf_file (content : result string string) : result UrdfError RobotModel :=
  match content with Err e => Err (IoError e) | Ok urdf_xml => parse_urdf_string urdf_xml end.

(** ** Well-formed models *)

(** A link without a parent has no joint; one with a parent has the joint that
    attached it. *)
Definition attached (m : RobotModel) (i : nat) (p : Z) : Prop :=
  (p = -1 /\ parent_joint m !! i = Some None) \/
  (exists jx j, p = Z.of_nat (parent_link_idx j) /\ (parent_link_idx j < length (links m))%nat /\
    parent_joint m !! i = Some (Some jx) /\ joints m !! jx = Some j /\ child_link_idx j = i).

Record wf (m : RobotModel) : Prop := {
  wf_pl : length (parent_link m) = length (links m);
  wf_pj : length (parent_joint m) = length (links m);
  wf_small : Z.of_nat (length (links m)) <= 2 ^ 31;
  wf_links n i : link_indices m !! n = Some i -> exists l, links m !! i = Some l /\ l_name l = n;
  wf_joints n i : joint_indices m !! n = Some i -> exists j, joints m !! i = Some j /\ j_name j = n;
  wf_parents i p : parent_link m !! i = Some p -> attached m i p;
  wf_cameras id info : camera_links m !! id = Some info ->
    Forall (fun jx => (jx < length (joints m))%nat) (chain_joints info) }.

Lemma as_i32_small n : Z.of_nat n < 2 ^ 31 -> as_i32 n = Z.of_nat n.
Proof. intros H. unfold as_i32. rewrite Z.mod_small; lia. Qed.

Lemma link_index_bound m n i : wf m -> link_indices m !! n = Some i -> (i < length (links m))%nat.
Proof. intros Hwf H. apply (wf_links m Hwf) in H as (l & Hl & _). by eapply lookup_lt_Some. Qed.

Lemma new_model_wf n : wf (new_model n).
Proof. split; simpl; try done; intros; set_solver. Qed.

Lemma lookup_push {A} (l : list A) x i y :
  push l x !! i = Some y <-> l !! i = Some y \/ (i = length l /\ y = x).
Proof.
  unfold push. rewrite lookup_snoc_Some. split.
  - intros [[_ H]|[-> <-]]; [by left|by right].
  - intros [H|[-> ->]]; [left|by right]. split; [by eapply lookup_lt_Some|done].
Qed.

Lemma add_link_wf n m : wf m -> Z.of_nat (length (links m)) < 2 ^ 31 -> wf (add_link n m).1.
Proof.
  intros Hwf Hlt. destruct Hwf as [Hpl Hpj Hs Hl Hj Hp Hc]. split; simpl; unfold push.
  - rewrite !length_app; simpl; lia.
  - rewrite !length_app; simpl; lia.
  - rewrite length_app; simpl; lia.
  - intros k i H. rewrite lookup_insert_Some in H. destruct H as [[<- <-]|[_ H]].
    + eexists. split; [by rewrite lookup_app_r, Nat.sub_diag by lia|done].
    + destruct (Hl _ _ H) as (l & E & <-). exists l. split; [by apply lookup_app_l_Some|done].
  - done.
  - intros i p H. apply lookup_push in H as [H|[-> ->]].
    + destruct (Hp _ _ H) as [[-> E]|(jx & j & -> & Hlt' & E & Ej & Ec)]; [left|right].
      * split; [done|]. simpl. by apply lookup_app_l_Some.
      * exists jx, j. simpl. rewrite length_app. repeat split; [lia|by apply lookup_app_l_Some|done|done].
    + left. split; [done|]. simpl. rewrite lookup_app_r, Hpj, Hpl, Nat.sub_diag by lia. done.
  - done.
Qed.

Lemma link_index_ok n m i : link_index n m = Ok i <-> link_indices m !! n = Some i.
Proof. apply ok_or_Ok. Qed.

Lemma store_val {A} (l : list A) i x : (i < length l)%nat -> store l i x = Val (<[i := x]> l).
Proof. intros H. unfold store. by rewrite (proj2 (Nat.ltb_lt _ _) H). Qed.

(** What adding a joint gives in a well-formed model, and that it does not
    panic. *)
Definition joined (m : RobotModel) (info : JointInfo) : RobotModel := {|
  name := name m; links := links m; joints := push (joints m) info; link_indices := link_indices m;
  joint_indices := <[j_name info := length (joints m)]> (joint_indices m); camera_links := camera_links m;
  parent_link := <[child_link_idx info := Z.of_nat (parent_link_idx info)]> (parent_link m);
  parent_joint := <[child_link_idx info := Some (length (joints m))]> (parent_joint m) |}.

Lemma add_joint_val n t parent child o a lim m :
  wf m ->
  add_joint n t parent child o a lim m = Val (
    p ← link_index parent m;
    c ← link_index child m;
    Ok (joined m {| j_name := n; j_index := length (joints m); joint_type := t; parent_link_idx := p;
                    child_link_idx := c; origin := o; axis := a; limits := lim |}, length (joints m))).
Proof.
  intros Hwf. unfold add_joint. destruct (link_index parent m) as [p|e] eqn:Ep; [|done].
  destruct (link_index child m) as [c|e] eqn:Ec; [|done]. simpl.
  apply link_index_ok, (link_index_bound m) in Ep, Ec; try done. pose proof (wf_small m Hwf).
  rewrite as_i32_small by lia. rewrite !store_val by (rewrite ?(wf_pl m Hwf), ?(wf_pj m Hwf); done). done.
Qed.

Lemma joined_wf m info :
  wf m -> (parent_link_idx info < length (links m))%nat -> (child_link_idx info < length (links m))%nat ->
  wf (joined m info).
Proof.
  intros [Hpl Hpj Hs Hl Hj Hp Hc] Hpi Hci. split; simpl; try done.
  - by rewrite length_insert.
  - by rewrite length_insert.
  - intros k i H. rewrite lookup_insert_Some in H. destruct H as [[<- <-]|[_ H]].
    + exists info. split; [|done]. apply lookup_push. by right.
    + destruct (Hj _ _ H) as (j & E & <-). exists j. split; [|done]. apply lookup_push. by left.
  - intros i p H. destruct (decide (i = child_link_idx info)) as [->|Hne].
    + rewrite list_lookup_insert_eq in H by lia. injection H as <-. right.
      exists (length (joints m)), info. simpl. rewrite list_lookup_insert_eq by lia.
      repeat split; [done|]. apply lookup_push. by right.
    + rewrite list_lookup_insert_ne in H by done.
      destruct (Hp _ _ H) as [[-> E]|(jx & j & -> & Hlt' & E & Ej & Ec)]; [left|right]; simpl;
        rewrite list_lookup_insert_ne by done; [done|].
      exists jx, j. repeat split; try done. apply lookup_push. by left.
  - intros id ci H. eapply Forall_impl; [by eapply Hc|]. simpl. intros x Hx. unfold push. rewrite length_app. lia.
Qed.

Lemma add_joint_wf n t parent child o a lim m m' i :
  wf m -> add_joint n t parent child o a lim m = Val (Ok (m', i)) -> wf m'.
Proof.
  intros Hwf. rewrite add_joint_val by done. intros [= H].
  destruct (link_index parent m) as [p|] eqn:Ep; [|done]. destruct (link_index child m) as [c|] eqn:Ec; [|done].
  simpl in H. injection H as <- <-. apply link_index_ok in Ep, Ec.
  apply joined_wf; [done| |]; simpl; by eapply link_index_bound.
Qed.

(** ** The climb *)

Section Climb.
Context (m : RobotModel) (Hwf : wf m).

(** The parent of a link. *)
Definition above (i p : nat) : Prop := parent_link m !! i = Some (Z.of_nat p).

(** The links whose climb reaches a root. *)
Inductive grounded : nat -> Prop :=
| grounded_root i : parent_link m !! i = Some (-1) -> grounded i
| grounded_step i p : above i p -> grounded p -> grounded i.

Lemma above_unique i p q : above i p -> above i q -> p = q.
Proof. unfold above. intros -> [= H]. lia. Qed.
Lemma above_bound i p : above i p -> (i < length (links m))%nat /\ (p < length (links m))%nat.
Proof using Hwf.
  intros H. split; [rewrite <- (wf_pl m Hwf); by eapply lookup_lt_Some|].
  apply (wf_parents m Hwf) in H as [[H _]|(jx & j & H & Hlt & _)]; lia.
Qed.
Lemma root_or_above i : (i < length (links m))%nat -> parent_link m !! i = Some (-1) \/ exists p, above i p.
Proof using Hwf.
  intros H. rewrite <- (wf_pl m Hwf) in H. apply lookup_lt_is_Some in H as [p Hp]. unfold above. rewrite Hp.
  apply (wf_parents m Hwf) in Hp as [[-> _]|(jx & j & -> & _)]; [by left|right; eauto].
Qed.

(** One turn of the loop. *)
Lemma climb_root f i acc : parent_link m !! i = Some (-1) -> climb (S f) m i acc = Val (reverse acc).
Proof. intros H. simpl. unfold index. by rewrite H. Qed.
Lemma above_joint i p : above i p -> exists jx j,
  parent_joint m !! i = Some (Some jx) /\ joints m !! jx = Some j /\ parent_link_idx j = p /\ child_link_idx j = i.
Proof using Hwf.
  intros H. destruct (wf_parents m Hwf _ _ H) as [[H' _]|(jx & j & Hp & Hlt & Ej & E & Ec)]; [lia|].
  exists jx, j. repeat split; try done. lia.
Qed.
Lemma climb_step f i p acc jx :
  above i p -> parent_joint m !! i = Some (Some jx) -> climb (S f) m i acc = climb f m p (push acc jx).
Proof using Type.
  intros H Ej. unfold above in H. cbn [climb]. unfold index. rewrite H. cbn [mbind partial_bind].
  rewrite (proj2 (Z.leb_le 0 (Z.of_nat p)) ltac:(lia)), Ej. cbn [mbind partial_bind]. by rewrite Nat2Z.id.
Qed.

(** A way up: links one above the other, to a root. *)
Inductive trail : nat -> list nat -> Prop :=
| trail_root i : parent_link m !! i = Some (-1) -> trail i [i]
| trail_step i p l : above i p -> trail p l -> trail i (i :: l).

Lemma grounded_trail i : grounded i -> exists l, trail i l.
Proof.
  induction 1 as [i H|i p H _ (l & IH)]; [exists [i]; by constructor|]. exists (i :: l). by econstructor.
Qed.
Lemma trail_reach i l x : trail i l -> x ∈ l -> rtc above i x.
Proof.
  induction 1 as [i H|i p l H _ IH]; intros Hx.
  - apply list_elem_of_singleton in Hx as ->. apply rtc_refl.
  - apply elem_of_cons in Hx as [->|Hx]; [apply rtc_refl|]. eapply rtc_l; [exact H|by apply IH].
Qed.
(** There is no way from a link that reaches a root back to it. *)
Lemma grounded_acyclic i : grounded i -> ~ tc above i i.
Proof.
  induction 1 as [i H|i p H Hg IH]; intros Hc.
  - assert (exists q, above i q) as (q & Hq) by (inversion Hc; eauto). unfold above in Hq. rewrite H in Hq. injection Hq. lia.
  - apply IH. assert (forall x, tc above i x -> x = p \/ tc above p x) as Hd.
    { intros x Hx. inversion Hx as [? y Hy|? q y Hq Hy]; subst; [left; by eapply above_unique|right].
      by rewrite (above_unique _ _ _ H Hq). }
    destruct (Hd i Hc) as [<-|Hp]; [done|]. eapply tc_r; [exact Hp|exact H].
Qed.

Lemma trail_nodup i l : grounded i -> trail i l -> NoDup l.
Proof.
  intros Hg H. revert Hg. induction H as [i H|i p l H Ht IH]; intros Hg; [apply NoDup_singleton|].
  assert (grounded p) as Hp.
  { inversion Hg as [? Hr|? q Hq Hg']; subst; unfold above in *; [|by rewrite (above_unique _ _ _ H Hq)].
    rewrite H in Hr. injection Hr. lia. }
  apply NoDup_cons. split; [|by apply IH]. intros Hi. apply (grounded_acyclic i Hg).
  eapply tc_rtc_r; [by constructor|]. by eapply trail_reach.
Qed.

Lemma trail_bound i l : trail i l -> Forall (fun x => (x < length (links m))%nat) l.
Proof using Hwf.
  induction 1 as [i H|i p l H _ IH]; constructor; try done.
  - rewrite <- (wf_pl m Hwf). by eapply lookup_lt_Some.
  - by apply above_bound in H as [H _].
Qed.

Lemma nodup_bound (l : list nat) n : NoDup l -> Forall (fun x => (x < n)%nat) l -> (length l <= n)%nat.
Proof.
  intros Hnd Hl. rewrite <- (length_seq n 0) at 1. apply submseteq_length, NoDup_submseteq; [done|].
  intros x Hx. rewrite elem_of_seq. rewrite Forall_forall in Hl. specialize (Hl x Hx). lia.
Qed.

(** A chain of joints from a root down to a link, each hanging on the one
    before. *)
Inductive linkage : nat -> list nat -> Prop :=
| linkage_root i : parent_link m !! i = Some (-1) -> linkage i []
| linkage_joint i chain jx j :
    parent_joint m !! i = Some (Some jx) -> joints m !! jx = Some j -> child_link_idx j = i ->
    above i (parent_link_idx j) -> linkage (parent_link_idx j) chain -> linkage i (push chain jx).

Lemma climb_trail i l : trail i l -> exists chain, linkage i chain /\
  forall f acc, (length l <= f)%nat -> climb f m i acc = Val (chain ++ reverse acc).
Proof using Hwf.
  induction 1 as [i H|i p l H _ (chain & Hc & IH)].
  - exists []. split; [by constructor|]. intros [|f] acc Hf; [simpl in Hf; lia|]. by apply climb_root.
  - destruct (above_joint i p H) as (jx & j & Ej & E & <- & Ec). exists (push chain jx). split.
    + by econstructor.
    + intros [|f] acc Hf; simpl in Hf; [lia|]. rewrite (climb_step f i _ acc jx H Ej), IH by lia.
      unfold push. by rewrite reverse_app, <- app_assoc.
Qed.

(** From a link that reaches a root the loop ends, within one turn more than
    there are links, with the joints on the way. *)
Lemma grounded_chain i : grounded i -> exists chain, linkage i chain /\
  forall f acc, (length (links m) <= f)%nat -> climb f m i acc = Val (chain ++ reverse acc).
Proof using Hwf.
  intros Hg. destruct (grounded_trail i Hg) as [l Hl]. destruct (climb_trail i l Hl) as (chain & Hc & Hf).
  exists chain. split; [done|]. intros f acc Hlen. apply Hf.
  pose proof (nodup_bound l _ (trail_nodup i l Hg Hl) (trail_bound i l Hl)). lia.
Qed.

Lemma climb_cases f i acc :
  (i < length (links m))%nat ->
  (exists chain, climb f m i acc = Val chain /\ grounded i) \/ climb f m i acc = OutOfFuel.
Proof using Hwf.
  revert i acc. induction f as [|f IH]; intros i acc Hi; [by right|].
  destruct (root_or_above i Hi) as [H|[p H]].
  - left. eexists. split; [by apply climb_root|by constructor].
  - destruct (above_joint i p H) as (jx & j & Ej & _). rewrite (climb_step f i p acc jx H Ej).
    destruct (IH p (push acc jx)) as [(chain & E & Hg)|E]; [by apply above_bound in H as [_ H]| |by right].
    left. exists chain. split; [done|by econstructor].
Qed.

Lemma compute_chain_grounded i :
  (i < length (links m))%nat -> (exists chain, compute_chain m i = Val chain) <-> grounded i.
Proof using Hwf.
  intros Hi. split.
  - intros [chain H]. destruct (climb_cases (S (length (links m))) i [] Hi) as [(c & _ & Hg)|E]; [done|].
    unfold compute_chain in H. congruence.
  - intros Hg. destruct (grounded_chain i Hg) as (chain & _ & Hf). eexists. apply Hf. lia.
Qed.

Lemma compute_chain_linkage i chain : (i < length (links m))%nat -> compute_chain m i = Val chain -> linkage i chain.
Proof using Hwf.
  intros Hi H. destruct (grounded_chain i) as (c & Hc & Hf); [apply compute_chain_grounded; eauto|].
  unfold compute_chain in H. rewrite Hf in H by lia. injection H as <-. by rewrite app_nil_r.
Qed.

Lemma linkage_bound i chain : linkage i chain -> Forall (fun jx => (jx < length (joints m))%nat) chain.
Proof.
  induction 1 as [|i chain jx j Ej E Ec Hp Hl IH]; [constructor|]. apply Forall_app. split; [done|].
  constructor; [by eapply lookup_lt_Some|constructor].
Qed.
End Climb.

(** A model in which every link reaches a root. *)
Definition rooted (m : RobotModel) : Prop := forall i, (i < length (links m))%nat -> grounded m i.

(** Claim C32: The loop returns from a link that reaches a root, whatever is added to the
    fuel, with the joints that lead from the root to the link; from any other
    link it never returns. *)
Theorem chain_of_link m i :
  wf m -> (i < length (links m))%nat ->
  (grounded m i -> exists chain, linkage m i chain /\
     forall fuel, (length (links m) <= fuel)%nat -> climb fuel m i [] = Val chain) /\
  (~ grounded m i -> forall fuel, climb fuel m i [] = OutOfFuel).
Proof.
  intros Hwf Hi. split.
  - intros Hg. destruct (grounded_chain m Hwf i Hg) as (chain & Hc & Hf). exists chain. split; [done|].
    intros fuel Hle. rewrite (Hf fuel [] Hle). by rewrite app_nil_r.
  - intros Hn fuel. by destruct (climb_cases m Hwf fuel i [] Hi) as [(c & _ & Hg)|E].
Qed.

Lemma above_joined m info i p :
  wf m -> (child_link_idx info < length (links m))%nat ->
  above (joined m info) i p <->
  (i = child_link_idx info /\ p = parent_link_idx info) \/ (i <> child_link_idx info /\ above m i p).
Proof.
  intros Hwf Hc. unfold above. simpl. destruct (decide (i = child_link_idx info)) as [->|Hne].
  - rewrite list_lookup_insert_eq by (by rewrite (wf_pl m Hwf)). split.
    + intros [= H]. left. split; [done|]. lia.
    + intros [[_ ->]|[? _]]; done.
  - rewrite list_lookup_insert_ne by done. naive_solver.
Qed.

(** A way up that avoids the link that is hung elsewhere is unchanged; one to it
    too. *)
Lemma joined_grounded_avoiding m info i :
  wf m -> (child_link_idx info < length (links m))%nat -> grounded m i ->
  ~ rtc (above m) i (child_link_idx info) -> grounded (joined m info) i.
Proof.
  intros Hwf Hc. induction 1 as [i H|i p H _ IH]; intros Hn.
  - apply grounded_root. simpl. rewrite list_lookup_insert_ne; [done|]. intros <-. apply Hn, rtc_refl.
  - eapply grounded_step.
    + apply above_joined; [done|done|]. right. split; [|exact H]. intros ->. apply Hn, rtc_refl.
    + apply IH. intros Hr. apply Hn. by eapply rtc_l.
Qed.

Lemma joined_reaches m info x c :
  wf m -> (child_link_idx info < length (links m))%nat -> c = child_link_idx info ->
  rtc (above m) x c -> rtc (above (joined m info)) x c.
Proof.
  intros Hwf Hc Heq. induction 1 as [|x y c Hxy Hyz IH]; [apply rtc_refl|].
  destruct (decide (x = c)) as [->|Hne]; [apply rtc_refl|].
  eapply rtc_l; [|by apply IH]. apply above_joined; [done|done|]. right. split; [congruence|done].
Qed.

Lemma joined_rooted m info :
  wf m -> (child_link_idx info < length (links m))%nat -> (parent_link_idx info < length (links m))%nat -> rooted m ->
  rooted (joined m info) <-> ~ rtc (above m) (parent_link_idx info) (child_link_idx info).
Proof.
  intros Hwf Hc Hp Hr.
  assert (Hstep : above (joined m info) (child_link_idx info) (parent_link_idx info))
    by (apply above_joined; auto).
  split.
  - intros Hr' Hreach. apply (grounded_acyclic _ _ (Hr' _ Hc)). eapply tc_rtc_r; [by constructor|].
    by apply joined_reaches.
  - intros Hn i Hi. simpl in Hi.
    assert (Hchild : grounded (joined m info) (child_link_idx info)).
    { eapply grounded_step; [exact Hstep|]. apply joined_grounded_avoiding; auto. }
    induction (Hr i Hi) as [i H|i p H Hg IH].
    + destruct (decide (i = child_link_idx info)) as [->|Hne]; [done|]. apply grounded_root. simpl.
      by rewrite list_lookup_insert_ne.
    + destruct (decide (i = child_link_idx info)) as [->|Hne]; [done|]. apply (grounded_step _ i p).
      * apply above_joined; auto.
      * apply IH. by apply (above_bound m Hwf) in H as [_ H].
Qed.

(** A joint keeps every link within reach of a root exactly when the child is
    not the parent or above it.  Nothing checks that: a joint that closes a
    circle is added all the same. *)
Theorem joint_keeps_roots n t parent child o a lim m m' i p c :
  wf m -> rooted m -> add_joint n t parent child o a lim m = Val (Ok (m', i)) ->
  link_indices m !! parent = Some p -> link_indices m !! child = Some c ->
  wf m' /\ (rooted m' <-> ~ rtc (above m) p c).
Proof.
  intros Hwf Hr H Hp Hc. split; [by eapply add_joint_wf|]. rewrite add_joint_val in H by done.
  unfold link_index in H. rewrite Hp, Hc in H. simpl in H. injection H as <- <-.
  rewrite joined_rooted; simpl; try done; by eapply link_index_bound.
Qed.

Lemma add_link_rooted n m : wf m -> rooted m -> rooted (add_link n m).1.
Proof.
  intros Hwf Hr.
  assert (Hold : forall i, grounded m i -> grounded (add_link n m).1 i).
  { induction 1 as [i H|i p H _ IH].
    - apply grounded_root. simpl. by apply lookup_app_l_Some.
    - apply (grounded_step _ i p); [|done]. unfold above. simpl. by apply lookup_app_l_Some. }
  intros i Hi. simpl in Hi. unfold push in Hi. rewrite length_app in Hi. simpl in Hi.
  destruct (decide (i = length (links m))) as [->|Hne]; [|apply Hold, Hr; lia].
  apply grounded_root. simpl. apply lookup_push. right. by rewrite (wf_pl m Hwf).
Qed.

Lemma new_model_rooted n : rooted (new_model n).
Proof. intros i Hi. simpl in Hi. lia. Qed.

(** ** The arm of the tests *)

Definition arm_link (k : nat) : string := if (k =? 0)%nat then "base_link" else "link_" +:+ show_uint (Z.of_nat k).

Lemma arm_link_inj k l : arm_link k = arm_link l -> k = l.
Proof.
  unfold arm_link. destruct (Nat.eqb_spec k 0) as [->|Hk], (Nat.eqb_spec l 0) as [->|Hl]; try done.
  intros H. apply (inj (String.append "link_")) in H. unfold show_uint in H. apply (inj pretty) in H. lia.
Qed.

(** The arm after [n] steps: links in a row, each hung on the one before by the
    joint of its number. *)
Record arm (n : nat) (m : RobotModel) : Prop := {
  arm_wf : wf m;
  arm_links : length (links m) = S n;
  arm_joints : length (joints m) = n;
  arm_names k : (k <= n)%nat -> link_indices m !! arm_link k = Some k;
  arm_only s k : link_indices m !! s = Some k -> s = arm_link k;
  arm_base : parent_link m !! 0%nat = Some (-1);
  arm_above k : (k < n)%nat -> above m (S k) k /\ parent_joint m !! S k = Some (Some k) }.

Lemma arm_start n : arm 0 (add_link "base_link" (new_model n)).1.
Proof.
  assert (Hwf := new_model_wf n). split.
  - apply add_link_wf; [done|]. simpl. lia.
  - done.
  - done.
  - intros k Hk. assert (k = 0)%nat as -> by lia. done.
  - intros s k. simpl. rewrite lookup_insert_Some, lookup_empty. intros [[<- <-]|[_ H]]; done.
  - done.
  - intros k Hk. lia.
Qed.

Lemma arm_joined n m info :
  arm n m -> Z.of_nat (S n) < 2 ^ 31 -> parent_link_idx info = n -> child_link_idx info = S n ->
  arm (S n) (joined (add_link (arm_link (S n)) m).1 info).
Proof.
  intros [Hwf Hl Hj Hn Ho Hb Ha] Hlt Hp Hc. pose proof (wf_pl m Hwf) as Hpl. pose proof (wf_pj m Hwf) as Hpj.
  split; simpl.
  - apply joined_wf; simpl; unfold push; rewrite ?length_app, ?Hp, ?Hc; simpl; try lia.
    apply add_link_wf; [done|]. by rewrite Hl.
  - unfold push. rewrite length_app. simpl. lia.
  - unfold push. rewrite length_app. simpl. lia.
  - intros k Hk. apply lookup_insert_Some. rewrite Hl. destruct (decide (k = S n)) as [->|Hne]; [by left|right].
    split; [intros E; apply arm_link_inj in E; lia|]. apply Hn. lia.
  - intros s k. rewrite lookup_insert_Some, Hl. intros [[<- <-]|[_ H]]; [done|by apply Ho].
  - rewrite Hc, list_lookup_insert_ne by done. by apply lookup_app_l_Some.
  - intros k Hk. unfold above. simpl. rewrite Hc, Hp. destruct (decide (k = n)) as [->|Hne].
    + rewrite !list_lookup_insert_eq by (unfold push; rewrite length_app; simpl; lia). by rewrite Hj.
    + rewrite !list_lookup_insert_ne by lia. destruct (Ha k ltac:(lia)) as [H1 H2].
      split; by apply lookup_app_l_Some.
Qed.

Lemma arm_grows n m : arm n m -> Z.of_nat (S n) < 2 ^ 31 -> exists m', arm_step m n = Val m' /\ arm (S n) m'.
Proof.
  intros Ha Hlt. set (m1 := (add_link (arm_link (S n)) m).1).
  assert (Hwf1 : wf m1) by (apply add_link_wf; [apply Ha|rewrite (arm_links _ _ Ha); done]).
  assert (Hli : forall k, (k <= S n)%nat -> link_indices m1 !! arm_link k = Some k).
  { intros k Hk. unfold m1. simpl. rewrite lookup_insert_Some, (arm_links _ _ Ha).
    destruct (decide (k = S n)) as [->|Hne]; [by left|right].
    split; [intros E; apply arm_link_inj in E; lia|]. apply (arm_names _ _ Ha). lia. }
  unfold arm_step.
  assert (("link_" +:+ show_uint (Z.of_nat (n + 1))) = arm_link (S n)) as ->
    by (unfold arm_link; simpl; by rewrite Nat.add_1_r).
  fold m1. fold (arm_link n). rewrite add_joint_val by done. unfold link_index.
  rewrite (Hli n), (Hli (S n)) by lia. cbn [mbind partial_bind result_bind ok_or].
  eexists. split; [reflexivity|]. by apply arm_joined.
Qed.

Lemma arm_grounded n m i : arm n m -> (i <= n)%nat -> grounded m i.
Proof.
  intros Ha. induction i as [|i IH]; intros Hi.
  - apply grounded_root, (arm_base _ _ Ha).
  - apply (grounded_step _ _ i); [apply (arm_above _ _ Ha); lia | apply IH; lia].
Qed.

Lemma arm_linkage n m i chain : arm n m -> (i <= n)%nat -> linkage m i chain -> chain = seq 0 i.
Proof.
  intros Ha. revert chain. induction i as [|i IH]; intros chain Hi Hl;
    inversion Hl as [? Hr|? c jx j Ej E Ec Hp Hl']; subst.
  - done.
  - pose proof (arm_base _ _ Ha) as Hb. unfold above in Hp. rewrite Hb in Hp. injection Hp. lia.
  - destruct (arm_above _ _ Ha i ltac:(lia)) as [H _]. unfold above in H. rewrite Hr in H. injection H. lia.
  - destruct (arm_above _ _ Ha i ltac:(lia)) as [H1 H2].
    assert (parent_link_idx j = i) as Hpi by (by eapply above_unique). rewrite Hpi in *.
    rewrite Ej in H2. injection H2 as ->. rewrite (IH c) by (lia || done).
    unfold push. by rewrite seq_S.
Qed.

(** The arm of the tests is built without a panic, and the chain of its [k]-th
    link is the first [k] joints. *)
Theorem simple_arm_chains n num :
  Z.of_nat (S num) < 2 ^ 31 ->
  exists m, simple_arm n num = Val m /\ wf m /\ rooted m /\
    forall k, (k <= num)%nat -> link_indices m !! arm_link k = Some k /\ compute_chain m k = Val (seq 0 k).
Proof.
  intros Hlt.
  assert (exists m, simple_arm n num = Val m /\ arm num m) as (m & E & Ha).
  { unfold simple_arm. assert (Hgen : forall k j m, arm j m -> Z.of_nat (S (j + k)) < 2 ^ 31 ->
      exists m', arm_steps m (seq j k) = Val m' /\ arm (j + k) m').
    { induction k as [|k IH]; intros j m Hm Hj; simpl.
      - exists m. split; [done|]. by rewrite Nat.add_0_r.
      - destruct (arm_grows j m Hm ltac:(lia)) as (m' & -> & Hm'). simpl. rewrite <- Nat.add_succ_comm.
        apply IH; [done|]. by rewrite Nat.add_succ_comm. }
    apply (Hgen num 0%nat); [apply arm_start|lia]. }
  exists m. split; [done|]. split; [apply Ha|]. split.
  - intros i Hi. rewrite (arm_links _ _ Ha) in Hi. eapply arm_grounded; [done|lia].
  - intros k Hk. split; [by apply (arm_names _ _ Ha)|].
    destruct (grounded_chain m (arm_wf _ _ Ha) k (arm_grounded _ _ _ Ha Hk)) as (chain & Hc & Hf).
    unfold compute_chain. rewrite Hf by lia. rewrite app_nil_r. f_equal. by eapply arm_linkage.
Qed.

(** ** Poses *)

Section PoseTheorems.
Context `{Libm}.

Lemma chain_transform_app m positions c1 c2 t :
  chain_transform m positions t (c1 ++ c2) =
  (t' ← chain_transform m positions t c1; chain_transform m positions t' c2).
Proof. revert t. induction c1 as [|i c1 IH]; intros t; simpl; [done|]. destruct (index (joints m) i); simpl; auto. Qed.

(** A chain within the joints of the model has a transform. *)
Lemma chain_transform_val m positions chain t :
  Forall (fun jx => (jx < length (joints m))%nat) chain ->
  chain_transform m positions t chain =
  Val (foldl (fun t j => compose t (compute_joint_transform j positions)) t (omap (fun jx => joints m !! jx) chain)).
Proof.
  intros Hc. revert t. induction Hc as [|jx chain Hjx _ IH]; intros t; csimpl; [done|].
  apply lookup_lt_is_Some in Hjx as [j Hj]. unfold index. rewrite Hj. cbn [mbind partial_bind]. by rewrite IH.
Qed.

Lemma index_all_val {A} (l : list A) ixs :
  Forall (fun i => (i < length l)%nat) ixs -> index_all l ixs = Val (omap (fun i => l !! i) ixs).
Proof.
  induction 1 as [|i ixs Hi _ IH]; csimpl; [done|]. apply lookup_lt_is_Some in Hi as [x Hx]. unfold index.
  rewrite Hx. cbn [mbind partial_bind]. by rewrite IH.
Qed.

(** The pose of a link, as a function of where it hangs. *)
Definition pose_of (m : RobotModel) (positions : gmap string spec_float) (i : nat) : partial Transform3D :=
  chain ← compute_chain m i; compute_chain_transform m chain positions.

Lemma compute_link_pose_eq m link positions i :
  link_indices m !! link = Some i ->
  compute_link_pose m link positions = (t ← pose_of m positions i; Val (Ok t)).
Proof.
  intros Hi. unfold compute_link_pose, pose_of, link_index. rewrite Hi. simpl.
  by destruct (compute_chain m i).
Qed.

Lemma compute_chain_val m i chain :
  wf m -> (i < length (links m))%nat -> grounded m i -> linkage m i chain -> compute_chain m i = Val chain.
Proof.
  intros Hwf Hi Hg Hl. destruct (grounded_chain m Hwf i Hg) as (c & Hc & Hf). unfold compute_chain.
  rewrite Hf by lia. rewrite app_nil_r. f_equal. clear Hf Hg Hi. revert chain Hl.
  induction Hc as [i Hr|i c jx j Ej E Ec Hp Hc IH]; intros chain Hl;
    inversion Hl as [? Hr'|? c' jx' j' Ej' E' Ec' Hp' Hc']; subst; unfold above in *.
  - done.
  - rewrite Hr in Hp'. injection Hp'. lia.
  - rewrite Hr' in Hp. injection Hp. lia.
  - rewrite Ej in Ej'. injection Ej' as <-. rewrite E in E'. injection E' as <-. f_equal. by apply IH.
Qed.

(** Forward kinematics: a root is at the origin, and any other link is where its
    parent is, moved by the joint that attaches it. *)
Theorem pose_recursion m positions i :
  wf m -> (i < length (links m))%nat -> grounded m i ->
  (parent_link m !! i = Some (-1) /\ pose_of m positions i = Val transform_identity) \/
  (exists jx j t, parent_joint m !! i = Some (Some jx) /\ joints m !! jx = Some j /\ child_link_idx j = i /\
     pose_of m positions (parent_link_idx j) = Val t /\
     pose_of m positions i = Val (compose t (compute_joint_transform j positions))).
Proof.
  intros Hwf Hi Hg. destruct (grounded_chain m Hwf i Hg) as (chain & Hc & _).
  unfold pose_of. rewrite (compute_chain_val m i chain Hwf Hi Hg Hc).
  inversion Hc as [? Hr|? c jx j Ej E Ec Hp Hl]; subst; [by left|right].
  assert (Hgp : grounded m (parent_link_idx j)).
  { inversion Hg as [? Hr|? q Hq Hgq]; subst; unfold above in Hp; [rewrite Hr in Hp; injection Hp; lia|].
    by rewrite (above_unique m _ _ _ Hp Hq). }
  apply (above_bound m Hwf) in Hp as [_ Hpb].
  exists jx, j. rewrite (compute_chain_val m _ c Hwf Hpb Hgp Hl). cbn [mbind partial_bind].
  unfold compute_chain_transform, push. rewrite chain_transform_app.
  rewrite (chain_transform_val m positions c) by (by eapply linkage_bound).
  eexists. repeat split; try done. cbn [mbind partial_bind chain_transform]. unfold index. by rewrite E.
Qed.

(** A camera just registered is where its link is, moved by the transform to
    its optical frame; the pose in the world is that on top of the base. *)
Theorem registered_camera_pose m id link o positions base timestamp i t :
  wf m -> link_indices m !! link = Some i -> grounded m i -> compute_link_pose m link positions = Val (Ok t) ->
  exists m' pose, register_camera id link o m = Val (Ok m') /\
    compute_camera_pose m' id positions base timestamp = Val (Ok pose) /\
    pose_base_optical pose = compose t o /\
    pose_world_optical pose = match base with Some b => compose b (compose t o) | None => compose t o end.
Proof.
  intros Hwf Hl Hg Ht. pose proof (link_index_bound m link i Hwf Hl) as Hi.
  destruct (grounded_chain m Hwf i Hg) as (chain & Hc & _).
  pose proof (compute_chain_val m i chain Hwf Hi Hg Hc) as Ec. pose proof (linkage_bound m i chain Hc) as Hb.
  rewrite (compute_link_pose_eq m link positions i Hl) in Ht. unfold pose_of in Ht. rewrite Ec in Ht.
  cbn [mbind partial_bind] in Ht.
  destruct (compute_chain_transform m chain positions) as [t'| |] eqn:Et; try done. injection Ht as ->.
  unfold register_camera, link_index. rewrite Hl. cbn [ok_or]. rewrite Ec. cbn [mbind partial_bind].
  eexists _, _. split; [reflexivity|]. unfold compute_chain_transform in *.
  rewrite chain_transform_val in Et by done. injection Et as Et. split.
  - unfold compute_camera_pose. simpl. rewrite lookup_insert_eq. unfold compute_chain_transform. simpl.
    rewrite chain_transform_val by done. simpl. rewrite index_all_val, Et by done. reflexivity.
  - by split.
Qed.

(** In a well-formed model a pose of a camera is an answer, and an error says
    that nobody registered it. *)
Theorem camera_pose_total m id positions base timestamp :
  wf m ->
  (exists pose, compute_camera_pose m id positions base timestamp = Val (Ok pose) /\ p_camera_id pose = id /\
     length (joint_positions pose) = length (pose_joint_names pose)) \/
  (compute_camera_pose m id positions base timestamp = Val (Err (CameraNotRegistered id)) /\
   camera_links m !! id = None).
Proof.
  intros Hwf. unfold compute_camera_pose. destruct (camera_links m !! id) as [info|] eqn:E; [left|by right].
  pose proof (wf_cameras m Hwf id info E) as Hb. unfold compute_chain_transform.
  rewrite chain_transform_val by done. cbn [mbind partial_bind]. rewrite index_all_val by done. cbn [mbind partial_bind].
  eexists. split; [reflexivity|]. simpl. by rewrite length_map.
Qed.

(** A joint nobody reports stands at zero: the pose is the one for a zero, and
    no error. *)
Theorem missing_joint_at_zero m id positions base timestamp joint :
  positions !! joint = None ->
  compute_camera_pose m id positions base timestamp =
  compute_camera_pose m id (<[joint := zero]> positions) base timestamp.
Proof.
  intros Hn.
  assert (Hpos : forall n, position_of (<[joint := zero]> positions) n = position_of positions n).
  { intros n. unfold position_of. destruct (decide (n = joint)) as [->|Hne].
    - by rewrite lookup_insert_eq, Hn.
    - by rewrite lookup_insert_ne. }
  assert (Hj : forall j, compute_joint_transform j (<[joint := zero]> positions) = compute_joint_transform j positions).
  { intros j. unfold compute_joint_transform. by rewrite !Hpos. }
  assert (Hc : forall chain t, chain_transform m (<[joint := zero]> positions) t chain = chain_transform m positions t chain).
  { induction chain as [|i chain IH]; intros t; simpl; [done|]. destruct (index (joints m) i); simpl; [|done..].
    by rewrite IH, Hj. }
  unfold compute_camera_pose, compute_chain_transform. destruct (camera_links m !! id) as [info|]; [|done].
  rewrite Hc. destruct (chain_transform m positions _ _); simpl; [|done..].
  destruct (index_all (joints m) (chain_joints info)); simpl; [|done..].
  by rewrite (map_ext (position_of (<[joint := zero]> positions)) (position_of positions) Hpos).
Qed.
End PoseTheorems.

(** ** Cameras from a configuration *)

Section FromConfig.
Context {Json : Set}.
Implicit Types (c : CameraDeviceConfig Json) (cs : list (CameraDeviceConfig Json)).

(** The cameras that are mounted on a link. *)
Definition mounted cs : list string := omap (fun c => _ ← urdf_link c; Some (camera_id c)) cs.
Definition link_exists (m : RobotModel) c : Prop :=
  match urdf_link c with Some link => is_Some (link_indices m !! link) | None => True end.

Lemma register_camera_val id link o m :
  wf m -> rooted m ->
  (link_indices m !! link = None /\ register_camera id link o m = Val (Err (LinkNotFound link))) \/
  (exists info, is_Some (link_indices m !! link) /\ register_camera id link o m = Val (Ok (insert_camera id info m)) /\
     wf (insert_camera id info m)).
Proof.
  intros Hwf Hr. destruct (link_indices m !! link) as [i|] eqn:Hl; [right|left].
  - pose proof (link_index_bound m link i Hwf Hl) as Hi.
    destruct (grounded_chain m Hwf i (Hr i Hi)) as (chain & Hc & _).
    pose proof (compute_chain_val m i chain Hwf Hi (Hr i Hi) Hc) as Ec.
    unfold register_camera, link_index. rewrite Hl. cbn [ok_or]. rewrite Ec. cbn [mbind partial_bind].
    eexists. split; [done|]. split; [reflexivity|].
    destruct Hwf as [Hpl Hpj Hs Hlk Hj Hp Hcam]. split; try done.
    intros id' info. simpl. rewrite lookup_insert_Some. intros [[_ <-]|[_ H]]; [|by eapply Hcam].
    by eapply linkage_bound.
  - split; [done|]. unfold register_camera, link_index. by rewrite Hl.
Qed.

Lemma grounded_same m m' i : parent_link m' = parent_link m -> grounded m i -> grounded m' i.
Proof.
  intros He. induction 1 as [i H|i p H _ IH]; [apply grounded_root; congruence|].
  eapply grounded_step; [|exact IH]. unfold above in *. congruence.
Qed.
Lemma insert_camera_rooted id info m : rooted m -> rooted (insert_camera id info m).
Proof. intros Hr i Hi. by apply (grounded_same m), Hr. Qed.

(** Registering from a configuration mounts the cameras in order up to the first
    whose link the model does not have; that one is the error, and the cameras
    before it stay registered. *)
Lemma register_cameras_outcome cs registered m :
  wf m -> rooted m ->
  exists m' r cs1 rest, register_cameras cs registered m = Val (m', r) /\ wf m' /\ rooted m' /\
    link_indices m' = link_indices m /\ cs = cs1 ++ rest /\ Forall (link_exists m) cs1 /\
    dom (camera_links m') = dom (camera_links m) ∪ list_to_set (mounted cs1) /\
    ((rest = [] /\ r = Ok (registered ++ mounted cs1)) \/
     (exists c rest' link, rest = c :: rest' /\ urdf_link c = Some link /\ link_indices m !! link = None /\
        r = Err (LinkNotFound link))).
Proof.
  revert registered m. induction cs as [|c cs IH]; intros registered m Hwf Hr.
  { exists m, (Ok registered), [], []. split_and!; try done; simpl; [set_solver|].
    left. by rewrite app_nil_r. }
  simpl. destruct (urdf_link c) as [link|] eqn:El.
  - destruct (register_camera_val (camera_id c) link (get_link_to_optical c) m Hwf Hr)
      as [[Hn ->]|(info & Hs & -> & Hwf')]; simpl.
    + exists m, (Err (LinkNotFound link)), [], (c :: cs). split_and!; try done; simpl; [set_solver|].
      right. eauto 8.
    + destruct (IH (push registered (camera_id c)) _ Hwf' (insert_camera_rooted _ info m Hr))
        as (m' & r & cs1 & rest & -> & Hw & Hrt & Hli & -> & Hall & Hdom & Hres).
      exists m', r, (c :: cs1), rest. split; [done|]. split; [done|]. split; [done|]. split; [done|]. split; [done|].
      split; [constructor; [unfold link_exists; by rewrite El|done]|]. unfold mounted. csimpl. rewrite El. cbn [mbind option_bind].
      fold (mounted cs1). split.
      * rewrite Hdom. simpl. rewrite dom_insert_L. set_solver.
      * destruct Hres as [[-> ->]|Hres]; [left|by right]. split; [done|]. unfold push. by rewrite <- app_assoc.
  - destruct (IH registered m Hwf Hr) as (m' & r & cs1 & rest & -> & Hw & Hrt & Hli & -> & Hall & Hdom & Hres).
    exists m', r, (c :: cs1), rest. split_and!; try done.
    + constructor; [unfold link_exists; by rewrite El|done].
    + unfold mounted in *. csimpl. by rewrite El.
    + destruct Hres as [[-> ->]|Hres]; [left|by right]. split; [done|]. unfold mounted. csimpl. by rewrite El.
Qed.

Theorem configured_cameras (config : CameraSystemConfig Json) m :
  wf m -> rooted m ->
  exists m' r cs1 rest, register_cameras_from_config config m = Val (m', r) /\ wf m' /\
    cameras config = cs1 ++ rest /\ Forall (link_exists m) cs1 /\
    dom (camera_links m') = dom (camera_links m) ∪ list_to_set (mounted cs1) /\
    ((rest = [] /\ r = Ok (mounted (cameras config))) \/
     (exists c rest' link, rest = c :: rest' /\ urdf_link c = Some link /\ link_indices m !! link = None /\
        r = Err (LinkNotFound link))).
Proof.
  intros Hwf Hr.
  destruct (register_cameras_outcome (cameras config) [] m Hwf Hr)
    as (m' & r & cs1 & rest & E & Hw & _ & _ & Hcs & Hall & Hdom & Hres).
  exists m', r, cs1, rest. split_and!; try done. destruct Hres as [[-> ->]|Hres]; [left|by right].
  split; [done|]. by rewrite Hcs, app_nil_r.
Qed.
End FromConfig.

(** ** Examples *)

Definition two_links : RobotModel := (add_link "b" (add_link "a" (new_model "loop")).1).1.
Definition hang (parent child : string) (m : RobotModel) : RobotModel :=
  match add_joint "j" Fixed parent child transform_identity {| v0 := zero; v1 := zero; v2 := one |} None m with
  | Val (Ok (m, _)) => m
  | _ => m
  end.

(** Two joints that hang two links on each other are both accepted; from then on
    asking for the chain of either link never ends. *)
Theorem circle_never_ends fuel :
  (exists r, add_joint "back" Fixed "b" "a" transform_identity {| v0 := zero; v1 := zero; v2 := one |} None
     (hang "a" "b" two_links) = Val (Ok r)) /\
  climb fuel (hang "b" "a" (hang "a" "b" two_links)) 0 [] = OutOfFuel /\
  climb fuel (hang "b" "a" (hang "a" "b" two_links)) 1 [] = OutOfFuel.
Proof.
  split; [eexists; reflexivity|].
  assert (Hc : forall fuel acc i, (i < 2)%nat -> climb fuel (hang "b" "a" (hang "a" "b" two_links)) i acc = OutOfFuel).
  { clear fuel. induction fuel as [|f IH]; intros acc i Hi; [done|]. destruct i as [|[|i]]; [| |lia].
    - rewrite (climb_step _ f 0 1 acc 1) by reflexivity. apply IH. lia.
    - rewrite (climb_step _ f 1 0 acc 0) by reflexivity. apply IH. lia. }
  split; apply Hc; lia.
Qed.

Lemma chain_of_link_witness :
  wf two_links /\ (exists chain, linkage two_links 1 chain /\ climb 2 two_links 1 [] = Val chain).
Proof.
  assert (Hwf : wf two_links) by (apply add_link_wf; [apply add_link_wf; [apply new_model_wf|]|]; simpl; lia).
  split; [exact Hwf|].
  destruct (chain_of_link two_links 1 Hwf ltac:(simpl; lia)) as [Hg _].
  destruct Hg as (chain & Hl & Hf); [by apply grounded_root|]. exists chain. split; [exact Hl|]. by apply Hf.
Defined.

Lemma two_links_rooted : wf two_links /\ rooted two_links.
Proof.
  split.
  - apply add_link_wf; [apply add_link_wf; [apply new_model_wf|]|]; simpl; lia.
  - apply add_link_rooted; [apply add_link_wf; [apply new_model_wf|simpl; lia]|].
    apply add_link_rooted; [apply new_model_wf|apply new_model_rooted].
Qed.

Lemma joint_keeps_roots_witness :
  wf (hang "a" "b" two_links) /\ (rooted (hang "a" "b" two_links) <-> ~ rtc (above two_links) 0%nat 1%nat).
Proof.
  destruct two_links_rooted as [Hwf Hr].
  apply (joint_keeps_roots "j" Fixed "a" "b" transform_identity {| v0 := zero; v1 := zero; v2 := one |} None two_links
           (hang "a" "b" two_links) 0 0 1 Hwf Hr); reflexivity.
Defined.

Lemma simple_arm_chains_witness :
  exists m, simple_arm "arm" 3 = Val m /\ compute_chain m 3 = Val [0%nat; 1%nat; 2%nat].
Proof.
  destruct (simple_arm_chains "arm" 3) as (m & E & _ & _ & H); [lia|]. exists m. split; [exact E|].
  apply (H 3%nat). lia.
Defined.

Lemma pose_recursion_witness :
  pose_of two_links ∅ 1 = Val transform_identity.
Proof.
  destruct two_links_rooted as [Hwf Hr].
  destruct (pose_recursion two_links ∅ 1 Hwf ltac:(simpl; lia) (Hr 1%nat ltac:(simpl; lia))) as [[_ H]|(jx & j & t & H & _)].
  - exact H.
  - by vm_compute in H.
Defined.

Lemma registered_camera_pose_witness :
  exists m' pose, register_camera "cam" "b" (from_translation one two zero) two_links = Val (Ok m') /\
    compute_camera_pose m' "cam" ∅ None 5 = Val (Ok pose) /\
    pose_base_optical pose = compose transform_identity (from_translation one two zero).
Proof.
  destruct two_links_rooted as [Hwf Hr].
  destruct (registered_camera_pose two_links "cam" "b" (from_translation one two zero) ∅ None 5 1 transform_identity
              Hwf eq_refl (Hr 1%nat ltac:(simpl; lia)) eq_refl) as (m' & pose & H1 & H2 & H3 & _).
  by exists m', pose.
Defined.

Lemma camera_pose_total_witness :
  compute_camera_pose two_links "cam" ∅ None 5 = Val (Err (CameraNotRegistered "cam")).
Proof.
  destruct two_links_rooted as [Hwf _].
  destruct (camera_pose_total two_links "cam" ∅ None 5 Hwf) as [(pose & H & _)|[H _]]; [by vm_compute in H|exact H].
Defined.

Lemma missing_joint_at_zero_witness :
  compute_camera_pose two_links "cam" ∅ None 5 = compute_camera_pose two_links "cam" {["j" := zero]} None 5.
Proof. apply (missing_joint_at_zero two_links "cam" ∅ None 5 "j"). reflexivity. Defined.

Lemma configured_cameras_witness :
  let c : CameraDeviceConfig unit := with_urdf_link "gone" (new_camera "cam" Head (SerialNumber "1") Rgb) in
  exists m', register_cameras_from_config (add_camera c new_system) two_links = Val (m', Err (LinkNotFound "gone")) /\
    dom (camera_links m') = ∅.
Proof.
  intros c. destruct two_links_rooted as [Hwf Hr].
  destruct (configured_cameras (add_camera c new_system) two_links Hwf Hr)
    as (m' & r & cs1 & rest & E & _ & _ & _ & Hd & _).
  exists m'. vm_compute in E. injection E as <- <-. split; [reflexivity|done].
Defined.

(** The chain of a camera is the one its link had when it was registered: a link
    that is hung elsewhere afterwards takes its pose along, the camera does not. *)
Example chains_are_stale :
  let m := match register_camera "cam" "b" transform_identity two_links with Val (Ok m) => m | _ => two_links end in
  let m' := hang "a" "b" m in
  compute_chain m' 1 = Val [0%nat] /\ (chain_joints <$> camera_links m' !! "cam") = Some [].
Proof. by vm_compute. Qed.
