(* ===== verification/Enrichment.v ===== *)
(** * Frame enrichment (data_collection/enrichment.rs)

    The buffer of joint states, the state at the time of a frame, and the frame
    with the pose of its camera and its quality. *)

From Stdlib Require Import Sorting.Sorted.
From S2P Require Import Prelude F32 Transform Samples Search Cameras Kinematics.

Open Scope string_scope.
Open Scope list_scope.
Open Scope Z_scope.

#[local] Infix "+" := f64_add : f64_scope.
#[local] Infix "-" := f64_sub : f64_scope.
#[local] Infix "*" := f64_mul : f64_scope.
#[local] Infix "/" := f64_div : f64_scope.

(** ** The data *)

Record CameraFrame : Set := {
  cf_camera_id : string; cf_timestamp : Z; sequence : Z; cf_width : Z; cf_height : Z; encoding : string;
  data : list Z }.

Definition new_frame (id : string) (ts w h : Z) (enc : string) (bytes : list Z) : CameraFrame := {|
  cf_camera_id := id; cf_timestamp := ts; sequence := 0; cf_width := w; cf_height := h; encoding := enc;
  data := bytes |}.
Definition with_sequence (seq : Z) (f : CameraFrame) : CameraFrame := {|
  cf_camera_id := cf_camera_id f; cf_timestamp := cf_timestamp f; sequence := seq; cf_width := cf_width f;
  cf_height := cf_height f; encoding := encoding f; data := data f |}.

Definition encoding_bytes (enc : string) : Z :=
  if bool_decide (enc ∈ ["rgb8"; "bgr8"]) then 3
  else if bool_decide (enc ∈ ["rgba8"; "bgra8"]) then 4
  else if bool_decide (enc = "mono8") then 1
  else if bool_decide (enc ∈ ["mono16"; "depth16"]) then 2
  else if bool_decide (enc = "depth32f") then 4
  else 3.
Definition expected_size (f : CameraFrame) : Z :=
  wrap_mul (wrap_mul (cf_width f) (cf_height f)) (encoding_bytes (encoding f)).
Definition validate_size (f : CameraFrame) : bool := expected_size f <=? Z.of_nat (length (data f)).

Record TimestampedJointState : Set := {
  js_timestamp : Z; js_positions : gmap string spec_float; js_velocities : option (gmap string spec_float) }.

Record QualityConfig : Set := {
  max_interpolation_gap_ms : spec_float; min_sharpness : spec_float; detect_blur : bool;
  max_joint_velocity : spec_float }.
(** The literals 0.3 and 0.8 of [f32]. *)
Definition f32_tenths (n : Z) : spec_float := f32_div (f32_of n) (f32_of 10).
Definition QualityConfig_default : QualityConfig := {|
  max_interpolation_gap_ms := f64_of 50; min_sharpness := f32_tenths 3; detect_blur := true;
  max_joint_velocity := f64_of 2 |}.

Record EnricherStats : Set := {
  frames_processed : Z; frames_enriched : Z; frames_missing_joint_state : Z; frames_rejected_quality : Z;
  avg_interpolation_gap_ms : spec_float; buffer_utilization : spec_float }.
Definition EnricherStats_default : EnricherStats := {|
  frames_processed := 0; frames_enriched := 0; frames_missing_joint_state := 0; frames_rejected_quality := 0;
  avg_interpolation_gap_ms := f64_of 0; buffer_utilization := f32_of 0 |}.

Record FrameEnricher : Set := {
  robot_model : RobotModel; joint_state_buffer : list TimestampedJointState; max_buffer_size : Z;
  max_duration_ns : Z; base_pose_world : option Transform3D; quality_config : QualityConfig;
  stats : EnricherStats }.

Record EnrichedFrame : Set := { ef_frame : CameraFrame; camera_pose : CameraPoseStamped; ef_quality : QualityMetrics }.
Definition is_usable (f : EnrichedFrame) : bool := usable (ef_quality f).

Inductive EnrichmentError : Set :=
| NoJointState
| InterpolationGapTooLarge (gap_ms max_ms : spec_float)
| CameraNotConfigured (id : string)
| UrdfErr (e : UrdfError).

(** ** Building and setting *)

Definition new_enricher (m : RobotModel) (buffer_duration_ms : Z) : FrameEnricher := {|
  robot_model := m; joint_state_buffer := []; max_buffer_size := Z.max (buffer_duration_ms / 10) 100;
  max_duration_ns := buffer_duration_ms * 1000000; base_pose_world := None; quality_config := QualityConfig_default;
  stats := EnricherStats_default |}.

Definition set_buffer (b : list TimestampedJointState) (e : FrameEnricher) : FrameEnricher := {|
  robot_model := robot_model e; joint_state_buffer := b; max_buffer_size := max_buffer_size e;
  max_duration_ns := max_duration_ns e; base_pose_world := base_pose_world e; quality_config := quality_config e;
  stats := stats e |}.
Definition set_stats (s : EnricherStats) (e : FrameEnricher) : FrameEnricher := {|
  robot_model := robot_model e; joint_state_buffer := joint_state_buffer e; max_buffer_size := max_buffer_size e;
  max_duration_ns := max_duration_ns e; base_pose_world := base_pose_world e; quality_config := quality_config e;
  stats := s |}.
Definition with_quality_config (c : QualityConfig) (e : FrameEnricher) : FrameEnricher := {|
  robot_model := robot_model e; joint_state_buffer := joint_state_buffer e; max_buffer_size := max_buffer_size e;
  max_duration_ns := max_duration_ns e; base_pose_world := base_pose_world e; quality_config := c;
  stats := stats e |}.
Definition put_base_pose (b : option Transform3D) (e : FrameEnricher) : FrameEnricher := {|
  robot_model := robot_model e; joint_state_buffer := joint_state_buffer e; max_buffer_size := max_buffer_size e;
  max_duration_ns := max_duration_ns e; base_pose_world := b; quality_config := quality_config e;
  stats := stats e |}.
Definition set_base_pose (pose : Transform3D) : FrameEnricher -> FrameEnricher := put_base_pose (Some pose).
Definition clear_base_pose : FrameEnricher -> FrameEnricher := put_base_pose None.
Definition reset_stats : FrameEnricher -> FrameEnricher := set_stats EnricherStats_default.
Definition clear_buffer : FrameEnricher -> FrameEnricher := set_buffer [].
Definition buffer_size (e : FrameEnricher) : nat := length (joint_state_buffer e).
Definition buffer_time_range (e : FrameEnricher) : option (Z * Z) :=
  match head (joint_state_buffer e), last (joint_state_buffer e) with
  | Some a, Some b => Some (js_timestamp a, js_timestamp b)
  | _, _ => None
  end.

(** ** Joint states *)

(** [while len > max { remove(0) }]. *)
Fixpoint trim_front (max : Z) (l : list TimestampedJointState) : list TimestampedJointState :=
  match l with
  | [] => []
  | x :: l' => if Z.of_nat (length l) >? max then trim_front max l' else l
  end.
Definition trim_old_entries (max_duration now : Z) (l : list TimestampedJointState) : list TimestampedJointState :=
  filter (fun s => sat_sub now max_duration <= js_timestamp s) l.

Definition either (r : result nat nat) : nat := match r with Ok i | Err i => i end.
Definition add_joint_state_map (ts : Z) (positions : gmap string spec_float)
    (velocities : option (gmap string spec_float)) (e : FrameEnricher) : FrameEnricher :=
  let state := {| js_timestamp := ts; js_positions := positions; js_velocities := velocities |} in
  let insert_idx := either (binary_search (map js_timestamp (joint_state_buffer e)) ts) in
  let buffer := trim_front (max_buffer_size e) (vec_insert (joint_state_buffer e) insert_idx state) in
  set_buffer (trim_old_entries (max_duration_ns e) ts buffer) e.

(** [zip] and [collect]. *)
Definition add_joint_state (ts : Z) (js : JointState) (e : FrameEnricher) : FrameEnricher :=
  let collected := fun vels => foldl (fun m kv => <[kv.1 := kv.2]> m) (∅ : gmap string spec_float) (zip (names js) vels) in
  add_joint_state_map ts (as_map js) (collected <$> velocities js) e.

(** ** The state at a time *)

(** Joints the later state does not report keep their position. *)
Definition blend (t : spec_float) (before after : gmap string spec_float) : gmap string spec_float :=
  map_imap (fun n b => Some (match after !! n with Some a => (b + t * (a - b))%f64 | None => b end)) before.

(** [None] of the lookups is out of the bounds of the buffer: a panic. *)
Definition interpolate_joint_state (e : FrameEnricher) (ts : Z)
    : partial (result EnrichmentError (gmap string spec_float * Z)) :=
  let buffer := joint_state_buffer e in
  if bool_decide (buffer = []) then Val (Err NoJointState)
  else
    match binary_search (map js_timestamp buffer) ts with
    | Ok i => s ← index buffer i; Val (Ok (js_positions s, 0))
    | Err O => first ← index buffer 0; Val (Ok (js_positions first, sat_sub (js_timestamp first) ts))
    | Err i =>
        if (length buffer <=? i)%nat then
          last ← index buffer (length buffer - 1);
          Val (Ok (js_positions last, sat_sub ts (js_timestamp last)))
        else
          before ← index buffer (i - 1);
          after ← index buffer i;
          let gap := Z.min (sat_sub ts (js_timestamp before)) (sat_sub (js_timestamp after) ts) in
          let dt := f64_of (js_timestamp after - js_timestamp before) in
          let t := (f64_of (ts - js_timestamp before) / dt)%f64 in
          Val (Ok (blend t (js_positions before) (js_positions after), gap))
    end.

(** ** Quality *)

(** [f64::max]. *)
Definition f64_max (a b : spec_float) : spec_float :=
  match a with S754_nan => b | _ => if SFltb a b then b else a end.

Definition detect_motion_blur (e : FrameEnricher) (ts : Z) : option bool :=
  let buffer := joint_state_buffer e in
  let idx := match binary_search (map js_timestamp buffer) ts with
             | Ok i => i
             | Err i => Nat.min i (length buffer - 1)
             end in
  match buffer !! idx with
  | None => None
  | Some state =>
      vel ← js_velocities state;
      let max_velocity := map_fold (fun _ v acc => f64_max acc (SFabs v)) (f64_of 0) vel in
      Some (SFltb (max_joint_velocity (quality_config e)) max_velocity)
  end.

Definition assess_quality (e : FrameEnricher) (f : CameraFrame) : QualityMetrics :=
  let blur := if detect_blur (quality_config e) then default false (detect_motion_blur e (cf_timestamp f)) else false in
  let score := if blur then f32_mul (f32_of 1) (f32_tenths 5) else f32_of 1 in
  let valid := validate_size f in {|
  overall_score := if valid then score else f32_of 0;
  sharpness := Some (if blur then f32_tenths 3 else f32_tenths 8);
  exposure := None;
  motion_blur := blur;
  usable := valid;
  rejection_reason := if valid then None else Some "Invalid frame data size" |}.

(** ** The frame *)

Section Enrich.
Context `{Libm}.

Definition count_processed (s : EnricherStats) : EnricherStats := {|
  frames_processed := wrap_add u64_max (frames_processed s) 1; frames_enriched := frames_enriched s;
  frames_missing_joint_state := frames_missing_joint_state s; frames_rejected_quality := frames_rejected_quality s;
  avg_interpolation_gap_ms := avg_interpolation_gap_ms s; buffer_utilization := buffer_utilization s |}.
(** The literals 0.9 and 0.1. *)
Definition average_gap (gap_ms : spec_float) (s : EnricherStats) : EnricherStats := {|
  frames_processed := frames_processed s; frames_enriched := frames_enriched s;
  frames_missing_joint_state := frames_missing_joint_state s; frames_rejected_quality := frames_rejected_quality s;
  avg_interpolation_gap_ms :=
    (f64_of 9 / f64_of 10 * avg_interpolation_gap_ms s + f64_of 1 / f64_of 10 * gap_ms)%f64;
  buffer_utilization := buffer_utilization s |}.
Definition count_enriched (is_ok : bool) (utilization : spec_float) (s : EnricherStats) : EnricherStats := {|
  frames_processed := frames_processed s; frames_enriched := wrap_add u64_max (frames_enriched s) 1;
  frames_missing_joint_state := frames_missing_joint_state s;
  frames_rejected_quality :=
    if is_ok then frames_rejected_quality s else wrap_add u64_max (frames_rejected_quality s) 1;
  avg_interpolation_gap_ms := avg_interpolation_gap_ms s; buffer_utilization := utilization |}.

Definition enrich_frame (f : CameraFrame) (e : FrameEnricher)
    : partial (FrameEnricher * result EnrichmentError EnrichedFrame) :=
  let e := set_stats (count_processed (stats e)) e in
  r ← interpolate_joint_state e (cf_timestamp f);
  match r with
  | Err err => Val (e, Err err)
  | Ok (positions, gap_ns) =>
      let gap_ms := (f64_of gap_ns / f64_of 1000000)%f64 in
      if SFltb (max_interpolation_gap_ms (quality_config e)) gap_ms then
        Val (e, Err (InterpolationGapTooLarge gap_ms (max_interpolation_gap_ms (quality_config e))))
      else
        let e := set_stats (average_gap gap_ms (stats e)) e in
        p ← compute_camera_pose (robot_model e) (cf_camera_id f) positions (base_pose_world e) (cf_timestamp f);
        match p with
        | Err err => Val (e, Err (UrdfErr err))
        | Ok pose =>
            let quality := assess_quality e f in
            let utilization := f32_div (f32_of (Z.of_nat (buffer_size e))) (f32_of (max_buffer_size e)) in
            Val (set_stats (count_enriched (usable quality) utilization (stats e)) e,
                 Ok {| ef_frame := f; camera_pose := pose; ef_quality := quality |})
        end
  end.

Definition try_enrich_frame (f : CameraFrame) (e : FrameEnricher) : partial (FrameEnricher * option EnrichedFrame) :=
  r ← enrich_frame f e; Val (r.1, ok r.2).
End Enrich.

(** ** The buffer *)

(** In order of time, and within its size. *)
Record buffer_ok (e : FrameEnricher) : Prop := {
  buffer_sorted : StronglySorted Z.le (map js_timestamp (joint_state_buffer e));
  buffer_bounded : Z.of_nat (length (joint_state_buffer e)) <= max_buffer_size e }.

Lemma new_enricher_ok m ms : buffer_ok (new_enricher m ms).
Proof. split; simpl; [constructor|lia]. Qed.

Lemma trim_front_drop max l : exists k, trim_front max l = drop k l.
Proof.
  induction l as [|x l (k & IH)]; cbn [trim_front]; [by exists 0%nat|].
  case_match; [exists (S k); exact IH|by exists 0%nat].
Qed.
Lemma trim_front_length max l : 0 <= max -> Z.of_nat (length (trim_front max l)) <= max.
Proof.
  intros Hm. induction l as [|x l IH]; cbn [trim_front]; [done|].
  destruct (Z.gtb_spec (Z.of_nat (length (x :: l))) max); [exact IH|lia].
Qed.
(** What was just appended stays. *)
Lemma trim_front_snoc max l x : 0 < max -> exists k, trim_front max (l ++ [x]) = drop k l ++ [x].
Proof.
  intros Hm. induction l as [|y l (k & IH)]; cbn [app trim_front].
  - exists 0%nat. destruct (Z.gtb_spec (Z.of_nat (length [x])) max) as [H|H]; [simpl in H; lia|done].
  - case_match; [by exists (S k)|by exists 0%nat].
Qed.

Lemma drop_sorted k ks : StronglySorted Z.le ks -> StronglySorted Z.le (drop k ks).
Proof. intros Hs. rewrite <- (take_drop k ks) in Hs. by eapply StronglySorted_app_1_r. Qed.

(** Adding a state, early or late, keeps the buffer in order and within its
    size; it keeps only states of the window, and of those it had the newest. *)
Theorem adding_keeps_buffer e ts positions velocities :
  buffer_ok e ->
  let e' := add_joint_state_map ts positions velocities e in
  buffer_ok e' /\
  (forall s, s ∈ joint_state_buffer e' -> ts - max_duration_ns e <= js_timestamp s) /\
  (forall s, s ∈ joint_state_buffer e' -> s ∈ joint_state_buffer e \/
     s = {| js_timestamp := ts; js_positions := positions; js_velocities := velocities |}).
Proof.
  intros [Hs Hb] e'. set (st := {| js_timestamp := ts; js_positions := positions; js_velocities := velocities |}).
  set (i := either (binary_search (map js_timestamp (joint_state_buffer e)) ts)).
  set (buf := vec_insert (joint_state_buffer e) i st).
  assert (Hins : StronglySorted Z.le (map js_timestamp buf)).
  { unfold buf. rewrite map_vec_insert. apply insert_found_sorted; [done|].
    change (js_timestamp st) with ts. unfold i. destruct (binary_search _ ts) as [k|k]; [by left|by right]. }
  assert (0 <= max_buffer_size e) as Hmax by lia.
  destruct (trim_front_drop (max_buffer_size e) buf) as [k Hk].
  assert (Hmem : forall s, s ∈ joint_state_buffer e' -> sat_sub ts (max_duration_ns e) <= js_timestamp s /\ s ∈ buf).
  { intros s Hx. apply list_elem_of_filter in Hx as [Hcut Hx]. split; [done|].
    fold st i buf in Hx. rewrite Hk in Hx. eapply elem_of_subseteq; [|exact Hx]. apply subseteq_drop. }
  split; [split|split].
  - apply sorted_keys_filter. fold st i buf. rewrite Hk. rewrite <- skipn_map. by apply drop_sorted.
  - simpl. unfold trim_old_entries. fold st i buf.
    pose proof (trim_front_length (max_buffer_size e) buf Hmax).
    pose proof (length_filter (fun s => sat_sub ts (max_duration_ns e) <= js_timestamp s) (trim_front (max_buffer_size e) buf)).
    lia.
  - intros s Hx. destruct (Hmem s Hx) as [Hc _]. unfold sat_sub in Hc. lia.
  - intros s Hx. destruct (Hmem s Hx) as [_ Hx']. unfold buf in Hx'. rewrite vec_insert_perm in Hx'.
    apply elem_of_cons in Hx' as [->|Hx']; auto.
Qed.

(** A state that arrives in order is the last of the buffer. *)
Theorem newest_is_last e ts positions velocities :
  buffer_ok e -> 0 < max_buffer_size e -> 0 <= max_duration_ns e -> 0 <= ts ->
  (forall s, s ∈ joint_state_buffer e -> js_timestamp s < ts) ->
  last (joint_state_buffer (add_joint_state_map ts positions velocities e)) =
  Some {| js_timestamp := ts; js_positions := positions; js_velocities := velocities |}.
Proof.
  intros [Hs Hb] Hmax Hdur Hts Hnew. set (st := Build_TimestampedJointState _ _ _).
  set (i := either (binary_search (map js_timestamp (joint_state_buffer e)) ts)).
  assert (i = length (joint_state_buffer e)) as Hi.
  { unfold i. destruct (binary_search _ ts) as [k|k] eqn:E; simpl.
    - apply binary_search_ok in E. rewrite list_lookup_fmap in E.
      destruct (joint_state_buffer e !! k) as [s|] eqn:Ek; [|done]. injection E as E.
      apply list_elem_of_lookup_2, Hnew in Ek. lia.
    - destruct (binary_search_err _ _ k Hs E) as (Hle & _ & Hhi). rewrite length_map in Hle.
      destruct (decide (k = length (joint_state_buffer e))) as [|Hne]; [done|].
      destruct (lookup_lt_is_Some_2 (joint_state_buffer e) k) as [s Hk]; [lia|].
      rewrite Forall_lookup in Hhi. specialize (Hhi 0%nat (js_timestamp s)).
      rewrite lookup_drop, Nat.add_0_r, list_lookup_fmap, Hk in Hhi. specialize (Hhi eq_refl).
      apply list_elem_of_lookup_2, Hnew in Hk. lia. }
  unfold add_joint_state_map. fold st i. simpl. unfold vec_insert. rewrite Hi, firstn_all, drop_all.
  destruct (trim_front_snoc (max_buffer_size e) (joint_state_buffer e) st Hmax) as [k Hk]. rewrite Hk.
  unfold trim_old_entries. rewrite filter_app, filter_cons, decide_True by (simpl; unfold sat_sub; lia).
  change (filter _ []) with (@nil TimestampedJointState). by rewrite last_snoc.
Qed.

(** ** The state at the time of a frame *)

Definition distance (ts : Z) (s : TimestampedJointState) : Z := Z.abs (js_timestamp s - ts).

Lemma buffer_split e ts i s :
  buffer_ok e -> binary_search (map js_timestamp (joint_state_buffer e)) ts = Err i -> s ∈ joint_state_buffer e ->
  (i <= length (joint_state_buffer e))%nat /\
  ((exists before, joint_state_buffer e !! (i - 1)%nat = Some before /\ (0 < i)%nat /\
      js_timestamp s <= js_timestamp before < ts) \/
   (exists after, joint_state_buffer e !! i = Some after /\ ts < js_timestamp after <= js_timestamp s)).
Proof.
  intros [Hs _] E Hx. destruct (binary_search_err _ _ i Hs E) as (Hle & Hlo & Hhi).
  rewrite length_map in Hle. split; [done|].
  apply list_elem_of_lookup in Hx as [j Hj].
  assert (Hkey : forall k x, joint_state_buffer e !! k = Some x -> map js_timestamp (joint_state_buffer e) !! k = Some (js_timestamp x))
    by (intros k x Hk; by rewrite list_lookup_fmap, Hk).
  rewrite Forall_lookup in Hlo, Hhi. destruct (decide (j < i)%nat) as [Hlt|Hge].
  - left. destruct (lookup_lt_is_Some_2 (joint_state_buffer e) (i - 1)) as [b Hb]; [lia|].
    exists b. split; [done|]. split; [lia|]. split.
    + eapply (sorted_lookup _ j (i - 1)); [exact Hs|lia|by apply Hkey|by apply Hkey].
    + apply (Hlo (i - 1)%nat). rewrite lookup_take_lt by lia. by apply Hkey.
  - right. destruct (lookup_lt_is_Some_2 (joint_state_buffer e) i) as [a Ha]; [apply lookup_lt_Some in Hj; lia|].
    exists a. split; [done|]. split.
    + apply (Hhi 0%nat). rewrite lookup_drop, Nat.add_0_r. by apply Hkey.
    + eapply (sorted_lookup _ i j); [exact Hs|lia|by apply Hkey|by apply Hkey].
Qed.

Lemma blend_dom t before after : dom (blend t before after) = dom before.
Proof.
  apply set_eq. intros n. unfold blend. rewrite !elem_of_dom, map_lookup_imap.
  destruct (before !! n) as [b|]; simpl; [|done]. split; intros _; eauto.
Qed.

Lemma index_val {A} (l : list A) i x : l !! i = Some x -> index l i = Val x.
Proof. intros H. unfold index. by rewrite H. Qed.

(** What [interpolate_joint_state] promises of a gap. *)
Definition nearest (e : FrameEnricher) (ts gap : Z) : Prop :=
  (exists s, s ∈ joint_state_buffer e /\ distance ts s = gap) /\
  (forall s, s ∈ joint_state_buffer e -> gap <= distance ts s).

Lemma nearest_intro e ts i gap :
  buffer_ok e -> joint_state_buffer e <> [] -> binary_search (map js_timestamp (joint_state_buffer e)) ts = Err i ->
  (exists s, s ∈ joint_state_buffer e /\ distance ts s = gap) ->
  (forall b, joint_state_buffer e !! (i - 1)%nat = Some b -> (0 < i)%nat -> js_timestamp b < ts ->
     gap <= ts - js_timestamp b) ->
  (forall a, joint_state_buffer e !! i = Some a -> ts < js_timestamp a -> gap <= js_timestamp a - ts) ->
  nearest e ts gap.
Proof.
  intros Hok Hne E Hex Hb Ha. split; [done|]. intros s Hx.
  destruct (buffer_split e ts i s Hok E Hx) as (_ & [(b & Hbl & H0 & H1 & H2)|(a & Hal & H1 & H2)]); unfold distance.
  - specialize (Hb b Hbl H0 H2). lia.
  - specialize (Ha a Hal H1). lia.
Qed.

(** The samples on both sides of a place where a key is not found. *)
Lemma search_neighbours e ts i :
  buffer_ok e -> binary_search (map js_timestamp (joint_state_buffer e)) ts = Err i ->
  ((0 < i)%nat -> exists b, joint_state_buffer e !! (i - 1)%nat = Some b /\ js_timestamp b < ts) /\
  ((i < length (joint_state_buffer e))%nat -> exists a, joint_state_buffer e !! i = Some a /\ ts < js_timestamp a).
Proof.
  intros Hok E. pose proof (binary_search_err _ _ i (buffer_sorted e Hok) E) as (Hle & Hlo & Hhi).
  rewrite length_map in Hle. rewrite Forall_lookup in Hlo, Hhi. split; intros Hi.
  - destruct (lookup_lt_is_Some_2 (joint_state_buffer e) (i - 1)) as [b Hb]; [lia|]. exists b.
    split; [done|]. apply (Hlo (i - 1)%nat). by rewrite lookup_take_lt, list_lookup_fmap, Hb by lia.
  - destruct (lookup_lt_is_Some_2 (joint_state_buffer e) i) as [a Ha]; [lia|]. exists a.
    split; [done|]. apply (Hhi 0%nat). by rewrite lookup_drop, Nat.add_0_r, list_lookup_fmap, Ha.
Qed.

(** The state at a time: without samples an error; otherwise the gap is the
    distance to the nearest sample, and the joints are those of a sample. *)
Theorem interpolation_gap_nearest e ts :
  buffer_ok e ->
  (joint_state_buffer e = [] /\ interpolate_joint_state e ts = Val (Err NoJointState)) \/
  (exists positions gap s, interpolate_joint_state e ts = Val (Ok (positions, gap)) /\ nearest e ts gap /\
     s ∈ joint_state_buffer e /\ dom positions = dom (js_positions s)).
Proof.
  intros Hok. unfold interpolate_joint_state. case_bool_decide as Hne; [by left|right].
  destruct (binary_search (map js_timestamp (joint_state_buffer e)) ts) as [i|i] eqn:E.
  - apply binary_search_ok in E. rewrite list_lookup_fmap in E.
    destruct (joint_state_buffer e !! i) as [s|] eqn:Hs; [|done]. injection E as E.
    rewrite (index_val _ i s Hs). simpl. eexists _, _, s. split; [reflexivity|].
    apply list_elem_of_lookup_2 in Hs as Hin. split_and!; try done. split.
    + exists s. split; [done|]. unfold distance. lia.
    + intros s' _. unfold distance. lia.
  - destruct (search_neighbours e ts i Hok E) as [Hbefore Hafter].
    assert (0 < length (joint_state_buffer e))%nat by (destruct (joint_state_buffer e); simpl; [done|lia]).
    pose proof (binary_search_err _ _ i (buffer_sorted e Hok) E) as [Hle _]. rewrite length_map in Hle.
    destruct i as [|i].
    + destruct (Hafter ltac:(lia)) as (a & Ha & Hlt). rewrite (index_val _ 0 a Ha). simpl.
      eexists _, _, a. split; [reflexivity|]. apply list_elem_of_lookup_2 in Ha as Hin. split_and!; try done.
      unfold sat_sub. rewrite Z.max_r by lia. apply (nearest_intro e ts 0); try done.
      * exists a. split; [done|]. unfold distance. lia.
      * intros; lia.
      * intros a' Ha' _. rewrite Ha in Ha'. injection Ha' as <-. lia.
    + destruct (Hbefore ltac:(lia)) as (b & Hb & Hblt). apply list_elem_of_lookup_2 in Hb as Hbin.
      destruct (Nat.leb_spec (length (joint_state_buffer e)) (S i)) as [Hend|Hmid].
      * assert (S i = length (joint_state_buffer e)) as Hlen by lia. rewrite <- Hlen.
        rewrite (index_val _ _ b Hb). simpl. eexists _, _, b. split; [reflexivity|]. split_and!; try done.
        unfold sat_sub. rewrite Z.max_r by lia. apply (nearest_intro e ts (S i)); try done.
        -- exists b. split; [done|]. unfold distance. lia.
        -- intros b' Hb' _ _. rewrite Hb in Hb'. injection Hb' as <-. lia.
        -- intros a Ha. apply lookup_lt_Some in Ha. lia.
      * destruct (Hafter Hmid) as (a & Ha & Halt). apply list_elem_of_lookup_2 in Ha as Hain.
        rewrite (index_val _ _ b Hb), (index_val _ _ a Ha). cbn [mbind partial_bind].
        eexists _, _, b. split; [reflexivity|]. split_and!; [|done|by apply blend_dom].
        unfold sat_sub. rewrite !Z.max_r by lia. apply (nearest_intro e ts (S i)); try done.
        -- destruct (Z.min_spec (ts - js_timestamp b) (js_timestamp a - ts)) as [[_ ->]|[_ ->]];
             [exists b|exists a]; (split; [done|]); unfold distance; lia.
        -- intros b' Hb' _ _. rewrite Hb in Hb'. injection Hb' as <-. lia.
        -- intros a' Ha' _. rewrite Ha in Ha'. injection Ha' as <-. lia.
Qed.

(** ** The frame *)

Section EnrichTheorems.
Context `{Libm}.

Definition gap_ms (gap : Z) : spec_float := (f64_of gap / f64_of 1000000)%f64.

(** What the answer to a frame says; [e] is the state before. *)
Definition enriched_as (e : FrameEnricher) (f : CameraFrame) (e' : FrameEnricher)
    (r : result EnrichmentError EnrichedFrame) : Prop :=
  match r with
  | Ok ef =>
      ef_frame ef = f /\ is_usable ef = validate_size f /\
      (exists positions gap, interpolate_joint_state e (cf_timestamp f) = Val (Ok (positions, gap)) /\
         nearest e (cf_timestamp f) gap /\
         SFltb (max_interpolation_gap_ms (quality_config e)) (gap_ms gap) = false /\
         compute_camera_pose (robot_model e) (cf_camera_id f) positions (base_pose_world e) (cf_timestamp f) =
           Val (Ok (camera_pose ef))) /\
      frames_enriched (stats e') = wrap_add u64_max (frames_enriched (stats e)) 1
  | Err err =>
      frames_enriched (stats e') = frames_enriched (stats e) /\
      match err with
      | NoJointState => joint_state_buffer e = []
      | InterpolationGapTooLarge g m =>
          m = max_interpolation_gap_ms (quality_config e) /\ SFltb m g = true /\
          exists gap, nearest e (cf_timestamp f) gap /\ g = gap_ms gap
      | UrdfErr (CameraNotRegistered id) => id = cf_camera_id f /\ camera_links (robot_model e) !! id = None
      | CameraNotConfigured _ | UrdfErr _ => False
      end
  end.

(** A frame is answered, without a panic and without a loop that does not end:
    it gets the pose of its camera at the joints of the nearest samples when
    those are near enough, or an error that says what is missing.  The counter
    of frames without joint states never moves. *)
Theorem enrich_outcome e f :
  buffer_ok e -> wf (robot_model e) ->
  exists e' r, enrich_frame f e = Val (e', r) /\ buffer_ok e' /\ robot_model e' = robot_model e /\
    frames_processed (stats e') = wrap_add u64_max (frames_processed (stats e)) 1 /\
    frames_missing_joint_state (stats e') = frames_missing_joint_state (stats e) /\
    enriched_as e f e' r.
Proof.
  intros Hok Hwf. unfold enrich_frame. set (e0 := set_stats (count_processed (stats e)) e).
  assert (Hok0 : buffer_ok e0) by (split; apply Hok).
  destruct (interpolation_gap_nearest e0 (cf_timestamp f) Hok0) as [[Hnil E]|(pos & gap & s & E & Hn & _)];
    rewrite E; cbn [mbind partial_bind].
  { eexists _, _. split; [reflexivity|]. by split_and!. }
  fold (gap_ms gap). change (quality_config e0) with (quality_config e). destruct (SFltb (max_interpolation_gap_ms (quality_config e)) (gap_ms gap)) eqn:Eg.
  { eexists _, _. split; [reflexivity|]. split_and!; try done. split; [done|]. split_and!; try done. by exists gap. }
  set (e1 := set_stats (average_gap (gap_ms gap) (stats e0)) e0).
  change (robot_model e1) with (robot_model e). change (base_pose_world e1) with (base_pose_world e).
  destruct (camera_pose_total (robot_model e) (cf_camera_id f) pos (base_pose_world e) (cf_timestamp f) Hwf)
    as [(pose & Ep & _)|[Ep Hnone]]; rewrite Ep; cbn [mbind partial_bind].
  - eexists _, _. split; [reflexivity|]. split_and!; try done; [split; apply Hok|].
    split; [done|]. split; [done|]. split; [|done]. by exists pos, gap.
  - eexists _, _. split; [reflexivity|]. split_and!; try done; split; apply Hok || done.
Qed.
End EnrichTheorems.

(** ** Examples *)

Definition at_time (ts : Z) (v : spec_float) : FrameEnricher -> FrameEnricher :=
  add_joint_state_map ts {["j" := f64_of 0]} (Some {["j" := v]}).
Definition demo_enricher : FrameEnricher := new_enricher two_links 1000.

(** The blur of a frame is judged by the first state after it, however far that
    is, and not by the closest one: the joint is fast at 1000 ms and slow at
    1040 ms, the frame is of 1001 ms. *)
Example blur_of_the_next_state :
  let e := at_time 1040000000 (f64_of 0) (at_time 1000000000 (f64_of 5) demo_enricher) in
  detect_motion_blur e 1000000000 = Some true /\ detect_motion_blur e 1001000000 = Some false.
Proof. by vm_compute. Qed.

(** One state from the future empties the buffer. *)
Example future_state_empties :
  buffer_time_range (at_time 1000000000 (f64_of 0) demo_enricher) = Some (1000000000, 1000000000) /\
  buffer_time_range (at_time 5000000000 (f64_of 0) (at_time 1000000000 (f64_of 0) demo_enricher)) =
    Some (5000000000, 5000000000).
Proof. by vm_compute. Qed.

(** A frame with a joint that races is usable. *)
Example blurred_is_usable :
  let e := at_time 1000000000 (f64_of 5) demo_enricher in
  let q := assess_quality e (new_frame "cam" 1000000000 1 1 "mono8" [7]) in
  motion_blur q = true /\ usable q = true.
Proof. by vm_compute. Qed.

Example halfway :
  let e := add_joint_state_map 2000000000 {["j" := f64_of 1]} None
             (add_joint_state_map 1000000000 {["j" := f64_of 0]} None demo_enricher) in
  interpolate_joint_state e 1500000000 = Val (Ok ({["j" := f64_div (f64_of 1) (f64_of 2)]}, 500000000)).
Proof. by vm_compute. Qed.

Lemma demo_ok : buffer_ok (at_time 1000000000 (f64_of 5) demo_enricher).
Proof. apply adding_keeps_buffer, new_enricher_ok. Qed.

Lemma adding_keeps_buffer_witness :
  buffer_ok (at_time 2000 (f64_of 0) demo_enricher) /\
  (forall s, s ∈ joint_state_buffer (at_time 2000 (f64_of 0) demo_enricher) -> js_timestamp s >= 2000 - 1000000000).
Proof.
  destruct (adding_keeps_buffer demo_enricher 2000 {["j" := f64_of 0]} (Some {["j" := f64_of 0]})
              (new_enricher_ok two_links 1000)) as (H1 & H2 & _).
  split; [exact H1|]. intros s Hs. specialize (H2 s Hs). simpl in H2. lia.
Defined.

Lemma newest_is_last_witness :
  last (joint_state_buffer (at_time 2000 (f64_of 0) demo_enricher)) =
  Some {| js_timestamp := 2000; js_positions := {["j" := f64_of 0]}; js_velocities := Some {["j" := f64_of 0]} |}.
Proof.
  apply (newest_is_last demo_enricher 2000 {["j" := f64_of 0]} (Some {["j" := f64_of 0]})
           (new_enricher_ok two_links 1000)); simpl; try lia. intros s Hs. by apply elem_of_nil in Hs.
Defined.

Lemma interpolation_gap_nearest_witness :
  exists positions gap, interpolate_joint_state (at_time 1000000000 (f64_of 5) demo_enricher) 1000000007 =
    Val (Ok (positions, gap)) /\ nearest (at_time 1000000000 (f64_of 5) demo_enricher) 1000000007 gap.
Proof.
  destruct (interpolation_gap_nearest (at_time 1000000000 (f64_of 5) demo_enricher) 1000000007 demo_ok)
    as [[Hn _]|(pos & gap & s & E & Hn & _)]; [by vm_compute in Hn|by exists pos, gap].
Defined.

Lemma enrich_outcome_witness :
  exists e', enrich_frame (new_frame "cam" 1000000000 1 1 "mono8" [7]) (at_time 1000000000 (f64_of 5) demo_enricher) =
    Val (e', Err (UrdfErr (CameraNotRegistered "cam"))) /\ frames_processed (stats e') = 1.
Proof.
  destruct (enrich_outcome (at_time 1000000000 (f64_of 5) demo_enricher) (new_frame "cam" 1000000000 1 1 "mono8" [7])
              demo_ok (proj1 two_links_rooted)) as (e' & r & E & _ & _ & Hp & _).
  exists e'. split; [|exact Hp]. rewrite E. vm_compute in E. by injection E as <- <-.
Defined.
