(* ===== verification/Digests.v ===== *)
(** * Digests and base64

    The functions of the ring, sha2 and base64 crates that recordings and known
    hosts use, what their documentation promises, and an instance for
    examples. *)

From S2P Require Import Prelude RustStr.

Open Scope Z_scope.

(** The ring, sha2 and base64 crates. *)
Class Digests := {
  sha256 : list Z -> list Z;
  hmac_sha256 : list Z -> list Z -> list Z;
  b64_encode : list Z -> string;
  b64_decode : string -> result string (list Z) }.

(** What their documentation promises. *)
Class DigestLaws (D : Digests) : Prop := {
  b64_round : forall l, Forall (fun b => 0 <= b < 256) l -> b64_decode (b64_encode l) = Ok l;
  b64_bytes : forall s l, b64_decode s = Ok l -> Forall (fun b => 0 <= b < 256) l;
  sha256_bytes : forall l, Forall (fun b => 0 <= b < 256) (sha256 l);
  sha256_length : forall l, length (sha256 l) = 32%nat;
  hmac_bytes : forall k l, Forall (fun b => 0 <= b < 256) (hmac_sha256 k l) }.

(** [hmac::verify] compares the tag with the one it computes. *)
Definition hmac_verify {D : Digests} (key msg tag : list Z) : bool := bool_decide (hmac_sha256 key msg = tag).

(** ** An instance for examples *)

#[export] Instance demo_digests : Digests := {|
  sha256 l := repeat (foldr (fun b acc => (b + 31 * acc) mod 256) 0 l) 32;
  hmac_sha256 k l := map (fun b => b mod 256) (k ++ l);
  b64_encode := bytes_string;
  b64_decode t := Ok (string_bytes t) |}.

Lemma mod_bytes l : Forall (fun b => 0 <= b < 256) (map (fun b => b mod 256) l).
Proof. apply Forall_map, Forall_true. intros b. simpl. apply Z.mod_pos_bound. lia. Qed.

Lemma mod_bytes_id l : Forall (fun b => 0 <= b < 256) l -> map (fun b => b mod 256) l = l.
Proof. induction 1 as [|b l Hb _ IH]; [done|]. simpl. by rewrite IH, Z.mod_small. Qed.

#[export] Instance demo_digest_laws : DigestLaws demo_digests.
Proof.
  split.
  - intros l Hl. change (Ok (E := string) (string_bytes (bytes_string l)) = Ok l). by rewrite string_bytes_string.
  - intros t l [= <-]. apply string_bytes_range.
  - intros l. repeat constructor; destruct l; simpl; (lia || apply Z.mod_pos_bound; lia).
  - done.
  - intros k l. apply mod_bytes.
Qed.
