(* ===== verification/RateLimit.v ===== *)
(** * Connection rate limiting (omni-ssh/src/server/rate_limit.rs)

    The limiter keeps three maps keyed by source address and a counting
    semaphore.  Each operation is a function of the state and of the clock
    readings it makes, in the order it makes them. *)

From S2P Require Import Prelude Net.

Open Scope Z_scope.

Record ConnectionCount : Type := { cc_count : Z; window_start : Z }.
Record FailedAuthCount : Type := { fa_count : Z; first_failure : Z }.

Record ConnectionRateLimiter : Type := {
  per_ip_per_minute : Z;
  max_failed_auth : Z;
  ban_duration : Z;
  max_concurrent : Z;
  connection_counts : gmap IpAddr ConnectionCount;
  failed_auth_counts : gmap IpAddr FailedAuthCount;
  banned_ips : gmap IpAddr Z;
  concurrent_semaphore : Z
}.

Inductive RateLimitResult : Type :=
| Allowed
| RateLimited (retry_after : Z)
| Banned (remaining : Z)
| TooManyConnections.

#[global] Instance RateLimitResult_eq_dec : EqDecision RateLimitResult.
Proof. solve_decision. Defined.

Definition set_counts (rl : ConnectionRateLimiter) m : ConnectionRateLimiter :=
  {| per_ip_per_minute := per_ip_per_minute rl; max_failed_auth := max_failed_auth rl;
     ban_duration := ban_duration rl; max_concurrent := max_concurrent rl;
     connection_counts := m; failed_auth_counts := failed_auth_counts rl;
     banned_ips := banned_ips rl; concurrent_semaphore := concurrent_semaphore rl |}.
Definition set_failed (rl : ConnectionRateLimiter) m : ConnectionRateLimiter :=
  {| per_ip_per_minute := per_ip_per_minute rl; max_failed_auth := max_failed_auth rl;
     ban_duration := ban_duration rl; max_concurrent := max_concurrent rl;
     connection_counts := connection_counts rl; failed_auth_counts := m;
     banned_ips := banned_ips rl; concurrent_semaphore := concurrent_semaphore rl |}.
Definition set_banned (rl : ConnectionRateLimiter) m : ConnectionRateLimiter :=
  {| per_ip_per_minute := per_ip_per_minute rl; max_failed_auth := max_failed_auth rl;
     ban_duration := ban_duration rl; max_concurrent := max_concurrent rl;
     connection_counts := connection_counts rl; failed_auth_counts := failed_auth_counts rl;
     banned_ips := m; concurrent_semaphore := concurrent_semaphore rl |}.
Definition set_permits (rl : ConnectionRateLimiter) n : ConnectionRateLimiter :=
  {| per_ip_per_minute := per_ip_per_minute rl; max_failed_auth := max_failed_auth rl;
     ban_duration := ban_duration rl; max_concurrent := max_concurrent rl;
     connection_counts := connection_counts rl; failed_auth_counts := failed_auth_counts rl;
     banned_ips := banned_ips rl; concurrent_semaphore := n |}.

Definition new (per_ip max_failed ban max_conc : Z) : ConnectionRateLimiter :=
  {| per_ip_per_minute := per_ip; max_failed_auth := max_failed; ban_duration := ban;
     max_concurrent := max_conc; connection_counts := ∅; failed_auth_counts := ∅;
     banned_ips := ∅; concurrent_semaphore := max_conc |}.

Definition default : ConnectionRateLimiter := new 10 5 (from_secs 900) 100.

(** [Duration::checked_sub]. *)
Definition duration_checked_sub (a b : Z) : option Z := if b <=? a then Some (a - b) else None.

(** The first block of [check_allowed]: an active ban answers the call, an
    expired one is removed together with the failure count. *)
Definition check_ban (clk : Clock) (rl : ConnectionRateLimiter) (ip : IpAddr)
    : option RateLimitResult * ConnectionRateLimiter :=
  match banned_ips rl !! ip with
  | Some ban_time =>
      let e := elapsed ban_time (clk 0%nat) in
      if e <? ban_duration rl then (Some (Banned (ban_duration rl - e)), rl)
      else (None, set_failed (set_banned rl (delete ip (banned_ips rl)))
                             (delete ip (failed_auth_counts rl)))
  | None => (None, rl)
  end.

(** The entry the second block works on: inserted when absent, reset when its
    minute has passed. *)
Definition window_entry (clk : Clock) (rl : ConnectionRateLimiter) (ip : IpAddr)
    : ConnectionCount :=
  let now := clk 1%nat in
  let e := from_option id {| cc_count := 0; window_start := now |} (connection_counts rl !! ip) in
  if from_secs 60 <? elapsed (window_start e) (clk 2%nat)
  then {| cc_count := 0; window_start := now |} else e.

Definition check_allowed (clk : Clock) (rl : ConnectionRateLimiter) (ip : IpAddr)
    : RateLimitResult * ConnectionRateLimiter :=
  match check_ban clk rl ip with
  | (Some r, rl) => (r, rl)
  | (None, rl) =>
      let e := window_entry clk rl ip in
      let store e := set_counts rl (<[ip := e]> (connection_counts rl)) in
      if per_ip_per_minute rl <=? cc_count e then
        (RateLimited (from_option id (from_secs 1)
           (duration_checked_sub (from_secs 60) (elapsed (window_start e) (clk 3%nat)))),
         store e)
      else if concurrent_semaphore rl =? 0 then (TooManyConnections, store e)
      else (Allowed, store {| cc_count := wrap_add u32_max (cc_count e) 1;
                              window_start := window_start e |})
  end.

(** Taking a permit without waiting; a permit that is dropped returns to the
    semaphore.  [acquire_permit] waits until [try_acquire_permit] succeeds. *)
Definition try_acquire_permit (rl : ConnectionRateLimiter) : bool * ConnectionRateLimiter :=
  if 0 <? concurrent_semaphore rl
  then (true, set_permits rl (concurrent_semaphore rl - 1)) else (false, rl).
Definition drop_permit (rl : ConnectionRateLimiter) : ConnectionRateLimiter :=
  set_permits rl (concurrent_semaphore rl + 1).

Definition record_failed_auth (clk : Clock) (rl : ConnectionRateLimiter) (ip : IpAddr)
    : ConnectionRateLimiter :=
  let now := clk 0%nat in
  let e := from_option id {| fa_count := 0; first_failure := now |} (failed_auth_counts rl !! ip) in
  let e := if from_secs 3600 <? elapsed (first_failure e) (clk 1%nat)
           then {| fa_count := 0; first_failure := now |} else e in
  let e := {| fa_count := wrap_add u32_max (fa_count e) 1; first_failure := first_failure e |} in
  let rl := set_failed rl (<[ip := e]> (failed_auth_counts rl)) in
  if max_failed_auth rl <=? fa_count e
  then set_banned rl (<[ip := now]> (banned_ips rl)) else rl.

Definition record_successful_auth (rl : ConnectionRateLimiter) (ip : IpAddr)
    : ConnectionRateLimiter :=
  set_failed rl (delete ip (failed_auth_counts rl)).

Definition is_banned (now : Z) (rl : ConnectionRateLimiter) (ip : IpAddr) : bool :=
  match banned_ips rl !! ip with
  | Some ban_time => elapsed ban_time now <? ban_duration rl
  | None => false
  end.

Definition ban_remaining (now : Z) (rl : ConnectionRateLimiter) (ip : IpAddr) : option Z :=
  ban_time ← banned_ips rl !! ip;
  let e := elapsed ban_time now in
  if e <? ban_duration rl then Some (ban_duration rl - e) else None.

Definition ban_ip (now : Z) (rl : ConnectionRateLimiter) (ip : IpAddr) : ConnectionRateLimiter :=
  set_banned rl (<[ip := now]> (banned_ips rl)).

Definition unban_ip (rl : ConnectionRateLimiter) (ip : IpAddr) : ConnectionRateLimiter :=
  set_failed (set_banned rl (delete ip (banned_ips rl))) (delete ip (failed_auth_counts rl)).

(** [cleanup] at one instant: three [retain] passes. *)
Definition cleanup (now : Z) (rl : ConnectionRateLimiter) : ConnectionRateLimiter :=
  let rl := set_banned rl
    (filter (fun kv => elapsed kv.2 now < ban_duration rl) (banned_ips rl)) in
  let rl := set_counts rl
    (filter (fun kv => elapsed (window_start kv.2) now < from_secs 120) (connection_counts rl)) in
  set_failed rl
    (filter (fun kv => elapsed (first_failure kv.2) now < from_secs 3600) (failed_auth_counts rl)).

Record RateLimiterStats : Type := {
  active_connections : Z; stats_banned_ips : nat; tracked_ips : nat }.

Definition available_permits (rl : ConnectionRateLimiter) : Z := concurrent_semaphore rl.

Definition stats (rl : ConnectionRateLimiter) : RateLimiterStats :=
  {| active_connections := max_concurrent rl - available_permits rl;
     stats_banned_ips := size (banned_ips rl);
     tracked_ips := size (connection_counts rl) |}.

Definition banned_ip_list (now : Z) (rl : ConnectionRateLimiter) : list (IpAddr * Z) :=
  omap (fun kv => let e := elapsed kv.2 now in
                  if e <? ban_duration rl then Some (kv.1, ban_duration rl - e) else None)
       (map_to_list (banned_ips rl)).

#[global] Arguments check_allowed : simpl never.
#[global] Arguments window_entry : simpl never.
#[global] Arguments record_failed_auth : simpl never.
#[global] Arguments try_acquire_permit : simpl never.

(** ** Operations as a step relation *)

Inductive Op : Type :=
| CheckAllowed (ip : IpAddr)
| TryAcquire
| DropPermit
| RecordFailed (ip : IpAddr)
| RecordSuccess (ip : IpAddr)
| BanIp (ip : IpAddr)
| UnbanIp (ip : IpAddr)
| Cleanup.

#[global] Instance Op_eq_dec : EqDecision Op.
Proof. solve_decision. Defined.

(** The limiter and the number of permits held by connections. *)
Record Server : Type := { limiter : ConnectionRateLimiter; held : Z }.

(** One operation, with the answer of [check_allowed] when it is one. *)
Definition exec (clk : Clock) (o : Op) (s : Server) : option RateLimitResult * Server :=
  let rl := limiter s in
  match o with
  | CheckAllowed ip => let '(r, rl) := check_allowed clk rl ip in
                       (Some r, {| limiter := rl; held := held s |})
  | TryAcquire => let '(got, rl) := try_acquire_permit rl in
                  (None, {| limiter := rl; held := if got then held s + 1 else held s |})
  | DropPermit => if 0 <? held s
                  then (None, {| limiter := drop_permit rl; held := held s - 1 |}) else (None, s)
  | RecordFailed ip => (None, {| limiter := record_failed_auth clk rl ip; held := held s |})
  | RecordSuccess ip => (None, {| limiter := record_successful_auth rl ip; held := held s |})
  | BanIp ip => (None, {| limiter := ban_ip (clk 0%nat) rl ip; held := held s |})
  | UnbanIp ip => (None, {| limiter := unban_ip rl ip; held := held s |})
  | Cleanup => (None, {| limiter := cleanup (clk 0%nat) rl; held := held s |})
  end.

(** A schedule pairs each operation with its clock readings. *)
Fixpoint exec_all (sched : list (Clock * Op)) (s : Server) : list (Op * option RateLimitResult) * Server :=
  match sched with
  | [] => ([], s)
  | (clk, o) :: rest =>
      let '(r, s) := exec clk o s in
      let '(rs, s) := exec_all rest s in ((o, r) :: rs, s)
  end.

(** The number of times an address was let through. *)
Definition allowed_for (ip : IpAddr) (log : list (Op * option RateLimitResult)) : nat :=
  length (filter (fun e => e = (CheckAllowed ip, Some Allowed)) log).

(** ** The state invariant *)

Definition counts_ok (rl : ConnectionRateLimiter) : Prop :=
  0 <= per_ip_per_minute rl <= u32_max /\
  map_Forall (fun _ e => 0 <= cc_count e <= per_ip_per_minute rl) (connection_counts rl).

Definition permits_ok (s : Server) : Prop :=
  0 <= held s /\ 0 <= concurrent_semaphore (limiter s) /\
  concurrent_semaphore (limiter s) + held s = max_concurrent (limiter s).

(** Operations never change the configured limits. *)
Definition same_config (a b : ConnectionRateLimiter) : Prop :=
  per_ip_per_minute a = per_ip_per_minute b /\ max_failed_auth a = max_failed_auth b /\
  ban_duration a = ban_duration b /\ max_concurrent a = max_concurrent b.

Lemma check_ban_frame clk rl ip r rl' :
  check_ban clk rl ip = (r, rl') ->
  same_config rl' rl /\ connection_counts rl' = connection_counts rl /\
  concurrent_semaphore rl' = concurrent_semaphore rl.
Proof. unfold check_ban, same_config. intros. split_match; simplify_eq; done. Qed.

Lemma window_entry_ok clk rl ip :
  counts_ok rl -> 0 <= cc_count (window_entry clk rl ip) <= per_ip_per_minute rl.
Proof.
  intros [Hper Hall]. unfold window_entry. case_match; simpl; [lia|].
  destruct (connection_counts rl !! ip) as [e|] eqn:E; simpl; [by eapply Hall | lia].
Qed.

Lemma check_allowed_frame clk rl ip :
  let rl' := (check_allowed clk rl ip).2 in
  same_config rl' rl /\ concurrent_semaphore rl' = concurrent_semaphore rl.
Proof.
  unfold check_allowed. destruct (check_ban clk rl ip) as [[r|] rl'] eqn:E;
    apply check_ban_frame in E as (Hc & _ & Hs); [done|].
  repeat case_match; done.
Qed.

(** [check_allowed] changes only the asking address's window, to the current
    one with the connection counted when it was allowed. *)
Lemma check_allowed_counts clk rl ip :
  counts_ok rl ->
  let '(r, rl') := check_allowed clk rl ip in
  (exists rem, r = Banned rem /\ connection_counts rl' = connection_counts rl) \/
  connection_counts rl' = <[ip := {|
    cc_count := cc_count (window_entry clk rl ip) + (if decide (r = Allowed) then 1 else 0);
    window_start := window_start (window_entry clk rl ip) |}]> (connection_counts rl) /\
  (r = Allowed -> cc_count (window_entry clk rl ip) < per_ip_per_minute rl).
Proof.
  intros Hok. unfold check_allowed.
  destruct (check_ban clk rl ip) as [[r|] rl'] eqn:E.
  - left. pose proof (check_ban_frame _ _ _ _ _ E) as (_ & Hc & _). unfold check_ban in E.
    destruct (banned_ips rl !! ip); [|done]. destruct (_ <? _); simplify_eq. eauto.
  - apply check_ban_frame in E as ((Hp & _) & Hc & _).
    pose proof (window_entry_ok clk rl ip Hok) as Hw. destruct Hok as [Hper _].
    assert (window_entry clk rl' ip = window_entry clk rl ip) as Heq
      by (unfold window_entry; by rewrite Hc).
    cbv zeta. rewrite Heq, Hp. destruct (window_entry clk rl ip) as [n st]; simpl in *.
    destruct (_ <=? _) eqn:Hn; [|destruct (_ =? 0)]; simpl; reflect_bools; rewrite Hc; right.
    all: rewrite ?Z.add_0_r; split; [|done || lia]. all: try done.
    by rewrite wrap_add_small by lia.
Qed.

Lemma check_allowed_counts_ok clk rl ip :
  counts_ok rl -> counts_ok (check_allowed clk rl ip).2.
Proof.
  intros Hok. pose proof (check_allowed_counts clk rl ip Hok) as Hc.
  pose proof (check_allowed_frame clk rl ip) as [(Hp & _) _].
  pose proof (window_entry_ok clk rl ip Hok) as Hw.
  destruct (check_allowed clk rl ip) as [r rl'] eqn:E; simpl in *.
  destruct Hok as [Hper Hall]. split; rewrite Hp; [done|].
  destruct Hc as [(? & _ & ->)|[-> Hlt]]; [done|].
  apply map_Forall_insert_2; [|done]. simpl.
  destruct (decide (r = Allowed)); [specialize (Hlt e)|]; lia.
Qed.

Lemma exec_frame clk o s : same_config (limiter (exec clk o s).2) (limiter s).
Proof.
  destruct o; simpl; try done.
  - pose proof (check_allowed_frame clk (limiter s) ip) as [Hc _].
    by destruct (check_allowed clk (limiter s) ip).
  - unfold try_acquire_permit. by destruct (_ <? _).
  - by destruct (_ <? _).
  - unfold record_failed_auth. cbv zeta. by destruct (max_failed_auth _ <=? _).
Qed.

Lemma exec_counts_ok clk o s :
  counts_ok (limiter s) -> counts_ok (limiter (exec clk o s).2).
Proof.
  intros Hok. destruct o; simpl; try done.
  - pose proof (check_allowed_counts_ok clk (limiter s) ip Hok).
    by destruct (check_allowed clk (limiter s) ip).
  - unfold try_acquire_permit. by destruct (_ <? _).
  - by destruct (_ <? _).
  - unfold record_failed_auth. cbv zeta. by destruct (max_failed_auth _ <=? _).
  - destruct Hok as [Hper Hall]. split; [done|]. simpl.
    intros i e He. by apply map_lookup_filter_Some in He as [He%Hall _].
Qed.

Lemma exec_permits_ok clk o s : permits_ok s -> permits_ok (exec clk o s).2.
Proof.
  unfold permits_ok. intros (Hh & Hp & Hsum). destruct o; simpl; try done.
  - pose proof (check_allowed_frame clk (limiter s) ip) as [(_ & _ & _ & Hm) Hs].
    destruct (check_allowed clk (limiter s) ip); simpl in *. rewrite Hs, Hm. done.
  - unfold try_acquire_permit. destruct (_ <? _) eqn:?; simpl; reflect_bools; lia.
  - destruct (_ <? _) eqn:?; simpl; reflect_bools; lia.
  - unfold record_failed_auth. cbv zeta. by destruct (max_failed_auth _ <=? _).
Qed.

(** ** How many connections an address can open *)

(** What is left of the two windows that can overlap a minute from [t0] on. *)
Definition budget (t0 : Z) (rl : ConnectionRateLimiter) (ip : IpAddr) : Z :=
  match connection_counts rl !! ip with
  | None => per_ip_per_minute rl
  | Some e => if t0 <=? window_start e then per_ip_per_minute rl - cc_count e
              else 2 * per_ip_per_minute rl - cc_count e
  end.

(** Every clock reading of the schedule falls in the interval. *)
Definition within (t0 len : Z) (sched : list (Clock * Op)) : Prop :=
  Forall (fun co => forall i, t0 <= co.1 i <= t0 + len) sched.

Lemma budget_window clk rl ip t0 :
  counts_ok rl -> (forall i, t0 <= clk i <= t0 + from_secs 60) ->
  let e := window_entry clk rl ip in
  (if t0 <=? window_start e then per_ip_per_minute rl - cc_count e
   else 2 * per_ip_per_minute rl - cc_count e) <= budget t0 rl ip.
Proof.
  intros [Hper Hall] Hclk. unfold window_entry, budget.
  pose proof (Hclk 1%nat). pose proof (Hclk 2%nat).
  destruct (connection_counts rl !! ip) as [e|] eqn:E; simpl.
  - specialize (Hall _ _ E). simpl in Hall.
    destruct (_ <? _) eqn:He; simpl; [|done].
    reflect_bools. unfold elapsed, sat_sub, from_secs, nanos_per_sec in *.
    destruct (Z.leb_spec t0 (window_start e)), (Z.leb_spec t0 (clk 1%nat)); lia.
  - destruct (_ <? _); simpl; destruct (Z.leb_spec t0 (clk 1%nat)); lia.
Qed.

Lemma budget_check_allowed clk rl ip j t0 :
  counts_ok rl -> (forall i, t0 <= clk i <= t0 + from_secs 60) ->
  let '(r, rl') := check_allowed clk rl ip in
  budget t0 rl' j + (if decide (ip = j /\ r = Allowed) then 1 else 0) <= budget t0 rl j.
Proof.
  intros Hok Hclk. pose proof (check_allowed_counts clk rl ip Hok) as Hc.
  pose proof (check_allowed_frame clk rl ip) as [(Hp & _) _].
  pose proof (budget_window clk rl j t0 Hok Hclk) as Hb. cbv zeta in Hb.
  destruct (check_allowed clk rl ip) as [r rl']; simpl in Hp.
  destruct Hc as [(? & -> & Hm)|[Hm _]].
  - rewrite decide_False by (intros [_ ?]; done). unfold budget. rewrite Hm, Hp. lia.
  - destruct (decide (ip = j)) as [->|Hne].
    + revert Hb. generalize (budget t0 rl j). intros b Hb. unfold budget.
      rewrite Hm, lookup_insert_eq, Hp. simpl.
      destruct (decide (r = Allowed)); [rewrite decide_True by done | rewrite decide_False by tauto];
        destruct (Z.leb_spec t0 (window_start (window_entry clk rl j))); lia.
    + rewrite decide_False by tauto. unfold budget.
      rewrite Hm, lookup_insert_ne, Hp by done. lia.
Qed.

Lemma budget_cleanup now rl j t0 :
  counts_ok rl -> t0 <= now <= t0 + from_secs 60 ->
  budget t0 (cleanup now rl) j <= budget t0 rl j.
Proof.
  intros [Hper Hall] Hnow. unfold budget. simpl. rewrite map_lookup_filter.
  destruct (connection_counts rl !! j) as [e|] eqn:E; simpl; [|done].
  specialize (Hall _ _ E). simpl in Hall.
  case_guard as Hg; simpl; [done|]. unfold elapsed, sat_sub, from_secs, nanos_per_sec in *.
  destruct (Z.leb_spec t0 (window_start e)); lia.
Qed.

Lemma budget_exec clk o s j t0 :
  counts_ok (limiter s) -> (forall i, t0 <= clk i <= t0 + from_secs 60) ->
  let '(r, s') := exec clk o s in
  budget t0 (limiter s') j
  + (if decide ((o, r) = (CheckAllowed j, Some Allowed)) then 1 else 0)
  <= budget t0 (limiter s) j.
Proof.
  intros Hok Hclk. destruct o; simpl; try (rewrite decide_False by done).
  - pose proof (budget_check_allowed clk (limiter s) ip j t0 Hok Hclk) as Hb.
    destruct (check_allowed clk (limiter s) ip) as [r rl']. simpl.
    destruct (decide (ip = j /\ r = Allowed)) as [[Hip Hr]|Hn]; [subst|].
    + by rewrite decide_True.
    + rewrite decide_False; [done | intros [= -> ->]; tauto].
  - unfold try_acquire_permit. destruct (_ <? _); simpl; unfold budget; simpl; lia.
  - destruct (_ <? _); simpl; unfold budget; simpl; lia.
  - unfold record_failed_auth, budget. cbv zeta. destruct (_ <=? _); simpl; lia.
  - unfold budget; simpl; lia.
  - unfold budget; simpl; lia.
  - unfold budget; simpl; lia.
  - pose proof (budget_cleanup (clk 0%nat) (limiter s) j t0 Hok (Hclk 0%nat)). lia.
Qed.

Lemma exec_all_budget sched : forall s j t0,
  counts_ok (limiter s) -> within t0 (from_secs 60) sched ->
  let '(log, s') := exec_all sched s in
  counts_ok (limiter s') /\ same_config (limiter s') (limiter s) /\
  budget t0 (limiter s') j + Z.of_nat (allowed_for j log) <= budget t0 (limiter s) j.
Proof.
  induction sched as [|[clk o] sched IH]; intros s j t0 Hok Hw; simpl.
  - split; [done|]. split; [done|]. unfold allowed_for. simpl. lia.
  - inversion Hw as [|? ? Hclk Hrest]; subst. simpl in Hclk.
    pose proof (budget_exec clk o s j t0 Hok Hclk) as Hb.
    pose proof (exec_counts_ok clk o s Hok) as Hok'.
    pose proof (exec_frame clk o s) as Hf.
    destruct (exec clk o s) as [r s1]. simpl in *.
    specialize (IH s1 j t0 Hok' Hrest).
    destruct (exec_all sched s1) as [log s2]. destruct IH as (H1 & H2 & H3).
    split; [done|]. split; [unfold same_config in *; intuition congruence|].
    unfold allowed_for in *. rewrite filter_cons.
    destruct (decide (_ = _)); simpl; lia.
Qed.

Lemma budget_nonneg t0 rl ip : counts_ok rl -> 0 <= budget t0 rl ip <= 2 * per_ip_per_minute rl.
Proof.
  intros [Hper Hall]. unfold budget.
  destruct (connection_counts rl !! ip) as [e|] eqn:E; [|lia].
  specialize (Hall _ _ E). simpl in Hall. destruct (_ <=? _); lia.
Qed.

(** Claim C25: over any minute, whatever the mix of
    operations on the limiter, an address is allowed at most twice its
    per-minute quota of connections (two fixed windows can overlap a minute),
    and from a limiter that has not seen the address, at most the quota. *)
Theorem allowed_per_minute s ip sched t0 :
  counts_ok (limiter s) -> within t0 (from_secs 60) sched ->
  let n := Z.of_nat (allowed_for ip (exec_all sched s).1) in
  n <= 2 * per_ip_per_minute (limiter s) /\
  (connection_counts (limiter s) !! ip = None -> n <= per_ip_per_minute (limiter s)).
Proof.
  intros Hok Hw. pose proof (exec_all_budget sched s ip t0 Hok Hw) as Hb.
  destruct (exec_all sched s) as [log s']. destruct Hb as (Hok' & (Hp & _) & Hb). simpl.
  pose proof (budget_nonneg t0 (limiter s') ip Hok').
  pose proof (budget_nonneg t0 (limiter s) ip Hok).
  split; [lia|]. intros Hnone. unfold budget in Hb at 2. rewrite Hnone in Hb. lia.
Qed.

(** whatever operations run, the permits in
    the semaphore and the permits held add up to the configured maximum, so the
    statistics report the permits held, never more than the maximum. *)
Theorem permits_conserved sched s :
  permits_ok s ->
  let s' := (exec_all sched s).2 in
  permits_ok s' /\ active_connections (stats (limiter s')) = held s' /\
  0 <= held s' <= max_concurrent (limiter s').
Proof.
  revert s. induction sched as [|[clk o] sched IH]; intros s Hok; simpl.
  - split; [done|]. unfold permits_ok, available_permits in *. simpl. lia.
  - pose proof (exec_permits_ok clk o s Hok) as Hok'.
    destruct (exec clk o s) as [r s1]. specialize (IH s1 Hok').
    by destruct (exec_all sched s1).
Qed.

(** ** Bans *)

Definition failures (clks : list Clock) (ip : IpAddr) (rl : ConnectionRateLimiter) :=
  foldl (fun rl clk => record_failed_auth clk rl ip) rl clks.

Lemma record_failed_auth_step clk rl ip t0 f :
  (forall i, t0 <= clk i <= t0 + from_secs 3600) ->
  failed_auth_counts rl !! ip = f ->
  (match f with Some e => t0 <= first_failure e /\ 0 <= fa_count e < u32_max | None => True end) ->
  let rl' := record_failed_auth clk rl ip in
  exists st, t0 <= st /\
    let n := from_option fa_count 0 f + 1 in
    failed_auth_counts rl' !! ip = Some {| fa_count := n; first_failure := st |} /\
    same_config rl' rl /\
    banned_ips rl' !! ip =
      (if max_failed_auth rl <=? n then Some (clk 0%nat) else banned_ips rl !! ip).
Proof.
  intros Hclk Hf Hw. unfold record_failed_auth. rewrite Hf.
  pose proof (Hclk 0%nat). pose proof (Hclk 1%nat).
  assert (Hno : forall st, t0 <= st -> (from_secs 3600 <? elapsed st (clk 1%nat)) = false).
  { intros st Hst. apply Z.ltb_ge. unfold elapsed, sat_sub, from_secs, nanos_per_sec in *. lia. }
  destruct f as [e|]; simpl.
  - destruct Hw as [Hst Hn]. rewrite Hno by done. exists (first_failure e). split; [done|].
    rewrite wrap_add_small by lia.
    destruct (_ <=? _); simpl; rewrite !lookup_insert_eq; done.
  - rewrite Hno by lia. exists (clk 0%nat). split; [lia|].
    change (wrap_add u32_max 0 1) with 1.
    destruct (_ <=? _); simpl; rewrite !lookup_insert_eq; done.
Qed.

Lemma failures_spec clks : forall clk rl ip t0,
  Forall (fun c => forall i, t0 <= c i <= t0 + from_secs 3600) (clks ++ [clk]) ->
  Z.of_nat (length clks) < u32_max -> 
  failed_auth_counts rl !! ip = None ->
  let rl' := failures (clks ++ [clk]) ip rl in
  let n := Z.of_nat (length clks) + 1 in
  (exists st, t0 <= st /\
     failed_auth_counts rl' !! ip = Some {| fa_count := n; first_failure := st |}) /\
  same_config rl' rl /\
  banned_ips rl' !! ip =
    (if max_failed_auth rl <=? n then Some (clk 0%nat) else banned_ips rl !! ip).
Proof.
  induction clks as [|clk0 clks IH] using rev_ind; intros clk rl ip t0 Hall Hlen Hnone.
  - apply Forall_app in Hall as [_ Hlast]. inversion Hlast as [|? ? Hclk _]; subst.
    destruct (record_failed_auth_step clk rl ip t0 None Hclk Hnone I)
      as (st & Hst & Hs1 & Hs2 & Hs3). simpl in *. eauto.
  - rewrite length_app in *. simpl in Hlen.
    apply Forall_app in Hall as [Hall Hlast]. inversion Hlast as [|? ? Hclk _]; subst.
    specialize (IH clk0 rl ip t0 Hall ltac:(lia) Hnone).
    unfold failures in *. rewrite foldl_app. cbn [foldl].
    destruct IH as ((st & Hst & Hf) & Hcfg & Hb).
    set (rl1 := foldl _ rl _) in *.
    edestruct (record_failed_auth_step clk rl1 ip t0) as (st' & Hst' & Hs1 & Hs2 & Hs3);
      [done | exact Hf | simpl; lia|]. simpl in *.
    replace (Z.of_nat (length clks + 1) + 1) with (Z.of_nat (length clks) + 1 + 1) by lia.
    destruct Hcfg as (? & Hm & ? & ?). rewrite Hm in Hs3.
    split; [eauto|]. split; [unfold same_config in *; intuition congruence|].
    rewrite Hs3, Hb. repeat case_match; reflect_bools; done || lia.
Qed.

(** After [n] failed authentications of an
    address within an hour the address is banned from the last failure on when
    [n] reached [max_failed_auth], and its ban is untouched before; while the
    ban lasts [check_allowed] answers [Banned] with the time that remains. *)
Theorem lockout clks clk rl ip t0 :
  Forall (fun c => forall i, t0 <= c i <= t0 + from_secs 3600) (clks ++ [clk]) ->
  Z.of_nat (length clks) < u32_max ->
  failed_auth_counts rl !! ip = None ->
  let rl' := failures (clks ++ [clk]) ip rl in
  (Z.of_nat (length clks) + 1 < max_failed_auth rl ->
     banned_ips rl' !! ip = banned_ips rl !! ip) /\
  (max_failed_auth rl <= Z.of_nat (length clks) + 1 ->
     forall clk', clk 0%nat <= clk' 0%nat < clk 0%nat + ban_duration rl ->
     is_banned (clk' 0%nat) rl' ip = true /\
     check_allowed clk' rl' ip = (Banned (ban_duration rl - (clk' 0%nat - clk 0%nat)), rl')).
Proof.
  intros Hall Hlen Hnone.
  destruct (failures_spec clks clk rl ip t0 Hall Hlen Hnone) as (_ & (_ & _ & Hd & _) & Hb).
  cbv zeta in *. set (rl' := failures _ _ _) in *. split; intros Hn.
  - rewrite Hb. destruct (Z.leb_spec (max_failed_auth rl) (Z.of_nat (length clks) + 1)); [lia|done].
  - intros clk' Ht. rewrite (proj2 (Z.leb_le _ _)) in Hb by done.
    assert (elapsed (clk 0%nat) (clk' 0%nat) = clk' 0%nat - clk 0%nat) as He
      by (unfold elapsed, sat_sub; lia).
    unfold is_banned, check_allowed, check_ban. rewrite Hb, Hd, He.
    rewrite (proj2 (Z.ltb_lt _ _)) by lia. done.
Qed.

(** ** Cleanup *)

Lemma elapsed_mono since a b : a <= b -> elapsed since a <= elapsed since b.
Proof. unfold elapsed, sat_sub. lia. Qed.

Lemma cleanup_ban_remaining now t rl ip :
  now <= t -> ban_remaining t (cleanup now rl) ip = ban_remaining t rl ip.
Proof.
  intros Ht. unfold ban_remaining. simpl. rewrite map_lookup_filter.
  destruct (banned_ips rl !! ip) as [b|]; simpl; [|done].
  case_guard as Hg; simpl in *; [done|]. symmetry.
  pose proof (elapsed_mono b now t Ht).
  destruct (Z.ltb_spec (elapsed b t) (ban_duration rl)); [lia|done].
Qed.

Lemma is_banned_remaining t rl ip : is_banned t rl ip = bool_decide (is_Some (ban_remaining t rl ip)).
Proof.
  unfold is_banned, ban_remaining. destruct (banned_ips rl !! ip); simpl; [|done].
  by destruct (_ <? _).
Qed.

(** The answer of [check_allowed] from the ban that remains, the current
    window and the free permits. *)
Lemma check_allowed_answer clk rl ip :
  (check_allowed clk rl ip).1 =
  match ban_remaining (clk 0%nat) rl ip with
  | Some rem => Banned rem
  | None =>
      let e := window_entry clk rl ip in
      if per_ip_per_minute rl <=? cc_count e then
        RateLimited (from_option id (from_secs 1)
          (duration_checked_sub (from_secs 60) (elapsed (window_start e) (clk 3%nat))))
      else if concurrent_semaphore rl =? 0 then TooManyConnections else Allowed
  end.
Proof.
  unfold check_allowed, check_ban, ban_remaining.
  destruct (banned_ips rl !! ip) as [b|]; simpl.
  - destruct (_ <? _); [done|].
    change (window_entry clk (set_failed _ _) ip) with (window_entry clk rl ip). cbv zeta. simpl.
    destruct (_ <=? _); [done|]. by destruct (_ =? _).
  - destruct (_ <=? _); [done|]. by destruct (_ =? _).
Qed.

Lemma cleanup_window now clk rl ip :
  monotone_clock clk -> now <= clk 0%nat ->
  window_entry clk (cleanup now rl) ip = window_entry clk rl ip.
Proof.
  intros Hmono Hnow. unfold window_entry. simpl. rewrite map_lookup_filter.
  destruct (connection_counts rl !! ip) as [e|]; simpl; [|done].
  case_guard as Hg; simpl in *; [done|].
  pose proof (Hmono 0%nat 2%nat ltac:(lia)).
  pose proof (elapsed_mono (window_start e) now (clk 2%nat) ltac:(lia)).
  rewrite (proj2 (Z.ltb_lt _ (elapsed (window_start e) _)))
    by (unfold from_secs, nanos_per_sec in *; lia).
  by case_match.
Qed.

(** running [cleanup] changes no later
    answer: [check_allowed], [is_banned] and [ban_remaining] give the same
    results on the cleaned state as on the original, for every address. *)
Theorem cleanup_transparent now clk rl ip :
  monotone_clock clk -> now <= clk 0%nat ->
  (check_allowed clk (cleanup now rl) ip).1 = (check_allowed clk rl ip).1 /\
  is_banned (clk 0%nat) (cleanup now rl) ip = is_banned (clk 0%nat) rl ip /\
  ban_remaining (clk 0%nat) (cleanup now rl) ip = ban_remaining (clk 0%nat) rl ip.
Proof.
  intros Hmono Hnow.
  rewrite !check_allowed_answer, !is_banned_remaining, cleanup_ban_remaining,
    cleanup_window by done.
  done.
Qed.

Definition demo_ip : IpAddr := ipv4 100 64 0 7.

(** One call at an instant. *)
Definition at_time (t : Z) : Clock := fun _ => from_secs t.

(** A limiter that bans after two failures, for a quarter of an hour. *)
Definition small : ConnectionRateLimiter := new 10 2 (from_secs 900) 100.

(** [cleanup] does change what a later
    failure does.  An address is banned by two failures at time 0; after the
    ban has run out, one more failure does not ban it again when
    [check_allowed] saw the ban expire, but does when [cleanup] removed the ban
    first, because only [check_allowed] clears the failure count. *)
Theorem cleanup_keeps_failures_past_ban :
  let banned := failures [at_time 0; at_time 0] demo_ip small in
  let again rl :=
    is_banned (from_secs 1000)
      (record_failed_auth (at_time 1000) (check_allowed (at_time 1000) rl demo_ip).2 demo_ip)
      demo_ip in
  again banned = false /\ again (cleanup (from_secs 950) banned) = true.
Proof. vm_compute. done. Qed.

(** ** Witnesses *)

Definition demo_server : Server := {| limiter := default; held := 0 |}.
Definition demo_sched : list (Clock * Op) :=
  [(at_time 0, CheckAllowed demo_ip); (at_time 1, TryAcquire);
   (at_time 30, CheckAllowed demo_ip); (at_time 59, Cleanup)].

Lemma allowed_per_minute_witness :
  (allowed_for demo_ip (exec_all demo_sched demo_server).1 = 2%nat) /\
  Z.of_nat (allowed_for demo_ip (exec_all demo_sched demo_server).1) <= 10.
Proof.
  split; [by vm_compute|].
  refine (proj2 (allowed_per_minute demo_server demo_ip demo_sched 0 _ _) _).
  - split; [vm_compute; split; discriminate | apply map_Forall_empty].
  - repeat constructor; vm_compute; discriminate.
  - done.
Defined.

Lemma permits_conserved_witness :
  held (exec_all demo_sched demo_server).2 = 1 /\
  active_connections (stats (limiter (exec_all demo_sched demo_server).2)) = 1.
Proof.
  split; [by vm_compute|].
  rewrite (proj1 (proj2 (permits_conserved demo_sched demo_server
    ltac:(vm_compute; repeat split; discriminate)))).
  by vm_compute.
Defined.

Lemma lockout_witness :
  is_banned (from_secs 100) (failures [at_time 0; at_time 60] demo_ip small) demo_ip = true.
Proof.
  refine (proj1 (proj2 (lockout [at_time 0] (at_time 60) small demo_ip 0 _ _ _) _ (at_time 100) _)).
  - repeat constructor; vm_compute; discriminate.
  - by vm_compute.
  - done.
  - vm_compute; discriminate.
  - vm_compute; split; [discriminate | reflexivity].
Defined.

Lemma cleanup_transparent_witness :
  (check_allowed (at_time 1000)
     (cleanup (from_secs 950) (failures [at_time 0; at_time 0] demo_ip small)) demo_ip).1 = Allowed.
Proof.
  rewrite (proj1 (cleanup_transparent (from_secs 950) (at_time 1000)
    (failures [at_time 0; at_time 0] demo_ip small) demo_ip
    (const_clock_monotone _) ltac:(vm_compute; discriminate))).
  by vm_compute.
Defined.
