(* ===== verification/SshTypes.v ===== *)
(** * SSH types (omni-ssh/src/types.rs)

    The structs and enums the SSH components exchange, with their defaults.
    A [DateTime<Utc>] is a number of nanoseconds since the epoch. *)

From S2P Require Import Prelude.

Open Scope string_scope.
Open Scope list_scope.
Open Scope Z_scope.

Record NodeInfo : Type := {
  ni_id : string; ni_name : string; ni_virtual_ip : string;
  ni_tags : list string; ni_online : bool; ni_network_id : string }.

Record UserProfile : Type := { up_id : string; up_email : string; up_name : option string }.

(** Who is behind a VPN address (omni-ssh/src/server/mod.rs). *)
Record PeerIdentity : Type := { peer_node : NodeInfo; peer_user : UserProfile }.

Record SshPrincipal : Type := {
  node_id : option string; node_ip : option string; user_email : option string;
  network_id : option string; tag : option string; any : bool }.

Record TimeRange : Type := { tr_start : string; tr_end : string }.

Record TimeRestrictions : Type := {
  allowed_hours : option TimeRange; allowed_days : option (list string);
  timezone : string; override_with_approval : bool }.

Record RecordingFailureAction : Type := {
  reject_session_with_message : option string;
  terminate_session_with_message : option string }.

Record SshAction : Type := {
  accept : bool; reject : bool; message : option string;
  allow_agent_forwarding : bool; allow_local_port_forwarding : bool;
  allow_remote_port_forwarding : bool; allow_sftp : bool;
  session_duration : option Z; record_session : bool; recorders : list string;
  on_recording_failure : option RecordingFailureAction;
  hold_and_delegate : option string;
  allowed_commands : option (list string); blocked_commands : option (list string);
  allowed_paths : option (list string); read_only : bool;
  time_restrictions : option TimeRestrictions }.

Record SshRule : Type := {
  rule_id : string; principals : list SshPrincipal; ssh_users : gmap string string;
  action : SshAction; accept_env : list string; expires : option Z }.

Record SshPolicy : Type := { version : Z; updated_at : Z; rules : list SshRule }.

Inductive AuthResult : Type :=
| Accept (local_user : string) (action : SshAction)
| Reject (message : string)
| HoldAndDelegate (url : string).

Inductive SessionCommand : Type :=
| Shell
| Exec (command : string)
| Sftp.

Record RecordingConfig : Type := {
  enabled : bool; local_dir : option string; cloud_url : option string; chunk_size : Z }.

Definition default_timezone : string := "UTC".
Definition default_chunk_size : Z := 65536.

Definition SshPrincipal_default : SshPrincipal :=
  {| node_id := None; node_ip := None; user_email := None; network_id := None;
     tag := None; any := false |}.

Definition SshAction_default : SshAction := {|
  accept := false; reject := false; message := None;
  allow_agent_forwarding := false; allow_local_port_forwarding := false;
  allow_remote_port_forwarding := false; allow_sftp := true;
  session_duration := None; record_session := false; recorders := [];
  on_recording_failure := None; hold_and_delegate := None;
  allowed_commands := None;
  blocked_commands := Some ["^rm\s+-rf"; "^rm\s+.*-rf"; "^shutdown"; "^reboot"; "^halt";
    "^poweroff"; "^dd\s+if="; "^mkfs"; "^format"; "^fdisk"; "^parted"];
  allowed_paths := None; read_only := false; time_restrictions := None |}.

(** [SshAction { accept, reject, message, ..Default::default() }]. *)
Definition action_verdict (acc rej : bool) (msg : option string) : SshAction := {|
  accept := acc; reject := rej; message := msg;
  allow_agent_forwarding := allow_agent_forwarding SshAction_default;
  allow_local_port_forwarding := allow_local_port_forwarding SshAction_default;
  allow_remote_port_forwarding := allow_remote_port_forwarding SshAction_default;
  allow_sftp := allow_sftp SshAction_default;
  session_duration := session_duration SshAction_default;
  record_session := record_session SshAction_default;
  recorders := recorders SshAction_default;
  on_recording_failure := on_recording_failure SshAction_default;
  hold_and_delegate := hold_and_delegate SshAction_default;
  allowed_commands := allowed_commands SshAction_default;
  blocked_commands := blocked_commands SshAction_default;
  allowed_paths := allowed_paths SshAction_default;
  read_only := read_only SshAction_default;
  time_restrictions := time_restrictions SshAction_default |}.

Definition RecordingConfig_default : RecordingConfig :=
  {| enabled := false; local_dir := None; cloud_url := None; chunk_size := default_chunk_size |}.

Definition SshPolicy_new (now : Z) : SshPolicy := {| version := 0; updated_at := now; rules := [] |}.

Definition SshPolicy_deny_all (now : Z) : SshPolicy := {|
  version := 0; updated_at := now;
  rules := [ {| rule_id := "default-deny";
                principals := [ {| node_id := None; node_ip := None; user_email := None;
                                   network_id := None; tag := None; any := true |} ];
                ssh_users := ∅;
                action := action_verdict false true (Some "SSH access denied by default policy");
                accept_env := []; expires := None |} ] |}.

Definition SshPolicy_default (now : Z) : SshPolicy := SshPolicy_deny_all now.
