(* ===== verification/Auth.v ===== *)
(** * Authentication and policy evaluation (omni-ssh/src/server/auth.rs)

    The authenticator asks a backend who is behind an address and which policy
    applies, takes the first matching rule, and turns its action into a
    verdict.  The backend is an interface (the trait [SshBackend]); the
    standalone implementation of it is in Standalone.v. *)

From Stdlib Require Import Ascii.
From S2P Require Import Prelude RustStr Net SshTypes.

Open Scope string_scope.
Open Scope list_scope.
Open Scope Z_scope.

(** The part of the trait [SshBackend] the authenticator calls. *)
Class SshBackend : Type := {
  is_omniedge_ip : IpAddr -> bool;
  who_is : IpAddr -> result string (option PeerIdentity);
  get_ssh_policy : result string SshPolicy
}.

Inductive Weekday : Type := Mon | Tue | Wed | Thu | Fri | Sat | Sun.

(** The fields of a UTC date and time, from the chrono crate. *)
Class UtcCalendar : Type := {
  weekday : Z -> Weekday;
  hour : Z -> Z;
  minute : Z -> Z;
  hour_range : forall t, 0 <= hour t < 24;
  minute_range : forall t, 0 <= minute t < 60
}.

Definition email_matches (pattern email : string) : bool :=
  if bool_decide (pattern = "*") then true
  else if starts_with pattern "*" && (1 <? String.length pattern)%nat
  then ends_with email (drop_str 1 pattern)
  else bool_decide (pattern = email).

(** One principal against the peer: any of its criteria suffices. *)
Definition principal_match (p : SshPrincipal) (peer : PeerIdentity) : bool :=
  if any p then true
  else if from_option (fun i => bool_decide (i = ni_id (peer_node peer))) false (node_id p) then true
  else if from_option (fun i => bool_decide (i = ni_virtual_ip (peer_node peer))) false (node_ip p)
  then true
  else if from_option (fun e => email_matches e (up_email (peer_user peer))) false (user_email p)
  then true
  else if from_option (fun n => bool_decide (n = ni_network_id (peer_node peer))) false (network_id p)
  then true
  else from_option (fun t => bool_decide (t ∈ ni_tags (peer_node peer))) false (tag p).

Fixpoint principal_matches (principals : list SshPrincipal) (peer : PeerIdentity) : bool :=
  match principals with
  | [] => false
  | p :: ps => if principal_match p peer then true else principal_matches ps peer
  end.

(** The loop over the rules; the clock is read at each rule that expires. *)
Fixpoint evaluate_rules (utc : Clock) (i : nat) (rs : list SshRule) (peer : PeerIdentity)
    (ssh_user : string) : SshAction * option SshRule :=
  match rs with
  | [] => (action_verdict false true (Some "No matching SSH policy rule"), None)
  | r :: rs =>
      if from_option (fun e => e <? utc i) false (expires r)
      then evaluate_rules utc (S i) rs peer ssh_user
      else if principal_matches (principals r) peer &&
              (bool_decide (is_Some (ssh_users r !! ssh_user)) ||
               bool_decide (is_Some (ssh_users r !! "*")))
      then (action r, Some r)
      else evaluate_rules utc (S i) rs peer ssh_user
  end.

Definition evaluate_policy (utc : Clock) (policy : SshPolicy) (peer : PeerIdentity)
    (ssh_user : string) : SshAction * option SshRule :=
  evaluate_rules utc 0 (rules policy) peer ssh_user.

Definition map_local_user (local ssh_user : string) : string :=
  if bool_decide (local = "=") then ssh_user else local.

Definition resolve_local_user (rule : option SshRule) (ssh_user : string) : result string string :=
  let none := Err ("No user mapping found for '" +:+ ssh_user +:+ "'") in
  match rule with
  | Some r =>
      match ssh_users r !! ssh_user with
      | Some local => Ok (map_local_user local ssh_user)
      | None => match ssh_users r !! "*" with
                | Some local => Ok (map_local_user local ssh_user)
                | None => none
                end
      end
  | None => none
  end.

(** [parse_time]: two fields of type [u32]; the arithmetic wraps. *)
Definition parse_time (time : string) : option Z :=
  match split ":" time with
  | [h; m] =>
      hour ← parse_uint u32_max h;
      minute ← parse_uint u32_max m;
      Some (wrap_add u32_max ((hour * 100) `mod` (u32_max + 1)) minute)
  | _ => None
  end.

Definition day_name (d : Weekday) : string :=
  match d with
  | Mon => "monday" | Tue => "tuesday" | Wed => "wednesday" | Thu => "thursday"
  | Fri => "friday" | Sat => "saturday" | Sun => "sunday"
  end.

(** [HHMM] numbers against a window; a window whose start is after its end
    spans midnight. *)
Definition hours_ok (current start end_ : Z) : bool :=
  if start <=? end_ then negb ((current <? start) || (end_ <? current))
  else negb ((current <? start) && (end_ <? current)).

Section Authenticator.
Context `{Cal : UtcCalendar}.

Definition check_time_restrictions (now : Z) (restrictions : TimeRestrictions) : bool :=
  let days_ok := match allowed_days restrictions with
    | Some days => existsb (fun d => bool_decide (to_lowercase d = day_name (weekday now))) days
    | None => true
    end in
  if negb days_ok then false
  else match allowed_hours restrictions with
    | Some h => hours_ok (hour now * 100 + minute now)
                  (from_option id 0 (parse_time (tr_start h)))
                  (from_option id 2400 (parse_time (tr_end h)))
    | None => true
    end.

Context `{Backend : SshBackend}.

(** The steps after the policy evaluation. *)
Definition verdict (now : Z) (act : SshAction) (matched_rule : option SshRule)
    (ssh_user : string) : result string AuthResult :=
  match hold_and_delegate act with
  | Some url => Ok (HoldAndDelegate url)
  | None =>
      let time_denied := match time_restrictions act with
        | Some r => if negb (check_time_restrictions now r) then Some r else None
        | None => None
        end in
      match time_denied with
      | Some r =>
          match (if override_with_approval r then hold_and_delegate act else None) with
          | Some url => Ok (HoldAndDelegate url)
          | None => Ok (Reject "Access not allowed at this time")
          end
      | None =>
          if reject act then Ok (Reject (from_option id "Access denied" (message act)))
          else if negb (accept act) then Ok (Reject "No matching rule")
          else local_user ← resolve_local_user matched_rule ssh_user;
               Ok (Accept local_user act)
      end
  end.

(** [authenticate]; [utc] gives the readings of the rule loop and [now] the
    one of the time restrictions. *)
Definition authenticate (utc : Clock) (now : Z) (src_ip : IpAddr) (ssh_user : string)
    : result string AuthResult :=
  if negb (is_omniedge_ip src_ip) then Ok (Reject "Connection not from OmniEdge network")
  else
    who ← who_is src_ip;
    match who with
    | None => Ok (Reject "Unknown peer")
    | Some peer =>
        policy ← get_ssh_policy;
        let '(act, matched_rule) := evaluate_policy utc policy peer ssh_user in
        verdict now act matched_rule ssh_user
    end.
End Authenticator.

(** ** Principals *)

(** The criteria of a principal, as a disjunction. *)
Definition principal_spec (p : SshPrincipal) (peer : PeerIdentity) : Prop :=
  any p = true \/ node_id p = Some (ni_id (peer_node peer)) \/
  node_ip p = Some (ni_virtual_ip (peer_node peer)) \/
  (exists pat, user_email p = Some pat /\ email_matches pat (up_email (peer_user peer)) = true) \/
  network_id p = Some (ni_network_id (peer_node peer)) \/
  (exists t, tag p = Some t /\ t ∈ ni_tags (peer_node peer)).

Lemma option_test {A} (f : A -> bool) (o : option A) :
  from_option f false o = true <-> exists a, o = Some a /\ f a = true.
Proof.
  destruct o; simpl; split; [eauto | intros (? & [= <-] & ?) | | intros (? & ? & ?)]; done.
Qed.

Lemma option_test_eq {A} `{EqDecision A} (b : A) (o : option A) :
  from_option (fun a => bool_decide (a = b)) false o = true <-> o = Some b.
Proof.
  rewrite option_test. setoid_rewrite bool_decide_eq_true.
  split; [intros (? & -> & ->); done | eauto].
Qed.

Lemma if_true_orb (a b : bool) : (if a then true else b) = a || b.
Proof. by destruct a. Qed.

Lemma principal_match_spec p peer : principal_match p peer = true <-> principal_spec p peer.
Proof.
  unfold principal_match, principal_spec.
  rewrite !if_true_orb, !orb_true_iff, !option_test_eq, !option_test.
  by setoid_rewrite bool_decide_eq_true.
Qed.

Lemma principal_matches_spec ps peer :
  principal_matches ps peer = true <-> exists p, p ∈ ps /\ principal_spec p peer.
Proof.
  induction ps as [|p ps IH]; simpl.
  - split; [done | intros (? & ?%elem_of_nil & _); done].
  - rewrite if_true_orb, orb_true_iff, principal_match_spec, IH. split.
    + intros [?|(q & ? & ?)]; [exists p | exists q]; rewrite elem_of_cons; auto.
    + intros (q & [->|?]%elem_of_cons & ?); eauto.
Qed.

(** An email pattern matches everything, a
    suffix when it starts with a star, and itself otherwise. *)
Theorem email_matches_spec pattern email :
  email_matches pattern email = true <->
  pattern = "*" \/
  (exists suffix pre, suffix <> "" /\ pattern = "*" +:+ suffix /\ email = pre +:+ suffix) \/
  ((forall suffix, pattern <> "*" +:+ suffix) /\ pattern = email).
Proof.
  unfold email_matches. case_bool_decide as Hstar; [naive_solver|].
  destruct (starts_with pattern "*") eqn:Hs; simpl.
  - apply starts_with_spec in Hs as [suffix ->].
    destruct suffix as [|c suffix]; [done|].
    change (drop_str 1 ("*" +:+ String c suffix)) with (String c suffix).
    rewrite length_append. simpl. rewrite ends_with_spec. split.
    + intros [pre ->]. right. left. by exists (String c suffix), pre.
    + intros [?|[(s & pre & _ & Heq & ->)|[Hno _]]]; [done| |by edestruct Hno].
      apply append_inv_l in Heq. subst. eauto.
  - rewrite bool_decide_eq_true. split.
    + intros ->. right. right. split; [|done]. intros s ->.
      by rewrite starts_with_app in Hs.
    + intros [?|[(s & pre & _ & -> & _)|[_ ?]]]; [done| |done].
      by rewrite starts_with_app in Hs.
Qed.

(** ** First match *)

Definition rule_live (utc : Clock) (i : nat) (r : SshRule) : Prop :=
  match expires r with Some e => utc i <= e | None => True end.

Definition user_mapping (r : SshRule) (ssh_user : string) : option string :=
  match ssh_users r !! ssh_user with
  | Some local => Some (map_local_user local ssh_user)
  | None => (fun local => map_local_user local ssh_user) <$> ssh_users r !! "*"
  end.

(** The rule says something about this peer asking for this user. *)
Definition rule_applies (r : SshRule) (peer : PeerIdentity) (ssh_user : string) : Prop :=
  (exists p, p ∈ principals r /\ principal_spec p peer) /\ is_Some (user_mapping r ssh_user).

(** The rule at position [i] of [rs] is the first live one that applies. *)
Definition first_match (utc : Clock) (rs : list SshRule) (peer : PeerIdentity)
    (ssh_user : string) (i : nat) (r : SshRule) : Prop :=
  rs !! i = Some r /\ rule_live utc i r /\ rule_applies r peer ssh_user /\
  forall j q, (j < i)%nat -> rs !! j = Some q ->
    ~ (rule_live utc j q /\ rule_applies q peer ssh_user).

Lemma user_mapping_keys r u :
  is_Some (user_mapping r u) <-> is_Some (ssh_users r !! u) \/ is_Some (ssh_users r !! "*").
Proof.
  unfold user_mapping. destruct (ssh_users r !! u) eqn:E; [split; eauto|].
  rewrite fmap_is_Some. split; [auto|]. intros [[? ?]|?]; done.
Qed.

Lemma rule_tests utc i r peer u :
  (from_option (fun e => e <? utc i) false (expires r) = false <-> rule_live utc i r) /\
  (principal_matches (principals r) peer &&
     (bool_decide (is_Some (ssh_users r !! u)) || bool_decide (is_Some (ssh_users r !! "*"))) = true
   <-> rule_applies r peer u).
Proof.
  unfold rule_live, rule_applies. split.
  - destruct (expires r); simpl; [by rewrite Z.ltb_ge | done].
  - by rewrite andb_true_iff, orb_true_iff, !bool_decide_eq_true, principal_matches_spec,
      user_mapping_keys.
Qed.

Lemma evaluate_rules_spec utc peer u rs : forall k,
  (exists i r, first_match (fun j => utc (k + j)%nat) rs peer u i r /\
     evaluate_rules utc k rs peer u = (action r, Some r)) \/
  ((forall i r, rs !! i = Some r ->
     ~ (rule_live utc (k + i) r /\ rule_applies r peer u)) /\
   evaluate_rules utc k rs peer u =
     (action_verdict false true (Some "No matching SSH policy rule"), None)).
Proof.
  induction rs as [|r rs IH]; intros k.
  - right. split; [|done]. intros i r. by rewrite lookup_nil.
  - cbn [evaluate_rules]. destruct (rule_tests utc k r peer u) as [Hlive Happ].
    assert (Hskip : ~ (rule_live utc k r /\ rule_applies r peer u) ->
      (exists i r0, first_match (fun j => utc (k + j)%nat) (r :: rs) peer u i r0 /\
         evaluate_rules utc (S k) rs peer u = (action r0, Some r0)) \/
      ((forall i r0, (r :: rs) !! i = Some r0 ->
         ~ (rule_live utc (k + i) r0 /\ rule_applies r0 peer u)) /\
       evaluate_rules utc (S k) rs peer u =
         (action_verdict false true (Some "No matching SSH policy rule"), None))).
    { intros Hno. destruct (IH (S k)) as [(i & r0 & (H1 & H2 & H3 & H4) & Heq)|[Hall Heq]].
      - left. exists (S i), r0. split; [|done]. split; [done|].
        unfold rule_live in *. rewrite Nat.add_succ_r. split; [done|]. split; [done|].
        intros [|j] q Hj Hq; simpl in Hq.
        + simplify_eq. by rewrite Nat.add_0_r.
        + rewrite Nat.add_succ_r. apply (H4 j q); [lia|done].
      - right. split; [|done]. intros [|i] r0 Hi; simpl in Hi.
        + simplify_eq. by rewrite Nat.add_0_r.
        + rewrite Nat.add_succ_r. by apply Hall. }
    destruct (from_option _ false (expires r)) eqn:E1.
    + apply Hskip. intros [Hl _]. apply Hlive in Hl. congruence.
    + destruct (_ && _) eqn:E2.
      * left. exists 0%nat, r. split; [|done]. split; [done|].
        unfold rule_live in *. rewrite Nat.add_0_r.
        split; [by apply Hlive|]. split; [by apply Happ|]. intros j q ?. lia.
      * apply Hskip. intros [_ Ha]. apply Happ in Ha. congruence.
Qed.

Lemma first_match_unique utc rs peer u i r j q :
  first_match utc rs peer u i r -> first_match utc rs peer u j q -> i = j /\ r = q.
Proof.
  intros (Hi & Li & Ai & Fi) (Hj & Lj & Aj & Fj).
  destruct (Nat.lt_trichotomy i j) as [Hlt|[->|Hlt]].
  - exfalso. by apply (Fj i r Hlt Hi).
  - split; [done|]. congruence.
  - exfalso. by apply (Fi j q Hlt Hj).
Qed.

Lemma evaluate_policy_cases utc policy peer u :
  (exists i r, first_match utc (rules policy) peer u i r /\
     evaluate_policy utc policy peer u = (action r, Some r)) \/
  ((forall i r, ~ first_match utc (rules policy) peer u i r) /\
     evaluate_policy utc policy peer u =
       (action_verdict false true (Some "No matching SSH policy rule"), None)).
Proof.
  unfold evaluate_policy.
  destruct (evaluate_rules_spec utc peer u (rules policy) 0) as [(i & r & Hf & ->)|[Hno ->]].
  - left. by exists i, r.
  - right. split; [|done]. intros i r (Hi & Hl & Ha & _). by destruct (Hno i r Hi).
Qed.

(** Policy evaluation is first match: it
    yields a rule exactly when that is the first rule of the policy that has
    not expired, has a principal matching the peer and maps the SSH user, and
    it denies by default exactly when there is no such rule. *)
Theorem evaluate_policy_first_match utc policy peer u act :
  (forall r, evaluate_policy utc policy peer u = (act, Some r) <->
     act = action r /\ exists i, first_match utc (rules policy) peer u i r) /\
  (evaluate_policy utc policy peer u = (act, None) <->
     act = action_verdict false true (Some "No matching SSH policy rule") /\
     forall i r, ~ first_match utc (rules policy) peer u i r).
Proof.
  destruct (evaluate_policy_cases utc policy peer u) as [(i & r & Hf & ->)|[Hno ->]]; split.
  - intros q. split.
    + intros [= <- <-]. eauto.
    + intros (-> & j & Hj). by destruct (first_match_unique _ _ _ _ _ _ _ _ Hf Hj) as [_ ->].
  - split; [done|]. intros [_ Hall]. by apply Hall in Hf.
  - intros q. split; [done|]. intros (_ & j & Hj). by apply Hno in Hj.
  - split; [|by intros [-> _]]. by intros [= <-].
Qed.

Lemma resolve_local_user_spec r u :
  resolve_local_user (Some r) u =
  match user_mapping r u with
  | Some l => Ok l
  | None => Err ("No user mapping found for '" +:+ u +:+ "'")
  end.
Proof.
  unfold resolve_local_user, user_mapping. destruct (ssh_users r !! u); [done|].
  by destruct (ssh_users r !! "*").
Qed.

(** ** Verdicts *)

Section Verdicts.
Context `{Cal : UtcCalendar} `{Backend : SshBackend}.

Definition time_ok (now : Z) (act : SshAction) : Prop :=
  match time_restrictions act with
  | Some r => check_time_restrictions now r = true
  | None => True
  end.

Lemma verdict_accept now act mr u lu a :
  verdict now act mr u = Ok (Accept lu a) <->
  hold_and_delegate act = None /\ time_ok now act /\ reject act = false /\
  accept act = true /\ a = act /\ resolve_local_user mr u = Ok lu.
Proof.
  unfold verdict, time_ok. destruct (hold_and_delegate act); [naive_solver|].
  destruct (time_restrictions act) as [r|];
    [destruct (check_time_restrictions now r); simpl; [|destruct (override_with_approval r); naive_solver]|];
    destruct (reject act); simpl; try naive_solver;
    destruct (accept act); simpl; try naive_solver;
    destruct (resolve_local_user mr u); simpl; unfold mret, result_ret; naive_solver.
Qed.

Lemma authenticate_accept_inv utc now ip u lu act :
  authenticate utc now ip u = Ok (Accept lu act) ->
  is_omniedge_ip ip = true /\
  exists peer policy r i,
    who_is ip = Ok (Some peer) /\ get_ssh_policy = Ok policy /\
    first_match utc (rules policy) peer u i r /\
    act = action r /\ hold_and_delegate act = None /\ time_ok now act /\
    reject act = false /\ accept act = true /\ user_mapping r u = Some lu.
Proof.
  unfold authenticate. destruct (is_omniedge_ip ip); simpl; [|naive_solver].
  destruct (who_is ip) as [[peer|]|]; simpl; [|naive_solver..].
  destruct get_ssh_policy as [policy|]; simpl; [|naive_solver].
  destruct (evaluate_policy_cases utc policy peer u) as [(i & r & Hf & ->)|[Hno ->]];
    rewrite verdict_accept; [|by intros (_ & _ & ? & _)]. rewrite resolve_local_user_spec.
  intros (H1 & H2 & H3 & H4 & -> & H5). split; [done|].
  exists peer, policy, r, i. destruct (user_mapping r u); naive_solver.
Qed.

(** Claim C1: a login is accepted, as a given local user
    with a given action, exactly when the source is a VPN address of a known
    peer and the first live matching rule of the policy accepts, does not
    reject nor delegate, has its time window open, carries that action and
    maps the SSH user to that local user. *)
Theorem authenticate_accept_iff utc now ip u lu act :
  authenticate utc now ip u = Ok (Accept lu act) <->
  is_omniedge_ip ip = true /\
  exists peer policy r i,
    who_is ip = Ok (Some peer) /\ get_ssh_policy = Ok policy /\
    first_match utc (rules policy) peer u i r /\
    act = action r /\ hold_and_delegate act = None /\ time_ok now act /\
    reject act = false /\ accept act = true /\ user_mapping r u = Some lu.
Proof.
  split; [apply authenticate_accept_inv|].
  intros (Hip & peer & policy & r & i & Hw & Hp & Hf & -> & H1 & H2 & H3 & H4 & H5).
  unfold authenticate. rewrite Hip, Hw. simpl. rewrite Hp. simpl.
  destruct (evaluate_policy_cases utc policy peer u) as [(j & q & Hf' & ->)|[Hno ->]].
  - destruct (first_match_unique _ _ _ _ _ _ _ _ Hf' Hf) as [_ ->].
    rewrite verdict_accept, resolve_local_user_spec, H5. done.
  - by apply Hno in Hf.
Qed.

(** [authenticate] fails only when the backend
    fails; in particular the missing-mapping error is never raised, because
    a rule only matches a user it maps. *)
Theorem authenticate_error_iff utc now ip u e :
  authenticate utc now ip u = Err e <->
  is_omniedge_ip ip = true /\
  (who_is ip = Err e \/ exists peer, who_is ip = Ok (Some peer) /\ get_ssh_policy = Err e).
Proof.
  unfold authenticate. destruct (is_omniedge_ip ip); simpl; [|naive_solver].
  destruct (who_is ip) as [[peer|]|]; simpl; [|naive_solver..].
  destruct get_ssh_policy as [policy|]; simpl; [|naive_solver].
  split; [|naive_solver]. intros Hv. exfalso.
  destruct (evaluate_policy_cases utc policy peer u) as [(i & r & Hf & E)|[_ E]]; rewrite E in Hv; [|done].
  destruct Hf as (_ & _ & [_ [l Hm]] & _). unfold verdict in Hv.
  rewrite resolve_local_user_spec, Hm in Hv.
  repeat (case_match; try discriminate).
Qed.

(** A matched action delegates exactly when it
    names an approval URL, whatever it says about rejection and time:
    [override_with_approval] never changes a verdict. *)
Theorem delegates_iff_url now act mr u url :
  verdict now act mr u = Ok (HoldAndDelegate url) <-> hold_and_delegate act = Some url.
Proof.
  unfold verdict. destruct (hold_and_delegate act) as [url'|]; [naive_solver|].
  split; [|done].
  repeat (case_match; try discriminate); destruct (resolve_local_user mr u); discriminate.
Qed.
End Verdicts.

(** ** Time windows *)

(** A time of day as the policies write it, zero padded. *)
Definition pad2 (n : Z) : string := if n <? 10 then "0" +:+ show_uint n else show_uint n.
Definition hhmm (h m : Z) : string := pad2 h +:+ String ":" (pad2 m).

Lemma parse_pad2 n : 0 <= n < 100 -> parse_uint u32_max (pad2 n) = Some n.
Proof.
  intros Hn. unfold pad2. destruct (n <? 10).
  - change (parse_uint u32_max ("0" +:+ show_uint n)) with (parse_digits u32_max 0 (show_uint n)).
    unfold show_uint. rewrite parse_digits_pretty; unfold u32_max; [f_equal|]; lia.
  - apply parse_show_uint. unfold u32_max. lia.
Qed.

Lemma pad2_no_colon n : no_char ":" (pad2 n).
Proof.
  unfold pad2. destruct (n <? 10); [rewrite append_cons, append_nil_l; apply no_char_cons|];
    [split; [done|]|]; by apply show_uint_no_char.
Qed.

Lemma parse_time_hhmm h m :
  0 <= h < 24 -> 0 <= m < 60 -> parse_time (hhmm h m) = Some (h * 100 + m).
Proof.
  intros Hh Hm. unfold parse_time, hhmm.
  rewrite split_app, (split_no_char _ (pad2 m)) by apply pad2_no_colon.
  rewrite !parse_pad2 by lia. simpl. unfold u32_max.
  rewrite Z.mod_small by lia. rewrite wrap_add_small by lia. done.
Qed.

Definition minute_of_day `{UtcCalendar} (now : Z) : Z := hour now * 60 + minute now.

(** with no day list, a window written as
    zero-padded times admits exactly the minutes of the UTC day between its two
    ends, the ends included, and wraps over midnight when it starts after it
    ends; the [timezone] field plays no part. *)
Theorem time_window_spec `{UtcCalendar} now h1 m1 h2 m2 tz ov :
  0 <= h1 < 24 -> 0 <= m1 < 60 -> 0 <= h2 < 24 -> 0 <= m2 < 60 ->
  let s := h1 * 60 + m1 in
  let e := h2 * 60 + m2 in
  let t := minute_of_day now in
  check_time_restrictions now
    {| allowed_hours := Some {| tr_start := hhmm h1 m1; tr_end := hhmm h2 m2 |};
       allowed_days := None; timezone := tz; override_with_approval := ov |} = true <->
  (if decide (s <= e) then s <= t <= e else s <= t \/ t <= e).
Proof.
  intros Hh1 Hm1 Hh2 Hm2. unfold check_time_restrictions, minute_of_day, hours_ok. simpl.
  rewrite !parse_time_hhmm by done. simpl.
  pose proof (hour_range now). pose proof (minute_range now).
  destruct (Z.leb_spec (h1 * 100 + m1) (h2 * 100 + m2));
    [rewrite decide_True by lia | rewrite decide_False by lia];
    rewrite negb_true_iff, ?orb_false_iff, ?andb_false_iff, !Z.ltb_ge; lia.
Qed.

(** ** Witnesses *)

(** A calendar counted from the epoch, which was a Thursday. *)
Definition epoch_weekday (t : Z) : Weekday :=
  match (t / (86400 * nanos_per_sec) + 4) `mod` 7 with
  | 0 => Sun | 1 => Mon | 2 => Tue | 3 => Wed | 4 => Thu | 5 => Fri | _ => Sat
  end.

#[export] Instance epoch_calendar : UtcCalendar := {|
  weekday := epoch_weekday;
  hour t := (t / (3600 * nanos_per_sec)) `mod` 24;
  minute t := (t / (60 * nanos_per_sec)) `mod` 60;
  hour_range t := Z.mod_pos_bound _ 24 ltac:(lia);
  minute_range t := Z.mod_pos_bound _ 60 ltac:(lia) |}.

Definition demo_peer : PeerIdentity := {|
  peer_node := {| ni_id := "node-1"; ni_name := "arm"; ni_virtual_ip := "100.64.0.7";
                  ni_tags := ["tag:servers"]; ni_online := true; ni_network_id := "net-1" |};
  peer_user := {| up_id := "u1"; up_email := "ann@example.com"; up_name := None |} |}.

Definition demo_rule : SshRule := {|
  rule_id := "r1";
  principals := [ {| node_id := None; node_ip := None; user_email := Some "*@example.com";
                     network_id := None; tag := None; any := false |} ];
  ssh_users := {[ "root" := "admin"; "*" := "=" ]};
  action := action_verdict true false None; accept_env := []; expires := None |}.

Definition demo_backend : SshBackend := {|
  is_omniedge_ip := fun _ => true;
  who_is := fun _ => Ok (Some demo_peer);
  get_ssh_policy := Ok {| version := 1; updated_at := 0; rules := [demo_rule] |} |}.

Lemma authenticate_error_iff_witness :
  @authenticate epoch_calendar
    {| is_omniedge_ip := fun _ => true; who_is := fun _ => Err "no such host";
       get_ssh_policy := Err "offline" |} (fun _ => 0) 0 (V4 0) "root" = Err "no such host".
Proof. apply authenticate_error_iff. split; [done|]. by left. Defined.

Example demo_login :
  @authenticate epoch_calendar demo_backend (fun _ => 0) 0 (V4 0) "root" =
    Ok (Accept "admin" (action demo_rule)) /\
  @authenticate epoch_calendar demo_backend (fun _ => 0) 0 (V4 0) "bob" =
    Ok (Accept "bob" (action demo_rule)).
Proof. by vm_compute. Qed.

Lemma time_window_spec_witness :
  check_time_restrictions (from_secs (23 * 3600))
    {| allowed_hours := Some {| tr_start := "22:00"; tr_end := "06:30" |};
       allowed_days := None; timezone := "Asia/Tokyo"; override_with_approval := false |} = true.
Proof.
  apply (time_window_spec (from_secs (23 * 3600)) 22 0 6 30); [lia..|].
  vm_compute. left. discriminate.
Defined.
