(* ===== verification/CommandFilter.v ===== *)
(** * Command filtering (omni-ssh/src/server/command_filter.rs)

    A filter decides which commands a session may run and in which directories.
    Regular expressions are the regex crate's: an interface. *)

From Stdlib Require Import Ascii.
From S2P Require Import Prelude RustStr SshTypes.

Open Scope string_scope.
Open Scope list_scope.
Open Scope Z_scope.

(** The regex crate: compiling a pattern, and searching for a match. *)
Class RegexEngine : Type := {
  Regex : Type;
  Regex_new : string -> option Regex;
  is_match : Regex -> string -> bool
}.

Inductive CommandFilterResult : Type :=
| Allowed
| Blocked (reason : string)
| PathNotAllowed (path : string)
| ReadOnlyViolation.

#[global] Instance CommandFilterResult_eq_dec : EqDecision CommandFilterResult.
Proof. solve_decision. Defined.

Definition write_indicators : list string :=
  ["rm "; "rm" +:+ String "009" ""; "rmdir"; "unlink"; "> "; ">> ";
   "mv "; "mv" +:+ String "009" ""; "cp "; "cp" +:+ String "009" ""; "touch "; "mkdir";
   "chmod"; "chown"; "chgrp"; "nano "; "vim "; "vi "; "emacs "; "ed ";
   "echo "; "tee "; "dd "; "install "; "rsync ";
   "apt "; "apt-get "; "yum "; "dnf "; "pacman "; "brew "; "pip "; "npm "; "cargo ";
   "systemctl start"; "systemctl stop"; "systemctl restart"; "systemctl enable";
   "systemctl disable"; "service "; "mkfs"; "fdisk"; "parted"; "format"; "mount"; "umount"].

Definition is_write_command (command : string) : bool :=
  existsb (contains (to_lowercase command)) write_indicators.

Section Filter.
Context `{RegexEngine}.

Record CompiledPattern : Type := { regex : Regex; original : string }.

Record CommandFilter : Type := {
  allowed_patterns : option (list CompiledPattern);
  blocked_patterns : option (list CompiledPattern);
  filter_allowed_paths : option (list string);
  filter_read_only : bool }.

Definition compile (p : string) : option CompiledPattern :=
  (fun r => {| regex := r; original := p |}) <$> Regex_new p.

(** Patterns that do not compile are dropped. *)
Definition compile_all (ps : list string) : list CompiledPattern := omap compile ps.

Definition new (action : SshAction) : CommandFilter := {|
  allowed_patterns := option_map compile_all (allowed_commands action);
  blocked_patterns := option_map compile_all (blocked_commands action);
  filter_allowed_paths := allowed_paths action;
  filter_read_only := read_only action |}.

Definition allow_all : CommandFilter := {|
  allowed_patterns := None; blocked_patterns := None;
  filter_allowed_paths := None; filter_read_only := false |}.

Definition block_all : CommandFilter := {|
  allowed_patterns := Some []; blocked_patterns := None;
  filter_allowed_paths := None; filter_read_only := false |}.

(** The built-in filter; [None] when a built-in pattern does not compile
    (the code unwraps). *)
Definition default : option CommandFilter :=
  ps ← mapM compile ["^rm\s+-rf\s*/"; "^rm\s+.*-rf\s*/"; "^shutdown"; "^reboot"; "^halt";
                     "^poweroff"; "^mkfs"; "^dd\s+if="];
  Some {| allowed_patterns := None; blocked_patterns := Some ps;
          filter_allowed_paths := None; filter_read_only := false |}.

Fixpoint first_blocked (patterns : list CompiledPattern) (command : string)
    : option CompiledPattern :=
  match patterns with
  | [] => None
  | p :: ps => if is_match (regex p) command then Some p else first_blocked ps command
  end.

Definition check_command (f : CommandFilter) (command : string) : CommandFilterResult :=
  match (ps ← blocked_patterns f; first_blocked ps command) with
  | Some p => Blocked ("Command matches blocked pattern: " +:+ original p)
  | None =>
      let not_listed := match allowed_patterns f with
        | Some ps => negb (existsb (fun p => is_match (regex p) command) ps)
        | None => false
        end in
      if not_listed then Blocked "Command not in allowed list"
      else if filter_read_only f && is_write_command command then ReadOnlyViolation
      else Allowed
  end.

Definition path_allowed (path allowed : string) : bool :=
  let allowed_normalized := trim_end_matches "/" allowed in
  starts_with path allowed_normalized
  || starts_with path (allowed_normalized +:+ "/")
  || bool_decide (path = allowed_normalized).

Definition check_path (f : CommandFilter) (path : string) : CommandFilterResult :=
  match filter_allowed_paths f with
  | Some paths => if existsb (path_allowed path) paths then Allowed else PathNotAllowed path
  | None => Allowed
  end.

Definition is_read_only (f : CommandFilter) : bool := filter_read_only f.

(** Appending to an optional list, created when absent. *)
Definition push_opt {A} (l : option (list A)) (x : A) : option (list A) :=
  match l with Some l => Some (push l x) | None => Some [x] end.

Definition add_blocked_pattern (f : CommandFilter) (pattern : string) : option CommandFilter :=
  compiled ← compile pattern;
  Some {| allowed_patterns := allowed_patterns f;
          blocked_patterns := push_opt (blocked_patterns f) compiled;
          filter_allowed_paths := filter_allowed_paths f;
          filter_read_only := filter_read_only f |}.

Definition add_allowed_pattern (f : CommandFilter) (pattern : string) : option CommandFilter :=
  compiled ← compile pattern;
  Some {| allowed_patterns := push_opt (allowed_patterns f) compiled;
          blocked_patterns := blocked_patterns f;
          filter_allowed_paths := filter_allowed_paths f;
          filter_read_only := filter_read_only f |}.

Definition add_allowed_path (f : CommandFilter) (path : string) : CommandFilter := {|
  allowed_patterns := allowed_patterns f; blocked_patterns := blocked_patterns f;
  filter_allowed_paths := push_opt (filter_allowed_paths f) path;
  filter_read_only := filter_read_only f |}.

(** ** What is allowed *)

Definition some_matches (ps : list CompiledPattern) (command : string) : Prop :=
  exists p, p ∈ ps /\ is_match (regex p) command = true.

(** The decision as a specification: no blocked pattern matches, an allow
    list (when there is one) matches, and read-only sessions do not write. *)
Definition command_ok (f : CommandFilter) (command : string) : Prop :=
  (forall ps, blocked_patterns f = Some ps -> ~ some_matches ps command) /\
  (forall ps, allowed_patterns f = Some ps -> some_matches ps command) /\
  (filter_read_only f = true -> is_write_command command = false).

Lemma first_blocked_spec ps c :
  match first_blocked ps c with
  | Some p => exists pre post, ps = pre ++ p :: post /\ is_match (regex p) c = true /\
                forall q, q ∈ pre -> is_match (regex q) c = false
  | None => ~ some_matches ps c
  end.
Proof.
  unfold some_matches. induction ps as [|p ps IH]; simpl.
  - intros (q & Hq & _). by apply elem_of_nil in Hq.
  - destruct (is_match (regex p) c) eqn:E.
    + exists [], ps. split; [done|]. split; [done|]. by intros q ?%elem_of_nil.
    + destruct (first_blocked ps c) as [q|].
      * destruct IH as (pre & post & -> & Hq & Hpre). exists (p :: pre), post.
        split; [done|]. split; [done|]. intros r [->|Hr]%elem_of_cons; auto.
      * intros (q & [->|Hq]%elem_of_cons & Hm); [congruence|]. eauto.
Qed.

Lemma existsb_some_matches ps c :
  existsb (fun p => is_match (regex p) c) ps = true <-> some_matches ps c.
Proof. apply existsb_elem_of. Qed.

Lemma check_command_allowed f c : check_command f c = Allowed <-> command_ok f c.
Proof.
  unfold check_command, command_ok.
  destruct (blocked_patterns f) as [bs|] eqn:Eb; simpl;
    [pose proof (first_blocked_spec bs c) as Hb; destruct (first_blocked bs c) as [p|]|].
  1: { destruct Hb as (pre & post & -> & Hm & _). split; [done|]. intros [Hno _]. exfalso.
       apply (Hno _ eq_refl). exists p. split; [set_solver|done]. }
  all: destruct (allowed_patterns f) as [al|] eqn:Ea; simpl;
      [pose proof (existsb_some_matches al c) as Hal; destruct (existsb _ al); simpl|];
      destruct (filter_read_only f) eqn:Er; simpl; destruct (is_write_command c) eqn:Ew; simpl;
      naive_solver.
Qed.

(** A command is allowed exactly when it meets the
    specification of the filter; when it is not, the first reason in the
    order block list, allow list, read-only mode is reported. *)
Theorem check_command_spec f c :
  (check_command f c = Allowed <-> command_ok f c) /\
  (check_command f c = ReadOnlyViolation ->
     filter_read_only f = true /\ is_write_command c = true) /\
  (forall path, check_command f c <> PathNotAllowed path) /\
  (forall reason, check_command f c = Blocked reason ->
     (exists ps p, blocked_patterns f = Some ps /\ p ∈ ps /\ is_match (regex p) c = true /\
        reason = "Command matches blocked pattern: " +:+ original p) \/
     (reason = "Command not in allowed list" /\
      exists ps, allowed_patterns f = Some ps /\ ~ some_matches ps c)).
Proof.
  split; [apply check_command_allowed|]. unfold check_command.
  destruct (blocked_patterns f) as [bs|] eqn:Eb; simpl;
    [pose proof (first_blocked_spec bs c) as Hb; destruct (first_blocked bs c) as [p|]|].
  1: { destruct Hb as (pre & post & -> & Hm & _).
       repeat split; try done. intros reason [= <-]. left. exists (pre ++ p :: post), p. set_solver. }
  all: destruct (allowed_patterns f) as [al|] eqn:Ea; simpl;
      [pose proof (existsb_some_matches al c) as Hal; destruct (existsb _ al); simpl|];
      destruct (filter_read_only f) eqn:Er; simpl; destruct (is_write_command c) eqn:Ew; simpl;
      naive_solver.
Qed.

Lemma some_matches_push ps p c :
  some_matches (push ps p) c <-> some_matches ps c \/ is_match (regex p) c = true.
Proof. unfold some_matches, push. set_solver. Qed.

(** Adding a blocked pattern removes from the
    allowed commands exactly those the pattern matches; adding an allowed
    pattern to a filter without an allow list starts one. *)
Theorem add_patterns_spec f pattern r :
  Regex_new pattern = Some r ->
  exists fb fa,
    add_blocked_pattern f pattern = Some fb /\ add_allowed_pattern f pattern = Some fa /\
    forall c,
      (check_command fb c = Allowed <-> check_command f c = Allowed /\ is_match r c = false) /\
      (check_command fa c = Allowed <->
         (forall ps, blocked_patterns f = Some ps -> ~ some_matches ps c) /\
         (is_match r c = true \/ exists ps, allowed_patterns f = Some ps /\ some_matches ps c) /\
         (filter_read_only f = true -> is_write_command c = false)).
Proof.
  intros Hr. unfold add_blocked_pattern, add_allowed_pattern, compile. rewrite Hr. simpl.
  eexists _, _. split; [done|]. split; [done|]. intros c.
  rewrite !check_command_allowed. unfold command_ok; simpl. split.
  - destruct (blocked_patterns f) as [bs|] eqn:Eb; simpl.
    + split.
      * intros (H1 & H2 & H3). specialize (H1 _ eq_refl). rewrite some_matches_push in H1.
        simpl in H1. split; [split; [naive_solver|done]|].
        destruct (is_match r c); naive_solver.
      * intros [(H1 & H2 & H3) Hm]. split; [|done]. intros ps [= <-].
        rewrite some_matches_push. simpl. naive_solver congruence.
    + unfold some_matches. split.
      * intros (H1 & H2 & H3). split; [split; [done|done]|].
        destruct (is_match r c) eqn:E; [|done]. exfalso. apply (H1 _ eq_refl).
        eexists. split; [by apply list_elem_of_singleton|done].
      * intros [(H1 & H2 & H3) Hm]. split; [|done]. intros ps [= <-].
        intros (p & ->%list_elem_of_singleton & Hp). simpl in Hp. congruence.
  - destruct (allowed_patterns f) as [al|] eqn:Ea; simpl.
    + split.
      * intros (H1 & H2 & H3). specialize (H2 _ eq_refl).
        apply some_matches_push in H2. naive_solver.
      * intros (H1 & H2 & H3). split; [done|]. split; [|done]. intros ps [= <-].
        apply some_matches_push. naive_solver.
    + unfold some_matches. split.
      * intros (H1 & H2 & H3). split; [done|]. split; [|done].
        destruct (H2 _ eq_refl) as (p & ->%list_elem_of_singleton & Hp). auto.
      * intros (H1 & [Hm|(? & ? & _)] & H3); [|done]. split; [done|]. split; [|done].
        intros ps [= <-]. eexists. split; [by apply list_elem_of_singleton|done].
Qed.

(** A blocked pattern that does not compile
    is dropped without an error, so the filter behaves as if it had never
    been configured. *)
Theorem invalid_blocked_pattern_dropped pre p post act act' :
  Regex_new p = None ->
  blocked_commands act = Some (pre ++ p :: post) ->
  blocked_commands act' = Some (pre ++ post) ->
  allowed_commands act' = allowed_commands act ->
  read_only act' = read_only act ->
  forall c, check_command (new act) c = check_command (new act') c.
Proof.
  intros Hp Hb Hb' Ha Hr c. unfold new. rewrite Hb, Hb', Ha, Hr. simpl.
  unfold check_command, compile_all. simpl.
  rewrite !omap_app. cbn [omap list_omap]. unfold compile at 2. by rewrite Hp.
Qed.

(** ** Working directories *)

Lemma path_allowed_spec path a :
  path_allowed path a = true <-> exists rest, path = trim_end_matches "/" a +:+ rest.
Proof.
  unfold path_allowed. rewrite !orb_true_iff, !starts_with_spec, bool_decide_eq_true. split.
  - intros [[[t ->]|[t ->]]| ->]; [eauto | rewrite append_assoc; eauto |].
    exists "". by rewrite append_nil_r.
  - eauto.
Qed.

(** a directory is allowed exactly when an
    allowed entry, without its trailing slashes, is a textual prefix of it. *)
Theorem check_path_spec f path :
  check_path f path = Allowed <->
  (forall ps, filter_allowed_paths f = Some ps ->
     exists a rest, a ∈ ps /\ path = trim_end_matches "/" a +:+ rest).
Proof.
  unfold check_path. destruct (filter_allowed_paths f) as [ps|]; [|done].
  destruct (existsb (path_allowed path) ps) eqn:E.
  - split; [|done]. intros _ ? [= <-]. apply existsb_elem_of in E as (a & Ha & Hp).
    apply path_allowed_spec in Hp as [rest ->]. eauto.
  - split; [done|]. intros Hall. destruct (Hall _ eq_refl) as (a & rest & Ha & ->).
    rewrite existsb_false in E. specialize (E a Ha).
    assert (path_allowed (trim_end_matches "/" a +:+ rest) a = true) by (apply path_allowed_spec; eauto).
    congruence.
Qed.
End Filter.

(** ** Concrete filters *)

(** A small engine: a pattern that starts with a caret is a literal prefix, one
    that starts with a parenthesis does not compile, others are substrings. *)
Definition literal_engine : RegexEngine := {|
  Regex := string;
  Regex_new p := if starts_with p "(" then None else Some p;
  is_match p c := if starts_with p "^" then starts_with c (drop_str 1 p) else contains c p |}.

Definition read_only_filter : @CommandFilter literal_engine :=
  {| allowed_patterns := None; blocked_patterns := None;
     filter_allowed_paths := Some ["/home/user/"]; filter_read_only := true |}.

(** Read-only mode is a text search, and a
    redirection without a blank after it gets through, while printing a word
    does not. *)
Theorem read_only_bypass :
  check_command read_only_filter "cat a >b" = Allowed /\
  check_command read_only_filter "echo hello" = ReadOnlyViolation.
Proof. by vm_compute. Qed.

(** An allowed directory also admits the
    directories whose name merely starts with its name. *)
Theorem sibling_directory_allowed :
  check_path read_only_filter "/home/user2/secrets" = Allowed /\
  check_path read_only_filter "/home/user/../root" = Allowed /\
  check_path read_only_filter "/tmp" = PathNotAllowed "/tmp".
Proof. by vm_compute. Qed.

Lemma add_patterns_spec_witness :
  exists fb, add_blocked_pattern read_only_filter "^ls" = Some fb /\
    check_command fb "ls /" <> Allowed /\ check_command fb "pwd" = Allowed.
Proof.
  destruct (add_patterns_spec read_only_filter "^ls" "^ls" eq_refl) as (fb & fa & Hb & _ & Hc).
  exists fb. split; [done|]. split.
  - intros Ha. apply (proj1 (Hc "ls /")) in Ha as [_ Hm]. by vm_compute in Hm.
  - apply (proj1 (Hc "pwd")). by vm_compute.
Defined.

Lemma invalid_blocked_pattern_dropped_witness :
  let act b := {| accept := true; reject := false; message := None;
    allow_agent_forwarding := false; allow_local_port_forwarding := false;
    allow_remote_port_forwarding := false; allow_sftp := true; session_duration := None;
    record_session := false; recorders := []; on_recording_failure := None;
    hold_and_delegate := None; allowed_commands := None; blocked_commands := Some b;
    allowed_paths := None; read_only := false; time_restrictions := None |} in
  check_command (@new literal_engine (act ["(rm"])) "rm -rf /" = Allowed.
Proof.
  intros act.
  rewrite (@invalid_blocked_pattern_dropped literal_engine [] "(rm" [] (act ["(rm"]) (act []))
    by reflexivity.
  by vm_compute.
Defined.
