(* ===== verification/Standalone.v ===== *)
(** * Standalone backend (omni-ssh/src/standalone.rs)

    The backend that runs the SSH server without the VPN: it decides by
    address, knows the peers it was told about and makes a policy from its
    configuration.  It implements the interface of Auth.v; networks are the
    ipnet crate's, and the host keys are left aside. *)

From Stdlib Require Import Ascii.
From S2P Require Import Prelude RustStr Net SshTypes Auth.

Open Scope string_scope.
Open Scope list_scope.
Open Scope Z_scope.

(** Networks in CIDR notation (ipnet). *)
Class IpNetworks : Type := {
  IpNet : Type;
  net_contains : IpNet -> IpAddr -> bool;
  net_parse : string -> option IpNet }.

Section Standalone.
Context `{IpNetworks}.

Record StandaloneConfig : Type := {
  device_id : string; cfg_network_id : string; ssh_enabled : bool; allow_any_ip : bool;
  allowed_networks : list IpNet; allowed_ips : list IpAddr; host_key_path : option string;
  user_mapping : gmap string string; default_local_user : option string;
  allow_all_features : bool; custom_policy : option SshPolicy; log_events : bool }.

(** [uuid]: the text of a fresh UUID.  [None]: a network does not parse. *)
Definition StandaloneConfig_default (uuid : string) : option StandaloneConfig :=
  nets ← mapM net_parse ["10.0.0.0/8"; "172.16.0.0/12"; "192.168.0.0/16"; "127.0.0.0/8"];
  Some {| device_id := "standalone-" +:+ default "0000" (head (split "-" uuid));
          cfg_network_id := "standalone"; ssh_enabled := true; allow_any_ip := false;
          allowed_networks := nets; allowed_ips := []; host_key_path := None;
          user_mapping := ∅; default_local_user := None; allow_all_features := true;
          custom_policy := None; log_events := true |}.

Definition set_access (c : StandaloneConfig) (any : bool) nets ips (features : bool) : StandaloneConfig := {|
  device_id := device_id c; cfg_network_id := cfg_network_id c; ssh_enabled := ssh_enabled c;
  allow_any_ip := any; allowed_networks := nets; allowed_ips := ips;
  host_key_path := host_key_path c; user_mapping := user_mapping c;
  default_local_user := default_local_user c; allow_all_features := features;
  custom_policy := custom_policy c; log_events := log_events c |}.

Definition set_users (c : StandaloneConfig) mapping dflt : StandaloneConfig := {|
  device_id := device_id c; cfg_network_id := cfg_network_id c; ssh_enabled := ssh_enabled c;
  allow_any_ip := allow_any_ip c; allowed_networks := allowed_networks c; allowed_ips := allowed_ips c;
  host_key_path := host_key_path c; user_mapping := mapping;
  default_local_user := dflt; allow_all_features := allow_all_features c;
  custom_policy := custom_policy c; log_events := log_events c |}.

Definition permissive (uuid : string) : option StandaloneConfig :=
  c ← StandaloneConfig_default uuid; Some (set_access c true (allowed_networks c) (allowed_ips c) true).

Definition localhost_only (uuid : string) : option StandaloneConfig :=
  c ← StandaloneConfig_default uuid;
  net ← net_parse "127.0.0.0/8";
  ip ← parse_ip "::1";
  Some (set_access c false [net] [ip] (allow_all_features c)).

Definition for_network (uuid : string) (network : IpNet) : option StandaloneConfig :=
  c ← StandaloneConfig_default uuid;
  Some (set_access c false [network] (allowed_ips c) (allow_all_features c)).

Definition with_network (n : IpNet) (c : StandaloneConfig) : StandaloneConfig :=
  set_access c (allow_any_ip c) (push (allowed_networks c) n) (allowed_ips c) (allow_all_features c).
Definition with_ip (ip : IpAddr) (c : StandaloneConfig) : StandaloneConfig :=
  set_access c (allow_any_ip c) (allowed_networks c) (push (allowed_ips c) ip) (allow_all_features c).
Definition with_user_mapping (ssh_user local_user : string) (c : StandaloneConfig) : StandaloneConfig :=
  set_users c (<[ssh_user := local_user]> (user_mapping c)) (default_local_user c).
Definition with_default_user (user : string) (c : StandaloneConfig) : StandaloneConfig :=
  set_users c (user_mapping c) (Some user).

(** A peer of the network (omni-ssh/src/server/mod.rs). *)
Record PeerInfo : Type := {
  pi_name : string; vpn_ip : IpAddr; pi_online : bool; pi_device_id : option string }.

Record StandaloneSshBackend : Type := {
  config : StandaloneConfig; peers : list PeerInfo; connection_counter : Z }.

Definition new (c : StandaloneConfig) : StandaloneSshBackend := {|
  config := c; peers := []; connection_counter := 0 |}.

Definition set_peers (b : StandaloneSshBackend) ps : StandaloneSshBackend := {|
  config := config b; peers := ps; connection_counter := connection_counter b |}.

Definition other_ip (ip : IpAddr) (p : PeerInfo) : bool := negb (bool_decide (vpn_ip p = ip)).

Definition add_peer (peer : PeerInfo) (b : StandaloneSshBackend) : StandaloneSshBackend :=
  set_peers b (push (List.filter (other_ip (vpn_ip peer)) (peers b)) peer).
Definition remove_peer (ip : IpAddr) (b : StandaloneSshBackend) : StandaloneSshBackend :=
  set_peers b (List.filter (other_ip ip) (peers b)).
Definition clear_peers (b : StandaloneSshBackend) : StandaloneSshBackend := set_peers b [].

Definition is_ip_allowed (b : StandaloneSshBackend) (addr : IpAddr) : bool :=
  if allow_any_ip (config b) then true
  else if bool_decide (addr ∈ allowed_ips (config b)) then true
  else existsb (fun n => net_contains n addr) (allowed_networks (config b)).

Definition generate_identity (b : StandaloneSshBackend) (addr : IpAddr)
    : PeerIdentity * StandaloneSshBackend :=
  let conn_num := connection_counter b in
  ({| peer_node := {| ni_id := "standalone-node-" +:+ show_uint conn_num;
                      ni_name := "peer-" +:+ show_ip addr; ni_virtual_ip := show_ip addr;
                      ni_tags := ["standalone"]; ni_online := true;
                      ni_network_id := cfg_network_id (config b) |};
      peer_user := {| up_id := "standalone-user-" +:+ show_uint conn_num;
                      up_email := "user-" +:+ show_uint conn_num +:+ "@standalone.local";
                      up_name := Some ("Standalone User " +:+ show_uint conn_num) |} |},
   {| config := config b; peers := peers b; connection_counter := wrap_add u64_max conn_num 1 |}).

(** The wildcard entry is completed, not replaced. *)
Definition complete_mapping (c : StandaloneConfig) : gmap string string :=
  match user_mapping c !! "*" with
  | Some _ => user_mapping c
  | None => <["*" := default "=" (default_local_user c)]> (user_mapping c)
  end.

Definition standalone_action (features : bool) : SshAction := {|
  accept := true; reject := false; message := None;
  allow_agent_forwarding := features; allow_local_port_forwarding := features;
  allow_remote_port_forwarding := features; allow_sftp := features;
  session_duration := None; record_session := false; recorders := [];
  on_recording_failure := None; hold_and_delegate := None; allowed_commands := None;
  blocked_commands := None; allowed_paths := None; read_only := false; time_restrictions := None |}.

Definition generate_policy (now : Z) (b : StandaloneSshBackend) : SshPolicy :=
  match custom_policy (config b) with
  | Some custom => custom
  | None => {| version := 1; updated_at := now; rules := [ {|
      rule_id := "standalone-allow-all";
      principals := [ {| node_id := None; node_ip := None; user_email := None;
                         network_id := None; tag := None; any := true |} ];
      ssh_users := complete_mapping (config b);
      action := standalone_action (allow_all_features (config b));
      accept_env := ["LANG"; "LC_*"; "TERM"]; expires := None |} ] |}
  end.

Definition find_peer (f : PeerInfo -> bool) (b : StandaloneSshBackend) : option PeerInfo :=
  List.find f (peers b).

Definition peer_identity (b : StandaloneSshBackend) (addr : IpAddr) (p : PeerInfo) : PeerIdentity := {|
  peer_node := {| ni_id := default ("peer-" +:+ show_ip addr) (pi_device_id p);
                  ni_name := pi_name p; ni_virtual_ip := show_ip addr; ni_tags := [];
                  ni_online := pi_online p; ni_network_id := cfg_network_id (config b) |};
  peer_user := {| up_id := "user-" +:+ show_ip addr; up_email := pi_name p +:+ "@standalone.local";
                  up_name := Some (pi_name p) |} |}.

Definition who_is (b : StandaloneSshBackend) (addr : IpAddr) : option PeerIdentity * StandaloneSshBackend :=
  if negb (is_ip_allowed b addr) then (None, b)
  else match find_peer (fun p => bool_decide (vpn_ip p = addr)) b with
       | Some p => (Some (peer_identity b addr p), b)
       | None => let '(i, b) := generate_identity b addr in (Some i, b)
       end.

(** [eq_ignore_ascii_case]. *)
Fixpoint ascii_lowercase (s : string) : string :=
  match s with EmptyString => EmptyString | String a s => String (ascii_lower a) (ascii_lowercase s) end.
Definition eq_ignore_ascii_case (s t : string) : bool := bool_decide (ascii_lowercase s = ascii_lowercase t).

Definition resolve_peer_name (b : StandaloneSshBackend) (name : string) : option IpAddr :=
  match find_peer (fun p => eq_ignore_ascii_case (pi_name p) name) b with
  | Some p => Some (vpn_ip p)
  | None => vpn_ip <$> find_peer (fun p => contains (to_lowercase (pi_name p)) (to_lowercase name)) b
  end.

Definition list_peers (b : StandaloneSshBackend) : list PeerInfo := peers b.

(** ** The directory of peers *)

Inductive peer_op : Type := AddPeer (p : PeerInfo) | RemovePeer (ip : IpAddr) | ClearPeers.

Definition peer_step (b : StandaloneSshBackend) (o : peer_op) : StandaloneSshBackend :=
  match o with
  | AddPeer p => add_peer p b
  | RemovePeer ip => remove_peer ip b
  | ClearPeers => clear_peers b
  end.

(** What the directory promises: a partial map from addresses to peers. *)
Definition directory_step (d : IpAddr -> option PeerInfo) (o : peer_op) (ip : IpAddr)
    : option PeerInfo :=
  match o with
  | AddPeer p => if decide (vpn_ip p = ip) then Some p else d ip
  | RemovePeer ip' => if decide (ip' = ip) then None else d ip
  | ClearPeers => None
  end.

Definition at_ip (ip : IpAddr) (p : PeerInfo) : bool := bool_decide (vpn_ip p = ip).

Lemma other_ip_spec ip p : other_ip ip p = true <-> vpn_ip p <> ip.
Proof. unfold other_ip. by rewrite negb_true_iff, bool_decide_eq_false. Qed.

Lemma not_in_others ip ps : ip ∉ vpn_ip <$> List.filter (other_ip ip) ps.
Proof.
  intros (p & -> & Hp)%list_elem_of_fmap. apply list_elem_of_In, filter_In in Hp as [_ Hp].
  by apply other_ip_spec in Hp.
Qed.

Lemma others_nodup ip ps :
  NoDup (vpn_ip <$> ps) -> NoDup (vpn_ip <$> List.filter (other_ip ip) ps).
Proof.
  induction ps as [|p ps IH]; [done|]. rewrite fmap_cons. intros [Hp Hps]%NoDup_cons.
  cbn [List.filter]. destruct (other_ip ip p); [|by apply IH].
  rewrite fmap_cons. apply NoDup_cons. split; [|by apply IH].
  intros (q & Hq & Hin)%list_elem_of_fmap. apply Hp, list_elem_of_fmap. exists q.
  split; [done|]. apply list_elem_of_In. by apply list_elem_of_In, filter_In in Hin as [? _].
Qed.

Lemma find_others ip ip' ps :
  List.find (at_ip ip) (List.filter (other_ip ip') ps) =
  if decide (ip' = ip) then None else List.find (at_ip ip) ps.
Proof.
  unfold at_ip. induction ps as [|p ps IH]; [by case_decide|].
  cbn [List.filter List.find]. unfold other_ip at 1.
  case_bool_decide; cbn [negb]; [rewrite IH; subst|cbn [List.find]];
    repeat case_bool_decide; repeat case_decide; subst; done.
Qed.

Lemma find_app_one (f : PeerInfo -> bool) ps p :
  List.find f (ps ++ [p]) =
  match List.find f ps with Some q => Some q | None => if f p then Some p else None end.
Proof. induction ps as [|q ps IH]; [done|]. simpl. by destruct (f q). Qed.

(** The list holds the map [d], one entry for each address. *)
Definition holds (b : StandaloneSshBackend) (d : IpAddr -> option PeerInfo) : Prop :=
  NoDup (vpn_ip <$> peers b) /\ forall ip, find_peer (at_ip ip) b = d ip.

Lemma peer_step_holds b d o : holds b d -> holds (peer_step b o) (directory_step d o).
Proof.
  intros [Hn Hd]. unfold holds, find_peer in *. destruct o as [p|ip'|]; simpl.
  - unfold push. split.
    + rewrite fmap_app, NoDup_app. split; [by apply others_nodup|].
      split; [|apply NoDup_singleton]. intros ip Hip [->|[]%elem_of_nil]%elem_of_cons.
      by apply not_in_others in Hip.
    + intros ip. rewrite find_app_one, find_others. unfold at_ip at 2.
      case_decide; case_bool_decide; try done. rewrite Hd. by destruct (d ip).
  - split; [by apply others_nodup|]. intros ip. rewrite find_others. by case_decide.
  - split; [apply NoDup_nil_2|done].
Qed.

Lemma peer_steps_hold ops : forall b d,
  holds b d -> holds (foldl peer_step b ops) (foldl directory_step d ops).
Proof.
  induction ops as [|o ops IH]; intros b d Hb; [done|]. by apply IH, peer_step_holds.
Qed.

Lemma peer_steps_config ops : forall b,
  config (foldl peer_step b ops) = config b /\
  connection_counter (foldl peer_step b ops) = connection_counter b.
Proof.
  induction ops as [|o ops IH]; intros b; [done|]. simpl.
  destruct (IH (peer_step b o)) as [-> ->]. by destruct o.
Qed.

Lemma who_is_found b addr :
  who_is b addr =
  if is_ip_allowed b addr then
    match find_peer (at_ip addr) b with
    | Some p => (Some (peer_identity b addr p), b)
    | None => (Some (generate_identity b addr).1, (generate_identity b addr).2)
    end
  else (None, b).
Proof. unfold who_is. by destruct (is_ip_allowed b addr). Qed.

(** the list of peers implements a map from addresses to peers: after
    any sequence of additions, removals and clearings it has no address
    twice, and [who_is] answers, for an allowed address, the peer last added
    at it and not removed since, and else a fresh identity that advances the
    connection counter. *)
Theorem who_is_directory c ops addr :
  let b := foldl peer_step (new c) ops in
  NoDup (vpn_ip <$> list_peers b) /\
  who_is b addr =
    if is_ip_allowed (new c) addr then
      match foldl directory_step (fun _ => None) ops addr with
      | Some p => (Some (peer_identity (new c) addr p), b)
      | None => (Some (generate_identity (new c) addr).1,
                 {| config := c; peers := peers b; connection_counter := 1 |})
      end
    else (None, b).
Proof.
  intros b. destruct (peer_steps_hold ops (new c) (fun _ => None)) as [Hn Hd].
  { split; [apply NoDup_nil_2|done]. }
  destruct (peer_steps_config ops (new c)) as [Hc Hk]. fold b in Hn, Hd, Hc, Hk.
  split; [done|]. rewrite who_is_found, Hd. unfold is_ip_allowed, generate_identity, peer_identity.
  by rewrite Hc, Hk.
Qed.

(** ** The interface the authenticator asks, in a given state and at a given time *)

#[export] Instance standalone_backend (b : StandaloneSshBackend) (now : Z) : SshBackend := {|
  Auth.is_omniedge_ip := is_ip_allowed b;
  Auth.who_is := fun addr => Ok (who_is b addr).1;
  Auth.get_ssh_policy := Ok (generate_policy now b) |}.

(** The local user the configuration gives: the entry of the SSH user, else
    the wildcard entry, else the default user, else the same name. *)
Definition configured_user (c : StandaloneConfig) (ssh_user : string) : string :=
  let entry := match user_mapping c !! ssh_user with
               | Some l => l
               | None => match user_mapping c !! "*" with
                         | Some l => l
                         | None => default "=" (default_local_user c)
                         end
               end in
  map_local_user entry ssh_user.

Lemma complete_mapping_spec c r u :
  ssh_users r = complete_mapping c -> Auth.user_mapping r u = Some (configured_user c u).
Proof.
  intros Hr. unfold Auth.user_mapping, configured_user, complete_mapping in *. rewrite Hr.
  destruct (user_mapping c !! "*") eqn:E.
  - destruct (user_mapping c !! u); [done|]. by rewrite E.
  - destruct (decide (u = "*")) as [->|Hne].
    + by rewrite lookup_insert_eq, E.
    + rewrite lookup_insert_ne by done. destruct (user_mapping c !! u); [done|].
      by rewrite lookup_insert_eq.
Qed.

Lemma who_is_allowed b addr :
  is_ip_allowed b addr = true -> exists peer, (who_is b addr).1 = Some peer.
Proof. intros Hip. rewrite who_is_found, Hip. destruct (find_peer _ _); simpl; eauto. Qed.

(** Without a custom policy the standalone server accepts exactly the
    addresses its configuration allows, whatever user they ask for: the
    rule made from the configuration maps every SSH user, to the configured
    entry, and grants all features or none. *)
Theorem standalone_accepts `{UtcCalendar} b now utc now' addr u :
  custom_policy (config b) = None ->
  authenticate (Backend := standalone_backend b now) utc now' addr u =
  if is_ip_allowed b addr
  then Ok (Accept (configured_user (config b) u) (standalone_action (allow_all_features (config b))))
  else Ok (Reject "Connection not from OmniEdge network").
Proof.
  intros Hc. unfold authenticate. cbn [Auth.is_omniedge_ip Auth.who_is Auth.get_ssh_policy standalone_backend].
  destruct (is_ip_allowed b addr) eqn:Hip; [|done]. cbn [negb].
  destruct (who_is_allowed b addr Hip) as [peer ->]. cbn. unfold generate_policy. rewrite Hc.
  unfold evaluate_policy. cbn [rules evaluate_rules expires from_option].
  rewrite (proj2 (proj2 (rule_tests utc 0 _ peer u))).
  2:{ split; [eexists; split; [by apply list_elem_of_singleton|by left]|].
      by erewrite complete_mapping_spec. }
  unfold verdict. cbn [action hold_and_delegate time_restrictions reject accept standalone_action negb].
  by erewrite resolve_local_user_spec, complete_mapping_spec.
Qed.
End Standalone.

(** ** Witnesses *)

(** IPv4 networks, as the address and the length of the prefix. *)
#[local] Instance v4_networks : IpNetworks := {|
  IpNet := Z * Z;
  net_contains n addr :=
    match addr with
    | V4 a => Z.shiftr a (32 - n.2) =? Z.shiftr n.1 (32 - n.2)
    | V6 _ => false
    end;
  net_parse s :=
    match split "/" s with
    | [a; l] => match parse_ip a, parse_uint 32 l with
                | Some (V4 a), Some l => Some (a, l)
                | _, _ => None
                end
    | _ => None
    end |}.

Example demo_default :
  (fun c => (device_id c, allowed_networks c)) <$> StandaloneConfig_default "8e5d-11" =
  Some ("standalone-8e5d", [(167772160, 8); (2886729728, 12); (3232235520, 16); (2130706432, 8)]).
Proof. reflexivity. Qed.

Definition demo_config : StandaloneConfig := {|
  device_id := "standalone-8e5d"; cfg_network_id := "standalone"; ssh_enabled := true;
  allow_any_ip := false; allowed_networks := [(3232235520, 16)]; allowed_ips := [V6 1];
  host_key_path := None; user_mapping := {[ "root" := "admin" ]};
  default_local_user := Some "guest"; allow_all_features := true;
  custom_policy := None; log_events := true |}.

Lemma standalone_accepts_witness :
  @authenticate epoch_calendar (standalone_backend (new demo_config) 0) (fun _ => 0) 0
    (V4 3232235786) "bob" = Ok (Accept "guest" (standalone_action true)) /\
  @authenticate epoch_calendar (standalone_backend (new demo_config) 0) (fun _ => 0) 0
    (V4 134744072) "bob" = Ok (Reject "Connection not from OmniEdge network").
Proof.
  split.
  - exact (standalone_accepts (new demo_config) 0 (fun _ => 0) 0 (V4 3232235786) "bob" eq_refl).
  - exact (standalone_accepts (new demo_config) 0 (fun _ => 0) 0 (V4 134744072) "bob" eq_refl).
Defined.
