(* ===== verification/Paths.v ===== *)
(** * Unix paths

    The part of [std::path] the sources use, on the text of a path: components
    (repeated slashes and inner dots are skipped), [join], [strip_prefix("/")],
    [parent], [file_name] and the component-wise [starts_with]. *)

From Stdlib Require Import Ascii.
From S2P Require Import Prelude RustStr.

Open Scope string_scope.
Open Scope list_scope.
Open Scope Z_scope.

Inductive Component : Type :=
| RootDir
| CurDir
| ParentDir
| Normal (name : string).

#[global] Instance Component_eq_dec : EqDecision Component.
Proof. solve_decision. Defined.

Definition is_absolute (p : string) : bool := starts_with p "/".

(** Pieces between slashes that are not components. *)
Definition trivial_piece (s : string) : bool := bool_decide (s = "") || bool_decide (s = ".").

Definition piece_component (s : string) : option Component :=
  if trivial_piece s then None
  else Some (if bool_decide (s = "..") then ParentDir else Normal s).

Definition components (p : string) : list Component :=
  let pieces := split "/" p in
  let body := omap piece_component pieces in
  if is_absolute p then RootDir :: body
  else match pieces with
       | "." :: _ => CurDir :: body
       | _ => body
       end.

(** [Path::starts_with]: whole components. *)
Fixpoint comps_prefix (pre cs : list Component) : bool :=
  match pre, cs with
  | [], _ => true
  | c :: pre, d :: cs => bool_decide (c = d) && comps_prefix pre cs
  | _ :: _, [] => false
  end.
Definition path_starts_with (p base : string) : bool :=
  comps_prefix (components base) (components p).

(** [PathBuf::push] on a copy of the base. *)
Definition path_join (base p : string) : string :=
  if is_absolute p then p
  else if bool_decide (base = "") || ends_with base "/" then base +:+ p
  else base +:+ String "/" p.

Fixpoint drop_trivial (ps : list string) : list string :=
  match ps with
  | p :: ps' => if trivial_piece p then drop_trivial ps' else ps
  | [] => []
  end.
Definition drop_trivial_end (ps : list string) : list string := rev (drop_trivial (rev ps)).

(** [strip_prefix("/")] of an absolute path. *)
Definition strip_root (p : string) : string :=
  join "/" (drop_trivial (drop_trivial_end (split "/" p))).

(** The text before the body of a path and the pieces of the body, trailing
    slashes and dots removed. *)
Definition path_body (p : string) : string * list string :=
  if is_absolute p then ("/", drop_trivial_end (tail (split "/" p)))
  else match split "/" p with
       | "." :: ps => (".", drop_trivial_end ps)
       | ps => ("", drop_trivial_end ps)
       end.

(** Prefix text and pieces back to a path. *)
Definition path_text (prefix : string) (ps : list string) : string :=
  match ps with
  | [] => prefix
  | _ => if bool_decide (prefix = ".") then "./" +:+ join "/" ps else prefix +:+ join "/" ps
  end.

(** [Path::parent]. *)
Definition path_parent (p : string) : option string :=
  let '(prefix, ps) := path_body p in
  match ps with
  | [] => if bool_decide (prefix = ".") then Some "" else None
  | _ => Some (path_text prefix (drop_trivial_end (removelast ps)))
  end.

(** [Path::file_name]. *)
Definition file_name (p : string) : option string :=
  match last (path_body p).2 with
  | Some name => if bool_decide (name = "..") then None else Some name
  | None => None
  end.

(** The name before and after its last dot; a leading dot belongs to the name. *)
Definition split_at_dot (name : string) : option string * option string :=
  if bool_decide (name = "..") then (Some name, None)
  else match rfind_char "." name with
       | None | Some O => (Some name, None)
       | Some i => (Some (take_str i name), Some (drop_str (S i) name))
       end.

(** [Path::extension] and [Path::file_stem]. *)
Definition extension (p : string) : option string := name ← file_name p; (split_at_dot name).2.
Definition file_stem (p : string) : option string := name ← file_name p; (split_at_dot name).1.

(** The pieces behind the first [n] components of a body. *)
Fixpoint drop_components (n : nat) (ps : list string) : list string :=
  match n with
  | O => ps
  | S n => match drop_trivial ps with _ :: ps' => drop_components n ps' | [] => [] end
  end.

(** [Path::strip_prefix]. *)
Definition strip_prefix (p base : string) : option string :=
  if path_starts_with p base then
    Some (match length (components base), split "/" p with
          | O, _ => path_text (path_body p).1 (path_body p).2
          | S n, q :: ps =>
              let rest := if is_absolute p || bool_decide (q = ".") then drop_components n ps
                          else drop_components (S n) (q :: ps) in
              join "/" (drop_trivial (drop_trivial_end rest))
          | S _, [] => ""
          end)
  else None.

Example strip_prefix_examples :
  strip_prefix "/srv/a/b" "/srv" = Some "a/b" /\ strip_prefix "/srv//./a/b/" "/srv/" = Some "a/b" /\
  strip_prefix "episodes/e1" "episodes" = Some "e1" /\ strip_prefix "./e/x" "./e" = Some "x" /\
  strip_prefix "/srv2/a" "/srv" = None /\ strip_prefix "/srv" "/srv" = Some "" /\
  strip_prefix "a/b" "" = Some "a/b" /\ strip_prefix "/" "" = Some "/".
Proof. by vm_compute. Qed.
Example extension_examples :
  extension "/a/b.mcap" = Some "mcap" /\ extension "/a/.mcap" = None /\ file_stem "/a/b_metadata.json" = Some "b_metadata" /\
  extension "a.b/c" = None /\ extension "x." = Some "".
Proof. by vm_compute. Qed.

Example parent_examples :
  path_parent "/a/b//./c/" = Some "/a/b" /\ path_parent "/a" = Some "/" /\ path_parent "/" = None /\
  path_parent "./a" = Some "." /\ path_parent "." = Some "" /\ path_parent "a" = Some "" /\
  path_parent "" = None /\ path_parent "//a" = Some "/".
Proof. by vm_compute. Qed.
Example join_examples :
  path_join "/srv" (strip_root "//a/./b/") = "/srv/a/./b" /\ path_join "/srv/" "x" = "/srv/x" /\
  path_join "/srv" "/etc" = "/etc" /\ file_name "/a/.." = None /\ file_name "/a/b/" = Some "b".
Proof. by vm_compute. Qed.
Example starts_with_examples :
  path_starts_with "/srv/a" "/srv/" = true /\ path_starts_with "/srv2" "/srv" = false /\
  path_starts_with "/srv/a/../../x" "/srv" = true.
Proof. by vm_compute. Qed.

(** ** Lemmas *)

Lemma comps_prefix_spec pre cs : comps_prefix pre cs = true <-> exists rest, cs = pre ++ rest.
Proof.
  revert cs. induction pre as [|c pre IH]; intros cs; simpl.
  - split; [eauto | done].
  - destruct cs as [|d cs]; [split; [done | intros (? & ?); done]|].
    rewrite andb_true_iff, bool_decide_eq_true, IH. split.
    + intros [-> [rest ->]]. eauto.
    + intros [rest [= -> ->]]. eauto.
Qed.

Lemma path_starts_with_refl p : path_starts_with p p = true.
Proof. apply comps_prefix_spec. exists []. by rewrite app_nil_r. Qed.

Lemma split_app_sep c s t : split c (s +:+ String c t) = split c s ++ split c t.
Proof.
  induction s as [|a s IH].
  - rewrite append_nil_l. simpl. by rewrite bool_decide_true.
  - rewrite append_cons. simpl. rewrite IH. case_bool_decide; [done|].
    pose proof (split_not_nil c s). by destruct (split c s).
Qed.

(** A path whose body is a single name: no slash, and neither empty, a dot nor
    two dots. *)
Definition plain_name (n : string) : Prop :=
  no_char "/" n /\ n <> "" /\ n <> "." /\ n <> "..".

Lemma plain_name_piece n : plain_name n -> piece_component n = Some (Normal n).
Proof.
  intros (_ & H1 & H2 & H3). unfold piece_component, trivial_piece.
  by rewrite !bool_decide_false.
Qed.

Lemma plain_name_relative n : plain_name n -> is_absolute n = false.
Proof.
  intros (Hc & Hne & _). unfold is_absolute. destruct (starts_with n "/") eqn:E; [|done].
  apply starts_with_spec in E as [t ->]. rewrite append_cons in Hc.
  by apply no_char_cons in Hc as [? _].
Qed.

Lemma components_absolute u : components (String "/" u) = RootDir :: omap piece_component (split "/" u).
Proof.
  unfold components.
  replace (is_absolute (String "/" u)) with true by (symmetry; apply (starts_with_app "/" u)).
  done.
Qed.

(** Joining a relative path adds its components. *)
Lemma components_join base p :
  is_absolute base = true -> is_absolute p = false ->
  components (path_join base p) = components base ++ omap piece_component (split "/" p).
Proof.
  intros Habs Hp. unfold path_join. rewrite Hp, bool_decide_false by (intros ->; done). simpl.
  apply starts_with_spec in Habs as [t ->].
  rewrite !append_cons, !append_nil_l. destruct (ends_with (String "/" t) "/") eqn:Ee.
  - apply ends_with_spec in Ee as [v Hv]. destruct v as [|a v].
    + assert (t = "") as -> by (rewrite append_nil_l in Hv; congruence).
      by rewrite append_nil_l, !components_absolute.
    + assert (t = v +:+ String "/" "") as -> by (rewrite append_cons in Hv; congruence).
      rewrite !components_absolute, append_assoc, append_cons, append_nil_l, !split_app_sep, !omap_app.
      simpl. by rewrite app_nil_r.
  - by rewrite !components_absolute, split_app_sep, omap_app.
Qed.

(** Joining a plain name adds it as the last component. *)
Lemma components_join_plain base n :
  is_absolute base = true -> plain_name n ->
  components (path_join base n) = components base ++ [Normal n].
Proof.
  intros Habs Hn. rewrite components_join by (try done; by apply plain_name_relative).
  rewrite split_no_char by apply Hn. cbn. by rewrite plain_name_piece.
Qed.

Lemma last_elem_of {A} (l : list A) x : last l = Some x -> x ∈ l.
Proof. intros H. apply last_Some in H as [l' ->]. set_solver. Qed.

Lemma drop_trivial_subseteq ps p : p ∈ drop_trivial ps -> p ∈ ps.
Proof.
  induction ps as [|q ps IH]; simpl; [done|]. case_match; [|done].
  intros ?%IH. set_solver.
Qed.

Lemma drop_trivial_head ps p q : drop_trivial ps = p :: q -> trivial_piece p = false.
Proof.
  induction ps as [|r ps IH]; simpl; [done|]. destruct (trivial_piece r) eqn:E; [done|].
  by intros [= -> _].
Qed.

Lemma drop_trivial_end_last ps p : last (drop_trivial_end ps) = Some p -> trivial_piece p = false.
Proof.
  unfold drop_trivial_end. destruct (drop_trivial (rev ps)) as [|r q] eqn:E; [done|].
  simpl. rewrite last_snoc. intros [= ->]. by apply drop_trivial_head in E.
Qed.

Lemma drop_trivial_end_in ps p : p ∈ drop_trivial_end ps -> p ∈ ps.
Proof.
  unfold drop_trivial_end. intros H.
  rewrite list_elem_of_In, <- in_rev, <- list_elem_of_In in H.
  apply drop_trivial_subseteq in H. by rewrite list_elem_of_In, <- in_rev, <- list_elem_of_In in H.
Qed.

Lemma path_body_pieces p q : q ∈ (path_body p).2 -> q ∈ split "/" p.
Proof.
  unfold path_body. destruct (is_absolute p).
  - intros ?%drop_trivial_end_in. destruct (split "/" p); set_solver.
  - destruct (split "/" p) as [|x l] eqn:E; [done|].
    repeat case_match; simplify_eq/=; intros ?%drop_trivial_end_in; set_solver.
Qed.

Lemma path_body_last p q : last (path_body p).2 = Some q -> trivial_piece q = false.
Proof. unfold path_body. repeat case_match; simpl; first [done | apply drop_trivial_end_last]. Qed.

(** The file name of a path is a plain name. *)
Lemma file_name_plain p n : file_name p = Some n -> plain_name n.
Proof.
  unfold file_name. destruct (last (path_body p).2) as [q|] eqn:E; [|done].
  case_bool_decide; [done|]. intros [= <-].
  pose proof (path_body_last p q E) as Ht. unfold trivial_piece in Ht. reflect_bools.
  split; [|done]. apply last_elem_of, path_body_pieces in E.
  pose proof (split_no_char_all "/" p) as Hall. by eapply Forall_forall in Hall.
Qed.

Lemma is_absolute_join base p : is_absolute base = true -> is_absolute (path_join base p) = true.
Proof.
  unfold path_join. intros Hb. case_match eqn:Hp; [done|]. unfold is_absolute in *.
  apply starts_with_spec in Hb as [t ->]. case_match; rewrite append_assoc; apply starts_with_app.
Qed.

(** Joining the empty path only adds a trailing slash. *)
Lemma components_join_empty base :
  is_absolute base = true -> components (path_join base "") = components base.
Proof. intros Hb. rewrite components_join by done. simpl. by rewrite app_nil_r. Qed.

(** Text made of plain names survives [strip_root]. *)
Lemma drop_trivial_plain ns : Forall plain_name ns -> drop_trivial ns = ns.
Proof.
  intros Hn. destruct Hn as [|n ns (_ & H1 & H2 & _) _]; [done|]. simpl. unfold trivial_piece.
  by rewrite !bool_decide_false.
Qed.

Lemma drop_trivial_app_plain ns qs :
  ns <> [] -> Forall plain_name ns -> drop_trivial (ns ++ qs) = ns ++ qs.
Proof.
  intros Hne Hn. destruct Hn as [|n ns (_ & H1 & H2 & _) _]; [done|]. simpl. unfold trivial_piece.
  by rewrite !bool_decide_false.
Qed.

Lemma strip_root_plain ns :
  ns <> [] -> Forall plain_name ns -> strip_root (String "/" (join "/" ns)) = join "/" ns.
Proof.
  intros Hne Hn. unfold strip_root. f_equal.
  replace (split "/" (String "/" (join "/" ns))) with ("" :: ns).
  - unfold drop_trivial_end. simpl.
    rewrite drop_trivial_app_plain by (try apply Forall_rev; try done; by destruct ns using rev_ind; rewrite ?rev_app_distr).
    rewrite rev_app_distr, rev_involutive. simpl. by apply drop_trivial_plain.
  - symmetry. cbn [split]. rewrite bool_decide_true by done. f_equal. apply split_join; [done|].
    eapply Forall_impl; [exact Hn|]. by intros n [? _].
Qed.

Lemma join_plain_relative ns : Forall plain_name ns -> is_absolute (join "/" ns) = false.
Proof.
  intros Hn. destruct Hn as [|n ns Hp Hn]; [done|].
  pose proof (plain_name_relative n Hp) as Hr. destruct Hp as (_ & Hne & _).
  destruct n as [|a n]; [done|]. unfold is_absolute in *.
  assert (exists t, join "/" (String a n :: ns) = String a t) as [t ->].
  { destruct ns; simpl; eauto. }
  destruct (starts_with (String a t) "/") eqn:E; [|done].
  apply starts_with_spec in E as [u Hu]. rewrite append_cons in Hu. simplify_eq.
  by rewrite (starts_with_app "/" n : starts_with (String "/" n) "/" = true) in Hr.
Qed.
