(* ===== verification/Effects.v ===== *)
(** * Programs with effects

    Programs that make calls of a given kind to the system around them, how a
    system runs them, a weakest precondition over every reply the system may
    give, and the monad of programs with a state that may fail. *)

From S2P Require Import Prelude.

Inductive prog (E : Set -> Set) (A : Type) : Type :=
| Ret (a : A)
| Vis {R : Set} (c : E R) (k : R -> prog E A).
Arguments Ret {E A} a.
Arguments Vis {E A R} c k.

Fixpoint prog_bind {E A B} (m : prog E A) (f : A -> prog E B) : prog E B :=
  match m with
  | Ret a => f a
  | Vis c k => Vis c (fun r => prog_bind (k r) f)
  end.

(** Running a program against a system of any kind. *)
Section Run.
Context {E : Set -> Set} {W : Type} (sys : forall R : Set, E R -> W -> R * W).

Fixpoint run_prog {A} (m : prog E A) (w : W) : A * W :=
  match m with
  | Ret a => (a, w)
  | Vis c k => let '(r, w) := sys _ c w in run_prog (k r) w
  end.

Lemma run_bind {A B} (m : prog E A) (f : A -> prog E B) w :
  run_prog (prog_bind m f) w = let '(a, w') := run_prog m w in run_prog (f a) w'.
Proof.
  revert w. induction m as [a|R c k IH]; intros w; simpl; [done|]. by destruct (sys R c w).
Qed.
End Run.

(** ** Weakest preconditions

    [P] is what every call must satisfy, [L] what the replies are known to
    satisfy. *)
Section Wp.
Context {E : Set -> Set}.
Context (P : forall R : Set, E R -> Prop) (L : forall R : Set, E R -> R -> Prop).

Fixpoint wp {A} (m : prog E A) (Q : A -> Prop) : Prop :=
  match m with
  | Ret a => Q a
  | Vis c k => P _ c /\ forall r, L _ c r -> wp (k r) Q
  end.

Lemma wp_mono {A} (m : prog E A) (Q Q' : A -> Prop) :
  (forall a, Q a -> Q' a) -> wp m Q -> wp m Q'.
Proof.
  intros HQ. induction m as [a|R c k IH]; simpl; [auto|]. intros [Hp Hk]. eauto.
Qed.

Lemma wp_bind {A B} (m : prog E A) (f : A -> prog E B) (Q : B -> Prop) :
  wp m (fun a => wp (f a) Q) -> wp (prog_bind m f) Q.
Proof. induction m as [a|R c k IH]; simpl; [auto|]. intros [Hp Hk]. eauto. Qed.

Lemma wp_and {A} (m : prog E A) (Q Q' : A -> Prop) :
  wp m Q -> wp m Q' -> wp m (fun a => Q a /\ Q' a).
Proof. induction m as [a|R c k IH]; simpl; [auto|]. intros [? ?] [? ?]. eauto. Qed.

(** A system whose replies obey [L], and keeps an invariant on the calls that
    satisfy [P], keeps it over the whole program. *)
Lemma wp_run {W A} (sys : forall R : Set, E R -> W -> R * W) (I : W -> Prop)
    (m : prog E A) (Q : A -> Prop) w :
  (forall R c w, I w -> P R c -> L R c (sys R c w).1 /\ I (sys R c w).2) ->
  wp m Q -> I w -> Q (run_prog sys m w).1 /\ I (run_prog sys m w).2.
Proof.
  intros Hsys. revert w. induction m as [a|R c k IH]; simpl; intros w; [done|].
  intros [Hp Hk] Hw. destruct (Hsys R c w Hw Hp) as [Hl Hi].
  destruct (sys R c w) as [r w']. simpl in *. eauto.
Qed.
End Wp.

(** Weakening what is required of calls. *)
Lemma wp_weaken {E : Set -> Set} {A} (P P' : forall R : Set, E R -> Prop) L (m : prog E A) (Q Q' : A -> Prop) :
  (forall a, Q a -> Q' a) -> (forall (R : Set) (c : E R), P R c -> P' R c) ->
  wp P L m Q -> wp P' L m Q'.
Proof.
  intros HQ HP. induction m as [a|R c k IH]; simpl; [auto|]. intros [Hp Hk]. split; [auto|]. eauto.
Qed.

(** ** Programs with a state that may fail

    An error ends the computation and keeps the state it was raised in. *)

Definition SM (E : Set -> Set) (S X A : Type) : Type := S -> prog E (S * result X A).

#[global] Instance SM_ret E S X : MRet (SM E S X) := fun A a s => Ret (s, Ok a).
#[global] Instance SM_bind E S X : MBind (SM E S X) := fun A B f m s =>
  prog_bind (m s) (fun '(s, r) => match r with Ok a => f a s | Err e => Ret (s, Err e) end).

Section Stateful.
Context {E : Set -> Set} {S X : Type}.

Definition throw {A} (e : X) : SM E S X A := fun s => Ret (s, Err e).
Definition gets {A} (f : S -> A) : SM E S X A := fun s => Ret (s, Ok (f s)).
Definition modify (f : S -> S) : SM E S X unit := fun s => Ret (f s, Ok tt).
Definition call {R : Set} (c : E R) : SM E S X R := fun s => Vis c (fun r => Ret (s, Ok r)).
(** [o.ok_or_else(|| e)?]. *)
Definition or_throw {A} (e : X) (o : option A) : SM E S X A :=
  match o with Some a => mret a | None => throw e end.
(** The [?] operator. *)
Definition lift {A} (r : result X A) : SM E S X A :=
  match r with Ok a => mret a | Err e => throw e end.
Definition guard_m (b : bool) (e : X) : SM E S X unit := if b then mret tt else throw e.
(** Running a computation for its result, errors included. *)
Definition attempt {A} (m : SM E S X A) : SM E S X (result X A) :=
  fun s => prog_bind (m s) (fun '(s, r) => Ret (s, Ok r)).

Context (P : forall R : Set, E R -> Prop) (L : forall R : Set, E R -> R -> Prop).

(** Every call of [m] from [s] satisfies [P], and [Q] holds of the outcome. *)
Definition hoare {A} (m : SM E S X A) (s : S) (Q : S -> result X A -> Prop)
    : Prop := wp P L (m s) (fun sr => Q sr.1 sr.2).

Lemma hoare_bind {A B} (m : SM E S X A) (f : A -> SM E S X B) s Q :
  hoare m s (fun s' r => match r with Ok a => hoare (f a) s' Q | Err e => Q s' (Err e) end) ->
  hoare (m ≫= f) s Q.
Proof.
  unfold hoare. intros H. apply wp_bind. eapply wp_mono; [|exact H].
  intros [s' [a|e]]; simpl; auto.
Qed.

Lemma hoare_ret {A} (a : A) s (Q : S -> result X A -> Prop) :
  Q s (Ok a) -> hoare (mret a) s Q.
Proof. done. Qed.
Lemma hoare_throw {A} e s (Q : S -> result X A -> Prop) :
  Q s (Err e) -> hoare (throw e) s Q.
Proof. done. Qed.
Lemma hoare_gets {A} (f : S -> A) s Q : Q s (Ok (f s)) -> hoare (gets f) s Q.
Proof. done. Qed.
Lemma hoare_modify f s Q : Q (f s) (Ok tt) -> hoare (modify f) s Q.
Proof. done. Qed.
Lemma hoare_call {R : Set} (c : E R) s Q :
  P R c -> (forall r, L R c r -> Q s (Ok r)) -> hoare (call c) s Q.
Proof. intros Hp Hl. split; [done|]. intros r Hr. by apply Hl. Qed.
Lemma hoare_or_throw {A} e (o : option A) s Q :
  (forall a, o = Some a -> Q s (Ok a)) -> (o = None -> Q s (Err e)) -> hoare (or_throw e o) s Q.
Proof. intros H1 H2. destruct o; [by apply H1 | by apply H2]. Qed.
Lemma hoare_lift {A} (r : result X A) s Q :
  (forall a, r = Ok a -> Q s (Ok a)) -> (forall e, r = Err e -> Q s (Err e)) -> hoare (lift r) s Q.
Proof. intros H1 H2. destruct r; [by apply H1 | by apply H2]. Qed.
Lemma hoare_guard b e s Q :
  (b = true -> Q s (Ok tt)) -> (b = false -> Q s (Err e)) -> hoare (guard_m b e) s Q.
Proof. intros H1 H2. destruct b; [by apply H1 | by apply H2]. Qed.
Lemma hoare_if {A} (b : bool) (m1 m2 : SM E S X A) s Q :
  (b = true -> hoare m1 s Q) -> (b = false -> hoare m2 s Q) -> hoare (if b then m1 else m2) s Q.
Proof. destruct b; auto. Qed.
Lemma hoare_option {A Y} (o : option Y) (m1 : Y -> SM E S X A) (m2 : SM E S X A) s Q :
  (forall x, o = Some x -> hoare (m1 x) s Q) -> (o = None -> hoare m2 s Q) ->
  hoare (match o with Some x => m1 x | None => m2 end) s Q.
Proof. destruct o; auto. Qed.
Lemma hoare_attempt {A} (m : SM E S X A) s Q :
  hoare m s (fun s' r => Q s' (Ok r)) -> hoare (attempt m) s Q.
Proof. intros H. apply wp_bind. eapply wp_mono; [|exact H]. by intros [s' r]. Qed.

Lemma hoare_mono {A} (m : SM E S X A) s (Q Q' : S -> result X A -> Prop) :
  hoare m s Q -> (forall s' r, Q s' r -> Q' s' r) -> hoare m s Q'.
Proof. intros H HQ. eapply wp_mono; [|exact H]. intros [s' r]. apply HQ. Qed.
Lemma hoare_and {A} (m : SM E S X A) s (Q Q' : S -> result X A -> Prop) :
  hoare m s Q -> hoare m s Q' -> hoare m s (fun s' r => Q s' r /\ Q' s' r).
Proof. apply wp_and. Qed.
End Stateful.

Lemma hoare_weaken {E : Set -> Set} {S X A} (P P' : forall R : Set, E R -> Prop) L (m : SM E S X A) s
    (Q Q' : S -> result X A -> Prop) :
  hoare P L m s Q -> (forall (R : Set) (c : E R), P R c -> P' R c) ->
  (forall s' r, Q s' r -> Q' s' r) -> hoare P' L m s Q'.
Proof. intros H HP HQ. eapply wp_weaken; [|exact HP|exact H]. intros [s' r]. apply HQ. Qed.

(** A run of a sequence is the run of its parts. *)
Lemma run_sm_bind {E : Set -> Set} {S X W A B} (sys : forall R : Set, E R -> W -> R * W)
    (m : SM E S X A) (f : A -> SM E S X B) s w :
  run_prog sys ((m ≫= f) s) w =
  let '((s', r), w') := run_prog sys (m s) w in
  match r with Ok a => run_prog sys (f a s') w' | Err e => ((s', Err e), w') end.
Proof.
  unfold mbind, SM_bind. rewrite run_bind. destruct (run_prog sys (m s) w) as [[s' [a|e]] w']; done.
Qed.

Lemma run_bind_ok {E : Set -> Set} {S X W A B} (sys : forall R : Set, E R -> W -> R * W)
    (m : SM E S X A) (f : A -> SM E S X B) s w s' a w' :
  run_prog sys (m s) w = ((s', Ok a), w') -> run_prog sys ((m ≫= f) s) w = run_prog sys (f a s') w'.
Proof. intros H. by rewrite run_sm_bind, H. Qed.

Lemma run_attempt {E : Set -> Set} {S X W A} (sys : forall R : Set, E R -> W -> R * W) (m : SM E S X A) s w :
  run_prog sys (attempt m s) w = let '((s', r), w') := run_prog sys (m s) w in ((s', Ok r), w').
Proof. unfold attempt. rewrite run_bind. by destruct (run_prog sys (m s) w) as [[s' r] w']. Qed.

(** What holds whatever the replies holds of every run. *)
Lemma run_hoare {E : Set -> Set} {S X W A} (sys : forall R : Set, E R -> W -> R * W)
    (m : SM E S X A) s Q w :
  hoare (fun _ _ => True) (fun _ _ _ => True) m s Q ->
  Q (run_prog sys (m s) w).1.1 (run_prog sys (m s) w).1.2.
Proof.
  intros H. by apply (wp_run (fun _ _ => True) (fun _ _ _ => True) sys (fun _ => True) (m s) _ w) in H as [? _].
Qed.

(** What no call decreases, no program decreases. *)
Lemma run_grows {E : Set -> Set} {W A} (sys : forall R : Set, E R -> W -> R * W) (clock : W -> Z) :
  (forall (R : Set) (c : E R) w, clock w <= clock (sys R c w).2) ->
  forall (m : prog E A) w, clock w <= clock (run_prog sys m w).2.
Proof.
  intros Hsys m. induction m as [a|R c k IH]; intros w; simpl; [lia|].
  specialize (Hsys R c w). destruct (sys R c w) as [r w']. simpl in *. specialize (IH r w'). lia.
Qed.

(** Any program does something. *)
Lemma hoare_any {E : Set -> Set} {S X A} (L : forall R : Set, E R -> R -> Prop) (m : SM E S X A) s :
  hoare (fun _ _ => True) L m s (fun _ _ => True).
Proof. unfold hoare. induction (m s) as [a|R c k IH]; simpl; [done|]. split; [done|]. intros r _. apply IH. Qed.

(** A condition on the whole run may be assumed of its outcome instead. *)
Lemma hoare_assuming {E : Set -> Set} {S X A} (L : forall R : Set, E R -> R -> Prop) (H : Prop) (m : SM E S X A) s Q :
  (H -> hoare (fun _ _ => True) L m s Q) -> hoare (fun _ _ => True) L m s (fun s' r => H -> Q s' r).
Proof.
  unfold hoare. induction (m s) as [a|R c k IH]; simpl; [done|]. intros Hm. split; [done|].
  intros r Hr. apply IH. intros HH. by apply Hm.
Qed.

(** ** Programs of a component inside a larger program

    The component's calls and state are parts of the whole's. *)

Fixpoint embed {E F : Set -> Set} {A} (f : forall R : Set, E R -> F R) (m : prog E A) : prog F A :=
  match m with
  | Ret a => Ret a
  | Vis c k => Vis (f _ c) (fun r => embed f (k r))
  end.

Definition zoom {E F : Set -> Set} {S T X Y A} (f : forall R : Set, E R -> F R) (view : T -> S)
    (put : S -> T -> T) (err : X -> Y) (m : SM E S X A) : SM F T Y A := fun t =>
  prog_bind (embed f (m (view t))) (fun '(s, r) =>
    Ret (put s t, match r with Ok a => Ok a | Err e => Err (err e) end)).

Lemma wp_embed {E F : Set -> Set} {A} (f : forall R : Set, E R -> F R) P L P' L' (m : prog E A) (Q : A -> Prop) :
  (forall (R : Set) (c : E R), P R c -> P' R (f R c)) ->
  (forall (R : Set) (c : E R) r, L' R (f R c) r -> L R c r) ->
  wp P L m Q -> wp P' L' (embed f m) Q.
Proof.
  intros HP HL. induction m as [a|R c k IH]; simpl; [done|]. intros [Hp Hk]. split; [by apply HP|].
  intros r Hr. apply IH, Hk, HL, Hr.
Qed.

(** A system that answers the component's calls as another does runs the
    component as the other does. *)
Lemma run_embed {E F : Set -> Set} {W A} (f : forall R : Set, E R -> F R) (sysE : forall R : Set, E R -> W -> R * W)
    (sysF : forall R : Set, F R -> W -> R * W) (m : prog E A) w :
  (forall (R : Set) (c : E R) w, sysF R (f R c) w = sysE R c w) ->
  run_prog sysF (embed f m) w = run_prog sysE m w.
Proof.
  intros Hsys. revert w. induction m as [a|R c k IH]; intros w; [done|]. cbn. rewrite Hsys.
  destruct (sysE R c w) as [r w']. apply IH.
Qed.

Lemma run_zoom {E F : Set -> Set} {S T X Y W A} (f : forall R : Set, E R -> F R) (view : T -> S)
    (put : S -> T -> T) (err : X -> Y) (sysE : forall R : Set, E R -> W -> R * W)
    (sysF : forall R : Set, F R -> W -> R * W) (m : SM E S X A) t w :
  (forall (R : Set) (c : E R) w, sysF R (f R c) w = sysE R c w) ->
  run_prog sysF (zoom f view put err m t) w =
  let '((s, r), w') := run_prog sysE (m (view t)) w in
  ((put s t, match r with Ok a => Ok a | Err e => Err (err e) end), w').
Proof.
  intros Hsys. unfold zoom. rewrite run_bind, (run_embed f sysE sysF) by done.
  by destruct (run_prog sysE (m (view t)) w) as [[s r] w'].
Qed.

Lemma hoare_zoom {E F : Set -> Set} {S T X Y A} (f : forall R : Set, E R -> F R) (view : T -> S)
    (put : S -> T -> T) (err : X -> Y) P L P' L' (m : SM E S X A) t (Q : S -> result X A -> Prop)
    (Q' : T -> result Y A -> Prop) :
  (forall (R : Set) (c : E R), P R c -> P' R (f R c)) ->
  (forall (R : Set) (c : E R) r, L' R (f R c) r -> L R c r) ->
  hoare P L m (view t) Q ->
  (forall s r, Q s r -> Q' (put s t) (match r with Ok a => Ok a | Err e => Err (err e) end)) ->
  hoare P' L' (zoom f view put err m) t Q'.
Proof.
  intros HP HL Hm HQ. apply wp_bind. eapply wp_mono; [|by eapply wp_embed]. intros [s r] H. by apply HQ.
Qed.

(** One step of a proof about a stateful program; it stops at calls to named
    procedures. *)
Ltac sm_step :=
  match goal with
  | |- hoare _ _ (_ ≫= _) _ _ => apply hoare_bind
  | |- hoare _ _ (mret _) _ _ => apply hoare_ret
  | |- hoare _ _ (throw _) _ _ => apply hoare_throw
  | |- hoare _ _ (gets _) _ _ => apply hoare_gets
  | |- hoare _ _ (modify _) _ _ => apply hoare_modify
  | |- hoare _ _ (call _) _ _ => apply hoare_call; [|intros ? ?]
  | |- hoare _ _ (lift _) _ _ => apply hoare_lift; intros ? ?
  | |- hoare _ _ (attempt _) _ _ => apply hoare_attempt
  | |- hoare _ _ (or_throw _ _) _ _ => apply hoare_or_throw; [intros ? ?|intros ?]
  | |- hoare _ _ (guard_m _ _) _ _ => apply hoare_guard; intros ?
  | |- hoare _ _ (if _ then _ else _) _ _ => apply hoare_if; intros ?
  | |- hoare _ _ (match _ with Some _ => _ | None => _ end) _ _ =>
      apply hoare_option; [intros ? ?|intros ?]
  end; cbv beta iota zeta.

(** ** Traces: the calls of a run against a system that answers by a function *)

Definition Call (E : Set -> Set) : Type := { R : Set & E R }.
Definition logged {E : Set -> Set} (answer : forall R : Set, E R -> R) (R : Set) (c : E R)
    (log : list (Call E)) : R * list (Call E) := (answer R c, log ++ [existT R c]).
Definition calls {E : Set -> Set} {S X A} (answer : forall R : Set, E R -> R) (m : SM E S X A) (s : S)
    : list (Call E) := (run_prog (logged answer) (m s) []).2.
(** The calls beside the state of any system. *)
Definition traced {E : Set -> Set} {W : Type} (sys : forall R : Set, E R -> W -> R * W) (R : Set) (c : E R)
    (wl : W * list (Call E)) : R * (W * list (Call E)) :=
  let '(r, w) := sys R c wl.1 in (r, (w, wl.2 ++ [existT R c])).
(** Calls once made stay in the log. *)
Lemma logged_grows {E : Set -> Set} {A} (answer : forall R : Set, E R -> R) (m : prog E A) log c :
  c ∈ log -> c ∈ (run_prog (logged answer) m log).2.
Proof.
  revert log. induction m as [a|R d k IH]; intros log Hc; simpl; [done|]. apply IH. set_solver.
Qed.
Lemma logged_bind {E : Set -> Set} {S X A B} (answer : forall R : Set, E R -> R) (m : SM E S X A)
    (f : A -> SM E S X B) s log c :
  c ∈ (run_prog (logged answer) (m s) log).2 -> c ∈ (run_prog (logged answer) ((m ≫= f) s) log).2.
Proof.
  intros Hc. rewrite run_sm_bind. destruct (run_prog _ (m s) log) as [[s' [a|e]] log']; [|done].
  by apply logged_grows.
Qed.

(** What is required of the calls holds of those a run makes. *)
Lemma wp_logged {E : Set -> Set} {A} (answer : forall R : Set, E R -> R) P (m : prog E A) (Q : A -> Prop) log :
  wp P (fun R c r => r = answer R c) m Q -> (forall c, c ∈ log -> P (projT1 c) (projT2 c)) ->
  forall c, c ∈ (run_prog (logged answer) m log).2 -> P (projT1 c) (projT2 c).
Proof.
  revert log. induction m as [a|R d k IH]; intros log; simpl; [auto|]. intros [Hp Hk] Hlog.
  apply IH; [by apply Hk|]. intros c Hc. apply elem_of_app in Hc as [Hc|Hc]; [by apply Hlog|].
  apply list_elem_of_singleton in Hc as ->. done.
Qed.

Lemma hoare_calls {E : Set -> Set} {S X A} (answer : forall R : Set, E R -> R) P (m : SM E S X A) s Q :
  hoare P (fun R c r => r = answer R c) m s Q -> forall c, c ∈ calls answer m s -> P (projT1 c) (projT2 c).
Proof. intros Hm. eapply wp_logged; [exact Hm|]. intros c Hc. by apply elem_of_nil in Hc. Qed.

(** What is proved whatever the replies holds of the calls of any run. *)
Lemma free_calls {E : Set -> Set} {S X A} (answer : forall R : Set, E R -> R) P (m : SM E S X A) s Q :
  hoare P (fun _ _ _ => True) m s Q -> forall c, c ∈ calls answer m s -> P (projT1 c) (projT2 c).
Proof.
  intros Hm. apply (hoare_calls answer P m s Q). revert Hm. unfold hoare.
  induction (m s) as [a|R d k IH]; simpl; [done|]. intros [Hp Hk]. split; [done|]. intros r _. by apply IH, Hk.
Qed.

(** The result does not depend on the log so far. *)
Lemma logged_result {E : Set -> Set} {A} (answer : forall R : Set, E R -> R) (m : prog E A) log log' :
  (run_prog (logged answer) m log).1 = (run_prog (logged answer) m log').1.
Proof. revert log log'. induction m as [a|R d k IH]; intros log log'; simpl; [done|]. apply IH. Qed.

(** What it returns. *)
Definition returns {E : Set -> Set} {S X A} (answer : forall R : Set, E R -> R) (m : SM E S X A) (s : S)
    : result X A := (run_prog (logged answer) (m s) []).1.2.

Lemma returns_bind {E : Set -> Set} {S X A B} (answer : forall R : Set, E R -> R) (m : SM E S X A) (f : A -> SM E S X B) s :
  returns answer (m ≫= f) s =
  let '(s', r) := (run_prog (logged answer) (m s) []).1 in
  match r with Ok a => returns answer (f a) s' | Err e => Err e end.
Proof.
  unfold returns. rewrite run_sm_bind. destruct (run_prog _ (m s) []) as [[s' [a|e]] log]; [|done]. cbn.
  by rewrite (logged_result answer (f a s') log []).
Qed.

Lemma returns_cong {E : Set -> Set} {S X A B} (answer : forall R : Set, E R -> R) (m : SM E S X A) (f g : A -> SM E S X B) s :
  (forall a s', returns answer (f a) s' = returns answer (g a) s') -> returns answer (m ≫= f) s = returns answer (m ≫= g) s.
Proof. intros H. rewrite !returns_bind. destruct (run_prog _ (m s) []) as [[s' [a|e]] log]; [apply H|done]. Qed.

(** The calls of a component are those of the whole. *)
Definition lift_call {E F : Set -> Set} (f : forall R : Set, E R -> F R) (c : Call E) : Call F :=
  existT _ (f _ (projT2 c)).

Lemma log_embed {E F : Set -> Set} {A} (f : forall R : Set, E R -> F R) (answer : forall R : Set, F R -> R)
    (p : prog E A) log l0 :
  run_prog (logged answer) (embed f p) (log ++ map (lift_call f) l0) =
  let '(a, l) := run_prog (logged (fun R c => answer R (f R c))) p l0 in (a, log ++ map (lift_call f) l).
Proof.
  revert l0. induction p as [a|R c k IH]; intros l0; [done|]. cbn.
  rewrite <- app_assoc. specialize (IH (answer R (f R c)) (l0 ++ [existT R c])). rewrite map_app in IH. exact IH.
Qed.

Lemma log_zoom {E F : Set -> Set} {S T X Y A} (f : forall R : Set, E R -> F R) (view : T -> S) (put : S -> T -> T)
    (err : X -> Y) (answer : forall R : Set, F R -> R) (m : SM E S X A) t log :
  run_prog (logged answer) (zoom f view put err m t) log =
  let '((s, r), l) := run_prog (logged (fun R c => answer R (f R c))) (m (view t)) [] in
  ((put s t, match r with Ok a => Ok a | Err e => Err (err e) end), log ++ map (lift_call f) l).
Proof.
  unfold zoom. rewrite run_bind. pose proof (log_embed f answer (m (view t)) log []) as H. cbn in H. rewrite app_nil_r in H.
  rewrite H. by destruct (run_prog _ (m (view t)) []) as [[s r] l].
Qed.

(** Unfold the monad, to evaluate a run. *)
Ltac sm_unfold :=
  unfold throw, gets, modify, call, lift, or_throw, attempt, guard_m, mbind, SM_bind, mret, SM_ret.
