(* ===== verification/Nucleus.v ===== *)
(** * The signaling server of a nucleus (omni-core/src/manager.rs, omni-cli/src/service.rs)

    A node that is a nucleus answers the signaling messages of the others.  What
    a message means is decided by the protocol crate (omninervous); here is the
    server around it, as the manager runs it beside a connection and the service
    runs it alone. *)

From S2P Require Import Prelude Net Effects.

Open Scope list_scope.
Open Scope Z_scope.

(** The protocol: its state, what it makes of a message (an answer to the
    sender, and notifications to others), and the cleanup of stale peers. *)
Class NucleusLogic : Type := {
  NucleusState : Type;
  new_state : NucleusState;
  handle_nucleus_message : NucleusState -> list Z -> SocketAddr -> option string ->
    NucleusState * (option (list Z) * list (SocketAddr * list Z));
  cleanup : NucleusState -> NucleusState }.

(** What the server waits for: the socket, the tick of a minute, the end. *)
Inductive NucleusEvent : Set :=
| Received (packet : list Z) (src : SocketAddr)
| SocketError (e : string)
| CleanupTick
| StopSignal.

Inductive NucleusCall : Set -> Set :=
| NextEvent : NucleusCall NucleusEvent
| SendTo (packet : list Z) (dest : SocketAddr) : NucleusCall (result string Z).

Section Nucleus.
Context `{NucleusLogic}.
(** [normalize_addr] in the manager, nothing in the service; the secret. *)
Context (norm : SocketAddr -> SocketAddr) (secret : option string).

Abbreviation NM := (SM NucleusCall NucleusState unit) (only parsing).

(** Signaling messages start at 0x11. *)
Definition is_signaling (packet : list Z) : bool :=
  match packet with [] => false | b :: _ => negb (b <? 17) end.

Fixpoint send_all (ps : list (SocketAddr * list Z)) : NM unit :=
  match ps with
  | [] => mret tt
  | (dest, packet) :: ps => _ ← call (SendTo packet dest); send_all ps
  end.

Definition handle_packet (packet : list Z) (raw_src : SocketAddr) : NM unit :=
  let src := norm raw_src in
  if negb (is_signaling packet) then mret tt
  else
    st ← gets id;
    let '(st, (response, notifications)) := handle_nucleus_message st packet src secret in
    _ ← modify (fun _ => st);
    _ ← match response with
        | Some r => _ ← call (SendTo r src); mret tt
        | None => mret tt
        end;
    send_all notifications.

(** The loop; [false] when the fuel is spent. *)
Fixpoint serve (fuel : nat) : NM bool :=
  match fuel with
  | O => mret false
  | S fuel =>
      ev ← call NextEvent;
      match ev with
      | Received packet src => _ ← handle_packet packet src; serve fuel
      | SocketError _ => serve fuel
      | CleanupTick => _ ← modify cleanup; serve fuel
      | StopSignal => mret true
      end
  end.

(** ** What it is to do

    One event: the new state, and the datagrams in order. *)
Definition react (st : NucleusState) (ev : NucleusEvent) : NucleusState * list (SocketAddr * list Z) :=
  match ev with
  | Received packet src =>
      if is_signaling packet then
        let '(st, (response, notifications)) := handle_nucleus_message st packet (norm src) secret in
        (st, match response with Some r => (norm src, r) :: notifications | None => notifications end)
      else (st, [])
  | CleanupTick => (cleanup st, [])
  | SocketError _ | StopSignal => (st, [])
  end.
Fixpoint react_all (st : NucleusState) (evs : list NucleusEvent) : NucleusState * list (SocketAddr * list Z) :=
  match evs with
  | [] => (st, [])
  | ev :: evs => let '(st, sent) := react st ev in let '(st, more) := react_all st evs in (st, sent ++ more)
  end.
End Nucleus.

(** ** The server does that *)

(** A socket whose events are [evs] and then the end, and that takes datagrams
    or not as [taken] says. *)
Definition wire (taken : list Z -> SocketAddr -> result string Z) (R : Set) (c : NucleusCall R)
    (w : list NucleusEvent * list (SocketAddr * list Z)) : R * (list NucleusEvent * list (SocketAddr * list Z)) :=
  match c in NucleusCall R return R * (list NucleusEvent * list (SocketAddr * list Z)) with
  | NextEvent => match w.1 with [] => (StopSignal, w) | ev :: evs => (ev, (evs, w.2)) end
  | SendTo packet dest => (taken packet dest, (w.1, w.2 ++ [(dest, packet)]))
  end.

Section NucleusTheorems.
Context `{NucleusLogic} (norm : SocketAddr -> SocketAddr) (secret : option string).
Context (taken : list Z -> SocketAddr -> result string Z).

Lemma run_send_all ps (st : NucleusState) evs log :
  run_prog (wire taken) (send_all ps st) (evs, log) = ((st, Ok tt), (evs, log ++ ps)).
Proof.
  revert log. induction ps as [|[dest packet] ps IH]; intros log; [by rewrite app_nil_r|].
  change (run_prog (wire taken) (send_all ((dest, packet) :: ps) st) (evs, log))
    with (run_prog (wire taken) (send_all ps st) (evs, log ++ [(dest, packet)])).
  rewrite IH. by rewrite <- app_assoc.
Qed.

Lemma run_handle packet src (st : NucleusState) evs log :
  run_prog (wire taken) (handle_packet norm secret packet src st) (evs, log) =
  let '(st', sent) := react norm secret st (Received packet src) in ((st', Ok tt), (evs, log ++ sent)).
Proof.
  unfold handle_packet. cbn [react]. destruct (is_signaling packet); cbn [negb]; [|cbn; by rewrite app_nil_r].
  rewrite run_sm_bind. cbn [run_prog gets id].
  destruct (handle_nucleus_message st packet (norm src) secret) as [st' [response notifications]].
  rewrite run_sm_bind. cbn [run_prog modify]. rewrite run_sm_bind. destruct response as [r|].
  - change (run_prog (wire taken) (send_all ((norm src, r) :: notifications) st') (evs, log) =
      ((st', Ok tt), (evs, log ++ (norm src, r) :: notifications))). apply run_send_all.
  - apply run_send_all.
Qed.

End NucleusTheorems.

(** A protocol that counts its messages, echoes them, and tells the first
    node. *)
#[export] Instance demo_logic : NucleusLogic := {|
  NucleusState := Z; new_state := 0;
  handle_nucleus_message n packet src _ := (n + 1, (Some packet, if n =? 0 then [] else [(src, [n])]));
  cleanup := fun _ => 0 |}.

