(* ===== verification/Emergency.v ===== *)
(** * Emergency access (omni-ssh/src/emergency/mod.rs)

    Requests for access in an emergency, the grants the API answers with, and
    the manager that submits requests, waits for approval, validates tokens
    through a cache and revokes grants.  The maps of the manager are shared, so
    looking at them and changing them are calls, as are the clocks, the API and
    the broadcast of status changes. *)

From Stdlib Require Import Ascii.
From S2P Require Import Prelude RustStr Effects.

Open Scope string_scope.
Open Scope list_scope.
Open Scope Z_scope.

Record EmergencyAccessConfig : Set := {
  api_endpoint : string; api_key : string; max_duration_secs : Z; default_duration_secs : Z;
  auto_approve_enabled : bool; auto_approve_roles : list string; webhook_url : option string;
  token_cache_ttl_secs : Z; require_mfa : bool; min_approvers : Z }.

Definition EmergencyAccessConfig_default : EmergencyAccessConfig := {|
  api_endpoint := "https://api.omniedge.io/v1/emergency"; api_key := "";
  max_duration_secs := 14400; default_duration_secs := 3600; auto_approve_enabled := false;
  auto_approve_roles := ["admin"; "oncall"]; webhook_url := None; token_cache_ttl_secs := 60;
  require_mfa := true; min_approvers := 1 |}.

Inductive EmergencySeverity : Set := Critical | High | Medium | Low.

Definition show_severity (s : EmergencySeverity) : string :=
  match s with Critical => "critical" | High => "high" | Medium => "medium" | Low => "low" end.

Record EmergencyAccessRequest : Set := {
  request_id : string; requester_id : string; requester_email : option string;
  target_node_id : string; target_node_name : option string; network_id : option string;
  reason : string; incident_id : option string; severity : EmergencySeverity; requested_at : Z;
  duration_secs : Z; allowed_commands : list string; mfa_token : option string;
  metadata : gmap string string }.

(** ** The builder of requests *)

Record EmergencyAccessRequestBuilder : Type := {
  b_requester_id : option string; b_requester_email : option string;
  b_target_node_id : option string; b_target_node_name : option string;
  b_network_id : option string; b_reason : option string; b_incident_id : option string;
  b_severity : EmergencySeverity; b_duration_secs : option Z; b_allowed_commands : list string;
  b_mfa_token : option string; b_metadata : gmap string string }.

Definition builder : EmergencyAccessRequestBuilder := {|
  b_requester_id := None; b_requester_email := None; b_target_node_id := None;
  b_target_node_name := None; b_network_id := None; b_reason := None; b_incident_id := None;
  b_severity := Medium; b_duration_secs := None; b_allowed_commands := []; b_mfa_token := None;
  b_metadata := ∅ |}.

(** [uuid] and [now] are what the generator and the clock give. *)
Definition build (uuid : string) (now : Z) (b : EmergencyAccessRequestBuilder)
    : result string EmergencyAccessRequest :=
  requester ← ok_or "requester_id is required" (b_requester_id b);
  target ← ok_or "target_node_id is required" (b_target_node_id b);
  why ← ok_or "reason is required" (b_reason b);
  Ok {| request_id := uuid; requester_id := requester; requester_email := b_requester_email b;
        target_node_id := target; target_node_name := b_target_node_name b;
        network_id := b_network_id b; reason := why; incident_id := b_incident_id b;
        severity := b_severity b; requested_at := now;
        duration_secs := from_option id 3600 (b_duration_secs b);
        allowed_commands := b_allowed_commands b; mfa_token := b_mfa_token b;
        metadata := b_metadata b |}.

(** ** Grants and statuses *)

Record AccessRestrictions : Set := {
  read_only : bool; r_allowed_commands : list string; blocked_commands : list string;
  allowed_source_ips : list string; recording_required : bool; sftp_disabled : bool;
  port_forwarding_disabled : bool }.

Record EmergencyAccessGrant : Set := {
  grant_id : string; request : EmergencyAccessRequest; approver_id : option string;
  approver_name : option string; granted_at : Z; expires_at : Z; access_token : string;
  auto_approved : bool; approval_notes : option string; restrictions : AccessRestrictions }.

Definition is_valid (now : Z) (g : EmergencyAccessGrant) : bool := now <? expires_at g.

Definition remaining_duration (now : Z) (g : EmergencyAccessGrant) : option Z :=
  let remaining := expires_at g - now in
  if 0 <? remaining then Some remaining else None.

Inductive EmergencyAccessStatus : Set :=
| Pending
| AwaitingApprovers (current required : Z)
| Approved
| Denied (why : option string)
| Expired
| Revoked (revoked_by why : option string)
| TimedOut.

Definition show_status (s : EmergencyAccessStatus) : string :=
  match s with
  | Pending => "pending"
  | AwaitingApprovers current required =>
      "awaiting_approvers (" +:+ show_uint current +:+ "/" +:+ show_uint required +:+ ")"
  | Approved => "approved"
  | Denied (Some r) => "denied: " +:+ r
  | Denied None => "denied"
  | Expired => "expired"
  | Revoked by_ r =>
      "revoked" +:+ from_option (fun b => " by " +:+ b) "" by_ +:+ from_option (fun r => ": " +:+ r) "" r
  | TimedOut => "timed_out"
  end.

Record ApproverResponse : Set := {
  ar_approver_id : string; ar_approver_name : option string; approved : bool;
  ar_message : option string; responded_at : Z }.

Record EmergencyStatusResponse : Set := {
  sr_request_id : string; status : EmergencyAccessStatus; sr_grant : option EmergencyAccessGrant;
  estimated_wait_secs : option Z; approver_responses : list ApproverResponse }.

Inductive EmergencyAuditEvent : Set :=
| AccessRequested | AccessApproved | AccessDenied | AccessGranted | SessionStarted
| CommandExecuted | FileAccessed | SessionEnded | AccessExpired | AccessRevoked
| TokenValidated | TokenValidationFailed.

(** The JSON values the details of an entry have. *)
Inductive Value : Set := JString (s : string) | JNumber (n : Z).

Record EmergencyAuditEntry : Set := {
  entry_id : string; ae_request_id : string; event_type : EmergencyAuditEvent; actor_id : string;
  timestamp : Z; details : gmap string Value; source_ip : option string }.

Record CachedGrant : Set := { grant : EmergencyAccessGrant; cached_at : Z }.

Record StatusChangeEvent : Set := {
  ev_request_id : string; ev_status : EmergencyAccessStatus; ev_grant : option EmergencyAccessGrant }.

Inductive ECall : Set -> Set :=
| UtcNow : ECall Z
| InstantNow : ECall Z
| Sleep (d : Z) : ECall unit
| NewUuid : ECall string
| SubmitRequest (r : EmergencyAccessRequest) : ECall (result string string)
| QueryStatus (id : string) : ECall (result string EmergencyStatusResponse)
| QueryToken (token target : string) : ECall (result string (option EmergencyAccessGrant))
| RevokeRemote (id : string) (why : option string) : ECall (result string unit)
| SubmitAudit (e : EmergencyAuditEntry) : ECall (result string unit)
| Broadcast (e : StatusChangeEvent) : ECall unit
| TokenGet (key : string) : ECall (option CachedGrant)
| TokenInsert (key : string) (c : CachedGrant) : ECall unit
| TokenRemove (key : string) : ECall unit
| TokenEntries : ECall (list (string * CachedGrant))
| GrantGet (id : string) : ECall (option EmergencyAccessGrant)
| GrantInsert (id : string) (g : EmergencyAccessGrant) : ECall unit
| GrantTake (id : string) : ECall (option EmergencyAccessGrant)
| GrantEntries : ECall (list (string * EmergencyAccessGrant))
| PollAdd (id : string) : ECall unit
| PollRemove (id : string) : ECall unit.

(** Programs of the manager: [self] gives the configuration. *)
Abbreviation EM := (SM ECall EmergencyAccessConfig string) (only parsing).

(** ** Requesting access *)

Definition audit (e : EmergencyAuditEntry) : EM unit := _ ← call (SubmitAudit e); mret tt.

(** An entry with a new identifier and the time. *)
Definition audit_event (id : string) (ev : EmergencyAuditEvent) (actor : string)
    (det : gmap string Value) (ip : option string) : EM unit :=
  uuid ← call NewUuid;
  now ← call UtcNow;
  audit {| entry_id := uuid; ae_request_id := id; event_type := ev; actor_id := actor;
           timestamp := now; details := det; source_ip := ip |}.

Definition request_details (r : EmergencyAccessRequest) : gmap string Value :=
  let m := <["duration_secs" := JNumber (duration_secs r)]>
            (<["severity" := JString (show_severity (severity r))]>
              (<["target_node_id" := JString (target_node_id r)]> ∅)) in
  match incident_id r with Some i => <["incident_id" := JString i]> m | None => m end.

Definition request_access (r : EmergencyAccessRequest) : EM string :=
  config ← gets id;
  _ ← guard_m (negb (is_blank (reason r))) "Reason is required for emergency access";
  _ ← guard_m (negb (max_duration_secs config <? duration_secs r))
        ("Requested duration " +:+ show_uint (duration_secs r) +:+ " exceeds maximum allowed " +:+
         show_uint (max_duration_secs config));
  _ ← guard_m (negb (require_mfa config && bool_decide (mfa_token r = None)))
        "MFA token is required for emergency access";
  reply ← call (SubmitRequest r);
  id ← lift reply;
  _ ← audit_event id AccessRequested (requester_id r) (request_details r) None;
  mret id.

(** ** Waiting for approval *)

Definition check_status (id : string) : EM EmergencyStatusResponse :=
  reply ← call (QueryStatus id);
  response ← lift reply;
  _ ← match sr_grant response with
      | Some g =>
          _ ← call (GrantInsert id g);
          call (Broadcast {| ev_request_id := id; ev_status := status response; ev_grant := Some g |})
      | None => mret tt
      end;
  mret response.

Definition poll_interval : Z := from_secs 5.

Definition no_reason (r : option string) : string := from_option Datatypes.id "No reason provided" r.

(** What a status means for the wait: [None] to go on. *)
Definition wait_verdict (r : EmergencyStatusResponse) : option (result string EmergencyAccessGrant) :=
  match status r with
  | Approved => Ok <$> sr_grant r
  | Denied why => Some (Err ("Emergency access denied: " +:+ no_reason why))
  | TimedOut => Some (Err "Emergency access request timed out")
  | Revoked _ why => Some (Err ("Emergency access was revoked: " +:+ no_reason why))
  | Pending | AwaitingApprovers _ _ => None
  | Expired => Some (Err "Emergency access request expired before approval")
  end.

(** The polling loop; the result is [None] when the fuel runs out. *)
Fixpoint wait_loop (fuel : nat) (id : string) (start timeout : Z) : EM (option EmergencyAccessGrant) :=
  match fuel with
  | O => mret None
  | S fuel =>
      now ← call InstantNow;
      if timeout <? elapsed start now then
        _ ← call (PollRemove id); throw "Timed out waiting for approval"
      else
        response ← check_status id;
        match wait_verdict response with
        | Some verdict => _ ← call (PollRemove id); g ← lift verdict; mret (Some g)
        | None => _ ← call (Sleep poll_interval); wait_loop fuel id start timeout
        end
  end.

Definition wait_for_approval (fuel : nat) (id : string) (timeout : Z) : EM (option EmergencyAccessGrant) :=
  start ← call InstantNow;
  _ ← call (PollAdd id);
  wait_loop fuel id start timeout.

(** ** Tokens *)

(** [x as i64] of a [u64], and the product modulo [2^64]. *)
Definition as_i64 (x : Z) : Z := (x + 2 ^ 63) `mod` 2 ^ 64 - 2 ^ 63.
(** [num_seconds] of a span in nanoseconds. *)
Definition num_seconds (span : Z) : Z := Z.quot span nanos_per_sec.

Definition cache_key (token target : string) : string := token +:+ ":" +:+ target.

Definition token_details (target : string) : gmap string Value := {[ "target_node_id" := JString target ]}.

(** The first block of [validate_token]. *)
Definition cached_grant (key : string) : EM (option EmergencyAccessGrant) :=
  ttl ← gets token_cache_ttl_secs;
  entry ← call (TokenGet key);
  match entry with
  | None => mret None
  | Some c =>
      now ← call UtcNow;
      if num_seconds (now - cached_at c) <? as_i64 ttl then
        now ← call UtcNow;
        if is_valid now (grant c) then mret (Some (grant c))
        else _ ← call (TokenRemove key); mret None
      else mret None
  end.

Definition validate_token (token target : string) : EM (option EmergencyAccessGrant) :=
  let key := cache_key token target in
  hit ← cached_grant key;
  match hit with
  | Some g => mret (Some g)
  | None =>
      reply ← call (QueryToken token target);
      found ← lift reply;
      match found with
      | Some g =>
          now ← call UtcNow;
          _ ← call (TokenInsert key {| grant := g; cached_at := now |});
          _ ← audit_event (request_id (request g)) TokenValidated (requester_id (request g))
                (token_details target) None;
          mret (Some g)
      | None =>
          _ ← audit_event "unknown" TokenValidationFailed "unknown" (token_details target) None;
          mret None
      end
  end.

(** ** Revoking and expiring *)

Definition revoke_access (id : string) (why : option string) : EM unit :=
  reply ← call (RevokeRemote id why);
  _ ← lift reply;
  taken ← call (GrantTake id);
  match taken with
  | None => mret tt
  | Some g =>
      _ ← call (TokenRemove (cache_key (access_token g) (target_node_id (request g))));
      _ ← call (Broadcast {| ev_request_id := id; ev_status := Revoked None why; ev_grant := None |});
      audit_event id AccessRevoked (requester_id (request g))
        (from_option (fun r => {[ "reason" := JString r ]}) ∅ why) None
  end.

Definition get_active_grant (id : string) : EM (option EmergencyAccessGrant) := call (GrantGet id).

(** The clock is read for each grant. *)
Fixpoint keep_valid (gs : list (string * EmergencyAccessGrant)) : EM (list EmergencyAccessGrant) :=
  match gs with
  | [] => mret []
  | (_, g) :: gs =>
      now ← call UtcNow;
      rest ← keep_valid gs;
      mret (if is_valid now g then g :: rest else rest)
  end.

Definition list_active_grants : EM (list EmergencyAccessGrant) :=
  gs ← call GrantEntries; keep_valid gs.

(** The identifiers of the requests of the expired grants. *)
Fixpoint expired_requests (gs : list (string * EmergencyAccessGrant)) : EM (list string) :=
  match gs with
  | [] => mret []
  | (_, g) :: gs =>
      now ← call UtcNow;
      rest ← expired_requests gs;
      mret (if negb (is_valid now g) then request_id (request g) :: rest else rest)
  end.

Fixpoint expire_all (now : Z) (ids : list string) : EM unit :=
  match ids with
  | [] => mret tt
  | id :: ids =>
      taken ← call (GrantTake id);
      _ ← match taken with
          | None => mret tt
          | Some g =>
              _ ← call (Broadcast {| ev_request_id := id; ev_status := Expired; ev_grant := None |});
              uuid ← call NewUuid;
              audit {| entry_id := uuid; ae_request_id := id; event_type := AccessExpired;
                       actor_id := requester_id (request g); timestamp := now; details := ∅;
                       source_ip := None |}
          end;
      expire_all now ids
  end.

Definition is_stale (now ttl : Z) (c : CachedGrant) : bool :=
  as_i64 (as_i64 ttl * 2) <? num_seconds (now - cached_at c).

Fixpoint remove_keys (keys : list string) : EM unit :=
  match keys with [] => mret tt | k :: keys => _ ← call (TokenRemove k); remove_keys keys end.

Definition cleanup_expired : EM unit :=
  now ← call UtcNow;
  grants ← call GrantEntries;
  expired ← expired_requests grants;
  _ ← expire_all now expired;
  ttl ← gets token_cache_ttl_secs;
  entries ← call TokenEntries;
  remove_keys (List.map fst (List.filter (fun e => is_stale now ttl e.2) entries)).

(** ** Sessions *)

Definition record (id : string) (ev : EmergencyAuditEvent) (det : gmap string Value)
    (ip : option string) : EM unit :=
  found ← call (GrantGet id);
  match found with
  | Some g => audit_event id ev (requester_id (request g)) det ip
  | None => mret tt
  end.

Definition record_session_start (id : string) (ip : option string) : EM unit :=
  record id SessionStarted ∅ ip.
Definition record_command (id command : string) (ip : option string) : EM unit :=
  record id CommandExecuted {[ "command" := JString command ]} ip.
Definition record_session_end (id : string) (ip : option string) : EM unit :=
  record id SessionEnded ∅ ip.

(** ** Which requests reach the API *)

Definition acceptable (c : EmergencyAccessConfig) (r : EmergencyAccessRequest) : Prop :=
  is_blank (reason r) = false /\ duration_secs r <= max_duration_secs c /\
  (require_mfa c = true -> mfa_token r <> None).

(** a request is submitted exactly when it gives a reason that is not
    blank, stays within the longest duration and has an MFA token when one is
    required; the caller then gets the answer of the API, whatever becomes of
    the audit entry, and else an error without any call at all. *)
Theorem request_access_gate answer r c :
  (acceptable c r ->
     returns answer (request_access r) c = answer _ (SubmitRequest r) /\
     head (calls answer (request_access r) c) = Some (existT _ (SubmitRequest r))) /\
  (~ acceptable c r ->
     is_ok (returns answer (request_access r) c) = false /\ calls answer (request_access r) c = []).
Proof.
  unfold acceptable, returns, calls, request_access, guard_m, audit_event, audit, gets, throw, call, lift,
    mbind, SM_bind, mret, SM_ret.
  destruct (is_blank (reason r)); simpl; [by split; [intros [? _]|]|].
  destruct (Z.ltb_spec (max_duration_secs c) (duration_secs r)); simpl;
    [split; [intros (_ & ? & _); lia|done]|].
  destruct (require_mfa c) eqn:Em; simpl; [case_bool_decide as Ht; simpl|].
  { split; [intros (_ & _ & Hn); by destruct Hn|done]. }
  all: split; [intros _|intros Hno; exfalso; by apply Hno].
  all: by destruct (answer _ (SubmitRequest r)).
Qed.

(** ** What the cache may answer

    [issued token target g] says that the API accepted [token] for [target]
    with the grant [g] at some time, [confirmed token target g] that it does so
    in the course of this call.  Tasks share the cache: what each may put in is what
    all may rely on. *)

Section Cache.
Context (issued confirmed : string -> string -> EmergencyAccessGrant -> Prop).

Definition entry_ok (key : string) (c : CachedGrant) : Prop :=
  exists token target, no_char ":" target /\ key = cache_key token target /\
    issued token target (grant c).

Definition cache_guarantee : forall R : Set, ECall R -> Prop := fun R c =>
  match c with TokenInsert key e => entry_ok key e | _ => True end.

(** [t0]: a time before the call. *)
Definition cache_rely (t0 : Z) : forall R : Set, ECall R -> R -> Prop := fun R c =>
  match c with
  | TokenGet key => fun reply => forall e, reply = Some e -> entry_ok key e
  | QueryToken token target => fun reply => forall g,
      reply = Ok (Some g) -> issued token target g /\ confirmed token target g
  | UtcNow => fun now => t0 <= now
  | _ => fun _ => True
  end.

Lemma cache_key_inj a b c d :
  no_char ":" b -> no_char ":" d -> cache_key a b = cache_key c d -> a = c /\ b = d.
Proof.
  assert (Hno : forall s t, ~ no_char ":" (s +:+ String ":" t)).
  { intros s t Hs. induction s as [|x s IH].
    - rewrite append_nil_l in Hs. by apply no_char_cons in Hs as [? _].
    - rewrite append_cons in Hs. by apply no_char_cons in Hs as [_ Hs]. }
  intros Hb Hd. unfold cache_key. revert c. induction a as [|x a IH]; intros [|y c] H;
    rewrite ?append_cons, ?append_nil_l in H.
  - by injection H as ->.
  - injection H as <- ->. by apply Hno in Hb.
  - injection H as -> <-. by apply Hno in Hd.
  - injection H as -> H. by destruct (IH c H) as [-> ->].
Qed.

Lemma audit_event_ok (P : forall R : Set, ECall R -> Prop) L id ev actor det ip c Q :
  (forall e, P _ (SubmitAudit e)) -> P _ NewUuid -> P _ UtcNow ->
  Q c (Ok tt) -> hoare P L (audit_event id ev actor det ip) c Q.
Proof. intros H1 H2 H3 HQ. unfold audit_event, audit. repeat sm_step; auto. Qed.

Lemma cached_grant_ok t0 key config :
  hoare cache_guarantee (cache_rely t0) (cached_grant key) config (fun _ r =>
    forall g, r = Ok (Some g) -> t0 < expires_at g /\ exists e, entry_ok key e /\ grant e = g).
Proof.
  unfold cached_grant. repeat sm_step; try done.
  intros g [= <-]. split.
  - match goal with E : is_valid _ _ = true |- _ => apply Z.ltb_lt in E end. simpl in *. lia.
  - eauto.
Qed.

End Cache.

(** ** The wait ends *)

Lemma check_status_config id config :
  hoare (fun _ _ => True) (fun _ _ _ => True) (check_status id) config (fun c' _ => c' = config).
Proof. unfold check_status. by repeat sm_step. Qed.

Section Wait.
Context {W : Type} (sys : forall R : Set, ECall R -> W -> R * W) (clock : W -> Z).
Context (Hnow : forall w, (sys _ InstantNow w).1 = clock w)
  (Hgrows : forall (R : Set) (c : ECall R) w, clock w <= clock (sys R c w).2)
  (Hsleep : forall d w, clock w + d <= clock (sys _ (Sleep d) w).2).

Lemma wait_loop_ends id start timeout config fuel : forall w,
  start <= clock w -> timeout < clock w - start + (Z.of_nat fuel - 1) * poll_interval ->
  (0 < fuel)%nat ->
  (run_prog sys (wait_loop fuel id start timeout config) w).1.2 <> Ok None.
Proof.
  induction fuel as [|fuel IH]; intros w Hs Ht Hf; [lia|]. cbn [wait_loop].
  rewrite run_sm_bind. cbn. pose proof (Hnow w) as Hn. pose proof (Hgrows _ InstantNow w) as Hg.
  destruct (sys _ InstantNow w) as [now w1]. simpl in Hn, Hg. subst now.
  destruct (timeout <? elapsed start (clock w)) eqn:Et.
  { rewrite run_sm_bind. cbn. by destruct (sys _ (PollRemove id) w1). }
  rewrite run_sm_bind. pose proof (run_grows sys clock Hgrows (check_status id config) w1) as Hg1.
  destruct (run_prog sys (check_status id config) w1) as [[config1 [response|e]] w2] eqn:Ec; [|done].
  assert (config1 = config) as ->.
  { pose proof (run_hoare sys (check_status id) config _ w1 (check_status_config id config)) as Hk.
    by rewrite Ec in Hk. }
  simpl in Hg1. destruct (wait_verdict response) as [verdict|].
  - rewrite run_sm_bind. cbn. destruct (sys _ (PollRemove id) w2) as [[] w3].
    rewrite run_sm_bind. by destruct verdict.
  - rewrite run_sm_bind. cbn. pose proof (Hsleep poll_interval w2) as Hsl.
    destruct (sys _ (Sleep poll_interval) w2) as [[] w3]. simpl in Hsl.
    apply Z.ltb_ge in Et. unfold elapsed, sat_sub in Et.
    assert (0 < poll_interval) by done.
    apply IH; [lia | lia | destruct fuel; lia].
Qed.

(** Claim C29: the wait for approval ends, whatever the API answers: while
    sleeping lets the clock pass, the manager gives a grant or an error after
    at most one poll more than the timeout has intervals of five seconds. *)
Theorem wait_for_approval_ends id timeout config fuel w :
  0 <= timeout -> timeout / poll_interval + 2 <= Z.of_nat fuel ->
  (exists g, (run_prog sys (wait_for_approval fuel id timeout config) w).1.2 = Ok (Some g)) \/
  (exists e, (run_prog sys (wait_for_approval fuel id timeout config) w).1.2 = Err e).
Proof.
  intros Ht Hf. unfold wait_for_approval. rewrite run_sm_bind. cbn.
  pose proof (Hnow w) as Hn. pose proof (Hgrows _ InstantNow w) as Hg.
  destruct (sys _ InstantNow w) as [now w1]. simpl in Hn, Hg. subst now.
  rewrite run_sm_bind. cbn. pose proof (Hgrows _ (PollAdd id) w1) as Hg1.
  destruct (sys _ (PollAdd id) w1) as [[] w2]. simpl in Hg1.
  assert (0 < poll_interval) by done. pose proof (Z.mul_succ_div_gt timeout poll_interval).
  destruct (_.1.2) as [[g|]|e] eqn:E in |- *; [eauto| |eauto]. exfalso. revert E.
  assert (0 <= timeout / poll_interval) by (apply Z.div_pos; lia).
  apply wait_loop_ends; [lia|nia|lia].
Qed.
End Wait.

(** ** One operation after the other

    The world holds the time, the shared maps, what the API answers and the
    audit entries it got; [w_accepts] is the API's own list of tokens. *)

Record World : Type := {
  w_time : Z; w_cache : gmap string CachedGrant; w_grants : gmap string EmergencyAccessGrant;
  w_polls : gset string; w_accepts : string -> string -> option EmergencyAccessGrant;
  w_status : string -> result string EmergencyStatusResponse;
  w_revoke : string -> result string unit; w_audit : list EmergencyAuditEntry }.

Definition set_time (w : World) t : World := {|
  w_time := t; w_cache := w_cache w; w_grants := w_grants w; w_polls := w_polls w;
  w_accepts := w_accepts w; w_status := w_status w; w_revoke := w_revoke w; w_audit := w_audit w |}.
Definition set_cache (w : World) m : World := {|
  w_time := w_time w; w_cache := m; w_grants := w_grants w; w_polls := w_polls w;
  w_accepts := w_accepts w; w_status := w_status w; w_revoke := w_revoke w; w_audit := w_audit w |}.
Definition set_grants (w : World) m : World := {|
  w_time := w_time w; w_cache := w_cache w; w_grants := m; w_polls := w_polls w;
  w_accepts := w_accepts w; w_status := w_status w; w_revoke := w_revoke w; w_audit := w_audit w |}.
Definition set_polls (w : World) s : World := {|
  w_time := w_time w; w_cache := w_cache w; w_grants := w_grants w; w_polls := s;
  w_accepts := w_accepts w; w_status := w_status w; w_revoke := w_revoke w; w_audit := w_audit w |}.
Definition add_audit (w : World) e : World := {|
  w_time := w_time w; w_cache := w_cache w; w_grants := w_grants w; w_polls := w_polls w;
  w_accepts := w_accepts w; w_status := w_status w; w_revoke := w_revoke w;
  w_audit := push (w_audit w) e |}.

Definition world (R : Set) (c : ECall R) (w : World) : R * World :=
  match c with
  | UtcNow => (w_time w, w)
  | InstantNow => (w_time w, w)
  | Sleep d => (tt, set_time w (w_time w + Z.max 0 d))
  | NewUuid => ("uuid", w)
  | SubmitRequest r => (Ok (request_id r), w)
  | QueryStatus id => (w_status w id, w)
  | QueryToken token target => (Ok (w_accepts w token target), w)
  | RevokeRemote id _ => (w_revoke w id, w)
  | SubmitAudit e => (Ok tt, add_audit w e)
  | Broadcast _ => (tt, w)
  | TokenGet key => (w_cache w !! key, w)
  | TokenInsert key e => (tt, set_cache w (<[key := e]> (w_cache w)))
  | TokenRemove key => (tt, set_cache w (delete key (w_cache w)))
  | TokenEntries => (map_to_list (w_cache w), w)
  | GrantGet id => (w_grants w !! id, w)
  | GrantInsert id g => (tt, set_grants w (<[id := g]> (w_grants w)))
  | GrantTake id => (w_grants w !! id, set_grants w (delete id (w_grants w)))
  | GrantEntries => (map_to_list (w_grants w), w)
  | PollAdd id => (tt, set_polls w ({[id]} ∪ w_polls w))
  | PollRemove id => (tt, set_polls w (w_polls w ∖ {[id]}))
  end.

Definition run_in {A} (m : EM A) (config : EmergencyAccessConfig) (w : World)
    : result string A * World :=
  let '((_, r), w') := run_prog world (m config) w in (r, w').

(** What the cache answers at the time of the world. *)
Definition fresh_hit (config : EmergencyAccessConfig) (w : World) (key : string)
    : option EmergencyAccessGrant :=
  match w_cache w !! key with
  | Some e => if (num_seconds (w_time w - cached_at e) <? as_i64 (token_cache_ttl_secs config))
                 && is_valid (w_time w) (grant e) then Some (grant e) else None
  | None => None
  end.

Lemma validate_token_answer config w token target :
  (run_in (validate_token token target) config w).1 =
  Ok (match fresh_hit config w (cache_key token target) with
      | Some g => Some g
      | None => w_accepts w token target
      end).
Proof.
  unfold run_in, validate_token, cached_grant, fresh_hit, audit_event, audit. sm_unfold. cbn.
  destruct (w_cache w !! cache_key token target) as [e|]; cbn;
    [destruct (_ <? _); cbn; [destruct (is_valid _ _); cbn; [done|]|]|];
    by destruct (w_accepts w token target).
Qed.

(** The cache forgets the token of the grant that is active for the request. *)
Definition forgotten (w : World) (id key : string) : Prop :=
  exists g, w_grants w !! id = Some g /\ cache_key (access_token g) (target_node_id (request g)) = key.
#[global] Instance forgotten_dec w id key : Decision (forgotten w id key).
Proof.
  unfold forgotten. destruct (w_grants w !! id) as [g|];
    [destruct (decide (cache_key (access_token g) (target_node_id (request g)) = key)) as [E|E]|].
  - left. by exists g.
  - right. by intros (? & [= <-] & ?).
  - right. by intros (? & ? & _).
Defined.

Lemma revoke_access_effect config w id why :
  w_revoke w id = Ok tt ->
  let '(r, w') := run_in (revoke_access id why) config w in
  r = Ok tt /\ w_grants w' = delete id (w_grants w) /\ w_time w' = w_time w /\
  w_accepts w' = w_accepts w /\
  w_cache w' = match w_grants w !! id with
               | Some g => delete (cache_key (access_token g) (target_node_id (request g))) (w_cache w)
               | None => w_cache w
               end.
Proof.
  intros Hr. unfold run_in, revoke_access, audit_event, audit. sm_unfold. cbn. rewrite Hr. cbn.
  by destruct (w_grants w !! id).
Qed.

(** after a revocation the token of the revoked grant is accepted only
    if the API still accepts it, provided the manager had the grant as active
    for the request; a grant it only knows from validating the token stays in
    the cache and the revoked token is accepted from there until the entry is
    too old or the grant expires. *)
Theorem revoke_then_validate config w id why token target :
  w_revoke w id = Ok tt ->
  (run_in (validate_token token target) config (run_in (revoke_access id why) config w).2).1 =
  Ok (if decide (forgotten w id (cache_key token target)) then w_accepts w token target
      else match fresh_hit config w (cache_key token target) with
           | Some g => Some g
           | None => w_accepts w token target
           end).
Proof.
  intros Hr. pose proof (revoke_access_effect config w id why Hr) as He.
  destruct (run_in (revoke_access id why) config w) as [r w'].
  destruct He as (_ & _ & Ht & Ha & Hc). simpl. rewrite validate_token_answer, Ha.
  unfold fresh_hit. rewrite Hc, Ht. unfold forgotten.
  case_decide as Hf.
  - destruct Hf as (g & -> & <-). by rewrite lookup_delete_eq.
  - destruct (w_grants w !! id) as [g|]; [|done]. rewrite lookup_delete_ne; [done|]. intros E. eauto.
Qed.

(** ** Cleaning up *)

(** The request identifiers of the grants that have expired: where cleaning up
    looks for them, although [check_status] stores a grant under the
    identifier it asked for. *)
Definition expired_ids (w : World) : list string :=
  List.map (fun kv => request_id (request kv.2))
    (List.filter (fun kv => negb (is_valid (w_time w) kv.2)) (map_to_list (w_grants w))).

Lemma run_expired_requests config gs w :
  run_prog world (expired_requests gs config) w =
  (config, Ok (List.map (fun kv => request_id (request kv.2))
                 (List.filter (fun kv => negb (is_valid (w_time w) kv.2)) gs)), w).
Proof.
  induction gs as [|[k g] gs IH]; [done|]. cbn [expired_requests]. rewrite run_sm_bind. cbn.
  rewrite run_sm_bind, IH. cbn. by destruct (is_valid (w_time w) g).
Qed.

Lemma run_expire_all config now ids : forall w, exists w',
  run_prog world (expire_all now ids config) w = (config, Ok tt, w') /\
  w_cache w' = w_cache w /\ w_time w' = w_time w /\
  forall k, w_grants w' !! k = if decide (k ∈ ids) then None else w_grants w !! k.
Proof.
  induction ids as [|id ids IH]; intros w; cbn [expire_all].
  - exists w. by repeat split.
  - rewrite run_sm_bind. cbn. rewrite run_sm_bind.
    set (w1 := set_grants w (delete id (w_grants w))).
    assert (Hstep : exists w2, run_prog world
      (match w_grants w !! id with
       | None => mret tt
       | Some g =>
           _ ← call (Broadcast {| ev_request_id := id; ev_status := Expired; ev_grant := None |});
           uuid ← call NewUuid;
           audit {| entry_id := uuid; ae_request_id := id; event_type := AccessExpired;
                    actor_id := requester_id (request g); timestamp := now; details := ∅;
                    source_ip := None |}
       end config) w1 = (config, Ok tt, w2) /\ w_cache w2 = w_cache w /\ w_time w2 = w_time w /\
       w_grants w2 = delete id (w_grants w)).
    { destruct (w_grants w !! id) as [g|]; eexists; unfold audit; sm_unfold; by split. }
    destruct Hstep as (w2 & -> & Hc & Ht & Hg).
    destruct (IH w2) as (w3 & Hrun & Hc3 & Ht3 & Hg3). exists w3. split; [exact Hrun|].
    split; [congruence|]. split; [congruence|]. intros k. rewrite Hg3, Hg.
    destruct (decide (k = id)) as [->|Hne].
    + rewrite lookup_delete_eq, (decide_True (P := id ∈ id :: ids)) by left. by case_decide.
    + rewrite lookup_delete_ne by done. apply decide_ext. rewrite elem_of_cons. naive_solver.
Qed.

Lemma run_remove_keys config keys : forall w, exists w',
  run_prog world (remove_keys keys config) w = (config, Ok tt, w') /\
  w_grants w' = w_grants w /\
  forall k, w_cache w' !! k = if decide (k ∈ keys) then None else w_cache w !! k.
Proof.
  induction keys as [|key keys IH]; intros w; cbn [remove_keys].
  - exists w. by repeat split.
  - rewrite run_sm_bind. cbn.
    destruct (IH (set_cache w (delete key (w_cache w)))) as (w' & Hrun & Hg & Hc).
    exists w'. split; [exact Hrun|]. split; [exact Hg|]. intros k. rewrite Hc. simpl.
    destruct (decide (k = key)) as [->|Hne].
    + rewrite lookup_delete_eq, (decide_True (P := key ∈ key :: keys)) by left. by case_decide.
    + rewrite lookup_delete_ne by done. apply decide_ext. rewrite elem_of_cons. naive_solver.
Qed.

(** cleaning up drops exactly the cached tokens older than twice the
    time to live, and the grants stored under the request identifier of a
    grant that has expired: one stored under another identifier than its own
    stays, expired or not. *)
Theorem cleanup_expired_spec config w :
  let w' := (run_in cleanup_expired config w).2 in
  (forall k, w_grants w' !! k = if decide (k ∈ expired_ids w) then None else w_grants w !! k) /\
  (forall k, w_cache w' !! k =
     match w_cache w !! k with
     | Some e => if is_stale (w_time w) (token_cache_ttl_secs config) e then None else Some e
     | None => None
     end).
Proof.
  unfold run_in, cleanup_expired. do 2 (rewrite run_sm_bind; cbn).
  rewrite run_sm_bind, run_expired_requests. fold (expired_ids w). rewrite run_sm_bind.
  destruct (run_expire_all config (w_time w) (expired_ids w) w) as (w1 & -> & Hc & Ht & Hg).
  do 2 (rewrite run_sm_bind; cbn). rewrite Hc.
  set (keys := List.map fst _). destruct (run_remove_keys config keys w1) as (w2 & -> & Hg2 & Hc2).
  cbn. split; [intros k; by rewrite Hg2|]. intros k. rewrite Hc2, Hc.
  assert (Hkeys : k ∈ keys <-> exists e, w_cache w !! k = Some e /\
    is_stale (w_time w) (token_cache_ttl_secs config) e = true).
  { unfold keys. rewrite list_elem_of_In, in_map_iff. setoid_rewrite filter_In.
    setoid_rewrite <-list_elem_of_In. split.
    - intros ([k' e] & <- & He%elem_of_map_to_list & Hs). by exists e.
    - intros (e & He%elem_of_map_to_list & Hs). by exists (k, e). }
  destruct (w_cache w !! k) as [e|]; [|by case_decide].
  destruct (is_stale _ _ e) eqn:Es; case_decide as Hd; try done.
  - exfalso. apply Hd, Hkeys. eauto.
  - apply Hkeys in Hd as (? & [= <-] & ?). congruence.
Qed.

(** ** Witnesses *)

Definition demo_request : EmergencyAccessRequest := {|
  request_id := "r1"; requester_id := "ann"; requester_email := None; target_node_id := "node-7";
  target_node_name := None; network_id := None; reason := "disk full"; incident_id := None;
  severity := High; requested_at := 0; duration_secs := 600; allowed_commands := [];
  mfa_token := Some "123456"; metadata := ∅ |}.

Definition demo_grant : EmergencyAccessGrant := {|
  grant_id := "g1"; request := demo_request; approver_id := None; approver_name := None;
  granted_at := 0; expires_at := from_secs 600; access_token := "tok"; auto_approved := false;
  approval_notes := None;
  restrictions := {| read_only := false; r_allowed_commands := []; blocked_commands := [];
    allowed_source_ips := []; recording_required := true; sftp_disabled := false;
    port_forwarding_disabled := false |} |}.

(** The API accepts "tok" for "node-7" and approves after twelve seconds. *)
Definition demo_world : World := {|
  w_time := 0; w_cache := ∅; w_grants := ∅; w_polls := ∅;
  w_accepts := fun t n => if bool_decide (t = "tok" /\ n = "node-7") then Some demo_grant else None;
  w_status := fun _ => Ok {| sr_request_id := "r1"; status := Pending; sr_grant := None;
                             estimated_wait_secs := None; approver_responses := [] |};
  w_revoke := fun _ => Ok tt; w_audit := [] |}.

Lemma world_grows (R : Set) (c : ECall R) w : w_time w <= w_time (world R c w).2.
Proof. destruct c; simpl; lia. Qed.

Lemma wait_for_approval_ends_witness :
  let r := (run_prog world (wait_for_approval 5 "r1" (from_secs 12) EmergencyAccessConfig_default)
              demo_world).1.2 in
  r = Err "Timed out waiting for approval" /\
  ((exists g, r = Ok (Some g)) \/ (exists e, r = Err e)).
Proof.
  split; [vm_compute; reflexivity|].
  apply (wait_for_approval_ends world w_time); [done | apply world_grows | | done | done].
  intros d w. simpl. lia.
Defined.


(** The token was validated, then the request revoked at the API, which no
    longer accepts it: the manager still does. *)
Definition revoked_world : World :=
  let w := (run_in (validate_token "tok" "node-7") EmergencyAccessConfig_default demo_world).2 in
  {| w_time := from_secs 30; w_cache := w_cache w; w_grants := w_grants w; w_polls := w_polls w;
     w_accepts := fun _ _ => None; w_status := w_status w; w_revoke := w_revoke w;
     w_audit := w_audit w |}.

Lemma revoke_then_validate_witness :
  (run_in (validate_token "tok" "node-7") EmergencyAccessConfig_default
    (run_in (revoke_access "r1" None) EmergencyAccessConfig_default revoked_world).2).1 =
  Ok (Some demo_grant).
Proof.
  rewrite (revoke_then_validate EmergencyAccessConfig_default revoked_world "r1" None "tok" "node-7"
             eq_refl).
  vm_compute. reflexivity.
Defined.

Example demo_status_text :
  map show_status [AwaitingApprovers 1 2; Denied (Some "Policy violation"); Revoked (Some "bob") None] =
  ["awaiting_approvers (1/2)"; "denied: Policy violation"; "revoked by bob"].
Proof. reflexivity. Qed.
