(* ===== verification/Proto.v ===== *)
(** * Signaling (omni-proto/src/lib.rs)

    What the edge makes of the packets of the Nucleus.  The codec and the
    encryption of the omninervous crate are the class [Signaling]; its records
    are cut to the fields the source reads. *)

From Stdlib Require Import Ascii.
From S2P Require Import Prelude RustStr Net.

Open Scope string_scope.
Open Scope list_scope.
Open Scope Z_scope.

(** The variants [get_nat_description] and the connection strategies match on. *)
Inductive NatType : Set := Unknown | Open | FullCone | RestrictedCone | PortRestrictedCone | Symmetric.

#[global] Instance NatType_eq_dec : EqDecision NatType.
Proof. solve_decision. Defined.

(** ** The omninervous crate *)

(** A peer as messages carry it: endpoints are text. *)
Record WirePeer : Type := {
  w_vip : Z; w_vip_v6 : option Z; w_endpoint : string; w_public_key : list Z;
  w_nat_type : option NatType; w_mapped_endpoint : option string }.

Record RegisterAck : Type := { success : bool; recent_peers : list WirePeer }.
Record HeartbeatAck : Type := { new_peers : list WirePeer; gone_vips : list Z }.
Record PeerInfoReply : Type := { found : bool; found_peer : option WirePeer }.
Record PeerNotify : Type := { notified : WirePeer }.

Class Signaling : Type := {
  NucleusClient : Type;
  SignalingEncryption : Type;
  with_ipv6 : string -> string -> list Z -> Z -> option Z -> Z -> option string ->
              result string NucleusClient;
  client_vip_v6 : NucleusClient -> option Z;
  client_nat_type : NucleusClient -> option NatType;
  external_port : NucleusClient -> option Z;
  external_addr : NucleusClient -> option string;
  client_set_external_port : Z -> NucleusClient -> NucleusClient;
  client_set_external_addr : string -> NucleusClient -> NucleusClient;
  from_secret_key : list Z -> bool -> SignalingEncryption;
  no_encryption : bool -> SignalingEncryption;
  get_signaling_type : list Z -> option Z;
  decrypt : SignalingEncryption -> list Z -> result string (list Z) * SignalingEncryption;
  parse_register_ack : list Z -> option string -> result string RegisterAck;
  parse_heartbeat_ack : list Z -> option string -> result string HeartbeatAck;
  parse_peer_info : list Z -> option string -> result string PeerInfoReply;
  parse_peer_notify : list Z -> option string -> result string PeerNotify;
  MSG_ENCRYPTED : Z; SIGNALING_REGISTER_ACK : Z; SIGNALING_HEARTBEAT_ACK : Z;
  SIGNALING_PEER_INFO : Z; SIGNALING_PEER_NOTIFY : Z }.

Section Proto.
Context `{Signaling}.

(** ** The protocol object *)

Record PeerInfo : Type := {
  vip : Z; peer_vip_v6 : option Z; endpoint : option SocketAddr; public_key : list Z;
  nat_type : option NatType; mapped_endpoint : option SocketAddr }.

Record PeerUpdate : Type := { peers : list PeerInfo; removed_vips : list Z }.

Record OmniProto : Type := {
  client : NucleusClient; nucleus_host : string; vip_v6 : option Z; encryption : SignalingEncryption }.

Definition new (host cluster secret_key : string) (virtual_ip : Z) (virtual_ip_v6 : option Z)
    (listen_port : Z) (public_key private_key : list Z) : result string OmniProto :=
  let psk := if bool_decide (secret_key = "") then None else Some secret_key in
  client ← with_ipv6 host cluster public_key virtual_ip virtual_ip_v6 listen_port psk;
  let encryption := if bool_decide (secret_key = "") then no_encryption false
                    else from_secret_key private_key true in
  Ok {| client := client; nucleus_host := host; vip_v6 := virtual_ip_v6; encryption := encryption |}.

(** ** Packets *)

(** The macro: parse again without the secret when the check of the HMAC fails. *)
Definition parse_with_hmac_fallback {A} (parse : list Z -> option string -> result string A)
    (buf : list Z) (secret : option string) : result string A :=
  match parse buf secret with
  | Ok a => Ok a
  | Err e => if bool_decide (secret <> None) && contains e "HMAC verification failed"
             then parse buf None else Err e
  end.

Definition peer_info (p : WirePeer) : PeerInfo := {|
  vip := w_vip p; peer_vip_v6 := w_vip_v6 p; endpoint := parse_socket_addr (w_endpoint p);
  public_key := w_public_key p; nat_type := w_nat_type p;
  mapped_endpoint := w_mapped_endpoint p ≫= parse_socket_addr |}.

(** The message types after decryption. *)
Definition handle_message (msg_type : Z) (buf : list Z) (secret : option string)
    : result string (option PeerUpdate) :=
  if msg_type =? SIGNALING_REGISTER_ACK then
    ack ← parse_with_hmac_fallback parse_register_ack buf secret;
    Ok (Some {| peers := map peer_info (recent_peers ack); removed_vips := [] |})
  else if msg_type =? SIGNALING_HEARTBEAT_ACK then
    ack ← parse_with_hmac_fallback parse_heartbeat_ack buf secret;
    Ok (Some {| peers := map peer_info (new_peers ack); removed_vips := gone_vips ack |})
  else if msg_type =? SIGNALING_PEER_INFO then
    info ← parse_with_hmac_fallback parse_peer_info buf secret;
    Ok (Some {| peers := match found info, found_peer info with
                         | true, Some p => [peer_info p] | _, _ => [] end;
                removed_vips := [] |})
  else if msg_type =? SIGNALING_PEER_NOTIFY then
    match parse_with_hmac_fallback parse_peer_notify buf secret with
    | Ok notify => Ok (Some {| peers := [peer_info (notified notify)]; removed_vips := [] |})
    | Err _ => Ok None
    end
  else Ok None.

Definition set_encryption (e : SignalingEncryption) (p : OmniProto) : OmniProto := {|
  client := client p; nucleus_host := nucleus_host p; vip_v6 := vip_v6 p; encryption := e |}.

Definition handle_packet (p : OmniProto) (buf : list Z) (secret : option string)
    : result string (option PeerUpdate) * OmniProto :=
  match get_signaling_type buf with
  | None => (Err "Empty signaling packet", p)
  | Some msg_type =>
      if msg_type =? MSG_ENCRYPTED then
        let '(reply, enc) := decrypt (encryption p) buf in
        let p := set_encryption enc p in
        match reply with
        | Err e => (Err ("Failed to decrypt signaling message: " +:+ e), p)
        | Ok plaintext =>
            match get_signaling_type plaintext with
            | None => (Err "Empty signaling packet after decryption", p)
            | Some msg_type => (handle_message msg_type plaintext secret, p)
            end
        end
      else (handle_message msg_type buf secret, p)
  end.

(** ** Addresses and NAT *)

Definition set_client (c : NucleusClient) (p : OmniProto) : OmniProto := {|
  client := c; nucleus_host := nucleus_host p; vip_v6 := vip_v6 p; encryption := encryption p |}.

Definition current_vip_v6 (p : OmniProto) : option Z :=
  match client_vip_v6 (client p) with Some v => Some v | None => vip_v6 p end.
Definition get_nat_type (p : OmniProto) : option NatType := client_nat_type (client p).
Definition is_nat_detected (p : OmniProto) : bool := bool_decide (get_nat_type p <> None).
Definition get_nat_description (p : OmniProto) : string :=
  match get_nat_type p with
  | Some Unknown => "Unknown (detection in progress)"
  | Some Open => "Open (no NAT, direct connectivity)"
  | Some FullCone => "Full Cone (easiest NAT type for P2P)"
  | Some RestrictedCone => "Restricted Cone (moderate NAT)"
  | Some PortRestrictedCone => "Port-Restricted Cone (strict NAT)"
  | Some Symmetric => "Symmetric (hardest NAT, relay required)"
  | None => "Not yet detected"
  end.
Definition set_external_port (port : Z) (p : OmniProto) : OmniProto :=
  set_client (client_set_external_port port (client p)) p.
Definition set_external_addr (addr : string) (p : OmniProto) : OmniProto :=
  set_client (client_set_external_addr addr (client p)) p.
Definition get_external_port (p : OmniProto) : option Z := external_port (client p).
Definition get_external_addr (p : OmniProto) : option string := external_addr (client p).
Definition is_ipv6_enabled (p : OmniProto) : bool := bool_decide (vip_v6 p <> None).
Definition get_ipv6_summary (p : OmniProto) : string :=
  match vip_v6 p with
  | Some v6 => "IPv6 Enabled (" +:+ show_ipv6 v6 +:+ ")"
  | None => "IPv6 Disabled"
  end.

(** ** What the secret is worth *)

(** The packet that is parsed in the end: the plaintext of an encrypted one. *)
Definition effective (p : OmniProto) (buf : list Z) : list Z :=
  match get_signaling_type buf with
  | Some t => if t =? MSG_ENCRYPTED
              then match (decrypt (encryption p) buf).1 with Ok plain => plain | Err _ => buf end
              else buf
  | None => buf
  end.

(** The HMAC of the packet does not verify under the secret. *)
Definition hmac_fails {A} (parse : list Z -> option string -> result string A) (buf : list Z)
    (secret : string) : Prop :=
  exists e, parse buf (Some secret) = Err e /\ contains e "HMAC verification failed" = true.

Lemma fallback_forgets {A} (parse : list Z -> option string -> result string A) buf secret :
  hmac_fails parse buf secret ->
  parse_with_hmac_fallback parse buf (Some secret) = parse_with_hmac_fallback parse buf None.
Proof.
  intros (e & He & Hc). unfold parse_with_hmac_fallback. rewrite He, Hc. simpl.
  by destruct (parse buf None).
Qed.

(** A packet that is not signed with the secret of the cluster is
    handled exactly as if there were no secret: whatever a cluster without a
    secret would accept, this one accepts. *)
Theorem unsigned_packet_accepted p buf secret :
  let b := effective p buf in
  hmac_fails parse_register_ack b secret -> hmac_fails parse_heartbeat_ack b secret ->
  hmac_fails parse_peer_info b secret -> hmac_fails parse_peer_notify b secret ->
  handle_packet p buf (Some secret) = handle_packet p buf None.
Proof.
  intros b H1 H2 H3 H4.
  assert (Hm : forall t, handle_message t b (Some secret) = handle_message t b None).
  { intros t. unfold handle_message. by rewrite !fallback_forgets. }
  unfold handle_packet. unfold b, effective in Hm.
  destruct (get_signaling_type buf) as [t|]; [|done].
  destruct (t =? MSG_ENCRYPTED); [|by rewrite Hm].
  destruct (decrypt (encryption p) buf) as [[plain|e] enc]; [|done]. simpl in Hm.
  destruct (get_signaling_type plain); [by rewrite Hm|done].
Qed.

(** an encrypted packet is handled as its plaintext, except that one
    encrypted twice is ignored; what cannot be decrypted is an error, and
    packets that are not encrypted are accepted all the same. *)
Theorem encrypted_like_plaintext p buf secret :
  get_signaling_type buf = Some MSG_ENCRYPTED ->
  ~ MSG_ENCRYPTED ∈ [SIGNALING_REGISTER_ACK; SIGNALING_HEARTBEAT_ACK; SIGNALING_PEER_INFO;
                     SIGNALING_PEER_NOTIFY] ->
  (handle_packet p buf secret).1 =
  match (decrypt (encryption p) buf).1 with
  | Err e => Err ("Failed to decrypt signaling message: " +:+ e)
  | Ok plain =>
      if decide (get_signaling_type plain = None) then Err "Empty signaling packet after decryption"
      else if decide (get_signaling_type plain = Some MSG_ENCRYPTED) then Ok None
      else (handle_packet p plain secret).1
  end.
Proof.
  intros Hb Hne. unfold handle_packet. rewrite Hb, Z.eqb_refl.
  destruct (decrypt (encryption p) buf) as [[plain|e] enc]; simpl; [|done].
  destruct (get_signaling_type plain) as [t|]; [|done].
  destruct (decide (Some t = None)); [done|].
  destruct (decide (Some t = Some MSG_ENCRYPTED)) as [[= ->]|Hn]; simpl.
  - unfold handle_message. rewrite !not_elem_of_cons in Hne.
    destruct Hne as (? & ? & ? & ? & _). by do 4 (rewrite (proj2 (Z.eqb_neq _ _)) by done).
  - destruct (Z.eqb_spec t MSG_ENCRYPTED); [congruence|done].
Qed.

(** ** Peers arrive as they were announced *)

Definition v4_in_range (a : SocketAddr) : Prop :=
  (exists z, sa_ip a = V4 z /\ 0 <= z < 2 ^ 32) /\ 0 <= sa_port a <= u16_max.

(** A peer in a message. *)
Definition announce (p : PeerInfo) : WirePeer := {|
  w_vip := vip p; w_vip_v6 := peer_vip_v6 p;
  w_endpoint := from_option show_socket_addr "" (endpoint p); w_public_key := public_key p;
  w_nat_type := nat_type p; w_mapped_endpoint := show_socket_addr <$> mapped_endpoint p |}.

Lemma parse_announced a : v4_in_range a -> parse_socket_addr (show_socket_addr a) = Some a.
Proof.
  intros [(z & Hz & Hr) Hp]. destruct a as [ip port]. simpl in *. subst ip.
  by apply parse_show_socket_addr.
Qed.

Lemma peer_info_announce p :
  (forall a, endpoint p = Some a \/ mapped_endpoint p = Some a -> v4_in_range a) ->
  peer_info (announce p) = p.
Proof.
  intros Hr. unfold peer_info, announce. cbn [w_vip w_vip_v6 w_endpoint w_public_key w_nat_type w_mapped_endpoint].
  assert (He : parse_socket_addr (from_option show_socket_addr "" (endpoint p)) = endpoint p).
  { destruct (endpoint p) eqn:E; simpl; [apply parse_announced; eauto|done]. }
  assert (Hm : (show_socket_addr <$> mapped_endpoint p) ≫= parse_socket_addr = mapped_endpoint p).
  { destruct (mapped_endpoint p) eqn:E; simpl; [apply parse_announced; eauto|done]. }
  rewrite He, Hm. by destruct p.
Qed.

(** Peers with IPv4 endpoints that the Nucleus announces in a
    registration or heartbeat reply reach the manager exactly as announced, in
    order, peers without an endpoint included; only a heartbeat removes any. *)
Theorem announced_peers_arrive p buf secret ps gone :
  Forall (fun q => forall a, endpoint q = Some a \/ mapped_endpoint q = Some a -> v4_in_range a) ps ->
  NoDup [MSG_ENCRYPTED; SIGNALING_REGISTER_ACK; SIGNALING_HEARTBEAT_ACK] ->
  (get_signaling_type buf = Some SIGNALING_REGISTER_ACK /\ gone = [] /\
   (exists b, parse_register_ack buf secret = Ok {| success := b; recent_peers := map announce ps |})
   \/ get_signaling_type buf = Some SIGNALING_HEARTBEAT_ACK /\
      parse_heartbeat_ack buf secret = Ok {| new_peers := map announce ps; gone_vips := gone |}) ->
  handle_packet p buf secret = (Ok (Some {| peers := ps; removed_vips := gone |}), p).
Proof.
  intros Hps Hnd Hm.
  assert (Hmap : map peer_info (map announce ps) = ps).
  { clear Hm. induction Hps as [|q ps Hq _ IH]; simpl; [done|]. by rewrite peer_info_announce, IH. }
  rewrite !NoDup_cons, !elem_of_cons in Hnd. unfold handle_packet, handle_message, parse_with_hmac_fallback.
  destruct Hm as [(-> & -> & b & Hack)|(-> & Hack)].
  - destruct (Z.eqb_spec SIGNALING_REGISTER_ACK MSG_ENCRYPTED); [naive_solver|].
    rewrite Z.eqb_refl, Hack. simpl. by rewrite Hmap.
  - destruct (Z.eqb_spec SIGNALING_HEARTBEAT_ACK MSG_ENCRYPTED); [naive_solver|].
    destruct (Z.eqb_spec SIGNALING_HEARTBEAT_ACK SIGNALING_REGISTER_ACK); [naive_solver|].
    rewrite Z.eqb_refl, Hack. simpl. by rewrite Hmap.
Qed.
End Proto.

(** ** Witnesses

    A toy codec: the first byte is the type, signed packets end in 99, an
    encrypted packet is the byte 5 and the plaintext. *)

Definition toy_peer : WirePeer := {|
  w_vip := 42; w_vip_v6 := None; w_endpoint := "192.0.2.7:51820"; w_public_key := [1; 2];
  w_nat_type := Some FullCone; w_mapped_endpoint := None |}.

Definition toy_check {A} (a : A) (buf : list Z) (secret : option string) : result string A :=
  if bool_decide (secret = None) || bool_decide (last buf = Some 99) then Ok a
  else Err "HMAC verification failed".

Definition toy_signaling : Signaling := {|
  NucleusClient := unit; SignalingEncryption := unit;
  with_ipv6 := fun _ _ _ _ _ _ _ => Ok tt; client_vip_v6 := fun _ => None;
  client_nat_type := fun _ => None; external_port := fun _ => None; external_addr := fun _ => None;
  client_set_external_port := fun _ c => c; client_set_external_addr := fun _ c => c;
  from_secret_key := fun _ _ => tt; no_encryption := fun _ => tt;
  get_signaling_type := head; decrypt := fun _ buf => (Ok (tail buf), tt);
  parse_register_ack := toy_check {| success := true; recent_peers := [toy_peer] |};
  parse_heartbeat_ack := toy_check {| new_peers := [toy_peer]; gone_vips := [7] |};
  parse_peer_info := toy_check {| found := false; found_peer := None |};
  parse_peer_notify := toy_check {| notified := toy_peer |};
  MSG_ENCRYPTED := 5; SIGNALING_REGISTER_ACK := 1; SIGNALING_HEARTBEAT_ACK := 2;
  SIGNALING_PEER_INFO := 3; SIGNALING_PEER_NOTIFY := 4 |}.
#[local] Existing Instance toy_signaling.

Definition toy_proto : OmniProto := {|
  client := tt; nucleus_host := "nucleus"; vip_v6 := None; encryption := tt |}.

Definition toy_info : PeerInfo := {|
  vip := 42; peer_vip_v6 := None;
  endpoint := Some {| sa_ip := ipv4 192 0 2 7; sa_port := 51820 |}; public_key := [1; 2];
  nat_type := Some FullCone; mapped_endpoint := None |}.

Lemma unsigned_packet_accepted_witness :
  (handle_packet toy_proto [2; 0] (Some "secret")).1 =
    Ok (Some {| peers := [toy_info]; removed_vips := [7] |}) /\
  handle_packet toy_proto [2; 0] (Some "secret") = handle_packet toy_proto [2; 0] None.
Proof.
  split; [vm_compute; reflexivity|].
  apply (unsigned_packet_accepted toy_proto [2; 0] "secret");
    exists "HMAC verification failed"; split; reflexivity.
Defined.

Lemma encrypted_like_plaintext_witness :
  (handle_packet toy_proto [5; 2; 99] (Some "secret")).1 =
  (handle_packet toy_proto [2; 99] (Some "secret")).1.
Proof.
  rewrite (encrypted_like_plaintext toy_proto [5; 2; 99] (Some "secret") eq_refl).
  - reflexivity.
  - rewrite !elem_of_cons, elem_of_nil. simpl. lia.
Defined.

Lemma announced_peers_arrive_witness :
  handle_packet toy_proto [2; 99] (Some "secret") =
  (Ok (Some {| peers := [toy_info]; removed_vips := [7] |}), toy_proto).
Proof.
  apply announced_peers_arrive.
  - repeat constructor; simpl in *; destruct H; simplify_eq; simpl; unfold u16_max; try lia.
    eexists. split; [reflexivity|lia].
  - rewrite !NoDup_cons, !elem_of_cons, !elem_of_nil. simpl. repeat split; try lia. constructor.
  - right. split; vm_compute; reflexivity.
Defined.
