(* ===== verification/Peers.v ===== *)
(** * Peers (omni-core/src/manager.rs, first part)

    Addresses of a dual-stack socket, the strategy for a pair of NATs, and the
    state the manager keeps for a peer.  The set of endpoints of a peer is a
    type of the omninervous crate: the class [EndpointSets], whose instances
    also answer for the time those functions read. *)

From Stdlib Require Import Ascii.
From S2P Require Import Prelude RustStr Net Proto.

Open Scope string_scope.
Open Scope list_scope.
Open Scope Z_scope.

(** ** Addresses *)

(** [to_ipv4_mapped] and [to_ipv6_mapped] of the standard library. *)
Definition to_ipv4_mapped (v6 : Z) : option Z :=
  if v6 / 2 ^ 32 =? 65535 then Some (v6 mod 2 ^ 32) else None.
Definition to_ipv6_mapped (v4 : Z) : Z := 65535 * 2 ^ 32 + v4.

Definition normalize_addr (addr : SocketAddr) : SocketAddr :=
  match sa_ip addr with
  | V6 v6 => match to_ipv4_mapped v6 with
             | Some v4 => {| sa_ip := V4 v4; sa_port := sa_port addr |}
             | None => addr
             end
  | V4 _ => addr
  end.

(** [macos]: the [cfg] of the build. *)
Definition to_mapped_v6 (macos : bool) (addr : SocketAddr) : SocketAddr :=
  if macos then
    match sa_ip addr with
    | V4 v4 => {| sa_ip := V6 (to_ipv6_mapped v4); sa_port := sa_port addr |}
    | V6 _ => addr
    end
  else addr.

(** ** Strategies *)

Inductive ConnectionStrategy : Set := Direct | SimultaneousOpen | PortPrediction | RelayOnly.

#[global] Instance ConnectionStrategy_eq_dec : EqDecision ConnectionStrategy.
Proof. solve_decision. Defined.

Definition description (s : ConnectionStrategy) : string :=
  match s with
  | Direct => "Direct (standard disco)"
  | SimultaneousOpen => "Simultaneous Open (both sides ping)"
  | PortPrediction => "Port Prediction (symmetric NAT workaround)"
  | RelayOnly => "Relay Only (skip direct attempts)"
  end.

Definition select_connection_strategy (our_nat peer_nat : option NatType) : ConnectionStrategy :=
  match our_nat, peer_nat with
  | Some Open, _ | _, Some Open => Direct
  | Some FullCone, _ | _, Some FullCone => Direct
  | Some Symmetric, Some Symmetric => RelayOnly
  | Some Symmetric, _ | _, Some Symmetric => PortPrediction
  | Some RestrictedCone, Some RestrictedCone => SimultaneousOpen
  | Some PortRestrictedCone, Some PortRestrictedCone => SimultaneousOpen
  | Some RestrictedCone, Some PortRestrictedCone
  | Some PortRestrictedCone, Some RestrictedCone => SimultaneousOpen
  | _, _ => Direct
  end.

(** ** The state of a peer *)

Inductive EndpointSource : Set := Nucleus | DirectProbe | PortMap | Relay.

#[global] Instance EndpointSource_eq_dec : EqDecision EndpointSource.
Proof. solve_decision. Defined.

Record EndpointInfo : Type := { addr : SocketAddr; source : EndpointSource; latency : option Z }.

Class EndpointSets : Type := {
  EndpointSet : Type;
  es_new : EndpointSet;
  es_upsert : SocketAddr -> EndpointSource -> EndpointSet -> EndpointSet;
  es_record_pong : SocketAddr -> Z -> EndpointSet -> EndpointSet;
  es_mark_failed : SocketAddr -> EndpointSet -> EndpointSet;
  es_mark_probing : SocketAddr -> EndpointSet -> EndpointSet;
  es_has_working_connection : EndpointSet -> bool;
  es_needs_relay : EndpointSet -> bool;
  es_best : EndpointSet -> option EndpointInfo;
  es_best_addr : EndpointSet -> option SocketAddr;
  es_needing_probe : Z -> EndpointSet -> list SocketAddr;
  es_endpoints : EndpointSet -> list EndpointInfo }.

(** The states the source names. *)
Inductive PeerConnectionState : Set := Init | DirectTry | DirectOk | RelayTry | RelayOk | Failed.

#[global] Instance PeerConnectionState_eq_dec : EqDecision PeerConnectionState.
Proof. solve_decision. Defined.

Record PendingDiscoPing : Type := {
  tx_id : list Z; target : SocketAddr; target_vip : Z; sent_at : Z; retries : Z; max_retries : Z }.

Record LocalDiscoConfig : Type := {
  ping_timeout : Z; config_max_retries : Z; relay_enabled : bool }.

Definition LocalDiscoConfig_default : LocalDiscoConfig := {|
  ping_timeout := from_secs 5; config_max_retries := 3; relay_enabled := true |}.

Section PeerState.
Context `{EndpointSets}.

Record PeerState : Type := {
  ps_vip : Z; ps_vip_v6 : option Z; ps_public_key : list Z; endpoints : EndpointSet;
  state : PeerConnectionState; discovered_at : Z; last_seen : option Z; using_relay : bool;
  peer_nat_type : option NatType; connection_strategy : ConnectionStrategy }.

Definition first_endpoints (endpoint : option SocketAddr) : EndpointSet :=
  match endpoint with Some a => es_upsert a Nucleus es_new | None => es_new end.

Definition PeerState_new (now vip : Z) (vip_v6 : option Z) (public_key : list Z)
    (endpoint : option SocketAddr) : PeerState := {|
  ps_vip := vip; ps_vip_v6 := vip_v6; ps_public_key := public_key;
  endpoints := first_endpoints endpoint; state := Init; discovered_at := now; last_seen := None;
  using_relay := false; peer_nat_type := None; connection_strategy := Direct |}.

Definition with_nat_strategy (now vip : Z) (vip_v6 : option Z) (public_key : list Z)
    (endpoint : option SocketAddr) (our_nat_type peer_nat : option NatType) : PeerState := {|
  ps_vip := vip; ps_vip_v6 := vip_v6; ps_public_key := public_key;
  endpoints := first_endpoints endpoint; state := Init; discovered_at := now; last_seen := None;
  using_relay := false; peer_nat_type := peer_nat;
  connection_strategy := select_connection_strategy our_nat_type peer_nat |}.

(** The endpoints, state, last contact and use of the relay of a peer change
    together or alone; nothing else does, except as [update_strategy] and
    [set_vip_v6] say. *)
Definition set_link (es : EndpointSet) (s : PeerConnectionState) (seen : option Z) (relay : bool)
    (p : PeerState) : PeerState := {|
  ps_vip := ps_vip p; ps_vip_v6 := ps_vip_v6 p; ps_public_key := ps_public_key p; endpoints := es;
  state := s; discovered_at := discovered_at p; last_seen := seen; using_relay := relay;
  peer_nat_type := peer_nat_type p; connection_strategy := connection_strategy p |}.
Definition set_endpoints (es : EndpointSet) (p : PeerState) : PeerState :=
  set_link es (state p) (last_seen p) (using_relay p) p.
Definition set_state (s : PeerConnectionState) (p : PeerState) : PeerState :=
  set_link (endpoints p) s (last_seen p) (using_relay p) p.
Definition set_last_seen (seen : option Z) (p : PeerState) : PeerState :=
  set_link (endpoints p) (state p) seen (using_relay p) p.

Definition set_vip_v6 (v6 : option Z) (p : PeerState) : PeerState := {|
  ps_vip := ps_vip p; ps_vip_v6 := v6; ps_public_key := ps_public_key p; endpoints := endpoints p;
  state := state p; discovered_at := discovered_at p; last_seen := last_seen p;
  using_relay := using_relay p; peer_nat_type := peer_nat_type p;
  connection_strategy := connection_strategy p |}.

Definition update_strategy (our_nat_type peer_nat : option NatType) (p : PeerState) : PeerState := {|
  ps_vip := ps_vip p; ps_vip_v6 := ps_vip_v6 p; ps_public_key := ps_public_key p;
  endpoints := endpoints p; state := state p; discovered_at := discovered_at p;
  last_seen := last_seen p; using_relay := using_relay p; peer_nat_type := peer_nat;
  connection_strategy := select_connection_strategy our_nat_type peer_nat |}.

Definition add_endpoint (a : SocketAddr) (src : EndpointSource) (p : PeerState) : PeerState :=
  set_endpoints (es_upsert a src (endpoints p)) p.

Definition record_pong (now : Z) (a : SocketAddr) (rtt : Z) (p : PeerState) : PeerState :=
  let es := es_record_pong a rtt (endpoints p) in
  if es_has_working_connection es then
    if from_option (fun e => bool_decide (source e = Relay)) false (es_best es)
    then set_link es RelayOk (Some now) true p
    else set_link es DirectOk (Some now) false p
  else set_link es (state p) (Some now) (using_relay p) p.

Definition mark_endpoint_failed (a : SocketAddr) (p : PeerState) : PeerState :=
  let es := es_mark_failed a (endpoints p) in
  set_link es (if es_needs_relay es then RelayTry else state p) (last_seen p) (using_relay p) p.

Definition mark_relayed (now : Z) (p : PeerState) : PeerState :=
  set_link (endpoints p) RelayOk (Some now) true p.

Definition mark_probing (a : SocketAddr) (p : PeerState) : PeerState :=
  set_endpoints (es_mark_probing a (endpoints p)) p.

Definition best_endpoint (p : PeerState) : option SocketAddr := es_best_addr (endpoints p).
Definition best_endpoint_info (p : PeerState) : option EndpointInfo := es_best (endpoints p).
Definition endpoints_needing_probe (interval : Z) (p : PeerState) : list SocketAddr :=
  es_needing_probe interval (endpoints p).
Definition endpoint_count (p : PeerState) : nat := length (es_endpoints (endpoints p)).
Definition has_working_connection (p : PeerState) : bool := es_has_working_connection (endpoints p).

(** The addresses a peer is known under. *)
Definition endpoint_addrs (p : PeerState) : list SocketAddr := map addr (es_endpoints (endpoints p)).

(** ** What the manager reports *)

Definition get_connected_peer_count (peers : gmap Z PeerState) : nat :=
  size (filter (fun kv => state kv.2 = DirectOk) peers).
Definition get_relayed_peer_count (peers : gmap Z PeerState) : nat :=
  size (filter (fun kv => using_relay kv.2 = true) peers).
Definition is_peer_using_relay (vip : Z) (peers : gmap Z PeerState) : bool :=
  from_option using_relay false (peers !! vip).
End PeerState.

(** ** Lemmas *)

Lemma mapped_round_trip v4 : 0 <= v4 < 2 ^ 32 -> to_ipv4_mapped (to_ipv6_mapped v4) = Some v4.
Proof.
  intros Hv. unfold to_ipv4_mapped, to_ipv6_mapped.
  rewrite Z.add_comm, Z.div_add, Z.div_small by lia. simpl. by rewrite Z.mod_add, Z.mod_small by lia.
Qed.

(** mapping an address for sending does not change which peer it is:
    normalising gives the normal form of the original back, and the normal
    form of an address the kernel reports is unchanged by another pass. *)
Theorem normalize_mapped macos a :
  (forall v4, sa_ip a = V4 v4 -> 0 <= v4 < 2 ^ 32) ->
  normalize_addr (to_mapped_v6 macos a) = normalize_addr a /\
  normalize_addr (normalize_addr a) = normalize_addr a.
Proof.
  intros Hr. destruct a as [[v4|v6] port]; unfold normalize_addr, to_mapped_v6; simpl.
  - destruct macos; simpl; [|done]. by rewrite mapped_round_trip by auto.
  - destruct macos; simpl; destruct (to_ipv4_mapped v6) eqn:E; simpl; by rewrite ?E.
Qed.

(** How hard a NAT is to reach, as the strategies rank it. *)
Definition easy (n : option NatType) : bool := bool_decide (n = Some Open \/ n = Some FullCone).
Definition symmetric (n : option NatType) : bool := bool_decide (n = Some Symmetric).
Definition restricted (n : option NatType) : bool :=
  bool_decide (n = Some RestrictedCone \/ n = Some PortRestrictedCone).

(** both ends of a link choose the same strategy from their two NATs:
    direct when one is easy, the relay alone when both are symmetric, port
    prediction when one is, a simultaneous open between restricted ones, and
    direct when a type is not known. *)
Theorem strategies_agree ours theirs :
  select_connection_strategy ours theirs = select_connection_strategy theirs ours /\
  select_connection_strategy ours theirs =
    if easy ours || easy theirs then Direct
    else if symmetric ours && symmetric theirs then RelayOnly
    else if symmetric ours || symmetric theirs then PortPrediction
    else if restricted ours && restricted theirs then SimultaneousOpen
    else Direct.
Proof. by destruct ours as [[]|], theirs as [[]|]. Qed.

Lemma normalize_mapped_witness :
  let a := {| sa_ip := ipv4 192 0 2 7; sa_port := 51820 |} in
  to_mapped_v6 true a <> a /\
  normalize_addr (to_mapped_v6 true a) = normalize_addr a.
Proof.
  split; [done|]. apply normalize_mapped. intros v4 [= <-]. lia.
Defined.
