(* ===== verification/Dispatcher.v ===== *)
(** * The dispatcher (omni-core/src/manager.rs, the main loop of start_loops)

    What the manager does with each datagram of its socket and with each tick
    of its timer: disco pings and pongs, relay replies, updates from the
    Nucleus, retries and the fall-back to the relay.  One task owns the maps
    of peers and pings while the loop runs, so they are a state; the socket,
    the tunnel, the clock and the order in which a hash map is walked are
    calls. *)

From Stdlib Require Import Ascii.
From S2P Require Import Prelude RustStr Net Effects Proto Peers.

Open Scope string_scope.
Open Scope list_scope.
Open Scope Z_scope.

(** ** The codec of disco and relay messages *)

Record DiscoPing : Type := {
  ping_tx_id : list Z; sender_key : list Z; sender_vip : Z; sender_vip_v6 : option Z;
  ping_wg_port : option Z }.
Record DiscoPong : Type := {
  pong_tx_id : list Z; observed_addr : string; responder_key : list Z;
  responder_vip_v6 : option Z; pong_wg_port : option Z }.
Record RelayBindAck : Type := {
  ack_success : bool; session_id : option (list Z); target_key : option (list Z);
  transparent : bool; relay_endpoint : option string }.

Class Disco : Type := {
  RelayClient : Type;
  BindRequest : Type;
  parse_disco_ping : list Z -> result string DiscoPing;
  parse_disco_pong : list Z -> result string DiscoPong;
  encode_disco_ping : DiscoPing -> result string (list Z);
  encode_disco_pong : DiscoPong -> result string (list Z);
  is_relay_message : list Z -> bool;
  parse_relay_bind_ack : list Z -> result string RelayBindAck;
  parse_relay_data : list Z -> result string (list Z * list Z);
  create_bind_request_with_mode : RelayClient -> list Z -> Z -> bool -> option Z -> BindRequest * RelayClient;
  encode_relay_bind : BindRequest -> result string (list Z);
  SIGNALING_DISCO_PING : Z; SIGNALING_DISCO_PONG : Z; MSG_RELAY_BIND_ACK : Z; MSG_RELAY_DATA : Z }.

(** ** Text of keys and addresses *)

Definition hex_encode (bytes : list Z) : string :=
  String.concat "" (map (fun b => String (hex_digit (b / 16 mod 16)) (String (hex_digit (b mod 16)) "")) bytes).

(** The addresses WireGuard routes to a peer. *)
Definition allowed_ips (vip : Z) (vip_v6 : option Z) : list string :=
  (show_ipv4 vip +:+ "/32") :: match vip_v6 with Some v6 => [show_ipv6 v6 +:+ "/128"] | None => [] end.

(** ** The outside world

    [PeerOrder] and [PingOrder]: the order a hash map with these keys is
    walked in. *)
Inductive DCall : Set -> Set :=
| InstantNow : DCall Z
| RandomTx : DCall (list Z)
| SendTo (data : list Z) (to : SocketAddr) : DCall (result string unit)
| AddPeer (pubkey : string) (endpoint : option SocketAddr) (ips : list string) : DCall (result string unit)
| TunPacket (pkt : list Z) (src : SocketAddr) : DCall (result string unit)
| PeerOrder (vips : list Z) : DCall (list Z)
| PingOrder (ids : list (list Z)) : DCall (list (list Z)).

(** What the loop knows from the start. *)
Record Env : Type := {
  our_public_key : list Z; our_vip : option Z; our_vip_v6 : option Z; wg_listen_port : option Z;
  disco_config : LocalDiscoConfig; relay_server_addr : option SocketAddr; secret : option string;
  macos : bool }.

Section Dispatcher.
Context `{Signaling, EndpointSets, Disco} (env : Env).

(** [peer_states], [pending_pings], [relay_sessions], [proto] and [relay_client]. *)
Record DState : Type := {
  peers : gmap Z PeerState; pending : gmap (list Z) PendingDiscoPing;
  relay_sessions : gmap (list Z) (list Z); proto : OmniProto; relay : option RelayClient }.

Definition set_peers (m : gmap Z PeerState) (s : DState) : DState := {|
  peers := m; pending := pending s; relay_sessions := relay_sessions s; proto := proto s; relay := relay s |}.
Definition set_pending (m : gmap (list Z) PendingDiscoPing) (s : DState) : DState := {|
  peers := peers s; pending := m; relay_sessions := relay_sessions s; proto := proto s; relay := relay s |}.
Definition add_session (key sid : list Z) (s : DState) : DState := {|
  peers := peers s; pending := pending s; relay_sessions := <[key := sid]> (relay_sessions s);
  proto := proto s; relay := relay s |}.
Definition set_proto (p : OmniProto) (s : DState) : DState := {|
  peers := peers s; pending := pending s; relay_sessions := relay_sessions s; proto := p; relay := relay s |}.
Definition set_relay (c : RelayClient) (s : DState) : DState := {|
  peers := peers s; pending := pending s; relay_sessions := relay_sessions s; proto := proto s;
  relay := Some c |}.

(** No handler fails: errors of calls are logged where they occur. *)
Abbreviation DM := (SM DCall DState Empty_set) (only parsing).

Definition put_peer (vip : Z) (p : PeerState) : DM unit := modify (fun s => set_peers (<[vip := p]> (peers s)) s).
Definition change_peer (vip : Z) (f : PeerState -> PeerState) : DM unit :=
  modify (fun s => set_peers (alter f vip (peers s)) s).

Definition send (data : list Z) (to : SocketAddr) : DM bool :=
  sent ← call (SendTo data (to_mapped_v6 (macos env) to)); mret (is_ok sent).

(** [tun_ctrl.add_peer] with the key and the addresses of the peer. *)
Definition configure (key : list Z) (vip : Z) (vip_v6 : option Z) (endpoint : option SocketAddr) : DM unit :=
  _ ← call (AddPeer (hex_encode key) endpoint (allowed_ips vip vip_v6)); mret tt.

Definition configure_best (p : PeerState) : DM unit :=
  match best_endpoint p with
  | Some ep => configure (ps_public_key p) (ps_vip p) (ps_vip_v6 p) (Some ep)
  | None => mret tt
  end.

Definition our_ping (tx : list Z) : DiscoPing := {|
  ping_tx_id := tx; sender_key := our_public_key env; sender_vip := from_option id 0 (our_vip env);
  sender_vip_v6 := our_vip_v6 env; ping_wg_port := wg_listen_port env |}.

(** Send a ping with a new transaction to an endpoint of a peer; a ping that
    was sent is remembered, [sent] is what else then happens. *)
Definition disco_ping (vip : Z) (endpoint : SocketAddr) (sent : DM unit) : DM unit :=
  tx ← call RandomTx;
  match encode_disco_ping (our_ping tx) with
  | Err _ => mret tt
  | Ok data =>
      ok ← send data endpoint;
      if ok : bool then
        _ ← sent;
        now ← call InstantNow;
        modify (fun s => set_pending
          (<[tx := {| tx_id := tx; target := endpoint; target_vip := vip; sent_at := now; retries := 0;
                      max_retries := config_max_retries (disco_config env) |}]> (pending s)) s)
      else mret tt
  end.

(** ** Pings and pongs *)

Definition send_pong (ping : DiscoPing) (src : SocketAddr) : DM unit :=
  match encode_disco_pong {|
    pong_tx_id := ping_tx_id ping; observed_addr := show_socket_addr src;
    responder_key := our_public_key env; responder_vip_v6 := our_vip_v6 env;
    pong_wg_port := wg_listen_port env |} with
  | Err _ => mret tt
  | Ok data => _ ← send data src; mret tt
  end.

(** A peer first heard of by its ping. *)
Definition pinging_peer (now seen : Z) (ping : DiscoPing) (src : SocketAddr) : PeerState :=
  set_state DirectTry (set_last_seen (Some seen) (add_endpoint src DirectProbe
    (PeerState_new now (sender_vip ping) (sender_vip_v6 ping) (sender_key ping) (Some src)))).

Definition handle_ping (ping : DiscoPing) (src : SocketAddr) : DM unit :=
  _ ← send_pong ping src;
  known ← gets (fun s => peers s !! sender_vip ping);
  match known with
  | Some p =>
      if bool_decide (sender_key ping <> ps_public_key p) then mret tt
      else
        now ← call InstantNow;
        let p := set_last_seen (Some now) (add_endpoint src DirectProbe p) in
        _ ← put_peer (sender_vip ping) p;
        configure_best p
  | None =>
      now ← call InstantNow;
      seen ← call InstantNow;
      _ ← configure (sender_key ping) (sender_vip ping) (sender_vip_v6 ping) (Some src);
      _ ← put_peer (sender_vip ping) (pinging_peer now seen ping src);
      disco_ping (sender_vip ping) src (mret tt)
  end.

Definition handle_pong (pong : DiscoPong) (src : SocketAddr) : DM unit :=
  waiting ← gets (fun s => pending s !! pong_tx_id pong);
  _ ← modify (fun s => set_pending (delete (pong_tx_id pong) (pending s)) s);
  match waiting with
  | None => mret tt
  | Some ping =>
      now ← call InstantNow;
      let rtt := elapsed (sent_at ping) now in
      known ← gets (fun s => peers s !! target_vip ping);
      match known with
      | None => mret tt
      | Some p =>
          if bool_decide (responder_key pong <> ps_public_key p) then mret tt
          else
            seen ← call InstantNow;
            let p := record_pong seen src rtt (add_endpoint src DirectProbe p) in
            _ ← put_peer (target_vip ping) p;
            configure_best p
      end
  end.

(** ** The relay *)

(** The first peer in the order the map is walked in. *)
Fixpoint find_peer (vips : list Z) (f : PeerState -> bool) (m : gmap Z PeerState) : option (Z * PeerState) :=
  match vips with
  | [] => None
  | v :: vips => match m !! v with
                 | Some p => if f p then Some (v, p) else find_peer vips f m
                 | None => find_peer vips f m
                 end
  end.

Definition first_peer (f : PeerState -> bool) : DM (option (Z * PeerState)) :=
  m ← gets peers;
  vips ← call (PeerOrder (map fst (map_to_list m)));
  mret (find_peer vips f m).

Definition relay_wanted (p : PeerState) : bool := bool_decide (state p = RelayTry).

(** The key the acknowledgement is for. *)
Definition ack_key (ack : RelayBindAck) : DM (option (list Z)) :=
  match target_key ack with
  | Some key => mret (Some key)
  | None => found ← first_peer relay_wanted; mret (ps_public_key ∘ snd <$> found)
  end.

Definition relay_target (ack : RelayBindAck) (src : SocketAddr) : option SocketAddr :=
  if transparent ack then Some src
  else match relay_endpoint ack ≫= parse_socket_addr with
       | Some a => Some a
       | None => relay_server_addr env
       end.

Definition relay_bound (ack : RelayBindAck) (sid : list Z) (src : SocketAddr) : DM unit :=
  key ← ack_key ack;
  match key with
  | None => mret tt
  | Some key =>
      found ← first_peer (fun p => bool_decide (ps_public_key p = key));
      match found with
      | None => mret tt
      | Some (vip, p) =>
          if negb (relay_wanted p) then mret tt
          else
            now ← call InstantNow;
            _ ← put_peer vip (mark_relayed now p);
            _ ← modify (add_session (ps_public_key p) sid);
            match relay_target ack src with
            | Some ep => configure (ps_public_key p) (ps_vip p) (ps_vip_v6 p) (Some ep)
            | None => mret tt
            end
      end
  end.

Definition relay_refused (ack : RelayBindAck) : DM unit :=
  match target_key ack with
  | Some key =>
      found ← first_peer (fun p => bool_decide (ps_public_key p = key));
      match found with
      | Some (vip, p) => if relay_wanted p then put_peer vip (set_state Failed p) else mret tt
      | None => mret tt
      end
  | None =>
      found ← first_peer relay_wanted;
      match found with
      | Some (vip, p) => put_peer vip (set_state Failed p)
      | None => mret tt
      end
  end.

Definition handle_relay (first_byte : Z) (pkt : list Z) (src : SocketAddr) : DM unit :=
  if first_byte =? MSG_RELAY_BIND_ACK then
    match parse_relay_bind_ack pkt with
    | Err _ => mret tt
    | Ok ack =>
        if ack_success ack then
          match session_id ack with Some sid => relay_bound ack sid src | None => mret tt end
        else relay_refused ack
    end
  else if first_byte =? MSG_RELAY_DATA then
    match parse_relay_data pkt with
    | Ok (_, wg_packet) => _ ← call (TunPacket wg_packet src); mret tt
    | Err _ => mret tt
    end
  else mret tt.

(** ** Updates from the Nucleus *)

(** A known peer announced with another endpoint than its best one starts over. *)
Definition restart_peer (p : PeerState) : PeerState :=
  let p := fold_left (fun p a => mark_endpoint_failed a p) (endpoint_addrs p) p in
  set_link (endpoints p) Init None false p.

Definition announced_endpoint (endpoint : SocketAddr) (p : PeerState) : PeerState :=
  let changed := from_option (fun prev => bool_decide (prev <> endpoint)) false (best_endpoint p) in
  add_endpoint endpoint Nucleus (if changed && has_working_connection p then restart_peer p else p).

Definition merge_peer (our_nat : option NatType) (info : PeerInfo) (p : PeerState) : PeerState :=
  let p := from_option (fun ep => announced_endpoint ep p) p (endpoint info) in
  let p := from_option (fun ep => add_endpoint ep PortMap p) p (mapped_endpoint info) in
  let p := set_vip_v6 (peer_vip_v6 info) p in
  if bool_decide (peer_nat_type p <> nat_type info) then update_strategy our_nat (nat_type info) p else p.

(** Pings to all endpoints, one after the other. *)
Fixpoint probe_all (vip : Z) (eps : list SocketAddr) : DM unit :=
  match eps with
  | [] => mret tt
  | ep :: eps => _ ← disco_ping vip ep (change_peer vip (mark_probing ep)); probe_all vip eps
  end.

Definition probe (vip : Z) (p : PeerState) : DM unit :=
  _ ← match endpoint_addrs p with
      | ep :: _ => configure (ps_public_key p) vip (ps_vip_v6 p) (Some ep)
      | [] => mret tt
      end;
  _ ← probe_all vip (endpoint_addrs p);
  change_peer vip (set_state DirectTry).

Definition connect_peer (vip : Z) (p : PeerState) : DM unit :=
  match connection_strategy p with
  | RelayOnly => change_peer vip (set_state RelayTry)
  | PortPrediction | SimultaneousOpen => probe vip p
  | Direct =>
      match endpoint_addrs p with
      | [] => configure (ps_public_key p) vip (ps_vip_v6 p) None
      | _ :: _ => probe vip p
      end
  end.

Definition handle_peer (our_nat : option NatType) (info : PeerInfo) : DM unit :=
  known ← gets (fun s => peers s !! vip info);
  p ← match known with
      | Some p => mret p
      | None =>
          now ← call InstantNow;
          mret (with_nat_strategy now (vip info) (peer_vip_v6 info) (public_key info) (endpoint info)
                  our_nat (nat_type info))
      end;
  let p := merge_peer our_nat info p in
  _ ← put_peer (vip info) p;
  if has_working_connection p then
    match best_endpoint p with
    | Some ep => configure (ps_public_key p) (vip info) (ps_vip_v6 p) (Some ep)
    | None => mret tt
    end
  else connect_peer (vip info) p.

Fixpoint handle_peers (our_nat : option NatType) (infos : list PeerInfo) : DM unit :=
  match infos with
  | [] => mret tt
  | info :: infos => _ ← handle_peer our_nat info; handle_peers our_nat infos
  end.

Definition remove_peers (vips : list Z) : DM unit :=
  modify (fun s => set_peers (fold_left (fun m v => delete v m) vips (peers s)) s).

Definition handle_signaling (pkt : list Z) : DM unit :=
  p ← gets proto;
  let '(reply, p) := handle_packet p pkt (secret env) in
  _ ← modify (set_proto p);
  match reply with
  | Ok (Some update) =>
      _ ← handle_peers (get_nat_type p) (Proto.peers update);
      remove_peers (removed_vips update)
  | Ok None | Err _ => mret tt
  end.

(** ** One datagram *)

Definition dispatch (pkt : list Z) (raw_src : SocketAddr) : DM unit :=
  let src := normalize_addr raw_src in
  match pkt with
  | [] => mret tt
  | first_byte :: _ =>
      if first_byte =? SIGNALING_DISCO_PING then
        match parse_disco_ping pkt with Ok ping => handle_ping ping src | Err _ => mret tt end
      else if first_byte =? SIGNALING_DISCO_PONG then
        match parse_disco_pong pkt with Ok pong => handle_pong pong src | Err _ => mret tt end
      else if is_relay_message pkt then handle_relay first_byte pkt src
      else if 17 <=? first_byte then handle_signaling pkt
      else if in_range 1 4 first_byte then _ ← call (TunPacket pkt src); mret tt
      else mret tt
  end.

(** ** One tick of the timer *)

(** The last retry went unanswered. *)
Definition abandon_ping (ping : PendingDiscoPing) : DM unit :=
  known ← gets (fun s => peers s !! target_vip ping);
  match known with
  | None => mret tt
  | Some p =>
      let p := mark_endpoint_failed (target ping) p in
      if es_needs_relay (endpoints p) then
        if relay_enabled (disco_config env) then put_peer (target_vip ping) (set_state RelayTry p)
        else
          _ ← put_peer (target_vip ping) (set_state Failed p);
          configure (ps_public_key p) (ps_vip p) (ps_vip_v6 p) (best_endpoint p)
      else put_peer (target_vip ping) p
  end.

Definition retry (now : Z) (ping : PendingDiscoPing) : PendingDiscoPing := {|
  tx_id := tx_id ping; target := target ping; target_vip := target_vip ping; sent_at := now;
  retries := wrap_add u32_max (retries ping) 1; max_retries := max_retries ping |}.

Definition is_late (now : Z) (ping : PendingDiscoPing) : bool :=
  ping_timeout (disco_config env) <? elapsed (sent_at ping) now.

(** One pending ping; the answer is whether it is to be forgotten. *)
Definition check_ping (now : Z) (tx : list Z) : DM bool :=
  waiting ← gets (fun s => pending s !! tx);
  match waiting with
  | None => mret false
  | Some ping =>
      if is_late now ping then
        if retries ping <? max_retries ping then
          _ ← modify (fun s => set_pending (<[tx := retry now ping]> (pending s)) s);
          _ ← change_peer (target_vip ping) (mark_probing (target ping));
          _ ← match encode_disco_ping (our_ping tx) with
              | Ok data => _ ← send data (target ping); mret tt
              | Err _ => mret tt
              end;
          mret false
        else _ ← abandon_ping ping; mret true
      else mret false
  end.

Fixpoint check_pings (now : Z) (ids : list (list Z)) : DM (list (list Z)) :=
  match ids with
  | [] => mret []
  | tx :: ids =>
      gone ← check_ping now tx;
      rest ← check_pings now ids;
      mret (if gone : bool then tx :: rest else rest)
  end.

Fixpoint bind_relays (to : SocketAddr) (wanted : list (Z * PeerState)) : DM unit :=
  match wanted with
  | [] => mret tt
  | (v, p) :: wanted =>
      client ← gets relay;
      _ ← match client with
          | None => mret tt
          | Some c =>
              let '(req, c) := create_bind_request_with_mode c (ps_public_key p) v true (wg_listen_port env) in
              _ ← modify (set_relay c);
              match encode_relay_bind req with
              | Ok data => _ ← send data to; mret tt
              | Err _ => mret tt
              end
          end;
      bind_relays to wanted
  end.

(** The peers that wait for the relay, in the order of the map. *)
Definition waiting_for_relay (vips : list Z) (m : gmap Z PeerState) : list (Z * PeerState) :=
  List.filter (fun vp => relay_wanted vp.2) (omap (fun v => (fun p => (v, p)) <$> m !! v) vips).

Definition tick : DM unit :=
  now ← call InstantNow;
  pings ← gets pending;
  ids ← call (PingOrder (map fst (map_to_list pings)));
  timed_out ← check_pings now ids;
  _ ← modify (fun s => set_pending (fold_left (fun m tx => delete tx m) timed_out (pending s)) s);
  m ← gets peers;
  vips ← call (PeerOrder (map fst (map_to_list m)));
  match relay_server_addr env with
  | None => mret tt
  | Some to => bind_relays to (waiting_for_relay vips m)
  end.

Inductive Event : Type := Packet (pkt : list Z) (from : SocketAddr) | Tick.

Definition handle_event (e : Event) : DM unit :=
  match e with Packet pkt from => dispatch pkt from | Tick => tick end.
End Dispatcher.
