(* ===== verification/Links.v ===== *)
(** * What the dispatcher guarantees

    The properties of Dispatcher.v: who WireGuard is pointed at, what it takes
    for a link to count as up, how an unanswered ping ends, and what a stranger
    can do. *)

From Stdlib Require Import Ascii.
From S2P Require Import Prelude RustStr Net Effects Proto Peers Dispatcher.

Open Scope string_scope.
Open Scope list_scope.
Open Scope Z_scope.

(** A link is up. *)
Definition up (s : PeerConnectionState) : Prop := s = DirectOk \/ s = RelayOk.

(** ** A property of every peer that all handlers keep

    [R v p] is a property of the peer under the address [v]; addresses in [D]
    stay known. *)
Section Keeps.
Context `{Signaling, EndpointSets, Disco} (env : Env).
Context (R : Z -> PeerState -> Prop) (D : Z -> Prop).
Context (R_vip : forall v p, R v p -> ps_vip p = v)
  (R_link : forall v p es s seen rel, R v p -> s = state p \/ ~ up s -> R v (set_link es s seen rel p))
  (R_v6 : forall v p v6, R v p -> R v (set_vip_v6 v6 p))
  (R_strategy : forall v p ours theirs, R v p -> R v (update_strategy ours theirs p))
  (R_ping : forall now seen ping src, ~ D (sender_vip ping) ->
     R (sender_vip ping) (pinging_peer now seen ping src))
  (R_info : forall now info ours, ~ D (vip info) ->
     R (vip info) (with_nat_strategy now (vip info) (peer_vip_v6 info) (public_key info)
                     (endpoint info) ours (nat_type info))).

Definition all_peers (s : DState) : Prop := forall v p, peers s !! v = Some p -> R v p.
Definition kept (s : DState) : Prop := all_peers s /\ forall v, D v -> is_Some (peers s !! v).

(** WireGuard is only given peers with the property. *)
Definition configures : forall A : Set, DCall A -> Prop := fun A c =>
  match c with
  | AddPeer pubkey _ ips => exists v p, R v p /\ pubkey = hex_encode (ps_public_key p) /\
      ips = allowed_ips v (ps_vip_v6 p)
  | _ => True
  end.

Abbreviation keeps m s Q := (hoare configures (fun _ _ _ => True) m s Q) (only parsing).

Lemma kept_put v p s : R v p -> kept s -> kept (set_peers (<[v := p]> (peers s)) s).
Proof.
  intros Hp [Ha Hd]. split.
  - intros w q. simpl. destruct (decide (v = w)) as [->|Hne].
    + rewrite lookup_insert_eq. by intros [= <-].
    + rewrite lookup_insert_ne by done. apply Ha.
  - intros w Hw. simpl. destruct (decide (v = w)) as [->|Hne].
    + rewrite lookup_insert_eq. eauto.
    + rewrite lookup_insert_ne by done. auto.
Qed.

Lemma kept_alter v f s : (forall p, R v p -> R v (f p)) -> kept s -> kept (set_peers (alter f v (peers s)) s).
Proof.
  intros Hf Hk. destruct (peers s !! v) as [p|] eqn:E.
  - destruct Hk as [Ha Hd]. split.
    + intros w q. simpl. destruct (decide (v = w)) as [->|Hne].
      * rewrite lookup_alter_eq, E. simpl. intros [= <-]. auto.
      * rewrite lookup_alter_ne by done. apply Ha.
    + intros w Hw. simpl. destruct (decide (v = w)) as [->|Hne].
      * rewrite lookup_alter_eq, E. simpl. eauto.
      * rewrite lookup_alter_ne by done. auto.
  - unfold set_peers. rewrite alter_id; [by destruct s|]. intros x Hx. congruence.
Qed.

Lemma kept_same s s' : peers s' = peers s -> kept s -> kept s'.
Proof. unfold kept, all_peers. by intros ->. Qed.

Lemma R_same v p es seen rel : R v p -> R v (set_link es (state p) seen rel p).
Proof. intros Hp. by apply R_link; [|left]. Qed.
Lemma R_down v p s : R v p -> ~ up s -> R v (set_state s p).
Proof. intros Hp Hs. apply (R_link v p); auto. Qed.
Lemma R_add v p a src : R v p -> R v (add_endpoint a src p).
Proof. apply (R_same v p). Qed.
Lemma R_probing v p a : R v p -> R v (mark_probing a p).
Proof. apply (R_same v p). Qed.
Lemma R_seen v p t : R v p -> R v (set_last_seen t p).
Proof. apply (R_same v p). Qed.
Lemma not_up s : s <> DirectOk -> s <> RelayOk -> ~ up s.
Proof. by intros ? ? [?|?]. Qed.
Lemma R_failed v p a : R v p -> R v (mark_endpoint_failed a p).
Proof.
  intros Hp. unfold mark_endpoint_failed. cbv zeta. apply (R_link v p); [done|].
  destruct (es_needs_relay _); [right; by apply not_up|by left].
Qed.
#[local] Hint Resolve R_same R_down R_add R_probing R_seen R_failed not_up : core.

Lemma R_restart v p : R v p -> R v (restart_peer p).
Proof.
  intros Hp. unfold restart_peer. cbv zeta. apply (R_link v); [|right; by apply not_up].
  generalize (endpoint_addrs p). intros l. revert p Hp. induction l as [|a l IH]; simpl; auto.
Qed.

Lemma R_merge v p ours info : R v p -> R v (merge_peer ours info p).
Proof.
  intros Hp. unfold merge_peer. cbv zeta.
  assert (Hq : R v (from_option (fun ep => announced_endpoint ep p) p (endpoint info))).
  { destruct (endpoint info); simpl; [|done]. apply R_add. destruct (_ && _); [by apply R_restart|done]. }
  set (q := from_option (fun ep => announced_endpoint ep p) p (endpoint info)) in *. clearbody q.
  assert (Hm : R v (from_option (fun ep => add_endpoint ep PortMap q) q (mapped_endpoint info))).
  { destruct (mapped_endpoint info); simpl; auto. }
  destruct (bool_decide _); auto.
Qed.

(** ** The handlers *)

Lemma keeps_configure v p ep s :
  R v p -> kept s -> keeps (configure (ps_public_key p) v (ps_vip_v6 p) ep) s (fun s' _ => s' = s).
Proof. intros Hp Hs. unfold configure. repeat sm_step; [|done]. exists v, p. auto. Qed.

Lemma keeps_best v p s : R v p -> kept s -> keeps (configure_best p) s (fun s' _ => s' = s).
Proof.
  intros Hp Hs. unfold configure_best. sm_step; [|by sm_step].
  rewrite (R_vip v p Hp). by apply keeps_configure.
Qed.

Lemma keeps_send data to s : keeps (send env data to) s (fun s' _ => s' = s).
Proof. unfold send. by repeat sm_step. Qed.

Lemma keeps_disco_ping v ep m s :
  kept s -> (forall s, kept s -> keeps m s (fun s' _ => kept s')) ->
  keeps (disco_ping env v ep m) s (fun s' _ => kept s').
Proof.
  intros Hs Hm. unfold disco_ping. repeat sm_step; [done|]. destruct (encode_disco_ping _); [|by sm_step].
  sm_step. eapply hoare_mono; [apply keeps_send|]. intros s' [ok|[]] ->. sm_step; [|by sm_step].
  sm_step. eapply hoare_mono; [by apply Hm|]. intros s' [?|[]] Hs'. repeat sm_step; [done|].
  by apply (kept_same s').
Qed.

Lemma keeps_change v f s :
  (forall p, R v p -> R v (f p)) -> kept s -> keeps (change_peer v f) s (fun s' _ => kept s').
Proof. intros Hf Hs. unfold change_peer. sm_step. by apply kept_alter. Qed.

Lemma keeps_handle_ping ping src s :
  kept s -> keeps (handle_ping env ping src) s (fun s' _ => kept s').
Proof.
  intros Hs. unfold handle_ping. sm_step. eapply hoare_mono with (Q := fun s' _ => s' = s).
  { unfold send_pong. destruct (encode_disco_pong _); [|by sm_step]. sm_step.
    eapply hoare_mono; [apply keeps_send|]. intros s' [?|[]] ->. by sm_step. }
  intros s' [?|[]] ->. do 2 sm_step. sm_step.
  - assert (Hp : R (sender_vip ping) x) by (by apply Hs). sm_step; [by sm_step|].
    sm_step. sm_step; [done|]. unfold put_peer. repeat sm_step.
    eapply hoare_mono; [apply keeps_best with (v := sender_vip ping); [by auto|by apply kept_put; auto]|].
    intros s' _ ->. apply kept_put; auto.
  - assert (Hd : ~ D (sender_vip ping)) by (intros [? ?]%Hs; congruence).
    repeat sm_step; try done.
    eapply hoare_mono;
      [apply (keeps_configure (sender_vip ping) (pinging_peer r r0 ping src)); by auto|].
    intros s' [?|[]] ->. unfold put_peer. do 2 sm_step.
    apply keeps_disco_ping; [apply kept_put; auto|]. intros. by sm_step.
Qed.

(** [pong_proves] is what a pong that passes the checks makes of its peer. *)
Lemma keeps_handle_pong pong src s :
  (forall ping p es st seen rel, pending s !! pong_tx_id pong = Some ping ->
     peers s !! target_vip ping = Some p -> responder_key pong = ps_public_key p ->
     R (target_vip ping) (set_link es st seen rel p)) ->
  kept s -> keeps (handle_pong pong src) s (fun s' _ => kept s').
Proof.
  intros Hpong Hs. unfold handle_pong. do 5 sm_step; [|by sm_step].
  repeat sm_step; try done. simpl in *.
  match goal with E : bool_decide _ = false |- _ => apply bool_decide_eq_false, dec_stable in E end.
  assert (Hp : forall es st seen rel, R (target_vip x) (set_link es st seen rel x0)) by eauto.
  set (p' := record_pong _ _ _ _).
  assert (Hp' : R (target_vip x) p').
  { unfold p', record_pong. cbv zeta. destruct (es_has_working_connection _);
      [destruct (from_option _ _ _)|]; apply (Hp _ _ _). }
  unfold put_peer. repeat sm_step. eapply hoare_mono; [apply keeps_best with (v := target_vip x)|].
  - done.
  - apply kept_put; [done|]. by apply (kept_same s).
  - intros s' _ ->. apply kept_put; [done|]. by apply (kept_same s).
Qed.

Lemma find_peer_some vips f m v p : find_peer vips f m = Some (v, p) -> m !! v = Some p /\ f p = true.
Proof.
  induction vips as [|w vips IH]; simpl; [done|]. destruct (m !! w) as [q|] eqn:E; [|done].
  destruct (f q) eqn:Ef; [|done]. by intros [= <- <-].
Qed.

Lemma keeps_first_peer f s :
  keeps (first_peer f) s (fun s' r => s' = s /\
    forall v p, r = Ok (Some (v, p)) -> peers s !! v = Some p /\ f p = true).
Proof.
  unfold first_peer. repeat sm_step; [done|]. split; [done|]. intros v p [= Hf]. by apply find_peer_some in Hf.
Qed.

Lemma keeps_ack_key ack s :
  keeps (ack_key ack) s (fun s' r => s' = s /\ (target_key ack = None \/ r = Ok (target_key ack))).
Proof.
  unfold ack_key. destruct (target_key ack) as [key|].
  - sm_step. auto.
  - sm_step. eapply hoare_mono; [apply keeps_first_peer|]. intros s' [found|[]] [-> _]. sm_step. auto.
Qed.

Lemma keeps_relay_bound ack sid src s :
  (forall v p seen, peers s !! v = Some p -> state p = RelayTry ->
     target_key ack = Some (ps_public_key p) \/ target_key ack = None -> R v (mark_relayed seen p)) ->
  kept s -> keeps (relay_bound env ack sid src) s (fun s' _ => kept s').
Proof.
  intros Hack Hs. unfold relay_bound. sm_step. eapply hoare_mono; [apply keeps_ack_key|].
  intros s' [key|[]] [-> Hkey]. sm_step; [|by sm_step]. sm_step.
  eapply hoare_mono; [apply keeps_first_peer|]. intros s' [found|[]] [-> Hf]. sm_step; [|by sm_step].
  destruct x0 as [v p]. subst found. destruct (Hf v p eq_refl) as [Hp Hk%bool_decide_eq_true].
  unfold relay_wanted. sm_step; [by sm_step|].
  match goal with E : negb _ = false |- _ => apply negb_false_iff, bool_decide_eq_true in E end.
  assert (Hr : forall seen, R v (mark_relayed seen p)).
  { intros seen. apply Hack; [done|done|]. destruct Hkey as [?|[= <-]]; [by right|left]. by rewrite Hk. }
  assert (Hrp : R v p) by (by apply Hs). unfold put_peer. repeat sm_step; try done.
  - rewrite (R_vip v p Hrp). eapply hoare_mono;
      [apply (keeps_configure v p); [done|apply (kept_same (set_peers (<[v := mark_relayed r p]> (peers s)) s)); [done|by apply kept_put]]|].
    intros s' _ ->. by apply (kept_same (set_peers (<[v := mark_relayed r p]> (peers s)) s)), kept_put.
  - by apply (kept_same (set_peers (<[v := mark_relayed r p]> (peers s)) s)), kept_put.
Qed.

Lemma keeps_relay_refused ack s : kept s -> keeps (relay_refused ack) s (fun s' _ => kept s').
Proof.
  intros Hs. unfold relay_refused, put_peer.
  assert (Hfail : forall v p, peers s !! v = Some p -> kept (set_peers (<[v := set_state Failed p]> (peers s)) s)).
  { intros v p Hp. apply kept_put; [|done]. apply R_down; [by apply Hs|by apply not_up]. }
  sm_step; sm_step; (eapply hoare_mono; [apply keeps_first_peer|]);
    intros s' [[[v p]|]|[]] [-> Hf]; try by sm_step.
  all: destruct (Hf v p eq_refl) as [Hp _]; repeat sm_step; auto.
Qed.

Lemma keeps_handle_relay b pkt src s :
  (forall ack v p seen, parse_relay_bind_ack pkt = Ok ack -> ack_success ack = true ->
     peers s !! v = Some p -> state p = RelayTry ->
     target_key ack = Some (ps_public_key p) \/ target_key ack = None -> R v (mark_relayed seen p)) ->
  kept s -> keeps (handle_relay env b pkt src) s (fun s' _ => kept s').
Proof.
  intros Hack Hs. unfold handle_relay. sm_step.
  - destruct (parse_relay_bind_ack pkt) as [ack|]; [|by sm_step]. sm_step.
    + sm_step; [|by sm_step]. apply keeps_relay_bound; [|done]. eauto.
    + by apply keeps_relay_refused.
  - sm_step; [|by sm_step]. destruct (parse_relay_data pkt) as [[sid wg]|]; by repeat sm_step.
Qed.

Lemma keeps_probe_all v eps s : kept s -> keeps (probe_all env v eps) s (fun s' _ => kept s').
Proof.
  revert s. induction eps as [|ep eps IH]; intros s Hs; simpl; [by sm_step|]. sm_step.
  eapply hoare_mono; [apply keeps_disco_ping; [done|]|].
  - intros s1 Hs1. apply keeps_change; [|done]. auto.
  - intros s1 [?|[]] Hs1. auto.
Qed.

Lemma keeps_probe v p s : R v p -> kept s -> keeps (probe env v p) s (fun s' _ => kept s').
Proof.
  intros Hp Hs. unfold probe. sm_step. eapply hoare_mono with (Q := fun s' _ => s' = s).
  { destruct (endpoint_addrs p); [by sm_step|]. by apply keeps_configure. }
  intros s' [?|[]] ->. sm_step. eapply hoare_mono; [by apply keeps_probe_all|]. intros s' [?|[]] Hs'.
  apply keeps_change; [|done]. auto.
Qed.

Lemma keeps_connect_peer v p s : R v p -> kept s -> keeps (connect_peer env v p) s (fun s' _ => kept s').
Proof.
  intros Hp Hs. unfold connect_peer. destruct (connection_strategy p).
  - destruct (endpoint_addrs p) eqn:E; [|by apply keeps_probe].
    eapply hoare_mono; [by apply keeps_configure|]. by intros s' _ ->.
  - by apply keeps_probe.
  - by apply keeps_probe.
  - apply keeps_change; [|done]. auto.
Qed.

Lemma keeps_handle_peer ours info s : kept s -> keeps (handle_peer env ours info) s (fun s' _ => kept s').
Proof.
  intros Hs. unfold handle_peer. do 3 sm_step.
  eapply hoare_mono with (Q := fun s' r => s' = s /\ forall p, r = Ok p -> R (vip info) p).
  { sm_step.
    - sm_step. split; [done|]. intros p [= <-]. by apply Hs.
    - repeat sm_step; [done|]. split; [done|]. intros p [= <-]. apply R_info. intros [? ?]%Hs. congruence. }
  intros s' [q|[]] [-> Hq]. specialize (Hq q eq_refl). set (p := merge_peer _ _ _).
  assert (Hp : R (vip info) p) by (by apply R_merge). unfold put_peer. do 2 sm_step.
  pose proof (kept_put _ _ _ Hp Hs) as Hk. sm_step; [|by apply keeps_connect_peer].
  sm_step; [|by sm_step]. eapply hoare_mono; [by apply keeps_configure|]. by intros s' _ ->.
Qed.

Lemma keeps_handle_peers ours infos s : kept s -> keeps (handle_peers env ours infos) s (fun s' _ => kept s').
Proof.
  revert s. induction infos as [|info infos IH]; intros s Hs; simpl; [by sm_step|]. sm_step.
  eapply hoare_mono; [by apply keeps_handle_peer|]. intros s1 [?|[]] Hs1. auto.
Qed.

(** Only here a peer is forgotten. *)
Lemma keeps_handle_signaling pkt s : kept s -> keeps (handle_signaling env pkt) s (fun s' _ => all_peers s').
Proof.
  intros Hs. unfold handle_signaling. do 2 sm_step. destruct (handle_packet _ _ _) as [reply p].
  do 2 sm_step. assert (Hs1 : kept (set_proto p s)) by (by apply (kept_same s)).
  destruct reply as [[update|]|]; [|sm_step; apply Hs1..]. sm_step.
  eapply hoare_mono; [by apply keeps_handle_peers|]. intros s2 [?|[]] [Ha _]. unfold remove_peers. sm_step.
  intros v q Hq. apply Ha. simpl in Hq. revert Hq. generalize (peers s2).
  induction (removed_vips update) as [|w l IH]; simpl; intros m Hq; [done|]. specialize (IH _ Hq).
  by apply lookup_delete_Some in IH as [_ ?].
Qed.

(** ** Datagrams and ticks *)

(** What a datagram can prove about a peer: that it answered a ping with its
    key, or that the relay bound it when it asked for that. *)
Definition proves (e : Event) (s : DState) (v : Z) (p : PeerState) : Prop :=
  match e with
  | Tick => False
  | Packet pkt _ =>
      (exists pong ping, parse_disco_pong pkt = Ok pong /\ pending s !! pong_tx_id pong = Some ping /\
         target_vip ping = v /\ responder_key pong = ps_public_key p) \/
      (exists ack, parse_relay_bind_ack pkt = Ok ack /\ ack_success ack = true /\ state p = RelayTry /\
         (target_key ack = Some (ps_public_key p) \/ target_key ack = None))
  end.

Lemma keeps_dispatch pkt from s :
  (forall v p es st seen rel, peers s !! v = Some p -> proves (Packet pkt from) s v p ->
     R v (set_link es st seen rel p)) ->
  kept s -> keeps (dispatch env pkt from) s (fun s' _ => all_peers s').
Proof.
  intros Hpr Hs. unfold dispatch. cbv zeta. destruct pkt as [|b rest]; [sm_step; apply Hs|].
  set (pkt := b :: rest) in *. repeat sm_step; try done; try apply Hs.
  - destruct (parse_disco_ping pkt); [|sm_step; apply Hs].
    eapply hoare_mono; [by apply keeps_handle_ping|]. by intros ? ? [? _].
  - destruct (parse_disco_pong pkt) as [pong|] eqn:E; [|sm_step; apply Hs].
    eapply hoare_mono; [apply keeps_handle_pong; [|done]|].
    + intros ping p es st seen rel Hw Hp Hk. apply Hpr; [done|]. left. eauto 10.
    + by intros ? ? [? _].
  - eapply hoare_mono; [apply keeps_handle_relay; [|done]|].
    + intros ack v p seen Ha Hok Hp Ht Hk. apply Hpr; [done|]. right. eauto 10.
    + by intros ? ? [? _].
  - by apply keeps_handle_signaling.
Qed.

Lemma keeps_abandon_ping ping s : kept s -> keeps (abandon_ping env ping) s (fun s' _ => kept s').
Proof.
  intros Hs. unfold abandon_ping, put_peer. do 2 sm_step. sm_step; [|by sm_step].
  assert (Hp : R (target_vip ping) (mark_endpoint_failed (target ping) x)) by (apply R_failed; by apply Hs).
  assert (Hd : forall st, ~ up st -> R (target_vip ping) (set_state st (mark_endpoint_failed (target ping) x)))
    by (intros; by apply R_down).
  sm_step; [sm_step|].
  - sm_step. apply kept_put; auto.
  - do 2 sm_step. rewrite (R_vip _ _ Hp). eapply hoare_mono.
    + apply (keeps_configure _ (mark_endpoint_failed (target ping) x)); [done|]. apply kept_put; auto.
    + intros s' _ ->. apply kept_put; auto.
  - sm_step. by apply kept_put.
Qed.

Lemma keeps_check_ping now tx s : kept s -> keeps (check_ping env now tx) s (fun s' _ => kept s').
Proof.
  intros Hs. unfold check_ping. do 2 sm_step. sm_step; [|by sm_step]. sm_step; [|by sm_step]. sm_step.
  - do 3 sm_step. eapply hoare_mono; [apply keeps_change; [|by apply (kept_same s)]; auto|].
    intros s1 [?|[]] Hs1. sm_step. eapply hoare_mono with (Q := fun s' _ => s' = s1).
    { destruct (encode_disco_ping _); [|by sm_step]. sm_step. eapply hoare_mono; [apply keeps_send|].
      intros s' [?|[]] ->. by sm_step. }
    intros s' [?|[]] ->. by sm_step.
  - sm_step. eapply hoare_mono; [by apply keeps_abandon_ping|]. intros s' [?|[]] Hs'. by sm_step.
Qed.

Lemma keeps_check_pings now ids s : kept s -> keeps (check_pings env now ids) s (fun s' _ => kept s').
Proof.
  revert s. induction ids as [|tx ids IH]; intros s Hs; simpl; [by sm_step|]. sm_step.
  eapply hoare_mono; [by apply keeps_check_ping|]. intros s1 [?|[]] Hs1. sm_step.
  eapply hoare_mono; [by apply IH|]. intros s2 [?|[]] Hs2. by sm_step.
Qed.

Lemma keeps_bind_relays to wanted s : keeps (bind_relays env to wanted) s (fun s' _ => peers s' = peers s).
Proof.
  revert s. induction wanted as [|[v p] wanted IH]; intros s; simpl; [by sm_step|]. do 3 sm_step.
  eapply hoare_mono with (Q := fun s' _ => peers s' = peers s).
  { sm_step; [|by sm_step]. destruct (create_bind_request_with_mode _ _ _ _ _) as [req c].
    do 2 sm_step. destruct (encode_relay_bind req); [|by sm_step]. sm_step.
    eapply hoare_mono; [apply keeps_send|]. intros s' [?|[]] ->. by sm_step. }
  intros s1 [?|[]] Hs1. eapply hoare_mono; [apply IH|]. intros s2 ? ?. congruence.
Qed.

Lemma keeps_tick s : kept s -> keeps (tick env) s (fun s' _ => kept s').
Proof.
  intros Hs. unfold tick. repeat sm_step; try done. eapply hoare_mono; [by apply keeps_check_pings|].
  intros s1 [gone|[]] Hs1. repeat sm_step; try done.
  eapply hoare_mono; [apply keeps_bind_relays|]. intros s2 ? Hp. by apply (kept_same s1).
Qed.

Lemma keeps_event e s :
  (forall v p es st seen rel, peers s !! v = Some p -> proves e s v p -> R v (set_link es st seen rel p)) ->
  kept s -> keeps (handle_event env e) s (fun s' _ => all_peers s').
Proof.
  intros Hpr Hs. destruct e as [pkt from|]; simpl; [by apply keeps_dispatch|].
  eapply hoare_mono; [by apply keeps_tick|]. by intros ? ? [? _].
Qed.
End Keeps.

(** ** Whom WireGuard is pointed at *)

Section Guarantees.
Context `{Signaling, EndpointSets, Disco} (env : Env).

(** Every peer is stored under its own address. *)
Definition well_keyed (s : DState) : Prop := forall v p, peers s !! v = Some p -> ps_vip p = v.

(** Calls that route the addresses of [v0] to no other key than [key]. *)
Definition routes_to (v0 : Z) (key : list Z) : forall A : Set, DCall A -> Prop := fun A c =>
  match c with
  | AddPeer pubkey _ ips => exists v k v6, pubkey = hex_encode k /\ ips = allowed_ips v v6 /\
      (v = v0 -> k = key)
  | _ => True
  end.


(** Claim C12: a link only comes up on proof: when a peer is connected after a
    datagram or tick and was not in this state before, it was known, and the
    datagram is a pong with its key to a ping that was pending for it, or a
    relay's acknowledgement while it waited for the relay, for its key or for
    no key at all. *)
Theorem link_up_needs_proof e s :
  well_keyed s ->
  hoare (fun _ _ => True) (fun _ _ _ => True) (handle_event env e) s (fun s' _ =>
    forall v p', peers s' !! v = Some p' -> up (state p') ->
    exists p, peers s !! v = Some p /\ (state p' = state p \/ proves e s v p)).
Proof.
  intros Hw.
  set (R := fun v (p' : PeerState) => ps_vip p' = v /\ (up (state p') ->
              exists p, peers s !! v = Some p /\ (state p' = state p \/ proves e s v p))).
  apply hoare_weaken with (P := configures R) (Q := fun s' _ => all_peers R s'); [|done|].
  - apply (keeps_event env R (fun _ => False)); try (by unfold R; intros; simpl in *; naive_solver).
    + intros now seen ping src _. split; [done|]. by intros [?|?].
    + intros now info ours _. split; [done|]. by intros [?|?].
    + split; [|done]. intros v p Hp. split; [by apply Hw|]. eauto.
  - intros s' _ Ha v p' Hp Hup. by apply (Ha v p' Hp).
Qed.

(** WireGuard is told to route the addresses of [ping] to its key and sender. *)
Definition route_to_sender (ping : DiscoPing) (from : SocketAddr) : Call DCall :=
  existT _ (AddPeer (hex_encode (sender_key ping)) (Some (normalize_addr from))
              (allowed_ips (sender_vip ping) (sender_vip_v6 ping))).

(** Whoever is not known yet is trusted: a ping that names an unused
    address, with any key, from anywhere, makes its sender a peer, to whom
    WireGuard routes that address at once. *)
Theorem stranger_becomes_peer answer pkt ping from s :
  head pkt = Some SIGNALING_DISCO_PING -> parse_disco_ping pkt = Ok ping ->
  peers s !! sender_vip ping = None ->
  route_to_sender ping from ∈ calls answer (dispatch env pkt from) s /\
  ps_public_key <$> peers (run_prog (logged answer) (dispatch env pkt from s) []).1.1 !! sender_vip ping
    = Some (sender_key ping).
Proof.
  intros Hb Hping Hnew. destruct pkt as [|b rest]; simplify_eq/=. unfold dispatch, route_to_sender. rewrite Z.eqb_refl, Hping.
  set (src := normalize_addr from). clearbody src. unfold calls, handle_ping. rewrite !run_sm_bind.
  assert (Hpong : exists log, run_prog (logged answer) (send_pong env ping src s) [] = (s, Ok tt, log)).
  { unfold send_pong, send. sm_unfold. destruct (encode_disco_pong _); simpl; eauto. }
  destruct Hpong as [log ->]. rewrite !run_sm_bind. simpl. rewrite Hnew.
  unfold configure, put_peer, disco_ping, send. sm_unfold. simpl.
  destruct (encode_disco_ping _); simpl; [destruct (is_ok _); simpl|];
    rewrite lookup_insert_eq; (split; [|done]); rewrite !elem_of_app; set_solver.
Qed.

(** ** How a ping ends *)

(** The clock says [t], and a hash map is walked in some order. *)
Definition replies_at (t : Z) : forall A : Set, DCall A -> A -> Prop := fun A c =>
  match c with
  | InstantNow => fun now => now = t
  | PingOrder ids => fun order => order ≡ₚ ids
  | _ => fun _ => True
  end.

(** What a tick makes of a ping. *)
Definition tick_ping (t : Z) (ping : PendingDiscoPing) : option PendingDiscoPing :=
  if is_late env t ping then if retries ping <? max_retries ping then Some (retry t ping) else None
  else Some ping.

Abbreviation at_time t m s Q := (hoare (fun _ _ => True) (replies_at t) m s Q) (only parsing).

Lemma send_same t data to s : at_time t (send env data to) s (fun s' _ => s' = s).
Proof. unfold send. by repeat sm_step. Qed.

Lemma abandon_ping_pending t ping s : at_time t (abandon_ping env ping) s (fun s' _ => pending s' = pending s).
Proof. unfold abandon_ping, put_peer, configure. by repeat sm_step. Qed.

Lemma check_ping_pending t tx s :
  at_time t (check_ping env t tx) s (fun s' r =>
    (forall tx', pending s' !! tx' =
       if decide (tx' = tx) then from_option (fun p => if is_late env t p && (retries p <? max_retries p)
                                 then Some (retry t p) else Some p) None (pending s !! tx)
       else pending s !! tx') /\
    r = Ok (from_option (fun p => is_late env t p && negb (retries p <? max_retries p)) false (pending s !! tx))).
Proof.
  assert (Hsame : forall b : bool, pending s !! tx = None \/ b = false ->
    forall tx', pending s !! tx' = if decide (tx' = tx) then
      from_option (fun p => if b then Some (retry t p) else Some p) None (pending s !! tx)
      else pending s !! tx').
  { intros b Hb tx'. case_decide as Hd; [subst|done]. destruct Hb as [->| ->]; [done|]. by destruct (pending s !! tx). }
  unfold check_ping. do 2 sm_step. destruct (pending s !! tx) as [p|] eqn:E; [|sm_step; split; [|done]; simpl].
  2: { intros tx'. case_decide; by simplify_eq. }
  simpl. destruct (is_late env t p); [destruct (retries p <? max_retries p)|]; simpl.
  - unfold change_peer. do 5 sm_step. eapply hoare_mono with (Q := fun s' _ => pending s' = <[tx := retry t p]> (pending s)).
    { destruct (encode_disco_ping _); [|by sm_step]. sm_step. eapply hoare_mono; [apply send_same|].
      intros s' [?|[]] ->. by sm_step. }
    intros s' [?|[]] Hp. sm_step. split; [|done]. intros tx'. rewrite Hp. case_decide; subst;
      [by rewrite lookup_insert_eq|by rewrite lookup_insert_ne].
  - sm_step. eapply hoare_mono; [apply abandon_ping_pending|]. intros s' [?|[]] Hp. sm_step. rewrite Hp. split; [|done].
    intros tx'. case_decide; congruence.
  - sm_step. split; [|done]. intros tx'. case_decide; congruence.
Qed.

Lemma check_pings_pending t ids : forall s, NoDup ids ->
  at_time t (check_pings env t ids) s (fun s' r =>
    exists gone, r = Ok gone /\ forall tx,
      (if decide (tx ∈ gone) then None else pending s' !! tx) =
      if decide (tx ∈ ids) then pending s !! tx ≫= tick_ping t else pending s !! tx).
Proof.
  induction ids as [|tx ids IH]; intros s Hnd; simpl.
  - sm_step. exists []. split; [done|]. intros tx. by rewrite !decide_False by set_solver.
  - apply NoDup_cons in Hnd as [Hni Hnd]. sm_step. eapply hoare_mono; [apply check_ping_pending|].
    intros s1 r [Hs1 ->]. sm_step. eapply hoare_mono; [by apply IH|]. intros s2 r (gone & -> & Hg). sm_step.
    eexists. split; [done|]. intros tx'. specialize (Hg tx'). rewrite Hs1 in Hg.
    set (late := from_option _ false _) in *.
    destruct (decide (tx' = tx)) as [->|Hne].
    + rewrite (decide_True (P := tx ∈ tx :: ids)) by left. rewrite (decide_False (P := tx ∈ ids)) in Hg by done.
      unfold late, tick_ping in *. destruct (pending s !! tx) as [p|]; simpl in *.
      * destruct (is_late env t p); [destruct (retries p <? max_retries p)|]; simpl in *; try exact Hg.
        by rewrite decide_True by left.
      * exact Hg.
    + assert (Hin : forall l : list (list Z), tx' ∈ (if late then tx :: l else l) <-> tx' ∈ l).
      { intros l. destruct late; [|done]. rewrite elem_of_cons. naive_solver. }
      rewrite (decide_ext _ (tx' ∈ gone)) by apply Hin. rewrite Hg.
      apply decide_ext. rewrite elem_of_cons. naive_solver.
Qed.

Lemma fold_delete {A} (l : list (list Z)) (m : gmap (list Z) A) tx :
  fold_left (fun m tx => delete tx m) l m !! tx = if decide (tx ∈ l) then None else m !! tx.
Proof.
  revert m. induction l as [|x l IH]; intros m; simpl; [done|].
  rewrite IH. destruct (decide (tx = x)) as [->|Hne].
  - rewrite lookup_delete_eq, (decide_True (P := x ∈ x :: l)) by left. by case_decide.
  - rewrite lookup_delete_ne by done. apply decide_ext. rewrite elem_of_cons. naive_solver.
Qed.

Lemma bind_relays_pending t to wanted s :
  at_time t (bind_relays env to wanted) s (fun s' _ => pending s' = pending s).
Proof.
  revert s. induction wanted as [|[v p] wanted IH]; intros s; simpl; [by sm_step|]. do 3 sm_step.
  eapply hoare_mono with (Q := fun s' _ => pending s' = pending s).
  { sm_step; [|by sm_step]. destruct (create_bind_request_with_mode _ _ _ _ _) as [req c].
    do 2 sm_step. destruct (encode_relay_bind req); [|by sm_step]. sm_step.
    eapply hoare_mono; [apply send_same|]. intros s' [?|[]] ->. by sm_step. }
  intros s1 [?|[]] Hs1. eapply hoare_mono; [apply IH|]. intros s2 ? ?. congruence.
Qed.

Lemma tick_pending t s :
  at_time t (tick env) s (fun s' _ => forall tx, pending s' !! tx = pending s !! tx ≫= tick_ping t).
Proof.
  unfold tick. do 2 sm_step; [done|]. simpl in *. subst. do 3 sm_step. sm_step; [done|]. sm_step.
  match goal with Hr : replies_at _ _ _ ?ids |- _ => rename Hr into Hids; set (order := ids) in * end.
  simpl in Hids.
  assert (Hdom : forall tx, tx ∈ order <-> is_Some (pending s !! tx)).
  { intros tx. rewrite Hids, list_elem_of_fmap. setoid_rewrite elem_of_map_to_list'. split.
    - intros ([k p] & -> & Hk). simpl in *. eauto.
    - intros [p Hp]. by exists (tx, p). }
  assert (Hnd : NoDup order) by (rewrite Hids; apply NoDup_fst_map_to_list).
  eapply hoare_mono; [by apply check_pings_pending|]. intros s1 ? (gone & -> & Hg). cbv beta iota.
  assert (Hend : forall tx, fold_left (fun m tx => delete tx m) gone (pending s1) !! tx
                            = pending s !! tx ≫= tick_ping t).
  { intros tx. rewrite fold_delete, Hg. case_decide as Hd; [done|]. rewrite Hdom in Hd.
    destruct (pending s !! tx); [by destruct Hd|done]. }
  do 5 sm_step. sm_step; [done|]. sm_step; [|by sm_step].
  eapply hoare_mono; [apply bind_relays_pending|]. intros s' ? ->. apply Hend.
Qed.

(** A tick at each of the times, with no datagram in between. *)
Fixpoint after_ticks (ts : list Z) (s : DState) (Q : DState -> Prop) : Prop :=
  match ts with
  | [] => Q s
  | t :: ts => at_time t (tick env) s (fun s' _ => after_ticks ts s' Q)
  end.

(** Each tick comes more than the timeout after the one before. *)
Fixpoint paced (since : Z) (ts : list Z) : Prop :=
  match ts with [] => True | t :: ts => since + ping_timeout (disco_config env) < t /\ paced t ts end.

(** A ping that stays unanswered is sent again at most as often as it
    may be and then forgotten, whatever else is pending and whatever the
    socket and the tunnel answer. *)
Theorem unanswered_ping_ends ts s tx ping :
  pending s !! tx = Some ping -> 0 <= ping_timeout (disco_config env) ->
  0 <= retries ping <= max_retries ping -> max_retries ping <= u32_max ->
  paced (sent_at ping) ts -> max_retries ping - retries ping < Z.of_nat (length ts) ->
  after_ticks ts s (fun s' => pending s' !! tx = None).
Proof.
  intros Hp Hto. revert s ping Hp. induction ts as [|t ts IH]; intros s ping Hp Hr Hm Hpace Hlen; [simpl in *; lia|].
  destruct Hpace as [Ht Hpace]. cbn [after_ticks]. eapply hoare_mono; [apply tick_pending|].
  intros s1 ? Hs1. specialize (Hs1 tx). rewrite Hp in Hs1. simpl in Hs1.
  unfold tick_ping, is_late in Hs1.
  replace (ping_timeout _ <? elapsed (sent_at ping) t) with true in Hs1
    by (symmetry; apply Z.ltb_lt; unfold elapsed, sat_sub; lia).
  destruct (Z.ltb_spec (retries ping) (max_retries ping)) as [Hlt|Hge].
  - assert (Hw : wrap_add u32_max (retries ping) 1 = retries ping + 1) by (apply wrap_add_small; lia).
    apply (IH s1 (retry t ping)); simpl; rewrite ?Hw; try done; simpl in Hlen; lia.
  - clear IH Hp Hpace Hlen. revert s1 Hs1. induction ts as [|t' ts IH]; intros s1 Hs1; [done|].
    cbn [after_ticks]. eapply hoare_mono; [apply tick_pending|]. intros s2 ? Hs2. apply IH.
    by rewrite Hs2, Hs1.
Qed.
End Guarantees.

(** ** Witnesses

    Endpoints are working once their latency is known; pings are the bytes 27,
    key and address, pongs 28, transaction and key. *)

Definition toy_info_at (a : SocketAddr) (e : EndpointInfo) : bool := bool_decide (addr e = a).

Definition toy_endpoints : EndpointSets := {|
  EndpointSet := list EndpointInfo; es_new := [];
  es_upsert := fun a src l => if existsb (toy_info_at a) l then l
                              else l ++ [{| addr := a; source := src; latency := None |}];
  es_record_pong := fun a rtt => map (fun e => if toy_info_at a e
                      then {| addr := a; source := source e; latency := Some rtt |} else e);
  es_mark_failed := fun a => List.filter (fun e => negb (toy_info_at a e));
  es_mark_probing := fun _ l => l;
  es_has_working_connection := existsb (fun e => bool_decide (latency e <> None));
  es_needs_relay := fun l => bool_decide (l = nil);
  es_best := head; es_best_addr := fun l => addr <$> head l;
  es_needing_probe := fun _ => map addr; es_endpoints := fun l => l |}.

Definition toy_disco : Disco := {|
  RelayClient := unit; BindRequest := list Z;
  parse_disco_ping := fun pkt => match pkt with
    | [27; k; v] => Ok {| ping_tx_id := [0]; sender_key := [k]; sender_vip := v; sender_vip_v6 := None;
                          ping_wg_port := None |}
    | _ => Err "short" end;
  parse_disco_pong := fun pkt => match pkt with
    | [28; tx; k] => Ok {| pong_tx_id := [tx]; observed_addr := ""; responder_key := [k];
                           responder_vip_v6 := None; pong_wg_port := None |}
    | _ => Err "short" end;
  encode_disco_ping := fun p => Ok (27 :: sender_key p ++ [sender_vip p]);
  encode_disco_pong := fun p => Ok (28 :: pong_tx_id p ++ responder_key p);
  is_relay_message := fun pkt => match pkt with b :: _ => in_range 32 36 b | [] => false end;
  parse_relay_bind_ack := fun _ => Err "short"; parse_relay_data := fun _ => Err "short";
  create_bind_request_with_mode := fun c k _ _ _ => (k, c); encode_relay_bind := fun k => Ok (32 :: k);
  SIGNALING_DISCO_PING := 27; SIGNALING_DISCO_PONG := 28; MSG_RELAY_BIND_ACK := 33;
  MSG_RELAY_DATA := 34 |}.

#[local] Existing Instance toy_signaling.
#[local] Existing Instance toy_endpoints.
#[local] Existing Instance toy_disco.

Definition demo_env : Env := {|
  our_public_key := [1]; our_vip := Some 167772161; our_vip_v6 := None; wg_listen_port := None;
  disco_config := LocalDiscoConfig_default; relay_server_addr := None; secret := None; macos := false |}.

Definition demo_from : SocketAddr := {| sa_ip := ipv4 192 0 2 7; sa_port := 51820 |}.

(** One peer, 10.0.0.2, pinged at time zero with the transaction 5. *)
Definition demo_peer : PeerState :=
  set_state DirectTry (PeerState_new 0 167772162 None [7] (Some demo_from)).
Definition demo_ping : PendingDiscoPing := {|
  tx_id := [5]; target := demo_from; target_vip := 167772162; sent_at := 0; retries := 0; max_retries := 3 |}.
Definition demo_state : DState := {|
  peers := {[ 167772162 := demo_peer ]}; pending := {[ [5] := demo_ping ]}; relay_sessions := ∅;
  proto := toy_proto; relay := None |}.

Lemma demo_well_keyed : well_keyed demo_state.
Proof. intros v p Hp. cbn [peers demo_state] in Hp. by apply lookup_singleton_Some in Hp as [<- <-]. Qed.

(** The clock stands still, every call succeeds, maps are walked as they come. *)
Definition demo_answer (R : Set) (c : DCall R) : R :=
  match c with
  | InstantNow => from_secs 1
  | RandomTx => [9]
  | SendTo _ _ => Ok tt
  | AddPeer _ _ _ => Ok tt
  | TunPacket _ _ => Ok tt
  | PeerOrder vips => vips
  | PingOrder ids => ids
  end.


(** The pong to transaction 5 with the right key brings the link up. *)
Lemma link_up_needs_proof_witness :
  state <$> peers (run_prog (logged demo_answer)
    (handle_event demo_env (Packet [28; 5; 7] demo_from) demo_state) []).1.1 !! 167772162 = Some DirectOk /\
  hoare (fun _ _ => True) (fun _ _ _ => True)
    (handle_event demo_env (Packet [28; 5; 7] demo_from)) demo_state (fun s' _ =>
    forall v p', peers s' !! v = Some p' -> up (state p') ->
    exists p, peers demo_state !! v = Some p /\
      (state p' = state p \/ proves (Packet [28; 5; 7] demo_from) demo_state v p)).
Proof.
  split; [vm_compute; reflexivity|]. apply (link_up_needs_proof demo_env), demo_well_keyed.
Defined.

Lemma stranger_becomes_peer_witness :
  existT _ (AddPeer "42" (Some demo_from) ["10.0.0.9/32"]) ∈
    calls demo_answer (dispatch demo_env [27; 66; 167772169] demo_from) demo_state.
Proof.
  apply (stranger_becomes_peer demo_env demo_answer [27; 66; 167772169]
    {| ping_tx_id := [0]; sender_key := [66]; sender_vip := 167772169; sender_vip_v6 := None;
       ping_wg_port := None |} demo_from demo_state); vm_compute; reflexivity.
Defined.

Lemma unanswered_ping_ends_witness :
  after_ticks demo_env [from_secs 6; from_secs 12; from_secs 18; from_secs 24] demo_state
    (fun s' => pending s' !! [5] = None).
Proof.
  apply (unanswered_ping_ends demo_env) with (ping := demo_ping);
    [vm_compute; reflexivity | simpl; unfold from_secs, nanos_per_sec, u32_max; lia ..].
Defined.
