(* ===== verification/PluginLoader.v ===== *)
(** * Plugin packages (omni-plugin/src/manifest.rs, loader.rs, error.rs)

    The manifest of a plugin and what makes it valid, and the loader that finds
    packages in a directory, checks their signature, unpacks archives and
    compiles modules.  JSON, zip archives and hashes are other crates: the class
    [PluginCodecs]. *)

From Stdlib Require Import Ascii.
From S2P Require Import Prelude RustStr Paths Effects.

Open Scope string_scope.
Open Scope list_scope.
Open Scope Z_scope.

Inductive PluginError : Set :=
| NotFound (s : string) | AlreadyLoaded (s : string) | InvalidManifest (s : string)
| CompilationError (s : string) | InstantiationError (s : string) | ExecutionError (s : string)
| Timeout (ms : Z) | MemoryLimitExceeded (used limit : Z) | InvalidCapability (s : string)
| MissingCapability (s : string) | SignatureError (s : string) | SignatureRequired
| HashMismatch (expected actual : string) | IoError (s : string) | JsonError (s : string)
| WasmtimeError (s : string) | HostFunctionError (s : string) | LifecycleError (s : string)
| ConfigError (s : string) | VersionIncompatible (required client : string)
| PlatformNotSupported (s : string) | Internal (s : string).

Inductive Capability : Set :=
| EventHooks | Authentication | NetworkPolicy | DataTriage | QosEnforcement | PdmReporting
| Compliance | UiWidgets.

#[global] Instance Capability_eq_dec : EqDecision Capability.
Proof. solve_decision. Defined.
#[global] Instance Capability_countable : Countable Capability.
Proof.
  refine (inj_countable' (fun c => match c with
    | EventHooks => 0 | Authentication => 1 | NetworkPolicy => 2 | DataTriage => 3
    | QosEnforcement => 4 | PdmReporting => 5 | Compliance => 6 | UiWidgets => 7 end)%nat
    (fun n => match n with
    | 0 => EventHooks | 1 => Authentication | 2 => NetworkPolicy | 3 => DataTriage
    | 4 => QosEnforcement | 5 => PdmReporting | 6 => Compliance | _ => UiWidgets end)%nat _).
  by intros [].
Defined.

Inductive Platform : Set := Windows | MacOS | Linux | Android | IOS.

#[global] Instance Platform_eq_dec : EqDecision Platform.
Proof. solve_decision. Defined.

Record EntryPoints : Set := {
  wasm : option string; widget : option string; widget_entry : option string }.
Record PluginDependency : Set := { dep_id : string; dep_version : string; optional : bool }.

Inductive SignatureAlgorithm : Set := Ed25519.
Record PluginSignature : Set := {
  sig_public_key : string; signature : string; algorithm : SignatureAlgorithm }.

Record ZipEntry : Set := { entry_name : string; entry_is_dir : bool; entry_data : result string (list Z) }.

(** [Json] is [serde_json::Value]; [wide_alphanumeric] says of a text without
    ASCII characters whether each of its characters is alphanumeric. *)
Class PluginTypes : Type := { Json : Set; wide_alphanumeric : string -> bool }.

Section Manifest.
Context `{PluginTypes}.

Record PluginManifest : Set := {
  id : string; name : string; version : string; author : string; m_description : string;
  homepage : option string; license : option string; capabilities : list Capability;
  min_omniedge_version : string; max_omniedge_version : option string; platforms : list Platform;
  config_schema : option Json; default_config : gmap string Json; entry_points : EntryPoints;
  icon : option string; tags : list string; dependencies : list PluginDependency }.

Definition PluginManifest_new (i n v : string) : PluginManifest := {|
  id := i; name := n; version := v; author := ""; m_description := ""; homepage := None;
  license := None; capabilities := []; min_omniedge_version := "0.1.0";
  max_omniedge_version := None; platforms := []; config_schema := None; default_config := ∅;
  entry_points := {| wasm := None; widget := None; widget_entry := None |}; icon := None; tags := [];
  dependencies := [] |}.

Inductive ManifestValidationError : Set :=
| MissingField (s : string) | InvalidVersion (s : string) | InvalidId (s : string) | NoCapabilities.

Definition show_validation_error (e : ManifestValidationError) : string :=
  match e with
  | MissingField s => "Missing required field: " +:+ s
  | InvalidVersion s => "Invalid version format: " +:+ s
  | InvalidId s => "Invalid plugin ID format: " +:+ s
  | NoCapabilities => "Plugin must declare at least one capability"
  end.

Definition is_valid_semver (version : string) : bool :=
  let parts := split "." version in
  if (length parts <? 2)%nat || (3 <? length parts)%nat then false
  else forallb (fun p =>
    let numeric_part := List.hd p (split "-" p) in
    bool_decide (is_Some (parse_uint u32_max numeric_part))) parts.

Definition ascii_alphanumeric (a : ascii) : bool :=
  let n := Z.of_nat (nat_of_ascii a) in in_range 48 57 n || in_range 65 90 n || in_range 97 122 n.

(** The ASCII characters of a text, and the rest of it. *)
Fixpoint ascii_part (s : string) : list ascii :=
  match s with
  | EmptyString => []
  | String a s' => if (nat_of_ascii a <? 128)%nat then a :: ascii_part s' else ascii_part s'
  end.
Fixpoint wide_part (s : string) : string :=
  match s with
  | EmptyString => EmptyString
  | String a s' => if (nat_of_ascii a <? 128)%nat then wide_part s' else String a (wide_part s')
  end.

Definition id_piece (p : string) : bool :=
  negb (bool_decide (p = "")) &&
  (forallb (fun c => ascii_alphanumeric c || bool_decide (c = "-"%char) || bool_decide (c = "_"%char))
     (ascii_part p) && wide_alphanumeric (wide_part p)).

Definition is_valid_plugin_id (i : string) : bool :=
  if bool_decide (i = "") || (128 <? String.length i)%nat then false
  else let parts := split "." i in
       if (length parts <? 2)%nat then false else forallb id_piece parts.

Definition validate (m : PluginManifest) : result ManifestValidationError unit :=
  if bool_decide (id m = "") then Err (MissingField "id")
  else if bool_decide (name m = "") then Err (MissingField "name")
  else if bool_decide (version m = "") then Err (MissingField "version")
  else if negb (is_valid_semver (version m)) then Err (InvalidVersion (version m))
  else if negb (is_valid_plugin_id (id m)) then Err (InvalidId (id m))
  else if bool_decide (capabilities m = []) then Err NoCapabilities
  else Ok tt.

Definition supports_platform (p : Platform) (m : PluginManifest) : bool :=
  bool_decide (platforms m = []) || bool_decide (p ∈ platforms m).
Definition has_capability (c : Capability) (m : PluginManifest) : bool := bool_decide (c ∈ capabilities m).

(** [id.replace(['.', '_'], "-")]. *)
Fixpoint dashed (s : string) : string :=
  match s with
  | EmptyString => EmptyString
  | String a s' =>
      String (if bool_decide (a = "."%char) || bool_decide (a = "_"%char) then "-"%char else a) (dashed s')
  end.
Definition slug (m : PluginManifest) : string := to_lowercase (dashed (id m)).

Record PluginPackage : Set := {
  manifest : PluginManifest; path : string; wasm_path : string; wasm_hash : string;
  package_signature : option PluginSignature }.

Record PluginLoader : Set := {
  plugins_dir : string; require_signatures : bool; trusted_signers : list string }.

Definition PluginLoader_new (dir : string) : PluginLoader := {|
  plugins_dir := dir; require_signatures := false; trusted_signers := [] |}.

Definition verify_signature (l : PluginLoader) (wasm_bytes : list Z) (sig : PluginSignature)
    : result PluginError unit :=
  if negb (bool_decide (trusted_signers l = [])) && bool_decide (sig_public_key sig ∉ trusted_signers l)
  then Err (SignatureError ("Signer not trusted: " +:+ sig_public_key sig))
  else match algorithm sig with
       | Ed25519 =>
           if negb (String.length (signature sig) =? 128)%nat
           then Err (SignatureError "Invalid signature length")
           else if negb (String.length (sig_public_key sig) =? 64)%nat
           then Err (SignatureError "Invalid public key length")
           else Ok tt
       end.
End Manifest.

(** [{:?}] of a path without characters that need an escape. *)
Definition quoted (p : string) : string := String "034" (p +:+ String "034" "").

Class PluginCodecs `{PluginTypes} : Type := {
  parse_manifest : string -> result string PluginManifest;
  parse_json : string -> result string Json;
  get_str : string -> Json -> option string;
  Archive : Type;
  zip_open : list Z -> result string Archive;
  zip_by_name : string -> Archive -> option ZipEntry;
  zip_len : Archive -> nat;
  zip_by_index : nat -> Archive -> result string ZipEntry;
  compute_sha256 : list Z -> string }.

(** ** The file system and the compiler *)

Inductive PCall : Set -> Set :=
| PathExists (p : string) : PCall bool
| IsDir (p : string) : PCall bool
| ReadDir (p : string) : PCall (result string (list string))
| ReadToString (p : string) : PCall (result string string)
| ReadFile (p : string) : PCall (result string (list Z))
| CreateDirAll (p : string) : PCall (result string unit)
| CreateFile (p : string) : PCall (result string unit)
| CopyInto (p : string) (data : list Z) : PCall (result string unit)
| RemoveDirAll (p : string) : PCall (result string unit)
| WriteFile (p content : string) : PCall (result string unit)
| CompileModule (bytes : list Z) : PCall (result string Z)
| NowMs : PCall Z.

Section Loader.
Context `{PluginCodecs} {St : Type}.
Abbreviation PM := (SM PCall St PluginError) (only parsing).

(** The [?] operator with a conversion of the error. *)
Definition lift_as {A} (f : string -> PluginError) (r : result string A) : PM A :=
  match r with Ok a => mret a | Err e => throw (f e) end.
Definition io {A : Set} (c : PCall (result string A)) : PM A := r ← call c; lift_as IoError r.

Definition required_str (key missing : string) (j : Json) : PM string :=
  or_throw (SignatureError missing) (get_str key j).

Definition load_signature (dir : string) : PM (option PluginSignature) :=
  let sig_path := path_join dir "plugin.sig" in
  there ← call (PathExists sig_path);
  if negb there then mret None
  else
    content ← io (ReadToString sig_path);
    data ← lift_as SignatureError (parse_json content);
    key ← required_str "public_key" "Missing public_key" data;
    sig ← required_str "signature" "Missing signature" data;
    let alg := from_option Datatypes.id "ed25519" (get_str "algorithm" data) in
    _ ← guard_m (bool_decide (alg = "ed25519")) (SignatureError ("Unsupported algorithm: " +:+ alg));
    mret (Some {| sig_public_key := key; signature := sig; algorithm := Ed25519 |}).

Definition check_signature (l : PluginLoader) (wasm_bytes : list Z) (sig : option PluginSignature) : PM unit :=
  if require_signatures l then
    match sig with
    | Some sig => lift (verify_signature l wasm_bytes sig)
    | None => throw SignatureRequired
    end
  else mret tt.

Definition checked_manifest (content : string) : PM PluginManifest :=
  m ← lift_as InvalidManifest (parse_manifest content);
  match validate m with
  | Ok _ => mret m
  | Err e => throw (InvalidManifest (show_validation_error e))
  end.

Definition load_plugin_package (l : PluginLoader) (dir : string) : PM PluginPackage :=
  let manifest_path := path_join dir "manifest.json" in
  there ← call (PathExists manifest_path);
  _ ← guard_m there (InvalidManifest ("manifest.json not found in " +:+ quoted dir));
  content ← io (ReadToString manifest_path);
  m ← checked_manifest content;
  let wasm_file := path_join dir (from_option Datatypes.id "plugin.wasm" (wasm (entry_points m))) in
  there ← call (PathExists wasm_file);
  _ ← guard_m there (NotFound ("WASM module not found: " +:+ quoted wasm_file));
  bytes ← io (ReadFile wasm_file);
  sig ← load_signature dir;
  _ ← check_signature l bytes sig;
  mret {| manifest := m; path := dir; wasm_path := wasm_file; wasm_hash := compute_sha256 bytes;
          package_signature := sig |}.

(** The directories that hold a package; the others are skipped. *)
Fixpoint load_packages (l : PluginLoader) (paths : list string) : PM (list PluginPackage) :=
  match paths with
  | [] => mret []
  | p :: paths =>
      dir ← call (IsDir p);
      found ← (if dir : bool then attempt (load_plugin_package l p) else mret (Err (NotFound p)));
      rest ← load_packages l paths;
      mret (match found with Ok package => package :: rest | Err _ => rest end)
  end.

Definition discover_plugins (l : PluginLoader) : PM (list PluginPackage) :=
  there ← call (PathExists (plugins_dir l));
  if negb there then mret []
  else entries ← io (ReadDir (plugins_dir l)); load_packages l entries.

(** The compiled module and the plugin it belongs to. *)
Definition load_into_sandbox (package : PluginPackage) : PM (Z * string) :=
  bytes ← io (ReadFile (wasm_path package));
  let current := compute_sha256 bytes in
  _ ← guard_m (bool_decide (current = wasm_hash package)) (HashMismatch (wasm_hash package) current);
  compiled ← call (CompileModule bytes);
  module ← lift_as CompilationError compiled;
  mret (module, id (manifest package)).

Definition extract_entry (dir : string) (e : ZipEntry) : PM unit :=
  let outpath := path_join dir (entry_name e) in
  if entry_is_dir e then io (CreateDirAll outpath)
  else
    _ ← match path_parent outpath with
        | Some parent => io (CreateDirAll parent)
        | None => mret tt
        end;
    _ ← io (CreateFile outpath);
    data ← lift_as IoError (entry_data e);
    io (CopyInto outpath data).

(** The entries from [i] on; [n] of them are left. *)
Fixpoint extract (dir : string) (a : Archive) (i n : nat) : PM unit :=
  match n with
  | O => mret tt
  | S n =>
      e ← lift_as IoError (zip_by_index i a);
      _ ← extract_entry dir e;
      extract dir a (S i) n
  end.

Definition bad_zip (e : string) : PluginError := InvalidManifest ("Invalid zip: " +:+ e).

(** [read_to_string] of an entry. *)
Definition entry_text (e : ZipEntry) : PM string :=
  data ← lift_as IoError (entry_data e);
  if valid_utf8 data then mret (bytes_string data)
  else throw (IoError "stream did not contain valid UTF-8").

Definition install_from_bytes (l : PluginLoader) (zip_bytes : list Z) : PM PluginPackage :=
  archive ← lift_as bad_zip (zip_open zip_bytes);
  file ← or_throw (InvalidManifest "manifest.json not found in archive") (zip_by_name "manifest.json" archive);
  content ← entry_text file;
  m ← checked_manifest content;
  let dir := path_join (plugins_dir l) (slug m) in
  _ ← io (CreateDirAll dir);
  archive ← lift_as bad_zip (zip_open zip_bytes);
  _ ← extract dir archive 0 (zip_len archive);
  load_plugin_package l dir.

Definition install_from_zip (l : PluginLoader) (zip_path : string) : PM PluginPackage :=
  bytes ← io (ReadFile zip_path); install_from_bytes l bytes.

(** Remove the first directory whose manifest has the identifier. *)
Fixpoint uninstall_from (plugin_id : string) (paths : list string) : PM unit :=
  match paths with
  | [] => throw (NotFound plugin_id)
  | p :: paths =>
      dir ← call (IsDir p);
      if negb dir then uninstall_from plugin_id paths
      else
        there ← call (PathExists (path_join p "manifest.json"));
        if negb there then uninstall_from plugin_id paths
        else
          content ← call (ReadToString (path_join p "manifest.json"));
          match content ≫= parse_manifest with
          | Ok m => if bool_decide (id m = plugin_id) then io (RemoveDirAll p)
                    else uninstall_from plugin_id paths
          | Err _ => uninstall_from plugin_id paths
          end
  end.

Definition uninstall (l : PluginLoader) (plugin_id : string) : PM unit :=
  entries ← io (ReadDir (plugins_dir l)); uninstall_from plugin_id entries.
End Loader.

(** ** The directory of a plugin *)

Lemma dashed_no_char c s : c <> "-"%char -> no_char c s -> no_char c (dashed s).
Proof.
  intros Hc. induction s as [|a s IH]; simpl; [done|]. rewrite !no_char_cons. intros [Ha Hs].
  split; [|auto]. destruct (_ || _); congruence.
Qed.

Lemma dashed_no_dot s : no_char "." (dashed s).
Proof.
  induction s as [|a s IH]; simpl; [done|]. rewrite no_char_cons. split; [|done].
  case_bool_decide; simpl; [done|]. by case_bool_decide.
Qed.

Lemma ascii_lower_eq c a : (nat_of_ascii c < 65 \/ 122 < nat_of_ascii c)%nat -> ascii_lower a = c -> a = c.
Proof.
  intros Hc. unfold ascii_lower. destruct (_ && _) eqn:E; [|done].
  apply andb_true_iff in E as [E1%Nat.leb_le E2%Nat.leb_le]. intros <-.
  rewrite nat_ascii_embedding in Hc by lia. lia.
Qed.

Lemma to_lowercase_no_char c s :
  (nat_of_ascii c < 65 \/ 122 < nat_of_ascii c < 128)%nat -> no_char c s -> no_char c (to_lowercase s).
Proof.
  intros Hc. assert (Hlow : forall a, a <> c -> ascii_lower a <> c).
  { intros a Ha E. apply Ha, ascii_lower_eq; [lia|done]. }
  assert (Hwide : forall a, (128 <= nat_of_ascii a \/ 65 <= nat_of_ascii a <= 122)%nat -> a <> c)
    by (intros a Ha ->; lia).
  remember (String.length s) as n eqn:En. revert s En.
  induction n as [n IH] using lt_wf_ind. intros s -> Hs. destruct s as [|a s]; [done|].
  apply no_char_cons in Hs as [Ha Hs].
  assert (Hgen : no_char c (String (ascii_lower a) (to_lowercase s))).
  { apply no_char_cons. split; [auto|]. apply (IH (String.length s)); simpl; auto. }
  assert (Hk : forall b d t, s = String b (String d t) -> no_char c (String "k" (to_lowercase t))).
  { intros b d t ->. apply no_char_cons. split; [apply Hwide; vm_compute; lia|].
    apply no_char_cons in Hs as [_ Hs]. apply no_char_cons in Hs as [_ Hs].
    apply (IH (String.length t)); simpl; auto. }
  assert (Hi : forall b t, s = String b t ->
    no_char c (String "i" (String "204" (String "135" (to_lowercase t))))).
  { intros b t ->. rewrite !no_char_cons. repeat split; try (apply Hwide; vm_compute; lia).
    apply no_char_cons in Hs as [_ Hs]. apply (IH (String.length t)); simpl; auto. }
  simpl. repeat case_match; subst; eauto.
Qed.

Lemma ascii_part_no_char c s :
  (nat_of_ascii c < 128)%nat -> Forall (fun a => a <> c) (ascii_part s) -> no_char c s.
Proof.
  intros Hc. induction s as [|a s IH]; simpl; [done|]. intros Hs. apply no_char_cons.
  destruct (nat_of_ascii a <? 128)%nat eqn:E.
  - inversion Hs; subst. auto.
  - apply Nat.ltb_ge in E. split; [intros ->; lia|auto].
Qed.

Lemma no_char_join c sep ws : c <> sep -> Forall (no_char c) ws -> no_char c (join sep ws).
Proof.
  intros Hc. induction 1 as [|w ws Hw Hws IH]; [done|]. destruct ws as [|w' ws]; [done|].
  change (join sep (w :: w' :: ws)) with (w +:+ String sep (join sep (w' :: ws))).
  apply no_char_app; [done|]. apply no_char_cons. split; [congruence|done].
Qed.

Section Theorems.
Context `{PluginCodecs}.

Lemma id_piece_no_slash p : id_piece p = true -> no_char "/" p.
Proof.
  unfold id_piece. rewrite !andb_true_iff. intros (_ & Ha & _). apply ascii_part_no_char; [vm_compute; lia|].
  rewrite forallb_forall in Ha. apply Forall_forall. intros a Hin%list_elem_of_In%Ha ->. by vm_compute in Hin.
Qed.

(** Claim C37: the directory of a plugin with a valid manifest is a single plain
    name, so it lies directly below the plugins directory. *)
Theorem slug_is_plain m : validate m = Ok tt -> plain_name (slug m).
Proof.
  unfold validate. repeat case_match; try done. intros _.
  match goal with E : negb (is_valid_plugin_id _) = false |- _ => apply negb_false_iff in E; rename E into Hid end.
  unfold is_valid_plugin_id in Hid. destruct (_ || _) eqn:E1; [done|]. destruct (length _ <? 2)%nat; [done|].
  assert (Hslash : no_char "/" (id m)).
  { rewrite <-(join_split "." (id m)). apply no_char_join; [done|].
    rewrite forallb_forall in Hid. apply Forall_forall. intros p Hp%list_elem_of_In.
    by apply id_piece_no_slash, Hid. }
  assert (Hdot : no_char "." (slug m)) by (apply to_lowercase_no_char; [vm_compute; lia|apply dashed_no_dot]).
  repeat split.
  - apply to_lowercase_no_char; [vm_compute; lia|]. by apply dashed_no_char.
  - apply orb_false_iff in E1 as [E1%bool_decide_eq_false _]. unfold slug. intros Es. apply E1.
    destruct (id m) as [|a s]; [done|]. exfalso. revert Es. cbn [dashed].
    generalize (if bool_decide (a = "."%char) || bool_decide (a = "_"%char) then "-"%char else a). intros b.
    simpl. by repeat case_match.
  - intros Es. by rewrite Es in Hdot.
  - intros Es. by rewrite Es in Hdot.
Qed.

(** requiring signatures protects nothing: a signature of 128 characters
    under a key of 64 is accepted for whatever the module holds, as long as
    the key is listed, or no key is. *)
Theorem signature_never_verified l bytes sig :
  verify_signature l bytes sig = Ok tt <->
  (trusted_signers l = [] \/ sig_public_key sig ∈ trusted_signers l) /\
  String.length (signature sig) = 128%nat /\ String.length (sig_public_key sig) = 64%nat.
Proof.
  unfold verify_signature. destruct (algorithm sig).
  destruct (bool_decide (trusted_signers l = [])) eqn:E1; destruct (bool_decide (_ ∉ _)) eqn:E2; simpl;
    rewrite ?bool_decide_eq_true, ?bool_decide_eq_false in *;
    destruct (Nat.eqb_spec (String.length (signature sig)) 128); simpl;
    destruct (Nat.eqb_spec (String.length (sig_public_key sig)) 64); simpl;
    (split; [intros Ha; try done|intros ([?|?] & ? & ?); try done]); try tauto.
  all: split; [|done]; try tauto; right; by apply dec_stable.
Qed.

(** installing an archive writes to the path its first file names, an
    absolute one included, before anything but the manifest is looked at. *)
Theorem archive_escapes {St} (answer : forall R : Set, PCall R -> R) l bytes a content mf data e (s : St) :
  (forall p, answer _ (CreateDirAll p) = Ok tt) ->
  zip_open bytes = Ok a -> zip_by_name "manifest.json" a = Some mf -> entry_data mf = Ok data ->
  valid_utf8 data = true -> bytes_string data = content ->
  (exists m, parse_manifest content = Ok m /\ validate m = Ok tt) ->
  zip_by_index 0 a = Ok e -> entry_is_dir e = false -> is_absolute (entry_name e) = true ->
  zip_len a <> 0%nat ->
  existT _ (CreateFile (entry_name e)) ∈ calls answer (install_from_bytes l bytes) s.
Proof.
  intros Hdir Ha Hm Hd Hu <- (m & Hp & Hv) He Hf Habs Hn. unfold calls, install_from_bytes.
  assert (Hjoin : forall b, path_join b (entry_name e) = entry_name e) by (intros b; unfold path_join; by rewrite Habs).
  assert (Hio : forall p (s : St) log, exists log', run_prog (logged answer) (io (CreateDirAll p) s) log = (s, Ok tt, log')).
  { intros p s' log. unfold io. sm_unfold. simpl. rewrite Hdir. simpl. eauto. }
  erewrite run_bind_ok by (rewrite Ha; reflexivity).
  erewrite run_bind_ok by (rewrite Hm; reflexivity).
  erewrite run_bind_ok by (unfold entry_text; rewrite Hd; sm_unfold; simpl; rewrite Hu; reflexivity).
  erewrite run_bind_ok by (unfold checked_manifest; rewrite Hp; sm_unfold; simpl; rewrite Hv; reflexivity).
  cbv zeta. destruct (Hio (path_join (plugins_dir l) (slug m)) s []) as [log1 Hlog1].
  erewrite run_bind_ok by exact Hlog1. erewrite run_bind_ok by (rewrite Ha; reflexivity).
  apply logged_bind. destruct (zip_len a) as [|n]; [done|]. cbn [extract].
  erewrite run_bind_ok by (rewrite He; reflexivity). apply logged_bind. unfold extract_entry.
  rewrite Hf, Hjoin.
  assert (Hpar : exists log', run_prog (logged answer)
    ((match path_parent (entry_name e) with Some parent => io (CreateDirAll parent) | None => mret tt end) s) log1
    = (s, Ok tt, log')).
  { destruct (path_parent (entry_name e)); [apply Hio|]. simpl. eauto. }
  destruct Hpar as [log2 Hlog2]. erewrite run_bind_ok by exact Hlog2.
  apply logged_bind, logged_bind. simpl. set_solver.
Qed.
End Theorems.

(** ** Witnesses

    An archive is the byte 80; it holds a manifest and a file with an absolute
    name. *)

Definition toy_plugin_types : PluginTypes := {| Json := string; wide_alphanumeric := fun _ => true |}.
#[local] Existing Instance toy_plugin_types.

Definition demo_manifest : PluginManifest := {|
  id := "com.example.Test_one"; name := "Test"; version := "1.0.0-beta"; author := ""; m_description := "";
  homepage := None; license := None; capabilities := [EventHooks]; min_omniedge_version := "0.1.0";
  max_omniedge_version := None; platforms := []; config_schema := None; default_config := ∅;
  entry_points := {| wasm := None; widget := None; widget_entry := None |}; icon := None; tags := [];
  dependencies := [] |}.

Definition demo_file : ZipEntry := {|
  entry_name := "/etc/cron.d/job"; entry_is_dir := false; entry_data := Ok [1; 2; 3] |}.
Definition demo_manifest_file : ZipEntry := {|
  entry_name := "manifest.json"; entry_is_dir := false; entry_data := Ok [109] |}.

Definition toy_codecs : PluginCodecs := {|
  parse_manifest := fun s => if bool_decide (s = "m") then Ok demo_manifest else Err "syntax";
  parse_json := fun s => Ok s; get_str := fun _ _ => None; Archive := list ZipEntry;
  zip_open := fun b => if bool_decide (b = [80]) then Ok [demo_file; demo_manifest_file] else Err "not a zip";
  zip_by_name := fun n a => List.find (fun e => bool_decide (entry_name e = n)) a; zip_len := fun a => length a;
  zip_by_index := fun i a => match a !! i with Some e => Ok e | None => Err "index" end;
  compute_sha256 := fun _ => "hash" |}.
#[local] Existing Instance toy_codecs.

Example demo_slug : slug demo_manifest = "com-example-test-one".
Proof. reflexivity. Qed.

Lemma slug_is_plain_witness : plain_name "com-example-test-one".
Proof. apply (slug_is_plain demo_manifest). vm_compute. reflexivity. Defined.

Definition loader_answer (R : Set) (c : PCall R) : R :=
  match c with
  | PathExists p => negb (ends_with p ".sig") | IsDir _ => true | ReadDir _ => Ok [] | ReadToString _ => Ok "m"
  | ReadFile _ => Ok [0] | CreateDirAll _ => Ok tt | CreateFile _ => Ok tt | CopyInto _ _ => Ok tt
  | RemoveDirAll _ => Ok tt | WriteFile _ _ => Ok tt | CompileModule _ => Ok 1 | NowMs => 5
  end.

Lemma archive_escapes_witness :
  existT _ (CreateFile "/etc/cron.d/job") ∈
    calls loader_answer (install_from_bytes (PluginLoader_new "/home/u/.omniedge/plugins/installed") [80]) tt.
Proof.
  apply (archive_escapes loader_answer) with (bytes := [80]) (content := "m") (mf := demo_manifest_file)
    (data := [109]) (e := demo_file) (a := [demo_file; demo_manifest_file] : @Archive _ toy_codecs);
    try reflexivity; try done.
  exists demo_manifest. split; vm_compute; reflexivity.
Defined.
