(* ===== verification/PluginManager.v ===== *)
(** * Plugins (omni-plugin/src/registry.rs, manager.rs)

    The registry of plugins with its index by capability and its state on
    disk, and the manager that loads, unloads, installs and configures
    plugins, one operation at a time. *)

From Stdlib Require Import Ascii.
From S2P Require Import Prelude RustStr Paths Effects PluginLoader.

Open Scope string_scope.
Open Scope list_scope.
Open Scope Z_scope.

Inductive PluginState : Set := Discovered | Loading | Loaded | Running | Stopped | Error | Disabled.

#[global] Instance PluginState_eq_dec : EqDecision PluginState.
Proof. solve_decision. Defined.

Definition show_state (s : PluginState) : string :=
  match s with
  | Discovered => "discovered" | Loading => "loading" | Loaded => "loaded" | Running => "running"
  | Stopped => "stopped" | Error => "error" | Disabled => "disabled"
  end.

Section Registry.
Context `{PluginTypes}.

Record RegistryEntry : Set := {
  r_manifest : PluginManifest; r_path : string; r_wasm_path : string; state : PluginState;
  r_wasm_hash : string; last_error : option string; enabled : bool; config : gmap string Json;
  loaded_at : option Z }.

Definition from_package (p : PluginPackage) : RegistryEntry := {|
  r_manifest := manifest p; r_path := path p; r_wasm_path := wasm_path p; state := Discovered;
  r_wasm_hash := wasm_hash p; last_error := None; enabled := true;
  config := default_config (manifest p); loaded_at := None |}.

Definition entry_id (e : RegistryEntry) : string := id (r_manifest e).
Definition is_active (e : RegistryEntry) : bool := bool_decide (state e = Loaded \/ state e = Running).

(** The parts of an entry that change: state, error, enabled, configuration, load time. *)
Definition change (s : PluginState) (err : option string) (en : bool) (c : gmap string Json)
    (at_ : option Z) (e : RegistryEntry) : RegistryEntry := {|
  r_manifest := r_manifest e; r_path := r_path e; r_wasm_path := r_wasm_path e; state := s;
  r_wasm_hash := r_wasm_hash e; last_error := err; enabled := en; config := c; loaded_at := at_ |}.

Record PluginRegistry : Set := {
  plugins : gmap string RegistryEntry; capability_index : gmap Capability (list string);
  state_file : string }.

Definition PluginRegistry_new (file : string) : PluginRegistry := {|
  plugins := ∅; capability_index := ∅; state_file := file |}.

Definition set_plugins (m : gmap string RegistryEntry) (r : PluginRegistry) : PluginRegistry := {|
  plugins := m; capability_index := capability_index r; state_file := state_file r |}.

Definition at_index (c : Capability) (index : gmap Capability (list string)) : list string :=
  from_option Datatypes.id [] (index !! c).

Definition register (p : PluginPackage) (r : PluginRegistry) : PluginRegistry :=
  let entry := from_package p in
  let i := entry_id entry in
  {| plugins := <[i := entry]> (plugins r);
     capability_index := fold_left (fun index c => <[c := push (at_index c index) i]> index)
                           (capabilities (r_manifest entry)) (capability_index r);
     state_file := state_file r |}.

Definition unregister (i : string) (r : PluginRegistry) : result PluginError PluginRegistry :=
  match plugins r !! i with
  | None => Err (NotFound i)
  | Some entry =>
      Ok {| plugins := delete i (plugins r);
            capability_index := fold_left (fun index c =>
              alter (List.filter (fun j => negb (bool_decide (j = i)))) c index)
              (capabilities (r_manifest entry)) (capability_index r);
            state_file := state_file r |}
  end.

Definition get (i : string) (r : PluginRegistry) : option RegistryEntry := plugins r !! i.
Definition list_all (r : PluginRegistry) : list RegistryEntry := map snd (map_to_list (plugins r)).
Definition get_by_capability (c : Capability) (r : PluginRegistry) : list RegistryEntry :=
  List.filter enabled (omap (fun i => plugins r !! i) (at_index c (capability_index r))).
Definition get_enabled (r : PluginRegistry) : list RegistryEntry := List.filter enabled (list_all r).
Definition get_by_state (s : PluginState) (r : PluginRegistry) : list RegistryEntry :=
  List.filter (fun e => bool_decide (state e = s)) (list_all r).
Definition count (r : PluginRegistry) : nat := size (plugins r).
Definition enabled_count (r : PluginRegistry) : nat := length (get_enabled r).

Definition update (i : string) (f : RegistryEntry -> RegistryEntry) (r : PluginRegistry)
    : result PluginError PluginRegistry :=
  match plugins r !! i with
  | Some e => Ok (set_plugins (<[i := f e]> (plugins r)) r)
  | None => Err (NotFound i)
  end.

Definition set_state (now : Z) (i : string) (s : PluginState) : PluginRegistry -> result PluginError PluginRegistry :=
  update i (fun e => change s (if bool_decide (s = Error) then last_error e else None) (enabled e) (config e)
    (if bool_decide (s = Loaded \/ s = Running) then Some now else loaded_at e) e).
Definition set_error (i err : string) : PluginRegistry -> result PluginError PluginRegistry :=
  update i (fun e => change Error (Some err) (enabled e) (config e) (loaded_at e) e).
Definition enable (i : string) : PluginRegistry -> result PluginError PluginRegistry :=
  update i (fun e => change (if bool_decide (state e = Disabled) then Discovered else state e)
    (last_error e) true (config e) (loaded_at e) e).
Definition disable (i : string) : PluginRegistry -> result PluginError PluginRegistry :=
  update i (fun e => change Disabled (last_error e) false (config e) (loaded_at e) e).
Definition set_config (i : string) (c : gmap string Json) : PluginRegistry -> result PluginError PluginRegistry :=
  update i (fun e => change (state e) (last_error e) (enabled e) c (loaded_at e) e).
Definition get_config (i : string) (r : PluginRegistry) : option (gmap string Json) :=
  config <$> plugins r !! i.

Record PluginStateEntry : Set := { se_enabled : bool; se_config : gmap string Json }.

(** Apply the state on disk to the plugins that are registered. *)
Definition apply_saved (saved : gmap string PluginStateEntry) (m : gmap string RegistryEntry)
    : gmap string RegistryEntry :=
  map_imap (fun i e => Some match saved !! i with
    | Some s => change (state e) (last_error e) (se_enabled s) (se_config s) (loaded_at e) e
    | None => e
    end) m.

Definition saved_state (r : PluginRegistry) : gmap string PluginStateEntry :=
  (fun e => {| se_enabled := enabled e; se_config := config e |}) <$> plugins r.

(** ** The manager *)

Record SandboxLimits : Set := {
  max_memory_bytes : Z; max_table_elements : Z; max_instances : Z; max_execution_time_ms : Z; max_fuel : Z }.
Definition SandboxLimits_default : SandboxLimits := {|
  max_memory_bytes := 64 * 1024 * 1024; max_table_elements := 10000; max_instances := 10;
  max_execution_time_ms := 100; max_fuel := 1000000 |}.

Record PluginConfig : Set := {
  data_dir : string; max_memory : Z; max_time_ms : Z; c_require_signatures : bool;
  c_trusted_signers : list string }.
Definition plugins_path (c : PluginConfig) : string := path_join (path_join (data_dir c) "plugins") "installed".
Definition cache_dir (c : PluginConfig) : string := path_join (path_join (data_dir c) "cache") "plugins".
Definition config_file (c : PluginConfig) : string := path_join (path_join (data_dir c) "config") "plugins.json".

(** A module with its store: the configuration it sees and its fuel. *)
Record RunningPlugin : Set := {
  module : Z; module_id : string; store_config : gmap string Json; fuel : Z; package : PluginPackage }.

Record PluginManager : Set := {
  p_config : PluginConfig; limits : SandboxLimits; loader : PluginLoader; registry : PluginRegistry;
  running : gmap string RunningPlugin }.

Definition PluginManager_new (c : PluginConfig) : PluginManager := {|
  p_config := c;
  limits := {| max_memory_bytes := max_memory c; max_table_elements := 10000; max_instances := 10;
               max_execution_time_ms := max_time_ms c; max_fuel := 1000000 |};
  loader := {| plugins_dir := plugins_path c; require_signatures := c_require_signatures c;
               trusted_signers := c_trusted_signers c |};
  registry := PluginRegistry_new (config_file c); running := ∅ |}.

Definition set_registry (r : PluginRegistry) (m : PluginManager) : PluginManager := {|
  p_config := p_config m; limits := limits m; loader := loader m; registry := r; running := running m |}.
Definition set_running (ps : gmap string RunningPlugin) (m : PluginManager) : PluginManager := {|
  p_config := p_config m; limits := limits m; loader := loader m; registry := registry m; running := ps |}.
End Registry.

Class StateCodec `{PluginTypes} : Type := {
  parse_state : string -> result string (gmap string PluginStateEntry);
  print_state : gmap string PluginStateEntry -> result string string;
  show_error : PluginError -> string }.

Section Manager.
Context `{PluginTypes} `{!PluginCodecs} `{!StateCodec}.
Abbreviation MM := (SM PCall PluginManager PluginError) (only parsing).

(** An operation of the registry that may fail. *)
Definition on_registry (f : PluginRegistry -> result PluginError PluginRegistry) : MM unit :=
  r ← gets registry;
  r ← lift (f r);
  modify (set_registry r).
Definition set_state_now (i : string) (s : PluginState) : MM unit :=
  r ← gets registry;
  now ← (if bool_decide (is_Some (plugins r !! i) /\ (s = Loaded \/ s = Running)) then call NowMs else mret 0);
  on_registry (set_state now i s).

Definition load_state : MM unit :=
  file ← gets (fun m => state_file (registry m));
  there ← call (PathExists file);
  if negb there then mret tt
  else
    content ← io (ReadToString file);
    saved ← lift_as ConfigError (parse_state content);
    modify (fun m => set_registry (set_plugins (apply_saved saved (plugins (registry m))) (registry m)) m).

Definition save_state : MM unit :=
  r ← gets registry;
  _ ← match path_parent (state_file r) with
      | Some parent => io (CreateDirAll parent)
      | None => mret tt
      end;
  content ← lift_as ConfigError (print_state (saved_state r));
  io (WriteFile (state_file r) content).

Definition initialize : MM unit :=
  c ← gets p_config;
  _ ← io (CreateDirAll (plugins_path c));
  _ ← io (CreateDirAll (cache_dir c));
  load_state.

Definition register_package (p : PluginPackage) : MM unit :=
  modify (fun m => set_registry (register p (registry m)) m).

Fixpoint register_all (ps : list PluginPackage) : MM unit :=
  match ps with [] => mret tt | p :: ps => _ ← register_package p; register_all ps end.

Definition discover : MM (list string) :=
  l ← gets loader;
  packages ← discover_plugins l;
  _ ← register_all packages;
  _ ← attempt load_state;
  mret (map (fun p => id (manifest p)) packages).

Definition load_plugin (i : string) : MM unit :=
  ps ← gets running;
  _ ← guard_m (bool_decide (ps !! i = None)) (AlreadyLoaded i);
  found ← gets (fun m => plugins (registry m) !! i);
  entry ← or_throw (NotFound i) found;
  _ ← guard_m (enabled entry) (LifecycleError ("Plugin " +:+ i +:+ " is disabled"));
  _ ← set_state_now i Loading;
  l ← gets loader;
  p ← load_plugin_package l (r_path entry);
  loaded ← attempt (load_into_sandbox p);
  match loaded with
  | Err e => _ ← on_registry (set_error i (show_error e)); throw e
  | Ok (md, mid) =>
      f ← gets (fun m => max_fuel (limits m));
      _ ← modify (fun m => set_running (<[i := {| module := md; module_id := mid;
            store_config := config entry; fuel := f; package := p |}]> (running m)) m);
      set_state_now i Loaded
  end.

Definition unload_plugin (i : string) : MM unit :=
  ps ← gets running;
  _ ← guard_m (bool_decide (is_Some (ps !! i))) (NotFound i);
  _ ← modify (fun m => set_running (delete i (running m)) m);
  set_state_now i Stopped.

(** Each in turn; the failures are logged. *)
Fixpoint each (op : string -> MM unit) (ids : list string) : MM unit :=
  match ids with [] => mret tt | i :: ids => _ ← attempt (op i); each op ids end.

(** [ids]: the plugins in the order the maps are walked in. *)
Definition load_all : MM unit :=
  r ← gets registry;
  each load_plugin (map entry_id (get_enabled r)).
Definition unload_all : MM unit :=
  ps ← gets running;
  each unload_plugin (map fst (map_to_list ps)).

Definition install (p : PluginPackage) : MM string :=
  _ ← register_package p;
  _ ← save_state;
  mret (id (manifest p)).
Definition install_plugin (zip_path : string) : MM string :=
  l ← gets loader;
  p ← install_from_zip l zip_path; install p.
Definition install_plugin_bytes (zip_bytes : list Z) : MM string :=
  l ← gets loader;
  p ← install_from_bytes l zip_bytes; install p.

Definition uninstall_plugin (i : string) : MM unit :=
  _ ← attempt (unload_plugin i);
  _ ← on_registry (unregister i);
  l ← gets loader;
  _ ← uninstall l i;
  save_state.

Definition enable_plugin (i : string) : MM unit := _ ← on_registry (enable i); save_state.
Definition disable_plugin (i : string) : MM unit :=
  _ ← attempt (unload_plugin i);
  _ ← on_registry (disable i);
  save_state.

Definition update_config (i : string) (c : gmap string Json) : MM unit :=
  _ ← on_registry (set_config i c);
  _ ← save_state;
  ps ← gets running;
  if bool_decide (is_Some (ps !! i)) then _ ← unload_plugin i; load_plugin i else mret tt.

Definition shutdown : MM unit := _ ← unload_all; save_state.
Definition running_plugins (m : PluginManager) : list string := map fst (map_to_list (running m)).
End Manager.

(** ** The index by capability *)

Section Index.
Context `{PluginTypes}.

(** Entries are under their identifiers and the index lists each plugin once
    under each of its capabilities, and nothing else. *)
Definition exact (r : PluginRegistry) : Prop :=
  (forall i e, plugins r !! i = Some e -> entry_id e = i) /\
  forall c, NoDup (at_index c (capability_index r)) /\
    forall i, i ∈ at_index c (capability_index r) <->
              exists e, plugins r !! i = Some e /\ c ∈ capabilities (r_manifest e).

Inductive RegistryOp : Type :=
| Register (p : PluginPackage) | Unregister (i : string) | SetState (now : Z) (i : string) (s : PluginState)
| SetError (i err : string) | Enable (i : string) | Disable (i : string)
| SetConfig (i : string) (c : gmap string Json).

(** A failing operation changes nothing. *)
Definition apply_op (op : RegistryOp) (r : PluginRegistry) : PluginRegistry :=
  let keep (x : result PluginError PluginRegistry) := match x with Ok r' => r' | Err _ => r end in
  match op with
  | Register p => register p r
  | Unregister i => keep (unregister i r)
  | SetState now i s => keep (set_state now i s r)
  | SetError i err => keep (set_error i err r)
  | Enable i => keep (enable i r)
  | Disable i => keep (disable i r)
  | SetConfig i c => keep (set_config i c r)
  end.

(** Only plugins that are not registered are registered, and a manifest names
    no capability twice. *)
Definition fresh (op : RegistryOp) (r : PluginRegistry) : Prop :=
  match op with
  | Register p => plugins r !! id (manifest p) = None /\ NoDup (capabilities (manifest p))
  | _ => True
  end.
Fixpoint fresh_history (ops : list RegistryOp) (r : PluginRegistry) : Prop :=
  match ops with [] => True | op :: ops => fresh op r /\ fresh_history ops (apply_op op r) end.
Definition after (ops : list RegistryOp) (r : PluginRegistry) : PluginRegistry :=
  fold_left (fun r op => apply_op op r) ops r.

Lemma at_index_pushes i cs index c :
  NoDup cs -> at_index c (fold_left (fun index c => <[c := push (at_index c index) i]> index) cs index)
  = if decide (c ∈ cs) then push (at_index c index) i else at_index c index.
Proof.
  revert index. induction cs as [|d cs IH]; intros index Hnd; [by rewrite decide_False by set_solver|].
  apply NoDup_cons in Hnd as [Hd Hnd]. simpl. rewrite IH by done. unfold at_index.
  destruct (decide (d = c)) as [->|Hne].
  - rewrite lookup_insert_eq, (decide_True (P := c ∈ c :: cs)) by left. by rewrite decide_False.
  - rewrite lookup_insert_ne by done. apply decide_ext. rewrite elem_of_cons. naive_solver.
Qed.

Lemma at_index_filters (f : string -> bool) cs index c :
  at_index c (fold_left (fun index c => alter (List.filter f) c index) cs index) =
  if decide (c ∈ cs) then List.filter f (at_index c index) else at_index c index.
Proof.
  assert (Hidem : forall l : list string, List.filter f (List.filter f l) = List.filter f l).
  { induction l as [|x l IHl]; simpl; [done|]. destruct (f x) eqn:E; simpl; [rewrite E, IHl|]; done. }
  revert index. induction cs as [|d cs IH]; intros index; [by rewrite decide_False by set_solver|].
  simpl. rewrite IH. unfold at_index.
  destruct (decide (d = c)) as [->|Hne].
  - rewrite lookup_alter_eq, (decide_True (P := c ∈ c :: cs)) by left.
    destruct (index !! c); simpl; case_decide; rewrite ?Hidem; done.
  - rewrite lookup_alter_ne by done. apply decide_ext. rewrite elem_of_cons. naive_solver.
Qed.

Lemma exact_register p r : fresh (Register p) r -> exact r -> exact (register p r).
Proof.
  intros [Hnew Hnd] [Hid Hix]. split; simpl.
  - intros i e. destruct (decide (id (manifest p) = i)) as [<-|Hne].
    + rewrite lookup_insert_eq. by intros [= <-].
    + rewrite lookup_insert_ne by done. apply Hid.
  - intros c. destruct (Hix c) as [Hn Hin]. rewrite at_index_pushes by done.
    assert (Hni : id (manifest p) ∉ at_index c (capability_index r)).
    { rewrite Hin. intros (e & He & _). congruence. }
    change (entry_id (from_package p)) with (id (manifest p)).
    case_decide as Hc.
    + split.
      * apply NoDup_app. split; [done|]. split; [|apply NoDup_singleton]. set_solver.
      * intros i. unfold push. rewrite elem_of_app, list_elem_of_singleton.
        destruct (decide (id (manifest p) = i)) as [<-|Hne].
        { rewrite lookup_insert_eq. naive_solver. }
        { rewrite lookup_insert_ne by done. rewrite Hin. naive_solver. }
    + split; [done|]. intros i. destruct (decide (id (manifest p) = i)) as [<-|Hne].
      * rewrite lookup_insert_eq. naive_solver.
      * rewrite lookup_insert_ne by done. apply Hin.
Qed.

Lemma exact_unregister i r r' : unregister i r = Ok r' -> exact r -> exact r'.
Proof.
  unfold unregister. destruct (plugins r !! i) as [e|] eqn:E; [|done]. intros [= <-] [Hid Hix]. split; simpl.
  - intros j f [_ Hj]%lookup_delete_Some. auto.
  - intros c. destruct (Hix c) as [Hn Hin]. rewrite at_index_filters.
    set (f := fun j : string => negb (bool_decide (j = i))).
    assert (Hf : forall j l, j ∈ List.filter f l <-> j <> i /\ j ∈ l).
    { intros j l. rewrite !list_elem_of_In, filter_In. unfold f. rewrite negb_true_iff, bool_decide_eq_false. tauto. }
    case_decide as Hc.
    + split; [by apply NoDup_ListNoDup, List.NoDup_filter, NoDup_ListNoDup|]. intros j. rewrite Hf, Hin.
      setoid_rewrite lookup_delete_Some. naive_solver.
    + split; [done|]. intros j. rewrite Hin. setoid_rewrite lookup_delete_Some.
      split; [|naive_solver]. intros (g & Hg & Hcg). exists g. split; [|done]. split; [|done]. intros <-. congruence.
Qed.

Lemma exact_update i f r r' :
  (forall e, r_manifest (f e) = r_manifest e) -> update i f r = Ok r' -> exact r -> exact r'.
Proof.
  intros Hf. unfold update. destruct (plugins r !! i) as [e|] eqn:E; [|done]. intros [= <-] [Hid Hix]. split; simpl.
  - intros j g. destruct (decide (i = j)) as [<-|Hne].
    + rewrite lookup_insert_eq. intros [= <-]. unfold entry_id. rewrite Hf. by apply Hid.
    + rewrite lookup_insert_ne by done. apply Hid.
  - intros c. destruct (Hix c) as [Hn Hin]. split; [done|]. intros j. rewrite Hin.
    destruct (decide (i = j)) as [<-|Hne].
    + rewrite lookup_insert_eq, E. split.
      * intros (g & [= <-] & Hg). exists (f e). by rewrite Hf.
      * intros (g & [= <-] & Hg). exists e. by rewrite Hf in Hg.
    + by rewrite lookup_insert_ne.
Qed.

Lemma exact_op op r : fresh op r -> exact r -> exact (apply_op op r).
Proof.
  intros Hf Hr. destruct op; simpl; [by apply exact_register|..]; match goal with |- exact (match ?x with _ => _ end) => destruct x as [r'|] eqn:E end; try done.
  - by eapply exact_unregister.
  - by apply exact_update in E.
  - by apply exact_update in E.
  - by apply exact_update in E.
  - by apply exact_update in E.
  - by apply exact_update in E.
Qed.

Lemma exact_new file : exact (PluginRegistry_new file).
Proof.
  split; [done|]. intros c. split; [by apply NoDup_nil_2|]. intros i. split; [set_solver|]. by intros (e & ? & _).
Qed.

(** As long as no plugin is registered again before it was
    unregistered, looking plugins up by capability gives each enabled plugin
    with the capability once and no other. *)
Theorem get_by_capability_exact file ops c :
  fresh_history ops (PluginRegistry_new file) ->
  let r := after ops (PluginRegistry_new file) in
  NoDup (map entry_id (get_by_capability c r)) /\
  forall e, e ∈ get_by_capability c r <->
    plugins r !! entry_id e = Some e /\ enabled e = true /\ has_capability c (r_manifest e) = true.
Proof.
  intros Hf. assert (Hx : exact (after ops (PluginRegistry_new file))).
  { revert Hf. generalize (exact_new file). generalize (PluginRegistry_new file). unfold after.
    induction ops as [|op ops IH]; intros r Hr; simpl; [done|]. intros [Ho Hops]. apply IH; [by apply exact_op|done]. }
  revert Hx. generalize (after ops (PluginRegistry_new file)). intros r [Hid Hix]. cbv zeta.
  destruct (Hix c) as [Hn Hin]. unfold get_by_capability. split.
  - assert (Hsub : forall l, NoDup l -> NoDup (map entry_id (List.filter enabled (omap (fun i => plugins r !! i) l))) /\
      forall i, i ∈ map entry_id (List.filter enabled (omap (fun i => plugins r !! i) l)) -> i ∈ l).
    { induction 1 as [|i l Hi Hl [IH1 IH2]]; simpl; [split; [by apply NoDup_nil_2|set_solver]|].
      destruct (plugins r !! i) as [e|] eqn:E; simpl; [|set_solver].
      destruct (enabled e); simpl; [|set_solver]. rewrite (Hid i e E). split; [|set_solver].
      apply NoDup_cons. split; [|done]. intros Hc%IH2. done. }
    by apply Hsub.
  - intros e. rewrite list_elem_of_In, filter_In, <-list_elem_of_In, list_elem_of_omap. unfold has_capability.
    rewrite bool_decide_eq_true. split.
    + intros ((i & Hi & Hp) & He). rewrite (Hid i e Hp). split; [done|]. split; [done|].
      apply Hin in Hi as (e' & Hp' & Hc). congruence.
    + intros (Hp & He & Hc). split; [|done]. exists (entry_id e). split; [|done]. apply Hin. eauto.
Qed.

(** registering a plugin again, as installing an update or looking for
    plugins does, lists it once more under each of its capabilities, puts it
    back to Discovered and enables it. *)
Theorem registered_again_listed_twice p r c :
  c ∈ capabilities (manifest p) -> NoDup (capabilities (manifest p)) ->
  get_by_capability c (register p (register p r)) =
    get_by_capability c (register p r) ++ [from_package p] /\
  from_package p ∈ get_by_capability c (register p r) /\
  plugins (register p r) !! id (manifest p) = Some (from_package p).
Proof.
  intros Hc Hnd. unfold get_by_capability. simpl.
  rewrite !at_index_pushes by done. rewrite !decide_True by done.
  change (entry_id (from_package p)) with (id (manifest p)).
  rewrite insert_insert_eq. rewrite lookup_insert_eq.
  set (m := <[_ := _]> (plugins r)).
  assert (Hp : m !! id (manifest p) = Some (from_package p)) by apply lookup_insert_eq.
  unfold push. rewrite !omap_app, !List.filter_app. simpl. rewrite Hp. simpl.
  split; [done|]. split; [set_solver|done].
Qed.
End Index.

(** ** Running plugins *)

Section Lifecycle.
Context `{PluginTypes} `{!PluginCodecs} `{!StateCodec}.

Abbreviation any m s Q := (hoare (fun _ _ => True) (fun _ _ _ => True) m s Q) (only parsing).

(** A plugin that runs is registered and enabled. *)
Definition runs_enabled (m : PluginManager) : Prop :=
  forall i, is_Some (running m !! i) -> exists e, plugins (registry m) !! i = Some e /\ enabled e = true.

Inductive ManagerOp : Type :=
| Load (i : string) | Unload (i : string) | LoadAll | UnloadAll | Install (zip : string)
| InstallBytes (zip : list Z) | Uninstall (i : string) | EnablePlugin (i : string)
| DisablePlugin (i : string) | Configure (i : string) (c : gmap string Json) | Shutdown.

Definition perform (op : ManagerOp) : SM PCall PluginManager PluginError unit :=
  match op with
  | Load i => load_plugin i | Unload i => unload_plugin i | LoadAll => load_all | UnloadAll => unload_all
  | Install zip => _ ← install_plugin zip; mret tt
  | InstallBytes zip => _ ← install_plugin_bytes zip; mret tt
  | Uninstall i => uninstall_plugin i | EnablePlugin i => enable_plugin i
  | DisablePlugin i => disable_plugin i | Configure i c => update_config i c | Shutdown => shutdown
  end.

(** The loader and the file system leave the manager alone. *)
Lemma io_same {A : Set} (c : PCall (result string A)) (m : PluginManager) :
  any (io c) m (fun m' _ => m' = m).
Proof. unfold io. sm_step. sm_step; [done|]. destruct r; simpl; by sm_step. Qed.

Lemma lift_as_same {A} f (r : result string A) (m : PluginManager) :
  any (lift_as f r) m (fun m' _ => m' = m).
Proof. destruct r; simpl; by sm_step. Qed.

(** Sequencing computations that leave the state alone. *)
Lemma same_bind {A B} (c : SM PCall PluginManager PluginError A) (f : A -> SM PCall PluginManager PluginError B) m :
  any c m (fun m' _ => m' = m) -> (forall a, any (f a) m (fun m' _ => m' = m)) ->
  any (c ≫= f) m (fun m' _ => m' = m).
Proof. intros Hc Hf. sm_step. eapply hoare_mono; [exact Hc|]. intros m' [a|e] ->; auto. Qed.

Create HintDb same.
#[local] Hint Resolve io_same lift_as_same : same.
Ltac same := cbv zeta;
  repeat match goal with
  | |- hoare _ _ (_ ≫= _) _ _ => apply same_bind; [|intros ?]
  | |- hoare _ _ (mret _) _ _ => sm_step; done
  | |- hoare _ _ (throw _) _ _ => sm_step; done
  | |- hoare _ _ (call _) _ _ => sm_step; done
  | |- hoare _ _ (lift _) _ _ => sm_step; done
  | |- hoare _ _ (or_throw _ _) _ _ => sm_step; done
  | |- hoare _ _ (guard_m _ _) _ _ => sm_step; done
  | |- hoare _ _ (match _ with _ => _ end) _ _ => case_match
  | |- hoare _ _ _ _ _ => solve [auto with same nocore]
  end.

Lemma load_signature_same dir (m : PluginManager) : any (load_signature dir) m (fun m' _ => m' = m).
Proof. unfold load_signature, required_str. same. Qed.
Lemma checked_manifest_same c (m : PluginManager) : any (checked_manifest c) m (fun m' _ => m' = m).
Proof. unfold checked_manifest. same. Qed.
#[local] Hint Resolve load_signature_same checked_manifest_same : same.

Lemma load_package_same l dir (m : PluginManager) : any (load_plugin_package l dir) m (fun m' _ => m' = m).
Proof. unfold load_plugin_package, check_signature. same. Qed.
Lemma sandbox_same p (m : PluginManager) : any (load_into_sandbox p) m (fun m' _ => m' = m).
Proof. unfold load_into_sandbox. same. Qed.
Lemma extract_same dir a n : forall i (m : PluginManager), any (extract dir a i n) m (fun m' _ => m' = m).
Proof. induction n as [|n IH]; intros i m; simpl; unfold extract_entry; same; apply IH. Qed.
#[local] Hint Resolve load_package_same sandbox_same extract_same : same.

Lemma install_bytes_same l b (m : PluginManager) : any (install_from_bytes l b) m (fun m' _ => m' = m).
Proof. unfold install_from_bytes, entry_text. same. Qed.
Lemma uninstall_same l i (m : PluginManager) : any (uninstall l i) m (fun m' _ => m' = m).
Proof.
  unfold uninstall. apply same_bind; [apply io_same|]. intros ps. revert m.
  induction ps as [|p ps IH]; intros m; simpl; same; apply IH.
Qed.
#[local] Hint Resolve install_bytes_same uninstall_same : same.

(** The invariant and the operations of the registry. *)
Lemma runs_update i f (m : PluginManager) r :
  (forall e, plugins (registry m) !! i = Some e -> enabled e = true -> is_Some (running m !! i) -> enabled (f e) = true) ->
  update i f (registry m) = Ok r -> runs_enabled m -> runs_enabled (set_registry r m).
Proof.
  intros Hf. unfold update. destruct (plugins (registry m) !! i) as [e|] eqn:E; [|done]. intros [= <-] Hm j Hj.
  simpl in *. destruct (Hm j Hj) as (e' & He' & Hen). destruct (decide (i = j)) as [<-|Hne].
  - rewrite lookup_insert_eq. exists (f e). split; [done|]. apply Hf; [done|congruence|done].
  - rewrite lookup_insert_ne by done. eauto.
Qed.

Lemma on_update_runs i f m :
  (forall e, plugins (registry m) !! i = Some e -> enabled e = true -> is_Some (running m !! i) -> enabled (f e) = true) ->
  runs_enabled m -> any (on_registry (update i f)) m (fun m' _ => runs_enabled m').
Proof. intros Hf Hm. unfold on_registry. repeat sm_step; [|done]. by eapply runs_update. Qed.

Lemma set_state_runs i s m : runs_enabled m -> any (set_state_now i s) m (fun m' _ => runs_enabled m').
Proof.
  intros Hm. unfold set_state_now. do 3 sm_step. eapply hoare_mono with (Q := fun m' _ => m' = m).
  { case_bool_decide; by repeat sm_step. }
  intros m' [now|e] ->; [|done]. by apply on_update_runs.
Qed.

Lemma save_same (m : PluginManager) : any save_state m (fun m' _ => m' = m).
Proof. unfold save_state. do 2 sm_step. same. Qed.

Lemma runs_stop i m : runs_enabled m -> runs_enabled (set_running (delete i (running m)) m).
Proof. intros Hm j. simpl. intros [p [_ Hp]%lookup_delete_Some]. apply Hm. eauto. Qed.

Lemma set_state_running i s m : any (set_state_now i s) m (fun m' _ => running m' = running m).
Proof.
  unfold set_state_now, on_registry. do 3 sm_step. eapply hoare_mono with (Q := fun m' _ => m' = m).
  { case_bool_decide; by repeat sm_step. }
  intros m' [now|e] ->; [|done]. by repeat sm_step.
Qed.

(** Afterwards the plugin does not run. *)
Lemma unload_runs i m : runs_enabled m ->
  any (unload_plugin i) m (fun m' _ => runs_enabled m' /\ running m' !! i = None).
Proof.
  intros Hm. unfold unload_plugin. do 4 sm_step.
  - do 2 sm_step. apply hoare_and; [by apply set_state_runs, runs_stop|].
    eapply hoare_mono; [apply set_state_running|]. intros m' ? ->. apply lookup_delete_eq.
  - split; [done|]. apply eq_None_not_Some. by eapply bool_decide_eq_false.
Qed.

(** ** Loading *)

Definition with_entry (i : string) (e : RegistryEntry) (m : PluginManager) : PluginManager :=
  set_registry (set_plugins (<[i := e]> (plugins (registry m))) (registry m)) m.

Lemma set_state_spec i s e m :
  plugins (registry m) !! i = Some e ->
  any (set_state_now i s) m (fun m' r => r = Ok tt /\ exists now, m' = with_entry i
    (change s (if bool_decide (s = Error) then last_error e else None) (enabled e) (config e)
       (if bool_decide (s = Loaded \/ s = Running) then Some now else loaded_at e) e) m).
Proof.
  intros He. unfold set_state_now. do 3 sm_step. eapply hoare_mono with (Q := fun m' r => m' = m /\ is_ok r = true).
  { case_bool_decide; by repeat sm_step. }
  intros m' [now|err] [-> Hr]; [|done]. unfold on_registry. do 2 sm_step.
  unfold set_state, update. rewrite He. repeat sm_step; [|done]. simplify_eq. split; [done|]. by exists now.
Qed.

(** What becomes of an attempt to load the enabled plugin [e]. *)
Definition load_outcome (i : string) (e : RegistryEntry) (m m' : PluginManager) (r : result PluginError unit) : Prop :=
  (exists err, r = Err err /\ m' = with_entry i (change Loading None true (config e) (loaded_at e) e) m) \/
  (exists err, r = Err err /\
     m' = with_entry i (change Error (Some (show_error err)) true (config e) (loaded_at e) e) m) \/
  (exists md mid p now, r = Ok tt /\
     m' = set_running (<[i := {| module := md; module_id := mid; store_config := config e;
                                 fuel := max_fuel (limits m); package := p |}]> (running m))
            (with_entry i (change Loaded None true (config e) (Some now) e) m)).

(** What an attempt to load a plugin gives. *)
Definition load_result (i : string) (m m' : PluginManager) (r : result PluginError unit) : Prop :=
  match running m !! i, plugins (registry m) !! i with
  | Some _, _ => r = Err (AlreadyLoaded i) /\ m' = m
  | None, None => r = Err (NotFound i) /\ m' = m
  | None, Some e =>
      if enabled e then load_outcome i e m m' r
      else r = Err (LifecycleError ("Plugin " +:+ i +:+ " is disabled")) /\ m' = m
  end.

Lemma load_plugin_result i m : any (load_plugin i) m (load_result i m).
Proof.
  unfold load_plugin, load_result. do 2 sm_step. destruct (running m !! i) as [rp|] eqn:Er.
  { rewrite bool_decide_false by done. by repeat sm_step. }
  rewrite bool_decide_true by done. cbn [guard_m]. do 4 sm_step.
  destruct (plugins (registry m) !! i) as [e|] eqn:Ee; [|by repeat sm_step]. cbn [or_throw].
  do 2 sm_step. destruct (enabled e) eqn:En; [|by repeat sm_step]. cbn [guard_m]. do 3 sm_step.
  eapply hoare_mono; [by apply set_state_spec|]. intros m1 r [-> [now ->]]. rewrite En.
  set (m1 := with_entry i _ m). do 3 sm_step. eapply hoare_mono; [apply load_package_same|].
  intros m2 [p|err] ->; [|left; eauto]. do 2 sm_step. eapply hoare_mono; [apply sandbox_same|].
  intros m2 loaded ->. cbv beta iota. destruct loaded as [[md mid]|err].
  - do 4 sm_step. eapply hoare_mono; [by apply set_state_spec, lookup_insert_eq|].
    intros m3 r [-> [now2 ->]]. right. right. exists md, mid, p, now2. split; [done|].
    unfold m1, with_entry. cbn. by rewrite insert_insert_eq.
  - unfold on_registry. do 4 sm_step. unfold set_error, update. unfold m1 at 1.
    cbn [with_entry registry set_registry plugins set_plugins]. rewrite lookup_insert_eq. repeat sm_step; [|done]. simplify_eq. right. left. exists err. split; [done|].
    unfold m1, with_entry. cbn. by rewrite insert_insert_eq.
Qed.

(** loading a plugin that runs, is unknown or is disabled fails and
    changes nothing; an enabled one then runs with its configuration and full
    fuel, or is marked with the error of the compiler, or, when its package
    cannot be read, stays Loading for good. *)
Theorem load_plugin_outcome i m :
  any (load_plugin i) m (load_result i m).
Proof. apply load_plugin_result. Qed.

Lemma load_runs i m : runs_enabled m -> any (load_plugin i) m (fun m' _ => runs_enabled m').
Proof.
  intros Hm. eapply hoare_mono; [apply load_plugin_result|]. unfold load_result. intros m' r Hr.
  destruct (running m !! i) eqn:Er; [by destruct Hr as [_ ->]|].
  destruct (plugins (registry m) !! i) as [e|] eqn:Ee; [|by destruct Hr as [_ ->]].
  destruct (enabled e); [|by destruct Hr as [_ ->]].
  assert (Hkeep : forall e', runs_enabled (with_entry i e' m)).
  { intros e' j Hj. simpl in *. destruct (Hm j Hj) as (f & Hf & Hen).
    rewrite lookup_insert_ne; [eauto|]. intros ->. rewrite Er in Hj. by destruct Hj. }
  destruct Hr as [(err & _ & ->)|[(err & _ & ->)|(md & mid & p & now & _ & ->)]]; [done..|].
  intros j. cbn. destruct (decide (i = j)) as [<-|Hne]; [rewrite !lookup_insert_eq; eauto|].
  rewrite !lookup_insert_ne by done. apply Hm.
Qed.

Lemma each_runs op ids m :
  (forall i m, runs_enabled m -> any (op i) m (fun m' _ => runs_enabled m')) ->
  runs_enabled m -> any (each op ids) m (fun m' _ => runs_enabled m').
Proof.
  intros Hop. revert m. induction ids as [|i ids IH]; intros m Hm; simpl; [by sm_step|]. do 2 sm_step.
  eapply hoare_mono; [by apply Hop|]. intros m' r Hm'. by apply IH.
Qed.

Lemma unload_all_runs m : runs_enabled m -> any unload_all m (fun m' _ => runs_enabled m').
Proof.
  intros Hm. unfold unload_all. do 2 sm_step. apply each_runs; [|done]. intros i m1 Hm1.
  eapply hoare_mono; [by apply unload_runs|]. by intros m' r [? _].
Qed.

Lemma then_save (c : SM PCall PluginManager PluginError unit) m :
  any c m (fun m' _ => runs_enabled m') -> any (_ ← c; save_state) m (fun m' _ => runs_enabled m').
Proof.
  intros Hc. sm_step. eapply hoare_mono; [exact Hc|]. intros m' [?|e] Hm'; [|done].
  eapply hoare_mono; [apply save_same|]. by intros m2 r ->.
Qed.

Lemma install_runs p m : runs_enabled m -> any (install p) m (fun m' _ => runs_enabled m').
Proof.
  intros Hm. unfold install, register_package. do 3 sm_step.
  eapply hoare_mono; [apply save_same|]. intros m' r ->.
  assert (Hr : runs_enabled (set_registry (register p (registry m)) m)).
  { intros i Hi. simpl in *. destruct (Hm i Hi) as (e & He & Hen).
    destruct (decide (entry_id (from_package p) = i)) as [<-|Hne].
    - rewrite lookup_insert_eq. by eexists.
    - rewrite lookup_insert_ne by done. eauto. }
  destruct r; [by sm_step|done].
Qed.

(** A plugin that does not run may leave the registry or be disabled. *)
Lemma unregister_runs i m :
  runs_enabled m -> running m !! i = None -> any (on_registry (unregister i)) m (fun m' _ => runs_enabled m').
Proof.
  intros Hm Hi. unfold on_registry, unregister. do 2 sm_step.
  destruct (plugins (registry m) !! i) as [e|]; repeat sm_step; try done. simplify_eq. intros j Hj. simpl in *.
  destruct (Hm j Hj) as (f & Hf & Hen). rewrite lookup_delete_ne; [eauto|]. intros ->. rewrite Hi in Hj. by destruct Hj.
Qed.

Lemma disable_runs i m :
  runs_enabled m -> running m !! i = None -> any (on_registry (disable i)) m (fun m' _ => runs_enabled m').
Proof. intros Hm Hi. apply on_update_runs; [|done]. intros e _ _. rewrite Hi. by intros [? ?]. Qed.

End Lifecycle.

(** ** Witnesses *)

#[local] Existing Instance toy_plugin_types.
#[local] Existing Instance toy_codecs.

Definition demo_package : PluginPackage := {|
  manifest := demo_manifest; path := "/p/com-example-test-one"; wasm_path := "/p/com-example-test-one/plugin.wasm";
  wasm_hash := "hash"; package_signature := None |}.

Definition toy_state_codec : StateCodec := {|
  parse_state := fun _ => Ok ∅; print_state := fun _ => Ok "{}"; show_error := fun _ => "error" |}.
#[local] Existing Instance toy_state_codec.

Definition demo_config : PluginConfig := {|
  data_dir := "/home/u/.omniedge"; max_memory := 1; max_time_ms := 100; c_require_signatures := false;
  c_trusted_signers := [] |}.

Lemma get_by_capability_exact_witness :
  let r := after [Register demo_package; Disable "com.example.Test_one"; Enable "com.example.Test_one"]
             (PluginRegistry_new "/s") in
  map entry_id (get_by_capability EventHooks r) = ["com.example.Test_one"] /\
  NoDup (map entry_id (get_by_capability EventHooks r)).
Proof.
  split; [vm_compute; reflexivity|].
  apply (get_by_capability_exact "/s"
    [Register demo_package; Disable "com.example.Test_one"; Enable "com.example.Test_one"]).
  split; [|done]. split; [vm_compute; reflexivity|]. simpl. apply NoDup_singleton.
Defined.

Lemma registered_again_listed_twice_witness :
  length (get_by_capability EventHooks (register demo_package (register demo_package (PluginRegistry_new "/s")))) = 2%nat.
Proof.
  destruct (registered_again_listed_twice demo_package (PluginRegistry_new "/s") EventHooks) as (-> & _).
  - left.
  - apply NoDup_singleton.
  - vm_compute. reflexivity.
Defined.

(** One plugin is registered and loaded. *)
Definition demo_manager : PluginManager :=
  (run_prog (logged loader_answer)
    ((_ ← register_package demo_package; load_plugin "com.example.Test_one") (PluginManager_new demo_config)) []).1.1.

