(* ===== verification/PluginHost.v ===== *)
(** * Host functions of plugins (omni-plugin/src/host/mod.rs)

    The state the host keeps for a plugin: its log, its store of values, its
    configuration and the hosts it may call.  The clock is an argument. *)

From Stdlib Require Import Ascii.
From S2P Require Import Prelude RustStr PluginLoader.

Open Scope string_scope.
Open Scope list_scope.
Open Scope Z_scope.

Inductive LogLevel : Set := Trace | Debug | Info | Warn | LogError.

Definition show_level (l : LogLevel) : string :=
  match l with
  | Trace => "TRACE" | Debug => "DEBUG" | Info => "INFO" | Warn => "WARN" | LogError => "ERROR"
  end.

Record LogEntry : Set := { timestamp : Z; level : LogLevel; message : string; log_plugin_id : string }.

Section Host.
Context `{PluginTypes} (as_str : Json -> option string).

Record HostState : Set := {
  plugin_id : string; host_config : gmap string Json; kv_store : gmap string (list Z);
  log_buffer : list LogEntry; http_allowlist : list string }.

Definition HostState_new (i : string) : HostState := {|
  plugin_id := i; host_config := ∅; kv_store := ∅; log_buffer := []; http_allowlist := [] |}.
Definition with_config (c : gmap string Json) (s : HostState) : HostState := {|
  plugin_id := plugin_id s; host_config := c; kv_store := kv_store s; log_buffer := log_buffer s;
  http_allowlist := http_allowlist s |}.
Definition with_http_allowlist (l : list string) (s : HostState) : HostState := {|
  plugin_id := plugin_id s; host_config := host_config s; kv_store := kv_store s; log_buffer := log_buffer s;
  http_allowlist := l |}.
Definition set_kv (m : gmap string (list Z)) (s : HostState) : HostState := {|
  plugin_id := plugin_id s; host_config := host_config s; kv_store := m; log_buffer := log_buffer s;
  http_allowlist := http_allowlist s |}.
Definition set_log (l : list LogEntry) (s : HostState) : HostState := {|
  plugin_id := plugin_id s; host_config := host_config s; kv_store := kv_store s; log_buffer := l;
  http_allowlist := http_allowlist s |}.

Definition host_log (now : Z) (l : LogLevel) (msg : string) (s : HostState) : HostState :=
  let buffer := push (log_buffer s)
    {| timestamp := now; level := l; message := msg; log_plugin_id := plugin_id s |} in
  set_log (if (1000 <? length buffer)%nat then tail buffer else buffer) s.

Definition host_config_get (key : string) (s : HostState) : option Json := host_config s !! key.
Definition host_config_get_string (key : string) (s : HostState) : option string :=
  host_config_get key s ≫= as_str.
Definition host_kv_set (key : string) (value : list Z) (s : HostState) : HostState :=
  set_kv (<[key := value]> (kv_store s)) s.
Definition host_kv_get (key : string) (s : HostState) : option (list Z) := kv_store s !! key.
Definition host_kv_delete (key : string) (s : HostState) : bool * HostState :=
  (bool_decide (is_Some (kv_store s !! key)), set_kv (delete key (kv_store s)) s).
Definition host_kv_clear (s : HostState) : HostState := set_kv ∅ s.

(** ** HTTP *)

(** [trim_start_matches] of a prefix that is not empty; the fuel is the length
    of the text. *)
Fixpoint trim_start (fuel : nat) (p s : string) : string :=
  match fuel with
  | O => s
  | S fuel => if starts_with s p then trim_start fuel p (drop_str (String.length p) s) else s
  end.
Definition trim_start_matches (p s : string) : string := trim_start (String.length s) p s.

Definition url_host (url : string) : string :=
  List.hd "" (split "/" (trim_start_matches "http://" (trim_start_matches "https://" url))).

Definition host_matches (host allowed : string) : bool :=
  if starts_with allowed "*." then ends_with host (drop_str 1 allowed)
  else bool_decide (host = allowed).

Definition host_http_is_allowed (url : string) (s : HostState) : bool :=
  if bool_decide (http_allowlist s = []) then false
  else existsb (host_matches (url_host url)) (http_allowlist s).

(** ** Theorems *)

Definition log_all (entries : list (Z * LogLevel * string)) (s : HostState) : HostState :=
  fold_left (fun s e => host_log e.1.1 e.1.2 e.2 s) entries s.

(** the log of a plugin holds its latest thousand messages, in order. *)
Theorem log_keeps_latest entries i :
  let log := map (fun e => {| timestamp := e.1.1; level := e.1.2; message := e.2; log_plugin_id := i |}) entries in
  log_buffer (log_all entries (HostState_new i)) = drop (length log - 1000) log.
Proof.
  cbv zeta. set (f := fun e : Z * LogLevel * string => _).
  assert (Hgen : plugin_id (log_all entries (HostState_new i)) = i /\
    log_buffer (log_all entries (HostState_new i)) = drop (length (map f entries) - 1000) (map f entries)).
  { unfold log_all. induction entries as [|e entries IH] using rev_ind; [done|].
    rewrite fold_left_app. cbn [fold_left]. destruct IH as [Hi Hl].
    set (s0 := fold_left _ _ _) in *. clearbody s0. split; [done|].
    unfold host_log, set_log. cbn [log_buffer]. rewrite Hl, Hi. unfold push. rewrite map_app, !length_app, length_drop, length_map. simpl.
    fold (f e). set (l := map f entries). assert (Hlen : length l = length entries) by (unfold l; by rewrite length_map).
    destruct (Nat.ltb_spec 1000 (length entries - (length entries - 1000) + 1)).
    - replace (length entries + 1 - 1000)%nat with (S (length entries - 1000)) by lia.
      rewrite drop_app_le by lia. assert (Hne : drop (length entries - 1000) l <> []).
      { intros E. apply (f_equal length) in E. rewrite length_drop in E. simpl in E. lia. }
      destruct (drop (length entries - 1000) l) as [|x l'] eqn:E; [done|]. simpl.
      change (S (length entries - 1000)) with (1 + (length entries - 1000))%nat.
      rewrite Nat.add_comm, <-drop_drop, E. done.
    - replace (length entries + 1 - 1000)%nat with 0%nat by lia.
      replace (length entries - 1000)%nat with 0%nat by lia. done. }
  apply Hgen.
Qed.

Lemma trim_none fuel p s : starts_with s p = false -> trim_start fuel p s = s.
Proof. destruct fuel; simpl; [done|]. by intros ->. Qed.

(** a wildcard in the list of hosts lets a plugin call every host: for
    any host, a URL with a query that ends in the allowed suffix passes. *)
Theorem wildcard_allows_any_host suffix host s :
  ("*" +:+ suffix) ∈ http_allowlist s -> starts_with suffix "." = true -> no_char "/" suffix ->
  no_char "/" host -> starts_with (host +:+ "?" +:+ suffix) "https://" = false ->
  starts_with (host +:+ "?" +:+ suffix) "http://" = false ->
  host_http_is_allowed ("https://" +:+ host +:+ "?" +:+ suffix) s = true.
Proof.
  intros Hin Hdot Hs Hh H1 H2. unfold host_http_is_allowed.
  rewrite bool_decide_false by (intros E; rewrite E in Hin; set_solver).
  assert (Hurl : url_host ("https://" +:+ host +:+ "?" +:+ suffix) = host +:+ "?" +:+ suffix).
  { unfold url_host, trim_start_matches.
    set (t := host +:+ "?" +:+ suffix) in *.
    assert (Ht : trim_start (String.length ("https://" +:+ t)) "https://" ("https://" +:+ t) = t).
    { change (String.length ("https://" +:+ t)) with (S (7 + String.length t)). cbn [trim_start].
      rewrite starts_with_app. change (drop_str (String.length "https://") ("https://" +:+ t)) with t.
      by apply trim_none. }
    rewrite Ht, trim_none by done. rewrite split_no_char; [done|].
    unfold t. apply no_char_app; [done|]. apply no_char_cons. by split. }
  rewrite Hurl. apply existsb_exists. exists ("*" +:+ suffix). split; [by apply list_elem_of_In|].
  unfold host_matches.
  assert (Hw : starts_with ("*" +:+ suffix) "*." = true).
  { apply starts_with_spec. apply starts_with_spec in Hdot as [t ->]. by exists t. }
  rewrite Hw. change (drop_str 1 ("*" +:+ suffix)) with suffix. apply ends_with_spec.
  exists (host +:+ "?"). by rewrite append_assoc.
Qed.
End Host.

Lemma wildcard_allows_any_host_witness :
  let H := toy_plugin_types in
  host_http_is_allowed "https://evil.net?.example.com"
    (with_http_allowlist ["*.example.com"] (HostState_new "com.example.x")) = true.
Proof.
  intros H.
  apply (wildcard_allows_any_host ".example.com" "evil.net"); [left | vm_compute; reflexivity ..].
Defined.
