(* ===== verification/FileSys.v ===== *)
(** * File-system effects

    The calls the SFTP server makes to [std::fs], [tokio::fs] and the
    environment, and a sample system for examples. *)

From S2P Require Import Prelude RustStr Paths.

Open Scope Z_scope.

Inductive IoError : Set := NotFound | PermissionDeniedIo | AlreadyExists | OtherIo.

#[global] Instance IoError_eq_dec : EqDecision IoError.
Proof. solve_decision. Defined.

Definition Fd : Set := Z.

(** [std::fs::Metadata]; the times are seconds from the epoch, when the
    platform gives them. *)
Record Metadata : Set := {
  md_len : Z; md_mode : Z; md_uid : Z; md_gid : Z;
  md_modified : option Z; md_accessed : option Z }.

Record DirEntry : Set := { de_name : string; de_path : string }.

Record OpenOptions : Set := {
  o_read : bool; o_write : bool; o_create : bool; o_truncate : bool;
  o_append : bool; o_create_new : bool }.

(** The access and creation modes the standard library accepts; it refuses the
    others with [EINVAL] before asking the system. *)
Definition open_valid (o : OpenOptions) : bool :=
  (o_read o || o_write o || o_append o) &&
  (if o_append o then negb (o_truncate o && negb (o_create_new o))
   else if o_write o then true
   else negb (o_truncate o || o_create o || o_create_new o)).

Inductive FsCall : Set -> Set :=
| CurrentDir : FsCall (result IoError string)
| Exists (p : string) : FsCall bool
| IsDir (p : string) : FsCall bool
| Canonicalize (p : string) : FsCall (result IoError string)
| MetadataOf (p : string) : FsCall (result IoError Metadata)
| SymlinkMetadata (p : string) : FsCall (result IoError Metadata)
| EntryMetadata (e : DirEntry) : FsCall (result IoError Metadata)
| OpenFile (o : OpenOptions) (p : string) : FsCall (result IoError Fd)
| Seek (fd : Fd) (offset : Z) : FsCall (result IoError unit)
| ReadFd (fd : Fd) (len : Z) : FsCall (result IoError (list Z))
| WriteAll (fd : Fd) (data : list Z) : FsCall (result IoError unit)
| CloseFd (fd : Fd) : FsCall unit
| SetPermissions (p : string) (mode : Z) : FsCall (result IoError unit)
| ReadDir (p : string) : FsCall (result IoError (list (result IoError DirEntry)))
| RemoveFile (p : string) : FsCall (result IoError unit)
| CreateDir (p : string) : FsCall (result IoError unit)
| RemoveDir (p : string) : FsCall (result IoError unit)
| Rename (old new : string) : FsCall (result IoError unit)
| ReadLink (p : string) : FsCall (result IoError string)
| Symlink (target link : string) : FsCall (result IoError unit).

(** Calls that can change the file system. *)
Definition mutating {R} (c : FsCall R) : bool :=
  match c with
  | OpenFile o _ => open_valid o &&
      (o_write o || o_append o || o_create o || o_truncate o || o_create_new o)
  | WriteAll _ _ | SetPermissions _ _ | RemoveFile _ | CreateDir _ | RemoveDir _
  | Rename _ _ | Symlink _ _ => true
  | _ => false
  end.

(** A concrete system for examples: [live] paths exist and are canonical,
    files can be opened, and the world counts the mutating calls. *)
Definition sample_metadata (len : Z) : Metadata := {|
  md_len := len; md_mode := 420; md_uid := 0; md_gid := 0; md_modified := None; md_accessed := None |}.

Definition sample_sys (live : string -> bool) (R : Set) (c : FsCall R) (w : nat) : R * nat :=
  let w' := if mutating c then S w else w in
  (match c in FsCall R return R with
   | CurrentDir => Ok "/"%string
   | Exists p => live p
   | IsDir p => live p
   | Canonicalize p => if live p then Ok p else Err NotFound
   | MetadataOf p => if live p then Ok (sample_metadata 0) else Err NotFound
   | SymlinkMetadata p => if live p then Ok (sample_metadata 0) else Err NotFound
   | EntryMetadata e => if live (de_path e) then Ok (sample_metadata 0) else Err NotFound
   | OpenFile o p => if open_valid o then Ok 3 else Err OtherIo
   | ReadFd _ len => Ok (repeat 0 (Z.to_nat len))
   | ReadDir p => Ok []
   | ReadLink p => Err NotFound
   | CloseFd _ => tt
   | Seek _ _ | WriteAll _ _ | SetPermissions _ _ | RemoveFile _ | CreateDir _
   | RemoveDir _ | Rename _ _ | Symlink _ _ => Ok tt
   end, w').

Lemma sample_sys_pure live (R : Set) (c : FsCall R) w : mutating c = false -> (sample_sys live R c w).2 = w.
Proof. intros H. unfold sample_sys. simpl. by rewrite H. Qed.
