(* ===== verification/Sftp.v ===== *)
(** * SFTP server (omni-ssh/src/sftp/mod.rs)

    One handler per SFTP session: the configuration, a counter of handle names
    and the maps of open files and directories.  Each request is a program
    over the file system that may fail and changes the handler. *)

From Stdlib Require Import Ascii.
From S2P Require Import Prelude RustStr SshTypes Paths Effects FileSys.

Open Scope string_scope.
Open Scope list_scope.
Open Scope Z_scope.

Record SftpServerConfig : Type := {
  root_dir : option string; allow_read : bool; allow_write : bool;
  max_file_size : option Z; cfg_allowed_paths : option (list string) }.

Definition SftpServerConfig_default : SftpServerConfig := {|
  root_dir := None; allow_read := true; allow_write := true;
  max_file_size := None; cfg_allowed_paths := None |}.

Definition SftpServerConfig_read_only (root : option string) : SftpServerConfig := {|
  root_dir := root; allow_read := true; allow_write := false;
  max_file_size := None; cfg_allowed_paths := None |}.

Definition from_action (act : SshAction) : SftpServerConfig := {|
  root_dir := None; allow_read := true; allow_write := negb (read_only act);
  max_file_size := None; cfg_allowed_paths := allowed_paths act |}.

Inductive SftpError : Type :=
| PermissionDenied (s : string)
| NoSuchFile (s : string)
| FileExists (s : string)
| NotDirectory (s : string)
| IsDirectory (s : string)
| InvalidHandle (s : string)
| NotSupported
| Io (e : IoError)
| PathEscape
| ReadOnly
| FileTooLarge
| Eof.

(** The codes of the protocol (russh_sftp). *)
Inductive StatusCode : Type :=
| SC_Ok | SC_Eof | SC_NoSuchFile | SC_PermissionDenied | SC_Failure | SC_OpUnsupported.

Definition status_code (err : SftpError) : StatusCode :=
  match err with
  | PermissionDenied _ => SC_PermissionDenied
  | NoSuchFile _ => SC_NoSuchFile
  | FileExists _ | NotDirectory _ | IsDirectory _ | InvalidHandle _ => SC_Failure
  | NotSupported => SC_OpUnsupported
  | Io NotFound => SC_NoSuchFile
  | Io PermissionDeniedIo => SC_PermissionDenied
  | Io AlreadyExists | Io OtherIo => SC_Failure
  | PathEscape | ReadOnly => SC_PermissionDenied
  | FileTooLarge => SC_Failure
  | Eof => SC_Eof
  end.

Record FileHandle : Type := { fh_file : Fd; fh_path : string; write_mode : bool }.
Record DirHandle : Type := {
  dh_path : string; entries : list DirEntry; position : nat; read_complete : bool }.

Record SftpHandler : Type := {
  config : SftpServerConfig;
  next_handle : Z;
  file_handles : gmap string FileHandle;
  dir_handles : gmap string DirHandle;
  conn_id : string;
  username : string }.

Definition new (c : SftpServerConfig) (conn user : string) : SftpHandler := {|
  config := c; next_handle := 1; file_handles := ∅; dir_handles := ∅;
  conn_id := conn; username := user |}.

Definition set_files (s : SftpHandler) m : SftpHandler := {|
  config := config s; next_handle := next_handle s; file_handles := m;
  dir_handles := dir_handles s; conn_id := conn_id s; username := username s |}.
Definition set_dirs (s : SftpHandler) m : SftpHandler := {|
  config := config s; next_handle := next_handle s; file_handles := file_handles s;
  dir_handles := m; conn_id := conn_id s; username := username s |}.

Definition bump_handle (s : SftpHandler) : SftpHandler := {|
  config := config s; next_handle := wrap_add u64_max (next_handle s) 1;
  file_handles := file_handles s; dir_handles := dir_handles s;
  conn_id := conn_id s; username := username s |}.

(** ** The handler monad: state, errors and file-system calls *)

Abbreviation M := (SM FsCall SftpHandler SftpError) (only parsing).

(** The [?] operator on an [io::Result]. *)
Definition io {A} (r : result IoError A) : M A :=
  match r with Ok a => mret a | Err e => throw (Io e) end.

(** ** Paths *)

Definition pattern_allows (path_str p : string) : bool :=
  if ends_with p "/*" then starts_with path_str (take_str (String.length p - 2) p)
  else if ends_with p "/**" then starts_with path_str (take_str (String.length p - 3) p)
  else bool_decide (path_str = p) || starts_with path_str (p +:+ "/").

(** Joining the client's path with the root, or with the current directory. *)
Definition locate (path : string) : M string :=
  root ← gets (fun s => root_dir (config s));
  match root with
  | Some root => mret (if is_absolute path then path_join root (strip_root path)
                       else path_join root path)
  | None =>
      if is_absolute path then mret path
      else cwd ← call CurrentDir;
           mret (path_join (match cwd with Ok d => d | Err _ => "." end) path)
  end.

(** The canonical path, or for a new file the canonical parent and the name. *)
Definition canonical_path (resolved : string) : M string :=
  ex ← call (Exists resolved);
  if (ex : bool) then r ← call (Canonicalize resolved); io r
  else match path_parent resolved with
       | Some parent =>
           pex ← call (Exists parent);
           if (pex : bool) then
             r ← call (Canonicalize parent);
             canonical_parent ← io r;
             mret (path_join canonical_parent (from_option id "" (file_name resolved)))
           else mret resolved
       | None => mret resolved
       end.

Definition check_root (canonical : string) : M unit :=
  root ← gets (fun s => root_dir (config s));
  match root with
  | Some root =>
      r ← call (Canonicalize root);
      let canonical_root := match r with Ok c => c | Err _ => root end in
      guard_m (path_starts_with canonical canonical_root) PathEscape
  | None => mret tt
  end.

Definition check_allowed (canonical : string) : M unit :=
  allowed ← gets (fun s => cfg_allowed_paths (config s));
  match allowed with
  | Some ps => guard_m (existsb (pattern_allows canonical) ps)
                       (PermissionDenied ("Path not allowed: " +:+ canonical))
  | None => mret tt
  end.

Definition resolve_path (path_str : string) : M string :=
  resolved ← locate path_str;
  canonical ← canonical_path resolved;
  _ ← check_root canonical;
  _ ← check_allowed canonical;
  mret canonical.

Definition check_write : M unit :=
  w ← gets (fun s => allow_write (config s)); guard_m w ReadOnly.
Definition check_read : M unit :=
  r ← gets (fun s => allow_read (config s));
  guard_m r (PermissionDenied "Read operations not allowed").

(** ** Attributes and replies *)

(** [FileAttributes] (russh_sftp). *)
Record FileAttributes : Type := {
  fa_size : option Z; fa_uid : option Z; fa_gid : option Z; fa_permissions : option Z;
  fa_atime : option Z; fa_mtime : option Z }.

Record OpenFlags : Type := {
  READ : bool; WRITE : bool; APPEND : bool; CREATE : bool; TRUNCATE : bool; EXCLUDE : bool }.

Inductive Response : Type :=
| RVersion
| RHandle (id : Z) (handle : string)
| RStatus (id : Z) (code : StatusCode)
| RData (id : Z) (data : list Z)
| RAttrs (id : Z) (attrs : FileAttributes)
| RName (id : Z) (files : list (string * FileAttributes)).

Definition status_ok (id : Z) : Response := RStatus id SC_Ok.

(** [FileAttributes::default()] is russh_sftp's. *)
Class SftpProtocol : Type := { FileAttributes_default : FileAttributes }.

Section Handler.
Context `{SftpProtocol}.

(** Seconds since the epoch as a [u32], kept when the time is not before it. *)
Definition epoch_secs (old : option Z) (t : option Z) : option Z :=
  match t with
  | Some secs => if 0 <=? secs then Some (secs `mod` (u32_max + 1)) else old
  | None => old
  end.

Definition metadata_to_attrs (m : Metadata) : FileAttributes := {|
  fa_size := Some (md_len m); fa_uid := Some (md_uid m); fa_gid := Some (md_gid m);
  fa_permissions := Some (md_mode m);
  fa_atime := epoch_secs (fa_atime FileAttributes_default) (md_accessed m);
  fa_mtime := epoch_secs (fa_mtime FileAttributes_default) (md_modified m) |}.

Definition handle_name (n : Z) : string := "h" +:+ show_uint n.

Definition next_handle_id : M string :=
  id ← gets next_handle;
  _ ← modify bump_handle;
  mret (handle_name id).

(** ** Requests *)

Definition is_write_open (f : OpenFlags) : bool := WRITE f || CREATE f || TRUNCATE f || APPEND f.

Definition open_options (f : OpenFlags) : OpenOptions := {|
  o_read := READ f; o_write := WRITE f; o_create := CREATE f; o_truncate := TRUNCATE f;
  o_append := APPEND f; o_create_new := EXCLUDE f |}.

Definition open (id : Z) (filename : string) (pflags : OpenFlags) : M Response :=
  path ← resolve_path filename;
  let is_write := is_write_open pflags in
  _ ← (if is_write then check_write else mret tt);
  _ ← (if READ pflags then check_read else mret tt);
  max ← gets (fun s => max_file_size (config s));
  _ ← match (if is_write then max else None) with
      | Some max_size =>
          ex ← call (Exists path);
          if (ex : bool) then
            r ← call (MetadataOf path);
            metadata ← io r;
            guard_m (negb (max_size <? md_len metadata)) FileTooLarge
          else mret tt
      | None => mret tt
      end;
  r ← call (OpenFile (open_options pflags) path);
  file ← io r;
  handle_id ← next_handle_id;
  _ ← modify (fun s => set_files s (<[handle_id := {|
        fh_file := file; fh_path := path; write_mode := is_write |}]> (file_handles s)));
  mret (RHandle id handle_id).

Definition close (id : Z) (handle : string) : M Response :=
  fh ← gets (fun s => file_handles s !! handle);
  match fh with
  | Some fh =>
      _ ← modify (fun s => set_files s (delete handle (file_handles s)));
      _ ← call (CloseFd (fh_file fh));
      mret (status_ok id)
  | None =>
      dh ← gets (fun s => dir_handles s !! handle);
      match dh with
      | Some _ =>
          _ ← modify (fun s => set_dirs s (delete handle (dir_handles s)));
          mret (status_ok id)
      | None => throw (InvalidHandle handle)
      end
  end.

Definition read (id : Z) (handle : string) (offset len : Z) : M Response :=
  _ ← check_read;
  fh ← gets (fun s => file_handles s !! handle);
  fh ← or_throw (InvalidHandle handle) fh;
  r ← call (Seek (fh_file fh) offset);
  _ ← io r;
  r ← call (ReadFd (fh_file fh) len);
  data ← io r;
  if (length data =? 0)%nat then throw Eof else mret (RData id data).

Definition write (id : Z) (handle : string) (offset : Z) (data : list Z) : M Response :=
  _ ← check_write;
  fh ← gets (fun s => file_handles s !! handle);
  fh ← or_throw (InvalidHandle handle) fh;
  _ ← guard_m (write_mode fh) (PermissionDenied "File not opened for writing");
  max ← gets (fun s => max_file_size (config s));
  _ ← match max with
      | Some max_size =>
          let new_size := wrap_add u64_max offset (Z.of_nat (length data)) in
          guard_m (negb (max_size <? new_size)) FileTooLarge
      | None => mret tt
      end;
  r ← call (Seek (fh_file fh) offset);
  _ ← io r;
  r ← call (WriteAll (fh_file fh) data);
  _ ← io r;
  mret (status_ok id).

Definition lstat (id : Z) (path : string) : M Response :=
  _ ← check_read;
  resolved ← resolve_path path;
  r ← call (SymlinkMetadata resolved);
  metadata ← io r;
  mret (RAttrs id (metadata_to_attrs metadata)).

Definition fstat (id : Z) (handle : string) : M Response :=
  _ ← check_read;
  fh ← gets (fun s => file_handles s !! handle);
  fh ← or_throw (InvalidHandle handle) fh;
  r ← call (MetadataOf (fh_path fh));
  metadata ← io r;
  mret (RAttrs id (metadata_to_attrs metadata)).

(** Applying the permission bits of a request, when it carries some. *)
Definition set_perms (path : string) (attrs : FileAttributes) : M unit :=
  match fa_permissions attrs with
  | Some perm => r ← call (SetPermissions path perm); _ ← io r; mret tt
  | None => mret tt
  end.

Definition setstat (id : Z) (path : string) (attrs : FileAttributes) : M Response :=
  _ ← check_write;
  resolved ← resolve_path path;
  _ ← set_perms resolved attrs;
  mret (status_ok id).

Definition fsetstat (id : Z) (handle : string) (attrs : FileAttributes) : M Response :=
  _ ← check_write;
  fh ← gets (fun s => file_handles s !! handle);
  fh ← or_throw (InvalidHandle handle) fh;
  _ ← set_perms (fh_path fh) attrs;
  mret (status_ok id).

Definition opendir (id : Z) (path : string) : M Response :=
  _ ← check_read;
  resolved ← resolve_path path;
  d ← call (IsDir resolved);
  _ ← guard_m d (NotDirectory path);
  r ← call (ReadDir resolved);
  es ← io r;
  handle_id ← next_handle_id;
  _ ← modify (fun s => set_dirs s (<[handle_id := {|
        dh_path := resolved; entries := omap ok es; position := 0;
        read_complete := false |}]> (dir_handles s)));
  mret (RHandle id handle_id).

Definition BATCH_SIZE : nat := 100.

(** An entry's attributes, when its metadata can be read. *)
Definition push_file (files : list (string * FileAttributes)) (name : string)
    (r : result IoError Metadata) : list (string * FileAttributes) :=
  match r with Ok m => push files (name, metadata_to_attrs m) | Err _ => files end.

(** The loop of [readdir] over the entries not read yet. *)
Fixpoint read_entries (es : list DirEntry) (pos : nat) (files : list (string * FileAttributes))
    : M (nat * list (string * FileAttributes)) :=
  match es with
  | [] => mret (pos, files)
  | e :: es =>
      if (length files <? BATCH_SIZE)%nat then
        r ← call (EntryMetadata e);
        read_entries es (S pos) (push_file files (de_name e) r)
      else mret (pos, files)
  end.

Definition dot_files (dh : DirHandle) : M (list (string * FileAttributes)) :=
  if (position dh =? 0)%nat then
    r ← call (MetadataOf (dh_path dh));
    let files := push_file [] "." r in
    match path_parent (dh_path dh) with
    | Some parent => r ← call (MetadataOf parent); mret (push_file files ".." r)
    | None => mret files
    end
  else mret [].

Definition readdir (id : Z) (handle : string) : M Response :=
  _ ← check_read;
  dh ← gets (fun s => dir_handles s !! handle);
  dh ← or_throw (InvalidHandle handle) dh;
  _ ← guard_m (negb (read_complete dh)) Eof;
  files ← dot_files dh;
  '(pos, files) ← read_entries (drop (position dh) (entries dh)) (position dh) files;
  _ ← modify (fun s => set_dirs s (<[handle := {|
        dh_path := dh_path dh; entries := entries dh; position := pos;
        read_complete := (length (entries dh) <=? pos)%nat |}]> (dir_handles s)));
  if (length files =? 0)%nat then throw Eof else mret (RName id files).

Definition remove (id : Z) (filename : string) : M Response :=
  _ ← check_write;
  path ← resolve_path filename;
  d ← call (IsDir path);
  _ ← guard_m (negb d) (IsDirectory filename);
  r ← call (RemoveFile path);
  _ ← io r;
  mret (status_ok id).

Definition mkdir (id : Z) (path : string) (attrs : FileAttributes) : M Response :=
  _ ← check_write;
  resolved ← resolve_path path;
  r ← call (CreateDir resolved);
  _ ← io r;
  _ ← set_perms resolved attrs;
  mret (status_ok id).

Definition rmdir (id : Z) (path : string) : M Response :=
  _ ← check_write;
  resolved ← resolve_path path;
  d ← call (IsDir resolved);
  _ ← guard_m d (NotDirectory path);
  r ← call (RemoveDir resolved);
  _ ← io r;
  mret (status_ok id).

(** The path as the client sees it. *)
Definition display_path (root : option string) (canonical : string) : string :=
  match root with
  | Some root =>
      if starts_with canonical root then
        let relative := drop_str (String.length root) canonical in
        if bool_decide (relative = "") then "/"
        else if starts_with relative "/" || starts_with relative "\" then relative
        else "/" +:+ relative
      else canonical
  | None => canonical
  end.

Definition realpath (id : Z) (path : string) : M Response :=
  resolved ← resolve_path path;
  root ← gets (fun s => root_dir (config s));
  ex ← call (Exists resolved);
  attrs ← (if (ex : bool) then
             r ← call (MetadataOf resolved);
             metadata ← io r;
             mret (metadata_to_attrs metadata)
           else mret FileAttributes_default);
  mret (RName id [(display_path root resolved, attrs)]).

Definition stat (id : Z) (path : string) : M Response :=
  _ ← check_read;
  resolved ← resolve_path path;
  r ← call (MetadataOf resolved);
  metadata ← io r;
  mret (RAttrs id (metadata_to_attrs metadata)).

Definition rename (id : Z) (oldpath newpath : string) : M Response :=
  _ ← check_write;
  old_resolved ← resolve_path oldpath;
  new_resolved ← resolve_path newpath;
  r ← call (Rename old_resolved new_resolved);
  _ ← io r;
  mret (status_ok id).

Definition readlink (id : Z) (path : string) : M Response :=
  _ ← check_read;
  resolved ← resolve_path path;
  r ← call (ReadLink resolved);
  target ← io r;
  mret (RName id [(target, FileAttributes_default)]).

Definition symlink (id : Z) (linkpath targetpath : string) : M Response :=
  _ ← check_write;
  link_resolved ← resolve_path linkpath;
  r ← call (Symlink targetpath link_resolved);
  _ ← io r;
  mret (status_ok id).

Definition extended (id : Z) (request : string) : M Response := throw NotSupported.

Inductive Request : Type :=
| ReqInit
| ReqOpen (id : Z) (filename : string) (pflags : OpenFlags)
| ReqClose (id : Z) (handle : string)
| ReqRead (id : Z) (handle : string) (offset len : Z)
| ReqWrite (id : Z) (handle : string) (offset : Z) (data : list Z)
| ReqLstat (id : Z) (path : string)
| ReqFstat (id : Z) (handle : string)
| ReqSetstat (id : Z) (path : string) (attrs : FileAttributes)
| ReqFsetstat (id : Z) (handle : string) (attrs : FileAttributes)
| ReqOpendir (id : Z) (path : string)
| ReqReaddir (id : Z) (handle : string)
| ReqRemove (id : Z) (filename : string)
| ReqMkdir (id : Z) (path : string) (attrs : FileAttributes)
| ReqRmdir (id : Z) (path : string)
| ReqRealpath (id : Z) (path : string)
| ReqStat (id : Z) (path : string)
| ReqRename (id : Z) (oldpath newpath : string)
| ReqReadlink (id : Z) (path : string)
| ReqSymlink (id : Z) (linkpath targetpath : string)
| ReqExtended (id : Z) (request : string).

(** The handler trait: one method per request. *)
Definition handle (q : Request) : M Response :=
  match q with
  | ReqInit => mret RVersion
  | ReqOpen id f fl => open id f fl
  | ReqClose id h => close id h
  | ReqRead id h o l => read id h o l
  | ReqWrite id h o d => write id h o d
  | ReqLstat id p => lstat id p
  | ReqFstat id h => fstat id h
  | ReqSetstat id p a => setstat id p a
  | ReqFsetstat id h a => fsetstat id h a
  | ReqOpendir id p => opendir id p
  | ReqReaddir id h => readdir id h
  | ReqRemove id f => remove id f
  | ReqMkdir id p a => mkdir id p a
  | ReqRmdir id p => rmdir id p
  | ReqRealpath id p => realpath id p
  | ReqStat id p => stat id p
  | ReqRename id o n => rename id o n
  | ReqReadlink id p => readlink id p
  | ReqSymlink id l t => symlink id l t
  | ReqExtended id r => extended id r
  end.

(** A session: requests one after the other, each answered. *)
Fixpoint session (qs : list Request) (s : SftpHandler)
      : prog FsCall (SftpHandler * list (result SftpError Response)) :=
  match qs with
  | [] => Ret (s, [])
  | q :: qs =>
      prog_bind (handle q s) (fun '(s, r) =>
      prog_bind (session qs s) (fun '(s, rs) => Ret (s, r :: rs)))
  end.
End Handler.

(** ** Rules for the handler monad *)

Lemma hoare_io P L {A} (r : result IoError A) (s : SftpHandler) Q :
  (forall a, r = Ok a -> Q s (Ok a)) -> (forall e, r = Err e -> Q s (Err (Io e))) ->
  hoare P L (io r) s Q.
Proof. intros H1 H2. destruct r; [by apply H1 | by apply H2]. Qed.

(** One step of a handler proof; it stops at calls to named procedures. *)
Ltac h_step :=
  first [ sm_step | apply hoare_io; intros ? ? ]; cbv beta iota zeta.

(** ** Path resolution *)

(** What the standard library documents of a canonical path: absolute, and
    made of plain names. *)
Definition is_canonical (q : string) : Prop :=
  is_absolute q = true /\ exists names, components q = RootDir :: map Normal names.

Lemma canonical_join q n :
  is_canonical q -> plain_name n -> is_canonical (path_join q n).
Proof.
  intros (Habs & names & Hc) Hn. split.
  - unfold path_join, is_absolute in *. rewrite (plain_name_relative n Hn : starts_with n "/" = false).
    apply starts_with_spec in Habs as [t ->].
    case_match; rewrite append_assoc; apply starts_with_app.
  - exists (names ++ [n]). rewrite components_join_plain, Hc by done. by rewrite map_app.
Qed.

(** A path the configuration lets the session touch, [croot] being the
    canonical form of the root. *)
Definition permitted (c : SftpServerConfig) (croot p : string) : Prop :=
  (forall root, root_dir c = Some root ->
     path_starts_with p croot = true \/ path_starts_with p root = true) /\
  (forall ps, cfg_allowed_paths c = Some ps -> existsb (pattern_allows p) ps = true).

(** The replies: canonical paths are canonical, and the root has one. *)
Definition fs_law (c : SftpServerConfig) (croot : string) : forall R : Set, FsCall R -> R -> Prop :=
  fun R call => match call in FsCall R return R -> Prop with
  | Canonicalize p => fun r => forall q, r = Ok q ->
      is_canonical q /\ (root_dir c = Some p -> q = croot)
  | _ => fun _ => True
  end.

(** Calls that only look at the file system. *)
Definition probes (P : forall R : Set, FsCall R -> Prop) : Prop :=
  P _ CurrentDir /\ (forall p, P _ (Exists p)) /\ (forall p, P _ (Canonicalize p)).

Section Resolve.
Context (P : forall R : Set, FsCall R -> Prop) (L : forall R : Set, FsCall R -> R -> Prop).
Context (HP : probes P).

Lemma hoare_locate s path (Q : SftpHandler -> result SftpError string -> Prop) :
  (forall r, Q s (Ok r)) -> hoare P L (locate path) s Q.
Proof.
  destruct HP as (Hc & _ & _). intros HQ. unfold locate. repeat h_step; try apply HQ. done.
Qed.

Lemma hoare_canonical_path s p (Q : SftpHandler -> result SftpError string -> Prop) :
  (forall q, L _ (Canonicalize p) (Ok q) -> Q s (Ok q)) ->
  (forall parent q, path_parent p = Some parent -> L _ (Exists parent) true ->
     L _ (Canonicalize parent) (Ok q) ->
     Q s (Ok (path_join q (from_option id "" (file_name p))))) ->
  ((forall parent, path_parent p = Some parent -> L _ (Exists parent) false) ->
     L _ (Exists p) false -> Q s (Ok p)) ->
  (forall e, Q s (Err e)) ->
  hoare P L (canonical_path p) s Q.
Proof.
  destruct HP as (_ & He & Hc). intros H1 H2 H3 H4. unfold canonical_path.
  repeat (h_step; try done); simplify_eq; eauto.
  all: apply H3; [|done]; intros parent Hp; congruence.
Qed.
End Resolve.

(** A path that resolves is permitted, and resolving changes nothing else. *)
Section ResolvePath.
Context (P : forall R : Set, FsCall R -> Prop) (HP : probes P).
Implicit Types L : forall R : Set, FsCall R -> R -> Prop.

Lemma hoare_check_root L s p (Q : SftpHandler -> result SftpError unit -> Prop) :
  (forall e, Q s (Err e)) ->
  (forall base, (forall root, root_dir (config s) = Some root ->
     ((base = root /\ exists e, L _ (Canonicalize root) (Err e)) \/ L _ (Canonicalize root) (Ok base)) /\
     path_starts_with p base = true) ->
     Q s (Ok tt)) ->
  hoare P L (check_root p) s Q.
Proof.
  destruct HP as (_ & _ & Hc). intros He Hq. unfold check_root. repeat (h_step; try done).
  - apply (Hq match r with Ok c => c | Err _ => x end). intros root Hr.
    split; [|done]. assert (x = root) as -> by congruence. destruct r; eauto.
  - apply (Hq ""). congruence.
Qed.

Lemma hoare_check_allowed L s p (Q : SftpHandler -> result SftpError unit -> Prop) :
  (forall e, Q s (Err e)) ->
  ((forall ps, cfg_allowed_paths (config s) = Some ps -> existsb (pattern_allows p) ps = true) ->
   Q s (Ok tt)) ->
  hoare P L (check_allowed p) s Q.
Proof.
  intros He Hq. unfold check_allowed. repeat (h_step; try done); try apply Hq; congruence.
Qed.

Lemma hoare_resolve_any L s path (Q : SftpHandler -> result SftpError string -> Prop) :
  (forall r, Q s r) -> hoare P L (resolve_path path) s Q.
Proof.
  intros HQ. unfold resolve_path. h_step. apply hoare_locate; [done|]. intros resolved.
  h_step. apply hoare_canonical_path; [done|..]; intros; try apply HQ;
    (h_step; apply hoare_check_root; [done|..]; intros; try apply HQ;
     h_step; apply hoare_check_allowed; intros; apply HQ).
Qed.

Lemma hoare_resolve c croot s path (Q : SftpHandler -> result SftpError string -> Prop) :
  config s = c -> (forall e, Q s (Err e)) -> (forall p, permitted c croot p -> Q s (Ok p)) ->
  hoare P (fs_law c croot) (resolve_path path) s Q.
Proof.
  intros <- He HQ. unfold resolve_path. h_step. apply hoare_locate; [done|]. intros resolved.
  h_step. apply hoare_canonical_path; [done|..]; intros; try apply He;
    (h_step; apply hoare_check_root; [intros; apply He|]; intros base Hb;
     h_step; apply hoare_check_allowed; [intros; apply He|]; intros Ha;
     h_step; apply HQ; split; [|done]; intros root Hr;
     destruct (Hb root Hr) as [[[-> _]|Hc] Hs]; [by right|];
     left; destruct (Hc base eq_refl) as [_ Hx]; by rewrite <- (Hx Hr)).
Qed.
End ResolvePath.

(** ** Rules for the procedures the requests share *)

Section Procedures.
Context `{SftpProtocol}.
Context (P : forall R : Set, FsCall R -> Prop) (L : forall R : Set, FsCall R -> R -> Prop).

Lemma hoare_check_write s (Q : SftpHandler -> result SftpError unit -> Prop) :
  (allow_write (config s) = true -> Q s (Ok tt)) -> Q s (Err ReadOnly) ->
  hoare P L check_write s Q.
Proof. intros Hok He. unfold check_write. repeat h_step; auto. Qed.

Lemma hoare_check_read s (Q : SftpHandler -> result SftpError unit -> Prop) :
  (forall r, Q s r) -> hoare P L check_read s Q.
Proof. intros HQ. unfold check_read. repeat h_step; auto. Qed.

Lemma hoare_next_handle s (Q : SftpHandler -> result SftpError string -> Prop) :
  Q (bump_handle s) (Ok (handle_name (next_handle s))) -> hoare P L next_handle_id s Q.
Proof. done. Qed.

Lemma hoare_set_perms s p attrs (Q : SftpHandler -> result SftpError unit -> Prop) :
  (forall mode, P _ (SetPermissions p mode)) -> (forall r, Q s r) ->
  hoare P L (set_perms p attrs) s Q.
Proof. intros Hp HQ. unfold set_perms. repeat (h_step; auto). Qed.

Lemma hoare_read_entries es pos files s
    (Q : SftpHandler -> result SftpError (nat * list (string * FileAttributes)) -> Prop) :
  (forall e, P _ (EntryMetadata e)) -> (forall pos' files', Q s (Ok (pos', files'))) ->
  hoare P L (read_entries es pos files) s Q.
Proof.
  intros Hp HQ. revert pos files. induction es as [|e es IH]; intros pos files; simpl.
  - h_step. apply HQ.
  - repeat (h_step; auto).
Qed.

Lemma hoare_dot_files dh s (Q : SftpHandler -> result SftpError (list (string * FileAttributes)) -> Prop) :
  P _ (MetadataOf (dh_path dh)) ->
  (forall parent, path_parent (dh_path dh) = Some parent -> P _ (MetadataOf parent)) ->
  (forall files, Q s (Ok files)) -> hoare P L (dot_files dh) s Q.
Proof. intros Hd Hp HQ. unfold dot_files. repeat (h_step; auto). Qed.
End Procedures.

(** One step through a call of such a procedure; path resolution is left to
    the tactic [resolve]. *)
Ltac h_proc resolve :=
  match goal with
  | |- hoare _ _ check_write _ _ => apply hoare_check_write; [intros ?|]
  | |- hoare _ _ check_read _ _ => apply hoare_check_read; intros [?|?]
  | |- hoare _ _ next_handle_id _ _ => apply hoare_next_handle
  | |- hoare _ _ (set_perms _ _) _ _ => apply hoare_set_perms; [intros ?|intros [?|?]]
  | |- hoare _ _ (read_entries _ _ _) _ _ => apply hoare_read_entries; [intros ?|intros ? ?]
  | |- hoare _ _ (dot_files _) _ _ => apply hoare_dot_files; [|intros ? ?|intros ?]
  | |- hoare _ _ (resolve_path _) _ _ => resolve
  end; cbv beta iota zeta.

Ltac unfold_request :=
  unfold handle, open, close, read, write, lstat, fstat, setstat, fsetstat, opendir, readdir,
    remove, mkdir, rmdir, realpath, stat, rename, readlink, symlink, extended.

(** Sessions keep what each request keeps. *)
Lemma session_inv `{SftpProtocol} (P : forall R : Set, FsCall R -> Prop)
    (L : forall R : Set, FsCall R -> R -> Prop) (I : SftpHandler -> Prop) :
  (forall q s, I s -> hoare P L (handle q) s (fun s' _ => I s')) ->
  forall qs s, I s -> wp P L (session qs s) (fun sr => I sr.1).
Proof.
  intros Hq. induction qs as [|q qs IH]; intros s Hs; simpl; [done|].
  apply wp_bind. eapply wp_mono; [|exact (Hq q s Hs)]. intros [s' r]. simpl. intros Hs'.
  apply wp_bind. eapply wp_mono; [|exact (IH s' Hs')]. by intros [s'' rs].
Qed.

(** ** Containment *)

(** What a call may name: permitted paths, and for the attributes of [..] the
    directory above one. *)
Definition contained (c : SftpServerConfig) (croot : string) : forall R : Set, FsCall R -> Prop :=
  fun R call => match call with
  | IsDir p | SymlinkMetadata p | OpenFile _ p | SetPermissions p _ | ReadDir p | RemoveFile p
  | CreateDir p | RemoveDir p | ReadLink p | Symlink _ p => permitted c croot p
  | Rename old new => permitted c croot old /\ permitted c croot new
  | MetadataOf p => permitted c croot p \/
      exists dir, permitted c croot dir /\ path_parent dir = Some p
  | _ => True
  end.

Definition handles_permitted (c : SftpServerConfig) (croot : string) (s : SftpHandler) : Prop :=
  config s = c /\
  map_Forall (fun _ fh => permitted c croot (fh_path fh)) (file_handles s) /\
  map_Forall (fun _ dh => permitted c croot (dh_path dh)) (dir_handles s).

Lemma contained_probes c croot : probes (contained c croot).
Proof. done. Qed.

Section HandlesPermitted.
Context (c : SftpServerConfig) (croot : string) (s : SftpHandler) (Hs : handles_permitted c croot s).

Lemma permitted_bump : handles_permitted c croot (bump_handle s).
Proof. exact Hs. Qed.
Lemma permitted_file h fh : file_handles s !! h = Some fh -> permitted c croot (fh_path fh).
Proof. destruct Hs as (_ & Hf & _). apply Hf. Qed.
Lemma permitted_dir h dh : dir_handles s !! h = Some dh -> permitted c croot (dh_path dh).
Proof. destruct Hs as (_ & _ & Hd). apply Hd. Qed.
Lemma permitted_insert_file h fh :
  permitted c croot (fh_path fh) -> handles_permitted c croot (set_files s (<[h := fh]> (file_handles s))).
Proof. intros Hp. destruct Hs as (? & ? & ?). split; [done|split; [|done]]. by apply map_Forall_insert_2. Qed.
Lemma permitted_insert_dir h dh :
  permitted c croot (dh_path dh) -> handles_permitted c croot (set_dirs s (<[h := dh]> (dir_handles s))).
Proof. intros Hp. destruct Hs as (? & ? & ?). split; [done|split; [done|]]. by apply map_Forall_insert_2. Qed.
Lemma permitted_delete_file h : handles_permitted c croot (set_files s (delete h (file_handles s))).
Proof. destruct Hs as (? & ? & ?). split; [done|split; [|done]]. by apply map_Forall_delete. Qed.
Lemma permitted_delete_dir h : handles_permitted c croot (set_dirs s (delete h (dir_handles s))).
Proof. destruct Hs as (? & ? & ?). split; [done|split; [done|]]. by apply map_Forall_delete. Qed.
End HandlesPermitted.

#[export] Hint Resolve permitted_bump permitted_file permitted_dir permitted_insert_file
  permitted_insert_dir permitted_delete_file permitted_delete_dir : omni.

Lemma handle_contained `{SftpProtocol} c croot q s :
  handles_permitted c croot s ->
  hoare (contained c croot) (fs_law c croot) (handle q) s (fun s' _ => handles_permitted c croot s').
Proof.
  intros Hs. assert (Hc : config s = c) by apply Hs.
  destruct q; unfold_request;
    repeat (h_step || h_proc ltac:(apply hoare_resolve; [done|done|intros ?|intros ? ?])).
  all: first [ done | by eauto with omni | by left; eauto with omni | by right; eauto with omni
             | by simpl; eauto with omni
             | apply permitted_insert_dir; [done|]; simpl; by eauto with omni ].
Qed.


(** ** Which calls a request makes *)

Definition fd_open (s : SftpHandler) (fd : Fd) (writing : bool) : Prop :=
  exists h fh, file_handles s !! h = Some fh /\ fh_file fh = fd /\
    (writing = true -> write_mode fh = true).

(** Calls on descriptors are for open handles, writes for handles opened for
    writing; nothing changes the file system without the right to write. *)
Definition licensed (s : SftpHandler) : forall R : Set, FsCall R -> Prop :=
  fun R call =>
    (allow_write (config s) = false -> mutating call = false) /\
    match call with
    | Seek fd _ | ReadFd fd _ | CloseFd fd => fd_open s fd false
    | WriteAll fd _ => fd_open s fd true
    | _ => True
    end.

(** How a request changes the handles: the configuration and the counter stay
    and no handle appears, or one appears under the counter's name. *)
Definition handles_step (s s' : SftpHandler) (r : result SftpError Response) : Prop :=
  config s' = config s /\
  ((next_handle s' = next_handle s /\ (forall id h, r <> Ok (RHandle id h)) /\
    dom (file_handles s') ⊆ dom (file_handles s) /\ dom (dir_handles s') ⊆ dom (dir_handles s)) \/
   (let h := handle_name (next_handle s) in
    next_handle s' = wrap_add u64_max (next_handle s) 1 /\ (exists id, r = Ok (RHandle id h)) /\
    ((dom (file_handles s') = {[h]} ∪ dom (file_handles s) /\ dir_handles s' = dir_handles s) \/
     (dom (dir_handles s') = {[h]} ∪ dom (dir_handles s) /\ file_handles s' = file_handles s)))).

Lemma handles_same s r : (forall id h, r <> Ok (RHandle id h)) -> handles_step s s r.
Proof. intros Hr. split; [done|]. left. done. Qed.

Lemma licensed_probes s : probes (licensed s).
Proof. done. Qed.

Lemma open_options_read_only f : is_write_open f = false ->
  forall p, mutating (OpenFile (open_options f) p) = false.
Proof.
  unfold is_write_open, open_options. intros H p.
  apply orb_false_iff in H as [[[Hw Hc]%orb_false_iff Ht]%orb_false_iff Ha].
  unfold mutating, open_valid; simpl. rewrite Hw, Hc, Ht, Ha. by destruct (READ f), (EXCLUDE f).
Qed.

Lemma licensed_writer s (R : Set) (c : FsCall R) :
  allow_write (config s) = true ->
  match c with Seek _ _ | ReadFd _ _ | CloseFd _ | WriteAll _ _ => False | _ => True end ->
  licensed s R c.
Proof. intros Hw Hc. split; [congruence|]. by destruct c. Qed.

Lemma licensed_open s f p :
  (is_write_open f = true -> allow_write (config s) = true) ->
  licensed s _ (OpenFile (open_options f) p).
Proof.
  intros Hw. split; [|done]. intros Hn. apply open_options_read_only.
  destruct (is_write_open f); [|done]. rewrite Hw in Hn; done.
Qed.

Lemma licensed_fd s (R : Set) (c : FsCall R) h fh :
  file_handles s !! h = Some fh ->
  match c with Seek fd _ | ReadFd fd _ | CloseFd fd => fd = fh_file fh | _ => False end ->
  licensed s R c.
Proof. intros Hh Hc. split; destruct c; try done; subst; exists h, fh; by rewrite Hh. Qed.

Lemma licensed_write s h fh data :
  allow_write (config s) = true -> file_handles s !! h = Some fh -> write_mode fh = true ->
  licensed s _ (WriteAll (fh_file fh) data).
Proof. intros Hw Hh Hm. split; [by rewrite Hw|]. by exists h, fh. Qed.

Lemma handles_open_file s id fh :
  let h := handle_name (next_handle s) in
  handles_step s (set_files (bump_handle s) (<[h := fh]> (file_handles (bump_handle s)))) (Ok (RHandle id h)).
Proof. split; [done|]. right. split; [done|]. split; [by exists id|]. left. simpl. by rewrite dom_insert_L. Qed.

Lemma handles_open_dir s id dh :
  let h := handle_name (next_handle s) in
  handles_step s (set_dirs (bump_handle s) (<[h := dh]> (dir_handles (bump_handle s)))) (Ok (RHandle id h)).
Proof. split; [done|]. right. split; [done|]. split; [by exists id|]. right. simpl. by rewrite dom_insert_L. Qed.

Lemma handles_close_file s h r : (forall id k, r <> Ok (RHandle id k)) ->
  handles_step s (set_files s (delete h (file_handles s))) r.
Proof. intros Hr. split; [done|]. left. repeat split; simpl; [done|rewrite dom_delete_L; set_solver|done]. Qed.

Lemma handles_close_dir s h r : (forall id k, r <> Ok (RHandle id k)) ->
  handles_step s (set_dirs s (delete h (dir_handles s))) r.
Proof. intros Hr. split; [done|]. left. repeat split; simpl; [done|done|rewrite dom_delete_L; set_solver]. Qed.

Lemma handles_update_dir s h dh dh' r : dir_handles s !! h = Some dh -> (forall id k, r <> Ok (RHandle id k)) ->
  handles_step s (set_dirs s (<[h := dh']> (dir_handles s))) r.
Proof.
  intros Hh%elem_of_dom_2 Hr. split; [done|]. left.
  repeat split; simpl; [done|done|rewrite dom_insert_L; set_solver].
Qed.

Lemma handle_licensed `{SftpProtocol} q s L :
  hoare (licensed s) L (handle q) s (fun s' r => handles_step s s' r).
Proof.
  destruct q; unfold_request;
    repeat (h_step || h_proc ltac:(apply hoare_resolve_any; [done|intros [?|?]])).
  all: first [ done | by apply handles_same | by apply handles_open_file | by apply handles_open_dir
             | by apply handles_close_file | by apply handles_close_dir | by eapply handles_update_dir
             | by apply licensed_writer | by apply licensed_open; congruence
             | by eapply licensed_fd | by eapply licensed_write ].
Qed.

Lemma session_read_only `{SftpProtocol} L qs s :
  allow_write (config s) = false ->
  wp (fun R (c : FsCall R) => mutating c = false) L (session qs s) (fun sr => config sr.1 = config s).
Proof.
  intros Hw. apply (session_inv _ _ (fun s' => config s' = config s)); [|done].
  intros q s' Hc. eapply hoare_weaken; [apply (handle_licensed q s' L)|..].
  - intros R c [Hm _]. apply Hm. by rewrite Hc.
  - intros s'' r [Hcfg _]. by rewrite Hcfg.
Qed.

(** A read-only session changes nothing: whatever the system replies,
    its state as far as only mutating calls change it is the same at the end. *)
Theorem read_only_session_pure `{SftpProtocol} {W V} (sys : forall R : Set, FsCall R -> W -> R * W)
    (view : W -> V) qs s w :
  (forall R (c : FsCall R) w, mutating c = false -> view (sys R c w).2 = view w) ->
  allow_write (config s) = false ->
  view (run_prog sys (session qs s) w).2 = view w.
Proof.
  intros Hsys Hw.
  eapply (wp_run _ (fun _ _ _ => True) sys (fun w' => view w' = view w));
    [|by apply session_read_only|done].
  intros R c w' Hv Hc. split; [done|]. by rewrite Hsys.
Qed.

(** ** No escape through existing directories *)

(** The path the client names below a root. *)
Definition target (root path : string) : string :=
  if is_absolute path then path_join root (strip_root path) else path_join root path.

(** A file system that does not change meanwhile: [live] tells what exists. *)
Definition still (live : string -> bool) (root croot : string)
    : forall R : Set, FsCall R -> R -> Prop :=
  fun R call => match call in FsCall R return R -> Prop with
  | Exists p => fun r => r = live p
  | Canonicalize p => fun r => (forall q, r = Ok q -> is_canonical q) /\ (p = root -> r = Ok croot)
  | _ => fun _ => True
  end.

Definition reaches (live : string -> bool) (p : string) : Prop :=
  live p = true \/ exists parent, path_parent p = Some parent /\ live parent = true.

Lemma canonical_rest croot p :
  is_canonical croot -> (exists names, components p = RootDir :: map Normal names) ->
  path_starts_with p croot = true ->
  exists names, components p = components croot ++ map Normal names.
Proof.
  intros [_ [cs Hcs]] [ns Hns] Hp. apply comps_prefix_spec in Hp as [rest Hr].
  rewrite Hns, Hcs in Hr. simplify_eq/=.
  match goal with Hm : map Normal ns = _ |- _ => rename Hm into Hr end.
  apply map_eq_app in Hr as (l1 & l2 & -> & H1 & H2). exists l2. by rewrite Hns, Hcs, map_app, H1.
Qed.

Lemma canonical_join_name q p :
  is_canonical q -> exists names, components (path_join q (from_option id "" (file_name p))) = RootDir :: map Normal names.
Proof.
  intros Hq. destruct (file_name p) as [n|] eqn:E; simpl.
  - apply file_name_plain in E. by destruct (canonical_join q n Hq E) as [_ ?].
  - destruct Hq as [Ha [ns Hns]]. exists ns. by rewrite components_join_empty.
Qed.

Lemma hoare_locate_root P L s path root (Q : SftpHandler -> result SftpError string -> Prop) :
  root_dir (config s) = Some root -> Q s (Ok (target root path)) -> hoare P L (locate path) s Q.
Proof. intros Hr HQ. unfold locate. h_step. h_step. rewrite Hr. h_step. exact HQ. Qed.

(** Below a root, a path whose target or its parent exists resolves to
    the canonical root followed by plain names, no dots left. *)
Theorem resolve_path_no_escape live root croot path s P :
  probes P -> root_dir (config s) = Some root -> is_canonical croot ->
  reaches live (target root path) ->
  hoare P (still live root croot) (resolve_path path) s (fun s' r => s' = s /\
    forall p, r = Ok p -> exists names, components p = components croot ++ map Normal names).
Proof.
  intros HP Hroot Hc Hreach. unfold resolve_path. h_step. apply hoare_locate_root with root; [done|].
  assert (Hck : forall q, (exists names, components q = RootDir :: map Normal names) ->
    hoare P (still live root croot) (_ ← check_root q; _ ← check_allowed q; mret q) s (fun s' r => s' = s /\
      forall p, r = Ok p -> exists names, components p = components croot ++ map Normal names)).
  { intros q Hq. h_step. apply hoare_check_root; [done..|]. intros base Hb.
    h_step. apply hoare_check_allowed; [done|]. intros _. h_step. split; [done|]. intros p [= <-].
    destruct (Hb root Hroot) as [[[-> [e [_ He]]]|[_ He]] Hs]; [discriminate (He eq_refl)|].
    assert (base = croot) as -> by (specialize (He eq_refl); congruence).
    by apply canonical_rest. }
  h_step. apply hoare_canonical_path; [done|..].
  - intros q [Hq _]. apply Hck. by apply Hq.
  - intros parent q _ _ [Hq _]. apply Hck, canonical_join_name, Hq. done.
  - intros Hparent Hp. exfalso. simpl in *. destruct Hreach as [Hl|(parent & Hpp & Hl)]; [congruence|].
    specialize (Hparent parent Hpp). congruence.
  - done.
Qed.

(** when neither the target nor its parent exists, a path that leaves
    the root through dots passes the root check unchanged. *)
Theorem missing_parent_escapes :
  let s := new (SftpServerConfig_read_only (Some "/srv")) "c" "u" in
  let p := "/srv/new/../../etc/passwd" in
  run_prog (sample_sys (fun p => bool_decide (p = "/srv")))
    (resolve_path "new/../../etc/passwd" s) 0%nat = ((s, Ok p), 0%nat) /\
  path_starts_with p "/srv" = true /\ ParentDir ∈ components p.
Proof. split; [by vm_compute|]. split; [by vm_compute|]. apply list_elem_of_In. vm_compute. auto 10. Qed.

(** ** Handle names *)

Definition numbered (n : Z) (h : string) : Prop := exists k, 1 <= k < n /\ h = handle_name k.

Definition well_numbered (s : SftpHandler) : Prop :=
  1 <= next_handle s /\
  set_Forall (numbered (next_handle s)) (dom (file_handles s) ∪ dom (dir_handles s)).

Definition handed (rs : list (result SftpError Response)) : list string :=
  omap (fun r => match r with Ok (RHandle _ h) => Some h | _ => None end) rs.

Lemma handed_cons r rs : handed (r :: rs) = handed [r] ++ handed rs.
Proof. unfold handed. simpl. by case_match. Qed.

Lemma handle_name_inj i j : 0 <= i -> 0 <= j -> handle_name i = handle_name j -> i = j.
Proof.
  unfold handle_name. intros Hi Hj He%append_inv_l.
  apply (f_equal (parse_uint (Z.max i j))) in He.
  rewrite !parse_show_uint in He by lia. congruence.
Qed.

Lemma numbered_mono n n' h : n <= n' -> numbered n h -> numbered n' h.
Proof. intros Hn (k & Hk & ->). exists k. split; [lia|done]. Qed.

Lemma step_numbered s s' r :
  well_numbered s -> next_handle s < u64_max -> handles_step s s' r ->
  well_numbered s' /\
  ((next_handle s' = next_handle s /\ handed [r] = []) \/
   (next_handle s' = next_handle s + 1 /\ handed [r] = [handle_name (next_handle s)])).
Proof.
  intros [Hn Hall] Hlt [_ [(Hne & Hr & Hf & Hd)|(Hne & [id ->] & Hdom)]].
  - split; [|left; split; [done|]].
    + split; [by rewrite Hne|]. rewrite Hne. intros h Hh. apply Hall. set_solver.
    + destruct r as [[]|]; try done. by destruct (Hr id handle0).
  - rewrite (wrap_add_small u64_max) in Hne by lia. split; [|right; done].
    split; [lia|]. intros h Hh. rewrite Hne.
    assert (h = handle_name (next_handle s) \/ h ∈ dom (file_handles s) ∪ dom (dir_handles s)) as [->|Ho].
    { destruct Hdom as [[Hf Hd]|[Hd Hf]]; [rewrite Hf, Hd in Hh|rewrite Hf, Hd in Hh]; set_solver. }
    + exists (next_handle s). split; [lia|done].
    + eapply numbered_mono; [|by apply Hall]. lia.
Qed.

(** a session never hands out the same handle twice, not even after it
    was closed, until the counter wraps. *)
Theorem handles_never_reused `{SftpProtocol} P L qs s :
  (forall (R : Set) (c : FsCall R), P R c) ->
  well_numbered s -> next_handle s + Z.of_nat (length qs) <= u64_max ->
  wp P L (session qs s) (fun sr =>
    well_numbered sr.1 /\ NoDup (handed sr.2) /\
    Forall (fun h => h ∉ dom (file_handles s) ∪ dom (dir_handles s)) (handed sr.2)).
Proof.
  intros HP Hs Hlen.
  assert (Hmain : wp P L (session qs s) (fun sr => well_numbered sr.1 /\ NoDup (handed sr.2) /\
    Forall (fun h => exists k, next_handle s <= k < next_handle sr.1 /\ h = handle_name k) (handed sr.2) /\
    next_handle s <= next_handle sr.1)).
  { revert s Hs Hlen. induction qs as [|q qs IH]; intros s Hs Hlen.
    - simpl. split; [done|]. split; [constructor|]. split; [constructor|lia].
    - cbn [session]. apply wp_bind. cbn [length] in Hlen.
      eapply wp_weaken; [|intros R c _; apply HP|exact (handle_licensed q s L)].
      intros [s' r]; cbn [fst snd]. intros Hstep.
      apply step_numbered in Hstep as [Hs' Hcase]; [|done|lia].
      apply wp_bind. eapply wp_mono; [|apply IH; [done|]]; [|destruct Hcase as [[-> _]|[-> _]]; lia].
      intros [s'' rs]. cbn [fst snd]. intros (Hw & Hnd & Hall & Hle).
      cbn [wp fst snd]. rewrite handed_cons.
      destruct Hcase as [[He ->]|[He ->]]; rewrite He in *; [done|]. cbn [app].
      split; [done|]. split; [|split; [|lia]].
      + constructor; [|done]. intros Hin. rewrite Forall_forall in Hall.
        destruct (Hall _ Hin) as (k & Hk & Hkn). destruct Hs as [Hpos _].
        apply handle_name_inj in Hkn; lia.
      + constructor; [exists (next_handle s); split; [lia|done]|].
        eapply Forall_impl; [exact Hall|]. intros h (k & Hk & ->). exists k. split; [lia|done]. }
  eapply wp_mono; [|exact Hmain]. intros [s' rs]. cbn [fst snd]. intros (Hw & Hnd & Hall & _).
  split; [done|]. split; [done|]. eapply Forall_impl; [exact Hall|].
  intros h (k & Hk & ->) Hin. destruct Hs as [Hpos Hnum]. destruct (Hnum _ Hin) as (j & Hj & Hjn).
  apply handle_name_inj in Hjn; lia.
Qed.

(** The handle a request works on, among the files or the directories. *)
Definition stale (q : Request) (s : SftpHandler) : Prop :=
  match q with
  | ReqClose _ h => file_handles s !! h = None /\ dir_handles s !! h = None
  | ReqRead _ h _ _ | ReqWrite _ h _ _ | ReqFstat _ h | ReqFsetstat _ h _ => file_handles s !! h = None
  | ReqReaddir _ h => dir_handles s !! h = None
  | _ => False
  end.

(** a request on a handle that is not open makes no call, changes
    nothing and fails. *)
Theorem stale_handle_refused `{SftpProtocol} q s :
  stale q s -> exists e, handle q s = Ret (s, Err e).
Proof.
  destruct q; simpl; try done.
  1: intros [Hs Hd]. 2-6: intros Hs.
  all: unfold_request; unfold check_read, check_write, guard_m, gets, or_throw, throw, mbind, SM_bind,
    mret, SM_ret; simpl; rewrite ?Hs.
  1: simpl; rewrite Hd; by eauto.
  all: repeat (simpl; case_match); simpl; eauto; simplify_eq.
Qed.

(** ** Size limit *)

(** with a size limit, a write that does not overflow the offset asks
    the system to write only data that ends within the limit, at the offset
    the client gave; beyond the limit it fails. *)
Theorem write_within_limit `{SftpProtocol} L id h offset data max s :
  max_file_size (config s) = Some max -> 0 <= offset ->
  offset + Z.of_nat (length data) <= u64_max ->
  hoare (fun R (c : FsCall R) => match c with
         | WriteAll _ d => d = data /\ offset + Z.of_nat (length d) <= max
         | Seek _ o => o = offset
         | _ => False
         end) L (write id h offset data) s
    (fun s' r => s' = s /\ (max < offset + Z.of_nat (length data) -> exists e, r = Err e)).
Proof.
  intros Hmax Ho Hu. unfold write.
  repeat (h_step || h_proc fail); repeat split; eauto; simplify_eq; try congruence.
  all: rewrite wrap_add_small in * by lia; reflect_bools; try lia; intros; lia.
Qed.

(** ** Directory listings *)

Section Listing.
Context `{SftpProtocol} {W : Type} (sys : forall R : Set, FsCall R -> W -> R * W).
Context (md : DirEntry -> result IoError Metadata) (mdp : string -> result IoError Metadata).
Context (Hmd : forall e w, sys _ (EntryMetadata e) w = (md e, w)).
Context (Hmdp : forall p w, sys _ (MetadataOf p) w = (mdp p, w)).

Definition listed (r : result SftpError Response) : list (string * FileAttributes) :=
  match r with Ok (RName _ files) => files | _ => [] end.

(** The files a directory handle still has to list. *)
Definition dots_of (dh : DirHandle) : list (string * FileAttributes) :=
  if (position dh =? 0)%nat then
    push_file [] "." (mdp (dh_path dh)) ++
    match path_parent (dh_path dh) with Some p => push_file [] ".." (mdp p) | None => [] end
  else [].

Definition entry_file (e : DirEntry) : list (string * FileAttributes) := push_file [] (de_name e) (md e).

Definition pending (dh : DirHandle) : list (string * FileAttributes) :=
  if read_complete dh then []
  else dots_of dh ++ concat (map entry_file (drop (position dh) (entries dh))).

Lemma push_file_app fs n r : push_file fs n r = fs ++ push_file [] n r.
Proof. destruct r; simpl; [done|by rewrite app_nil_r]. Qed.

Lemma push_file_length n r : (length (push_file [] n r) <= 1)%nat.
Proof. destruct r; simpl; lia. Qed.

Lemma run_dot_files dh s w : run_prog sys (dot_files dh s) w = ((s, Ok (dots_of dh)), w).
Proof.
  unfold dot_files, dots_of, call, mbind, SM_bind. case_match; [|done]. simpl. rewrite Hmdp.
  destruct (path_parent (dh_path dh)); simpl; [|by rewrite app_nil_r].
  rewrite Hmdp. by rewrite push_file_app.
Qed.

Lemma run_read_entries es pos files s w :
  exists k, run_prog sys (read_entries es pos files s) w =
      ((s, Ok ((pos + k)%nat, files ++ concat (map entry_file (take k es)))), w) /\
    (k <= length es)%nat /\
    (length (files ++ concat (map entry_file (take k es))) <= Nat.max BATCH_SIZE (length files))%nat /\
    ((k < length es)%nat -> (BATCH_SIZE <= length (files ++ concat (map entry_file (take k es))))%nat).
Proof.
  revert pos files w. induction es as [|e es IH]; intros pos files w.
  - exists 0%nat. simpl. rewrite app_nil_r, Nat.add_0_r. repeat split; lia.
  - cbn [read_entries]. destruct (Nat.ltb_spec (length files) BATCH_SIZE) as [Hlt|Hge].
    + unfold call, mbind, SM_bind. simpl. rewrite Hmd. simpl.
      destruct (IH (S pos) (push_file files (de_name e) (md e)) w) as (k & Hr & Hk & Hm & Hf).
      exists (S k). rewrite push_file_app in *. fold (entry_file e) in *. rewrite Hr. simpl.
      rewrite <- app_assoc in *. pose proof (push_file_length (de_name e) (md e)) as Hl.
      fold (entry_file e) in Hl. rewrite !length_app in *.
      split; [do 2 f_equal; f_equal; f_equal; lia|]. split; [lia|]. split; [lia|].
      intros. apply Hf. lia.
    + exists 0%nat. simpl. rewrite app_nil_r, Nat.add_0_r. repeat split; lia.
Qed.

Definition dir_ok (dh : DirHandle) : Prop :=
  (position dh <= length (entries dh))%nat.

Lemma dots_of_length dh : (length (dots_of dh) <= 2)%nat.
Proof.
  unfold dots_of. case_match; [|simpl; lia]. rewrite length_app.
  pose proof (push_file_length "." (mdp (dh_path dh))).
  destruct (path_parent (dh_path dh)) as [p|]; [pose proof (push_file_length ".." (mdp p))|simpl]; lia.
Qed.

(** One request lists a batch of what is pending. *)
Lemma run_readdir id h s dh w :
  allow_read (config s) = true -> dir_handles s !! h = Some dh -> read_complete dh = false -> dir_ok dh ->
  exists dh' r, run_prog sys (readdir id h s) w = ((set_dirs s (<[h := dh']> (dir_handles s)), r), w) /\
    pending dh = listed r ++ pending dh' /\ (length (listed r) <= BATCH_SIZE)%nat /\ dir_ok dh' /\
    (read_complete dh' = true \/
     (length (entries dh') - position dh' < length (entries dh) - position dh)%nat).
Proof.
  intros Hread Hh Hc Hok. unfold readdir, check_read, guard_m, gets, or_throw, mbind, SM_bind. simpl.
  rewrite Hread. simpl. rewrite Hh. simpl. rewrite Hc. simpl.
  rewrite run_bind, run_dot_files. simpl. rewrite run_bind.
  destruct (run_read_entries (drop (position dh) (entries dh)) (position dh) (dots_of dh) s w)
    as (k & -> & Hk & Hm & Hf).
  pose proof (dots_of_length dh) as Hdots. rewrite length_drop in *. unfold dir_ok in *.
  set (files := dots_of dh ++ _) in *. set (dh' := {| dh_path := dh_path dh; entries := entries dh; position := (position dh + k)%nat;
    read_complete := (length (entries dh) <=? position dh + k)%nat |}).
  exists dh', (if (length files =? 0)%nat then Err Eof else Ok (RName id files)).
  assert (Hlisted : listed (if (length files =? 0)%nat then Err Eof else Ok (RName id files)) = files).
  { destruct (Nat.eqb_spec (length files) 0) as [E|]; [|done]. simpl. by destruct files. }
  rewrite Hlisted. split; [by case_match|]. split; [|split; [unfold BATCH_SIZE in *; lia|]].
  - subst files. rewrite <- app_assoc. unfold pending at 1. rewrite Hc. f_equal.
    rewrite <- (take_drop k (drop (position dh) (entries dh))) at 1.
    rewrite map_app, concat_app, drop_drop. f_equal. unfold pending, dots_of. simpl.
    destruct (Nat.leb_spec (length (entries dh)) (position dh + k)); [by rewrite drop_ge|].
    assert (k <> 0%nat).
    { intros ->. simpl in Hf. rewrite app_nil_r in Hf. unfold BATCH_SIZE in *. lia. }
    by destruct (Nat.eqb_spec (position dh + k) 0); [lia|].
  - simpl. split; [lia|].
    destruct (Nat.leb_spec (length (entries dh)) (position dh + k)); [by left|].
    right. destruct k; [|lia]. subst files. simpl in Hf. rewrite app_nil_r in Hf. unfold BATCH_SIZE in *. lia.
Qed.

Lemma run_session_cons q qs s w :
  run_prog sys (session (q :: qs) s) w =
  let '(s', r, w') := run_prog sys (handle q s) w in
  let '(s'', rs, w'') := run_prog sys (session qs s') w' in ((s'', r :: rs), w'').
Proof.
  cbn [session]. rewrite run_bind. destruct (run_prog sys (handle q s) w) as [[s' r] w'].
  rewrite run_bind. by destruct (run_prog sys (session qs s') w') as [[s'' rs] w''].
Qed.

Lemma run_complete id h s dh n w :
  allow_read (config s) = true -> dir_handles s !! h = Some dh -> read_complete dh = true ->
  run_prog sys (session (repeat (ReqReaddir id h) n) s) w = ((s, repeat (Err Eof) n), w).
Proof.
  intros Hread Hh Hc. induction n as [|n IH]; [done|]. cbn [repeat]. rewrite run_session_cons.
  assert (handle (ReqReaddir id h) s = Ret (s, Err Eof)) as ->.
  { cbn [handle]. unfold readdir, check_read, guard_m, gets, or_throw, mbind, SM_bind. simpl.
    rewrite Hread. simpl. rewrite Hh. simpl. by rewrite Hc. }
  cbn [run_prog]. by rewrite IH.
Qed.

Definition drained (dh : DirHandle) (rs : list (result SftpError Response)) : Prop :=
  concat (map listed rs) = pending dh /\
  Forall (fun r => (length (listed r) <= BATCH_SIZE)%nat) rs /\ last rs = Some (Err Eof).

Lemma drained_complete dh n : read_complete dh = true -> (0 < n)%nat -> drained dh (repeat (Err Eof) n).
Proof.
  intros Hc Hn. unfold drained, pending. rewrite Hc. split; [|split].
  - clear Hn. by induction n.
  - apply Forall_forall. intros r Hr%list_elem_of_In%repeat_spec. subst. simpl. unfold BATCH_SIZE. lia.
  - destruct n; [lia|]. clear. induction n; [done|]. simpl in *. by destruct (repeat (Err Eof) n).
Qed.

(** reading a directory handle until the end lists the attributes of
    the directory, its parent and every entry that has some, once and in order,
    at most a hundred a reply, and then reports the end of the listing. *)
Theorem readdir_drains id h s dh n w :
  allow_read (config s) = true -> dir_handles s !! h = Some dh -> dir_ok dh ->
  (length (entries dh) - position dh + 1 < n)%nat ->
  drained dh (run_prog sys (session (repeat (ReqReaddir id h) n) s) w).1.2.
Proof.
  intros Hread Hh Hok Hn.
  assert (Hn' : (0 < n)%nat /\ (read_complete dh = false -> (length (entries dh) - position dh + 1 < n)%nat))
    by (split; [lia|done]).
  clear Hn. revert s dh w Hread Hh Hok Hn'. induction n as [|n IH]; intros s dh w Hread Hh Hok [Hpos Hn]; [lia|].
  destruct (read_complete dh) eqn:Hc.
  - erewrite run_complete by done. cbn [fst snd]. by apply drained_complete.
  - cbn [repeat]. rewrite run_session_cons. cbn [handle].
    destruct (run_readdir id h s dh w Hread Hh Hc Hok) as (dh' & r & -> & Hp & Hl & Hok' & Hdec).
    set (s' := set_dirs s _). specialize (Hn eq_refl).
    assert (Hs' : drained dh' (run_prog sys (session (repeat (ReqReaddir id h) n) s') w).1.2).
    { apply IH; [done|apply lookup_insert_eq|done|]. split; [lia|]. intros Hc'. destruct Hdec; [congruence|lia]. }
    destruct (run_prog sys (session _ s') w) as [[s'' rs] w'']. cbn [fst snd] in *.
    destruct Hs' as (H1 & H2 & H3). unfold drained. rewrite Hp. simpl. rewrite H1.
    split; [done|]. split; [by constructor|]. by destruct rs.
Qed.
End Listing.

(** ** What realpath shows *)

(** the path shown for a file below the root names that file when the
    client sends it back. *)
Theorem realpath_round_trip root ns s :
  root_dir (config s) = Some root -> ends_with root "/" = false -> root <> "" ->
  ns <> [] -> Forall plain_name ns ->
  let p := root +:+ ("/" +:+ join "/" ns) in
  display_path (Some root) p = ("/" +:+ join "/" ns) /\
  locate (display_path (Some root) p) s = Ret (s, Ok p).
Proof.
  intros Hr He Hne Hns Hp p.
  assert (Hd : display_path (Some root) p = ("/" +:+ join "/" ns)).
  { unfold display_path, p. rewrite starts_with_app, drop_str_app.
    rewrite bool_decide_false by done. by rewrite starts_with_app. }
  split; [done|]. rewrite Hd. unfold locate, gets, mbind, SM_bind. simpl. rewrite Hr.
  replace (is_absolute ("/" +:+ join "/" ns)) with true by (symmetry; apply starts_with_app).
  change ("/" +:+ join "/" ns) with (String "/" (join "/" ns)).
  rewrite strip_root_plain by done. unfold path_join.
  rewrite join_plain_relative, bool_decide_false by done. by rewrite He.
Qed.

(** ** Witnesses *)

#[local] Instance demo_protocol : SftpProtocol := {|
  FileAttributes_default := {| fa_size := Some 0; fa_uid := Some 0; fa_gid := Some 0;
    fa_permissions := Some 511; fa_atime := Some 0; fa_mtime := Some 0 |} |}.

Definition demo_config : SftpServerConfig := {|
  root_dir := Some "/srv"; allow_read := true; allow_write := true; max_file_size := Some 10;
  cfg_allowed_paths := None |}.

Definition demo_requests : list Request :=
  [ReqMkdir 1 "/a" FileAttributes_default; ReqRemove 2 "b"; ReqClose 3 "h1"].

Lemma new_well_numbered c conn user : well_numbered (new c conn user).
Proof. split; [simpl; lia|]. intros h Hh. simpl in Hh. rewrite !dom_empty_L in Hh. set_solver. Qed.


Lemma read_only_session_pure_witness :
  (run_prog (sample_sys (fun _ => true))
    (session demo_requests (new (SftpServerConfig_read_only None) "c" "u")) 0%nat).2 = 0%nat.
Proof.
  apply (read_only_session_pure (sample_sys (fun _ => true)) (fun w => w)); [|reflexivity].
  intros R c w. apply sample_sys_pure.
Defined.

Lemma resolve_path_no_escape_witness :
  let s := new demo_config "c" "u" in
  hoare (fun _ _ => True) (still (fun p => bool_decide (p = "/srv")) "/srv" "/srv") (resolve_path "a.txt") s
    (fun s' r => s' = s /\
     forall p, r = Ok p -> exists names, components p = components "/srv" ++ map Normal names).
Proof.
  apply (resolve_path_no_escape (fun p => bool_decide (p = "/srv")) "/srv" "/srv" "a.txt").
  - done.
  - reflexivity.
  - split; [reflexivity|]. by exists ["srv"].
  - right. exists "/srv". by vm_compute.
Defined.

Lemma handles_never_reused_witness :
  let s := new demo_config "c" "u" in
  wp (fun _ _ => True) (fun _ _ _ => True) (session demo_requests s) (fun sr =>
    well_numbered sr.1 /\ NoDup (handed sr.2) /\
    Forall (fun h => h ∉ dom (file_handles s) ∪ dom (dir_handles s)) (handed sr.2)).
Proof.
  apply (handles_never_reused (fun _ _ => True) (fun _ _ _ => True) demo_requests).
  - done.
  - apply new_well_numbered.
  - by vm_compute.
Defined.

Lemma stale_handle_refused_witness :
  exists e, handle (ReqClose 1 "h1") (new demo_config "c" "u") = Ret (new demo_config "c" "u", Err e).
Proof. apply (stale_handle_refused (ReqClose 1 "h1")). by vm_compute. Defined.

Lemma write_within_limit_witness :
  let s := new demo_config "c" "u" in
  hoare (fun R (c : FsCall R) => match c with
         | WriteAll _ d => d = [1; 2] /\ 4 + Z.of_nat (length d) <= 10
         | Seek _ o => o = 4
         | _ => False
         end) (fun _ _ _ => True) (write 1 "h1" 4 [1; 2]) s
    (fun s' r => s' = s /\ (10 < 4 + Z.of_nat (length [1; 2]) -> exists e, r = Err e)).
Proof.
  apply (write_within_limit (fun _ _ _ => True) 1 "h1" 4 [1; 2] 10 (new demo_config "c" "u"));
    [reflexivity|lia|by vm_compute].
Defined.

Definition demo_dir : DirHandle := {|
  dh_path := "/srv"; entries := repeat {| de_name := "x"; de_path := "/srv/x" |} 150;
  position := 0; read_complete := false |}.

Lemma readdir_drains_witness :
  let s := set_dirs (new demo_config "c" "u") {["h1" := demo_dir]} in
  let md e := if bool_decide (de_path e = "/none") then Err NotFound else Ok (sample_metadata 0) in
  let mdp p := if bool_decide (p = "/none") then Err NotFound else Ok (sample_metadata 0) in
  drained md mdp demo_dir
    (run_prog (sample_sys (fun p => negb (bool_decide (p = "/none")))) (session (repeat (ReqReaddir 1 "h1") 160) s) 0%nat).1.2.
Proof.
  intros s md mdp.
  apply (readdir_drains (sample_sys (fun p => negb (bool_decide (p = "/none")))) md mdp).
  - intros e w. unfold md, sample_sys. by destruct (bool_decide _).
  - intros p w. unfold mdp, sample_sys. by destruct (bool_decide _).
  - reflexivity.
  - reflexivity.
  - unfold dir_ok. simpl. lia.
  - simpl. lia.
Defined.

Lemma realpath_round_trip_witness :
  display_path (Some "/srv") "/srv/a/b" = "/a/b" /\
  locate (display_path (Some "/srv") "/srv/a/b") (new demo_config "c" "u") =
  Ret (new demo_config "c" "u", Ok "/srv/a/b").
Proof.
  apply (realpath_round_trip "/srv" ["a"; "b"] (new demo_config "c" "u")); try done.
  repeat constructor; done.
Defined.

(** A file opened for appending grows past the limit: the check adds the
    client's offset, the system ignores it. *)
Definition append_sys (R : Set) (c : FsCall R) (len : Z) : R * Z :=
  match c in FsCall R return R * Z with
  | WriteAll _ d => (Ok tt, len + Z.of_nat (length d))
  | c => ((sample_sys (fun _ => true) _ c 0%nat).1, len)
  end.

Lemma append_exceeds_limit :
  let f := {| READ := false; WRITE := true; APPEND := true; CREATE := true; TRUNCATE := false; EXCLUDE := false |} in
  let c := {| root_dir := None; allow_read := true; allow_write := true; max_file_size := Some 10;
              cfg_allowed_paths := None |} in
  let r := run_prog append_sys (session [ReqOpen 1 "log" f; ReqWrite 2 "h1" 0 (repeat 7 8);
                                         ReqWrite 3 "h1" 0 (repeat 7 8)] (new c "c" "u")) 0 in
  r.1.2 = [Ok (RHandle 1 "h1"); Ok (status_ok 2); Ok (status_ok 3)] /\ r.2 = 16.
Proof. by vm_compute. Qed.
