(* ===== verification/Handler.v ===== *)
(** * SSH connections (omni-ssh/src/server/handler.rs, server/config.rs)

    The handler of one connection: the login, the channels with their
    environment, terminal and subsystem, and the requests of the client.  Each
    request is a program with the handler as its state: what the backend, the
    user database, the terminals and the protocol library do are calls.  The
    build is the one with SFTP and without recording, on unix. *)

From Stdlib Require Import Ascii.
From S2P Require Import Prelude RustStr Net SshTypes Auth CommandFilter Effects Sftp.

Open Scope string_scope.
Open Scope list_scope.
Open Scope Z_scope.

Record SshServerConfig : Type := {
  port : Z; enable_sftp : bool; enable_forwarding : bool; enable_pty : bool;
  recording : RecordingConfig; cfg_rate_limit_per_ip : Z; cfg_max_failed_auth : Z;
  cfg_ban_duration : Z; cfg_max_concurrent : Z; idle_timeout : Z;
  keepalive_interval : Z; handshake_timeout : Z }.

Definition SshServerConfig_default : SshServerConfig := {|
  port := 22; enable_sftp := true; enable_forwarding := false; enable_pty := true;
  recording := RecordingConfig_default; cfg_rate_limit_per_ip := 10; cfg_max_failed_auth := 5;
  cfg_ban_duration := from_secs (15 * 60); cfg_max_concurrent := 100;
  idle_timeout := from_secs (30 * 60); keepalive_interval := from_secs 60;
  handshake_timeout := from_secs 30 |}.

Record SshConnInfo : Type := {
  connection_id : string; ci_ssh_user : string; src_addr : SocketAddr; dst_addr : SocketAddr;
  ci_peer_node : NodeInfo; user_profile : UserProfile }.

Inductive SshEvent : Type :=
| ConnectionAttempt (src dst : SocketAddr)
| ConnectionAuthenticated (conn_id ssh_user local_user : string)
| ConnectionRejected (src : SocketAddr) (reason : string)
| ConnectionClosed (conn_id : string)
| SessionStarted (conn_id session_type : string)
| SessionEnded (conn_id : string)
| RecordingStarted (conn_id : string)
| RecordingFailed (conn_id error : string)
| CommandBlocked (conn_id command reason : string)
| RateLimitExceeded (src_ip : IpAddr) (count : Z).

Record SshConnection : Type := {
  sc_id : string; sc_info : SshConnInfo; sc_action : SshAction; sc_valid : bool }.

Definition SshConnection_new (id : string) (info : SshConnInfo) (act : SshAction) : SshConnection :=
  {| sc_id := id; sc_info := info; sc_action := act; sc_valid := true |}.

(** A terminal's size and type (omni-ssh/src/server/pty.rs). *)
Record PtyConfig : Type := {
  term : string; cols : Z; rows : Z; pixel_width : Z; pixel_height : Z }.

Definition PtyConfig_default : PtyConfig := {|
  term := "xterm-256color"; cols := 80; rows := 24; pixel_width := 0; pixel_height := 0 |}.

(** Names of the objects other code owns: channels and terminals. *)
Definition ChannelId : Set := Z.
Definition PtyRef : Set := Z.

Inductive ChannelSubsystem : Type := SubNone | SubSftp.

Record ChannelState : Type := {
  channel : option ChannelId; pty : option PtyRef; pty_config : option PtyConfig;
  shell_requested : bool; env : gmap string string; subsystem : ChannelSubsystem }.

Record SshConnectionHandler : Type := {
  h_config : SshServerConfig; peer_addr : SocketAddr; h_conn_id : string;
  peer_identity : option PeerIdentity; local_user : option string; ssh_user : option string;
  h_action : option SshAction; channels : gmap ChannelId ChannelState;
  active_conns : gmap string SshConnection; auth_completed : bool }.

(** [conn_id]: the text of a fresh UUID.  [DashMap::clone] copies the map. *)
Definition new (config : SshServerConfig) (addr : SocketAddr)
    (conns : gmap string SshConnection) (conn_id : string) : SshConnectionHandler := {|
  h_config := config; peer_addr := addr; h_conn_id := conn_id; peer_identity := None;
  local_user := None; ssh_user := None; h_action := None; channels := ∅;
  active_conns := conns; auth_completed := false |}.

Definition set_channels (h : SshConnectionHandler) m : SshConnectionHandler := {|
  h_config := h_config h; peer_addr := peer_addr h; h_conn_id := h_conn_id h;
  peer_identity := peer_identity h; local_user := local_user h; ssh_user := ssh_user h;
  h_action := h_action h; channels := m; active_conns := active_conns h;
  auth_completed := auth_completed h |}.

(** [if let Some(mut c) = self.channels.get_mut(&ch) { .. }]. *)
Definition on_channel (ch : ChannelId) (f : ChannelState -> ChannelState) (h : SshConnectionHandler)
    : SshConnectionHandler := set_channels h (alter f ch (channels h)).

Definition set_pty (p : PtyRef) (c : ChannelState) : ChannelState := {|
  channel := channel c; pty := Some p; pty_config := pty_config c;
  shell_requested := shell_requested c; env := env c; subsystem := subsystem c |}.
Definition set_pty_config (cfg : option PtyConfig) (c : ChannelState) : ChannelState := {|
  channel := channel c; pty := pty c; pty_config := cfg;
  shell_requested := shell_requested c; env := env c; subsystem := subsystem c |}.
Definition request_shell (c : ChannelState) : ChannelState := {|
  channel := channel c; pty := pty c; pty_config := pty_config c;
  shell_requested := true; env := env c; subsystem := subsystem c |}.
Definition set_env (name value : string) (c : ChannelState) : ChannelState := {|
  channel := channel c; pty := pty c; pty_config := pty_config c;
  shell_requested := shell_requested c; env := <[name := value]> (env c);
  subsystem := subsystem c |}.
Definition take_for_sftp (c : ChannelState) : ChannelState := {|
  channel := None; pty := pty c; pty_config := pty_config c;
  shell_requested := shell_requested c; env := env c; subsystem := SubSftp |}.

(** An entry of the user database (the users crate). *)
Record User : Type := { user_shell : string; user_home_dir : string }.

Inductive HCall : Set -> Set :=
| IsOmniedgeIp (ip : IpAddr) : HCall bool
| WhoIs (ip : IpAddr) : HCall (result string (option PeerIdentity))
| GetSshPolicy : HCall (result string SshPolicy)
| OnSshEvent (e : SshEvent) : HCall unit
| UtcReadings : HCall (nat -> Z)
| UtcNow : HCall Z
| GetUserByName (username : string) : HCall (option User)
| OpenPty (shell : string) (cfg : PtyConfig) (env : list (string * string)) (dir : option string)
  : HCall (result string PtyRef)
| SendInput (p : PtyRef) (data : list Z) : HCall (result string unit)
| SpawnPtyIo (ch : ChannelId) (p : PtyRef) : HCall unit
| SpawnSftp (ch : ChannelId) (sftp : SftpHandler) : HCall unit
| ExtendedData (ch : ChannelId) (code : Z) (data : string) : HCall unit
| ExitStatusRequest (ch : ChannelId) (status : Z) : HCall unit
| SendEof (ch : ChannelId) : HCall unit
| SendClose (ch : ChannelId) : HCall unit
| RequestSuccess : HCall unit
| RequestFailure : HCall unit
| ChannelSuccess (ch : ChannelId) : HCall unit.

Abbreviation H := (SM HCall SshConnectionHandler string) (only parsing).

Inductive MethodSet : Type := MS_NONE.
Inductive AuthReply : Type := AuthAccept | AuthReject (proceed_with_methods : option MethodSet).

Section Handler.
Context `{RegexEngine} `{UtcCalendar}.

Definition create_command_filter (h : SshConnectionHandler) : option CommandFilter :=
  CommandFilter.new <$> h_action h.

(** ** Sessions *)

Definition get_user_shell (username : string) : H string :=
  user ← call (GetUserByName username);
  mret (match user with Some u => user_shell u | None => "/bin/sh" end).

Definition get_user_home (username : string) : H (option string) :=
  user ← call (GetUserByName username); mret (option_map user_home_dir user).

Definition shell_config (ch : ChannelId) (h : SshConnectionHandler) : PtyConfig :=
  from_option id PtyConfig_default (channels h !! ch ≫= pty_config).
Definition shell_env (ch : ChannelId) (h : SshConnectionHandler) : list (string * string) :=
  from_option (fun c => map_to_list (env c)) [] (channels h !! ch).

Definition event (e : SshConnectionHandler -> SshEvent) : H unit :=
  e ← gets e; call (OnSshEvent e).

(** The login shell of the local user, on a new terminal. *)
Definition open_shell (ch : ChannelId) : H PtyRef :=
  user ← gets local_user;
  local_user ← or_throw "Not authenticated" user;
  shell ← get_user_shell local_user;
  cfg ← gets (shell_config ch);
  env ← gets (shell_env ch);
  home_dir ← get_user_home local_user;
  opened ← call (OpenPty shell cfg env home_dir);
  lift opened.

Definition start_shell (ch : ChannelId) : H unit :=
  p ← open_shell ch;
  _ ← modify (on_channel ch (set_pty p));
  _ ← call (SpawnPtyIo ch p);
  event (fun h => SessionStarted (h_conn_id h) "shell").

(** What the client sees of a refused command. *)
Definition refuse (ch : ChannelId) (msg : string) : H unit :=
  _ ← call (ExtendedData ch 1 msg);
  _ ← call (ExitStatusRequest ch 1);
  _ ← call (SendEof ch);
  call (SendClose ch).

Definition crlf : string := String "013" (String "010" "").
Definition newline : list Z := [10].

(** The command is typed into the login shell. *)
Definition run_command (ch : ChannelId) (command : list Z) : H unit :=
  p ← open_shell ch;
  sent ← call (SendInput p (command ++ newline));
  _ ← lift sent;
  _ ← modify (on_channel ch (set_pty p));
  _ ← call (SpawnPtyIo ch p);
  event (fun h => SessionStarted (h_conn_id h) ("exec: " +:+ bytes_string command)).

Definition exec_command (ch : ChannelId) (command : list Z) : H unit :=
  let text := bytes_string command in
  filter ← gets create_command_filter;
  match option_map (fun f => check_command f text) filter with
  | Some (CommandFilter.Blocked reason) =>
      _ ← event (fun h => CommandBlocked (h_conn_id h) text reason);
      refuse ch ("Command blocked: " +:+ reason +:+ crlf)
  | Some (PathNotAllowed path) => refuse ch ("Path not allowed: " +:+ path +:+ crlf)
  | Some ReadOnlyViolation => refuse ch ("Read-only mode: write operations not allowed" +:+ crlf)
  | Some CommandFilter.Allowed | None => run_command ch command
  end.

(** ** Login *)

(** The backend as its replies present it during one login. *)
Definition replies vpn who pol : SshBackend := {|
  is_omniedge_ip := fun _ => vpn; who_is := fun _ => who; get_ssh_policy := pol |}.

(** [authenticate] asks no further when it has its answer; the replies left
    out below are those it does not look at. *)
Definition authenticate_now (ip : IpAddr) (user : string) : H AuthResult :=
  let unasked {A} : result string A := Err "" in
  vpn ← call (IsOmniedgeIp ip);
  if negb vpn
  then lift (authenticate (Backend := replies vpn unasked unasked) (fun _ => 0) 0 ip user)
  else
    who ← call (WhoIs ip);
    match ok who ≫= id with
    | None => lift (authenticate (Backend := replies vpn who unasked) (fun _ => 0) 0 ip user)
    | Some _ =>
        pol ← call GetSshPolicy;
        utc ← call UtcReadings;
        now ← call UtcNow;
        lift (authenticate (Backend := replies vpn who pol) utc now ip user)
    end.

Definition set_ssh_user (u : string) (h : SshConnectionHandler) : SshConnectionHandler := {|
  h_config := h_config h; peer_addr := peer_addr h; h_conn_id := h_conn_id h;
  peer_identity := peer_identity h; local_user := local_user h; ssh_user := Some u;
  h_action := h_action h; channels := channels h; active_conns := active_conns h;
  auth_completed := auth_completed h |}.

Definition set_peer (p : PeerIdentity) (h : SshConnectionHandler) : SshConnectionHandler := {|
  h_config := h_config h; peer_addr := peer_addr h; h_conn_id := h_conn_id h;
  peer_identity := Some p; local_user := local_user h; ssh_user := ssh_user h;
  h_action := h_action h; channels := channels h; active_conns := active_conns h;
  auth_completed := auth_completed h |}.

Definition grant (lu : string) (act : SshAction) (h : SshConnectionHandler) : SshConnectionHandler := {|
  h_config := h_config h; peer_addr := peer_addr h; h_conn_id := h_conn_id h;
  peer_identity := peer_identity h; local_user := Some lu; ssh_user := ssh_user h;
  h_action := Some act; channels := channels h; active_conns := active_conns h;
  auth_completed := true |}.

Definition set_conns (h : SshConnectionHandler) m : SshConnectionHandler := {|
  h_config := h_config h; peer_addr := peer_addr h; h_conn_id := h_conn_id h;
  peer_identity := peer_identity h; local_user := local_user h; ssh_user := ssh_user h;
  h_action := h_action h; channels := channels h; active_conns := m;
  auth_completed := auth_completed h |}.

Definition conn_info (user : string) (h : SshConnectionHandler) : SshConnInfo := {|
  connection_id := h_conn_id h; ci_ssh_user := user;
  src_addr := peer_addr h; dst_addr := peer_addr h;
  ci_peer_node := from_option peer_node
    {| ni_id := "unknown"; ni_name := "unknown"; ni_virtual_ip := show_ip (sa_ip (peer_addr h));
       ni_tags := []; ni_online := true; ni_network_id := "unknown" |} (peer_identity h);
  user_profile := from_option peer_user
    {| up_id := "unknown"; up_email := "unknown"; up_name := None |} (peer_identity h) |}.

Definition register_conn (user : string) (act : SshAction) (h : SshConnectionHandler)
    : SshConnectionHandler :=
  set_conns h (<[h_conn_id h := SshConnection_new (h_conn_id h) (conn_info user h) act]>
                 (active_conns h)).

Definition auth_none (user : string) : H AuthReply :=
  _ ← modify (set_ssh_user user);
  ip ← gets (fun h => sa_ip (peer_addr h));
  result ← authenticate_now ip user;
  match result with
  | Accept lu act =>
      who ← call (WhoIs ip);
      _ ← modify (fun h => from_option (fun p => set_peer p h) h (ok who ≫= id));
      _ ← modify (grant lu act);
      _ ← modify (register_conn user act);
      _ ← event (fun h => ConnectionAuthenticated (h_conn_id h) user lu);
      mret AuthAccept
  | Reject msg =>
      _ ← event (fun h => ConnectionRejected (peer_addr h) msg);
      mret (AuthReject None)
  | HoldAndDelegate url => mret (AuthReject None)
  end.

Definition auth_publickey_offered (user key : string) : H AuthReply := mret (AuthReject (Some MS_NONE)).
Definition auth_publickey (user key : string) : H AuthReply := mret (AuthReject (Some MS_NONE)).

(** ** Requests *)

Definition channel_open_session (ch : ChannelId) : H bool :=
  done ← gets auth_completed;
  if negb done then mret false
  else
    _ ← modify (fun h => set_channels h (<[ch := {|
           channel := Some ch; pty := None; pty_config := None; shell_requested := false;
           env := ∅; subsystem := SubNone |}]> (channels h)));
    mret true.

(** [x as u16]. *)
Definition as_u16 (x : Z) : Z := x `mod` (u16_max + 1).

Definition pty_request (ch : ChannelId) (t : string) (col_width row_height pix_width pix_height : Z)
    : H unit :=
  config ← gets h_config;
  if negb (enable_pty config) then mret tt
  else
    _ ← modify (on_channel ch (set_pty_config (Some {|
           term := t; cols := as_u16 col_width; rows := as_u16 row_height;
           pixel_width := as_u16 pix_width; pixel_height := as_u16 pix_height |})));
    call RequestSuccess.

Definition resize (col_width row_height pix_width pix_height : Z) (c : PtyConfig) : PtyConfig := {|
  term := term c; cols := as_u16 col_width; rows := as_u16 row_height;
  pixel_width := as_u16 pix_width; pixel_height := as_u16 pix_height |}.

Definition window_change_request (ch : ChannelId) (col_width row_height pix_width pix_height : Z)
    : H unit :=
  modify (on_channel ch (fun c => set_pty_config
    (option_map (resize col_width row_height pix_width pix_height) (pty_config c)) c)).

(** What the client is told of a request. *)
Definition answer (r : result string unit) : H unit :=
  match r with Ok _ => call RequestSuccess | Err _ => call RequestFailure end.

Definition shell_request (ch : ChannelId) : H unit :=
  _ ← modify (on_channel ch request_shell);
  r ← attempt (start_shell ch);
  answer r.

Definition exec_request (ch : ChannelId) (data : list Z) : H unit :=
  r ← attempt (exec_command ch (from_utf8_lossy data));
  answer r.

Definition sftp_config (root : option string) (act : option SshAction) : SftpServerConfig :=
  match act with
  | Some a => {| root_dir := root; allow_read := true; allow_write := negb (read_only a);
                 max_file_size := None; cfg_allowed_paths := allowed_paths a |}
  | None => {| root_dir := root; allow_read := allow_read SftpServerConfig_default;
               allow_write := allow_write SftpServerConfig_default;
               max_file_size := max_file_size SftpServerConfig_default;
               cfg_allowed_paths := cfg_allowed_paths SftpServerConfig_default |}
  end.

Definition start_sftp (ch c : ChannelId) : H unit :=
  user ← gets local_user;
  root ← match user with Some u => get_user_home u | None => mret None end;
  sftp ← gets (fun h => Sftp.new (sftp_config root (h_action h)) (h_conn_id h)
                          (from_option id "" (ssh_user h)));
  _ ← call (ChannelSuccess ch);
  _ ← event (fun h => SessionStarted (h_conn_id h) "sftp");
  call (SpawnSftp c sftp).

Definition subsystem_request (ch : ChannelId) (name : string) : H unit :=
  if negb (bool_decide (name = "sftp")) then call RequestFailure
  else
    config ← gets h_config;
    act ← gets h_action;
    if negb (enable_sftp config) then call RequestFailure
    else if from_option (fun a => negb (allow_sftp a)) false act then call RequestFailure
    else
      taken ← gets (fun h => channels h !! ch ≫= channel);
      _ ← modify (on_channel ch take_for_sftp);
      match taken with
      | Some c => start_sftp ch c
      | None => call RequestFailure
      end.

Definition accepted_env : list string := ["TERM"; "LANG"; "LC_ALL"; "LC_CTYPE"; "TZ"; "COLORTERM"].

Definition env_request (ch : ChannelId) (name value : string) : H unit :=
  act ← gets h_action;
  if bool_decide (is_Some act) && bool_decide (name ∈ accepted_env)
  then _ ← modify (on_channel ch (set_env name value)); call RequestSuccess
  else call RequestFailure.

Definition data (ch : ChannelId) (bytes : list Z) : H unit :=
  terminal ← gets (fun h => channels h !! ch ≫= pty);
  match terminal with
  | Some p => _ ← call (SendInput p bytes); mret tt
  | None => mret tt
  end.

Definition channel_close (ch : ChannelId) : H unit :=
  modify (fun h => set_channels h (delete ch (channels h))).
Definition channel_eof (ch : ChannelId) : H unit := mret tt.

Inductive Request : Type :=
| AuthNone (user : string)
| AuthPublickeyOffered (user key : string)
| AuthPublickey (user key : string)
| ChannelOpenSession (ch : ChannelId)
| PtyReq (ch : ChannelId) (t : string) (col_width row_height pix_width pix_height : Z)
| WindowChange (ch : ChannelId) (col_width row_height pix_width pix_height : Z)
| ShellReq (ch : ChannelId)
| ExecReq (ch : ChannelId) (bytes : list Z)
| SubsystemReq (ch : ChannelId) (name : string)
| EnvReq (ch : ChannelId) (name value : string)
| Data (ch : ChannelId) (bytes : list Z)
| ChannelClose (ch : ChannelId)
| ChannelEof (ch : ChannelId).

Inductive Reply : Type := RAuth (r : AuthReply) | ROpen (b : bool) | RDone.

Definition reply_with {A} (f : A -> Reply) (m : H A) : H Reply := a ← m; mret (f a).

Definition handle (q : Request) : H Reply :=
  match q with
  | AuthNone u => reply_with RAuth (auth_none u)
  | AuthPublickeyOffered u k => reply_with RAuth (auth_publickey_offered u k)
  | AuthPublickey u k => reply_with RAuth (auth_publickey u k)
  | ChannelOpenSession ch => reply_with ROpen (channel_open_session ch)
  | PtyReq ch t c r x y => reply_with (fun _ => RDone) (pty_request ch t c r x y)
  | WindowChange ch c r x y => reply_with (fun _ => RDone) (window_change_request ch c r x y)
  | ShellReq ch => reply_with (fun _ => RDone) (shell_request ch)
  | ExecReq ch d => reply_with (fun _ => RDone) (exec_request ch d)
  | SubsystemReq ch n => reply_with (fun _ => RDone) (subsystem_request ch n)
  | EnvReq ch n v => reply_with (fun _ => RDone) (env_request ch n v)
  | Data ch d => reply_with (fun _ => RDone) (data ch d)
  | ChannelClose ch => reply_with (fun _ => RDone) (channel_close ch)
  | ChannelEof ch => reply_with (fun _ => RDone) (channel_eof ch)
  end.

(** The requests of a client in turn; an error ends the connection. *)
Fixpoint connection (qs : list Request) : H (list Reply) :=
  match qs with
  | [] => mret []
  | q :: qs => r ← handle q; rs ← connection qs; mret (r :: rs)
  end.

(** ** What a connection may do

    [passwd] is the user database and [granted lu act] says that the policies
    of the backend accept someone as the local user [lu] with the action
    [act]. *)

Section Licence.
Context (passwd : string -> option User) (granted : string -> SshAction -> Prop)
  (cfg : SshServerConfig).

Definition shell_of (lu : string) : string :=
  match passwd lu with Some u => user_shell u | None => "/bin/sh" end.
Definition home_of (lu : string) : option string := option_map user_home_dir (passwd lu).

(** A rule that lets someone in. *)
Definition grants (r : SshRule) (lu : string) (act : SshAction) : Prop :=
  act = action r /\ accept act = true /\ reject act = false /\ hold_and_delegate act = None /\
  exists u, Auth.user_mapping r u = Some lu.

Definition backend_law : forall R : Set, HCall R -> R -> Prop := fun R c =>
  match c with
  | GetSshPolicy => fun reply => forall pol r lu act,
      reply = Ok pol -> r ∈ rules pol -> grants r lu act -> granted lu act
  | GetUserByName u => fun reply => reply = passwd u
  | _ => fun _ => True
  end.

Definition u16 (x : Z) : Prop := 0 <= x <= u16_max.
Definition pty_ok (c : PtyConfig) : Prop :=
  u16 (cols c) /\ u16 (rows c) /\ u16 (pixel_width c) /\ u16 (pixel_height c).

Definition licensed : forall R : Set, HCall R -> Prop := fun R c =>
  match c with
  | OpenPty shell pc env dir => pty_ok pc /\ Forall (fun kv => kv.1 ∈ accepted_env) env /\
      exists lu act, granted lu act /\ shell = shell_of lu /\ dir = home_of lu
  | SendInput _ _ | SpawnPtyIo _ _ => exists lu act, granted lu act
  | SpawnSftp _ s => enable_sftp cfg = true /\
      exists lu act conn user, granted lu act /\ allow_sftp act = true /\
        s = Sftp.new {| root_dir := home_of lu; allow_read := true;
                        allow_write := negb (read_only act); max_file_size := None;
                        cfg_allowed_paths := allowed_paths act |} conn user
  | _ => True
  end.

Definition channel_ok (c : ChannelState) : Prop :=
  map_Forall (fun name _ => name ∈ accepted_env) (env c) /\
  forall pc, pty_config c = Some pc -> pty_ok pc.

Definition login_ok (h : SshConnectionHandler) : Prop :=
  match local_user h, h_action h with
  | Some lu, Some act => granted lu act
  | None, None => auth_completed h = false /\ channels h = ∅
  | _, _ => False
  end.

Definition handler_ok (h : SshConnectionHandler) : Prop :=
  h_config h = cfg /\ login_ok h /\ map_Forall (fun _ => channel_ok) (channels h).

Lemma new_ok addr conns id : handler_ok (new cfg addr conns id).
Proof. split; [done|]. split; [done|]. apply map_Forall_empty. Qed.

Lemma as_u16_ok x : u16 (as_u16 x).
Proof. unfold u16, as_u16. pose proof (Z.mod_pos_bound x (u16_max + 1) ltac:(done)). lia. Qed.

Lemma PtyConfig_default_ok : pty_ok PtyConfig_default.
Proof. unfold pty_ok, u16, u16_max. simpl. lia. Qed.

Section State.
Context (h : SshConnectionHandler) (Hok : handler_ok h).

Lemma on_channel_ok ch f : (forall c, channel_ok c -> channel_ok (f c)) -> handler_ok (on_channel ch f h).
Proof.
  intros Hf. destruct Hok as (Hc & Hl & Hm). split; [done|]. split.
  - unfold login_ok in *. simpl. destruct (local_user h), (h_action h); try done.
    destruct Hl as [? ->]. by rewrite alter_empty.
  - intros k c Hk. simpl in Hk. apply lookup_alter_Some in Hk as [(-> & c' & Hk & ->)|[_ Hk]];
      [apply Hf|]; by eapply Hm.
Qed.

Lemma channel_found ch c :
  channels h !! ch = Some c -> channel_ok c /\
  exists lu act, local_user h = Some lu /\ h_action h = Some act /\ granted lu act.
Proof.
  destruct Hok as (_ & Hl & Hm). intros Hch. split; [by eapply Hm|].
  unfold login_ok in Hl. destruct (local_user h) as [lu|], (h_action h) as [act|]; try done.
  - by exists lu, act.
  - destruct Hl as [_ E]. by rewrite E, lookup_empty in Hch.
Qed.

Lemma shell_config_ok ch : pty_ok (shell_config ch h).
Proof.
  unfold shell_config. destruct (channels h !! ch) as [c|] eqn:E; simpl; [|apply PtyConfig_default_ok].
  destruct (channel_found _ _ E) as [[_ Hc] _]. destruct (pty_config c) eqn:Ec; simpl;
    [by apply Hc | apply PtyConfig_default_ok].
Qed.

Lemma shell_env_ok ch : Forall (fun kv => kv.1 ∈ accepted_env) (shell_env ch h).
Proof.
  unfold shell_env. destruct (channels h !! ch) as [c|] eqn:E; simpl; [|by constructor].
  destruct (channel_found _ _ E) as [[Hc _] _]. apply Forall_forall. intros [k v] Hkv.
  apply elem_of_map_to_list in Hkv. by eapply Hc.
Qed.

Lemma logged_in lu : local_user h = Some lu ->
  exists act, h_action h = Some act /\ granted lu act.
Proof.
  destruct Hok as (_ & Hl & _). unfold login_ok in Hl. intros E. rewrite E in Hl.
  destruct (h_action h); [eauto|done].
Qed.
End State.

Abbreviation keeps m h := (hoare licensed backend_law m h (fun h' _ => handler_ok h')).

Lemma event_keeps e h : handler_ok h -> keeps (event e) h.
Proof. intros Hok. unfold event. by repeat sm_step. Qed.

Lemma answer_keeps r h : handler_ok h -> keeps (answer r) h.
Proof. intros Hok. unfold answer. destruct r; by sm_step. Qed.

Lemma open_shell_licensed ch h : handler_ok h ->
  hoare licensed backend_law (open_shell ch) h (fun h' r => h' = h /\
    forall p, r = Ok p -> exists lu act, granted lu act).
Proof.
  intros Hok. unfold open_shell, get_user_shell, get_user_home. sm_step. sm_step. sm_step. sm_step.
  - match goal with E : local_user h = Some _ |- _ => destruct (logged_in h Hok _ E) as (act & _ & Hg) end.
    repeat sm_step; try done; simpl in *; subst.
    + split; [by apply shell_config_ok|]. split; [by apply shell_env_ok|]. by repeat eexists.
    + split; [done|]. eauto.
  - by split.
Qed.

Lemma channel_ok_pty p c : channel_ok c -> channel_ok (set_pty p c).
Proof. done. Qed.

Lemma start_shell_keeps ch h : handler_ok h -> keeps (start_shell ch) h.
Proof.
  intros Hok. unfold start_shell. sm_step.
  eapply hoare_mono; [by apply open_shell_licensed|]. intros h' [p|e] [-> Hp]; [|done].
  repeat sm_step; [by eapply Hp|]. apply event_keeps, on_channel_ok; [done|apply channel_ok_pty].
Qed.

Lemma run_command_keeps ch command h : handler_ok h -> keeps (run_command ch command) h.
Proof.
  intros Hok. unfold run_command. sm_step.
  eapply hoare_mono; [by apply open_shell_licensed|]. intros h' [p|e] [-> Hp]; [|done].
  repeat sm_step; try done; [by eapply Hp..|]. apply event_keeps, on_channel_ok; [done|apply channel_ok_pty].
Qed.

Lemma refuse_keeps ch msg h : handler_ok h -> keeps (refuse ch msg) h.
Proof. intros Hok. unfold refuse. by repeat sm_step. Qed.

Lemma exec_command_keeps ch command h : handler_ok h -> keeps (exec_command ch command) h.
Proof.
  intros Hok. unfold exec_command. sm_step. sm_step.
  repeat case_match; try by first [apply run_command_keeps | apply refuse_keeps].
  sm_step. eapply hoare_mono; [by apply event_keeps|]. intros h' [] ?; [by apply refuse_keeps|done].
Qed.

(** An accepted login is one a rule of the backend's policy grants. *)
Lemma authenticate_granted ip user h :
  hoare licensed backend_law (authenticate_now ip user) h (fun h' r => h' = h /\
    forall lu act, r = Ok (Accept lu act) -> granted lu act).
Proof.
  assert (Hno : forall vpn who utc now lu act,
    authenticate (Backend := replies vpn who (Err "")) utc now ip user = Ok (Accept lu act) -> False).
  { intros vpn who utc now lu act (_ & p & pol & r & i & _ & E & _)%authenticate_accept_inv. done. }
  unfold authenticate_now. repeat sm_step; try done.
  - split; [done|]. intros lu act [= ->]. exfalso. by eapply Hno.
  - split; [done|]. intros lu act [= ->].
    match goal with E : authenticate _ _ _ _ = _ |- _ => apply authenticate_accept_inv in E
      as (_ & p & pol & rl & i & _ & Hpol & (Hi & _) & -> & Hh & _ & Hr & Ha & Hu) end.
    match goal with Hlaw : backend_law _ GetSshPolicy _ |- _ => eapply (Hlaw pol rl); [done| |] end.
    + by eapply list_elem_of_lookup_2.
    + repeat split; try done. by exists user.
  - split; [done|]. intros lu act [= ->]. exfalso. by eapply Hno.
Qed.

Lemma auth_none_keeps user h : handler_ok h -> keeps (auth_none user) h.
Proof.
  intros Hok. unfold auth_none. repeat sm_step.
  eapply hoare_mono; [apply authenticate_granted|]. intros h' [res|e] [-> Hg]; [|exact Hok].
  destruct res as [lu act|msg|url]; [|sm_step..].
  - specialize (Hg lu act eq_refl). repeat sm_step; [done|].
    destruct Hok as (Hc & Hl & Hm).
    match goal with |- hoare _ _ _ ?h' _ => assert (Hok' : handler_ok h') end.
    { destruct r as [[p|]|e]; (split; [exact Hc|split; [exact Hg|exact Hm]]). }
    eapply hoare_mono; [by apply event_keeps|]. by intros h' [] ?; repeat sm_step.
  - eapply hoare_mono; [by apply event_keeps|]. by intros h' [] ?; repeat sm_step.
  - exact Hok.
Qed.

Lemma start_sftp_keeps ch c h lu act :
  handler_ok h -> enable_sftp cfg = true -> local_user h = Some lu -> h_action h = Some act ->
  granted lu act -> allow_sftp act = true -> keeps (start_sftp ch c) h.
Proof.
  intros Hok He Hlu Hact Hg Ha. unfold start_sftp, get_user_home. do 3 sm_step. rewrite Hlu.
  repeat sm_step; try done. eapply hoare_mono; [by apply event_keeps|]. intros h' [] ?; [|done].
  sm_step; [|done]. split; [done|]. exists lu, act. repeat eexists; [done..|].
  match goal with E : backend_law _ (GetUserByName _) _ |- _ => simpl in E; rewrite E end.
  by rewrite Hact.
Qed.

Lemma subsystem_request_keeps ch name h : handler_ok h -> keeps (subsystem_request ch name) h.
Proof.
  intros Hok. assert (Hc : h_config h = cfg) by apply Hok.
  unfold subsystem_request. repeat sm_step; try done.
  - destruct (channels h !! ch) as [c|] eqn:E; [|done].
    destruct (channel_found h Hok _ _ E) as (_ & lu & act & Hlu & Hact & Hg).
    eapply (start_sftp_keeps _ _ _ lu act); [by apply on_channel_ok|..]; try done.
    + rewrite <-Hc. by apply negb_false_iff.
    + match goal with Hn : from_option _ _ (h_action h) = false |- _ =>
        rewrite Hact in Hn; by apply negb_false_iff in Hn end.
  - by apply on_channel_ok.
Qed.

Lemma channel_open_session_keeps ch h : handler_ok h -> keeps (channel_open_session ch) h.
Proof.
  intros Hok. unfold channel_open_session. repeat sm_step; [done|].
  destruct Hok as (Hc & Hl & Hm). split; [done|]. split.
  - unfold login_ok in *. simpl. destruct (local_user h), (h_action h); try done.
    destruct Hl as [Hauth _]. match goal with E : negb _ = false |- _ => by rewrite Hauth in E end.
  - apply map_Forall_insert_2; [|done]. split; [apply map_Forall_empty|done].
Qed.

Lemma env_request_keeps ch name value h : handler_ok h -> keeps (env_request ch name value) h.
Proof.
  intros Hok. unfold env_request. repeat sm_step; try done; apply on_channel_ok; try done.
  intros c [He Hp]. split; [|done]. apply map_Forall_insert_2; [|done].
  reflect_bools. done.
Qed.

Lemma data_keeps ch bytes h : handler_ok h -> keeps (data ch bytes) h.
Proof.
  intros Hok. unfold data. repeat sm_step; try done.
  match goal with E : _ ≫= pty = Some _ |- _ => apply bind_Some in E as (c & Hc & _) end.
  destruct (channel_found h Hok _ _ Hc) as (_ & lu & act & _ & _ & Hg). by exists lu, act.
Qed.

Lemma channel_close_keeps ch h : handler_ok h -> keeps (channel_close ch) h.
Proof.
  intros (Hc & Hl & Hm). unfold channel_close. sm_step. split; [done|]. split.
  - unfold login_ok in *. simpl. destruct (local_user h), (h_action h); try done.
    destruct Hl as [? ->]. by rewrite delete_empty.
  - by apply map_Forall_delete.
Qed.

Lemma reply_with_keeps {A} (f : A -> Reply) (m : H A) h : keeps m h -> keeps (reply_with f m) h.
Proof.
  intros Hm. unfold reply_with. sm_step. eapply hoare_mono; [exact Hm|]. by intros h' [].
Qed.

Lemma pty_request_keeps ch t c r x y h : handler_ok h -> keeps (pty_request ch t c r x y) h.
Proof.
  intros Hok. unfold pty_request. repeat sm_step; try done; apply on_channel_ok; try done.
  intros cs [He _]. split; [done|]. intros pc [= <-]. repeat split; apply as_u16_ok.
Qed.

Lemma window_change_keeps ch c r x y h : handler_ok h -> keeps (window_change_request ch c r x y) h.
Proof.
  intros Hok. unfold window_change_request. sm_step. apply on_channel_ok; [done|].
  intros cs [He Hp]. split; [done|]. simpl. intros pc. destruct (pty_config cs); [|done].
  intros [= <-]. repeat split; apply as_u16_ok.
Qed.

Lemma shell_request_keeps ch h : handler_ok h -> keeps (shell_request ch) h.
Proof.
  intros Hok. unfold shell_request. repeat sm_step.
  eapply hoare_mono; [by apply start_shell_keeps, on_channel_ok|].
  intros h' r Hh'. by apply answer_keeps.
Qed.

Lemma exec_request_keeps ch bytes h : handler_ok h -> keeps (exec_request ch bytes) h.
Proof.
  intros Hok. unfold exec_request. repeat sm_step. eapply hoare_mono; [by apply exec_command_keeps|].
  intros h' r Hh'. by apply answer_keeps.
Qed.

Lemma handle_keeps q h : handler_ok h -> keeps (handle q) h.
Proof.
  intros Hok. destruct q; cbn [handle]; apply reply_with_keeps;
    auto using auth_none_keeps, channel_open_session_keeps, pty_request_keeps, window_change_keeps,
      shell_request_keeps, exec_request_keeps, subsystem_request_keeps, env_request_keeps,
      data_keeps, channel_close_keeps; by sm_step.
Qed.

Lemma connection_keeps qs : forall h, handler_ok h -> keeps (connection qs) h.
Proof.
  induction qs as [|q qs IH]; intros h Hok; cbn [connection]; [by sm_step|].
  sm_step. eapply hoare_mono; [by apply handle_keeps|]. intros h' [r|e] Hh'; [|done].
  sm_step. eapply hoare_mono; [by apply IH|]. by intros h'' [].
Qed.

(** Claim C2: whatever a client sends and however the system answers, a
    connection opens a terminal, types into it or starts SFTP only for a local
    user and an action that some rule of the backend's policy grants: the
    shell and home directory are that user's, the environment holds only
    accepted names, and SFTP is enabled, allowed by the action and confined to
    the home directory and the paths of the action. *)
Theorem connection_licensed addr conns id qs :
  hoare licensed backend_law (connection qs) (new cfg addr conns id)
    (fun h' _ => handler_ok h').
Proof. apply connection_keeps, new_ok. Qed.
End Licence.

(** ** Commands *)

(** What an exec request may do when the filter gives [ok] of the command. *)
Definition exec_calls (okay : Prop) (command : list Z) : forall R : Set, HCall R -> Prop := fun R c =>
  match c with
  | OpenPty _ _ _ _ | SpawnPtyIo _ _ | RequestFailure => okay
  | SendInput _ d => okay /\ d = command ++ newline
  | ExtendedData _ code _ => ~ okay /\ code = 1
  | ExitStatusRequest _ code => ~ okay /\ code = 1
  | SendEof _ | SendClose _ => ~ okay
  | OnSshEvent (SessionStarted _ _) => okay
  | OnSshEvent (CommandBlocked _ _ _) => ~ okay
  | GetUserByName _ => okay
  | RequestSuccess => True
  | _ => False
  end.

Lemma open_shell_exec okay command L ch h : okay ->
  hoare (exec_calls okay command) L (open_shell ch) h (fun h' _ => h' = h).
Proof. intros Ho. unfold open_shell, get_user_shell, get_user_home. by repeat sm_step. Qed.

Lemma run_command_exec okay command L ch h : okay ->
  hoare (exec_calls okay command) L (run_command ch command) h (fun _ _ => True).
Proof.
  intros Ho. unfold run_command, event. sm_step.
  eapply hoare_mono; [by apply open_shell_exec|]. intros h' [p|e] ->; [|done].
  by repeat sm_step.
Qed.

Lemma refuse_exec (okay : Prop) command L ch msg h : ~ okay ->
  hoare (exec_calls okay command) L (refuse ch msg) h (fun h' r => h' = h /\ r = Ok tt).
Proof. intros Ho. unfold refuse. repeat sm_step; try done. by destruct r2. Qed.


(** ** Shells *)

(** the command filter guards exec requests only: once a shell was
    requested on a channel, whatever the client sends on it is typed into the
    login shell unread, also under an action that blocks every command. *)
Theorem shell_unfiltered (answer : forall R : Set, HCall R -> R) h ch c lu act p bytes :
  channels h !! ch = Some c -> local_user h = Some lu -> h_action h = Some act ->
  (forall shell cfg env dir, answer _ (OpenPty shell cfg env dir) = Ok p) ->
  exists shell cfg env dir,
    calls answer (connection [ShellReq ch; Data ch bytes]) h =
    [existT _ (GetUserByName lu); existT _ (GetUserByName lu);
     existT _ (OpenPty shell cfg env dir); existT _ (SpawnPtyIo ch p);
     existT _ (OnSshEvent (SessionStarted (h_conn_id h) "shell")); existT _ RequestSuccess;
     existT _ (SendInput p bytes)].
Proof.
  intros Hch Hlu Hact Hopen. unfold calls. cbn [connection handle].
  unfold reply_with, shell_request, start_shell, open_shell, get_user_shell, get_user_home, data,
    event, gets, modify, call, lift, or_throw, attempt, mbind, SM_bind, mret, SM_ret.
  cbn. rewrite Hlu. cbn. rewrite Hopen. cbn. rewrite lookup_alter_eq. cbn. rewrite lookup_alter_eq, Hch. cbn.
  by repeat eexists.
Qed.
End Handler.

(** ** Witnesses *)

Definition demo_action : SshAction := action_verdict true false None.
Definition demo_channel : ChannelState := {|
  channel := Some 0; pty := None; pty_config := None; shell_requested := false; env := ∅;
  subsystem := SubNone |}.
Definition demo_handler : SshConnectionHandler :=
  set_channels (Handler.grant "admin" demo_action
    (new SshServerConfig_default {| sa_ip := V4 1; sa_port := 2000 |} ∅ "conn-1"))
    {[ 0 := demo_channel ]}.

(** A system where everything works, and the backend knows [demo_backend]. *)
Definition demo_answer (R : Set) (c : HCall R) : R :=
  match c with
  | IsOmniedgeIp _ => true
  | WhoIs _ => Ok (Some demo_peer)
  | GetSshPolicy => Ok {| version := 1; updated_at := 0; rules := [demo_rule] |}
  | OnSshEvent _ => tt
  | UtcReadings => fun _ => 0
  | UtcNow => 0
  | GetUserByName u => Some {| user_shell := "/bin/zsh"; user_home_dir := "/home/" +:+ u |}
  | OpenPty _ _ _ _ => Ok 7
  | SendInput _ _ => Ok tt
  | SpawnPtyIo _ _ | SpawnSftp _ _ | ExtendedData _ _ _ | ExitStatusRequest _ _
  | SendEof _ | SendClose _ | RequestSuccess | RequestFailure | ChannelSuccess _ => tt
  end.

Example demo_refused :
  calls demo_answer (@exec_request literal_engine 0 (string_bytes "shutdown -h now")) demo_handler =
  [existT _ (OnSshEvent (CommandBlocked "conn-1" "shutdown -h now"
     "Command matches blocked pattern: ^shutdown"));
   existT _ (ExtendedData 0 1 ("Command blocked: Command matches blocked pattern: ^shutdown" +:+ crlf));
   existT _ (ExitStatusRequest 0 1); existT _ (SendEof 0); existT _ (SendClose 0);
   existT _ RequestSuccess].
Proof. vm_compute. reflexivity. Qed.


Lemma shell_unfiltered_witness :
  exists shell cfg env dir,
    calls demo_answer (@connection literal_engine epoch_calendar
      [ShellReq 0; Data 0 (string_bytes "shutdown")]) demo_handler =
    [existT _ (GetUserByName "admin"); existT _ (GetUserByName "admin");
     existT _ (OpenPty shell cfg env dir); existT _ (SpawnPtyIo 0 7);
     existT _ (OnSshEvent (SessionStarted "conn-1" "shell")); existT _ RequestSuccess;
     existT _ (SendInput 7 (string_bytes "shutdown"))].
Proof.
  apply (@shell_unfiltered literal_engine epoch_calendar demo_answer demo_handler 0 demo_channel
           "admin" demo_action 7 (string_bytes "shutdown")); reflexivity.
Defined.

(** A login and an SFTP session; the channel is taken once. *)
Example demo_connection :
  calls demo_answer (@connection literal_engine epoch_calendar
     [AuthNone "root"; ChannelOpenSession 3; SubsystemReq 3 "sftp"; SubsystemReq 3 "sftp"])
     (new SshServerConfig_default {| sa_ip := V4 1; sa_port := 2000 |} ∅ "conn-1") =
  [existT _ (IsOmniedgeIp (V4 1)); existT _ (WhoIs (V4 1)); existT _ GetSshPolicy;
   existT _ UtcReadings; existT _ UtcNow; existT _ (WhoIs (V4 1));
   existT _ (OnSshEvent (ConnectionAuthenticated "conn-1" "root" "admin"));
   existT _ (GetUserByName "admin"); existT _ (ChannelSuccess 3);
   existT _ (OnSshEvent (SessionStarted "conn-1" "sftp"));
   existT _ (SpawnSftp 3 (Sftp.new {| root_dir := Some "/home/admin"; allow_read := true;
     allow_write := true; max_file_size := None; cfg_allowed_paths := None |} "conn-1" "root"));
   existT _ RequestFailure].
Proof. vm_compute. reflexivity. Qed.
