(* ===== verification/SshServer.v ===== *)
(** * SSH server (omni-ssh/src/server/mod.rs)

    The server that accepts connections: each is handled by a task of its own,
    which asks the rate limiter all tasks share, checks that the address is
    one of the VPN and runs the protocol with a new handler.  Tasks are
    programs, the server is a step relation that interleaves them. *)

From Stdlib Require Import Ascii.
From S2P Require Import Prelude RustStr Net SshTypes RateLimit Effects Handler.

Open Scope string_scope.
Open Scope list_scope.
Open Scope Z_scope.

(** ** The text of a duration: [{:?}] of [Duration] *)

(** The digits of a fraction below [10 * divisor], without trailing zeros. *)
Fixpoint fraction_digits (n : nat) (fraction divisor : Z) : string :=
  match n with
  | O => ""
  | S n => if 0 <? fraction
           then show_uint (fraction / divisor) +:+
                fraction_digits n (fraction `mod` divisor) (divisor / 10)
           else ""
  end.

Definition fmt_decimal (int fraction divisor : Z) (unit : string) : string :=
  show_uint int +:+
  (if 0 <? fraction then "." +:+ fraction_digits 9 fraction divisor else "") +:+ unit.

Definition micro : string := String "194" (String "181" "s").

Definition show_duration (d : Z) : string :=
  let secs := d / nanos_per_sec in
  let nanos := d `mod` nanos_per_sec in
  if 0 <? secs then fmt_decimal secs nanos 100000000 "s"
  else if 1000000 <=? nanos then fmt_decimal (nanos / 1000000) (nanos `mod` 1000000) 100000 "ms"
  else if 1000 <=? nanos then fmt_decimal (nanos / 1000) (nanos `mod` 1000) 100 micro
  else fmt_decimal nanos 0 1 "ns".

Definition as_secs (d : Z) : Z := d / nanos_per_sec.

Example show_durations :
  map show_duration [from_secs 59; 2500000000; 1000000; 1050; 7; 59000000001] =
  ["59s"; "2.5s"; "1ms"; "1.05" +:+ micro; "7ns"; "59.000000001s"].
Proof. reflexivity. Qed.

(** ** The task of one connection *)

Record SshServerRef : Type := {
  r_config : SshServerConfig; r_active_conns : gmap string SshConnection }.

(** How the protocol ended: with its result, or by the handshake timeout. *)
Inductive Outcome : Type := Completed (r : result string unit) | TimedOut.

Inductive SCall : Set -> Set :=
| LocalAddr : SCall (result string SocketAddr)
| Notify (e : SshEvent) : SCall unit
| CheckAllowed (ip : IpAddr) : SCall RateLimitResult
| IsVpnIp (ip : IpAddr) : SCall bool
| NewUuid : SCall string
| RunStream (timeout : Z) (handler : SshConnectionHandler) : SCall Outcome.

Abbreviation T := (SM SCall SshServerRef string) (only parsing).

(** Telling the backend why, and failing. *)
Definition turn_away {A} (peer : SocketAddr) (reason error : string) : T A :=
  _ ← call (Notify (ConnectionRejected peer reason)); throw error.

Definition rate_check (peer : SocketAddr) : T unit :=
  verdict ← call (CheckAllowed (sa_ip peer));
  match verdict with
  | RateLimit.Allowed => mret tt
  | RateLimited retry_after =>
      turn_away peer ("Rate limited, retry after " +:+ show_duration retry_after)
        ("Rate limited for " +:+ show_ip (sa_ip peer) +:+ ", retry after " +:+
         show_duration retry_after)
  | Banned remaining =>
      turn_away peer ("IP banned, " +:+ show_uint (as_secs remaining) +:+ " seconds remaining")
        ("IP " +:+ show_ip (sa_ip peer) +:+ " banned for " +:+ show_uint (as_secs remaining) +:+
         " more seconds")
  | TooManyConnections =>
      turn_away peer "Too many concurrent connections" "Too many concurrent connections"
  end.

(** A new [OmniEdgeSshServer] with an empty registry makes the handler. *)
Definition make_handler (peer : SocketAddr) : T SshConnectionHandler :=
  id ← call NewUuid; gets (fun s => Handler.new (r_config s) peer ∅ id).

Definition handle_connection (peer : SocketAddr) : T unit :=
  local ← call LocalAddr;
  local_addr ← lift local;
  _ ← call (Notify (ConnectionAttempt peer local_addr));
  _ ← rate_check peer;
  vpn ← call (IsVpnIp (sa_ip peer));
  if negb vpn
  then turn_away peer "Connection not from OmniEdge network" "Connection not from OmniEdge network"
  else
    handler ← make_handler peer;
    timeout ← gets (fun s => handshake_timeout (r_config s));
    ended ← call (RunStream timeout handler);
    match ended with
    | Completed r => lift r
    | TimedOut =>
        turn_away peer "SSH handshake timeout"
          ("SSH handshake timeout from " +:+ show_socket_addr peer +:+ " (possible slowloris attack)")
    end.

(** ** The server *)

Definition TaskId : Set := Z.
Definition Task : Type := prog SCall (SshServerRef * result string unit).

Record SshServer : Type := {
  s_config : SshServerConfig; s_active_conns : gmap string SshConnection;
  rate_limiter : ConnectionRateLimiter; tasks : gmap TaskId Task }.

(** [host_keys]: how many the backend has. *)
Definition SshServer_new (config : SshServerConfig) (host_keys : nat) : result string SshServer :=
  if (host_keys =? 0)%nat then Err "No host keys configured"
  else Ok {| s_config := config; s_active_conns := ∅;
             rate_limiter := RateLimit.new (cfg_rate_limit_per_ip config) (cfg_max_failed_auth config)
                               (cfg_ban_duration config) (cfg_max_concurrent config);
             tasks := ∅ |}.

Definition clone_for_spawn (s : SshServer) : SshServerRef :=
  {| r_config := s_config s; r_active_conns := s_active_conns s |}.

Definition num_active_conns (s : SshServer) : nat := size (s_active_conns s).

Definition set_tasks (s : SshServer) t : SshServer := {|
  s_config := s_config s; s_active_conns := s_active_conns s;
  rate_limiter := rate_limiter s; tasks := t |}.
Definition set_limiter (s : SshServer) rl : SshServer := {|
  s_config := s_config s; s_active_conns := s_active_conns s; rate_limiter := rl; tasks := tasks s |}.

Definition terminate (c : SshConnection) : SshConnection := {|
  sc_id := sc_id c; sc_info := sc_info c; sc_action := sc_action c; sc_valid := false |}.

(** The connections terminated, and the server after. *)
Definition shutdown (s : SshServer) : list SshConnection * SshServer :=
  (map (fun kv => terminate kv.2) (map_to_list (s_active_conns s)),
   {| s_config := s_config s; s_active_conns := ∅; rate_limiter := rate_limiter s; tasks := tasks s |}).

Inductive Label : Type :=
| LAccept (t : TaskId) (peer : SocketAddr)
| LCheck (t : TaskId) (ip : IpAddr) (r : RateLimitResult)
| LCall (t : TaskId)
| LShutdown (terminated : list SshConnection).

(** [start] spawns a task per connection; a task moves one call at a time,
    and only the rate limiter's answer depends on the server. *)
Inductive server_step : SshServer -> Label -> SshServer -> Prop :=
| Step_accept s t peer :
    tasks s !! t = None ->
    server_step s (LAccept t peer)
      (set_tasks s (<[t := handle_connection peer (clone_for_spawn s)]> (tasks s)))
| Step_check s t ip k clk r rl :
    tasks s !! t = Some (Vis (CheckAllowed ip) k) ->
    check_allowed clk (rate_limiter s) ip = (r, rl) ->
    server_step s (LCheck t ip r) (set_limiter (set_tasks s (<[t := k r]> (tasks s))) rl)
| Step_call s t (R : Set) (c : SCall R) k r :
    tasks s !! t = Some (Vis c k) ->
    (forall ip, existT R c <> existT RateLimitResult (CheckAllowed ip)) ->
    server_step s (LCall t) (set_tasks s (<[t := k r]> (tasks s)))
| Step_shutdown s :
    server_step s (LShutdown (shutdown s).1) (shutdown s).2.

(** ** Admission *)

Definition is_run (c : Call SCall) : bool :=
  match projT2 c with RunStream _ _ => true | _ => false end.
Definition is_rejection (c : Call SCall) : bool :=
  match projT2 c with Notify (ConnectionRejected _ _) => true | _ => false end.

(** The connection passes the rate limiter and comes from the VPN. *)
Definition admitted (answer : forall R : Set, SCall R -> R) (peer : SocketAddr) : Prop :=
  is_Some (ok (answer _ LocalAddr)) /\
  answer _ (CheckAllowed (sa_ip peer)) = RateLimit.Allowed /\
  answer _ (IsVpnIp (sa_ip peer)) = true.

(** The protocol runs exactly for the connections the rate limiter
    allows and whose address is one of the VPN; it runs once, with a new
    handler that nobody has logged in to and the configured timeout; and of
    the others, and those that time out, the backend is told exactly once. *)
Theorem connection_gate answer peer s :
  let log := calls answer (handle_connection peer) s in
  let run := existT _ (RunStream (handshake_timeout (r_config s))
               (Handler.new (r_config s) peer ∅ (answer _ NewUuid))) in
  (admitted answer peer ->
     List.filter is_run log = [run] /\
     returns answer (handle_connection peer) s =
       match answer _ (projT2 run) with
       | Completed r => r
       | TimedOut => Err ("SSH handshake timeout from " +:+ show_socket_addr peer +:+
                          " (possible slowloris attack)")
       end /\
     length (List.filter is_rejection log) =
       match answer _ (projT2 run) with Completed _ => 0%nat | TimedOut => 1%nat end) /\
  (~ admitted answer peer ->
     List.filter is_run log = [] /\ is_ok (returns answer (handle_connection peer) s) = false /\
     length (List.filter is_rejection log) = if is_ok (answer _ LocalAddr) then 1%nat else 0%nat).
Proof.
  unfold admitted, calls, returns, handle_connection, rate_check, make_handler, turn_away, throw, gets,
    call, lift, mbind, SM_bind, mret, SM_ret. simpl.
  destruct (answer _ LocalAddr) as [local|e] eqn:El; simpl.
  2:{ split; [intros [[? [=]] _]|]. done. }
  destruct (answer _ (CheckAllowed (sa_ip peer))) eqn:Ec; simpl;
    [|by split; [intros (_ & [=] & _)|]..].
  destruct (answer _ (IsVpnIp (sa_ip peer))) eqn:Ev; simpl; [|by split; [intros (_ & _ & [=])|]].
  split; [intros _|by intros []]. unfold throw.
  by destruct (answer _ (RunStream _ _)) as [[[]|e]|].
Qed.

(** ** The server over any interleaving *)

(** No failure, no ban, and every permit in the semaphore. *)
Definition unbanned (rl : ConnectionRateLimiter) : Prop :=
  failed_auth_counts rl = ∅ /\ banned_ips rl = ∅ /\
  concurrent_semaphore rl = max_concurrent rl.

Definition plain_answer (r : RateLimitResult) : Prop :=
  r = RateLimit.Allowed \/ exists d, r = RateLimited d.

Lemma check_allowed_unbanned clk rl ip :
  unbanned rl -> 0 < max_concurrent rl ->
  plain_answer (check_allowed clk rl ip).1 /\ unbanned (check_allowed clk rl ip).2 /\
  max_concurrent (check_allowed clk rl ip).2 = max_concurrent rl.
Proof.
  intros (Hf & Hb & Hs) Hm. unfold check_allowed, check_ban. rewrite Hb, lookup_empty.
  unfold plain_answer, unbanned. destruct (_ <=? _); simpl; [by split; [right; eexists|]|].
  replace (concurrent_semaphore rl =? 0) with false by (symmetry; apply Z.eqb_neq; lia).
  simpl. by split; [left|].
Qed.

Definition server_ok (s : SshServer) : Prop :=
  unbanned (rate_limiter s) /\ 0 < max_concurrent (rate_limiter s) /\ s_active_conns s = ∅.

Definition label_ok (l : Label) : Prop :=
  match l with
  | LCheck _ _ r => plain_answer r
  | LShutdown cs => cs = []
  | _ => True
  end.

Lemma server_step_ok s l s' : server_ok s -> server_step s l s' -> server_ok s' /\ label_ok l.
Proof.
  intros (Hu & Hm & Ha). destruct 1 as [|s t ip k clk r rl Ht Hc| |]; simpl; try done.
  - destruct (check_allowed_unbanned clk (rate_limiter s) ip Hu Hm) as (Hr & Hu' & Hm').
    rewrite Hc in Hr, Hu', Hm'. simpl in *. split; [|done]. unfold server_ok. simpl.
    split; [done|]. split; [lia|done].
  - rewrite Ha. done.
Qed.

Lemma server_run_ok s ls s' :
  run server_step s ls s' -> server_ok s -> server_ok s' /\ Forall label_ok ls.
Proof.
  induction 1 as [|s l s1 ls s2 Hstep _ IH]; intros Hok; [by split|].
  destruct (server_step_ok _ _ _ Hok Hstep) as [Hok1 Hl]. destruct (IH Hok1). by auto.
Qed.

(** The server limits the rate of connections and nothing else: no
    task reports failed logins or takes a permit, so over any interleaving of
    connections nobody is ever banned, no connection is refused as one too
    many, and the server's own registry of connections stays empty, so that
    [shutdown] terminates none. *)
Theorem server_never_bans config host_keys s ls s' :
  SshServer_new config host_keys = Ok s -> 0 < cfg_max_concurrent config ->
  run server_step s ls s' ->
  (forall t ip r, LCheck t ip r ∈ ls -> plain_answer r) /\
  (forall cs, LShutdown cs ∈ ls -> cs = []) /\
  banned_ips (rate_limiter s') = ∅ /\ num_active_conns s' = 0%nat.
Proof.
  intros Hnew Hmax Hrun.
  assert (Hok : server_ok s).
  { unfold SshServer_new in Hnew. destruct (host_keys =? 0)%nat; [done|]. by injection Hnew as <-. }
  destruct (server_run_ok _ _ _ Hrun Hok) as [((_ & Hb & _) & _ & Ha) Hls].
  rewrite Forall_forall in Hls. split; [|split; [|split; [done|]]].
  - intros t ip r Hin. apply (Hls _ Hin).
  - intros cs Hin. apply (Hls _ Hin).
  - unfold num_active_conns. by rewrite Ha.
Qed.

(** ** Witnesses *)

Definition demo_peer_addr : SocketAddr := {| sa_ip := V4 1684300807; sa_port := 40022 |}.

Definition demo_server : SshServer := {|
  s_config := SshServerConfig_default; s_active_conns := ∅;
  rate_limiter := RateLimit.new 10 5 (from_secs 900) 100; tasks := ∅ |}.

(** Accepting one connection and moving its task to the rate limiter. *)
Lemma server_never_bans_witness :
  exists ls s', run server_step demo_server ls s' /\ length ls = 4%nat /\
    (forall t ip r, LCheck t ip r ∈ ls -> plain_answer r) /\ num_active_conns s' = 0%nat.
Proof.
  assert (Hrun : exists s', run server_step demo_server
    [LAccept 0 demo_peer_addr; LCall 0; LCall 0; LCheck 0 (sa_ip demo_peer_addr) RateLimit.Allowed] s').
  { eexists.
    eapply run_cons; [by apply (Step_accept demo_server 0 demo_peer_addr)|].
    eapply run_cons; [eapply (Step_call _ 0 _ LocalAddr _ (Ok demo_peer_addr)); [apply lookup_insert_eq|done]|].
    eapply run_cons; [eapply (Step_call _ 0 _ _ _ tt); [apply lookup_insert_eq|done]|].
    eapply run_cons; [eapply (Step_check _ 0 _ _ (fun _ => 0)); [apply lookup_insert_eq|reflexivity]|].
    apply run_nil. }
  destruct Hrun as [s' Hrun]. eexists _, s'. split; [exact Hrun|]. split; [done|].
  edestruct (server_never_bans SshServerConfig_default 1 demo_server) as (H1 & _ & _ & H2);
    [reflexivity|done|exact Hrun|]. by split.
Defined.
