(* ===== verification/Forwarding.v ===== *)
(** * Port forwarding (omni-ssh/src/forwarding/mod.rs)

    The three kinds of forward with their command-line syntax, and the
    [Forwarder]: the forwards that run, their statistics and what it asks of
    the tunnel, as a machine whose steps are the calls and the moves of the
    tasks it spawns. *)

From Stdlib Require Import Ascii.
From S2P Require Import Prelude RustStr Net.

Open Scope string_scope.
Open Scope list_scope.
Open Scope Z_scope.

(** ** Forwards and their syntax *)

Inductive ParseError : Type :=
| ParseInt
| AddrParse
| InvalidLocalFormat (s : string)
| InvalidRemoteFormat (s : string).

Record LocalForward : Type := { lf_bind_addr : SocketAddr; remote_host : string; remote_port : Z }.
Record RemoteForward : Type := { rf_bind_addr : SocketAddr; local_host : string; local_port : Z }.
Record DynamicForward : Type := { df_bind_addr : SocketAddr }.

(** [s.parse::<u16>()?] and [s.parse::<IpAddr>()?]. *)
Definition parse_port (s : string) : result ParseError Z := ok_or ParseInt (parse_uint u16_max s).
Definition parse_addr (s : string) : result ParseError IpAddr := ok_or AddrParse (parse_ip s).

Definition LocalForward_parse (s : string) : result ParseError LocalForward :=
  match split ":" s with
  | [p; host; rp] =>
      port ← parse_port p;
      rport ← parse_port rp;
      Ok {| lf_bind_addr := {| sa_ip := localhost_v4; sa_port := port |};
            remote_host := host; remote_port := rport |}
  | [a; p; host; rp] =>
      addr ← parse_addr a;
      port ← parse_port p;
      rport ← parse_port rp;
      Ok {| lf_bind_addr := {| sa_ip := addr; sa_port := port |};
            remote_host := host; remote_port := rport |}
  | _ => Err (InvalidLocalFormat s)
  end.

Definition RemoteForward_parse (s : string) : result ParseError RemoteForward :=
  match split ":" s with
  | [p; host; lp] =>
      port ← parse_port p;
      lport ← parse_port lp;
      Ok {| rf_bind_addr := {| sa_ip := unspecified_v4; sa_port := port |};
            local_host := host; local_port := lport |}
  | [a; p; host; lp] =>
      addr ← parse_addr a;
      port ← parse_port p;
      lport ← parse_port lp;
      Ok {| rf_bind_addr := {| sa_ip := addr; sa_port := port |};
            local_host := host; local_port := lport |}
  | _ => Err (InvalidRemoteFormat s)
  end.

Definition DynamicForward_parse (s : string) : result ParseError DynamicForward :=
  match rfind_char ":" s with
  | Some pos =>
      addr ← parse_addr (take_str pos s);
      port ← parse_port (drop_str (S pos) s);
      Ok {| df_bind_addr := {| sa_ip := addr; sa_port := port |} |}
  | None =>
      port ← parse_port s;
      Ok {| df_bind_addr := {| sa_ip := localhost_v4; sa_port := port |} |}
  end.

Example parse_examples :
  LocalForward_parse "8080:localhost:80" = Ok {| lf_bind_addr := {| sa_ip := localhost_v4; sa_port := 8080 |};
    remote_host := "localhost"; remote_port := 80 |} /\
  LocalForward_parse "::1:8080:localhost:80" = Err (InvalidLocalFormat "::1:8080:localhost:80") /\
  DynamicForward_parse "::1:1080" = Ok {| df_bind_addr := {| sa_ip := V6 1; sa_port := 1080 |} |} /\
  DynamicForward_parse "[::1]:1080" = Err AddrParse.
Proof. by vm_compute. Qed.

(** The text of a forward, with the address or without. *)
Definition addr_text (a : IpAddr) (p : Z) (host : string) (hp : Z) : string :=
  join ":" [show_ip a; show_uint p; host; show_uint hp].
Definition port_text (p : Z) (host : string) (hp : Z) : string :=
  join ":" [show_uint p; host; show_uint hp].

Definition is_port (p : Z) : Prop := 0 <= p <= u16_max.
Definition is_v4 (a : IpAddr) : Prop := exists z, 0 <= z < 2 ^ 32 /\ a = V4 z.

Lemma parse_show_port p : is_port p -> parse_port (show_uint p) = Ok p.
Proof. intros Hp. unfold parse_port. by rewrite parse_show_uint. Qed.

Lemma parse_show_addr a : is_v4 a -> parse_addr (show_ip a) = Ok a.
Proof. intros (z & Hz & ->). unfold parse_addr, show_ip. by rewrite parse_show_ipv4. Qed.

Lemma split_addr_text a p host hp :
  is_v4 a -> no_char ":" host -> split ":" (addr_text a p host hp) = [show_ip a; show_uint p; host; show_uint hp].
Proof.
  intros (z & _ & ->) Hh. apply split_join; [done|].
  repeat constructor; try done; try by apply show_uint_no_char. by apply show_ipv4_no_char.
Qed.

Lemma split_port_text p host hp :
  no_char ":" host -> split ":" (port_text p host hp) = [show_uint p; host; show_uint hp].
Proof. intros Hh. apply split_join; [done|]. repeat constructor; try done; by apply show_uint_no_char. Qed.

Lemma local_parse_text a p host hp :
  is_v4 a -> is_port p -> no_char ":" host -> is_port hp ->
  LocalForward_parse (addr_text a p host hp) =
    Ok {| lf_bind_addr := {| sa_ip := a; sa_port := p |}; remote_host := host; remote_port := hp |} /\
  LocalForward_parse (port_text p host hp) =
    Ok {| lf_bind_addr := {| sa_ip := localhost_v4; sa_port := p |}; remote_host := host; remote_port := hp |}.
Proof.
  intros Ha Hp Hh Hhp. unfold LocalForward_parse. rewrite split_addr_text, split_port_text by done.
  by rewrite parse_show_addr, !parse_show_port.
Qed.

Lemma remote_parse_text a p host hp :
  is_v4 a -> is_port p -> no_char ":" host -> is_port hp ->
  RemoteForward_parse (addr_text a p host hp) =
    Ok {| rf_bind_addr := {| sa_ip := a; sa_port := p |}; local_host := host; local_port := hp |} /\
  RemoteForward_parse (port_text p host hp) =
    Ok {| rf_bind_addr := {| sa_ip := unspecified_v4; sa_port := p |}; local_host := host; local_port := hp |}.
Proof.
  intros Ha Hp Hh Hhp. unfold RemoteForward_parse. rewrite split_addr_text, split_port_text by done.
  by rewrite parse_show_addr, !parse_show_port.
Qed.

Lemma parse_port_ok s p : parse_port s = Ok p -> is_port p.
Proof. unfold parse_port. intros H%ok_or_Ok. apply parse_uint_bound in H; [done|]. unfold u16_max. lia. Qed.

Lemma split_pieces c s ws w : split c s = ws -> w ∈ ws -> no_char c w.
Proof. intros <- Hw. pose proof (split_no_char_all c s) as H. by eapply Forall_forall in H. Qed.

(** What local forwards can name: both ports fit 16 bits, the bind
    address is IPv4 and the host has no colon, so IPv6 cannot be written. *)
Theorem local_parse_range s f :
  LocalForward_parse s = Ok f ->
  (exists z, sa_ip (lf_bind_addr f) = V4 z) /\ is_port (sa_port (lf_bind_addr f)) /\
  is_port (remote_port f) /\ no_char ":" (remote_host f).
Proof.
  unfold LocalForward_parse.
  destruct (split ":" s) as [|x1 [|x2 [|x3 [|x4 [|]]]]] eqn:E; try done.
  - destruct (parse_port x1) as [p|] eqn:E1; [|done]. destruct (parse_port x3) as [rp|] eqn:E3; [|done].
    intros [= <-]. simpl. repeat split; try (by eapply parse_port_ok); [by eexists|].
    eapply split_pieces; [exact E|]. set_solver.
  - destruct (parse_addr x1) as [a|] eqn:Ea; [|done]. destruct (parse_port x2) as [p|] eqn:E1; [|done].
    destruct (parse_port x4) as [rp|] eqn:E3; [|done]. intros [= <-]. simpl.
    repeat split; try (by eapply parse_port_ok).
    + apply ok_or_Ok in Ea. apply parse_ip_no_colon in Ea; [done|]. eapply split_pieces; [exact E|set_solver].
    + eapply split_pieces; [exact E|]. set_solver.
Qed.

Lemma rfind_char_last c s t : no_char c t -> rfind_char c (s +:+ String c t) = Some (String.length s).
Proof.
  intros Ht. induction s as [|a s IH].
  - rewrite append_nil_l. simpl. rewrite rfind_no_char by done. by rewrite bool_decide_true.
  - rewrite append_cons. simpl. by rewrite IH.
Qed.

Lemma dynamic_parse_text a p :
  is_v4 a -> is_port p ->
  DynamicForward_parse (join ":" [show_ip a; show_uint p]) =
    Ok {| df_bind_addr := {| sa_ip := a; sa_port := p |} |} /\
  DynamicForward_parse (show_uint p) =
    Ok {| df_bind_addr := {| sa_ip := localhost_v4; sa_port := p |} |}.
Proof.
  intros Ha Hp. assert (Hn : no_char ":" (show_uint p)) by by apply show_uint_no_char.
  unfold DynamicForward_parse. rewrite (rfind_no_char _ (show_uint p)) by done.
  rewrite parse_show_port by done. split; [|done]. cbn [join]. rewrite rfind_char_last by done.
  rewrite take_str_app, (drop_str_S_app ":"). by rewrite parse_show_addr, parse_show_port.
Qed.

(** every forward with an IPv4 address and a host without colons is read
    back from its text; without the address, local and dynamic forwards bind to
    localhost and remote ones to every address. *)
Theorem forward_parse_round_trip a p host hp :
  is_v4 a -> is_port p -> no_char ":" host -> is_port hp ->
  (LocalForward_parse (addr_text a p host hp) =
     Ok {| lf_bind_addr := {| sa_ip := a; sa_port := p |}; remote_host := host; remote_port := hp |} /\
   LocalForward_parse (port_text p host hp) =
     Ok {| lf_bind_addr := {| sa_ip := localhost_v4; sa_port := p |}; remote_host := host; remote_port := hp |}) /\
  (RemoteForward_parse (addr_text a p host hp) =
     Ok {| rf_bind_addr := {| sa_ip := a; sa_port := p |}; local_host := host; local_port := hp |} /\
   RemoteForward_parse (port_text p host hp) =
     Ok {| rf_bind_addr := {| sa_ip := unspecified_v4; sa_port := p |}; local_host := host; local_port := hp |}) /\
  (DynamicForward_parse (join ":" [show_ip a; show_uint p]) =
     Ok {| df_bind_addr := {| sa_ip := a; sa_port := p |} |} /\
   DynamicForward_parse (show_uint p) =
     Ok {| df_bind_addr := {| sa_ip := localhost_v4; sa_port := p |} |}).
Proof.
  intros Ha Hp Hh Hhp. split; [by apply local_parse_text|]. split; [by apply remote_parse_text|].
  by apply dynamic_parse_text.
Qed.

Lemma forward_parse_round_trip_witness :
  LocalForward_parse (addr_text (V4 16909060) 8080 "db" 5432) =
    Ok {| lf_bind_addr := {| sa_ip := V4 16909060; sa_port := 8080 |}; remote_host := "db"; remote_port := 5432 |}.
Proof.
  apply (forward_parse_round_trip (V4 16909060) 8080 "db" 5432).
  - exists 16909060. split; [lia|reflexivity].
  - by vm_compute.
  - reflexivity.
  - by vm_compute.
Defined.

(** ** The forwarder *)

Record ForwardStats : Type := {
  bytes_sent : Z; bytes_received : Z; connections : Z; active_connections : Z }.

Definition ForwardStats_default : ForwardStats := {|
  bytes_sent := 0; bytes_received := 0; connections := 0; active_connections := 0 |}.

(** [tunnel_provider]: whether one is set. *)
Record Forwarder : Type := {
  tunnel_provider : bool;
  next_id : Z;
  local_handles : gmap Z LocalForward;
  remote_handles : gmap Z RemoteForward;
  dynamic_handles : gmap Z DynamicForward;
  stats : gmap Z ForwardStats }.

Definition new : Forwarder := {|
  tunnel_provider := false; next_id := 1; local_handles := ∅; remote_handles := ∅;
  dynamic_handles := ∅; stats := ∅ |}.

Definition with_tunnel_provider : Forwarder := {|
  tunnel_provider := true; next_id := 1; local_handles := ∅; remote_handles := ∅;
  dynamic_handles := ∅; stats := ∅ |}.

Definition set_tunnel_provider (f : Forwarder) : Forwarder := {|
  tunnel_provider := true; next_id := next_id f; local_handles := local_handles f;
  remote_handles := remote_handles f; dynamic_handles := dynamic_handles f; stats := stats f |}.

Inductive ForwardError : Type := NoTunnelProvider | BindFailed | TunnelFailed.

(** What the forwarder asks of the tunnel provider. *)
Inductive ProviderCall : Type :=
| TcpipForward (bind_addr : string) (bind_port : Z)
| CancelTcpipForward (bind_addr : string) (bind_port : Z).

Inductive Kind : Type := Local | Remote (bind_addr_cancel : string) (bind_port_cancel : Z) | Dynamic.

(** A task a start spawned: what it captured, and whether its handle was
    cancelled or dropped. *)
Record Task : Type := { kind : Kind; cancelled : bool }.

(** The forwarder, the forward tasks that run, the connection tasks that run
    for each forward, and the calls made to the provider. *)
Record System : Type := {
  forwarder : Forwarder; tasks : gmap Z Task; conns : gmap Z Z; asked : list ProviderCall }.

Definition initial (f : Forwarder) : System := {|
  forwarder := f; tasks := ∅; conns := ∅; asked := [] |}.

(** Registering a forward: a fresh identifier, its entry, empty statistics and
    the spawned task. *)
Definition register (k : Kind) (f : Forwarder -> Z -> Forwarder) (s : System) : Z * System :=
  let id := next_id (forwarder s) in
  let f' := f (forwarder s) id in
  (id, {| forwarder := {| tunnel_provider := tunnel_provider f'; next_id := wrap_add u64_max id 1;
                          local_handles := local_handles f'; remote_handles := remote_handles f';
                          dynamic_handles := dynamic_handles f';
                          stats := <[id := ForwardStats_default]> (stats f') |};
          tasks := <[id := {| kind := k; cancelled := false |}]> (tasks s);
          conns := <[id := 0]> (conns s); asked := asked s |}).

Definition insert_local cfg (f : Forwarder) (id : Z) : Forwarder := {|
  tunnel_provider := tunnel_provider f; next_id := next_id f;
  local_handles := <[id := cfg]> (local_handles f); remote_handles := remote_handles f;
  dynamic_handles := dynamic_handles f; stats := stats f |}.
Definition insert_remote cfg (f : Forwarder) (id : Z) : Forwarder := {|
  tunnel_provider := tunnel_provider f; next_id := next_id f;
  local_handles := local_handles f; remote_handles := <[id := cfg]> (remote_handles f);
  dynamic_handles := dynamic_handles f; stats := stats f |}.
Definition insert_dynamic cfg (f : Forwarder) (id : Z) : Forwarder := {|
  tunnel_provider := tunnel_provider f; next_id := next_id f;
  local_handles := local_handles f; remote_handles := remote_handles f;
  dynamic_handles := <[id := cfg]> (dynamic_handles f); stats := stats f |}.

Definition ask (c : ProviderCall) (s : System) : System := {|
  forwarder := forwarder s; tasks := tasks s; conns := conns s; asked := push (asked s) c |}.

(** [bound]: whether the listener could be bound. *)
Definition start_local (bound : bool) (cfg : LocalForward) (s : System)
    : result ForwardError Z * System :=
  if negb (tunnel_provider (forwarder s)) then (Err NoTunnelProvider, s)
  else if negb bound then (Err BindFailed, s)
  else let '(id, s) := register Local (insert_local cfg) s in (Ok id, s).

(** [reply]: the port the provider says it listens on. *)
Definition start_remote (reply : option Z) (cfg : RemoteForward) (s : System)
    : result ForwardError Z * System :=
  if negb (tunnel_provider (forwarder s)) then (Err NoTunnelProvider, s)
  else
    let bind_addr_str := show_ip (sa_ip (rf_bind_addr cfg)) in
    let s := ask (TcpipForward bind_addr_str (sa_port (rf_bind_addr cfg))) s in
    match reply with
    | None => (Err TunnelFailed, s)
    | Some actual_port =>
        let '(id, s) := register (Remote bind_addr_str (sa_port (rf_bind_addr cfg))) (insert_remote cfg) s in
        (Ok id, s)
    end.

Definition start_dynamic (bound : bool) (cfg : DynamicForward) (s : System)
    : result ForwardError Z * System :=
  if negb (tunnel_provider (forwarder s)) then (Err NoTunnelProvider, s)
  else if negb bound then (Err BindFailed, s)
  else let '(id, s) := register Dynamic (insert_dynamic cfg) s in (Ok id, s).

(** [cancel] and the drop of a handle: the task is told to stop, once. *)
Definition cancel (id : Z) (s : System) : System := {|
  forwarder := forwarder s;
  tasks := alter (fun t => {| kind := kind t; cancelled := true |}) id (tasks s);
  conns := conns s; asked := asked s |}.

Definition set_stats (s : System) m : System := {|
  forwarder := {| tunnel_provider := tunnel_provider (forwarder s); next_id := next_id (forwarder s);
                  local_handles := local_handles (forwarder s);
                  remote_handles := remote_handles (forwarder s);
                  dynamic_handles := dynamic_handles (forwarder s); stats := m |};
  tasks := tasks s; conns := conns s; asked := asked s |}.

(** [if let Some(st) = s.get_mut(&id)]. *)
Definition update_stats (g : ForwardStats -> ForwardStats) (id : Z) (s : System) : System :=
  set_stats s (alter g id (stats (forwarder s))).

Definition count_connection (st : ForwardStats) : ForwardStats := {|
  bytes_sent := bytes_sent st; bytes_received := bytes_received st;
  connections := wrap_add u64_max (connections st) 1;
  active_connections := wrap_add u64_max (active_connections st) 1 |}.

Definition count_done (st : ForwardStats) : ForwardStats := {|
  bytes_sent := bytes_sent st; bytes_received := bytes_received st;
  connections := connections st; active_connections := sat_sub (active_connections st) 1 |}.

Definition count_sent (n : Z) (st : ForwardStats) : ForwardStats := {|
  bytes_sent := wrap_add u64_max (bytes_sent st) n; bytes_received := bytes_received st;
  connections := connections st; active_connections := active_connections st |}.

Definition count_received (n : Z) (st : ForwardStats) : ForwardStats := {|
  bytes_sent := bytes_sent st; bytes_received := wrap_add u64_max (bytes_received st) n;
  connections := connections st; active_connections := active_connections st |}.

Definition spawn_conn (d : Z) (id : Z) (s : System) : System := {|
  forwarder := forwarder s; tasks := tasks s; conns := alter (fun c => c + d) id (conns s); asked := asked s |}.

(** The accept branch of a listener task. *)
Definition accept (id : Z) (s : System) : System := spawn_conn 1 id (update_stats count_connection id s).
(** The end of a connection task. *)
Definition conn_done (id : Z) (s : System) : System := spawn_conn (-1) id (update_stats count_done id s).

(** The end of a forward task, after its loop: a remote forward first tells the
    provider, then the entry goes. *)
Definition remove_handles (k : Kind) (id : Z) (f : Forwarder) : Forwarder := {|
  tunnel_provider := tunnel_provider f; next_id := next_id f;
  local_handles := match k with Local => delete id (local_handles f) | _ => local_handles f end;
  remote_handles := match k with Remote _ _ => delete id (remote_handles f) | _ => remote_handles f end;
  dynamic_handles := match k with Dynamic => delete id (dynamic_handles f) | _ => dynamic_handles f end;
  stats := stats f |}.

Definition finish (k : Kind) (id : Z) (s : System) : System := {|
  forwarder := remove_handles k id (forwarder s); tasks := delete id (tasks s); conns := conns s;
  asked := match k with Remote b p => push (asked s) (CancelTcpipForward b p) | _ => asked s end |}.

Definition get_stats (id : Z) (f : Forwarder) : option ForwardStats := stats f !! id.
Definition list_local (f : Forwarder) : list (Z * LocalForward) := map_to_list (local_handles f).
Definition list_remote (f : Forwarder) : list (Z * RemoteForward) := map_to_list (remote_handles f).
Definition list_dynamic (f : Forwarder) : list (Z * DynamicForward) := map_to_list (dynamic_handles f).

Inductive Event : Type :=
| StartLocal (bound : bool) (cfg : LocalForward)
| StartRemote (reply : option Z) (cfg : RemoteForward)
| StartDynamic (bound : bool) (cfg : DynamicForward)
| Cancel (id : Z)
| Accept (id : Z)
| ConnDone (id : Z)
| Sent (id n : Z)
| Received (id n : Z)
| Finish (id : Z).

Definition listens (k : Kind) : bool := match k with Remote _ _ => false | _ => true end.

(** What may happen next: listeners accept until they end, connections outlive
    them, a task ends once it was cancelled. *)
Inductive step : System -> Event -> System -> Prop :=
| step_local bound cfg s : step s (StartLocal bound cfg) (start_local bound cfg s).2
| step_remote reply cfg s : step s (StartRemote reply cfg) (start_remote reply cfg s).2
| step_dynamic bound cfg s : step s (StartDynamic bound cfg) (start_dynamic bound cfg s).2
| step_cancel id s : step s (Cancel id) (cancel id s)
| step_accept id t s : tasks s !! id = Some t -> listens (kind t) = true -> step s (Accept id) (accept id s)
| step_conn_done id c s : conns s !! id = Some c -> 0 < c -> step s (ConnDone id) (conn_done id s)
| step_sent id c n s : conns s !! id = Some c -> 0 < c -> step s (Sent id n) (update_stats (count_sent n) id s)
| step_received id c n s :
    conns s !! id = Some c -> 0 < c -> step s (Received id n) (update_stats (count_received n) id s)
| step_finish id t s :
    tasks s !! id = Some t -> cancelled t = true -> step s (Finish id) (finish (kind t) id s).

(** ** The invariant *)

(** The entry of a forward is in the map of its kind exactly while its task
    runs. *)
Definition entries_match (l : option LocalForward) (r : option RemoteForward)
    (d : option DynamicForward) (t : option Task) : Prop :=
  match kind <$> t with
  | None => l = None /\ r = None /\ d = None
  | Some Local => is_Some l /\ r = None /\ d = None
  | Some (Remote b p) => (exists cfg, r = Some cfg /\ b = show_ip (sa_ip (rf_bind_addr cfg)) /\
                            p = sa_port (rf_bind_addr cfg)) /\ l = None /\ d = None
  | Some Dynamic => is_Some d /\ l = None /\ r = None
  end.

(** Statistics exist for every forward ever started; the active connections
    are the connection tasks that run. *)
Definition stats_match (n : Z) (st : option ForwardStats) (c : option Z) : Prop :=
  match st, c with
  | Some st, Some c => active_connections st = c /\ 0 <= c <= connections st /\ connections st <= n
  | None, None => True
  | _, _ => False
  end.

Definition id_ok (n : Z) (s : System) (id : Z) : Prop :=
  let f := forwarder s in
  entries_match (local_handles f !! id) (remote_handles f !! id) (dynamic_handles f !! id) (tasks s !! id) /\
  stats_match n (stats f !! id) (conns s !! id) /\
  (is_Some (stats f !! id) <-> 1 <= id < next_id f) /\
  (is_Some (tasks s !! id) -> is_Some (stats f !! id)).

(** After at most [n] steps. *)
Definition wf (n : Z) (s : System) : Prop :=
  1 <= next_id (forwarder s) <= 1 + n /\ forall id, id_ok n s id.

Lemma stats_match_mono n n' st c : n <= n' -> stats_match n st c -> stats_match n' st c.
Proof. unfold stats_match. destruct st, c; intros; try done. lia. Qed.

Lemma id_ok_mono n n' s id : n <= n' -> id_ok n s id -> id_ok n' s id.
Proof. intros Hn (He & Hs & Hi). split; [done|]. split; [by eapply stats_match_mono|done]. Qed.

Lemma wf_mono n n' s : n <= n' -> wf n s -> wf n' s.
Proof. intros Hn [Hx Hid]. split; [lia|]. intros id. by eapply id_ok_mono. Qed.

(** A forward under a fresh identifier. *)
Lemma register_wf n k g s :
  0 <= n < u64_max - 1 -> wf n s ->
  (forall f id, next_id (g f id) = next_id f /\ stats (g f id) = stats f) ->
  (forall f id id', id' <> id -> local_handles (g f id) !! id' = local_handles f !! id' /\
     remote_handles (g f id) !! id' = remote_handles f !! id' /\
     dynamic_handles (g f id) !! id' = dynamic_handles f !! id') ->
  (forall f id, local_handles f !! id = None -> remote_handles f !! id = None -> dynamic_handles f !! id = None ->
     entries_match (local_handles (g f id) !! id) (remote_handles (g f id) !! id)
       (dynamic_handles (g f id) !! id) (Some {| kind := k; cancelled := false |})) ->
  wf (n + 1) (register k g s).2.
Proof.
  intros Hn [Hx Hid] Hg Hother Hself. set (id := next_id (forwarder s)) in *.
  destruct (Hid id) as (He & Hst & Hs & Ht).
  assert (Hnone : stats (forwarder s) !! id = None).
  { destruct (stats _ !! id) eqn:E; [|done]. assert (1 <= id < id) by by apply Hs. lia. }
  assert (Htn : tasks s !! id = None).
  { destruct (tasks s !! id) eqn:E; [|done]. destruct (Ht ltac:(done)). congruence. }
  unfold register. cbn [snd]. fold id.
  split; cbn [forwarder next_id]; rewrite wrap_add_small by lia; [lia|].
  intros id'. destruct (decide (id' = id)) as [->|Hne].
  - rewrite Htn in He. destruct He as (Hl & Hr & Hd).
    unfold id_ok. cbn. rewrite !lookup_insert_eq. split; [by apply Hself|].
    split; [cbn; lia|]. split; [split; [lia|done]|done].
  - destruct (Hother (forwarder s) id id' Hne) as (E1 & E2 & E3). destruct (Hg (forwarder s) id) as [_ E4].
    unfold id_ok. cbn. rewrite E1, E2, E3, E4, !lookup_insert_ne by done.
    destruct (Hid id') as (He' & Hst' & Hs' & Ht'). split; [done|]. split; [by eapply stats_match_mono; [|done]; lia|].
    split; [|done]. rewrite Hs'. fold id. lia.
Qed.

(** Steps that only touch one identifier. *)
Lemma wf_at n s s' id :
  wf n s -> next_id (forwarder s') = next_id (forwarder s) ->
  (forall id', id' <> id ->
     local_handles (forwarder s') !! id' = local_handles (forwarder s) !! id' /\
     remote_handles (forwarder s') !! id' = remote_handles (forwarder s) !! id' /\
     dynamic_handles (forwarder s') !! id' = dynamic_handles (forwarder s) !! id' /\
     tasks s' !! id' = tasks s !! id' /\ stats (forwarder s') !! id' = stats (forwarder s) !! id' /\
     conns s' !! id' = conns s !! id') ->
  id_ok (n + 1) s' id -> wf (n + 1) s'.
Proof.
  intros [Hx Hid] Hn Ho Hself. split; [rewrite Hn; lia|]. intros id'.
  destruct (decide (id' = id)) as [->|Hne]; [done|].
  destruct (Ho id' Hne) as (E1 & E2 & E3 & E4 & E5 & E6). unfold id_ok. rewrite E1, E2, E3, E4, E5, E6, Hn.
  apply (id_ok_mono n (n + 1)); [lia|]. apply Hid.
Qed.

Lemma wf_update n g d id s :
  wf n s ->
  (forall st c, stats (forwarder s) !! id = Some st -> conns s !! id = Some c ->
     stats_match n (Some st) (Some c) -> stats_match (n + 1) (Some (g st)) (Some (c + d))) ->
  wf (n + 1) (spawn_conn d id (update_stats g id s)).
Proof.
  intros Hw Hg. apply (wf_at n s _ id); [done|done| |].
  - intros id' Hne. cbn. by rewrite !lookup_alter_ne.
  - destruct Hw as [_ Hid]. destruct (Hid id) as (He & Hst & Hs & Ht).
    unfold id_ok. cbn. rewrite !lookup_alter_eq.
    destruct (stats (forwarder s) !! id) as [st|] eqn:E1, (conns s !! id) as [c|] eqn:E2; try done; cbn.
    split; [done|]. split; [by apply Hg|]. split; [|done]. rewrite <- Hs. split; done.
Qed.

Lemma spawn_none id s : conns s !! id <> None -> spawn_conn 0 id s = s.
Proof.
  intros _. destruct s. unfold spawn_conn. cbn. f_equal. apply map_eq. intros i.
  destruct (decide (i = id)) as [->|Hne]; [|by rewrite lookup_alter_ne].
  rewrite lookup_alter_eq. destruct (_ !! id); cbn; [|done]. by rewrite Z.add_0_r.
Qed.

Lemma wf_skip n s : wf n s -> wf (n + 1) s.
Proof. apply wf_mono. lia. Qed.

Lemma wf_ask n c s : wf n s -> wf n (ask c s).
Proof. done. Qed.

Lemma start_local_cases bound cfg s :
  (start_local bound cfg s).2 = s \/ (start_local bound cfg s).2 = (register Local (insert_local cfg) s).2.
Proof.
  unfold start_local. destruct (negb _); [by left|]. destruct (negb _); [by left|]. right.
  by destruct (register _ _ _).
Qed.

Lemma start_dynamic_cases bound cfg s :
  (start_dynamic bound cfg s).2 = s \/ (start_dynamic bound cfg s).2 = (register Dynamic (insert_dynamic cfg) s).2.
Proof.
  unfold start_dynamic. destruct (negb _); [by left|]. destruct (negb _); [by left|]. right.
  by destruct (register _ _ _).
Qed.

Lemma start_remote_cases reply cfg s :
  (start_remote reply cfg s).2 = s \/
  exists c k, ((start_remote reply cfg s).2 = ask c s \/
               (start_remote reply cfg s).2 = (register k (insert_remote cfg) (ask c s)).2).
Proof.
  unfold start_remote. destruct (negb _); [by left|]. right. cbv zeta.
  exists (TcpipForward (show_ip (sa_ip (rf_bind_addr cfg))) (sa_port (rf_bind_addr cfg))).
  exists (Remote (show_ip (sa_ip (rf_bind_addr cfg))) (sa_port (rf_bind_addr cfg))).
  destruct reply; [right|by left]. by destruct (register _ _ _).
Qed.

Lemma start_local_wf n bound cfg s :
  0 <= n < u64_max - 1 -> wf n s -> wf (n + 1) (start_local bound cfg s).2.
Proof.
  intros Hn Hw. destruct (start_local_cases bound cfg s) as [->| ->]; [by apply wf_skip|].
  apply register_wf; [done|done|intros; cbn; try done..].
  - by rewrite lookup_insert_ne.
  - rewrite lookup_insert_eq. done.
Qed.

Lemma start_dynamic_wf n bound cfg s :
  0 <= n < u64_max - 1 -> wf n s -> wf (n + 1) (start_dynamic bound cfg s).2.
Proof.
  intros Hn Hw. destruct (start_dynamic_cases bound cfg s) as [->| ->]; [by apply wf_skip|].
  apply register_wf; [done|done|intros; cbn; try done..].
  - by rewrite lookup_insert_ne.
  - rewrite lookup_insert_eq. done.
Qed.

Lemma start_remote_wf n reply cfg s :
  0 <= n < u64_max - 1 -> wf n s -> wf (n + 1) (start_remote reply cfg s).2.
Proof.
  intros Hn Hw. unfold start_remote. destruct (tunnel_provider _); [|by apply wf_skip].
  cbn [negb]. cbv zeta. destruct reply as [port|]; [|by apply wf_skip].
  set (k := Remote _ _). set (s1 := ask _ s).
  pose proof (register_wf n k (insert_remote cfg) s1 Hn (wf_ask n _ s Hw)) as Hr.
  destruct (register _ _ _). apply Hr; intros; cbn; try done.
  - by rewrite lookup_insert_ne.
  - rewrite lookup_insert_eq. split; [by exists cfg|done].
Qed.

Lemma cancel_wf n id s : wf n s -> wf (n + 1) (cancel id s).
Proof.
  intros Hw. apply (wf_at n s _ id); [done|done| |].
  - intros id' Hne. cbn. by rewrite lookup_alter_ne.
  - apply (id_ok_mono n); [lia|]. destruct Hw as [_ Hid]. destruct (Hid id) as (He & Hst & Hs & Ht).
    unfold id_ok. cbn. rewrite lookup_alter_eq. destruct (tasks s !! id); cbn in *; [|done].
    split; [done|]. split; [done|]. split; [done|]. intros _. by apply Ht.
Qed.

Lemma finish_wf n id t s : wf n s -> tasks s !! id = Some t -> wf (n + 1) (finish (kind t) id s).
Proof.
  intros Hw Ht. apply (wf_at n s _ id); [done|done| |].
  - intros id' Hne. cbn. destruct (kind t); rewrite ?lookup_delete_ne by done; done.
  - apply (id_ok_mono n); [lia|]. destruct Hw as [_ Hid]. destruct (Hid id) as (He & Hst & Hs & Ht').
    rewrite Ht in He, Ht'. unfold id_ok. cbn. rewrite lookup_delete_eq.
    split; [|split; [done|split; [done|by intros []]]].
    unfold entries_match in *. cbn in *.
    destruct (kind t); rewrite ?lookup_delete_eq; naive_solver.
Qed.

Lemma wf_count n g id s :
  wf n s -> (forall st, active_connections (g st) = active_connections st /\ connections (g st) = connections st) ->
  wf (n + 1) (update_stats g id s).
Proof.
  intros Hw Hg. apply (wf_at n s _ id); [done|done| |].
  - intros id' Hne. cbn. by rewrite lookup_alter_ne.
  - destruct Hw as [_ Hid]. apply (id_ok_mono n); [lia|]. destruct (Hid id) as (He & Hst & Hs & Ht).
    unfold id_ok. cbn. rewrite lookup_alter_eq. destruct (stats (forwarder s) !! id) as [st|]; cbn in *; [|done].
    destruct (Hg st) as [E1 E2]. split; [done|]. split; [|split; [|done]].
    + destruct (conns s !! id); [by rewrite E1, E2|done].
    + rewrite <- Hs. split; done.
Qed.

Lemma step_wf n s e s' : 0 <= n < u64_max - 1 -> wf n s -> step s e s' -> wf (n + 1) s'.
Proof.
  intros Hn Hw Hstep. pose proof Hw as [Hx Hid].
  destruct Hstep as [bound cfg s|reply cfg s|bound cfg s|id s|id t s|id c s Hc Hpos|id c k s|id c k s|id t s Ht].
  - by apply start_local_wf.
  - by apply start_remote_wf.
  - by apply start_dynamic_wf.
  - by apply cancel_wf.
  - apply wf_update; [done|]. intros st c _ _ (Ha & Hc & Hm). cbn. rewrite !wrap_add_small; lia.
  - apply wf_update; [done|]. intros st c' _ Hc' (Ha & Hcc & Hm). simplify_eq. cbn. unfold sat_sub. lia.
  - by apply wf_count.
  - by apply wf_count.
  - by apply finish_wf.
Qed.

(** A forward whose task is gone stays gone. *)
Lemma step_stopped n s e s' id :
  0 <= n < u64_max - 1 -> wf n s -> step s e s' -> 1 <= id < next_id (forwarder s) -> tasks s !! id = None ->
  1 <= id < next_id (forwarder s') /\ tasks s' !! id = None.
Proof.
  intros Hn [Hx _] Hstep Hid Ht.
  assert (Hreg : forall k g s0, next_id (forwarder s0) = next_id (forwarder s) -> tasks s0 = tasks s ->
    1 <= id < next_id (forwarder (register k g s0).2) /\ tasks (register k g s0).2 !! id = None).
  { intros k g s0 E1 E2. cbn. rewrite E1, E2, wrap_add_small by lia. split; [lia|].
    by rewrite lookup_insert_ne by lia. }
  destruct Hstep; try done.
  - destruct (start_local_cases bound cfg s) as [->| ->]; [done|by apply Hreg].
  - destruct (start_remote_cases reply cfg s) as [->|(c & k & [->| ->])]; [done|done|by apply Hreg].
  - destruct (start_dynamic_cases bound cfg s) as [->| ->]; [done|by apply Hreg].
  - split; [done|]. cbn. destruct (decide (id0 = id)) as [->|Hne];
      [by rewrite lookup_alter_eq, Ht|by rewrite lookup_alter_ne].
  - split; [done|]. cbn. destruct (decide (id0 = id)) as [->|Hne];
      [by rewrite lookup_delete_eq|by rewrite lookup_delete_ne].
Qed.

Lemma initial_wf f : f = new \/ f = with_tunnel_provider -> wf 0 (initial f).
Proof.
  intros [->| ->]; (split; [cbn; lia|]; intros id; unfold id_ok; cbn;
    rewrite !lookup_empty; (split; [done|]; split; [done|]; split; [split; [by intros []|lia]|by intros []])).
Qed.

Lemma run_wf n s es s' :
  0 <= n -> n + Z.of_nat (length es) < u64_max - 1 -> wf n s -> run step s es s' ->
  wf (n + Z.of_nat (length es)) s'.
Proof.
  intros Hn Hb Hw Hrun. revert n Hn Hb Hw.
  induction Hrun as [s|s e s1 es s2 Hstep Hrun IH]; intros n Hn Hb Hw; cbn [length] in *.
  - by rewrite Z.add_0_r.
  - apply step_wf with (n := n) in Hstep; [|lia|done].
    replace (n + Z.of_nat (S (length es))) with (n + 1 + Z.of_nat (length es)) by lia.
    apply IH; [lia|lia|done].
Qed.

(** Claim C35: after any run of the forwarder (of fewer than 2^64 steps), a forward
    is listed, under its kind only, exactly while its task runs; identifiers
    are never reused; the statistics of every forward ever started remain, and
    the active connections are exactly the connections still open. *)
Theorem forwarder_invariant f es s :
  (f = new \/ f = with_tunnel_provider) -> Z.of_nat (length es) < u64_max - 1 ->
  run step (initial f) es s -> wf (Z.of_nat (length es)) s.
Proof. intros Hf Hlen Hrun. apply (run_wf 0 (initial f)); [lia|lia|by apply initial_wf|done]. Qed.

(** ** Cancelling *)

(** a finished forward stays finished: whatever runs afterwards, it is
    neither listed nor served again, and its statistics can still be read. *)
Theorem finished_stays_finished n s es s' id :
  0 <= n -> n + Z.of_nat (length es) < u64_max - 1 -> wf n s -> run step s es s' ->
  1 <= id < next_id (forwarder s) -> tasks s !! id = None ->
  tasks s' !! id = None /\ local_handles (forwarder s') !! id = None /\
  remote_handles (forwarder s') !! id = None /\ dynamic_handles (forwarder s') !! id = None /\
  is_Some (get_stats id (forwarder s')).
Proof.
  intros Hn Hb Hw Hrun Hid Ht.
  assert (H : exists m, wf m s' /\ id < next_id (forwarder s') /\ tasks s' !! id = None).
  { revert n Hn Hb Hw Hid Ht. induction Hrun as [s|s e s1 es s2 Hstep Hrun IH]; intros n Hn Hb Hw Hid Ht; [naive_solver|].
    cbn [length] in Hb. destruct (step_stopped n s e s1 id) as [Hid1 Ht1]; [lia|done..|].
    eapply (IH (n + 1)); [lia|lia|eapply step_wf; [lia|done..]|lia|done]. }
  destruct H as (m & [Hx Hw'] & Hlt & Ht'). destruct (Hw' id) as (He & _ & Hs & _). rewrite Ht' in *.
  destruct He as (-> & -> & ->). split; [done|]. do 3 (split; [done|]). apply Hs. lia.
Qed.

(** A remote forward on port 0 lets the provider choose the port, and
    its end cancels port 0, not the port chosen. *)
Theorem remote_cancel_port_zero :
  let cfg := {| rf_bind_addr := {| sa_ip := unspecified_v4; sa_port := 0 |}; local_host := "localhost"; local_port := 3000 |} in
  let s := finish (Remote "0.0.0.0" 0) 1 (cancel 1 (start_remote (Some 40000) cfg (initial with_tunnel_provider)).2) in
  run step (initial with_tunnel_provider) [StartRemote (Some 40000) cfg; Cancel 1; Finish 1] s /\
  asked s = [TcpipForward "0.0.0.0" 0; CancelTcpipForward "0.0.0.0" 0].
Proof.
  intros cfg s. split; [|by vm_compute].
  do 2 (eapply run_cons; [constructor|]). eapply run_cons; [|apply run_nil].
  by apply (step_finish 1 {| kind := Remote "0.0.0.0" 0; cancelled := true |}).
Qed.

Definition demo_local : LocalForward := {|
  lf_bind_addr := {| sa_ip := localhost_v4; sa_port := 8080 |}; remote_host := "db"; remote_port := 5432 |}.

Definition demo_started : System := (start_local true demo_local (initial with_tunnel_provider)).2.
Definition demo_finished : System := finish Local 1 (cancel 1 (accept 1 demo_started)).

Lemma demo_run : run step (initial with_tunnel_provider) [StartLocal true demo_local; Accept 1; Cancel 1; Finish 1] demo_finished.
Proof.
  eapply run_cons; [constructor|]. eapply run_cons; [by apply (step_accept 1 {| kind := Local; cancelled := false |})|].
  eapply run_cons; [constructor|]. eapply run_cons; [|apply run_nil].
  by apply (step_finish 1 {| kind := Local; cancelled := true |}).
Qed.

Lemma forwarder_invariant_witness : wf 4 demo_finished.
Proof.
  apply (forwarder_invariant with_tunnel_provider [StartLocal true demo_local; Accept 1; Cancel 1; Finish 1]).
  - by right.
  - by vm_compute.
  - apply demo_run.
Defined.

Lemma finished_stays_finished_witness :
  let s' := update_stats (count_sent 7) 1 demo_finished in
  tasks s' !! 1 = None /\ local_handles (forwarder s') !! 1 = None /\
  remote_handles (forwarder s') !! 1 = None /\ dynamic_handles (forwarder s') !! 1 = None /\
  is_Some (get_stats 1 (forwarder s')).
Proof.
  apply (finished_stays_finished 4 demo_finished [Sent 1 7]).
  - lia.
  - by vm_compute.
  - apply (run_wf 0 (initial with_tunnel_provider) [StartLocal true demo_local; Accept 1; Cancel 1; Finish 1]);
      [lia|by vm_compute|apply initial_wf; by right|apply demo_run].
  - eapply run_cons; [|apply run_nil]. by apply (step_sent 1 1).
  - by vm_compute.
  - by vm_compute.
Defined.
