(* ===== verification/Relay.v ===== *)
(** * Forwarded connections (omni-ssh/src/forwarding/mod.rs)

    The task behind one forwarded connection: opening the tunnel, the SOCKS5
    handshake of dynamic forwards, and the loop that copies between the local
    stream and the tunnel until one side ends.  The loop runs on fuel. *)

From Stdlib Require Import Ascii.
From S2P Require Import Prelude RustStr Net Effects Forwarding.

Open Scope string_scope.
Open Scope list_scope.
Open Scope Z_scope.

Inductive ConnError : Set :=
| StreamFailed
| TunnelRefused
| HandshakeTooShort
| UnsupportedVersion (v : Z)
| InvalidRequestVersion
| UnsupportedCommand (c : Z)
| InvalidUtf8
| UnsupportedAddressType (a : Z).

(** What [tokio::select!] found: one of the two reads completed. *)
Inductive Ready : Set :=
| LocalReady (r : result unit (list Z))
| TunnelReady (r : result unit (list Z)).

Inductive NetCall : Set -> Set :=
| StreamRead (cap : nat) : NetCall (result unit (list Z))
| StreamReadExact (n : nat) : NetCall (result unit (list Z))
| StreamWriteAll (d : list Z) : NetCall (result unit unit)
| StreamShutdown : NetCall unit
| ConnectLocal (addr : string) : NetCall (result unit unit)
| OpenDirectTcpip (host : string) (port : Z) (originator : string) (originator_port : Z) : NetCall (result unit unit)
| SelectRead (cap : nat) : NetCall Ready
| TunnelWrite (d : list Z) : NetCall (result unit Z)
| TunnelFlush : NetCall (result unit unit)
| TunnelShutdown : NetCall unit
| AddSent (id n : Z) : NetCall unit
| AddReceived (id n : Z) : NetCall unit.

(** Programs that may fail. *)
Definition Conn (A : Type) : Type := prog NetCall (result ConnError A).

#[global] Instance Conn_ret : MRet Conn := fun A a => Ret (Ok a).
#[global] Instance Conn_bind : MBind Conn := fun A B f m =>
  prog_bind m (fun r => match r with Ok a => f a | Err e => Ret (Err e) end).

Definition fail {A} (e : ConnError) : Conn A := Ret (Err e).
Definition call {R : Set} (c : NetCall R) : Conn R := Vis c (fun r => Ret (Ok r)).
(** A call whose error is returned. *)
Definition try_call {X : Set} {A : Set} (e : ConnError) (c : NetCall (result X A)) : Conn A :=
  Vis c (fun r => match r with Ok a => Ret (Ok a) | Err _ => Ret (Err e) end).

(** ** The copy loop *)

Definition BUF_SIZE : nat := Z.to_nat 32768.

(** One turn: whether to go on. *)
Definition relay_turn (id : Z) : Conn bool :=
  ready ← call (SelectRead BUF_SIZE);
  match ready with
  | LocalReady (Ok d) =>
      if (length d =? 0)%nat then mret false
      else
        _ ← try_call StreamFailed (TunnelWrite d);
        _ ← try_call StreamFailed TunnelFlush;
        _ ← call (AddSent id (Z.of_nat (length d)));
        mret true
  | TunnelReady (Ok d) =>
      if (length d =? 0)%nat then mret false
      else
        _ ← try_call StreamFailed (StreamWriteAll d);
        _ ← call (AddReceived id (Z.of_nat (length d)));
        mret true
  | LocalReady (Err _) | TunnelReady (Err _) => fail StreamFailed
  end.

(** [None]: still copying when the fuel is spent. *)
Fixpoint relay (fuel : nat) (id : Z) : Conn (option unit) :=
  match fuel with
  | O => mret None
  | S fuel =>
      again ← relay_turn id;
      if (again : bool) then relay fuel id else mret (Some tt)
  end.

Definition close_both : Conn unit :=
  _ ← call TunnelShutdown; _ ← call StreamShutdown; mret tt.

Definition relay_and_close (fuel : nat) (id : Z) : Conn (option unit) :=
  r ← relay fuel id;
  match r with
  | Some _ => _ ← close_both; mret (Some tt)
  | None => mret None
  end.

Definition open_tunnel (host : string) (port : Z) (peer : SocketAddr) : NetCall (result unit unit) :=
  OpenDirectTcpip host port (show_ip (sa_ip peer)) (sa_port peer).

Definition handle_local_forward_connection (fuel : nat) (peer_addr : SocketAddr)
    (remote_host : string) (remote_port forward_id : Z) : Conn (option unit) :=
  _ ← try_call TunnelRefused (open_tunnel remote_host remote_port peer_addr);
  relay_and_close fuel forward_id.

Definition handle_remote_forward_incoming (fuel : nat) (local_host : string)
    (local_port forward_id : Z) : Conn (option unit) :=
  _ ← try_call StreamFailed (ConnectLocal (local_host +:+ ":" +:+ show_uint local_port));
  relay_and_close fuel forward_id.

(** ** SOCKS5 *)

Definition byte_at (l : list Z) (i : nat) : Z := nth i l 0.
Definition from_be_bytes (l : list Z) : Z := byte_at l 0 * 256 + byte_at l 1.

Definition read_exact (n : nat) : Conn (list Z) := try_call StreamFailed (StreamReadExact n).
Definition write_all (d : list Z) : Conn unit := try_call StreamFailed (StreamWriteAll d).

(** The reply with the given code, all zeros after it. *)
Definition socks_reply (code : Z) : list Z := [5; code; 0; 1; 0; 0; 0; 0; 0; 0].

Definition read_port : Conn Z := port_buf ← read_exact 2; mret (from_be_bytes port_buf).

Definition v4_of_bytes (l : list Z) : IpAddr :=
  ipv4 (byte_at l 0) (byte_at l 1) (byte_at l 2) (byte_at l 3).
Definition v6_of_bytes (l : list Z) : IpAddr := V6 (fold_left (fun acc b => acc * 256 + b) l 0).

Definition read_destination (atyp : Z) : Conn (string * Z) :=
  if atyp =? 1 then
    addr ← read_exact 4;
    port ← read_port;
    mret (show_ip (v4_of_bytes addr), port)
  else if atyp =? 3 then
    len_buf ← read_exact 1;
    domain ← read_exact (Z.to_nat (byte_at len_buf 0));
    port ← read_port;
    if valid_utf8 domain then mret (bytes_string domain, port) else fail InvalidUtf8
  else if atyp =? 4 then
    addr ← read_exact 16;
    port ← read_port;
    mret (show_ip (v6_of_bytes addr), port)
  else
    _ ← write_all (socks_reply 8);
    fail (UnsupportedAddressType atyp).

(** The offered methods are read and none is asked for. *)
Definition socks_methods (nmethods : Z) : Conn unit :=
  _ ← (if 0 <? nmethods then _ ← read_exact (Z.to_nat nmethods); mret tt else mret tt);
  write_all [5; 0].

Definition socks_request : Conn (string * Z) :=
  request ← read_exact 4;
  if negb (byte_at request 0 =? 5) then fail InvalidRequestVersion
  else if negb (byte_at request 1 =? 1) then
    _ ← write_all (socks_reply 7);
    fail (UnsupportedCommand (byte_at request 1))
  else read_destination (byte_at request 3).

(** The handshake up to the destination. *)
Definition socks_handshake : Conn (string * Z) :=
  buf ← try_call StreamFailed (StreamRead 2);
  if (length buf <? 2)%nat then fail HandshakeTooShort
  else if negb (byte_at buf 0 =? 5) then fail (UnsupportedVersion (byte_at buf 0))
  else _ ← socks_methods (byte_at buf 1); socks_request.

Definition handle_socks_connection (fuel : nat) (peer_addr : SocketAddr) (forward_id : Z)
    : Conn (option unit) :=
  '(dest_host, dest_port) ← socks_handshake;
  tunnel_result ← call (open_tunnel dest_host dest_port peer_addr);
  match tunnel_result with
  | Ok _ =>
      _ ← write_all (socks_reply 0);
      relay_and_close fuel forward_id
  | Err _ =>
      _ ← write_all (socks_reply 5);
      fail TunnelRefused
  end.

(** ** A wire to run connections on

    Both sides send chunks; [turns] says which side [select!] finds ready, and
    when it is empty the local side has ended.  A tunnel write takes [accept d]
    bytes of [d]. *)

Record Wire : Type := {
  inbox : list (list Z); tunnel_inbox : list (list Z); turns : list bool;
  to_client : list Z; to_tunnel : list Z; provider_opens : bool;
  opened : list (string * Z); traffic : ForwardStats; shut : list bool }.

Definition w_inbox w m : Wire := {|
  inbox := m; tunnel_inbox := tunnel_inbox w; turns := turns w; to_client := to_client w;
  to_tunnel := to_tunnel w; provider_opens := provider_opens w; opened := opened w;
  traffic := traffic w; shut := shut w |}.
Definition w_tunnel_inbox w m : Wire := {|
  inbox := inbox w; tunnel_inbox := m; turns := turns w; to_client := to_client w;
  to_tunnel := to_tunnel w; provider_opens := provider_opens w; opened := opened w;
  traffic := traffic w; shut := shut w |}.
Definition w_turns w m : Wire := {|
  inbox := inbox w; tunnel_inbox := tunnel_inbox w; turns := m; to_client := to_client w;
  to_tunnel := to_tunnel w; provider_opens := provider_opens w; opened := opened w;
  traffic := traffic w; shut := shut w |}.
Definition w_to_client w d : Wire := {|
  inbox := inbox w; tunnel_inbox := tunnel_inbox w; turns := turns w; to_client := to_client w ++ d;
  to_tunnel := to_tunnel w; provider_opens := provider_opens w; opened := opened w;
  traffic := traffic w; shut := shut w |}.
Definition w_to_tunnel w d : Wire := {|
  inbox := inbox w; tunnel_inbox := tunnel_inbox w; turns := turns w; to_client := to_client w;
  to_tunnel := to_tunnel w ++ d; provider_opens := provider_opens w; opened := opened w;
  traffic := traffic w; shut := shut w |}.
Definition w_opened w h : Wire := {|
  inbox := inbox w; tunnel_inbox := tunnel_inbox w; turns := turns w; to_client := to_client w;
  to_tunnel := to_tunnel w; provider_opens := provider_opens w; opened := push (opened w) h;
  traffic := traffic w; shut := shut w |}.
Definition w_traffic w t : Wire := {|
  inbox := inbox w; tunnel_inbox := tunnel_inbox w; turns := turns w; to_client := to_client w;
  to_tunnel := to_tunnel w; provider_opens := provider_opens w; opened := opened w;
  traffic := t; shut := shut w |}.
Definition w_shut w b : Wire := {|
  inbox := inbox w; tunnel_inbox := tunnel_inbox w; turns := turns w; to_client := to_client w;
  to_tunnel := to_tunnel w; provider_opens := provider_opens w; opened := opened w;
  traffic := traffic w; shut := push (shut w) b |}.

(** One read of at most [cap] bytes: some of the first chunk, or the end. *)
Definition read_chunk (cap : nat) (chunks : list (list Z)) : list Z * list (list Z) :=
  match chunks with
  | [] => ([], [])
  | c :: cs => (take cap c, match drop cap c with [] => cs | rest => rest :: cs end)
  end.

(** Reading [n] bytes across chunks. *)
Definition read_bytes (n : nat) (chunks : list (list Z)) : option (list Z * list (list Z)) :=
  let all := concat chunks in
  if (n <=? length all)%nat then Some (take n all, [drop n all]) else None.

Section Wire.
Context (accept : list Z -> nat).

Definition wire (R : Set) (c : NetCall R) (w : Wire) : R * Wire :=
  match c in NetCall R return R * Wire with
  | StreamRead cap => let '(d, cs) := read_chunk cap (inbox w) in (Ok d, w_inbox w cs)
  | StreamReadExact n =>
      match read_bytes n (inbox w) with Some (d, cs) => (Ok d, w_inbox w cs) | None => (Err tt, w) end
  | StreamWriteAll d => (Ok tt, w_to_client w d)
  | StreamShutdown => (tt, w_shut w true)
  | ConnectLocal _ => (Ok tt, w)
  | OpenDirectTcpip h p _ _ => (if provider_opens w then Ok tt else Err tt, w_opened w (h, p))
  | SelectRead cap =>
      match turns w with
      | [] => (LocalReady (Ok []), w)
      | true :: ts => let '(d, cs) := read_chunk cap (inbox w) in (LocalReady (Ok d), w_turns (w_inbox w cs) ts)
      | false :: ts =>
          let '(d, cs) := read_chunk cap (tunnel_inbox w) in (TunnelReady (Ok d), w_turns (w_tunnel_inbox w cs) ts)
      end
  | TunnelWrite d => (Ok (Z.of_nat (accept d)), w_to_tunnel w (take (accept d) d))
  | TunnelFlush => (Ok tt, w)
  | TunnelShutdown => (tt, w_shut w false)
  | AddSent _ n => (tt, w_traffic w (count_sent n (traffic w)))
  | AddReceived _ n => (tt, w_traffic w (count_received n (traffic w)))
  end.

Lemma read_chunk_spec cap chunks d cs :
  read_chunk cap chunks = (d, cs) -> concat chunks = d ++ concat cs.
Proof.
  destruct chunks as [|c l]; simpl; [by intros [= <- <-]|]. intros [= <- <-].
  rewrite <- (take_drop cap c) at 1. destruct (drop cap c); by rewrite <- ?app_assoc, ?app_nil_r.
Qed.

(** [w'] continues [w] after the chunks [ls] of the local side and [ts] of the
    tunnel were copied. *)
Definition copied (ls ts : list (list Z)) (w w' : Wire) : Prop :=
  concat (inbox w) = concat ls ++ concat (inbox w') /\
  concat (tunnel_inbox w) = concat ts ++ concat (tunnel_inbox w') /\
  to_tunnel w' = to_tunnel w ++ concat (map (fun d => take (accept d) d) ls) /\
  to_client w' = to_client w ++ concat ts /\
  bytes_sent (traffic w') = bytes_sent (traffic w) + Z.of_nat (length (concat ls)) /\
  bytes_received (traffic w') = bytes_received (traffic w) + Z.of_nat (length (concat ts)) /\
  opened w' = opened w /\ shut w' = shut w /\ provider_opens w' = provider_opens w.

(** No counter can overflow on what is still to be read. *)
Definition counters_fit (w : Wire) : Prop :=
  0 <= bytes_sent (traffic w) /\ 0 <= bytes_received (traffic w) /\
  bytes_sent (traffic w) + Z.of_nat (length (concat (inbox w))) <= u64_max /\
  bytes_received (traffic w) + Z.of_nat (length (concat (tunnel_inbox w))) <= u64_max.

Lemma copied_refl w : copied [] [] w w.
Proof. unfold copied. simpl. rewrite !app_nil_r. repeat split; lia. Qed.

Lemma copied_trans l1 t1 l2 t2 w w1 w2 :
  copied l1 t1 w w1 -> copied l2 t2 w1 w2 -> copied (l1 ++ l2) (t1 ++ t2) w w2.
Proof.
  unfold copied. intros (A1 & A2 & A3 & A4 & A5 & A6 & A7 & A8 & A9) (B1 & B2 & B3 & B4 & B5 & B6 & B7 & B8 & B9).
  rewrite map_app, !concat_app, !length_app, <- !app_assoc, <- B1, <- B2, A1, A2, B3, B4, A3, A4, <- !app_assoc.
  repeat split; try done; try congruence; lia.
Qed.

Lemma copied_fit ls ts w w' : counters_fit w -> copied ls ts w w' -> counters_fit w'.
Proof.
  unfold counters_fit, copied. intros (H1 & H2 & H3 & H4) (A1 & A2 & _ & _ & A5 & A6 & _).
  rewrite A1, A2, !length_app in *. lia.
Qed.

(** One turn copies at most one chunk, and stops at the end of a side. *)
Lemma run_relay_turn id w :
  counters_fit w ->
  exists again w' ls ts, run_prog wire (relay_turn id) w = (Ok again, w') /\ copied ls ts w w' /\
    (again = true -> (length (turns w') < length (turns w))%nat).
Proof.
  intros Hfit. unfold relay_turn, call, try_call, mbind, Conn_bind, mret, Conn_ret. cbn.
  destruct (turns w) as [|[] ts] eqn:Et.
  - cbn. exists false, w, [], []. split; [done|]. split; [apply copied_refl|done].
  - destruct (read_chunk BUF_SIZE (inbox w)) as [d cs] eqn:Er. apply read_chunk_spec in Er. cbn.
    destruct (Nat.eqb_spec (length d) 0) as [Hz|Hz]; cbn.
    + destruct d; [|done]. eexists false, _, [], []. split; [done|]. split; [|done].
      unfold copied. cbn. rewrite !app_nil_r. repeat split; try lia. done.
    + eexists true, _, [d], []. split; [done|]. split; [|intros _; cbn; lia].
      unfold copied. cbn. rewrite !app_nil_r. destruct Hfit as (? & ? & Hs & ?).
      rewrite Er, length_app in Hs. rewrite wrap_add_small by lia.
      repeat split; try done; lia.
  - destruct (read_chunk BUF_SIZE (tunnel_inbox w)) as [d cs] eqn:Er. apply read_chunk_spec in Er. cbn.
    destruct (Nat.eqb_spec (length d) 0) as [Hz|Hz]; cbn.
    + destruct d; [|done]. eexists false, _, [], []. split; [done|]. split; [|done].
      unfold copied. cbn. rewrite !app_nil_r. repeat split; try lia. done.
    + eexists true, _, [], [d]. split; [done|]. split; [|intros _; cbn; lia].
      unfold copied. cbn. rewrite !app_nil_r. destruct Hfit as (? & ? & ? & Hs).
      rewrite Er, length_app in Hs. rewrite wrap_add_small by lia.
      repeat split; try done; lia.
Qed.

Lemma run_relay fuel id w :
  counters_fit w -> (length (turns w) < fuel)%nat ->
  exists w' ls ts, run_prog wire (relay fuel id) w = (Ok (Some tt), w') /\ copied ls ts w w'.
Proof.
  revert w. induction fuel as [|fuel IH]; intros w Hfit Hfuel; [lia|]. cbn [relay].
  unfold mbind, Conn_bind. rewrite run_bind.
  destruct (run_relay_turn id w Hfit) as (again & w1 & l1 & t1 & -> & Hc & Hdec).
  destruct again; [|by exists w1, l1, t1].
  destruct (IH w1) as (w' & l2 & t2 & Hr & Hc'); [by eapply copied_fit|specialize (Hdec eq_refl); lia|].
  exists w', (l1 ++ l2), (t1 ++ t2). split; [done|]. by eapply copied_trans.
Qed.


Lemma run_relay_and_close fuel id w :
  counters_fit w -> (length (turns w) < fuel)%nat ->
  exists w' ls ts, run_prog wire (relay_and_close fuel id) w = (Ok (Some tt), w_shut (w_shut w' false) true) /\
    copied ls ts w w'.
Proof.
  intros Hfit Hfuel. destruct (run_relay fuel id w Hfit Hfuel) as (w' & ls & ts & Hr & Hc).
  exists w', ls, ts. split; [|done]. unfold relay_and_close. unfold mbind at 1, Conn_bind at 1.
  by rewrite run_bind, Hr.
Qed.

(** ** The handshake *)

Inductive Dest : Type := DestV4 (a b c d : Z) | DestName (name : list Z) | DestV6 (bytes : list Z).

Definition dest_bytes (x : Dest) : list Z :=
  match x with
  | DestV4 a b c d => [1; a; b; c; d]
  | DestName name => 3 :: Z.of_nat (length name) :: name
  | DestV6 bytes => 4 :: bytes
  end.

Definition dest_host (x : Dest) : string :=
  match x with
  | DestV4 a b c d => show_ip (ipv4 a b c d)
  | DestName name => bytes_string name
  | DestV6 bytes => show_ip (v6_of_bytes bytes)
  end.

Definition dest_ok (x : Dest) : Prop :=
  match x with
  | DestV4 _ _ _ _ => True
  | DestName name => valid_utf8 name = true
  | DestV6 bytes => length bytes = 16%nat
  end.

(** What a client sends: the methods it offers and a connect request. *)
Definition greeting (methods : list Z) : list Z := 5 :: Z.of_nat (length methods) :: methods.
Definition request (x : Dest) (port : Z) : list Z :=
  [5; 1; 0] ++ dest_bytes x ++ [port / 256; port mod 256].

Definition set_input (w : Wire) (m : list Z) : Wire := w_inbox w [m].

(** Reading what is next on the wire. *)
Lemma run_read_exact {A} (d rest : list Z) w (k : list Z -> Conn A) :
  concat (inbox w) = d ++ rest ->
  run_prog wire (read_exact (length d) ≫= k) w = run_prog wire (k d) (set_input w rest).
Proof.
  intros Hin. unfold read_exact, try_call, mbind, Conn_bind. cbn. unfold read_bytes. rewrite Hin, length_app.
  replace (length d <=? length d + length rest)%nat with true by (symmetry; apply Nat.leb_le; lia).
  rewrite take_app_length, drop_app_length. done.
Qed.

Lemma set_input_concat w m : concat (inbox (set_input w m)) = m.
Proof. cbn. by rewrite app_nil_r. Qed.

Lemma run_write_all {A} d w (k : unit -> Conn A) :
  run_prog wire (write_all d ≫= k) w = run_prog wire (k tt) (w_to_client w d).
Proof. done. Qed.

Lemma run_read_port {A} port rest w (k : Z -> Conn A) :
  concat (inbox w) = [port / 256; port mod 256] ++ rest ->
  run_prog wire (read_port ≫= k) w = run_prog wire (k port) (set_input w rest).
Proof.
  intros Hin. unfold read_port. unfold mbind at 1, Conn_bind at 1. rewrite run_bind.
  rewrite (run_read_exact [port / 256; port mod 256] rest) by done.
  cbn. unfold from_be_bytes. cbn. pose proof (Z.div_mod port 256). do 2 f_equal. lia.
Qed.

Lemma run_read_destination x port rest w :
  dest_ok x -> (forall name, x = DestName name -> (length name < 256)%nat) ->
  concat (inbox w) = tail (dest_bytes x) ++ [port / 256; port mod 256] ++ rest ->
  run_prog wire (read_destination (byte_at (dest_bytes x) 0)) w =
    (Ok (dest_host x, port), set_input w rest).
Proof.
  intros Hok Hlen Hin. unfold read_destination. destruct x as [a b c d|name|bytes]; cbn in Hin.
  - change (byte_at (dest_bytes (DestV4 a b c d)) 0 =? 1) with true. cbn iota.
    rewrite (run_read_exact [a; b; c; d] ([port / 256; port mod 256] ++ rest)) by done.
    rewrite (run_read_port port rest) by apply set_input_concat. done.
  - change (byte_at (dest_bytes (DestName name)) 0 =? 1) with false.
    change (byte_at (dest_bytes (DestName name)) 0 =? 3) with true. cbn iota.
    rewrite (run_read_exact [Z.of_nat (length name)] (name ++ [port / 256; port mod 256] ++ rest)) by done.
    change (byte_at [Z.of_nat (length name)] 0) with (Z.of_nat (length name)). rewrite Nat2Z.id.
    rewrite (run_read_exact name ([port / 256; port mod 256] ++ rest)) by apply set_input_concat.
    rewrite (run_read_port port rest) by apply set_input_concat. cbn in Hok. by rewrite Hok.
  - change (byte_at (dest_bytes (DestV6 bytes)) 0 =? 1) with false.
    change (byte_at (dest_bytes (DestV6 bytes)) 0 =? 3) with false.
    change (byte_at (dest_bytes (DestV6 bytes)) 0 =? 4) with true. cbn iota. cbn in Hok. rewrite <- Hok.
    rewrite (run_read_exact bytes ([port / 256; port mod 256] ++ rest)) by done.
    rewrite (run_read_port port rest) by apply set_input_concat. done.
Qed.

Lemma run_socks_methods {A} methods rest w (k : unit -> Conn A) :
  concat (inbox w) = methods ++ rest ->
  exists w', run_prog wire (socks_methods (Z.of_nat (length methods)) ≫= k) w = run_prog wire (k tt) w' /\
    concat (inbox w') = rest /\ forall m, set_input w' m = set_input (w_to_client w [5; 0]) m.
Proof.
  intros Hin. unfold socks_methods. destruct methods as [|b methods].
  - exists (w_to_client w [5; 0]). done.
  - replace (0 <? Z.of_nat (length (b :: methods))) with true by (symmetry; apply Z.ltb_lt; cbn; lia).
    rewrite Nat2Z.id. set (n := length (b :: methods)). unfold mbind at 1 2, Conn_bind at 1 2. rewrite !run_bind.
    subst n. rewrite (run_read_exact (b :: methods) rest) by done.
    exists (w_to_client (set_input w rest) [5; 0]). cbn. by rewrite app_nil_r.
Qed.

Lemma run_socks_request x port rest w :
  dest_ok x -> (forall name, x = DestName name -> (length name < 256)%nat) ->
  concat (inbox w) = request x port ++ rest ->
  run_prog wire socks_request w = (Ok (dest_host x, port), set_input w rest).
Proof.
  intros Hok Hname Hin. unfold socks_request.
  assert (Hd : exists t, dest_bytes x = t :: tail (dest_bytes x)) by (destruct x; eexists; reflexivity).
  destruct Hd as [t Ht]. unfold request in Hin. rewrite Ht, <- !app_assoc in Hin.
  rewrite (run_read_exact [5; 1; 0; t] (tail (dest_bytes x) ++ [port / 256; port mod 256] ++ rest)) by done.
  change (negb (byte_at [5; 1; 0; t] 0 =? 5)) with false. change (negb (byte_at [5; 1; 0; t] 1 =? 1)) with false.
  cbn iota. change (byte_at [5; 1; 0; t] 3) with t.
  replace t with (byte_at (dest_bytes x) 0) by (by rewrite Ht).
  rewrite (run_read_destination x port rest); [done|done|done|apply set_input_concat].
Qed.

(** A client whose first chunk holds the two bytes the server reads first gets
    its methods accepted, whatever they are, and its destination read; what it
    sent after the request is left for the relay. *)
Lemma run_socks_handshake methods x port c cs rest w :
  dest_ok x -> (forall name, x = DestName name -> (length name < 256)%nat) ->
  inbox w = c :: cs -> (2 <= length c)%nat ->
  concat (inbox w) = greeting methods ++ request x port ++ rest ->
  run_prog wire socks_handshake w =
    (Ok (dest_host x, port), set_input (w_to_client w [5; 0]) rest).
Proof.
  intros Hok Hname Hin Hc Hall. unfold socks_handshake.
  destruct c as [|b0 [|b1 c]]; [simpl in Hc; lia..|].
  rewrite Hin in Hall. cbn in Hall. injection Hall as -> -> Hrest.
  unfold mbind at 1, Conn_bind at 1, try_call. cbn [prog_bind run_prog wire]. rewrite Hin.
  cbn [read_chunk take drop]. set (w1 := w_inbox w _).
  assert (Hin1 : concat (inbox w1) = methods ++ request x port ++ rest).
  { subst w1. cbn. rewrite <- Hrest. destruct c; by rewrite ?app_nil_l. }
  change (run_prog wire (socks_methods (Z.of_nat (length methods)) ≫= fun _ => socks_request) w1 =
    (Ok (dest_host x, port), set_input (w_to_client w [5; 0]) rest)).
  destruct (run_socks_methods methods (request x port ++ rest) w1 (fun _ => socks_request) Hin1) as (w2 & -> & Hin2 & Hset).
  rewrite (run_socks_request x port rest w2) by done. by rewrite Hset.
Qed.

Lemma run_open {A} host port peer w (k : result unit unit -> Conn A) :
  run_prog wire (call (open_tunnel host port peer) ≫= k) w =
  run_prog wire (k (if provider_opens w then Ok tt else Err tt)) (w_opened w (host, port)).
Proof. done. Qed.

Lemma run_socks_connection fuel peer id host port w w' :
  run_prog wire socks_handshake w = (Ok (host, port), w') ->
  run_prog wire (handle_socks_connection fuel peer id) w =
  run_prog wire (if provider_opens w' then _ ← write_all (socks_reply 0); relay_and_close fuel id
                 else _ ← write_all (socks_reply 5); fail TunnelRefused) (w_opened w' (host, port)).
Proof.
  intros Hs. unfold handle_socks_connection. unfold mbind at 1, Conn_bind at 1. rewrite run_bind, Hs.
  etrans; [apply run_open|]. by destruct (provider_opens w').
Qed.

(** a client that sends its greeting in one piece, whatever methods it
    offers, and a connect request gets a tunnel to exactly the host and port it
    named; the rest of what it sent is relayed.  When the provider refuses, it
    gets the refusal code and the connection ends. *)
Theorem socks_connects fuel peer id methods x port c cs rest w :
  dest_ok x -> (forall name, x = DestName name -> (length name < 256)%nat) ->
  inbox w = c :: cs -> (2 <= length c)%nat ->
  concat (inbox w) = greeting methods ++ request x port ++ rest ->
  counters_fit w -> (length (turns w) < fuel)%nat ->
  exists w', opened w' = push (opened w) (dest_host x, port) /\
    if provider_opens w then
      run_prog wire (handle_socks_connection fuel peer id) w = (Ok (Some tt), w') /\
      shut w' = shut w ++ [false; true] /\
      exists ls ts, rest = concat ls ++ concat (inbox w') /\
        to_tunnel w' = to_tunnel w ++ concat (map (fun d => take (accept d) d) ls) /\
        to_client w' = to_client w ++ [5; 0] ++ socks_reply 0 ++ concat ts
    else
      run_prog wire (handle_socks_connection fuel peer id) w = (Err TunnelRefused, w') /\
      to_client w' = to_client w ++ [5; 0] ++ socks_reply 5.
Proof.
  intros Hok Hname Hin Hc Hall Hfit Hfuel.
  pose proof (run_socks_handshake methods x port c cs rest w Hok Hname Hin Hc Hall) as Hs.
  rewrite (run_socks_connection fuel peer id _ _ _ _ Hs).
  set (w1 := w_opened (set_input (w_to_client w [5; 0]) rest) (dest_host x, port)).
  destruct (provider_opens w) eqn:Ep.
  - destruct (run_relay_and_close fuel id (w_to_client w1 (socks_reply 0))) as (w' & ls & ts & Hr & Hcp);
      [|done|].
    { destruct Hfit as (H1 & H2 & H3 & H4). rewrite Hall, !length_app in H3. unfold counters_fit. cbn -[Z.of_nat u64_max].
      rewrite app_nil_r. split; [done|]. split; [done|]. split; [lia|done]. }
    destruct Hcp as (A1 & _ & A3 & A4 & _ & _ & A7 & A8 & _). cbn in A1, A3, A4, A7, A8.
    exists (w_shut (w_shut w' false) true). split; [exact A7|]. split; [|split].
    + change (provider_opens (set_input _ _)) with (provider_opens w). rewrite Ep. by rewrite run_write_all.
    + cbn. unfold push. rewrite A8, <- app_assoc. done.
    + exists ls, ts. rewrite app_nil_r in A1. cbn [w_shut to_client]. rewrite A4, <- !app_assoc. done.
  - exists (w_to_client w1 (socks_reply 5)). split; [done|]. split.
    + change (provider_opens (set_input _ _)) with (provider_opens w). by rewrite Ep.
    + cbn. by rewrite <- app_assoc.
Qed.
End Wire.

(** ** Examples *)

Definition demo_wire (chunks : list (list Z)) (ts : list bool) : Wire := {|
  inbox := chunks; tunnel_inbox := [[9; 9]]; turns := ts; to_client := []; to_tunnel := [];
  provider_opens := true; opened := []; traffic := ForwardStats_default; shut := [] |}.

(** A valid greeting whose first byte arrives alone is refused. *)
Theorem socks_split_greeting_refused :
  (run_prog (wire (@length Z)) socks_handshake
    (demo_wire [[5]; [1; 0] ++ request (DestName [104; 105]) 80] [])).1 = Err HandshakeTooShort /\
  (run_prog (wire (@length Z)) socks_handshake
    (demo_wire [[5; 1]; [0] ++ request (DestName [104; 105]) 80] [])).1 = Ok ("hi", 80).
Proof. by vm_compute. Qed.

(** when the tunnel takes only part of a write, the rest is lost and yet
    counted as sent. *)
Theorem short_write_loses_bytes :
  let r := run_prog (wire (fun _ => 1%nat)) (relay 3 1) (demo_wire [[1; 2; 3]; [4; 5]] [true; true]) in
  r.1 = Ok (Some tt) /\ to_tunnel r.2 = [1; 4] /\ bytes_sent (traffic r.2) = 5.
Proof. by vm_compute. Qed.


Lemma socks_connects_witness :
  let w := demo_wire [greeting [0; 2]; request (DestV4 10 0 0 1) 22; [7; 8]] [true] in
  exists w', opened w' = push (opened w) (show_ip (ipv4 10 0 0 1), 22) /\
    run_prog (wire (@length Z)) (handle_socks_connection 3 {| sa_ip := localhost_v4; sa_port := 4000 |} 1) w = (Ok (Some tt), w') /\
    shut w' = shut w ++ [false; true] /\
    exists ls ts, [7; 8] = concat ls ++ concat (inbox w') /\
      to_tunnel w' = to_tunnel w ++ concat (map (fun d => take (length d) d) ls) /\
      to_client w' = to_client w ++ [5; 0] ++ socks_reply 0 ++ concat ts.
Proof.
  apply (socks_connects (@length Z) 3 {| sa_ip := localhost_v4; sa_port := 4000 |} 1 [0; 2]
    (DestV4 10 0 0 1) 22 (greeting [0; 2]) [request (DestV4 10 0 0 1) 22; [7; 8]] [7; 8]
    (demo_wire [greeting [0; 2]; request (DestV4 10 0 0 1) 22; [7; 8]] [true])).
  - done.
  - done.
  - reflexivity.
  - simpl. lia.
  - reflexivity.
  - by vm_compute.
  - simpl. lia.
Defined.
