(* ===== verification/Policy.v ===== *)
(** * Policy cache (omni-ssh/src/policy/mod.rs)

    The cached policy with its ages, and the manager that serves it, fetches a
    new one or falls back on the copy on disk.  The cache is shared with the
    background refreshes, so reading and writing it are calls, as are the clock,
    the backend and the file; [None] as a result is a panic. *)

From S2P Require Import Prelude Effects SshTypes.

Open Scope string_scope.
Open Scope list_scope.
Open Scope Z_scope.

Inductive PolicyValidity : Set := Fresh | Stale | Expired | Invalid.

#[global] Instance PolicyValidity_eq_dec : EqDecision PolicyValidity.
Proof. solve_decision. Defined.

(** Times and durations in nanoseconds. *)
Record PolicyCache : Set := {
  policy : SshPolicy; fetched_at : Z; etag : option string;
  max_age : Z; grace_period : Z; hard_expiry : Z }.

Definition PolicyCache_with_timeouts (now : Z) (p : SshPolicy) (tag : option string) (ma gp he : Z)
    : PolicyCache := {|
  policy := p; fetched_at := now; etag := tag; max_age := ma; grace_period := gp; hard_expiry := he |}.

Definition PolicyCache_new (now : Z) (p : SshPolicy) (tag : option string) : PolicyCache := {|
  policy := p; fetched_at := now; etag := tag;
  max_age := from_secs 60; grace_period := from_secs 300; hard_expiry := from_secs 3600 |}.

(** [(Utc::now() - fetched_at).to_std()], which fails on a negative span. *)
Definition to_std (span : Z) : option Z := if span <? 0 then None else Some span.

(** [None]: the sum of the durations overflows and panics. *)
Definition validity (now : Z) (c : PolicyCache) : option PolicyValidity :=
  let age := from_option id duration_max (to_std (now - fetched_at c)) in
  if age <? max_age c then Some Fresh
  else if duration_max <? max_age c + grace_period c then None
  else if age <? max_age c + grace_period c then Some Stale
  else if age <? hard_expiry c then Some Expired
  else Some Invalid.

Definition should_refresh (now : Z) (c : PolicyCache) : option bool :=
  v ← validity now c;
  Some (match v with Stale | Expired | Invalid => true | Fresh => false end).

Definition age (now : Z) (c : PolicyCache) : Z := from_option id 0 (to_std (now - fetched_at c)).

(** ** The manager *)

Record PolicyManager : Type := { cache_file : option string; refresh_interval : Z }.

Definition PolicyManager_new (file : option string) : PolicyManager := {|
  cache_file := file; refresh_interval := from_secs 60 |}.
Definition with_refresh_interval (file : option string) (interval : Z) : PolicyManager := {|
  cache_file := file; refresh_interval := interval |}.

Inductive PolicyCall : Set -> Set :=
| UtcNow : PolicyCall Z
| ReadCache : PolicyCall (option PolicyCache)
| WriteCache (c : option PolicyCache) : PolicyCall unit
| GetSshPolicy : PolicyCall (result string SshPolicy)
| SpawnRefresh : PolicyCall unit
| WriteFile (path json : string) : PolicyCall bool
| ReadToString (path : string) : PolicyCall (option string).

Definition Pm (A : Type) : Type := prog PolicyCall (option A).

#[global] Instance Pm_ret : MRet Pm := fun A a => Ret (Some a).
#[global] Instance Pm_bind : MBind Pm := fun A B f m =>
  prog_bind m (fun r => match r with Some a => f a | None => Ret None end).

Definition call {R : Set} (c : PolicyCall R) : Pm R := Vis c (fun r => Ret (Some r)).
Definition or_panic {A} (o : option A) : Pm A := Ret o.

(** The JSON form of a policy (serde). *)
Class PolicyCodec : Type := {
  to_string_pretty : SshPolicy -> option string;
  from_str : string -> option SshPolicy }.

Section Manager.
Context `{PolicyCodec} (self : PolicyManager).

Definition validity_now (c : PolicyCache) : Pm PolicyValidity :=
  now ← call UtcNow; or_panic (validity now c).

Definition save_to_disk (p : SshPolicy) : Pm unit :=
  match cache_file self with
  | Some path =>
      match to_string_pretty p with
      | Some json => _ ← call (WriteFile path json); mret tt
      | None => mret tt
      end
  | None => mret tt
  end.

Definition load_from_disk : Pm (option SshPolicy) :=
  match cache_file self with
  | Some path => text ← call (ReadToString path); mret (text ≫= from_str)
  | None => mret None
  end.

Definition refresh : Pm (result string SshPolicy) :=
  reply ← call GetSshPolicy;
  match reply with
  | Err e => mret (Err e)
  | Ok p =>
      now ← call UtcNow;
      _ ← call (WriteCache (Some (PolicyCache_new now p None)));
      _ ← save_to_disk p;
      mret (Ok p)
  end.

(** The way taken when nothing usable is cached. *)
Definition fetch : Pm (result string (SshPolicy * PolicyValidity)) :=
  fetched ← refresh;
  match fetched with
  | Ok p => mret (Ok (p, Fresh))
  | Err e =>
      cached ← call ReadCache;
      usable ← match cached with
               | Some c => v ← validity_now c; mret (negb (bool_decide (v = Invalid)))
               | None => mret false
               end;
      match cached, usable with
      | Some c, true => v ← validity_now c; mret (Ok (policy c, v))
      | _, _ =>
          disk ← load_from_disk;
          match disk with
          | Some p =>
              now ← call UtcNow;
              _ ← call (WriteCache (Some (PolicyCache_new now p None)));
              mret (Ok (p, Stale))
          | None => mret (Err e)
          end
      end
  end.

Definition get_policy : Pm (result string (SshPolicy * PolicyValidity)) :=
  cached ← call ReadCache;
  match cached with
  | Some c =>
      v ← validity_now c;
      match v with
      | Fresh => mret (Ok (policy c, v))
      | Stale => _ ← call SpawnRefresh; mret (Ok (policy c, v))
      | Expired | Invalid => fetch
      end
  | None => fetch
  end.

Definition cache_status : Pm (option (PolicyValidity * Z)) :=
  cached ← call ReadCache;
  match cached with
  | Some c => v ← validity_now c; now ← call UtcNow; mret (Some (v, age now c))
  | None => mret None
  end.

Definition clear_cache : Pm unit := call (WriteCache None).

Definition has_valid_policy : Pm bool :=
  cached ← call ReadCache;
  match cached with
  | Some c => v ← validity_now c; mret (negb (bool_decide (v = Invalid)))
  | None => mret false
  end.

(** The scheduled refresh: [ticks] rounds of the loop. *)
Fixpoint background_refresh (ticks : nat) : Pm unit :=
  match ticks with
  | O => mret tt
  | S ticks => _ ← refresh; background_refresh ticks
  end.
End Manager.

(** ** Ages *)

Definition staleness (v : PolicyValidity) : Z :=
  match v with Fresh => 0 | Stale => 1 | Expired => 2 | Invalid => 3 end.

Definition durations_ok (c : PolicyCache) : Prop :=
  0 < max_age c /\ 0 <= grace_period c /\ max_age c + grace_period c <= duration_max /\
  hard_expiry c <= duration_max.

Lemma new_durations_ok now p tag : durations_ok (PolicyCache_new now p tag).
Proof. repeat split; by vm_compute. Qed.

Lemma validity_total now c : durations_ok c -> exists v, validity now c = Some v.
Proof.
  intros (_ & _ & H & _). unfold validity.
  replace (duration_max <? max_age c + grace_period c) with false by (symmetry; apply Z.ltb_ge; lia).
  repeat case_match; eauto.
Qed.

(** the validity of a policy fetched in the past is decided by its age:
    fresh, stale, expired, invalid, never fresher as time passes; one fetched
    in the future is invalid although its age is given as zero. *)
Theorem validity_spec c now :
  durations_ok c ->
  (fetched_at c <= now ->
     (validity now c = Some Fresh <-> now < fetched_at c + max_age c) /\
     (validity now c = Some Stale <->
        fetched_at c + max_age c <= now < fetched_at c + max_age c + grace_period c) /\
     (validity now c = Some Invalid <->
        fetched_at c + max_age c + grace_period c <= now /\ fetched_at c + hard_expiry c <= now) /\
     (forall later, now <= later -> exists v v', validity now c = Some v /\
        validity later c = Some v' /\ staleness v <= staleness v')) /\
  (now < fetched_at c -> validity now c = Some Invalid /\ age now c = 0).
Proof.
  intros (H1 & H2 & H3 & H4).
  assert (Hpast : forall t, fetched_at c <= t -> to_std (t - fetched_at c) = Some (t - fetched_at c)).
  { intros t Ht. unfold to_std. by replace (t - fetched_at c <? 0) with false by (symmetry; apply Z.ltb_ge; lia). }
  assert (Hnp : (duration_max <? max_age c + grace_period c) = false) by (apply Z.ltb_ge; lia).
  split.
  - intros Hp. split; [|split; [|split]]; [unfold validity; rewrite Hpast by done; cbn; rewrite Hnp;
      repeat case_match; reflect_bools; split; intros; simplify_eq; try done; lia..|].
    intros later Hl. unfold validity. rewrite !Hpast by lia. cbn. rewrite Hnp.
    repeat case_match; reflect_bools; do 2 eexists; (split; [done|]; split; [done|]; cbn; lia).
  - intros Hf. unfold validity, age.
    assert (to_std (now - fetched_at c) = None) as ->.
    { unfold to_std. by replace (now - fetched_at c <? 0) with true by (symmetry; apply Z.ltb_lt; lia). }
    cbn. rewrite Hnp. repeat case_match; reflect_bools; try lia; done.
Qed.

(** ** The manager against a world

    The world holds the time of the call, the shared cache, what the backend
    answers, the file and the number of refreshes spawned. *)

Record World : Type := {
  w_now : Z; w_cache : option PolicyCache; w_backend : result string SshPolicy;
  w_file : option string; w_writable : bool; w_spawned : nat }.

Definition set_cache (w : World) c : World := {|
  w_now := w_now w; w_cache := c; w_backend := w_backend w; w_file := w_file w;
  w_writable := w_writable w; w_spawned := w_spawned w |}.
Definition set_file (w : World) f : World := {|
  w_now := w_now w; w_cache := w_cache w; w_backend := w_backend w; w_file := f;
  w_writable := w_writable w; w_spawned := w_spawned w |}.
Definition spawn (w : World) : World := {|
  w_now := w_now w; w_cache := w_cache w; w_backend := w_backend w; w_file := w_file w;
  w_writable := w_writable w; w_spawned := S (w_spawned w) |}.
Definition at_time (t : Z) (w : World) : World := {|
  w_now := t; w_cache := w_cache w; w_backend := w_backend w; w_file := w_file w;
  w_writable := w_writable w; w_spawned := w_spawned w |}.

Definition world (R : Set) (c : PolicyCall R) (w : World) : R * World :=
  match c in PolicyCall R return R * World with
  | UtcNow => (w_now w, w)
  | ReadCache => (w_cache w, w)
  | WriteCache c => (tt, set_cache w c)
  | GetSshPolicy => (w_backend w, w)
  | SpawnRefresh => (tt, spawn w)
  | WriteFile _ json => (w_writable w, if w_writable w then set_file w (Some json) else w)
  | ReadToString _ => (w_file w, w)
  end.

Section Outcomes.
Context `{PolicyCodec} (self : PolicyManager).

(** What the file offers the manager. *)
Definition on_disk (w : World) : option SshPolicy := _ ← cache_file self; w_file w ≫= from_str.

(** The file after a policy was saved. *)
Definition saved (p : SshPolicy) (w : World) : World :=
  match cache_file self, to_string_pretty p with
  | Some _, Some json => if w_writable w then set_file w (Some json) else w
  | _, _ => w
  end.

Lemma run_refresh w :
  run_prog world (refresh self) w =
  match w_backend w with
  | Ok p => (Some (Ok p), saved p (set_cache w (Some (PolicyCache_new (w_now w) p None))))
  | Err e => (Some (Err e), w)
  end.
Proof.
  unfold refresh, save_to_disk, saved, call, mbind, Pm_bind. simpl. destruct (w_backend w); [|done]. simpl.
  destruct (cache_file self); [|done]. by destruct (to_string_pretty a).
Qed.

(** The fallback when the backend cannot be reached: the cached policy unless
    it is invalid, then the one on disk, which becomes the cached one. *)
Definition fallback (e : string) (w : World) : result string (SshPolicy * PolicyValidity) * World :=
  match w_cache w, on_disk w with
  | Some c, d =>
      match validity (w_now w) c, d with
      | Some Invalid, Some p => (Ok (p, Stale), set_cache w (Some (PolicyCache_new (w_now w) p None)))
      | Some Invalid, None => (Err e, w)
      | Some v, _ => (Ok (policy c, v), w)
      | None, _ => (Err e, w)
      end
  | None, Some p => (Ok (p, Stale), set_cache w (Some (PolicyCache_new (w_now w) p None)))
  | None, None => (Err e, w)
  end.

Lemma run_call {R : Set} {A} (c : PolicyCall R) (k : R -> Pm A) w :
  run_prog world (call c ≫= k) w = let '(r, w') := world R c w in run_prog world (k r) w'.
Proof. done. Qed.

Lemma run_pm_bind {A B} (m : Pm A) (k : A -> Pm B) w :
  run_prog world (m ≫= k) w =
  match run_prog world m w with
  | (Some a, w') => run_prog world (k a) w'
  | (None, w') => (None, w')
  end.
Proof. unfold mbind, Pm_bind. rewrite run_bind. by destruct (run_prog world m w) as [[]]. Qed.

Lemma run_validity {A} c (k : PolicyValidity -> Pm A) w v :
  validity (w_now w) c = Some v -> run_prog world (validity_now c ≫= k) w = run_prog world (k v) w.
Proof. intros Hv. rewrite run_pm_bind. unfold validity_now, or_panic. rewrite run_call. cbn. by rewrite Hv. Qed.

Lemma run_load w : run_prog world (load_from_disk self) w = (Some (on_disk w), w).
Proof. unfold load_from_disk, on_disk, call, mbind, Pm_bind. by destruct (cache_file self). Qed.

Lemma run_fetch w :
  (forall c, w_cache w = Some c -> durations_ok c) ->
  run_prog world (fetch self) w =
  match w_backend w with
  | Ok p => (Some (Ok (p, Fresh)), saved p (set_cache w (Some (PolicyCache_new (w_now w) p None))))
  | Err e => let '(r, w') := fallback e w in (Some r, w')
  end.
Proof.
  intros Hok. unfold fetch. unfold mbind at 1, Pm_bind at 1. rewrite run_bind, run_refresh.
  destruct (w_backend w) as [p|e]; [done|].
  assert (Hdisk : run_prog world (disk ← load_from_disk self;
      match disk with
      | Some p => now ← call UtcNow; _ ← call (WriteCache (Some (PolicyCache_new now p None))); mret (Ok (p, Stale))
      | None => mret (Err e)
      end) w = match on_disk w with
               | Some p => (Some (Ok (p, Stale)), set_cache w (Some (PolicyCache_new (w_now w) p None)))
               | None => (Some (Err e), w)
               end).
  { unfold mbind at 1, Pm_bind at 1. rewrite run_bind, run_load. by destruct (on_disk w). }
  unfold fallback. rewrite run_call. cbn [world]. rewrite run_pm_bind.
  destruct (w_cache w) as [c|] eqn:Ec.
  - destruct (validity_total (w_now w) c (Hok c eq_refl)) as [v Hv].
    rewrite (run_validity _ _ _ _ Hv), Hv. cbn [run_prog mret Pm_ret]. case_bool_decide as Ev; cbn [negb].
    + subst. rewrite Hdisk. by destruct (on_disk w).
    + rewrite (run_validity _ _ _ _ Hv). by destruct v.
  - cbn [run_prog mret Pm_ret]. rewrite Hdisk. by destruct (on_disk w).
Qed.

Lemma get_policy_run w :
  (forall c, w_cache w = Some c -> durations_ok c) ->
  run_prog world (get_policy self) w =
  match w_cache w with
  | Some c =>
      match validity (w_now w) c with
      | Some Fresh => (Some (Ok (policy c, Fresh)), w)
      | Some Stale => (Some (Ok (policy c, Stale)), spawn w)
      | _ => run_prog world (fetch self) w
      end
  | None => run_prog world (fetch self) w
  end.
Proof.
  intros Hok. unfold get_policy. rewrite run_call. cbn [world].
  destruct (w_cache w) as [c|] eqn:Ec; [|done].
  destruct (validity_total (w_now w) c (Hok c eq_refl)) as [v Hv].
  rewrite (run_validity _ _ _ _ Hv), Hv. by destruct v.
Qed.

(** What the manager answers and leaves behind.  A fresh policy is served
    as it is, a stale one too with one refresh spawned; otherwise the backend's
    policy is served, cached and saved; when the backend fails, an expired
    policy is served, and without one the policy on disk. *)
Theorem get_policy_outcome w :
  (forall c, w_cache w = Some c -> durations_ok c) ->
  run_prog world (get_policy self) w =
  match w_cache w with
  | Some c =>
      match validity (w_now w) c with
      | Some Fresh => (Some (Ok (policy c, Fresh)), w)
      | Some Stale => (Some (Ok (policy c, Stale)), spawn w)
      | _ => run_prog world (fetch self) w
      end
  | None => run_prog world (fetch self) w
  end /\
  run_prog world (fetch self) w =
  match w_backend w with
  | Ok p => (Some (Ok (p, Fresh)), saved p (set_cache w (Some (PolicyCache_new (w_now w) p None))))
  | Err e => let '(r, w') := fallback e w in (Some r, w')
  end.
Proof.
  intros Hok. split; [by apply get_policy_run|by apply run_fetch].
Qed.

(** A world in which the backend cannot be reached. *)
Definition offline (p : SshPolicy) (w : World) : Prop :=
  (exists e, w_backend w = Err e) /\ on_disk w = Some p /\
  forall c, w_cache w = Some c -> durations_ok c /\ policy c = p.

(** Asking for the policy at each of the times, one after the other. *)
Fixpoint ask_at (ts : list Z) (w : World) : list (option (result string (SshPolicy * PolicyValidity))) * World :=
  match ts with
  | [] => ([], w)
  | t :: ts =>
      let '(r, w) := run_prog world (get_policy self) (at_time t w) in
      let '(rs, w) := ask_at ts w in (r :: rs, w)
  end.

Lemma offline_step p t w :
  offline p w -> exists v w', run_prog world (get_policy self) (at_time t w) = (Some (Ok (p, v)), w') /\
    v <> Invalid /\ offline p w'.
Proof.
  intros ((e & He) & Hd & Hc). set (wt := at_time t w).
  assert (Hcache : forall w', w_backend w' = w_backend wt -> w_file w' = w_file wt ->
     (w_cache w' = w_cache wt \/ w_cache w' = Some (PolicyCache_new (w_now wt) p None)) -> offline p w').
  { intros w' Hb Hf Hcc. unfold offline, on_disk. rewrite Hb, Hf. split; [by exists e|]. split; [done|].
    intros c. destruct Hcc as [->| ->]; [by apply Hc|]. intros [= <-]. split; [|done].
    apply new_durations_ok. }
  assert (Hok : forall c, w_cache wt = Some c -> durations_ok c) by (intros c Hcc; by apply Hc).
  rewrite (get_policy_run wt Hok), (run_fetch wt Hok).
  change (w_backend wt) with (w_backend w). rewrite He. unfold fallback.
  change (on_disk wt) with (on_disk w). rewrite Hd.
  destruct (w_cache wt) as [c|] eqn:Ec.
  - destruct (Hc c Ec) as [Hd1 <-]. destruct (validity_total (w_now wt) c Hd1) as [v Hv]. rewrite Hv.
    destruct v; do 2 eexists; (split; [reflexivity|]; split; [done|]; apply Hcache; auto).
  - do 2 eexists. split; [reflexivity|]. split; [done|]. apply Hcache; auto.
Qed.

(** with the backend out of reach and a policy on disk, that policy is
    served forever, whatever its age, and never reported invalid: the hard
    expiry bounds nothing. *)
Theorem disk_policy_never_expires p ts w :
  offline p w ->
  Forall (fun r => exists v, r = Some (Ok (p, v)) /\ v <> Invalid) (ask_at ts w).1.
Proof.
  revert w. induction ts as [|t ts IH]; intros w Hw; [by constructor|]. cbn [ask_at].
  destruct (offline_step p t w Hw) as (v & w' & -> & Hv & Hw'). specialize (IH w' Hw').
  destruct (ask_at ts w') as [rs w'']. constructor; [by exists v|done].
Qed.
End Outcomes.

(** ** Witnesses *)

Definition demo_policy : SshPolicy := {| version := 1; updated_at := 0; rules := [] |}.

#[local] Instance demo_codec : PolicyCodec := {|
  to_string_pretty p := Some "policy"; from_str s := if bool_decide (s = "policy") then Some demo_policy else None |}.

Definition demo_world : World := {|
  w_now := from_secs 1000; w_cache := Some (PolicyCache_new 0 demo_policy None);
  w_backend := Err "unreachable"; w_file := Some "policy"; w_writable := true; w_spawned := 0 |}.


Lemma validity_spec_witness :
  validity (from_secs 59) (PolicyCache_new 0 demo_policy None) = Some Fresh.
Proof. apply (validity_spec (PolicyCache_new 0 demo_policy None) (from_secs 59) (new_durations_ok 0 demo_policy None)); by vm_compute. Defined.

Lemma get_policy_outcome_witness :
  run_prog world (get_policy (PolicyManager_new (Some "cache.json"))) demo_world =
    run_prog world (fetch (PolicyManager_new (Some "cache.json"))) demo_world.
Proof.
  refine (proj1 (get_policy_outcome (PolicyManager_new (Some "cache.json")) demo_world _)).
  intros c [= <-]. apply new_durations_ok.
Defined.

Lemma disk_policy_never_expires_witness :
  Forall (fun r => exists v, r = Some (Ok (demo_policy, v)) /\ v <> Invalid)
    (ask_at (PolicyManager_new (Some "cache.json")) [from_secs 4000; from_secs 900000; from_secs 90000000] demo_world).1.
Proof.
  apply disk_policy_never_expires. split; [by eexists|]. split; [by vm_compute|].
  intros c [= <-]. split; [apply new_durations_ok|done].
Defined.
