(* ===== verification/Buffer.v ===== *)
(** * Ring buffers (omni-plugin/src/robotics/data_collection/buffer.rs)

    A buffer keeps the latest samples of a stream in a fixed number of slots;
    the manager keeps one buffer per stream.  Buffers are shared ([Arc]), so the
    manager holds references into a store of buffers.  What the samples carry
    is a parameter: the buffers only ask for its size. *)

From Stdlib Require Import Sorting.Sorted.
From S2P Require Import Prelude F32 SortBy.

Open Scope string_scope.
Open Scope list_scope.
Open Scope Z_scope.

Section Buffers.
Context {Payload : Set} (payload_bytes : Payload -> Z).

Abbreviation StreamId := string (only parsing).

Record DataSample : Set := {
  stream_id : StreamId; timestamp_ns : Z; sequence : Z; data : Payload }.

Definition with_sequence (seq : Z) (s : DataSample) : DataSample := {|
  stream_id := stream_id s; timestamp_ns := timestamp_ns s; sequence := seq; data := data s |}.

Record BufferStats : Type := {
  samples_pushed : Z; samples_dropped : Z; samples_evicted : Z; bytes_written : Z }.

Definition BufferStats_default : BufferStats := {|
  samples_pushed := 0; samples_dropped := 0; samples_evicted := 0; bytes_written := 0 |}.

Record RingBuffer : Type := {
  rb_stream_id : StreamId;
  storage : list (option DataSample);
  write_pos : Z;
  total_written : Z;
  capacity : nat;
  max_age_ns : Z;
  rb_stats : BufferStats }.

(** [max_age]: the age in nanoseconds, already converted from seconds. *)
Definition RingBuffer_new (sid : StreamId) (cap : nat) (max_age : Z) : RingBuffer := {|
  rb_stream_id := sid; storage := replicate cap None; write_pos := 0; total_written := 0;
  capacity := cap; max_age_ns := max_age; rb_stats := BufferStats_default |}.

(** [None]: the remainder by a capacity of zero panics. *)
Definition push (b : RingBuffer) (sample : DataSample) : option RingBuffer :=
  let seq := total_written b in
  let sample := with_sequence seq sample in
  let pos := write_pos b in
  if (capacity b =? 0)%nat then None
  else
    let slot := Z.to_nat (pos mod Z.of_nat (capacity b)) in
    let st := rb_stats b in
    Some {| rb_stream_id := rb_stream_id b;
            storage := <[slot := Some sample]> (storage b);
            write_pos := wrap_add u64_max pos 1;
            total_written := wrap_add u64_max seq 1;
            capacity := capacity b; max_age_ns := max_age_ns b;
            rb_stats := {| samples_pushed := wrap_add u64_max (samples_pushed st) 1;
                           samples_dropped := samples_dropped st;
                           samples_evicted := samples_evicted st;
                           bytes_written := wrap_add u64_max (bytes_written st) (payload_bytes (data sample)) |} |}.

(** The samples in the slots, in slot order. *)
Definition samples (b : RingBuffer) : list DataSample := omap id (storage b).

Definition in_window (start_ns end_ns : Z) (s : DataSample) : bool :=
  (start_ns <=? timestamp_ns s) && (timestamp_ns s <=? end_ns).

Definition older (x y : DataSample) : bool := timestamp_ns x <=? timestamp_ns y.
Definition newer (x y : DataSample) : bool := timestamp_ns y <=? timestamp_ns x.

Definition get_range (b : RingBuffer) (start_ns end_ns : Z) : list DataSample :=
  sort_by older (List.filter (in_window start_ns end_ns) (samples b)).

Definition get_since (b : RingBuffer) (since_ns : Z) : list DataSample :=
  get_range b since_ns u64_max.

Definition get_latest (b : RingBuffer) (count : nat) : list DataSample :=
  rev (take count (sort_by newer (samples b))).

Definition clear (b : RingBuffer) : RingBuffer := {|
  rb_stream_id := rb_stream_id b; storage := map (fun _ => None) (storage b); write_pos := 0;
  total_written := total_written b; capacity := capacity b; max_age_ns := max_age_ns b;
  rb_stats := rb_stats b |}.

(** The used slots the utilization divides by the capacity. *)
Definition utilization_used (b : RingBuffer) : Z := Z.min (total_written b) (Z.of_nat (capacity b)).

Definition time_range (b : RingBuffer) : option (Z * Z) :=
  match samples b with
  | [] => None
  | ss => Some (foldl (fun m s => Z.min m (timestamp_ns s)) u64_max ss,
                foldl (fun m s => Z.max m (timestamp_ns s)) 0 ss)
  end.

Definition evictable (cutoff : Z) (o : option DataSample) : bool :=
  match o with Some s => timestamp_ns s <? cutoff | None => false end.

Definition evict_old (b : RingBuffer) (current_time_ns : Z) : nat * RingBuffer :=
  let cutoff := sat_sub current_time_ns (max_age_ns b) in
  let evicted := length (List.filter (evictable cutoff) (storage b)) in
  let st := rb_stats b in
  (evicted,
   {| rb_stream_id := rb_stream_id b;
      storage := map (fun o => if evictable cutoff o then None else o) (storage b);
      write_pos := write_pos b; total_written := total_written b; capacity := capacity b;
      max_age_ns := max_age_ns b;
      rb_stats := {| samples_pushed := samples_pushed st; samples_dropped := samples_dropped st;
                     samples_evicted := wrap_add u64_max (samples_evicted st) (Z.of_nat evicted);
                     bytes_written := bytes_written st |} |}).

Definition len (b : RingBuffer) : nat :=
  length (List.filter (fun o => match o with Some _ => true | None => false end) (storage b)).
Definition is_empty (b : RingBuffer) : bool := (len b =? 0)%nat.

(** ** A buffer against the log of what was pushed *)

(** The slots hold the end of the log [l]: the newest samples before the
    writing position, the older ones behind it. *)
Definition ring_shape (c : nat) (l : list DataSample) (st : list (option DataSample)) : Prop :=
  exists newest rest, st = map Some newest ++ rest /\ length newest = (length l mod c)%nat /\
    (((length l < c)%nat /\ newest = l /\ rest = replicate (c - length l) None) \/
     ((c <= length l)%nat /\ exists old, rest = map Some old /\ drop (length l - c) l = old ++ newest)).

(** The buffer after the log [l] was pushed since the last clear. *)
Definition holds (b : RingBuffer) (l : list DataSample) : Prop :=
  (0 < capacity b)%nat /\ write_pos b = Z.of_nat (length l) /\ ring_shape (capacity b) l (storage b).

Lemma ring_shape_nil c : (0 < c)%nat -> ring_shape c [] (replicate c None).
Proof.
  intros Hc. exists [], (replicate c None). split; [done|].
  split; [by rewrite Nat.Div0.mod_0_l|]. left. by rewrite Nat.sub_0_r.
Qed.

Lemma ring_shape_length c l st : (0 < c)%nat -> ring_shape c l st -> length st = c.
Proof.
  intros Hc (newest & rest & -> & Hn & Hcase). rewrite length_app, length_map.
  destruct Hcase as [(Hlt & -> & ->)|(Hge & old & -> & Hd)].
  - rewrite length_replicate. lia.
  - rewrite length_map. apply (f_equal length) in Hd. rewrite length_drop, length_app in Hd. lia.
Qed.

Lemma insert_slot (newest : list DataSample) y r rest :
  <[length newest := Some y]> (map Some newest ++ r :: rest) = map Some (newest ++ [y]) ++ rest.
Proof. induction newest as [|a l IH]; simpl; [done|]. by f_equal. Qed.

(** A full turn: everything is newest, or everything is old. *)
Lemma ring_shape_wrap c l newest :
  (0 < c)%nat -> (c <= length l)%nat -> (length l mod c = 0)%nat -> drop (length l - c) l = newest ->
  ring_shape c l (map Some newest).
Proof.
  intros Hc Hge Hm Hd. exists [], (map Some newest). split; [done|]. split; [done|]. right.
  split; [done|]. exists newest. by rewrite app_nil_r.
Qed.

Lemma ring_shape_push c l st y :
  (0 < c)%nat -> ring_shape c l st ->
  ring_shape c (l ++ [y]) (<[(length l mod c)%nat := Some y]> st).
Proof.
  intros Hc (newest & rest & -> & Hn & Hcase). rewrite <- Hn.
  assert (Hlen : length (l ++ [y]) = S (length l)) by (rewrite length_app; simpl; lia).
  pose proof (succ_mod (length l) c Hc) as Hmod. rewrite <- Hn, <- Hlen in Hmod.
  destruct Hcase as [(Hlt & -> & ->)|(Hge & old & -> & Hd)].
  - destruct (c - length l)%nat as [|m] eqn:Em; [lia|]. cbn [replicate]. rewrite insert_slot.
    destruct (Nat.eqb_spec (S (length l)) c) as [E|E].
    + assert (m = 0%nat) as -> by lia. rewrite app_nil_r.
      apply ring_shape_wrap; [done|lia|done|]. by replace (length (l ++ [y]) - c)%nat with 0%nat by lia.
    + exists (l ++ [y]), (replicate m None). split; [done|]. split; [lia|]. left.
      split; [lia|]. split; [done|]. f_equal. lia.
  - assert (Hold : (length old + length newest = c)%nat).
    { apply (f_equal length) in Hd. rewrite length_drop, length_app in Hd. lia. }
    pose proof (Nat.mod_upper_bound (length l) c ltac:(lia)).
    destruct old as [|o old]; [simpl in Hold; lia|]. cbn [map]. rewrite insert_slot.
    assert (Hd' : drop (length (l ++ [y]) - c) (l ++ [y]) = old ++ newest ++ [y]).
    { rewrite Hlen. replace (S (length l) - c)%nat with (S (length l - c)) by lia.
      rewrite drop_app_le by lia.
      replace (drop (S (length l - c)) l) with (drop 1 (drop (length l - c) l)) by (rewrite drop_drop; f_equal; lia).
      rewrite Hd. change (drop 1 ((o :: old) ++ newest)) with (drop 0 (old ++ newest)).
      by rewrite drop_0, <- app_assoc. }
    simpl in Hold. destruct (Nat.eqb_spec (S (length newest)) c) as [E|E].
    + assert (old = []) as -> by (destruct old; [done|simpl in Hold; lia]). rewrite app_nil_r.
      apply ring_shape_wrap; [done|lia|done|done].
    + exists (newest ++ [y]), (map Some old). split; [done|].
      split; [rewrite length_app; simpl; lia|]. right. split; [lia|]. exists old. done.
Qed.

(** What the slots hold, in some order: the last [capacity] samples. *)
Lemma ring_shape_samples c l st : ring_shape c l st -> omap id st ≡ₚ drop (length l - c) l.
Proof.
  intros (newest & rest & -> & Hn & Hcase). rewrite omap_app.
  assert (Hsome : forall k : list DataSample, omap id (map Some k) = k) by (intros k; induction k as [|a k IH]; [done|]; cbn; f_equal; exact IH).
  rewrite Hsome. destruct Hcase as [(Hlt & -> & ->)|(Hge & old & -> & ->)].
  - replace (length l - c)%nat with 0%nat by lia.
    assert (forall n, omap id (replicate n (@None DataSample)) = []) as -> by (intros n; by induction n).
    by rewrite app_nil_r.
  - rewrite Hsome. apply Permutation_app_comm.
Qed.

Lemma holds_new sid cap age : (0 < cap)%nat -> holds (RingBuffer_new sid cap age) [].
Proof. intros Hc. split; [done|]. split; [done|]. by apply ring_shape_nil. Qed.

Lemma holds_push b l x :
  holds b l -> Z.of_nat (length l) < u64_max ->
  exists b', push b x = Some b' /\ holds b' (l ++ [with_sequence (total_written b) x]) /\
    total_written b' = wrap_add u64_max (total_written b) 1 /\ capacity b' = capacity b /\
    samples_pushed (rb_stats b') = wrap_add u64_max (samples_pushed (rb_stats b)) 1.
Proof.
  intros (Hc & Hw & Hs) Hb. unfold push.
  replace (capacity b =? 0)%nat with false by (symmetry; apply Nat.eqb_neq; lia).
  eexists. split; [done|]. split; [|done]. split; [done|]. cbn. split.
  - rewrite Hw, wrap_add_small by lia. rewrite length_app. simpl. lia.
  - rewrite Hw, <- Nat2Z.inj_mod, Nat2Z.id. by apply ring_shape_push.
Qed.

Lemma holds_clear b l : holds b l -> holds (clear b) [].
Proof.
  intros (Hc & Hw & Hs). split; [done|]. split; [done|]. cbn.
  replace (map (fun _ => None) (storage b)) with (replicate (capacity b) (@None DataSample));
    [by apply ring_shape_nil|].
  rewrite <- (ring_shape_length _ _ _ Hc Hs). generalize (storage b). intros st.
  by induction st; simpl; f_equal.
Qed.

(** The log of a run of pushes: each sample with its sequence number. *)
Fixpoint numbered (seq : Z) (xs : list DataSample) : list DataSample :=
  match xs with [] => [] | x :: xs => with_sequence seq x :: numbered (seq + 1) xs end.

Fixpoint push_all (b : RingBuffer) (xs : list DataSample) : option RingBuffer :=
  match xs with [] => Some b | x :: xs => b ← push b x; push_all b xs end.

Lemma length_numbered seq xs : length (numbered seq xs) = length xs.
Proof. revert seq. induction xs; simpl; intros; [done|]. by f_equal. Qed.

Lemma holds_push_all b l xs :
  holds b l -> 0 <= total_written b -> total_written b + Z.of_nat (length xs) <= u64_max ->
  Z.of_nat (length l + length xs) <= u64_max ->
  exists b', push_all b xs = Some b' /\ holds b' (l ++ numbered (total_written b) xs) /\
    total_written b' = total_written b + Z.of_nat (length xs) /\ capacity b' = capacity b.
Proof.
  revert b l. induction xs as [|x xs IH]; intros b l Hh Hpos Ht Hl.
  - exists b. simpl. rewrite app_nil_r. split; [done|]. split; [done|]. split; [lia|done].
  - cbn [length] in *. destruct (holds_push b l x Hh) as (b1 & Hp & Hh1 & Ht1 & Hc1 & _); [lia|].
    rewrite wrap_add_small in Ht1 by lia.
    destruct (IH b1 _ Hh1) as (b' & Hp' & Hh' & Ht' & Hc'); [lia|lia|rewrite length_app; simpl; lia|].
    exists b'. cbn [push_all numbered]. rewrite Hp. split; [done|].
    rewrite <- app_assoc, Ht1 in Hh'. split; [done|]. split; [lia|congruence].
Qed.

(** ** What the queries answer *)

Definition increasing (l : list DataSample) : Prop :=
  StronglySorted (fun x y => timestamp_ns x < timestamp_ns y) l.

Lemma older_total x y : older x y = false -> older y x = true.
Proof. unfold older. intros. reflect_bools. lia. Qed.
Lemma older_trans x y z : older x y = true -> older y z = true -> older x z = true.
Proof. unfold older. intros. reflect_bools. lia. Qed.
Lemma newer_total x y : newer x y = false -> newer y x = true.
Proof. unfold newer. intros. reflect_bools. lia. Qed.
Lemma newer_trans x y z : newer x y = true -> newer y z = true -> newer x z = true.
Proof. unfold newer. intros. reflect_bools. lia. Qed.

Lemma increasing_distinct l x y :
  increasing l -> x ∈ l -> y ∈ l -> timestamp_ns x = timestamp_ns y -> x = y.
Proof.
  induction 1 as [|z l Hl IH Hz]; [set_solver|]. rewrite Forall_forall in Hz.
  intros [->|Hx]%elem_of_cons [->|Hy]%elem_of_cons He; auto.
  - apply Hz in Hy. cbn in Hy. lia.
  - apply Hz in Hx. cbn in Hx. lia.
Qed.

Lemma increasing_older l : increasing l -> StronglySorted (ordered older) l.
Proof.
  induction 1 as [|z l Hl IH Hz]; constructor; [done|]. eapply Forall_impl; [exact Hz|].
  cbn. intros y Hy. unfold ordered, older. apply Z.leb_le. lia.
Qed.

Lemma StronglySorted_snoc (R : DataSample -> DataSample -> Prop) l x :
  StronglySorted R l -> Forall (fun y => R y x) l -> StronglySorted R (l ++ [x]).
Proof.
  induction 1 as [|z l Hl IH Hz]; intros Hx; simpl; [by repeat constructor|].
  inversion Hx; subst. constructor; [by apply IH|]. apply Forall_app. split; [done|by constructor].
Qed.

Lemma increasing_newer l : increasing l -> StronglySorted (ordered newer) (rev l).
Proof.
  induction 1 as [|z l Hl IH Hz]; [constructor|]. simpl. apply StronglySorted_snoc; [done|].
  apply Forall_rev. eapply Forall_impl; [exact Hz|]. cbn. intros y Hy. unfold ordered, newer. apply Z.leb_le. lia.
Qed.

Lemma increasing_filter f l : increasing l -> increasing (List.filter f l).
Proof.
  induction 1 as [|z l Hl IH Hz]; simpl; [constructor|]. case_match; [|done]. constructor; [done|].
  rewrite Forall_forall in *. intros y Hy. apply Hz. apply list_elem_of_In, filter_In in Hy as [Hy _].
  by apply list_elem_of_In.
Qed.

Lemma increasing_drop k l : increasing l -> increasing (drop k l).
Proof.
  intros H. revert k. induction H as [|z l Hl IH Hz]; intros k; [by rewrite drop_nil; constructor|].
  destruct k; [by constructor|apply IH].
Qed.

Lemma numbered_increasing seq xs : increasing xs -> increasing (numbered seq xs).
Proof.
  intros H. revert seq. induction H as [|x l Hl IH Hx]; intros seq; simpl; [constructor|].
  constructor; [apply IH|]. generalize (seq + 1). clear -Hx.
  induction Hx as [|y l Hy Hl IH]; intros k; simpl; constructor; [done|apply IH].
Qed.

Lemma filter_Permutation f (l l' : list DataSample) : l ≡ₚ l' -> List.filter f l ≡ₚ List.filter f l'.
Proof.
  induction 1; simpl; [done| | |by etrans].
  - by case_match; [apply Permutation_skip|].
  - repeat case_match; try done. apply Permutation_swap.
Qed.

Lemma len_samples b : len b = length (samples b).
Proof. unfold len, samples. induction (storage b) as [|[x|] st IH]; simpl; [done| |done]. by f_equal. Qed.

(** Claim C34: a buffer that is new or was cleared, after any pushes, holds the last
    samples pushed, as many as fit, numbered in order; a range query answers
    those in the window sorted by time, and when times increase it answers
    them in the order pushed and the latest ones are the last pushed. *)
Theorem ring_keeps_latest b xs start_ns end_ns k :
  holds b [] -> 0 <= total_written b -> total_written b + Z.of_nat (length xs) <= u64_max ->
  exists b', push_all b xs = Some b' /\
    let kept := drop (length xs - capacity b) (numbered (total_written b) xs) in
    samples b' ≡ₚ kept /\ len b' = Nat.min (length xs) (capacity b) /\
    get_range b' start_ns end_ns ≡ₚ List.filter (in_window start_ns end_ns) kept /\
    StronglySorted (ordered older) (get_range b' start_ns end_ns) /\
    (increasing xs ->
       get_range b' start_ns end_ns = List.filter (in_window start_ns end_ns) kept /\
       get_latest b' k = drop (length kept - k) kept).
Proof.
  intros Hh Hpos Hfit. destruct (holds_push_all b [] xs Hh) as (b' & Hp & Hh' & _ & Hc); [done|done|simpl; lia|].
  exists b'. split; [done|]. simpl in Hh'. destruct Hh' as (_ & _ & Hs).
  apply ring_shape_samples in Hs. rewrite length_numbered, Hc in Hs. fold (samples b') in Hs.
  set (kept := drop (length xs - capacity b) (numbered (total_written b) xs)) in *. cbv zeta.
  assert (Hf : List.filter (in_window start_ns end_ns) (samples b') ≡ₚ List.filter (in_window start_ns end_ns) kept)
    by by apply filter_Permutation.
  split; [done|]. split.
  { rewrite len_samples, Hs. subst kept. rewrite length_drop, length_numbered. lia. }
  split; [unfold get_range; by rewrite sort_by_perm|].
  split; [apply sort_by_sorted; [apply older_total|apply older_trans]|].
  intros Hinc. assert (Hk : increasing kept) by by apply increasing_drop, numbered_increasing.
  split.
  - unfold get_range. apply sort_by_unique; [apply older_total|apply older_trans| | |done].
    + by apply increasing_older, increasing_filter.
    + intros x y Hx Hy H1 H2. eapply increasing_distinct; [by apply increasing_filter, Hk|done..|].
      unfold older in *. reflect_bools. lia.
  - unfold get_latest. rewrite (sort_by_unique newer newer_total newer_trans _ (rev kept)).
    + by rewrite firstn_rev, rev_involutive.
    + by apply increasing_newer.
    + intros x y Hx Hy H1 H2. rewrite list_elem_of_In, <- in_rev, <- list_elem_of_In in Hx, Hy.
      eapply increasing_distinct; [exact Hk|done..|]. unfold newer in *. reflect_bools. lia.
    + by rewrite Hs, <- Permutation_rev.
Qed.

(** Eviction removes exactly the samples older than the maximum age,
    keeps the others in place and counts what it removed. *)
Theorem evict_old_spec b now :
  let cutoff := sat_sub now (max_age_ns b) in
  samples (evict_old b now).2 = List.filter (fun s => negb (timestamp_ns s <? cutoff)) (samples b) /\
  len b = ((evict_old b now).1 + len (evict_old b now).2)%nat /\
  (forall i s, storage b !! i = Some (Some s) -> cutoff <= timestamp_ns s ->
     storage (evict_old b now).2 !! i = Some (Some s)).
Proof.
  intros cutoff. unfold evict_old, len, samples. cbn. fold cutoff. split; [|split].
  - induction (storage b) as [|[x|] st IH]; cbn; [done| |exact IH].
    destruct (timestamp_ns x <? cutoff); cbn; [exact IH|]. f_equal. exact IH.
  - induction (storage b) as [|[x|] st IH]; cbn; [done| |exact IH].
    destruct (timestamp_ns x <? cutoff); cbn; lia.
  - intros i x Hi Hx. rewrite list_lookup_fmap, Hi. cbn.
    by replace (timestamp_ns x <? cutoff) with false by (symmetry; apply Z.ltb_ge; lia).
Qed.

(** ** The manager *)

Abbreviation Ref := nat (only parsing).

Record BufferManager : Type := {
  buffers : gmap StreamId Ref;
  total_memory_limit : Z;
  current_memory_used : Z;
  default_capacity : nat;
  default_max_age_ns : Z }.

(** The manager and the buffers everyone shares. *)
Record Store : Type := { manager : BufferManager; heap : gmap Ref RingBuffer; next_ref : Ref }.

Definition BufferManager_new (memory_limit_bytes : Z) : BufferManager := {|
  buffers := ∅; total_memory_limit := memory_limit_bytes; current_memory_used := 0;
  default_capacity := 1000; default_max_age_ns := f32_nanos (f32_of 60) |}.

Definition with_defaults (cap : nat) (max_age : Z) (m : BufferManager) : BufferManager := {|
  buffers := buffers m; total_memory_limit := total_memory_limit m;
  current_memory_used := current_memory_used m; default_capacity := cap; default_max_age_ns := max_age |}.

Definition Store_new (m : BufferManager) : Store := {| manager := m; heap := ∅; next_ref := 0%nat |}.

Definition set_buffers (m : BufferManager) bs : BufferManager := {|
  buffers := bs; total_memory_limit := total_memory_limit m;
  current_memory_used := current_memory_used m; default_capacity := default_capacity m;
  default_max_age_ns := default_max_age_ns m |}.

Definition register_stream (sid : StreamId) (cap : option nat) (max_age : option Z) (s : Store)
    : Ref * Store :=
  let m := manager s in
  let c := default (default_capacity m) cap in
  let age := default (default_max_age_ns m) max_age in
  let r := next_ref s in
  (r, {| manager := set_buffers m (<[sid := r]> (buffers m));
         heap := <[r := RingBuffer_new sid c age]> (heap s); next_ref := S r |}).

Definition get_buffer (sid : StreamId) (s : Store) : option Ref := buffers (manager s) !! sid.

Definition get_or_create (sid : StreamId) (s : Store) : Ref * Store :=
  match get_buffer sid s with
  | Some r => (r, s)
  | None => register_stream sid None None s
  end.

Definition set_heap (s : Store) h : Store := {| manager := manager s; heap := h; next_ref := next_ref s |}.

(** Pushing through a reference; [None] is the panic of the buffer. *)
Definition push_ref (r : Ref) (x : DataSample) (s : Store) : option Store :=
  match heap s !! r with
  | Some b => b' ← push b x; Some (set_heap s (<[r := b']> (heap s)))
  | None => Some s
  end.

Definition manager_push (x : DataSample) (s : Store) : option Store :=
  let '(r, s) := get_or_create (stream_id x) s in push_ref r x s.

Definition some_samples (l : list DataSample) : option (list DataSample) :=
  match l with [] => None | _ => Some l end.

Definition extract_episode (start_ns end_ns : Z) (s : Store) : gmap StreamId (list DataSample) :=
  omap (fun r => b ← heap s !! r; some_samples (get_range b start_ns end_ns)) (buffers (manager s)).

Definition stream_ids (s : Store) : list StreamId := (map_to_list (buffers (manager s))).*1.
Definition stream_count (s : Store) : nat := size (buffers (manager s)).

(** The references the manager holds, and an operation on each of them. *)
Definition refs (s : Store) : list Ref := (map_to_list (buffers (manager s))).*2.
Definition on_buffers (f : RingBuffer -> RingBuffer) (s : Store) : Store :=
  set_heap s (map_imap (fun r b => Some (if decide (r ∈ refs s) then f b else b)) (heap s)).

Definition clear_all (s : Store) : Store := on_buffers clear s.

Definition evict_old_all (now : Z) (s : Store) : nat * Store :=
  (sum_list_with (fun r => match heap s !! r with Some b => (evict_old b now).1 | None => 0%nat end) (refs s),
   on_buffers (fun b => (evict_old b now).2) s).

Record BufferManagerStats : Type := {
  ms_stream_count : nat; total_samples_pushed : Z; total_bytes_written : Z;
  stream_stats : gmap StreamId BufferStats }.

Definition manager_stats (s : Store) : BufferManagerStats := {|
  ms_stream_count := stream_count s;
  total_samples_pushed := foldr (fun r t => match heap s !! r with
    | Some b => wrap_add u64_max t (samples_pushed (rb_stats b)) | None => t end) 0 (refs s);
  total_bytes_written := foldr (fun r t => match heap s !! r with
    | Some b => wrap_add u64_max t (bytes_written (rb_stats b)) | None => t end) 0 (refs s);
  stream_stats := omap (fun r => rb_stats <$> heap s !! r) (buffers (manager s)) |}.

(** *** Streams do not disturb each other *)

Definition of_stream (sid : StreamId) (xs : list DataSample) : list DataSample :=
  List.filter (fun x => bool_decide (stream_id x = sid)) xs.

Fixpoint manager_push_all (xs : list DataSample) (s : Store) : option Store :=
  match xs with [] => Some s | x :: xs => s ← manager_push x s; manager_push_all xs s end.

(** After the pushes [xs]: each stream's buffer is what its samples alone make
    of a new one, and references are not shared. *)
Definition separate (m : BufferManager) (xs : list DataSample) (s : Store) : Prop :=
  default_capacity (manager s) = default_capacity m /\ default_max_age_ns (manager s) = default_max_age_ns m /\
  (forall sid sid' r, get_buffer sid s = Some r -> get_buffer sid' s = Some r -> sid = sid') /\
  forall sid, match get_buffer sid s with
    | None => of_stream sid xs = []
    | Some r => (r < next_ref s)%nat /\ exists b, heap s !! r = Some b /\
        push_all (RingBuffer_new sid (default_capacity m) (default_max_age_ns m)) (of_stream sid xs) = Some b
    end.

Lemma push_all_capacity b xs b' : push_all b xs = Some b' -> capacity b' = capacity b.
Proof.
  revert b. induction xs as [|x xs IH]; intros b; simpl; [by intros [= <-]|].
  unfold push at 1. case_match; [done|]. cbn. intros Hp%IH. done.
Qed.

Lemma push_all_snoc b xs x : push_all b (xs ++ [x]) = (b ← push_all b xs; push b x).
Proof.
  revert b. induction xs as [|y xs IH]; intros b; simpl; [by destruct (push b x)|].
  destruct (push b y); simpl; [apply IH|done].
Qed.

Lemma of_stream_snoc sid xs x :
  of_stream sid (xs ++ [x]) = of_stream sid xs ++ (if bool_decide (stream_id x = sid) then [x] else []).
Proof. unfold of_stream. by rewrite List.filter_app. Qed.

Lemma separate_new m xs s :
  separate m xs s -> forall sid, get_buffer sid s = None ->
  separate m xs (register_stream sid None None s).2 /\
  get_buffer sid (register_stream sid None None s).2 = Some (next_ref s).
Proof.
  intros (Hc & Ha & Hinj & Hs) sid Hnone. unfold get_buffer in *. cbn. split; [|apply lookup_insert_eq].
  split; [done|]. split; [done|]. unfold get_buffer; cbn.
  assert (Hlt : forall i r, buffers (manager s) !! i = Some r -> (r < next_ref s)%nat).
  { intros i r Hi. specialize (Hs i). rewrite Hi in Hs. by destruct Hs. }
  split.
  - intros i j r. rewrite !lookup_insert. repeat case_decide; intros; simplify_eq; try done; eauto.
    + match goal with H : _ = Some (next_ref s) |- _ => apply Hlt in H; lia end.
    + match goal with H : _ = Some (next_ref s) |- _ => apply Hlt in H; lia end.
  - intros i. specialize (Hs i). rewrite lookup_insert. case_decide as E.
    + subst i. rewrite Hnone in Hs. split; [lia|]. rewrite lookup_insert_eq. eexists. split; [done|].
      rewrite Hs, Hc, Ha. done.
    + destruct (buffers (manager s) !! i) as [r|] eqn:Ei; [|done]. destruct Hs as [Hr Hb].
      split; [lia|]. by rewrite lookup_insert_ne by lia.
Qed.

Lemma separate_push m xs s x :
  (0 < default_capacity m)%nat -> separate m xs s ->
  exists s', manager_push x s = Some s' /\ separate m (xs ++ [x]) s'.
Proof.
  intros Hpos Hsep. unfold manager_push, get_or_create.
  assert (Hmain : forall s r, separate m xs s -> get_buffer (stream_id x) s = Some r ->
    exists s', push_ref r x s = Some s' /\ separate m (xs ++ [x]) s').
  { clear s Hsep. intros s r (Hc & Ha & Hinj & Hs) Hr. pose proof (Hs (stream_id x)) as Hx. rewrite Hr in Hx.
    destruct Hx as (Hlt & b & Hb & Hp). unfold push_ref. rewrite Hb.
    destruct (push b x) as [b'|] eqn:Ep.
    - eexists. split; [done|]. split; [done|]. split; [done|]. split; [done|]. intros sid. specialize (Hs sid).
      change (get_buffer sid (set_heap s _)) with (get_buffer sid s). rewrite of_stream_snoc.
      destruct (get_buffer sid s) as [r'|] eqn:Er.
      + destruct Hs as (Hlt' & b0 & Hb0 & Hp0). split; [done|]. cbn. case_bool_decide as E.
        * subst sid. rewrite Hr in Er. simplify_eq. rewrite lookup_insert_eq. eexists. split; [done|].
          by rewrite push_all_snoc, Hp0.
        * rewrite lookup_insert_ne by (intros ->; apply E; by eapply Hinj). rewrite app_nil_r. by exists b0.
      + rewrite Hs. case_bool_decide as E; [subst; congruence|done].
    - exfalso. unfold push in Ep. assert (capacity b = default_capacity m) as Hcap.
      { by apply push_all_capacity in Hp. }
      rewrite Hcap in Ep. by destruct (Nat.eqb_spec (default_capacity m) 0); [lia|]. }
  destruct (get_buffer (stream_id x) s) as [r|] eqn:Er; [by apply Hmain|].
  destruct (separate_new m xs s Hsep (stream_id x) Er) as [Hsep' Hget].
  destruct (register_stream (stream_id x) None None s) as [r s'] eqn:Ereg. cbn [snd] in *.
  injection Ereg as <- _. by apply Hmain.
Qed.

(** an episode holds, for each stream, what its own samples leave in a
    buffer of the default size, whatever was pushed for other streams. *)
Theorem extract_episode_spec m xs start_ns end_ns :
  buffers m = ∅ -> (0 < default_capacity m)%nat ->
  exists s, manager_push_all xs (Store_new m) = Some s /\
    forall sid, extract_episode start_ns end_ns s !! sid =
      (b ← push_all (RingBuffer_new sid (default_capacity m) (default_max_age_ns m)) (of_stream sid xs);
       some_samples (get_range b start_ns end_ns)).
Proof.
  intros Hm Hpos.
  assert (Hrun : forall ys s, separate m ys s ->
    exists s', manager_push_all xs s = Some s' /\ separate m (ys ++ xs) s').
  { induction xs as [|x xs IH]; intros ys s Hs; [exists s; by rewrite app_nil_r|]. cbn [manager_push_all].
    destruct (separate_push m ys s x Hpos Hs) as (s1 & -> & Hs1). cbn.
    destruct (IH _ _ Hs1) as (s' & Hp & Hs'). exists s'. by rewrite <- app_assoc in Hs'. }
  destruct (Hrun [] (Store_new m)) as (s & Hp & Hs).
  { split; [done|]. split; [done|]. unfold get_buffer. cbn. rewrite Hm. split; [done|]. done. }
  exists s. split; [done|]. intros sid. destruct Hs as (_ & _ & _ & Hs). specialize (Hs sid).
  unfold extract_episode, get_buffer in *. rewrite lookup_omap. cbn [app] in Hs.
  destruct (buffers (manager s) !! sid) as [r|]; cbn.
  - destruct Hs as (_ & b & Hb & Hpb). by rewrite Hb, Hpb.
  - rewrite Hs. cbn. unfold get_range, samples. cbn.
    assert (Hn : forall n, omap id (replicate n (@None DataSample)) = []) by (intros n; by induction n).
    by rewrite Hn.
Qed.
End Buffers.

(** ** Examples *)

Definition demo_sample (sid : string) (t : Z) : DataSample := {|
  stream_id := sid; timestamp_ns := t; sequence := 0; data := tt |}.
Definition demo_bytes (p : unit) : Z := 100.
Definition demo_buffer : @RingBuffer unit := RingBuffer_new "imu" 2 (from_secs 60).

(** A cleared buffer is empty and yet reports the same utilization. *)
Theorem clear_keeps_utilization {Payload : Set} (b : @RingBuffer Payload) :
  len (clear b) = 0%nat /\ utilization_used (clear b) = utilization_used b.
Proof.
  split; [|done]. unfold len, clear. cbn. induction (storage b); [done|]. cbn. done.
Qed.

(** two pushes for a new stream that both find it missing make two
    buffers, and the sample in the first is lost to the manager. *)
Theorem get_or_create_race :
  let s := Store_new (BufferManager_new 0) in
  let '(r1, s1) := register_stream "imu" None None s in
  let '(r2, s2) := register_stream "imu" None None s1 in
  get_buffer "imu" s = None /\
  (s3 ← push_ref demo_bytes r1 (demo_sample "imu" 1) s2;
   s4 ← push_ref demo_bytes r2 (demo_sample "imu" 2) s3;
   map timestamp_ns <$> extract_episode 0 100 s4 !! "imu") = Some [2].
Proof. split; [done|]. by vm_compute. Qed.

Lemma ring_keeps_latest_witness :
  exists b', push_all demo_bytes demo_buffer [demo_sample "imu" 1; demo_sample "imu" 2; demo_sample "imu" 3] = Some b' /\
    let kept := drop (3 - 2) (numbered 0 [demo_sample "imu" 1; demo_sample "imu" 2; demo_sample "imu" 3]) in
    samples b' ≡ₚ kept /\ len b' = 2%nat /\
    get_range b' 0 10 ≡ₚ List.filter (in_window 0 10) kept /\
    StronglySorted (ordered older) (get_range b' 0 10) /\
    (increasing [demo_sample "imu" 1; demo_sample "imu" 2; demo_sample "imu" 3] ->
       get_range b' 0 10 = List.filter (in_window 0 10) kept /\ get_latest b' 1 = drop (length kept - 1) kept).
Proof.
  apply (ring_keeps_latest demo_bytes demo_buffer
    [demo_sample "imu" 1; demo_sample "imu" 2; demo_sample "imu" 3] 0 10 1).
  - apply holds_new. lia.
  - by vm_compute.
  - by vm_compute.
Defined.

Lemma extract_episode_spec_witness :
  exists s, manager_push_all demo_bytes [demo_sample "imu" 1; demo_sample "cam" 2] (Store_new (BufferManager_new 0)) = Some s.
Proof.
  destruct (extract_episode_spec demo_bytes (BufferManager_new 0) [demo_sample "imu" 1; demo_sample "cam" 2] 0 10)
    as (s & Hs & _); [reflexivity|by vm_compute; lia|]. exists s. exact Hs.
Defined.
