(* ===== verification/Mcap.v ===== *)
(** * MCAP files (data_collection/mcap_writer.rs)

    The writer of MCAP containers: its registry of schemas and channels, the
    chunk it fills, the indices and statistics it keeps, and every record it
    writes, byte by byte; a reader of the format as a reference, and the
    theorem that it reads what was written. *)

From S2P Require Import Prelude RustStr Effects.
From S2P Require Buffer.

Open Scope string_scope.
Open Scope list_scope.
Open Scope Z_scope.

(** ** Little-endian numbers *)

(** [to_le_bytes] of the low [8 * n] bits. *)
Fixpoint le (n : nat) (z : Z) : list Z :=
  match n with O => [] | S n => z mod 256 :: le n (z / 256) end.
Fixpoint le_value (l : list Z) : Z :=
  match l with [] => 0 | b :: l => b + 256 * le_value l end.

Lemma le_length n z : length (le n z) = n.
Proof. revert z. induction n as [|n IH]; intros z; simpl; [done|]. by rewrite IH. Qed.

(** Only the low bytes count. *)
Lemma le_mod n z : le n (z mod 256 ^ Z.of_nat n) = le n z.
Proof.
  revert z. induction n as [|n IH]; intros z; [done|]. cbn [le].
  rewrite Nat2Z.inj_succ, Z.pow_succ_r, Z.rem_mul_r by lia.
  rewrite (Z.mul_comm 256 (_ mod _)), Z.mod_add, Z.div_add, Z.mod_mod by lia.
  rewrite (Z.div_small (z mod 256)) by (apply Z.mod_pos_bound; lia). by rewrite Z.add_0_l, IH.
Qed.

Lemma le_value_le n z : 0 <= z < 256 ^ Z.of_nat n -> le_value (le n z) = z.
Proof.
  revert z. induction n as [|n IH]; intros z Hz; simpl; [simpl in Hz; lia|].
  rewrite Nat2Z.inj_succ, Z.pow_succ_r in Hz by lia. rewrite IH.
  - rewrite (Z.add_comm (z mod 256)). symmetry. by apply Z.div_mod.
  - split; [apply Z.div_pos; lia|]. apply Z.div_lt_upper_bound; lia.
Qed.

(** ** Data *)

Inductive McapError : Set :=
| Io (e : string) | SchemaNotRegistered (e : string) | ChannelNotRegistered (e : string) | InvalidState (e : string)
| SerializationError (e : string) | CompressionError (e : string).

Definition MCAP_MAGIC : list Z := [0x89; 77; 67; 65; 80; 0x30; 13; 10].

Inductive Opcode : Set :=
| Header | Footer | SchemaOp | ChannelOp | MessageOp | Chunk | MessageIndex | ChunkIndex | Attachment
| AttachmentIndex | StatisticsOp | Metadata | MetadataIndex | SummaryOffset | DataEnd.
Definition opcode (o : Opcode) : Z :=
  match o with
  | Header => 0x01 | Footer => 0x02 | SchemaOp => 0x03 | ChannelOp => 0x04 | MessageOp => 0x05 | Chunk => 0x06
  | MessageIndex => 0x07 | ChunkIndex => 0x08 | Attachment => 0x09 | AttachmentIndex => 0x0A
  | StatisticsOp => 0x0B | Metadata => 0x0C | MetadataIndex => 0x0D | SummaryOffset => 0x0E | DataEnd => 0x0F
  end.

Record Schema : Set := { s_id : Z; s_name : string; s_encoding : string; s_data : list Z }.
Definition Schema_new (id : Z) (name encoding : string) : Schema :=
  {| s_id := id; s_name := name; s_encoding := encoding; s_data := [] |}.
Definition with_data (data : list Z) (s : Schema) : Schema :=
  {| s_id := s_id s; s_name := s_name s; s_encoding := s_encoding s; s_data := data |}.
Definition Schema_json (id : Z) (name json_schema : string) : Schema :=
  {| s_id := id; s_name := name; s_encoding := "jsonschema"; s_data := string_bytes json_schema |}.

Record Channel : Set := {
  c_id : Z; c_schema_id : Z; topic : string; message_encoding : string; c_metadata : gmap string string }.
Definition Channel_new (id schema_id : Z) (topic encoding : string) : Channel :=
  {| c_id := id; c_schema_id := schema_id; topic := topic; message_encoding := encoding; c_metadata := ∅ |}.
Definition with_metadata (k v : string) (c : Channel) : Channel :=
  {| c_id := c_id c; c_schema_id := c_schema_id c; topic := topic c; message_encoding := message_encoding c;
     c_metadata := <[k := v]> (c_metadata c) |}.

Inductive McapCompression : Set := NoCompression | Zstd | Lz4.
Definition as_str (c : McapCompression) : string :=
  match c with NoCompression => "" | Zstd => "zstd" | Lz4 => "lz4" end.

Record McapWriterConfig : Set := {
  profile : string; library : string; use_chunking : bool; chunk_size : Z; compression : McapCompression;
  create_message_index : bool }.
Definition McapWriterConfig_default : McapWriterConfig := {|
  profile := "ros2"; library := "omniedge-robotics"; use_chunking := true; chunk_size := 4 * 1024 * 1024;
  compression := Zstd; create_message_index := true |}.

Record McapStatistics : Set := {
  message_count : Z; chunk_count : Z; attachment_count : Z; uncompressed_total : Z; compressed_total : Z;
  channel_message_counts : gmap Z Z; message_start_time : Z; message_end_time : Z }.
Definition McapStatistics_default : McapStatistics := {|
  message_count := 0; chunk_count := 0; attachment_count := 0; uncompressed_total := 0; compressed_total := 0;
  channel_message_counts := ∅; message_start_time := 0; message_end_time := 0 |}.

Inductive WriterState : Set := Initial | Writing | Finished.
#[global] Instance WriterState_eq_dec : EqDecision WriterState.
Proof. solve_decision. Defined.

Record MessageIndexEntry : Set := { mi_timestamp : Z; mi_offset : Z }.

Record ChunkIndexEntry : Set := {
  start_time : Z; end_time : Z; offset : Z; chunk_length : Z; message_index_offset : Z; message_index_length : Z;
  compression_name : string; compressed_size : Z; uncompressed_size : Z }.

(** What the writer remembers of the definitions it wrote. *)
Record Registry : Set := {
  schemas : gmap Z Schema; channels : gmap Z Channel; stream_to_channel : gmap string Z; next_schema_id : Z;
  next_channel_id : Z }.

Record McapWriter : Set := {
  config : McapWriterConfig; registry : Registry; chunk_buffer : list Z; message_indices : list MessageIndexEntry;
  chunk_indices : list ChunkIndexEntry; stats : McapStatistics; state : WriterState; bytes_written : Z }.

Definition Registry_empty : Registry := {|
  schemas := ∅; channels := ∅; stream_to_channel := ∅; next_schema_id := 1; next_channel_id := 1 |}.
Definition McapWriter_new (c : McapWriterConfig) : McapWriter := {|
  config := c; registry := Registry_empty; chunk_buffer := []; message_indices := []; chunk_indices := [];
  stats := McapStatistics_default; state := Initial; bytes_written := 0 |}.

Definition set_registry (r : Registry) (w : McapWriter) : McapWriter := {|
  config := config w; registry := r; chunk_buffer := chunk_buffer w; message_indices := message_indices w;
  chunk_indices := chunk_indices w; stats := stats w; state := state w; bytes_written := bytes_written w |}.
Definition set_chunk (b : list Z) (ms : list MessageIndexEntry) (w : McapWriter) : McapWriter := {|
  config := config w; registry := registry w; chunk_buffer := b; message_indices := ms;
  chunk_indices := chunk_indices w; stats := stats w; state := state w; bytes_written := bytes_written w |}.
Definition add_chunk_index (e : ChunkIndexEntry) (w : McapWriter) : McapWriter := {|
  config := config w; registry := registry w; chunk_buffer := chunk_buffer w; message_indices := message_indices w;
  chunk_indices := push (chunk_indices w) e; stats := stats w; state := state w; bytes_written := bytes_written w |}.
Definition set_stats (s : McapStatistics) (w : McapWriter) : McapWriter := {|
  config := config w; registry := registry w; chunk_buffer := chunk_buffer w; message_indices := message_indices w;
  chunk_indices := chunk_indices w; stats := s; state := state w; bytes_written := bytes_written w |}.
Definition set_state (s : WriterState) (w : McapWriter) : McapWriter := {|
  config := config w; registry := registry w; chunk_buffer := chunk_buffer w; message_indices := message_indices w;
  chunk_indices := chunk_indices w; stats := stats w; state := s; bytes_written := bytes_written w |}.
Definition count_bytes (n : Z) (w : McapWriter) : McapWriter := {|
  config := config w; registry := registry w; chunk_buffer := chunk_buffer w; message_indices := message_indices w;
  chunk_indices := chunk_indices w; stats := stats w; state := state w;
  bytes_written := wrap_add u64_max (bytes_written w) n |}.

(** ** Records *)

Definition prefixed_string (s : string) : list Z := le 4 (Z.of_nat (String.length s)) ++ string_bytes s.

(** A map, in the order its iteration gives. *)
Definition map_size (kvs : list (string * string)) : Z :=
  foldl (fun n kv => wrap_add u32_max n (4 + Z.of_nat (String.length kv.1) + 4 + Z.of_nat (String.length kv.2)))
    0 kvs.
Definition prefixed_map (kvs : list (string * string)) : list Z :=
  le 4 (map_size kvs) ++ concat (map (fun kv => prefixed_string kv.1 ++ prefixed_string kv.2) kvs).

Definition header_record (c : McapWriterConfig) : list Z := prefixed_string (profile c) ++ prefixed_string (library c).
Definition schema_record (s : Schema) : list Z :=
  le 2 (s_id s) ++ prefixed_string (s_name s) ++ prefixed_string (s_encoding s)
    ++ le 4 (Z.of_nat (length (s_data s))) ++ s_data s.
Definition channel_record (c : Channel) (metadata : list (string * string)) : list Z :=
  le 2 (c_id c) ++ le 2 (c_schema_id c) ++ prefixed_string (topic c) ++ prefixed_string (message_encoding c)
    ++ prefixed_map metadata.
(** The sequence number is the message count, cut to 32 bits. *)
Definition message_record (channel_id count timestamp : Z) (data : list Z) : list Z :=
  le 2 channel_id ++ le 4 count ++ le 8 timestamp ++ le 8 timestamp ++ data.
Definition chunk_record (start_time end_time : Z) (name : string) (uncompressed : Z) (data : list Z) : list Z :=
  le 8 start_time ++ le 8 end_time ++ le 8 uncompressed ++ le 4 0 ++ prefixed_string name
    ++ le 8 (Z.of_nat (length data)) ++ data.
Definition attachment_record (name media_type : string) (data : list Z) : list Z :=
  le 8 0 ++ le 8 0 ++ prefixed_string name ++ prefixed_string media_type
    ++ le 8 (Z.of_nat (length data)) ++ data ++ le 4 0.
Definition metadata_record (name : string) (metadata : list (string * string)) : list Z :=
  prefixed_string name ++ prefixed_map metadata.
Definition statistics_record (schema_count channel_count : nat) (s : McapStatistics) (counts : list (Z * Z)) : list Z :=
  le 8 (message_count s) ++ le 2 (Z.of_nat schema_count) ++ le 4 (Z.of_nat channel_count)
    ++ le 4 (attachment_count s) ++ le 4 0 ++ le 4 (chunk_count s) ++ le 8 (message_start_time s)
    ++ le 8 (message_end_time s) ++ le 4 (Z.of_nat (size (channel_message_counts s)))
    ++ concat (map (fun cn => le 2 cn.1 ++ le 8 cn.2) counts).
Definition chunk_index_record (e : ChunkIndexEntry) : list Z :=
  le 8 (start_time e) ++ le 8 (end_time e) ++ le 8 (offset e) ++ le 8 (chunk_length e) ++ le 4 0
    ++ le 8 (message_index_length e) ++ prefixed_string (compression_name e) ++ le 8 (compressed_size e)
    ++ le 8 (uncompressed_size e).
Definition footer_record : list Z := le 8 0 ++ le 8 0 ++ le 4 0.

(** A record with its opcode and its length. *)
Definition frame (o : Opcode) (data : list Z) : list Z := opcode o :: le 8 (Z.of_nat (length data)) ++ data.

(** ** The writer

    The output, and the orders in which the maps are walked. *)

Inductive McapCall : Set -> Set :=
| WriteAll (bytes : list Z) : McapCall (result string unit)
| MetadataOrder (m : gmap string string) : McapCall (list (string * string))
| CountsOrder (m : gmap Z Z) : McapCall (list (Z * Z)).

Abbreviation MM := (SM McapCall McapWriter McapError) (only parsing).

Definition io {A} (r : result string A) : result McapError A :=
  match r with Ok a => Ok a | Err e => Err (Io e) end.

Definition write_bytes (data : list Z) : MM unit :=
  r ← call (WriteAll data);
  _ ← lift (io r);
  modify (count_bytes (Z.of_nat (length data))).

Definition write_record (o : Opcode) (data : list Z) : MM unit :=
  _ ← write_bytes [opcode o];
  _ ← write_bytes (le 8 (Z.of_nat (length data)));
  write_bytes data.

Definition start : MM unit :=
  st ← gets state;
  if bool_decide (st <> Initial) then throw (InvalidState "Already started")
  else
    _ ← write_bytes MCAP_MAGIC;
    c ← gets config;
    _ ← write_record Header (header_record c);
    modify (set_state Writing).

Definition on_registry (f : Registry -> Registry) : MM unit := modify (fun w => set_registry (f (registry w)) w).

Definition insert_schema (s : Schema) (r : Registry) : Registry := {|
  schemas := <[s_id s := s]> (schemas r); channels := channels r; stream_to_channel := stream_to_channel r;
  next_schema_id := next_schema_id r; next_channel_id := next_channel_id r |}.
Definition insert_channel (c : Channel) (r : Registry) : Registry := {|
  schemas := schemas r; channels := <[c_id c := c]> (channels r); stream_to_channel := stream_to_channel r;
  next_schema_id := next_schema_id r; next_channel_id := next_channel_id r |}.
Definition insert_stream (stream : string) (id : Z) (r : Registry) : Registry := {|
  schemas := schemas r; channels := channels r; stream_to_channel := <[stream := id]> (stream_to_channel r);
  next_schema_id := next_schema_id r; next_channel_id := next_channel_id r |}.
Definition take_schema_id (r : Registry) : Registry := {|
  schemas := schemas r; channels := channels r; stream_to_channel := stream_to_channel r;
  next_schema_id := wrap_add u16_max (next_schema_id r) 1; next_channel_id := next_channel_id r |}.
Definition take_channel_id (r : Registry) : Registry := {|
  schemas := schemas r; channels := channels r; stream_to_channel := stream_to_channel r;
  next_schema_id := next_schema_id r; next_channel_id := wrap_add u16_max (next_channel_id r) 1 |}.

Definition when_writing (m : MM unit) : MM unit :=
  st ← gets state; if bool_decide (st = Writing) then m else mret tt.

Definition register_schema (s : Schema) : MM Z :=
  _ ← on_registry (insert_schema s);
  _ ← when_writing (write_record SchemaOp (schema_record s));
  mret (s_id s).

Definition add_schema (name encoding : string) (data : list Z) : MM Z :=
  id ← gets (fun w => next_schema_id (registry w));
  _ ← on_registry take_schema_id;
  register_schema {| s_id := id; s_name := name; s_encoding := encoding; s_data := data |}.

Definition write_channel (c : Channel) : MM unit :=
  kvs ← call (MetadataOrder (c_metadata c));
  write_record ChannelOp (channel_record c kvs).

Definition register_channel (c : Channel) : MM Z :=
  r ← gets registry;
  if negb (c_schema_id c =? 0) && negb (bool_decide (is_Some (schemas r !! c_schema_id c)))
  then throw (SchemaNotRegistered ("Schema " +:+ show_uint (c_schema_id c) +:+ " not found"))
  else
    _ ← on_registry (insert_channel c);
    _ ← when_writing (write_channel c);
    mret (c_id c).

Definition add_channel (schema_id : Z) (topic encoding : string) : MM Z :=
  id ← gets (fun w => next_channel_id (registry w));
  _ ← on_registry take_channel_id;
  register_channel (Channel_new id schema_id topic encoding).

Definition has_channel (id : Z) (w : McapWriter) : bool := bool_decide (is_Some (channels (registry w) !! id)).
Definition channel_missing (id : Z) : McapError := ChannelNotRegistered ("Channel " +:+ show_uint id +:+ " not found").

Definition register_stream (stream : string) (channel_id : Z) : MM unit :=
  ok ← gets (has_channel channel_id);
  _ ← guard_m ok (channel_missing channel_id);
  on_registry (insert_stream stream channel_id).

Definition require_writing : MM unit :=
  st ← gets state; guard_m (bool_decide (st = Writing)) (InvalidState "Writer not in writing state").

(** The statistics after one more message. *)
Definition count_message (channel_id timestamp : Z) (s : McapStatistics) : McapStatistics := {|
  message_count := wrap_add u64_max (message_count s) 1; chunk_count := chunk_count s;
  attachment_count := attachment_count s; uncompressed_total := uncompressed_total s;
  compressed_total := compressed_total s;
  channel_message_counts := <[channel_id :=
      wrap_add u64_max (from_option id 0 (channel_message_counts s !! channel_id)) 1]> (channel_message_counts s);
  message_start_time :=
    if (message_start_time s =? 0) || (timestamp <? message_start_time s) then timestamp else message_start_time s;
  message_end_time := if message_end_time s <? timestamp then timestamp else message_end_time s |}.
Definition count_chunk (size : Z) (s : McapStatistics) : McapStatistics := {|
  message_count := message_count s; chunk_count := wrap_add u32_max (chunk_count s) 1;
  attachment_count := attachment_count s; uncompressed_total := wrap_add u64_max (uncompressed_total s) size;
  compressed_total := wrap_add u64_max (compressed_total s) size;
  channel_message_counts := channel_message_counts s; message_start_time := message_start_time s;
  message_end_time := message_end_time s |}.
Definition count_attachment (s : McapStatistics) : McapStatistics := {|
  message_count := message_count s; chunk_count := chunk_count s;
  attachment_count := wrap_add u32_max (attachment_count s) 1; uncompressed_total := uncompressed_total s;
  compressed_total := compressed_total s; channel_message_counts := channel_message_counts s;
  message_start_time := message_start_time s; message_end_time := message_end_time s |}.

(** [flush_chunk]: whatever the configured compression, the data is copied.
    The message indices are not written, and so have length 0. *)
Definition flush_chunk : MM unit :=
  w ← gets id;
  match chunk_buffer w with
  | [] => mret tt
  | buffer =>
      let size := Z.of_nat (length buffer) in
      let start_time := from_option mi_timestamp 0 (head (message_indices w)) in
      let end_time := from_option mi_timestamp 0 (last (message_indices w)) in
      let chunk_offset := bytes_written w in
      _ ← write_record Chunk (chunk_record start_time end_time "" size buffer);
      here ← gets bytes_written;
      _ ← modify (add_chunk_index {|
            start_time := start_time; end_time := end_time; offset := chunk_offset;
            chunk_length := (here - chunk_offset) `mod` (u64_max + 1); message_index_offset := here; message_index_length := 0;
            compression_name := ""; compressed_size := size; uncompressed_size := size |});
      _ ← modify (fun w => set_stats (count_chunk size (stats w)) w);
      modify (set_chunk [] [])
  end.

Definition flush_pending : MM unit :=
  w ← gets id;
  if use_chunking (config w) && negb (bool_decide (chunk_buffer w = [])) then flush_chunk else mret tt.

(** A message into the chunk. *)
Definition buffer_message (channel_id timestamp : Z) (data : list Z) (w : McapWriter) : McapWriter :=
  set_chunk (chunk_buffer w ++ frame MessageOp (message_record channel_id (message_count (stats w)) timestamp data))
    (if create_message_index (config w)
     then push (message_indices w) {| mi_timestamp := timestamp; mi_offset := Z.of_nat (length (chunk_buffer w)) |}
     else message_indices w) w.

Definition write_message (channel_id timestamp : Z) (data : list Z) : MM unit :=
  _ ← require_writing;
  ok ← gets (has_channel channel_id);
  _ ← guard_m ok (channel_missing channel_id);
  _ ← modify (fun w => set_stats (count_message channel_id timestamp (stats w)) w);
  chunking ← gets (fun w => use_chunking (config w));
  if (chunking : bool) then
    _ ← modify (buffer_message channel_id timestamp data);
    w ← gets id;
    if chunk_size (config w) <=? Z.of_nat (length (chunk_buffer w)) then flush_chunk else mret tt
  else
    count ← gets (fun w => message_count (stats w));
    write_record MessageOp (message_record channel_id count timestamp data).

Definition write_sample {Payload : Set} (to_bytes : Payload -> list Z) (s : @Buffer.DataSample Payload) : MM unit :=
  streams ← gets (fun w => stream_to_channel (registry w));
  channel_id ← or_throw (ChannelNotRegistered ("Stream " +:+ Buffer.stream_id s +:+ " not registered"))
                 (streams !! Buffer.stream_id s);
  write_message channel_id (Buffer.timestamp_ns s) (to_bytes (Buffer.data s)).

Definition add_attachment (name media_type : string) (data : list Z) : MM unit :=
  _ ← require_writing;
  _ ← flush_pending;
  _ ← write_record Attachment (attachment_record name media_type data);
  modify (fun w => set_stats (count_attachment (stats w)) w).

Definition add_metadata (name : string) (metadata : gmap string string) : MM unit :=
  _ ← require_writing;
  kvs ← call (MetadataOrder metadata);
  write_record Metadata (metadata_record name kvs).

Definition write_statistics : MM unit :=
  w ← gets id;
  counts ← call (CountsOrder (channel_message_counts (stats w)));
  write_record StatisticsOp
    (statistics_record (size (schemas (registry w))) (size (channels (registry w))) (stats w) counts).

Fixpoint write_chunk_indices (es : list ChunkIndexEntry) : MM unit :=
  match es with
  | [] => mret tt
  | e :: es => _ ← write_record ChunkIndex (chunk_index_record e); write_chunk_indices es
  end.

Definition write_summary : MM unit :=
  _ ← write_statistics;
  es ← gets chunk_indices;
  write_chunk_indices es.

(** [finish], which consumes the writer and returns the statistics. *)
Definition finish : MM McapStatistics :=
  _ ← require_writing;
  _ ← flush_pending;
  _ ← write_record DataEnd (le 4 0);
  _ ← write_summary;
  _ ← write_record Footer footer_record;
  _ ← write_bytes MCAP_MAGIC;
  _ ← modify (set_state Finished);
  gets stats.

(** ** A reader of the format

    Frames one after the other, the messages among them and in the chunks. *)

Record Message : Set := { m_channel : Z; m_sequence : Z; m_log_time : Z; m_publish_time : Z; m_data : list Z }.

Fixpoint read_frames (fuel : nat) (l : list Z) : option (list (Z * list Z)) :=
  match l, fuel with
  | [], _ => Some []
  | _, O => None
  | o :: l, S fuel =>
      let n := le_value (take 8 l) in
      let rest := drop 8 l in
      if Z.of_nat (length rest) <? n then None
      else
        fs ← read_frames fuel (drop (Z.to_nat n) rest);
        Some ((o, take (Z.to_nat n) rest) :: fs)
  end.

Definition read_message (c : list Z) : option Message :=
  if (length c <? 22)%nat then None
  else Some {| m_channel := le_value (take 2 c); m_sequence := le_value (take 4 (drop 2 c));
               m_log_time := le_value (take 8 (drop 6 c)); m_publish_time := le_value (take 8 (drop 14 c));
               m_data := drop 22 c |}.

(** The data of a chunk that is not compressed. *)
Definition chunk_data (c : list Z) : option (list Z) :=
  if le_value (take 4 (drop 28 c)) =? 0 then Some (drop 40 c) else None.

Definition message_frame (f : Z * list Z) : option (list Message) :=
  if f.1 =? opcode MessageOp then m ← read_message f.2; Some [m] else Some [].

Definition frame_messages (f : Z * list Z) : option (list Message) :=
  if f.1 =? opcode Chunk then
    data ← chunk_data f.2;
    fs ← read_frames (length data) data;
    mss ← mapM message_frame fs;
    Some (concat mss)
  else message_frame f.

Definition read_mcap (l : list Z) : option (list Message) :=
  let body := take (length l - 16) (drop 8 l) in
  if bool_decide (take 8 l = MCAP_MAGIC) && bool_decide (drop (length l - 8) l = MCAP_MAGIC) && (16 <=? length l)%nat
  then
    fs ← read_frames (length body) body;
    mss ← mapM frame_messages fs;
    Some (concat mss)
  else None.

(** ** What the file is made of *)

Inductive Rec : Set :=
| RMessage (m : Message)
| RChunk (start_time end_time : Z) (ms : list Message)
| ROther (o : Opcode) (data : list Z).

Definition message_bytes (m : Message) : list Z :=
  message_record (m_channel m) (m_sequence m) (m_log_time m) (m_data m).
Definition messages_bytes (ms : list Message) : list Z := concat (map (fun m => frame MessageOp (message_bytes m)) ms).

Definition rec_frame (r : Rec) : Z * list Z :=
  match r with
  | RMessage m => (opcode MessageOp, message_bytes m)
  | RChunk s e ms =>
      let data := messages_bytes ms in
      (opcode Chunk, chunk_record s e "" (Z.of_nat (length data)) data)
  | ROther o data => (opcode o, data)
  end.
Definition framed (f : Z * list Z) : list Z := f.1 :: le 8 (Z.of_nat (length f.2)) ++ f.2.
Definition encode (rs : list Rec) : list Z := concat (map (fun r => framed (rec_frame r)) rs).

Definition rec_messages (r : Rec) : list Message :=
  match r with RMessage m => [m] | RChunk _ _ ms => ms | ROther _ _ => [] end.
Definition other_op (r : Rec) : Prop :=
  match r with ROther o _ => o <> MessageOp /\ o <> Chunk | _ => True end.
Definition message_ok (m : Message) : Prop :=
  0 <= m_channel m <= u16_max /\ 0 <= m_sequence m <= u32_max /\ 0 <= m_log_time m <= u64_max /\
  m_publish_time m = m_log_time m.

Lemma opcode_inj a b : opcode a = opcode b -> a = b.
Proof. by destruct a, b. Qed.

Lemma encode_app a b : encode (a ++ b) = encode a ++ encode b.
Proof. unfold encode. by rewrite map_app, concat_app. Qed.

Lemma encode_frames rs : encode rs = concat (map framed (map rec_frame rs)).
Proof. unfold encode. by rewrite map_map. Qed.

Lemma framed_length f : length (framed f) = (9 + length f.2)%nat.
Proof. unfold framed. cbn [length]. rewrite length_app, le_length. lia. Qed.

(** Frames are read back, with at least a unit of fuel for each. *)
Lemma read_frames_framed fs fuel :
  (length fs <= fuel)%nat -> Forall (fun f : Z * list Z => Z.of_nat (length f.2) <= u64_max) fs ->
  read_frames fuel (concat (map framed fs)) = Some fs.
Proof.
  revert fuel. induction fs as [|[o c] fs IH]; intros fuel Hf Hs; [by destruct fuel|].
  destruct fuel as [|fuel]; [simpl in Hf; lia|]. apply Forall_cons in Hs as [Hc Hs]. cbn in Hc.
  change (concat (map framed ((o, c) :: fs))) with (o :: (le 8 (Z.of_nat (length c)) ++ c) ++ concat (map framed fs)).
  rewrite <- app_assoc. cbn [read_frames]. rewrite take_app_length', drop_app_length' by (by rewrite le_length).
  rewrite le_value_le by (change (256 ^ Z.of_nat 8) with (u64_max + 1); lia).
  rewrite (proj2 (Z.ltb_ge _ _)) by (rewrite length_app; lia). rewrite Nat2Z.id, drop_app_length, take_app_length.
  rewrite IH by (simpl in Hf; done || lia). done.
Qed.

Lemma frames_count fs : (length fs <= length (concat (map framed fs)))%nat.
Proof.
  induction fs as [|f fs IH]; [done|]. cbn [map concat length]. rewrite length_app, framed_length. lia.
Qed.

Lemma read_all fs :
  Z.of_nat (length (concat (map framed fs))) <= u64_max ->
  read_frames (length (concat (map framed fs))) (concat (map framed fs)) = Some fs.
Proof.
  intros Hl. apply read_frames_framed; [apply frames_count|]. revert Hl.
  induction fs as [|f fs IH]; [constructor|]. cbn [map concat]. rewrite length_app, framed_length.
  intros Hl. constructor; [lia|]. apply IH. lia.
Qed.

Lemma read_message_bytes m : message_ok m -> read_message (message_bytes m) = Some m.
Proof.
  intros (Hc & Hs & Ht & Hp). unfold message_bytes, message_record, read_message.
  assert (Hlen : forall n z, length (le n z) = n) by apply le_length.
  rewrite (proj2 (Nat.ltb_ge _ _)) by (rewrite !length_app, !Hlen; lia).
  destruct m as [ch sq lt pt d]. cbn [m_channel m_sequence m_log_time m_publish_time m_data] in *. subst pt.
  set (c := le 2 ch ++ _). change (take 2 c) with (le 2 ch). change (take 4 (drop 2 c)) with (le 4 sq).
  change (take 8 (drop 6 c)) with (le 8 lt). change (take 8 (drop 14 c)) with (le 8 lt). change (drop 22 c) with d.
  unfold u16_max, u32_max, u64_max in *. rewrite !le_value_le by lia. done.
Qed.

Lemma chunk_data_record s e n data : chunk_data (chunk_record s e "" n data) = Some data.
Proof.
  unfold chunk_data, chunk_record, prefixed_string. done.
Qed.

Lemma message_frame_bytes m : message_ok m -> message_frame (opcode MessageOp, message_bytes m) = Some [m].
Proof. intros Hm. unfold message_frame. cbn [fst snd]. by rewrite Z.eqb_refl, read_message_bytes. Qed.

Lemma mapM_messages ms :
  Forall message_ok ms ->
  mapM message_frame (map (fun m => (opcode MessageOp, message_bytes m)) ms) = Some (map (fun m => [m]) ms).
Proof.
  induction 1 as [|m ms Hm _ IH]; [done|]. cbn [map mapM].
  rewrite message_frame_bytes by done. cbn [mbind option_bind]. by rewrite IH.
Qed.

Lemma concat_singletons {A} (l : list A) : concat (map (fun x => [x]) l) = l.
Proof. induction l as [|x l IH]; [done|]. simpl. by rewrite IH. Qed.

Lemma messages_bytes_frames ms :
  messages_bytes ms = concat (map framed (map (fun m => (opcode MessageOp, message_bytes m)) ms)).
Proof. unfold messages_bytes. by rewrite map_map. Qed.

(** A record of the file gives its messages. *)
Lemma frame_messages_rec r :
  other_op r -> Forall message_ok (rec_messages r) -> Z.of_nat (length (rec_frame r).2) <= u64_max ->
  frame_messages (rec_frame r) = Some (rec_messages r).
Proof.
  destruct r as [m|s e ms|o data]; intros Ho Hm Hl.
  - apply (Forall_singleton message_ok) in Hm. exact (message_frame_bytes m Hm).
  - unfold frame_messages. cbn [rec_frame fst snd]. rewrite Z.eqb_refl, chunk_data_record. cbn [mbind option_bind].
    cbn [rec_frame snd] in Hl. unfold chunk_record in Hl. rewrite !length_app, !le_length in Hl.
    rewrite messages_bytes_frames in *. rewrite read_all by lia. cbn [mbind option_bind].
    rewrite mapM_messages by done. cbn. by rewrite concat_singletons.
  - destruct Ho as [Ho1 Ho2]. unfold frame_messages, message_frame. cbn [rec_frame fst].
    rewrite !(proj2 (Z.eqb_neq _ _)); [done|by intros ?%opcode_inj..].
Qed.

Lemma mapM_recs rs :
  Forall other_op rs -> Forall (fun r => Forall message_ok (rec_messages r)) rs ->
  Z.of_nat (length (encode rs)) <= u64_max ->
  mapM frame_messages (map rec_frame rs) = Some (map rec_messages rs).
Proof.
  induction rs as [|r rs IH]; intros Ho Hm Hl; [done|].
  apply Forall_cons in Ho as [Ho Hos]. apply Forall_cons in Hm as [Hm Hms].
  unfold encode in Hl. cbn [map concat] in Hl. rewrite length_app, framed_length in Hl.
  cbn [map mapM]. rewrite frame_messages_rec by (done || lia). cbn. rewrite IH; [done|done|done|].
  unfold encode. lia.
Qed.

(** A file made of records is read as the messages of the records. *)
Lemma read_mcap_encode rs :
  Forall other_op rs -> Forall (fun r => Forall message_ok (rec_messages r)) rs ->
  Z.of_nat (length (MCAP_MAGIC ++ encode rs ++ MCAP_MAGIC)) <= u64_max ->
  read_mcap (MCAP_MAGIC ++ encode rs ++ MCAP_MAGIC) = Some (concat (map rec_messages rs)).
Proof.
  intros Ho Hm Hl. unfold read_mcap. rewrite !length_app in *. change (length MCAP_MAGIC) with 8%nat in *.
  pose proof (encode_frames rs) as He.
  change (take 8 (MCAP_MAGIC ++ encode rs ++ MCAP_MAGIC)) with MCAP_MAGIC.
  change (drop 8 (MCAP_MAGIC ++ encode rs ++ MCAP_MAGIC)) with (encode rs ++ MCAP_MAGIC).
  replace (8 + (length (encode rs) + 8) - 8)%nat with (length (MCAP_MAGIC ++ encode rs))
    by (rewrite length_app; change (length MCAP_MAGIC) with 8%nat; lia).
  rewrite (app_assoc MCAP_MAGIC), drop_app_length, !bool_decide_true by done.
  rewrite (proj2 (Nat.leb_le _ _)) by lia. cbn [andb].
  rewrite take_app_length' by lia. rewrite He. rewrite read_all by (rewrite <- He; lia). cbn [mbind option_bind].
  rewrite mapM_recs by (done || lia). done.
Qed.

(** ** Sessions

    The operations a client makes between [start] and [finish], ending at the
    first error. *)

Inductive Op : Type :=
| RegisterSchema (s : Schema)
| AddSchema (name encoding : string) (data : list Z)
| RegisterChannel (c : Channel)
| AddChannel (schema_id : Z) (topic encoding : string)
| RegisterStream (stream : string) (channel_id : Z)
| WriteMessage (channel_id timestamp : Z) (data : list Z)
| WriteSample (s : @Buffer.DataSample (list Z))
| AddAttachment (name media_type : string) (data : list Z)
| AddMetadata (name : string) (metadata : gmap string string).

Definition run_op (o : Op) : MM unit :=
  match o with
  | RegisterSchema s => _ ← register_schema s; mret tt
  | AddSchema name encoding data => _ ← add_schema name encoding data; mret tt
  | RegisterChannel c => _ ← register_channel c; mret tt
  | AddChannel schema_id topic encoding => _ ← add_channel schema_id topic encoding; mret tt
  | RegisterStream stream channel_id => register_stream stream channel_id
  | WriteMessage channel_id timestamp data => write_message channel_id timestamp data
  | WriteSample s => write_sample id s
  | AddAttachment name media_type data => add_attachment name media_type data
  | AddMetadata name metadata => add_metadata name metadata
  end.

Fixpoint run_ops (ops : list Op) : MM unit :=
  match ops with [] => mret tt | o :: ops => _ ← run_op o; run_ops ops end.

Definition session (ops : list Op) : MM McapStatistics := _ ← start; _ ← run_ops ops; finish.

(** *** The contract: what is registered, and which messages are written *)

Definition Sent : Type := (Z * Z * list Z).

Definition spec_message (channel_id timestamp : Z) (data : list Z) (r : Registry) : result McapError (Registry * list Sent) :=
  if bool_decide (is_Some (channels r !! channel_id)) then Ok (r, [(channel_id, timestamp, data)])
  else Err (channel_missing channel_id).

Definition spec_channel (c : Channel) (r : Registry) : result McapError (Registry * list Sent) :=
  if (c_schema_id c =? 0) || bool_decide (is_Some (schemas r !! c_schema_id c)) then Ok (insert_channel c r, [])
  else Err (SchemaNotRegistered ("Schema " +:+ show_uint (c_schema_id c) +:+ " not found")).

Definition spec_op (o : Op) (r : Registry) : result McapError (Registry * list Sent) :=
  match o with
  | RegisterSchema s => Ok (insert_schema s r, [])
  | AddSchema name encoding data =>
      Ok (insert_schema {| s_id := next_schema_id r; s_name := name; s_encoding := encoding; s_data := data |}
            (take_schema_id r), [])
  | RegisterChannel c => spec_channel c r
  | AddChannel schema_id topic encoding =>
      spec_channel (Channel_new (next_channel_id r) schema_id topic encoding) (take_channel_id r)
  | RegisterStream stream channel_id =>
      if bool_decide (is_Some (channels r !! channel_id)) then Ok (insert_stream stream channel_id r, [])
      else Err (channel_missing channel_id)
  | WriteMessage channel_id timestamp data => spec_message channel_id timestamp data r
  | WriteSample s =>
      match stream_to_channel r !! Buffer.stream_id s with
      | Some channel_id => spec_message channel_id (Buffer.timestamp_ns s) (Buffer.data s) r
      | None => Err (ChannelNotRegistered ("Stream " +:+ Buffer.stream_id s +:+ " not registered"))
      end
  | AddAttachment _ _ _ | AddMetadata _ _ => Ok (r, [])
  end.

Fixpoint spec_ops (ops : list Op) (r : Registry) : result McapError (Registry * list Sent) :=
  match ops with
  | [] => Ok (r, [])
  | o :: ops =>
      rm ← spec_op o r;
      rn ← spec_ops ops rm.1;
      Ok (rn.1, rm.2 ++ rn.2)
  end.

(** The messages as they are numbered in the file, from one on. *)
Definition numbered (sent : list Sent) : list Message :=
  imap (fun i '(channel_id, timestamp, data) =>
    {| m_channel := channel_id; m_sequence := wrap_add u32_max 0 (Z.of_nat (S i)); m_log_time := timestamp;
       m_publish_time := timestamp; m_data := data |}) sent.

Definition sent_ok (s : Sent) : Prop := 0 <= s.1.1 <= u16_max /\ 0 <= s.1.2 <= u64_max.

Lemma numbered_snoc sent channel_id timestamp data :
  numbered (sent ++ [(channel_id, timestamp, data)]) =
  numbered sent ++ [{| m_channel := channel_id; m_sequence := wrap_add u32_max 0 (Z.of_nat (S (length sent)));
                       m_log_time := timestamp; m_publish_time := timestamp; m_data := data |}].
Proof. unfold numbered. rewrite imap_app. simpl. by rewrite Nat.add_0_r. Qed.

Lemma numbered_content sent :
  map (fun m => (m_log_time m, m_data m)) (numbered sent) = map (fun m : Sent => (m.1.2, m.2)) sent.
Proof.
  induction sent as [|[[ch ts] data] sent IH] using rev_ind; [done|]. rewrite numbered_snoc, !map_app, IH. done.
Qed.

Lemma numbered_ok sent : Forall sent_ok sent -> Forall message_ok (numbered sent).
Proof.
  intros H. unfold numbered. apply Forall_lookup. intros i m Hm. apply list_lookup_imap_Some in Hm as ([[ch ts] d] & Hi & ->).
  rewrite Forall_lookup in H. destruct (H i _ Hi) as [? ?]. cbn in *. split; [done|]. split; [apply wrap_add_bound; unfold u32_max; lia|].
  done.
Qed.

(** *** A device that takes every byte *)

Section Device.
Context (maps : gmap string string -> list (string * string)) (counts : gmap Z Z -> list (Z * Z)).

Definition device (R : Set) (c : McapCall R) (file : list Z) : R * list Z :=
  match c with
  | WriteAll bytes => (Ok tt, file ++ bytes)
  | MetadataOrder m => (maps m, file)
  | CountsOrder m => (counts m, file)
  end.

(** [m] takes the writer from [w] to [w'], adding [out] to the file. *)
Definition emits {A} (m : MM A) (w : McapWriter) (r : result McapError A) (w' : McapWriter) (out : list Z) : Prop :=
  forall file, run_prog device (m w) file = ((w', r), file ++ out).

Lemma emits_bind {A B} (m : MM A) (f : A -> MM B) w a w1 out1 r w2 out2 :
  emits m w (Ok a) w1 out1 -> emits (f a) w1 r w2 out2 -> emits (m ≫= f) w r w2 (out1 ++ out2).
Proof. intros Hm Hf file. rewrite run_sm_bind, Hm, Hf. by rewrite app_assoc. Qed.
Lemma emits_pure {A B} (m : MM A) (f : A -> MM B) w a w1 r w2 out :
  emits m w (Ok a) w1 [] -> emits (f a) w1 r w2 out -> emits (m ≫= f) w r w2 out.
Proof. intros Hm Hf. exact (emits_bind m f w a w1 [] r w2 out Hm Hf). Qed.
Lemma emits_fails {A B} (m : MM A) (f : A -> MM B) w e w1 out :
  emits m w (Err e) w1 out -> emits (m ≫= f) w (Err e) w1 out.
Proof. intros Hm file. by rewrite run_sm_bind, Hm. Qed.
Lemma emits_last {A B} (m : MM A) (f : A -> MM B) w a w1 out r w2 :
  emits m w (Ok a) w1 out -> emits (f a) w1 r w2 [] -> emits (m ≫= f) w r w2 out.
Proof. intros Hm Hf. rewrite <- (app_nil_r out). exact (emits_bind m f w a w1 out r w2 [] Hm Hf). Qed.

Lemma emits_nothing {A} (m : MM A) w r w' :
  (forall file, run_prog device (m w) file = ((w', r), file)) -> emits m w r w' [].
Proof. intros H file. by rewrite H, app_nil_r. Qed.
Lemma emits_ret {A} (a : A) w : emits (mret a) w (Ok a) w [].
Proof. by apply emits_nothing. Qed.
Lemma emits_gets {A} (f : McapWriter -> A) w : emits (gets f) w (Ok (f w)) w [].
Proof. by apply emits_nothing. Qed.
Lemma emits_modify f w : emits (modify f) w (Ok tt) (f w) [].
Proof. by apply emits_nothing. Qed.
Lemma emits_guard (b : bool) e w :
  emits (guard_m b e) w (if b then Ok tt else Err e) w [].
Proof. destruct b; by apply emits_nothing. Qed.

Lemma emits_write_bytes data w :
  emits (write_bytes data) w (Ok tt) (count_bytes (Z.of_nat (length data)) w) data.
Proof. by intros file. Qed.

Lemma wrap_add_assoc max n a b : wrap_add max (wrap_add max n a) b = wrap_add max n (a + b).
Proof. unfold wrap_add. rewrite Zplus_mod_idemp_l. f_equal. lia. Qed.

Lemma count_bytes_add a b w : count_bytes b (count_bytes a w) = count_bytes (a + b) w.
Proof. unfold count_bytes. cbn. by rewrite wrap_add_assoc. Qed.

Lemma emits_write_record o data w :
  emits (write_record o data) w (Ok tt) (count_bytes (Z.of_nat (length (frame o data))) w) (frame o data).
Proof.
  unfold write_record, frame. cbn [length]. rewrite length_app, le_length.
  change (opcode o :: le 8 (Z.of_nat (length data)) ++ data) with ([opcode o] ++ le 8 (Z.of_nat (length data)) ++ data).
  eapply emits_bind; [apply emits_write_bytes|]. 
  replace (Z.of_nat (S (8 + length data))) with (1 + (8 + Z.of_nat (length data))) by lia.
  rewrite <- !count_bytes_add. eapply emits_bind; [|apply emits_write_bytes].
  apply emits_write_bytes.
Qed.

(** *** What holds of writer and file after every operation *)

(** The chunk that an index entry points to. *)
Definition located (file : list Z) (e : ChunkIndexEntry) : Prop :=
  exists before content after, file = before ++ frame Chunk content ++ after /\
    offset e = Z.of_nat (length before) /\ chunk_length e = Z.of_nat (length (frame Chunk content)).

Definition holds (w : McapWriter) (file : list Z) (sent : list Sent) : Prop :=
  exists recs pending,
    file = MCAP_MAGIC ++ encode recs /\ Forall other_op recs /\ state w = Writing /\
    bytes_written w = wrap_add u64_max 0 (Z.of_nat (length file)) /\
    chunk_buffer w = messages_bytes pending /\ (use_chunking (config w) = false -> pending = []) /\
    concat (map rec_messages recs) ++ pending = numbered sent /\
    message_count (stats w) = wrap_add u64_max 0 (Z.of_nat (length sent)) /\
    (Z.of_nat (length file) <= u64_max -> Forall (located file) (chunk_indices w)).

Lemma located_app file out es :
  (Z.of_nat (length file) <= u64_max -> Forall (located file) es) ->
  Z.of_nat (length (file ++ out)) <= u64_max -> Forall (located (file ++ out)) es.
Proof.
  rewrite length_app. intros H Hl. eapply Forall_impl; [apply H; lia|].
  intros e (b & c & a & -> & Ho & Hc). exists b, c, (a ++ out). rewrite <- !app_assoc. done.
Qed.

Lemma wrap_of_nat_app (a b : list Z) :
  wrap_add u64_max (wrap_add u64_max 0 (Z.of_nat (length a))) (Z.of_nat (length b)) =
  wrap_add u64_max 0 (Z.of_nat (length (a ++ b))).
Proof. rewrite wrap_add_assoc, length_app, Nat2Z.inj_add. done. Qed.

Lemma encode_snoc recs r : MCAP_MAGIC ++ encode (recs ++ [r]) = (MCAP_MAGIC ++ encode recs) ++ framed (rec_frame r).
Proof. rewrite encode_app, app_assoc. unfold encode at 2. cbn. by rewrite app_nil_r. Qed.

Lemma messages_bytes_snoc ms m : messages_bytes (ms ++ [m]) = messages_bytes ms ++ frame MessageOp (message_bytes m).
Proof. unfold messages_bytes. rewrite map_app, concat_app. cbn. by rewrite app_nil_r. Qed.

Lemma messages_bytes_nil ms : messages_bytes ms = [] -> ms = [].
Proof. by destruct ms. Qed.

(** A record that is neither a message nor a chunk. *)
Lemma holds_other w file sent o data :
  o <> MessageOp -> o <> Chunk -> holds w file sent ->
  holds (count_bytes (Z.of_nat (length (frame o data))) w) (file ++ frame o data) sent.
Proof.
  intros Hm Hc (recs & pending & -> & Ho & Hs & Hb & Hbuf & Hch & Hms & Hn & Hix).
  exists (recs ++ [ROther o data]), pending. rewrite encode_snoc. split; [done|].
  split; [apply Forall_app; split; [done|by apply Forall_singleton]|]. split; [done|].
  split; [cbn [bytes_written count_bytes]; by rewrite Hb, wrap_of_nat_app|]. split; [done|]. split; [done|].
  split; [rewrite map_app, concat_app; cbn; by rewrite app_nil_r|]. split; [done|].
  cbn [chunk_indices count_bytes]. intros Hl. by apply located_app.
Qed.

Lemma flush_holds w file sent :
  holds w file sent ->
  exists w' out, emits flush_chunk w (Ok tt) w' out /\ holds w' (file ++ out) sent /\
    registry w' = registry w /\ config w' = config w /\ chunk_buffer w' = [].
Proof.
  intros (recs & pending & -> & Ho & Hs & Hb & Hbuf & Hch & Hms & Hn & Hix).
  destruct (decide (chunk_buffer w = [])) as [He|Hne].
  { exists w, []. split; [|split; [|done]].
    - unfold flush_chunk. eapply emits_pure; [apply emits_gets|]. cbn. rewrite He. apply emits_ret.
    - rewrite app_nil_r. by exists recs, pending. }
  set (first := from_option mi_timestamp 0 (head (message_indices w))).
  set (last_time := from_option mi_timestamp 0 (last (message_indices w))).
  set (r := RChunk first last_time pending).
  eexists _, (framed (rec_frame r)). split; [|split].
  - unfold flush_chunk. eapply emits_pure; [apply emits_gets|]. cbn [id].
    destruct (chunk_buffer w) as [|b bs] eqn:E; [done|]. rewrite Hbuf.
    eapply emits_last; [apply emits_write_record|]. eapply emits_pure; [apply emits_gets|].
    eapply emits_pure; [apply emits_modify|]. eapply emits_pure; [apply emits_modify|]. apply emits_modify.
  - exists (recs ++ [r]), []. rewrite encode_snoc. split; [done|].
    split; [apply Forall_app; split; [done|by apply Forall_singleton]|]. split; [done|].
    split; [cbn [bytes_written count_bytes add_chunk_index set_stats set_chunk];
      by rewrite Hb, (wrap_of_nat_app (MCAP_MAGIC ++ encode recs))|]. split; [done|]. split; [done|].
    split; [rewrite map_app, concat_app; cbn; by rewrite !app_nil_r|]. split; [done|].
    intros Hl. apply Forall_app. split; [by apply located_app|]. apply Forall_singleton.
    exists (MCAP_MAGIC ++ encode recs), (rec_frame r).2, []. rewrite app_nil_r. split; [done|].
    rewrite length_app in Hl.
    cbn [offset chunk_length bytes_written count_bytes]. rewrite Hb.
    match goal with |- context [frame Chunk (chunk_record ?a ?b ?c ?d ?e)] =>
      change (frame Chunk (chunk_record a b c d e)) with (framed (rec_frame r)) end.
    change (frame Chunk (rec_frame r).2) with (framed (rec_frame r)).
    rewrite (wrap_add_small u64_max 0 (Z.of_nat (length (MCAP_MAGIC ++ encode recs)))), wrap_add_small by lia.
    split; [done|]. unfold u64_max in *. rewrite Z.mod_small; lia.
  - done.
Qed.

Lemma flush_pending_holds w file sent :
  holds w file sent ->
  exists w' out, emits flush_pending w (Ok tt) w' out /\ holds w' (file ++ out) sent /\
    registry w' = registry w /\ chunk_buffer w' = [].
Proof.
  intros Hw. unfold flush_pending. destruct (use_chunking (config w) && negb (bool_decide (chunk_buffer w = []))) eqn:E.
  - destruct (flush_holds w file sent Hw) as (w' & out & He & Hh & Hr & _ & Hb).
    exists w', out. split; [|done]. eapply emits_pure; [apply emits_gets|]. cbn [id]. by rewrite E.
  - exists w, []. rewrite app_nil_r. split; [|split; [done|split; [done|]]].
    + eapply emits_pure; [apply emits_gets|]. cbn [id]. rewrite E. apply emits_ret.
    + destruct Hw as (recs & pending & _ & _ & _ & _ & Hbuf & Hch & _). apply andb_false_iff in E as [E|E].
      * rewrite Hbuf. by rewrite (Hch E).
      * apply negb_false_iff, bool_decide_eq_true in E. done.
Qed.

(** The outcome of an operation is that of its contract. *)
Definition refines {A} (m : MM A) (w : McapWriter) (file : list Z) (sent : list Sent)
    (spec : result McapError (Registry * list Sent)) : Prop :=
  match spec with
  | Ok (r, more) => exists a w' out, emits m w (Ok a) w' out /\ registry w' = r /\ holds w' (file ++ out) (sent ++ more)
  | Err e => exists w' out, emits m w (Err e) w' out
  end.

Lemma refines_unit {A} (m : MM A) w file sent spec :
  refines m w file sent spec -> refines (_ ← m; mret tt) w file sent spec.
Proof.
  destruct spec as [[r more]|e]; cbn.
  - intros (a & w' & out & He & Hr & Hh). exists tt, w', out. split; [|done]. eapply emits_last; [exact He|apply emits_ret].
  - intros (w' & out & He). exists w', out. by apply emits_fails.
Qed.

Lemma emits_require w file sent : holds w file sent -> emits require_writing w (Ok tt) w [].
Proof.
  intros (recs & pending & _ & _ & Hs & _). eapply emits_pure; [apply emits_gets|]. rewrite Hs. apply emits_ret.
Qed.

Lemma emits_when w file sent m w' out :
  holds w file sent -> emits m w (Ok tt) w' out -> emits (when_writing m) w (Ok tt) w' out.
Proof.
  intros (recs & pending & _ & _ & Hs & _) Hm. eapply emits_pure; [apply emits_gets|]. by rewrite Hs.
Qed.

Lemma register_schema_refines s w file sent :
  holds w file sent -> refines (register_schema s) w file sent (Ok (insert_schema s (registry w), [])).
Proof.
  intros Hw. set (w1 := set_registry (insert_schema s (registry w)) w).
  assert (Hw1 : holds w1 file sent) by exact Hw.
  eexists _, _, (frame SchemaOp (schema_record s)). rewrite app_nil_r. split; [|split].
  - eapply emits_pure; [apply emits_modify|]. fold w1. eapply emits_last; [|apply emits_ret].
    eapply emits_when; [exact Hw1|]. apply emits_write_record.
  - done.
  - by apply holds_other.
Qed.

Lemma register_channel_refines c w file sent :
  holds w file sent -> refines (register_channel c) w file sent (spec_channel c (registry w)).
Proof.
  intros Hw. unfold spec_channel, register_channel.
  destruct ((c_schema_id c =? 0) || bool_decide (is_Some (schemas (registry w) !! c_schema_id c))) eqn:E.
  - set (w1 := set_registry (insert_channel c (registry w)) w).
    assert (Hw1 : holds w1 file sent) by exact Hw.
    eexists _, _, (frame ChannelOp (channel_record c (maps (c_metadata c)))). rewrite app_nil_r. split; [|split].
    + eapply emits_pure; [apply emits_gets|]. rewrite <- negb_orb, E. cbn [negb].
      eapply emits_pure; [apply emits_modify|]. fold w1. eapply emits_last; [|apply emits_ret].
      eapply emits_when; [exact Hw1|]. unfold write_channel. eapply emits_pure; [by apply emits_nothing|].
      apply emits_write_record.
    + done.
    + by apply holds_other.
  - exists w, []. eapply emits_pure; [apply emits_gets|]. rewrite <- negb_orb, E. by apply emits_nothing.
Qed.

(** The count at its width, and cut to 32 bits. *)
Lemma next_sequence (n : nat) :
  le 4 (wrap_add u64_max (wrap_add u64_max 0 (Z.of_nat n)) 1) = le 4 (wrap_add u32_max 0 (Z.of_nat (S n))).
Proof.
  rewrite wrap_add_assoc. rewrite <- (le_mod 4), <- (le_mod 4 (wrap_add u32_max _ _)). f_equal.
  unfold wrap_add, u64_max, u32_max. replace (Z.of_nat n + 1) with (Z.of_nat (S n)) by lia.
  change (256 ^ Z.of_nat 4) with 4294967296. change (2 ^ 64 - 1 + 1) with (4294967296 * 4294967296).
  change (2 ^ 32 - 1 + 1) with 4294967296. rewrite Z.mod_mod by lia.
  rewrite Z.rem_mul_r by lia. rewrite Z.mul_comm, Z.mod_add by lia. by rewrite Z.mod_mod by lia.
Qed.

Lemma count_message_next w channel_id timestamp sent :
  message_count (stats w) = wrap_add u64_max 0 (Z.of_nat (length sent)) ->
  message_count (count_message channel_id timestamp (stats w)) =
  wrap_add u64_max 0 (Z.of_nat (length (sent ++ [(channel_id, timestamp, [] : list Z)]))).
Proof. cbn. intros ->. rewrite wrap_add_assoc, length_app. f_equal. simpl. lia. Qed.

Lemma buffer_message_holds channel_id timestamp data w file sent :
  use_chunking (config w) = true -> holds w file sent ->
  holds (buffer_message channel_id timestamp data (set_stats (count_message channel_id timestamp (stats w)) w)) file
    (sent ++ [(channel_id, timestamp, data)]).
Proof.
  intros Hc (recs & pending & -> & Ho & Hs & Hb & Hbuf & Hch & Hms & Hn & Hix).
  exists recs, (pending ++ [{| m_channel := channel_id; m_sequence := wrap_add u32_max 0 (Z.of_nat (S (length sent)));
      m_log_time := timestamp; m_publish_time := timestamp; m_data := data |}]).
  split; [done|]. split; [done|]. split; [done|]. split; [done|]. split.
  { rewrite messages_bytes_snoc. unfold buffer_message. cbn [chunk_buffer set_chunk set_stats stats].
    rewrite Hbuf. f_equal. f_equal. unfold message_bytes, message_record. cbn [m_channel m_sequence m_log_time m_data].
    cbn [message_count count_message]. by rewrite Hn, next_sequence. }
  split; [cbn; by rewrite Hc|]. split; [by rewrite app_assoc, Hms, numbered_snoc|]. split; [|done].
  change (message_count (count_message channel_id timestamp (stats w)) =
    wrap_add u64_max 0 (Z.of_nat (length (sent ++ [(channel_id, timestamp, data)])))).
  rewrite (count_message_next w channel_id timestamp sent Hn), !length_app. done.
Qed.

Lemma direct_message_holds channel_id timestamp data w file sent :
  use_chunking (config w) = false -> holds w file sent ->
  let w1 := set_stats (count_message channel_id timestamp (stats w)) w in
  let out := frame MessageOp (message_record channel_id (message_count (stats w1)) timestamp data) in
  holds (count_bytes (Z.of_nat (length out)) w1) (file ++ out) (sent ++ [(channel_id, timestamp, data)]).
Proof.
  intros Hc (recs & pending & -> & Ho & Hs & Hb & Hbuf & Hch & Hms & Hn & Hix) w1 out.
  set (m := {| m_channel := channel_id; m_sequence := wrap_add u32_max 0 (Z.of_nat (S (length sent)));
      m_log_time := timestamp; m_publish_time := timestamp; m_data := data |}).
  assert (Hout : out = framed (rec_frame (RMessage m))).
  { unfold out, frame, framed. cbn [rec_frame fst snd]. unfold message_bytes, message_record, m, w1.
    cbn [m_channel m_sequence m_log_time m_data stats set_stats message_count count_message]. by rewrite Hn, next_sequence. }
  specialize (Hch Hc) as ->. exists (recs ++ [RMessage m]), []. rewrite encode_snoc, Hout. split; [done|].
  split; [apply Forall_app; split; [done|by apply Forall_singleton]|]. split; [done|].
  split; [cbn [bytes_written count_bytes]; unfold w1; cbn [bytes_written set_stats]; by rewrite Hb, wrap_of_nat_app|].
  split; [done|]. split; [done|].
  split; [rewrite map_app, concat_app, app_nil_r; rewrite app_nil_r in Hms; cbn; by rewrite Hms, numbered_snoc|].
  split; [|intros Hl; by apply located_app].
  change (message_count (count_message channel_id timestamp (stats w)) =
    wrap_add u64_max 0 (Z.of_nat (length (sent ++ [(channel_id, timestamp, data)])))).
  rewrite (count_message_next w channel_id timestamp sent Hn), !length_app. done.
Qed.

Lemma write_message_refines channel_id timestamp data w file sent :
  holds w file sent ->
  refines (write_message channel_id timestamp data) w file sent (spec_message channel_id timestamp data (registry w)).
Proof.
  intros Hw. unfold spec_message. destruct (bool_decide (is_Some (channels (registry w) !! channel_id))) eqn:E; cbn.
  - set (w1 := set_stats (count_message channel_id timestamp (stats w)) w).
    assert (exists w' out, emits (write_message channel_id timestamp data) w (Ok tt) w' out /\ registry w' = registry w /\
      holds w' (file ++ out) (sent ++ [(channel_id, timestamp, data)])) as (w' & out & H); [|by exists tt, w', out].
    assert (Hpre : forall w' out, emits (if use_chunking (config w1) then
        _ ← modify (buffer_message channel_id timestamp data); w ← gets id;
        if chunk_size (config w) <=? Z.of_nat (length (chunk_buffer w)) then flush_chunk else mret tt
        else count ← gets (fun w => message_count (stats w));
          write_record MessageOp (message_record channel_id count timestamp data)) w1 (Ok tt) w' out ->
        emits (write_message channel_id timestamp data) w (Ok tt) w' out).
    { intros w' out Hm. eapply emits_pure; [by eapply emits_require|]. eapply emits_pure; [apply emits_gets|].
      unfold has_channel. rewrite E. eapply emits_pure; [apply emits_ret|]. eapply emits_pure; [apply emits_modify|].
      fold w1. eapply emits_pure; [apply emits_gets|]. exact Hm. }
    change (use_chunking (config w1)) with (use_chunking (config w)) in Hpre.
    destruct (use_chunking (config w)) eqn:Ec.
    + set (w2 := buffer_message channel_id timestamp data w1).
      assert (Hw2 : holds w2 file (sent ++ [(channel_id, timestamp, data)])) by by apply buffer_message_holds.
      destruct (chunk_size (config w2) <=? Z.of_nat (length (chunk_buffer w2))) eqn:El.
      * destruct (flush_holds w2 file _ Hw2) as (w' & out & He & Hh & Hr & _ & _). exists w', out.
        split; [|done]. apply Hpre. eapply emits_pure; [apply emits_modify|]. fold w2.
        eapply emits_pure; [apply emits_gets|]. cbn [id]. rewrite El. exact He.
      * exists w2, []. rewrite app_nil_r. split; [|done]. apply Hpre. eapply emits_pure; [apply emits_modify|]. fold w2.
        eapply emits_pure; [apply emits_gets|]. cbn [id]. rewrite El. apply emits_ret.
    + eexists _, _. split; [apply Hpre; eapply emits_pure; [apply emits_gets|apply emits_write_record]|].
      split; [done|]. by apply direct_message_holds.
  - exists w, []. eapply emits_pure; [by eapply emits_require|]. eapply emits_pure; [apply emits_gets|].
    unfold has_channel. rewrite E. apply emits_fails. by apply emits_nothing.
Qed.

Lemma add_attachment_refines name media_type data w file sent :
  holds w file sent -> refines (add_attachment name media_type data) w file sent (Ok (registry w, [])).
Proof.
  intros Hw. destruct (flush_pending_holds w file sent Hw) as (w1 & out1 & He & Hh & Hr & _).
  eexists tt, _, (out1 ++ _). split; [|split].
  - eapply emits_pure; [by eapply emits_require|]. eapply emits_bind; [exact He|].
    eapply emits_last; [apply emits_write_record|apply emits_modify].
  - exact Hr.
  - rewrite app_nil_r, app_assoc. by apply (holds_other w1).
Qed.

Lemma add_metadata_refines name metadata w file sent :
  holds w file sent -> refines (add_metadata name metadata) w file sent (Ok (registry w, [])).
Proof.
  intros Hw. eexists tt, _, _. split; [|split].
  - eapply emits_pure; [by eapply emits_require|]. eapply emits_pure; [by apply emits_nothing|]. apply emits_write_record.
  - done.
  - rewrite app_nil_r. by apply holds_other.
Qed.

Lemma register_stream_refines stream channel_id w file sent :
  holds w file sent -> refines (register_stream stream channel_id) w file sent (spec_op (RegisterStream stream channel_id) (registry w)).
Proof.
  intros Hw. cbn [spec_op]. destruct (bool_decide (is_Some (channels (registry w) !! channel_id))) eqn:E.
  - eexists tt, _, []. rewrite !app_nil_r. split; [|split].
    + eapply emits_pure; [apply emits_gets|]. unfold has_channel. rewrite E.
      eapply emits_pure; [apply emits_ret|]. apply emits_modify.
    + done.
    + exact Hw.
  - exists w, []. eapply emits_pure; [apply emits_gets|]. unfold has_channel. rewrite E.
    apply emits_fails. by apply emits_nothing.
Qed.

(** Operations that first change the registry alone. *)
Lemma refines_after_registry {A} (f : Registry -> Registry) (m : MM A) w file sent spec :
  refines m (set_registry (f (registry w)) w) file sent spec -> refines (_ ← on_registry f; m) w file sent spec.
Proof.
  destruct spec as [[r more]|e]; cbn.
  - intros (a & w' & out & He & H). exists a, w', out. split; [|done]. eapply emits_pure; [apply emits_modify|exact He].
  - intros (w' & out & He). exists w', out. eapply emits_pure; [apply emits_modify|exact He].
Qed.

Lemma refines_gets {A B} (f : McapWriter -> A) (m : A -> MM B) w file sent spec :
  refines (m (f w)) w file sent spec -> refines (gets f ≫= m) w file sent spec.
Proof.
  destruct spec as [[r more]|e]; cbn.
  - intros (a & w' & out & He & H). exists a, w', out. split; [|done]. eapply emits_pure; [apply emits_gets|exact He].
  - intros (w' & out & He). exists w', out. eapply emits_pure; [apply emits_gets|exact He].
Qed.

Lemma op_refines o w file sent : holds w file sent -> refines (run_op o) w file sent (spec_op o (registry w)).
Proof.
  intros Hw. destruct o as [s|name encoding data|c|schema_id tp encoding|stream id|id ts data|s|name media data|name md];
    cbn [run_op spec_op].
  - by apply refines_unit, register_schema_refines.
  - apply refines_unit, refines_gets, refines_after_registry.
    by apply (register_schema_refines _ (set_registry (take_schema_id (registry w)) w)).
  - by apply refines_unit, register_channel_refines.
  - apply refines_unit, refines_gets, refines_after_registry.
    by apply (register_channel_refines _ (set_registry (take_channel_id (registry w)) w)).
  - by apply register_stream_refines.
  - by apply write_message_refines.
  - apply refines_gets. cbv beta. destruct (stream_to_channel (registry w) !! Buffer.stream_id s) as [id|] eqn:E.
    + pose proof (write_message_refines id (Buffer.timestamp_ns s) (Buffer.data s) w file sent Hw) as H.
      destruct (spec_message _ _ _ _) as [[r more]|e]; cbn in H |- *.
      * destruct H as (a & w' & out & He & H). exists a, w', out. split; [|done]. eapply emits_pure; [apply emits_ret|exact He].
      * destruct H as (w' & out & He). exists w', out. eapply emits_pure; [apply emits_ret|exact He].
    + exists w, []. apply emits_fails. by apply emits_nothing.
  - by apply add_attachment_refines.
  - by apply add_metadata_refines.
Qed.

Lemma ops_refine ops w file sent : holds w file sent -> refines (run_ops ops) w file sent (spec_ops ops (registry w)).
Proof.
  revert w file sent. induction ops as [|o ops IH]; intros w file sent Hw; cbn [run_ops spec_ops].
  - exists tt, w, []. rewrite !app_nil_r. split; [apply emits_ret|done].
  - pose proof (op_refines o w file sent Hw) as Ho. destruct (spec_op o (registry w)) as [[r more]|e]; cbn in Ho |- *.
    + destruct Ho as (a & w1 & out1 & He1 & <- & Hh1). specialize (IH w1 _ _ Hh1).
      destruct (spec_ops ops (registry w1)) as [[r2 more2]|e2]; cbn in IH |- *.
      * destruct IH as (b & w2 & out2 & He2 & Hr2 & Hh2). exists b, w2, (out1 ++ out2).
        rewrite !app_assoc. split; [by eapply emits_bind|done].
      * destruct IH as (w2 & out2 & He2). exists w2, (out1 ++ out2). by eapply emits_bind.
    + destruct Ho as (w1 & out1 & He). exists w1, out1. by apply emits_fails.
Qed.

Lemma start_holds c :
  exists w out, emits start (McapWriter_new c) (Ok tt) w out /\ registry w = Registry_empty /\ holds w out [].
Proof.
  set (r := ROther Header (header_record c)).
  eexists _, (MCAP_MAGIC ++ framed (rec_frame r)). split; [|split].
  - eapply emits_pure; [apply emits_gets|]. cbn [state McapWriter_new]. rewrite bool_decide_false by (intros H; by apply H).
    eapply emits_bind; [apply emits_write_bytes|]. eapply emits_pure; [apply emits_gets|].
    eapply emits_last; [apply emits_write_record|apply emits_modify].
  - done.
  - exists [r], []. split; [by unfold encode; cbn [map concat]; rewrite app_nil_r|].
    split; [by apply Forall_singleton|]. split; [done|].
    split; [|done]. cbn [bytes_written set_state]. rewrite count_bytes_add. cbn [bytes_written count_bytes McapWriter_new].
    by rewrite length_app, Nat2Z.inj_add.
Qed.

Lemma write_chunk_indices_holds es w file sent :
  holds w file sent ->
  exists w' out, emits (write_chunk_indices es) w (Ok tt) w' out /\ holds w' (file ++ out) sent /\
    stats w' = stats w /\ chunk_buffer w' = chunk_buffer w.
Proof.
  revert w file. induction es as [|e es IH]; intros w file Hw.
  - exists w, []. rewrite app_nil_r. split; [apply emits_ret|done].
  - assert (Hw1 : holds _ (file ++ frame ChunkIndex (chunk_index_record e)) sent) by by apply holds_other.
    destruct (IH _ _ Hw1) as (w2 & out2 & He & Hh & Hs & Hb). exists w2, (frame ChunkIndex (chunk_index_record e) ++ out2).
    rewrite app_assoc. split; [|done]. eapply emits_bind; [apply emits_write_record|exact He].
Qed.

Lemma write_summary_holds w file sent :
  holds w file sent ->
  exists w' out, emits write_summary w (Ok tt) w' out /\ holds w' (file ++ out) sent /\
    stats w' = stats w /\ chunk_buffer w' = chunk_buffer w.
Proof.
  intros Hw. set (rec := statistics_record (size (schemas (registry w))) (size (channels (registry w))) (stats w)
    (counts (channel_message_counts (stats w)))).
  assert (Hw1 : holds _ (file ++ frame StatisticsOp rec) sent) by by apply holds_other.
  destruct (write_chunk_indices_holds (chunk_indices w) _ _ _ Hw1) as (w2 & out2 & He & Hh & Hs & Hb).
  exists w2, (frame StatisticsOp rec ++ out2). rewrite app_assoc. split; [|done].
  eapply emits_bind; [|eapply emits_pure; [apply emits_gets|exact He]].
  eapply emits_pure; [apply emits_gets|]. eapply emits_pure; [by apply emits_nothing|]. apply emits_write_record.
Qed.

(** A finished file: records between two magics, with the messages sent. *)
Definition finished (w : McapWriter) (file : list Z) (sent : list Sent) : Prop :=
  exists recs, file = MCAP_MAGIC ++ encode recs ++ MCAP_MAGIC /\ Forall other_op recs /\
    concat (map rec_messages recs) = numbered sent /\
    message_count (stats w) = wrap_add u64_max 0 (Z.of_nat (length sent)) /\
    (Z.of_nat (length file) <= u64_max -> Forall (located file) (chunk_indices w)).

Lemma finish_finishes w file sent :
  holds w file sent ->
  exists w' out, emits finish w (Ok (stats w')) w' out /\ finished w' (file ++ out) sent.
Proof.
  intros Hw. destruct (flush_pending_holds w file sent Hw) as (w1 & out1 & He1 & Hh1 & _ & Hb1).
  assert (Hh2 : holds _ ((file ++ out1) ++ frame DataEnd (le 4 0)) sent) by by apply holds_other.
  destruct (write_summary_holds _ _ _ Hh2) as (w3 & out3 & He3 & Hh3 & _ & Hb3). cbn [chunk_buffer count_bytes] in Hb3.
  assert (Hh4 : holds _ ((((file ++ out1) ++ frame DataEnd (le 4 0)) ++ out3) ++ frame Footer footer_record) sent)
    by by apply holds_other.
  eexists _, (out1 ++ frame DataEnd (le 4 0) ++ out3 ++ frame Footer footer_record ++ MCAP_MAGIC). split.
  - eapply emits_pure; [by eapply emits_require|]. eapply emits_bind; [exact He1|].
    eapply emits_bind; [apply emits_write_record|]. eapply emits_bind; [exact He3|].
    eapply emits_bind; [apply emits_write_record|]. eapply emits_last; [apply emits_write_bytes|].
    eapply emits_pure; [apply emits_modify|]. apply emits_gets.
  - rewrite !app_assoc.
    destruct Hh4 as (recs & pending & Hf & Ho & _ & _ & Hbuf & _ & Hms & Hn & Hix). exists recs.
    cbn [chunk_buffer count_bytes] in Hbuf. rewrite Hb3, Hb1 in Hbuf. symmetry in Hbuf.
    apply messages_bytes_nil in Hbuf as ->. rewrite app_nil_r in Hms.
    split; [rewrite Hf; by rewrite <- app_assoc|]. split; [done|]. split; [done|]. split; [done|].
    intros Hl. by apply located_app.
Qed.

End Device.

(** *** The times of the statistics *)

Definition count_sent (s : McapStatistics) (m : Sent) : McapStatistics := count_message m.1.1 m.1.2 s.
Definition times (sent : list Sent) : list Z := map (fun m => m.1.2) sent.

(** Start and end are the least and the greatest time, unless a time is zero:
    zero stands for no message. *)
Theorem statistics_times (sent : list Sent) :
  sent <> [] -> Forall (fun t => 0 < t) (times sent) ->
  let s := foldl count_sent McapStatistics_default sent in
  message_start_time s ∈ times sent /\ message_end_time s ∈ times sent /\
  Forall (fun t => message_start_time s <= t <= message_end_time s) (times sent).
Proof.
  induction sent as [|m sent IH] using rev_ind; [done|]. intros _ Hp. unfold times in *.
  rewrite map_app in *. cbn [map] in *. apply Forall_app in Hp as [Hp Hm]. apply (Forall_singleton (fun t => 0 < t)) in Hm.
  rewrite foldl_snoc. destruct m as [[ch ts] data]. cbn [fst snd count_sent] in *. unfold count_sent. cbn [fst snd].
  destruct sent as [|m0 sent'].
  { cbn. rewrite (proj2 (Z.ltb_lt 0 ts)) by done. repeat split; try set_solver. repeat constructor; lia. }
  specialize (IH ltac:(done) Hp). cbv zeta in IH. set (s := foldl _ _ (m0 :: sent')) in *.
  destruct IH as (Hs & He & Hall). cbn [message_start_time message_end_time count_message].
  assert (0 < message_start_time s) by (rewrite Forall_forall in Hp; by apply Hp).
  rewrite (proj2 (Z.eqb_neq _ 0)) by lia. cbn [orb].
  split; [|split].
  - destruct (ts <? message_start_time s); set_solver.
  - destruct (message_end_time s <? ts); set_solver.
  - apply Forall_app. split.
    + eapply Forall_impl; [exact Hall|]. intros t Ht. cbv beta in *.
      destruct (Z.ltb_spec ts (message_start_time s)), (Z.ltb_spec (message_end_time s) ts); lia.
    + rewrite Forall_forall in Hall. pose proof (Hall _ Hs) as H1. apply Forall_singleton. cbv beta in *.
      destruct (Z.ltb_spec ts (message_start_time s)), (Z.ltb_spec (message_end_time s) ts); lia.
Qed.

(** A first message at time zero is forgotten. *)
Example zero_time_forgotten :
  message_start_time (foldl count_sent McapStatistics_default [(1, 0, []); (1, 5, [])]) = 5.
Proof. done. Qed.

(** ** Examples *)

Definition demo_ops : list Op := [
  AddSchema "omniedge/imu" "jsonschema" (string_bytes "{}"); AddChannel 1 "/imu" "json"; RegisterStream "imu" 1;
  WriteSample {| Buffer.stream_id := "imu"; Buffer.timestamp_ns := 1000; Buffer.sequence := 0; Buffer.data := [1; 2; 3] |};
  AddMetadata "episode_info" {["id" := "e1"]};
  WriteMessage 1 2000 [255]; AddAttachment "robot.urdf" "application/xml" [60; 62]; WriteMessage 1 1500 []].

Definition demo_file (c : McapWriterConfig) : list Z :=
  (run_prog (device map_to_list map_to_list) (session demo_ops (McapWriter_new c)) []).2.

(** The messages come back from chunks and without; the configured compression
    changes nothing. *)
Example demo_files :
  let direct := {| profile := ""; library := ""; use_chunking := false; chunk_size := 0; compression := NoCompression;
                   create_message_index := false |} in
  (map m_data <$> read_mcap (demo_file McapWriterConfig_default)) = Some [[1; 2; 3]; [255]; []] /\
  (map m_log_time <$> read_mcap (demo_file direct)) = Some [1000; 2000; 1500].
Proof. by vm_compute. Qed.


Lemma statistics_times_witness :
  message_start_time (foldl count_sent McapStatistics_default [(1, 7, []); (1, 5, [])]) ∈ [7; 5].
Proof. apply (statistics_times [(1, 7, []); (1, 5, [])]); [done|repeat constructor; lia]. Defined.

(** Two schemas under one id: both are written, one is known. *)
Example one_id_two_schemas :
  let ops := [RegisterSchema (Schema_json 1 "sensor_msgs/Imu" "{}"); AddSchema "omniedge/rgb" "jsonschema" []] in
  (fun rs => map s_name (map snd (map_to_list (schemas rs.1)))) <$> ok (spec_ops ops Registry_empty) = Some ["omniedge/rgb"].
Proof. by vm_compute. Qed.
