(* ===== verification/Privacy.v ===== *)
(** * Privacy filters (data_collection/privacy.rs)

    The configuration, the filter that pixelates faces, the filter that removes
    or hashes fields of the metadata, and the manager that runs images and
    metadata through the filters it has. *)

From S2P Require Import Prelude RustStr F32 Digests.

Open Scope string_scope.
Open Scope list_scope.
Open Scope Z_scope.

Inductive PrivacyError : Set :=
| FilterNotFound (e : string) | ProcessingFailed (e : string) | InvalidConfig (e : string)
| UnsupportedDataType (e : string).

(** ** Configuration *)

Record PrivacyConfig : Set := {
  blur_faces : bool; blur_license_plates : bool; blur_persons : bool; pii_fields_to_remove : list string;
  pii_fields_to_hash : list string; blur_strength : spec_float; min_detection_confidence : spec_float;
  target_streams : list string; log_detections : bool }.

(** The literals 0.8, 0.5 and 0.3. *)
Definition f32_ratio (a b : Z) : spec_float := f32_div (f32_of a) (f32_of b).

Definition PrivacyConfig_default : PrivacyConfig := {|
  blur_faces := true; blur_license_plates := false; blur_persons := false;
  pii_fields_to_remove := ["operator_name"; "operator_email"; "location_address"];
  pii_fields_to_hash := ["operator_id"]; blur_strength := f32_ratio 8 10;
  min_detection_confidence := f32_ratio 5 10; target_streams := []; log_detections := false |}.
Definition PrivacyConfig_minimal : PrivacyConfig := {|
  blur_faces := true; blur_license_plates := false; blur_persons := false; pii_fields_to_remove := [];
  pii_fields_to_hash := []; blur_strength := f32_ratio 8 10; min_detection_confidence := f32_ratio 5 10;
  target_streams := []; log_detections := false |}.
Definition PrivacyConfig_strict : PrivacyConfig := {|
  blur_faces := true; blur_license_plates := true; blur_persons := true;
  pii_fields_to_remove := ["operator_name"; "operator_email"; "operator_phone"; "location_address"; "location_gps";
                           "wifi_ssid"; "bluetooth_devices"];
  pii_fields_to_hash := ["operator_id"; "device_id"]; blur_strength := f32_of 1;
  min_detection_confidence := f32_ratio 3 10; target_streams := []; log_detections := true |}.

Definition config_with_stream (id : string) (c : PrivacyConfig) : PrivacyConfig := {|
  blur_faces := blur_faces c; blur_license_plates := blur_license_plates c; blur_persons := blur_persons c;
  pii_fields_to_remove := pii_fields_to_remove c; pii_fields_to_hash := pii_fields_to_hash c;
  blur_strength := blur_strength c; min_detection_confidence := min_detection_confidence c;
  target_streams := push (target_streams c) id; log_detections := log_detections c |}.

(** ** Detections *)

Inductive DetectionType : Set := Face | LicensePlate | Person | Text | Custom.
(** [{:?}]. *)
Definition debug_detection (t : DetectionType) : string :=
  match t with
  | Face => "Face" | LicensePlate => "LicensePlate" | Person => "Person" | Text => "Text" | Custom => "Custom"
  end.

Record DetectedRegion : Set := {
  detection_type : DetectionType; bbox : spec_float * spec_float * spec_float * spec_float; confidence : spec_float;
  landmarks : option (list (spec_float * spec_float)) }.
Definition DetectedRegion_new (t : DetectionType) (x y width height confidence : spec_float) : DetectedRegion :=
  {| detection_type := t; bbox := (x, y, width, height); confidence := confidence; landmarks := None |}.
Definition with_landmarks (l : list (spec_float * spec_float)) (r : DetectedRegion) : DetectedRegion :=
  {| detection_type := detection_type r; bbox := bbox r; confidence := confidence r; landmarks := Some l |}.

Definition pixel_bbox (width height : Z) (r : DetectedRegion) : Z * Z * Z * Z :=
  let '(x, y, w, h) := bbox r in
  (f32_to_u32 (f32_mul x (f32_of width)), f32_to_u32 (f32_mul y (f32_of height)),
   f32_to_u32 (f32_mul w (f32_of width)), f32_to_u32 (f32_mul h (f32_of height))).

Record PrivacyResult : Set := {
  result_data : list Z; detections : list DetectedRegion; processing_time_ns : Z; modified : bool }.

(** The trait.  The time an image takes is a reading of the clock; the metadata
    is changed in place, also on the way to an error. *)
Record PrivacyFilter : Type := {
  filter_name : string;
  applies_to : string -> bool;
  filter_image : Z -> list Z -> Z -> Z -> PrivacyConfig -> result PrivacyError PrivacyResult;
  filter_metadata : gmap string string -> PrivacyConfig -> result PrivacyError unit * gmap string string }.

(** ** Pixelation *)

(** [(lo..hi).step_by(step)]. *)
Definition range_step (lo hi step : Z) : list Z :=
  map (fun k => lo + k * step) (seqZ 0 ((hi - lo + step - 1) / step)).
(** [lo..hi]. *)
Definition range (lo hi : Z) : list Z := seqZ lo (hi - lo).

Definition block_size (strength : spec_float) : Z := Z.max (f32_to_u32 (f32_mul strength (f32_of 20))) 4.

Section Blur.
(** Image and region, and the size of a block. *)
Context (img_width img_height x y width height bs : Z).

Definition u32_add : Z -> Z -> Z := wrap_add u32_max.
Definition u32_mul (a b : Z) : Z := (a * b) `mod` (u32_max + 1).

Definition right : Z := u32_add x width.
Definition bottom : Z := u32_add y height.

Definition pixel_index (py px : Z) : Z := u32_mul (u32_add (u32_mul py img_width) px) 3.

(** The pixels of the block at (by, bx) that the data has. *)
Definition block_pixels (len : nat) (by_ bx : Z) : list Z :=
  List.filter (fun idx => idx + 2 <? Z.of_nat len)
    (py ← range by_ (Z.min (Z.min (u32_add by_ bs) bottom) img_height);
     px ← range bx (Z.min (Z.min (u32_add bx bs) right) img_width);
     [pixel_index py px]).

Definition channel (data : list Z) (idx c : Z) : Z := from_option id 0 (data !! Z.to_nat (idx + c)).
Definition channel_sum (data : list Z) (ps : list Z) (c : Z) : Z :=
  foldl (fun s idx => u32_add s (channel data idx c)) 0 ps.
Definition average (data : list Z) (ps : list Z) (c : Z) : Z :=
  (channel_sum data ps c / Z.of_nat (length ps)) `mod` 256.

Definition set_pixel (r g b : Z) (data : list Z) (idx : Z) : list Z :=
  <[Z.to_nat (idx + 2) := b]> (<[Z.to_nat (idx + 1) := g]> (<[Z.to_nat idx := r]> data)).

Definition blur_block (data : list Z) (at_ : Z * Z) : list Z :=
  let ps := block_pixels (length data) at_.1 at_.2 in
  match ps with
  | [] => data
  | _ => foldl (set_pixel (average data ps 0) (average data ps 1) (average data ps 2)) data ps
  end.

Definition blocks : list (Z * Z) :=
  by_ ← range_step y bottom bs; bx ← range_step x right bs; [(by_, bx)].

Definition blur_blocks (data : list Z) : list Z := foldl blur_block data blocks.
End Blur.

Definition blur_region (data : list Z) (img_width img_height x y width height : Z) (strength : spec_float) : list Z :=
  blur_blocks img_width img_height x y width height (block_size strength) data.

Definition apply_blur (data : list Z) (width height : Z) (regions : list DetectedRegion) (strength : spec_float)
    : list Z :=
  foldl (fun data r =>
    let '(rx, ry, rw, rh) := pixel_bbox width height r in
    blur_region data width height rx ry rw rh strength) data regions.

(** ** The face filter *)

Record FaceBlurFilter : Set := { face_targets : gset string }.
Definition FaceBlurFilter_new : FaceBlurFilter := {| face_targets := ∅ |}.
Definition face_with_stream (id : string) (f : FaceBlurFilter) : FaceBlurFilter :=
  {| face_targets := {[id]} ∪ face_targets f |}.

(** A placeholder: no model is run. *)
Definition detect_faces (data : list Z) (width height : Z) (min_confidence : spec_float) : list DetectedRegion := [].

Definition untouched (took : Z) (data : list Z) : PrivacyResult :=
  {| result_data := data; detections := []; processing_time_ns := took; modified := false |}.

(** The part of [process_image] after the detection. *)
Definition blur_detections (took : Z) (data : list Z) (width height : Z) (c : PrivacyConfig)
    (found : list DetectedRegion) : PrivacyResult :=
  match found with
  | [] => untouched took data
  | _ => {| result_data := apply_blur data width height found (blur_strength c); detections := found;
            processing_time_ns := took; modified := true |}
  end.

Definition face_process_image (took : Z) (data : list Z) (width height : Z) (c : PrivacyConfig)
    : result PrivacyError PrivacyResult :=
  if negb (blur_faces c) then Ok (untouched took data)
  else Ok (blur_detections took data width height c (detect_faces data width height (min_detection_confidence c))).

Definition face_filter (f : FaceBlurFilter) : PrivacyFilter := {|
  filter_name := "face_blur";
  applies_to := fun id => bool_decide (face_targets f = ∅) || bool_decide (id ∈ face_targets f);
  filter_image := face_process_image;
  filter_metadata := fun m _ => (Ok tt, m) |}.

(** ** The filter of personal data *)

Section Pii.
(** [hex::encode]. *)
Context {D : Digests} (hex_encode : list Z -> string).

(** The first 16 bytes of the digest. *)
Definition hash_value (v : string) : string := hex_encode (take 16 (sha256 (string_bytes v))).

Definition hash_field (m : gmap string string) (field : string) : gmap string string :=
  match m !! field with Some v => <[field := hash_value v]> m | None => m end.

Definition scrub (m : gmap string string) (c : PrivacyConfig) : gmap string string :=
  foldl hash_field (foldl (fun m f => delete f m) m (pii_fields_to_remove c)) (pii_fields_to_hash c).

Definition pii_filter : PrivacyFilter := {|
  filter_name := "pii_filter"; applies_to := fun _ => true;
  filter_image := fun _ data _ _ _ => Ok (untouched 0 data);
  filter_metadata := fun m c => (Ok tt, scrub m c) |}.

(** ** The manager *)

Record PrivacyStats : Set := {
  images_processed : Z; images_with_detections : Z; detections_by_type : gmap string Z;
  total_processing_time_ns : Z; fields_removed : Z; fields_hashed : Z }.
Definition PrivacyStats_default : PrivacyStats := {|
  images_processed := 0; images_with_detections := 0; detections_by_type := ∅; total_processing_time_ns := 0;
  fields_removed := 0; fields_hashed := 0 |}.

Record PrivacyManager : Type := { filters : list PrivacyFilter; config : PrivacyConfig; stats : PrivacyStats }.

Definition PrivacyManager_new (c : PrivacyConfig) : PrivacyManager :=
  {| filters := []; config := c; stats := PrivacyStats_default |}.
Definition add_filter (f : PrivacyFilter) (m : PrivacyManager) : PrivacyManager :=
  {| filters := push (filters m) f; config := config m; stats := stats m |}.
Definition with_default_filters (c : PrivacyConfig) : PrivacyManager :=
  add_filter pii_filter (add_filter (face_filter FaceBlurFilter_new) (PrivacyManager_new c)).
Definition set_config (c : PrivacyConfig) (m : PrivacyManager) : PrivacyManager :=
  {| filters := filters m; config := c; stats := stats m |}.
Definition set_stats (s : PrivacyStats) (m : PrivacyManager) : PrivacyManager :=
  {| filters := filters m; config := config m; stats := s |}.
Definition reset_stats : PrivacyManager -> PrivacyManager := set_stats PrivacyStats_default.

(** The loop over the filters; [took] gives the time of each of them. *)
Fixpoint image_loop (fs : list PrivacyFilter) (took : list Z) (stream : string) (width height : Z)
    (c : PrivacyConfig) (acc : PrivacyResult) : result PrivacyError PrivacyResult :=
  match fs with
  | [] => Ok acc
  | f :: fs =>
      if applies_to f stream then
        r ← filter_image f (hd 0 took) (result_data acc) width height c;
        image_loop fs (tl took) stream width height c
          {| result_data := if modified r then result_data r else result_data acc;
             detections := detections acc ++ detections r;
             processing_time_ns := wrap_add u64_max (processing_time_ns acc) (processing_time_ns r);
             modified := modified acc || modified r |}
      else image_loop fs (tl took) stream width height c acc
  end.

Definition count_detection (m : gmap string Z) (d : DetectedRegion) : gmap string Z :=
  let k := debug_detection (detection_type d) in
  <[k := wrap_add u64_max (from_option id 0 (m !! k)) 1]> m.

Definition count_image (r : PrivacyResult) (s : PrivacyStats) : PrivacyStats := {|
  images_processed := wrap_add u64_max (images_processed s) 1;
  images_with_detections :=
    match detections r with [] => images_with_detections s | _ => wrap_add u64_max (images_with_detections s) 1 end;
  detections_by_type := foldl count_detection (detections_by_type s) (detections r);
  total_processing_time_ns := wrap_add u64_max (total_processing_time_ns s) (processing_time_ns r);
  fields_removed := fields_removed s; fields_hashed := fields_hashed s |}.

(** An error leaves the manager as it was. *)
Definition process_image (took : list Z) (stream : string) (data : list Z) (width height : Z) (m : PrivacyManager)
    : result PrivacyError PrivacyResult * PrivacyManager :=
  match image_loop (filters m) took stream width height (config m) (untouched 0 data) with
  | Err e => (Err e, m)
  | Ok r => (Ok r, set_stats (count_image r (stats m)) m)
  end.

Fixpoint metadata_loop (fs : list PrivacyFilter) (c : PrivacyConfig) (md : gmap string string)
    : result PrivacyError unit * gmap string string :=
  match fs with
  | [] => (Ok tt, md)
  | f :: fs =>
      match filter_metadata f md c with (Ok _, md) => metadata_loop fs c md | (Err e, md) => (Err e, md) end
  end.

Definition count_fields (removed : nat) (c : PrivacyConfig) (s : PrivacyStats) : PrivacyStats := {|
  images_processed := images_processed s; images_with_detections := images_with_detections s;
  detections_by_type := detections_by_type s; total_processing_time_ns := total_processing_time_ns s;
  fields_removed := wrap_add u64_max (fields_removed s) (Z.of_nat removed);
  fields_hashed := wrap_add u64_max (fields_hashed s) (Z.of_nat (length (pii_fields_to_hash c))) |}.

Definition process_metadata (md : gmap string string) (m : PrivacyManager)
    : result PrivacyError unit * gmap string string * PrivacyManager :=
  match metadata_loop (filters m) (config m) md with
  | (Err e, md) => (Err e, md, m)
  | (Ok _, md') => (Ok tt, md', set_stats (count_fields (size md - size md') (config m) (stats m)) m)
  end.

(** ** What the manager does with its default filters *)

(** No image is ever changed by these filters, under any configuration: the
    detection finds nothing. *)
Theorem default_filters_never_blur c m took stream data width height :
  filters m = filters (with_default_filters c) ->
  exists r s, process_image took stream data width height m = (Ok r, set_stats s m) /\
    result_data r = data /\ detections r = [] /\ modified r = false.
Proof.
  unfold process_image. intros ->. cbn. unfold face_process_image.
  destruct (blur_faces (config m)); cbn; eexists _, _; (split; [done|]); done.
Qed.

Lemma lookup_delete_fields (m : gmap string string) fs k :
  foldl (fun m f => delete f m) m fs !! k = if bool_decide (k ∈ fs) then None else m !! k.
Proof.
  revert m. induction fs as [|f fs IH]; intros m; simpl; [done|]. rewrite IH.
  destruct (decide (k = f)) as [->|Hne].
  - rewrite lookup_delete_eq. rewrite (bool_decide_true (f ∈ f :: fs)) by set_solver. by case_bool_decide.
  - rewrite lookup_delete_ne by done. by rewrite (bool_decide_ext (k ∈ f :: fs) (k ∈ fs)) by set_solver.
Qed.

Lemma lookup_hash_fields m fs k :
  NoDup fs -> foldl hash_field m fs !! k = if bool_decide (k ∈ fs) then hash_value <$> m !! k else m !! k.
Proof.
  intros Hn. revert m. induction Hn as [|f fs Hf Hn IH]; intros m; simpl; [done|]. rewrite IH. unfold hash_field.
  destruct (decide (k = f)) as [->|Hne].
  - rewrite bool_decide_false by done. rewrite bool_decide_true by set_solver.
    destruct (m !! f) eqn:E; [by rewrite lookup_insert_eq|by rewrite E].
  - rewrite (bool_decide_ext (k ∈ f :: fs) (k ∈ fs)) by set_solver.
    destruct (m !! f); [by rewrite lookup_insert_ne|done].
Qed.

(** What the default filters leave of the metadata: nothing of the fields to
    remove, the hash of the fields to hash that were there and are not to be
    removed, everything else as it was. *)
Theorem metadata_scrubbed c md k :
  NoDup (pii_fields_to_hash c) ->
  let '(r, md', m) := process_metadata md (with_default_filters c) in
  r = Ok tt /\
  md' !! k = (if bool_decide (k ∈ pii_fields_to_remove c) then None
              else if bool_decide (k ∈ pii_fields_to_hash c) then hash_value <$> md !! k else md !! k).
Proof.
  intros Hn. cbn. split; [done|]. unfold scrub. rewrite lookup_hash_fields, lookup_delete_fields by done.
  case_bool_decide; by case_bool_decide.
Qed.
End Pii.

(** ** What the pixelation does *)

Section Pixelation.
Context (img_width img_height x y width height bs : Z).

Abbreviation blocks := (blocks x y width height bs).
Abbreviation block_pixels := (block_pixels img_width img_height x y width height bs).
Abbreviation blur_block := (blur_block img_width img_height x y width height bs).

(** Nothing wraps at 32 bits. *)
Definition no_wrap : Prop :=
  0 <= x /\ 0 <= y /\ 0 <= width /\ 0 <= height /\ 0 < bs /\ 0 <= img_width /\ 0 <= img_height /\
  y + height + bs <= u32_max /\ x + width + bs <= u32_max /\ 3 * (img_width * img_height) <= u32_max.

Definition in_region (py px : Z) : Prop :=
  y <= py < y + height /\ x <= px < x + width /\ py < img_height /\ px < img_width.
Definition index (py px : Z) : Z := 3 * (py * img_width + px).
(** The corner of the block of a pixel. *)
Definition corner (py px : Z) : Z * Z := (y + (py - y) / bs * bs, x + (px - x) / bs * bs).

Lemma elem_of_range_step lo hi step k :
  0 < step -> k ∈ range_step lo hi step <-> exists n, 0 <= n /\ k = lo + n * step /\ k < hi.
Proof.
  intros Hs. unfold range_step. rewrite list_elem_of_fmap. split.
  - intros (n & -> & Hn%elem_of_seqZ). exists n. split; [lia|]. split; [done|].
    assert (n < (hi - lo + step - 1) / step) by lia. assert (step * (n + 1) <= hi - lo + step - 1); [|lia].
    pose proof (Z.mul_div_le (hi - lo + step - 1) step Hs). nia.
  - intros (n & Hn & -> & Hlt). exists n. split; [done|]. apply elem_of_seqZ. split; [done|].
    enough (n + 1 <= (hi - lo + step - 1) / step) by lia. apply Z.div_le_lower_bound; lia.
Qed.

Lemma NoDup_range_step lo hi step : 0 < step -> NoDup (range_step lo hi step).
Proof. intros Hs. apply NoDup_fmap; [intros a b; nia|apply NoDup_seqZ]. Qed.

Context (Hnw : no_wrap).

Lemma right_eq : right x width = x + width /\ bottom y height = y + height.
Proof. destruct Hnw as (?&?&?&?&?&?&?&?&?&?). unfold right, bottom, u32_add. rewrite !wrap_add_small by lia. done. Qed.

Lemma pixel_index_eq py px : 0 <= py < img_height -> 0 <= px < img_width -> pixel_index img_width py px = index py px.
Proof.
  intros Hy Hx. destruct Hnw as (?&?&?&?&?&?&?&?&?&?).
  assert (0 <= py * img_width + px < img_width * img_height) by nia.
  unfold pixel_index, index, u32_mul, u32_add. assert (0 <= py * img_width <= u32_max) by nia.
  rewrite (Z.mod_small (py * img_width)) by lia. rewrite wrap_add_small by lia. rewrite Z.mod_small by lia. lia.
Qed.

Lemma elem_of_block_pixels len by_ bx idx :
  y <= by_ < y + height -> x <= bx < x + width ->
  idx ∈ block_pixels len by_ bx <->
  exists py px, by_ <= py < by_ + bs /\ bx <= px < bx + bs /\ in_region py px /\ idx = index py px /\
    idx + 2 < Z.of_nat len.
Proof.
  intros Hby Hbx. destruct right_eq as [Hr Hb]. pose proof Hnw as (?&?&?&?&?&?&?&?&?&?).
  unfold Privacy.block_pixels. rewrite Hr, Hb. unfold u32_add. rewrite !wrap_add_small by lia.
  rewrite list_elem_of_In, filter_In, <- list_elem_of_In, Z.ltb_lt, list_elem_of_bind.
  setoid_rewrite list_elem_of_bind. unfold range, in_region. split.
  - intros [(py & (px & Hi & Hpx%elem_of_seqZ) & Hpy%elem_of_seqZ) Hl]. apply list_elem_of_singleton in Hi as ->.
    rewrite pixel_index_eq in * by lia. exists py, px. repeat split; lia.
  - intros (py & px & Hpy & Hpx & (? & ? & ? & ?) & -> & Hl). split; [|done]. exists py. split.
    + exists px. rewrite pixel_index_eq by lia. split; [set_solver|]. apply elem_of_seqZ. lia.
    + apply elem_of_seqZ. lia.
Qed.

(** *** One block *)

Definition pick (r g b c : Z) : Z := if c =? 0 then r else if c =? 1 then g else b.
Definition third (z : Z) : Prop := exists k, 0 <= k /\ z = 3 * k.

Lemma set_pixel_length r g b data idx : length (set_pixel r g b data idx) = length data.
Proof. unfold set_pixel. by rewrite !length_insert. Qed.

Lemma set_pixel_lookup r g b data idx j c :
  third idx -> third j -> idx + 2 < Z.of_nat (length data) -> 0 <= c <= 2 ->
  set_pixel r g b data idx !! Z.to_nat (j + c) =
  if bool_decide (idx = j) then Some (pick r g b c) else data !! Z.to_nat (j + c).
Proof.
  intros (k & Hk & ->) (l & Hl & ->) Hi Hc. unfold set_pixel, pick.
  assert (c = 0 \/ c = 1 \/ c = 2) as Hcs by lia.
  case_bool_decide as E.
  - assert (k = l) as <- by lia. destruct Hcs as [-> | [-> | ->]]; cbn [Z.eqb].
    + rewrite !list_lookup_insert_ne by lia. rewrite Z.add_0_r. apply list_lookup_insert_eq. lia.
    + rewrite list_lookup_insert_ne by lia. apply list_lookup_insert_eq. rewrite length_insert. lia.
    + apply list_lookup_insert_eq. rewrite !length_insert. lia.
  - assert (k <> l) by congruence. rewrite !list_lookup_insert_ne by lia. done.
Qed.

Lemma set_pixels_lookup r g b ps data j c :
  third j -> Forall (fun idx => third idx /\ idx + 2 < Z.of_nat (length data)) ps -> 0 <= c <= 2 ->
  length (foldl (set_pixel r g b) data ps) = length data /\
  foldl (set_pixel r g b) data ps !! Z.to_nat (j + c) =
  if bool_decide (j ∈ ps) then Some (pick r g b c) else data !! Z.to_nat (j + c).
Proof.
  intros Hj Hps Hc. induction ps as [|idx ps IH] using rev_ind; [done|].
  apply Forall_app in Hps as [Hps [Hi Hl]%Forall_singleton]. destruct (IH Hps) as [Hlen Hlook]. rewrite foldl_snoc.
  rewrite set_pixel_length. split; [done|]. rewrite set_pixel_lookup by (done || lia). rewrite Hlook.
  destruct (decide (idx = j)) as [->|Hne].
  - rewrite (bool_decide_true (j = j)) by done. rewrite bool_decide_true; [done|].
    apply elem_of_app. right. by apply list_elem_of_singleton.
  - rewrite (bool_decide_false (idx = j)) by done. rewrite (bool_decide_ext (j ∈ ps ++ [idx]) (j ∈ ps)); [done|].
    rewrite elem_of_app, list_elem_of_singleton. naive_solver.
Qed.

Lemma index_third py px : 0 <= py -> 0 <= px -> third (index py px).
Proof. intros. destruct Hnw as (?&?&?&?&?&?&?&?&?&?). exists (py * img_width + px). split; [nia|done]. Qed.

Lemma index_inj py px qy qx :
  0 <= px < img_width -> 0 <= qx < img_width -> index py px = index qy qx -> py = qy /\ px = qx.
Proof. unfold index. intros Hx Hq H. assert (py = qy) by nia. subst. split; [done|]. lia. Qed.

Lemma block_pixels_third len by_ bx :
  y <= by_ < y + height -> x <= bx < x + width ->
  Forall (fun idx => third idx /\ idx + 2 < Z.of_nat len) (block_pixels len by_ bx).
Proof.
  intros Hy Hx. destruct Hnw as (?&?&?&?&?&?&?&?&?&?).
  apply Forall_forall. intros idx (py & px & ? & ? & Hr & -> & ?)%elem_of_block_pixels; [|done..].
  split; [|done]. apply index_third; lia.
Qed.

(** A block gives its pixels the averages of the block, and no other. *)
Lemma blur_block_lookup data by_ bx j c :
  y <= by_ < y + height -> x <= bx < x + width -> third j -> 0 <= c <= 2 ->
  length (blur_block data (by_, bx)) = length data /\
  blur_block data (by_, bx) !! Z.to_nat (j + c) =
  if bool_decide (j ∈ block_pixels (length data) by_ bx) then Some (average data (block_pixels (length data) by_ bx) c)
  else data !! Z.to_nat (j + c).
Proof.
  intros Hy Hx Hj Hc. pose proof (block_pixels_third (length data) by_ bx Hy Hx) as Hps.
  unfold Privacy.blur_block. cbn [fst snd].
  destruct (block_pixels (length data) by_ bx) as [|p ps] eqn:E; [done|].
  destruct (set_pixels_lookup (average data (p :: ps) 0) (average data (p :: ps) 1) (average data (p :: ps) 2)
    (p :: ps) data j c Hj Hps Hc) as [Hlen Hlook]. split; [exact Hlen|]. rewrite Hlook.
  case_bool_decide; [|done]. unfold pick. by assert (c = 0 \/ c = 1 \/ c = 2) as [-> | [-> | ->]] by lia.
Qed.

(** *** All blocks *)

Lemma elem_of_blocks by_ bx :
  (by_, bx) ∈ blocks <->
  (exists n, 0 <= n /\ by_ = y + n * bs /\ by_ < y + height) /\ (exists n, 0 <= n /\ bx = x + n * bs /\ bx < x + width).
Proof.
  destruct right_eq as [Hr Hb]. destruct Hnw as (?&?&?&?&?&?&?&?&?&?).
  unfold Privacy.blocks. rewrite Hr, Hb, list_elem_of_bind. setoid_rewrite list_elem_of_bind.
  rewrite <- !elem_of_range_step by done. split.
  - intros (a & (b & Hab%list_elem_of_singleton & Hb') & Ha). injection Hab as -> ->. done.
  - intros [Ha Hb']. exists by_. split; [|done]. exists bx. split; [set_solver|done].
Qed.

Lemma corner_unique by_ bx py px :
  (by_, bx) ∈ blocks -> by_ <= py < by_ + bs -> bx <= px < bx + bs -> corner py px = (by_, bx).
Proof.
  intros [(n & Hn & -> & _) (m & Hm & -> & _)]%elem_of_blocks Hy Hx. destruct Hnw as (?&?&?&?&?&?&?&?&?&?).
  unfold corner. f_equal.
  - assert ((py - y) / bs = n) as -> by (symmetry; apply (Z.div_unique_pos _ _ _ (py - y - n * bs)); lia). done.
  - assert ((px - x) / bs = m) as -> by (symmetry; apply (Z.div_unique_pos _ _ _ (px - x - m * bs)); lia). done.
Qed.

Lemma block_bounds by_ bx : (by_, bx) ∈ blocks -> y <= by_ < y + height /\ x <= bx < x + width.
Proof.
  intros [(n & Hn & -> & ?) (m & Hm & -> & ?)]%elem_of_blocks. destruct Hnw as (?&?&?&?&?&?&?&?&?&?).
  split; nia.
Qed.

(** A pixel is in the block at its corner and in no other. *)
Lemma pixel_block len py px by_ bx :
  in_region py px -> (by_, bx) ∈ blocks -> index py px ∈ block_pixels len by_ bx -> (by_, bx) = corner py px.
Proof.
  intros Hr Hb Hi. destruct (block_bounds _ _ Hb) as [Hy Hx]. destruct Hnw as (?&?&?&?&?&?&?&?&?&?).
  apply elem_of_block_pixels in Hi as (qy & qx & Hqy & Hqx & Hq & He & _); [|done..].
  unfold in_region in *. apply index_inj in He as [-> ->]; [|lia..]. symmetry. by apply corner_unique.
Qed.

Lemma corner_block py px : in_region py px -> corner py px ∈ blocks.
Proof.
  intros Hr. destruct Hnw as (?&?&?&?&?&?&?&?&?&?). unfold in_region in Hr. apply elem_of_blocks.
  pose proof (Z.mul_div_le (py - y) bs ltac:(lia)). pose proof (Z.mul_div_le (px - x) bs ltac:(lia)).
  pose proof (Z.div_pos (py - y) bs ltac:(lia) ltac:(lia)). pose proof (Z.div_pos (px - x) bs ltac:(lia) ltac:(lia)).
  split; [exists ((py - y) / bs)|exists ((px - x) / bs)]; split; lia.
Qed.

Lemma corner_contains len py px :
  in_region py px -> index py px + 2 < Z.of_nat len ->
  index py px ∈ block_pixels len (corner py px).1 (corner py px).2.
Proof.
  intros Hr Hl. pose proof (corner_block py px Hr) as Hb. destruct (corner py px) as [by_ bx] eqn:Ec.
  destruct (block_bounds _ _ Hb) as [Hy Hx]. apply elem_of_block_pixels; [done..|]. exists py, px.
  destruct Hnw as (?&?&?&?&?&?&?&?&?&?). injection Ec as <- <-. unfold in_region in Hr.
  pose proof (Z.mod_pos_bound (py - y) bs ltac:(lia)). pose proof (Z.mod_pos_bound (px - x) bs ltac:(lia)).
  pose proof (Z.div_mod (py - y) bs ltac:(lia)). pose proof (Z.div_mod (px - x) bs ltac:(lia)).
  unfold in_region. cbn [fst snd]. repeat split; (done || lia).
Qed.

Lemma NoDup_blocks : NoDup blocks.
Proof.
  destruct Hnw as (?&?&?&?&?&?&?&?&?&?). unfold Privacy.blocks. apply NoDup_bind.
  - intros a b [p q]. rewrite !list_elem_of_bind. intros _ _ (p1 & Hp1%list_elem_of_singleton & _)
      (q1 & Hq1%list_elem_of_singleton & _). congruence.
  - intros a _. apply NoDup_bind; [|intros; apply NoDup_singleton|by apply NoDup_range_step].
    intros b d pq _ _ Hb%list_elem_of_singleton Hd%list_elem_of_singleton. congruence.
  - by apply NoDup_range_step.
Qed.

Lemma blur_length bl data :
  Forall (fun b => b ∈ blocks) bl -> length (foldl blur_block data bl) = length data.
Proof.
  revert data. induction bl as [|[by_ bx] bl IH]; intros data Hb; [done|]. apply Forall_cons in Hb as [Hb Hbl].
  destruct (block_bounds _ _ Hb) as [Hy Hx]. cbn [foldl]. rewrite IH by done.
  apply (blur_block_lookup data by_ bx 0 0); [done|done| by exists 0|lia].
Qed.

(** Blocks that do not have the place leave it alone. *)
Lemma blur_elsewhere bl data j c :
  third j -> 0 <= c <= 2 -> Forall (fun b => b ∈ blocks /\ j ∉ block_pixels (length data) b.1 b.2) bl ->
  foldl blur_block data bl !! Z.to_nat (j + c) = data !! Z.to_nat (j + c).
Proof.
  intros Hj Hc. revert data. induction bl as [|[by_ bx] bl IH]; intros data Hb; [done|].
  apply Forall_cons in Hb as [[Hb Hnot] Hbl]. destruct (block_bounds _ _ Hb) as [Hy Hx]. cbn [foldl fst snd] in *.
  destruct (blur_block_lookup data by_ bx j c Hy Hx Hj Hc) as [Hlen Hlook].
  rewrite IH by (by rewrite Hlen). rewrite Hlook. by rewrite bool_decide_false.
Qed.

(** The average of a block depends on the pixels of the block only. *)
Lemma average_ext data data' ps c :
  (forall idx, idx ∈ ps -> data !! Z.to_nat (idx + c) = data' !! Z.to_nat (idx + c)) ->
  average data ps c = average data' ps c.
Proof.
  intros H. unfold average, channel_sum. f_equal. f_equal. generalize 0. induction ps as [|p ps IH]; intros s; [done|].
  cbn [foldl]. unfold channel at 2 4. rewrite (H p) by set_solver. apply IH. intros idx Hi. apply H. set_solver.
Qed.

(** The image is pixelated: every channel of every pixel of the region becomes
    the average of that channel, in the image as it was, over the block of the
    pixel, so that the pixels of a block are equal; all other bytes stay. *)
Theorem blur_region_pixelates data py px c :
  in_region py px -> index py px + 2 < Z.of_nat (length data) -> 0 <= c <= 2 ->
  let block := block_pixels (length data) (corner py px).1 (corner py px).2 in
  index py px ∈ block /\
  blur_blocks img_width img_height x y width height bs data !! Z.to_nat (index py px + c) = Some (average data block c).
Proof.
  intros Hr Hl Hc block. pose proof (corner_contains _ py px Hr Hl) as Hin. split; [exact Hin|].
  pose proof (corner_block py px Hr) as Hb. pose proof NoDup_blocks as Hn. unfold blur_blocks.
  pose proof Hb as (l1 & l2 & Hsplit)%list_elem_of_split.
  assert (Hall1 : Forall (fun b => b ∈ blocks) l1) by (apply Forall_forall; intros b ?; rewrite Hsplit; set_solver).
  assert (Hall2 : Forall (fun b => b ∈ blocks) l2) by (apply Forall_forall; intros b ?; rewrite Hsplit; set_solver).
  rewrite Hsplit in Hn |- *. apply NoDup_app in Hn as (Hn1 & Hdis & Hn2). apply NoDup_cons in Hn2 as [Hnot Hn2].
  assert (Hthird : third (index py px)) by (destruct Hnw as (?&?&?&?&?&?&?&?&?&?); unfold in_region in Hr; apply index_third; lia).
  rewrite foldl_app. cbn [foldl]. set (data1 := foldl blur_block data l1).
  assert (Hlen1 : length data1 = length data) by by apply blur_length.
  destruct (corner py px) as [by_ bx] eqn:Ec. cbn [fst snd] in *. destruct (block_bounds _ _ Hb) as [Hy Hx].
  destruct (blur_block_lookup data1 by_ bx (index py px) c Hy Hx Hthird Hc) as [Hlen2 Hlook].
  rewrite Hlen1 in Hlen2, Hlook. fold block in Hlook. rewrite bool_decide_true in Hlook by done.
  rewrite blur_elsewhere.
  - rewrite Hlook. f_equal. apply average_ext. intros idx Hi.
    assert (third idx) by (pose proof (block_pixels_third (length data) by_ bx Hy Hx) as Hf; rewrite Forall_forall in Hf; by apply Hf).
    apply blur_elsewhere; [done|done|]. apply Forall_forall. intros [b1 b2] Hb1. rewrite Forall_forall in Hall1.
    split; [by apply Hall1|]. intros Hi'. apply elem_of_block_pixels in Hi as (qy & qx & Hqy & Hqx & Hq & -> & Hql); [|done..].
    apply pixel_block in Hi'; [|done|by apply Hall1]. rewrite (corner_unique by_ bx) in Hi' by done.
    injection Hi' as -> ->. apply (Hdis (by_, bx)); set_solver.
  - done.
  - done.
  - rewrite Forall_forall in Hall2. apply Forall_forall. intros [b1 b2] Hb2. split; [by apply Hall2|]. cbn [fst snd].
    rewrite Hlen2. intros Hi'. apply pixel_block in Hi'; [|done|by apply Hall2]. rewrite Ec in Hi'.
    injection Hi' as -> ->. done.
Qed.
End Pixelation.

(** ** Examples *)

(** Four by four pixels of one channel value each, blocks of four. *)
Definition demo_image : list Z := concat (map (fun v => [v; 0; 2 * v]) (seqZ 0 16)).

Lemma blur_region_pixelates_witness :
  blur_region demo_image 4 4 0 0 2 2 (f32_ratio 1 10) !! Z.to_nat (index 4 1 1 + 2) = Some 5.
Proof.
  assert (Hnw : no_wrap 4 4 0 0 2 2 4) by (unfold no_wrap, u32_max; lia).
  destruct (blur_region_pixelates 4 4 0 0 2 2 4 Hnw demo_image 1 1 2) as [_ H];
    [unfold in_region; lia| by vm_compute | lia |].
  change (block_size (f32_ratio 1 10)) with 4. unfold blur_region. 
  replace (block_size (f32_ratio 1 10)) with 4 by (by vm_compute). rewrite H. by vm_compute.
Defined.

Lemma default_filters_never_blur_witness :
  let m := with_default_filters (D := demo_digests) bytes_string PrivacyConfig_strict in
  exists r s, process_image [5] "camera" demo_image 4 4 m = (Ok r, set_stats s m) /\ result_data r = demo_image.
Proof.
  intros m.
  destruct (default_filters_never_blur (D := demo_digests) bytes_string PrivacyConfig_strict m [5] "camera" demo_image 4 4)
    as (r & s & H & Hd & _); [done|]. by exists r, s.
Defined.

Lemma metadata_scrubbed_witness :
  let md := {["operator_name" := "Ann"; "operator_id" := "7"; "robot" := "r1"]} : gmap string string in
  let c := PrivacyConfig_default in
  (process_metadata md (with_default_filters (D := demo_digests) bytes_string c)).1.2 !! "operator_name" = None.
Proof.
  intros md c.
  assert (Hn : NoDup (pii_fields_to_hash c)) by (repeat constructor; set_solver).
  pose proof (metadata_scrubbed (D := demo_digests) bytes_string c md "operator_name" Hn) as [_ H].
  exact H.
Defined.

(** A field listed twice is hashed twice. *)
Example hashed_twice :
  let h := hash_value (D := demo_digests) bytes_string in
  foldl (hash_field (D := demo_digests) bytes_string) {["id" := "7"]} ["id"; "id"] !! "id" = Some (h (h "7")).
Proof. by vm_compute. Qed.
