(* ===== verification/Triggers.v ===== *)
(** * Capture triggers (omni-plugin/src/robotics/data_collection/triggers.rs
      and trigger_impl.rs)

    A trigger looks at the context of the robot and says whether an episode
    starts.  The trait is the class [Trigger], what its implementations promise
    the manager is [TriggerLaws]; the six triggers of the code are the
    constructors of [AnyTrigger].  Triggers are shared ([Arc<dyn Trigger>]) and
    change through shared references, so the manager holds references into a
    heap of triggers.  Times are nanoseconds; scores and signals are binary
    floating-point numbers ([f32], [f64]) and their text is a parameter. *)

From Stdlib Require Import Sorting.Sorted.
From S2P Require Import Prelude RustStr F32 SortBy.

Open Scope string_scope.
Open Scope list_scope.
Open Scope Z_scope.

Abbreviation TriggerId := string (only parsing).
Abbreviation Metadata := (gmap string string) (only parsing).

Inductive TriggerError : Type :=
| NotFound (id : string)
| AlreadyRegistered (id : string)
| InvalidConfig (e : string)
| EvaluationFailed (e : string).

Inductive TriggerType : Type := Teleop | Failure | Anomaly | Periodic | Manual | Custom.

Definition TriggerType_as_str (t : TriggerType) : string :=
  match t with
  | Teleop => "teleop" | Failure => "failure" | Anomaly => "anomaly"
  | Periodic => "periodic" | Manual => "manual" | Custom => "custom"
  end.

Inductive TriggerPriority : Type := Low | Normal | High | Critical.

(** The discriminants, which order the priorities. *)
Definition rank (p : TriggerPriority) : Z :=
  match p with Low => 0 | Normal => 1 | High => 2 | Critical => 3 end.

Record TriggerEvent : Type := {
  trigger_id : TriggerId; trigger_type : TriggerType; timestamp_ns : Z;
  priority : TriggerPriority; reason : string; metadata : Metadata;
  pre_roll_ns : Z; post_roll_ns : Z }.

Definition TriggerEvent_new (id : TriggerId) (ty : TriggerType) (ts : Z) (why : string) : TriggerEvent := {|
  trigger_id := id; trigger_type := ty; timestamp_ns := ts; priority := Normal; reason := why;
  metadata := ∅; pre_roll_ns := 5000000000; post_roll_ns := 5000000000 |}.

Definition with_priority (p : TriggerPriority) (e : TriggerEvent) : TriggerEvent := {|
  trigger_id := trigger_id e; trigger_type := trigger_type e; timestamp_ns := timestamp_ns e;
  priority := p; reason := reason e; metadata := metadata e;
  pre_roll_ns := pre_roll_ns e; post_roll_ns := post_roll_ns e |}.

Definition with_pre_roll (d : Z) (e : TriggerEvent) : TriggerEvent := {|
  trigger_id := trigger_id e; trigger_type := trigger_type e; timestamp_ns := timestamp_ns e;
  priority := priority e; reason := reason e; metadata := metadata e;
  pre_roll_ns := d; post_roll_ns := post_roll_ns e |}.

Definition with_post_roll (d : Z) (e : TriggerEvent) : TriggerEvent := {|
  trigger_id := trigger_id e; trigger_type := trigger_type e; timestamp_ns := timestamp_ns e;
  priority := priority e; reason := reason e; metadata := metadata e;
  pre_roll_ns := pre_roll_ns e; post_roll_ns := d |}.

Definition with_metadata (k v : string) (e : TriggerEvent) : TriggerEvent := {|
  trigger_id := trigger_id e; trigger_type := trigger_type e; timestamp_ns := timestamp_ns e;
  priority := priority e; reason := reason e; metadata := <[k := v]> (metadata e);
  pre_roll_ns := pre_roll_ns e; post_roll_ns := post_roll_ns e |}.

Definition suggested_duration_ns (e : TriggerEvent) : Z :=
  wrap_add u64_max (pre_roll_ns e) (post_roll_ns e).

(** ** The context *)

Record TriggerContext : Type := {
  now_ns : Z; is_teleop_active : bool; anomaly_score : spec_float;
  failure_detected : bool; failure_reason : option string;
  time_since_last_trigger_ns : Z; signals : gmap string spec_float }.

(** [TriggerContext::new]; [Default] is the one at time 0. *)
Definition TriggerContext_new (ts : Z) : TriggerContext := {|
  now_ns := ts; is_teleop_active := false; anomaly_score := S754_zero false;
  failure_detected := false; failure_reason := None;
  time_since_last_trigger_ns := u64_max; signals := ∅ |}.

Definition with_teleop (active : bool) (c : TriggerContext) : TriggerContext := {|
  now_ns := now_ns c; is_teleop_active := active; anomaly_score := anomaly_score c;
  failure_detected := failure_detected c; failure_reason := failure_reason c;
  time_since_last_trigger_ns := time_since_last_trigger_ns c; signals := signals c |}.

(** The number 1 of [f32]. *)
Definition one_f32 : spec_float := S754_finite false 8388608 (-23).

(** [x.clamp(0.0, 1.0)] of [f32]: NaN stays NaN. *)
Definition clamp01 (x : spec_float) : spec_float :=
  let x := if SFltb x (S754_zero false) then S754_zero false else x in
  if SFltb one_f32 x then one_f32 else x.

Definition with_anomaly (score : spec_float) (c : TriggerContext) : TriggerContext := {|
  now_ns := now_ns c; is_teleop_active := is_teleop_active c; anomaly_score := clamp01 score;
  failure_detected := failure_detected c; failure_reason := failure_reason c;
  time_since_last_trigger_ns := time_since_last_trigger_ns c; signals := signals c |}.

Definition with_failure (detected : bool) (why : option string) (c : TriggerContext) : TriggerContext := {|
  now_ns := now_ns c; is_teleop_active := is_teleop_active c; anomaly_score := anomaly_score c;
  failure_detected := detected; failure_reason := why;
  time_since_last_trigger_ns := time_since_last_trigger_ns c; signals := signals c |}.

Definition with_signal (name : string) (v : spec_float) (c : TriggerContext) : TriggerContext := {|
  now_ns := now_ns c; is_teleop_active := is_teleop_active c; anomaly_score := anomaly_score c;
  failure_detected := failure_detected c; failure_reason := failure_reason c;
  time_since_last_trigger_ns := time_since_last_trigger_ns c; signals := <[name := v]> (signals c) |}.

(** ** The trait *)

Class Trigger (T : Type) : Type := {
  id_of : T -> TriggerId;
  type_of : T -> TriggerType;
  priority_of : T -> TriggerPriority;
  evaluate : TriggerContext -> T -> option TriggerEvent * T;
  reset : T -> T;
  is_enabled : T -> bool;
  set_enabled : bool -> T -> T;
  config_metadata : T -> Metadata }.

(** What the manager may rely on: a trigger keeps its name and stays enabled
    while it is evaluated, and its events are its own. *)
Class TriggerLaws (T : Type) `{Trigger T} : Prop := {
  evaluate_keeps c t : id_of (evaluate c t).2 = id_of t /\ is_enabled (evaluate c t).2 = is_enabled t;
  evaluate_own c t e : (evaluate c t).1 = Some e ->
    trigger_id e = id_of t /\ trigger_type e = type_of t /\
    timestamp_ns e = now_ns c /\ priority e = priority_of t;
  reset_keeps t : id_of (reset t) = id_of t;
  set_enabled_keeps b t : id_of (set_enabled b t) = id_of t /\ is_enabled (set_enabled b t) = b }.

(** One trigger evaluated at each context in turn. *)
Fixpoint watch {T} `{Trigger T} (cs : list TriggerContext) (t : T) : list (option TriggerEvent) :=
  match cs with
  | [] => []
  | c :: cs => (evaluate c t).1 :: watch cs (evaluate c t).2
  end.

Fixpoint after {T} `{Trigger T} (cs : list TriggerContext) (t : T) : T :=
  match cs with [] => t | c :: cs => after cs (evaluate c t).2 end.

Definition is_some {A} (o : option A) : bool := match o with Some _ => true | None => false end.

Lemma watch_lookup {T} `{Trigger T} cs (t : T) i :
  watch cs t !! i = (fun c => (evaluate c (after (take i cs) t)).1) <$> cs !! i.
Proof. revert t i. induction cs as [|c cs IH]; intros t [|i]; simpl; [done..|]. apply IH. Qed.

Lemma after_take_S {T} `{Trigger T} cs (t : T) i c :
  cs !! i = Some c -> after (take (S i) cs) t = (evaluate c (after (take i cs) t)).2.
Proof.
  revert t i. induction cs as [|c0 cs IH]; intros t [|i]; simpl; [done..| |].
  - by intros [= ->].
  - intros E. by rewrite <- (IH _ _ E).
Qed.

(** ** The manager *)

Abbreviation Ref := nat (only parsing).

Record TriggerManager : Type := {
  triggers : gmap TriggerId Ref; active : bool;
  last_trigger_times : gmap TriggerId Z; cooldown_ns : Z; mgr_enabled : bool }.

Definition TriggerManager_new : TriggerManager := {|
  triggers := ∅; active := true; last_trigger_times := ∅;
  cooldown_ns := 1000000000; mgr_enabled := true |}.

Definition with_cooldown (d : Z) (m : TriggerManager) : TriggerManager := {|
  triggers := triggers m; active := active m; last_trigger_times := last_trigger_times m;
  cooldown_ns := d; mgr_enabled := mgr_enabled m |}.

Definition set_triggers (ts : gmap TriggerId Ref) (m : TriggerManager) : TriggerManager := {|
  triggers := ts; active := active m; last_trigger_times := last_trigger_times m;
  cooldown_ns := cooldown_ns m; mgr_enabled := mgr_enabled m |}.

Definition set_times (l : gmap TriggerId Z) (m : TriggerManager) : TriggerManager := {|
  triggers := triggers m; active := active m; last_trigger_times := l;
  cooldown_ns := cooldown_ns m; mgr_enabled := mgr_enabled m |}.

Definition set_mgr_enabled (b : bool) (m : TriggerManager) : TriggerManager := {|
  triggers := triggers m; active := active m; last_trigger_times := last_trigger_times m;
  cooldown_ns := cooldown_ns m; mgr_enabled := b |}.

Definition unregister (id : TriggerId) (m : TriggerManager) : result TriggerError unit * TriggerManager :=
  (ok_or (NotFound id) ((fun _ => tt) <$> triggers m !! id), set_triggers (delete id (triggers m)) m).

Definition get (id : TriggerId) (m : TriggerManager) : option Ref := triggers m !! id.
Definition list_triggers (m : TriggerManager) : list TriggerId := (map_to_list (triggers m)).*1.
Definition enable (m : TriggerManager) : TriggerManager := set_mgr_enabled true m.
Definition disable (m : TriggerManager) : TriggerManager := set_mgr_enabled false m.

Definition record_trigger_fired (events : list TriggerEvent) (m : TriggerManager) : TriggerManager :=
  set_times (foldl (fun l e => <[trigger_id e := timestamp_ns e]> l) (last_trigger_times m) events) m.

(** [b.priority.cmp(&a.priority)]: [a] may stand before [b]. *)
Definition urgent_first (a b : TriggerEvent) : bool := rank (priority b) <=? rank (priority a).

(** The cooldown of a trigger has not passed. *)
Definition cooling (m : TriggerManager) (now : Z) (id : TriggerId) : bool :=
  match last_trigger_times m !! id with
  | Some last_time => now <? wrap_add u64_max last_time (cooldown_ns m)
  | None => false
  end.

Record TriggerStats : Type := {
  total_triggers : nat; enabled_triggers : nat; triggers_fired : nat }.

Section Manager.
Context {T : Type} `{Trigger T}.

(** The objects behind the references. *)
Abbreviation Heap := (gmap Ref T) (only parsing).

(** [None]: no trigger behind the reference, which the type excludes. *)
Definition register (h : Heap) (r : Ref) (m : TriggerManager) :
  option (result TriggerError unit * TriggerManager) :=
  t ← h !! r;
  let id := id_of t in
  Some (if bool_decide (is_Some (triggers m !! id)) then (Err (AlreadyRegistered id), m)
        else (Ok tt, set_triggers (<[id := r]> (triggers m)) m)).

(** The body of the loop, for one entry of the map. *)
Definition evaluate_entry (ctx : TriggerContext) (m : TriggerManager)
    (st : list TriggerEvent * Heap) (entry : TriggerId * Ref) : list TriggerEvent * Heap :=
  let '(events, h) := st in
  match h !! entry.2 with
  | None => st
  | Some t =>
    if negb (is_enabled t) then st
    else if cooling m (now_ns ctx) entry.1 then st
    else let '(event, t') := evaluate ctx t in
         (match event with Some e => events ++ [e] | None => events end, <[entry.2 := t']> h)
  end.

(** [order]: the entries of the map in the order the iteration finds them. *)
Definition manager_evaluate (order : list (TriggerId * Ref)) (ctx : TriggerContext)
    (m : TriggerManager) (h : Heap) : list TriggerEvent * Heap :=
  if negb (mgr_enabled m) then ([], h)
  else let '(events, h') := foldl (evaluate_entry ctx m) ([], h) order in
       (sort_by urgent_first events, h').

Definition reset_all (m : TriggerManager) (h : Heap) : TriggerManager * Heap :=
  (set_times ∅ m, foldl (fun h e => alter reset e.2 h) h (map_to_list (triggers m))).

Definition stats (m : TriggerManager) (h : Heap) : TriggerStats := {|
  total_triggers := size (triggers m);
  enabled_triggers := length (List.filter (fun e =>
    match h !! e.2 with Some t => is_enabled t | None => false end) (map_to_list (triggers m)));
  triggers_fired := size (last_trigger_times m) |}.

(** *** What one evaluation does *)

(** The entries lead to triggers of their name. *)
Definition registry_ok (m : TriggerManager) (h : Heap) : Prop :=
  forall id r, triggers m !! id = Some r -> exists t, h !! r = Some t /\ id_of t = id.

Definition due (m : TriggerManager) (ctx : TriggerContext) (id : TriggerId) (t : T) : bool :=
  is_enabled t && negb (cooling m (now_ns ctx) id).

(** The event of one entry, from the heap as the call finds it. *)
Definition fires (m : TriggerManager) (ctx : TriggerContext) (h : Heap) (e : TriggerId * Ref) : option TriggerEvent :=
  t ← h !! e.2; if due m ctx e.1 t then (evaluate ctx t).1 else None.

(** What one entry leaves behind its reference. *)
Definition settle (m : TriggerManager) (ctx : TriggerContext) (id : TriggerId) (t : T) : T :=
  if due m ctx id t then (evaluate ctx t).2 else t.

Lemma alter_present {A} (f : A -> A) (g : gmap Ref A) r x : g !! r = Some x -> alter f r g = <[r := f x]> g.
Proof. intros E. rewrite <- (insert_id g r x E) at 1. apply alter_insert_eq. Qed.

Lemma evaluate_entry_spec ctx m evs h e :
  evaluate_entry ctx m (evs, h) e =
  (evs ++ match fires m ctx h e with Some x => [x] | None => [] end, alter (settle m ctx e.1) e.2 h).
Proof.
  unfold evaluate_entry, fires, settle, due. destruct (h !! e.2) as [t|] eqn:E; simpl.
  - rewrite (alter_present _ _ _ _ E). destruct (is_enabled t), (cooling m (now_ns ctx) e.1); simpl;
      rewrite ?app_nil_r, ?(insert_id _ _ _ E); try done.
    destruct (evaluate ctx t) as [[x|] t']; simpl; by rewrite ?app_nil_r.
  - rewrite app_nil_r. f_equal. symmetry. apply alter_id. intros t. by rewrite E.
Qed.

Definition settle_all (m : TriggerManager) (ctx : TriggerContext) (order : list (TriggerId * Ref)) (h : Heap) : Heap :=
  foldl (fun h e => alter (settle m ctx e.1) e.2 h) h order.

Lemma fires_alter m ctx f r h e : e.2 <> r -> fires m ctx (alter f r h) e = fires m ctx h e.
Proof. intros Hr. unfold fires. by rewrite lookup_alter_ne. Qed.

Lemma omap_fires_alter m ctx f r h order :
  r ∉ order.*2 -> omap (fires m ctx (alter f r h)) order = omap (fires m ctx h) order.
Proof.
  induction order as [|e order IH]; [done|]. csimpl. rewrite not_elem_of_cons. intros (Hr & Hn).
  rewrite fires_alter by congruence. by rewrite IH.
Qed.

(** Entries with references of their own do not influence one another. *)
Lemma evaluate_fold ctx m order evs h :
  NoDup order.*2 ->
  foldl (evaluate_entry ctx m) (evs, h) order = (evs ++ omap (fires m ctx h) order, settle_all m ctx order h).
Proof.
  revert evs h. induction order as [|e order IH]; intros evs h Hn; [by rewrite app_nil_r|].
  csimpl in Hn. apply NoDup_cons in Hn as (Hr & Hn). unfold settle_all. cbn [foldl].
  rewrite evaluate_entry_spec, IH by done. rewrite omap_fires_alter by done. f_equal. rewrite <- app_assoc.
  f_equal. cbn [omap list_omap]. by destruct (fires m ctx h e).
Qed.

Lemma settle_all_other m ctx order h r : r ∉ order.*2 -> settle_all m ctx order h !! r = h !! r.
Proof.
  revert h. induction order as [|e order IH]; intros h; [done|]. csimpl. rewrite not_elem_of_cons.
  intros (Hr & Hn). unfold settle_all. cbn [foldl]. etransitivity; [by apply IH|].
  by rewrite lookup_alter_ne by congruence.
Qed.

Lemma settle_all_entry m ctx order h id r :
  NoDup order.*2 -> (id, r) ∈ order -> settle_all m ctx order h !! r = settle m ctx id <$> h !! r.
Proof.
  revert h. induction order as [|e order IH]; intros h Hn He; [by apply elem_of_nil in He|].
  csimpl in Hn. apply NoDup_cons in Hn as (Hr & Hn). unfold settle_all. cbn [foldl].
  apply elem_of_cons in He as [<-|He].
  - etransitivity; [by apply settle_all_other|]. by rewrite lookup_alter_eq.
  - etransitivity; [by apply IH|]. rewrite lookup_alter_ne; [done|]. intros E. simpl in E. apply Hr.
    rewrite E. by apply (list_elem_of_fmap_2 snd _ (id, r)).
Qed.

Lemma order_entry (m : TriggerManager) order id r :
  order ≡ₚ map_to_list (triggers m) -> (id, r) ∈ order <-> triggers m !! id = Some r.
Proof. intros ->. apply elem_of_map_to_list. Qed.

(** Two names never lead to one trigger. *)
Lemma registry_refs m h order :
  registry_ok m h -> order ≡ₚ map_to_list (triggers m) -> NoDup order.*2.
Proof.
  intros Hok Hp. rewrite Hp. apply NoDup_fmap_2_strong; [|apply NoDup_map_to_list].
  intros [i1 r1] [i2 r2] H1 H2 E. simpl in E. subst r2. apply elem_of_map_to_list in H1, H2.
  destruct (Hok _ _ H1) as (t1 & E1 & <-), (Hok _ _ H2) as (t2 & E2 & <-). congruence.
Qed.

(** Changing a trigger behind its reference, its name kept. *)
Lemma registry_ok_alter m h f r :
  (forall t, id_of (f t) = id_of t) -> registry_ok m h -> registry_ok m (alter f r h).
Proof.
  intros Hf Hok id r' Hr. destruct (Hok _ _ Hr) as (t & Et & Hid). destruct (decide (r = r')) as [<-|Hn].
  - exists (f t). by rewrite lookup_alter_eq, Et, Hf.
  - exists t. by rewrite lookup_alter_ne.
Qed.

Lemma urgent_total a b : urgent_first a b = false -> urgent_first b a = true.
Proof. unfold urgent_first. intros. reflect_bools. apply Z.leb_le. lia. Qed.

Lemma urgent_trans a b c : urgent_first a b = true -> urgent_first b c = true -> urgent_first a c = true.
Proof. unfold urgent_first. intros. reflect_bools. apply Z.leb_le. lia. Qed.

Lemma manager_evaluate_enabled order ctx m h :
  mgr_enabled m = true -> registry_ok m h -> order ≡ₚ map_to_list (triggers m) ->
  manager_evaluate order ctx m h =
  (sort_by urgent_first (omap (fires m ctx h) order), settle_all m ctx order h).
Proof.
  intros He Hok Hp. unfold manager_evaluate. rewrite He. simpl.
  by rewrite (evaluate_fold ctx m order [] h (registry_refs _ _ _ Hok Hp)).
Qed.

(** An event of an evaluation comes from a registered trigger that was due. *)
Lemma manager_event order ctx m h e :
  registry_ok m h -> order ≡ₚ map_to_list (triggers m) -> e ∈ (manager_evaluate order ctx m h).1 ->
  exists id r t, triggers m !! id = Some r /\ h !! r = Some t /\ id_of t = id /\
    due m ctx id t = true /\ (evaluate ctx t).1 = Some e.
Proof.
  intros Hok Hp He. destruct (mgr_enabled m) eqn:Em.
  - rewrite (manager_evaluate_enabled order ctx m h) in He by done. simpl in He.
    rewrite sort_by_perm in He. apply list_elem_of_omap in He as ([id r] & He & Hf).
    apply (order_entry m order) in He; [|done]. destruct (Hok _ _ He) as (t & Et & Hid).
    unfold fires in Hf. simpl in Hf. rewrite Et in Hf. simpl in Hf.
    destruct (due m ctx id t) eqn:Ed; [|done]. by exists id, r, t.
  - unfold manager_evaluate in He. rewrite Em in He. by apply elem_of_nil in He.
Qed.

Context `{!TriggerLaws T}.

Lemma settle_keeps m ctx id t : id_of (settle m ctx id t) = id_of t.
Proof. unfold settle. case_match; [apply evaluate_keeps|done]. Qed.

Lemma settle_all_ok m ctx order h : registry_ok m h -> registry_ok m (settle_all m ctx order h).
Proof.
  revert h. induction order as [|e order IH]; intros h Hok; [done|].
  apply IH, registry_ok_alter; [apply settle_keeps|done].
Qed.

Lemma manager_evaluate_ok order ctx m h :
  registry_ok m h -> order ≡ₚ map_to_list (triggers m) -> registry_ok m (manager_evaluate order ctx m h).2.
Proof.
  intros Hok Hp. destruct (mgr_enabled m) eqn:Em.
  - rewrite (manager_evaluate_enabled order ctx m h) by done. by apply settle_all_ok.
  - unfold manager_evaluate. by rewrite Em.
Qed.


(** *** The manager in use *)

(** One evaluation and the record of its events ([process_triggers]), a change
    of the registry or of the switch, or triggers changed through their own
    references. *)
Inductive manager_step : TriggerManager * Heap -> list TriggerEvent -> TriggerManager * Heap -> Prop :=
| step_process order ctx m h :
    order ≡ₚ map_to_list (triggers m) ->
    manager_step (m, h) (manager_evaluate order ctx m h).1
      (record_trigger_fired (manager_evaluate order ctx m h).1 m, (manager_evaluate order ctx m h).2)
| step_register m h r res m' : register h r m = Some (res, m') -> manager_step (m, h) [] (m', h)
| step_unregister m h id : manager_step (m, h) [] ((unregister id m).2, h)
| step_switch m h b : manager_step (m, h) [] (set_mgr_enabled b m, h)
| step_outside m h h' : registry_ok m h' -> manager_step (m, h) [] (m, h').

Definition state_ok (s : TriggerManager * Heap) : Prop := registry_ok s.1 s.2.

Lemma step_ok s evs s' : state_ok s -> manager_step s evs s' -> state_ok s'.
Proof.
  intros Hok Hs. destruct Hs as [order ctx m h Hp|m h r res m' E|m h id|m h b|m h h' Hok']; unfold state_ok in *; simpl in *.
  - intros id r. apply (manager_evaluate_ok order ctx m h Hok Hp).
  - unfold register in E. destruct (h !! r) as [t|] eqn:Et; [simpl in E|discriminate].
    case_bool_decide; injection E as <- <-; [done|]. intros id' r'. simpl. rewrite lookup_insert_Some.
    intros [(<- & <-)|(_ & Hr)]; [eauto|by apply Hok].
  - intros id' r'. simpl. rewrite lookup_delete_Some. intros (_ & Hr). by apply Hok.
  - done.
  - done.
Qed.

Lemma step_cooldown s evs s' : manager_step s evs s' -> cooldown_ns s'.1 = cooldown_ns s.1.
Proof.
  destruct 1 as [| m h r res m' E| | |]; try done. unfold register in E.
  destruct (h !! r); [simpl in E|discriminate]. by case_bool_decide; injection E as <- <-.
Qed.

Lemma record_times evs (l : gmap TriggerId Z) id now :
  (forall e, e ∈ evs -> timestamp_ns e = now) ->
  foldl (fun l e => <[trigger_id e := timestamp_ns e]> l) l evs !! id =
  if bool_decide (id ∈ map trigger_id evs) then Some now else l !! id.
Proof.
  revert l. induction evs as [|e evs IH]; intros l Hn; [done|]. simpl.
  rewrite IH by (intros e' He'; apply Hn; by right). rewrite (Hn e) by by left.
  destruct (decide (id ∈ map trigger_id evs)) as [Hi|Hi].
  - rewrite !bool_decide_eq_true_2; [done|by right|done].
  - rewrite (bool_decide_eq_false_2 (id ∈ map trigger_id evs)) by done. destruct (decide (id = trigger_id e)) as [->|Hne].
    + rewrite lookup_insert_eq, bool_decide_eq_true_2; [done|by left].
    + rewrite lookup_insert_ne by done. rewrite bool_decide_eq_false_2; [done|].
      rewrite elem_of_cons. by intros [|].
Qed.

Lemma manager_event_own order ctx m h e :
  registry_ok m h -> order ≡ₚ map_to_list (triggers m) -> e ∈ (manager_evaluate order ctx m h).1 ->
  timestamp_ns e = now_ns ctx /\ cooling m (now_ns ctx) (trigger_id e) = false.
Proof.
  intros Hok Hp He. destruct (manager_event order ctx m h e Hok Hp He) as (id & r & t & _ & _ & <- & Hd & Ev).
  destruct (evaluate_own ctx t e Ev) as (-> & _ & -> & _). unfold due in Hd. by reflect_bools.
Qed.

(** The last time of [id] is recorded, is no earlier than [t0] and leaves room
    for the cooldown. *)
Definition fired_since (id : TriggerId) (t0 : Z) (s : TriggerManager * Heap) : Prop :=
  exists l, last_trigger_times s.1 !! id = Some l /\ t0 <= l /\ 0 <= l + cooldown_ns s.1 <= u64_max.

Definition in_time (cd : Z) (e : TriggerEvent) : Prop := 0 <= timestamp_ns e + cd <= u64_max.

Lemma fired_since_event id t0 s evs s' e :
  0 <= cooldown_ns s.1 -> state_ok s -> manager_step s evs s' -> fired_since id t0 s ->
  e ∈ evs -> trigger_id e = id -> t0 + cooldown_ns s.1 <= timestamp_ns e.
Proof.
  intros Hcd Hok Hs (l & El & Hl & Hb) He Hid. destruct Hs; try by apply elem_of_nil in He. simpl in *.
  destruct (manager_event_own order ctx m h e) as (-> & Hc); [done..|]. unfold cooling in Hc.
  rewrite Hid, El, wrap_add_small in Hc by done. reflect_bools. lia.
Qed.

Lemma fired_since_step id t0 s evs s' :
  0 <= cooldown_ns s.1 -> state_ok s -> manager_step s evs s' -> Forall (in_time (cooldown_ns s.1)) evs ->
  fired_since id t0 s -> fired_since id t0 s'.
Proof.
  intros Hcd Hok Hs Hin Hf. destruct (decide (id ∈ map trigger_id evs)) as [Hi|Hi].
  - apply list_elem_of_fmap in Hi as (e & -> & He).
    pose proof (fired_since_event _ _ _ _ _ e Hcd Hok Hs Hf He eq_refl) as Ht.
    destruct Hs; try by apply elem_of_nil in He. simpl in *.
    destruct (manager_event_own order ctx m h e) as (Ets & _); [done..|].
    assert (Hall : forall e', e' ∈ (manager_evaluate order ctx m h).1 -> timestamp_ns e' = now_ns ctx)
      by (intros e' He'; by apply (manager_event_own order ctx m h e')).
    exists (now_ns ctx). simpl. rewrite (record_times _ _ _ (now_ns ctx)) by done.
    rewrite bool_decide_eq_true_2 by (by apply list_elem_of_fmap_2).
    rewrite Forall_forall in Hin. specialize (Hin e He). unfold in_time in Hin. rewrite Ets in *.
    split; [done|]. lia.
  - pose proof (step_cooldown _ _ _ Hs) as Ec. destruct Hf as (l & El & Hl). exists l. rewrite Ec. split; [|done].
    destruct Hs as [order ctx m h Hp|m h r res m' E| | |]; simpl in *; try done.
    + rewrite (record_times _ _ _ (now_ns ctx)); [by rewrite bool_decide_eq_false_2|].
      intros e' He'. by apply (manager_event_own order ctx m h e').
    + unfold register in E. destruct (h !! r); [simpl in E|discriminate]. by case_bool_decide; injection E as <- <-.
Qed.

(** The event just recorded. *)
Lemma fired_now s evs s' e :
  state_ok s -> manager_step s evs s' -> e ∈ evs -> in_time (cooldown_ns s.1) e ->
  fired_since (trigger_id e) (timestamp_ns e) s'.
Proof.
  intros Hok Hs He Hin. pose proof (step_cooldown _ _ _ Hs) as Ec. destruct Hs; try by apply elem_of_nil in He.
  simpl in *. exists (now_ns ctx). simpl.
  destruct (manager_event_own order ctx m h e) as (Ets & _); [done..|].
  rewrite (record_times _ _ _ (now_ns ctx)) by (intros e' He'; by apply (manager_event_own order ctx m h e')).
  rewrite bool_decide_eq_true_2 by (by apply list_elem_of_fmap_2). unfold in_time in Hin. rewrite Ets in *.
  split; [done|]. lia.
Qed.

Lemma run_fired_since id t0 s ls s' :
  run manager_step s ls s' -> state_ok s -> 0 <= cooldown_ns s.1 ->
  Forall (Forall (in_time (cooldown_ns s.1))) ls -> fired_since id t0 s ->
  state_ok s' /\ cooldown_ns s'.1 = cooldown_ns s.1 /\ fired_since id t0 s'.
Proof.
  induction 1 as [|s evs s1 ls s2 Hs Hr IH]; intros Hok Hcd Hall Hf; [done|].
  apply Forall_cons in Hall as (Hin & Hall). pose proof (step_cooldown _ _ _ Hs) as Ec. rewrite <- Ec.
  apply IH; rewrite ?Ec; [by eapply step_ok|done|done|by eapply fired_since_step].
Qed.

Lemma run_app_inv s l1 l2 s' :
  run manager_step s (l1 ++ l2) s' -> exists s1, run manager_step s l1 s1 /\ run manager_step s1 l2 s'.
Proof.
  revert s. induction l1 as [|a l1 IH]; intros s Hr; [by eexists; split; [constructor|]|].
  inversion Hr as [|? ? s1 ? ? Ha Hr']; subst. destruct (IH _ Hr') as (s2 & H1 & H2).
  exists s2. split; [by econstructor|done].
Qed.

(** However the manager is used, and even when triggers are
    registered again or changed in between, two events of one trigger are at
    least the cooldown apart, as long as the sums of times fit 64 bits. *)
Theorem cooldown_spacing s l1 evs1 l2 evs2 l3 s' e1 e2 :
  state_ok s -> 0 <= cooldown_ns s.1 ->
  run manager_step s (l1 ++ evs1 :: l2 ++ evs2 :: l3) s' ->
  Forall (Forall (in_time (cooldown_ns s.1))) (l1 ++ evs1 :: l2) ->
  e1 ∈ evs1 -> e2 ∈ evs2 -> trigger_id e1 = trigger_id e2 ->
  timestamp_ns e1 + cooldown_ns s.1 <= timestamp_ns e2.
Proof using All.
  intros Hok Hcd Hr Hall H1 H2 Hid. apply run_app_inv in Hr as (sa & Ha & Hr).
  inversion Hr as [|? ? sb ? ? Hs1 Hr']; subst. apply run_app_inv in Hr' as (sc & Hc & Hr').
  inversion Hr' as [|? ? sd ? ? Hs2 _]; subst.
  apply Forall_app in Hall as (Hl1 & Hall). apply Forall_cons in Hall as (He1 & Hl2).
  assert (Hoka : state_ok sa) by (eapply (run_invariant _ state_ok); [exact step_ok| |]; done).
  assert (Hca : cooldown_ns sa.1 = cooldown_ns s.1).
  { clear -Ha. induction Ha as [|? ? ? ? ? Hs Hr IH]; [done|]. rewrite IH. by eapply step_cooldown. }
  pose proof (step_cooldown _ _ _ Hs1) as Hcb. rewrite <- Hca in *.
  destruct (run_fired_since (trigger_id e1) (timestamp_ns e1) sb l2 sc) as (Hokc & Hcc & Hf);
    rewrite ?Hcb; [done|by eapply step_ok|done|done| |].
  { eapply fired_now; [exact Hoka|exact Hs1|done|]. by rewrite Forall_forall in He1; apply He1. }
  replace (cooldown_ns sa.1) with (cooldown_ns sc.1) by congruence.
  eapply fired_since_event; [|exact Hokc|exact Hs2|exact Hf|done|done]. rewrite Hcc, Hcb. done.
Qed.
End Manager.

(** ** The triggers of the code *)

(** [TeleopTrigger]: fires when teleoperation starts. *)
Record TeleopTrigger : Type := {
  tt_id : TriggerId; tt_priority : TriggerPriority; tt_pre_roll_ns : Z; tt_post_roll_ns : Z;
  tt_enabled : bool; tt_was_active : bool }.

Definition tt_with_priority (p : TriggerPriority) (t : TeleopTrigger) : TeleopTrigger := {|
  tt_id := tt_id t; tt_priority := p; tt_pre_roll_ns := tt_pre_roll_ns t; tt_post_roll_ns := tt_post_roll_ns t;
  tt_enabled := tt_enabled t; tt_was_active := tt_was_active t |}.

Definition tt_with_pre_roll (d : Z) (t : TeleopTrigger) : TeleopTrigger := {|
  tt_id := tt_id t; tt_priority := tt_priority t; tt_pre_roll_ns := d; tt_post_roll_ns := tt_post_roll_ns t;
  tt_enabled := tt_enabled t; tt_was_active := tt_was_active t |}.

Definition tt_with_post_roll (d : Z) (t : TeleopTrigger) : TeleopTrigger := {|
  tt_id := tt_id t; tt_priority := tt_priority t; tt_pre_roll_ns := tt_pre_roll_ns t; tt_post_roll_ns := d;
  tt_enabled := tt_enabled t; tt_was_active := tt_was_active t |}.

Definition tt_set_enabled (b : bool) (t : TeleopTrigger) : TeleopTrigger := {|
  tt_id := tt_id t; tt_priority := tt_priority t; tt_pre_roll_ns := tt_pre_roll_ns t; tt_post_roll_ns := tt_post_roll_ns t;
  tt_enabled := b; tt_was_active := tt_was_active t |}.

Definition TeleopTrigger_new (id : TriggerId) : TeleopTrigger := {|
  tt_id := id; tt_priority := High; tt_pre_roll_ns := 2000000000; tt_post_roll_ns := 10000000000;
  tt_enabled := true; tt_was_active := false |}.

Definition tt_set_was_active (b : bool) (t : TeleopTrigger) : TeleopTrigger := {|
  tt_id := tt_id t; tt_priority := tt_priority t; tt_pre_roll_ns := tt_pre_roll_ns t; tt_post_roll_ns := tt_post_roll_ns t;
  tt_enabled := tt_enabled t; tt_was_active := b |}.

Definition tt_evaluate (c : TriggerContext) (t : TeleopTrigger) : option TriggerEvent * TeleopTrigger :=
  let was := tt_was_active t in
  let t := tt_set_was_active (is_teleop_active c) t in
  (if is_teleop_active c && negb was then
     Some (with_metadata "trigger_edge" "rising"
       (with_post_roll (tt_post_roll_ns t) (with_pre_roll (tt_pre_roll_ns t) (with_priority (tt_priority t)
         (TriggerEvent_new (tt_id t) Teleop (now_ns c) "Teleoperation started")))))
   else None, t).

Definition tt_reset (t : TeleopTrigger) : TeleopTrigger := tt_set_was_active false t.

(** The metadata of a configuration: the rolls and what the type adds. *)
Definition rolls_metadata (pre post : Z) (m : Metadata) : Metadata :=
  <["post_roll_ns" := show_uint post]> (<["pre_roll_ns" := show_uint pre]> m).

#[export] Instance TeleopTrigger_trigger : Trigger TeleopTrigger := {
  id_of := tt_id; type_of _ := Teleop; priority_of := tt_priority; evaluate := tt_evaluate;
  reset := tt_reset; is_enabled := tt_enabled; set_enabled := tt_set_enabled;
  config_metadata t := rolls_metadata (tt_pre_roll_ns t) (tt_post_roll_ns t) ∅ }.

(** [FailureTrigger]: fires while a failure is detected. *)
Record FailureTrigger : Type := {
  ft_id : TriggerId; ft_priority : TriggerPriority; ft_pre_roll_ns : Z; ft_post_roll_ns : Z;
  ft_enabled : bool }.

Definition ft_with_priority (p : TriggerPriority) (t : FailureTrigger) : FailureTrigger := {|
  ft_id := ft_id t; ft_priority := p; ft_pre_roll_ns := ft_pre_roll_ns t; ft_post_roll_ns := ft_post_roll_ns t;
  ft_enabled := ft_enabled t |}.

Definition ft_with_pre_roll (d : Z) (t : FailureTrigger) : FailureTrigger := {|
  ft_id := ft_id t; ft_priority := ft_priority t; ft_pre_roll_ns := d; ft_post_roll_ns := ft_post_roll_ns t;
  ft_enabled := ft_enabled t |}.

Definition ft_with_post_roll (d : Z) (t : FailureTrigger) : FailureTrigger := {|
  ft_id := ft_id t; ft_priority := ft_priority t; ft_pre_roll_ns := ft_pre_roll_ns t; ft_post_roll_ns := d;
  ft_enabled := ft_enabled t |}.

Definition ft_set_enabled (b : bool) (t : FailureTrigger) : FailureTrigger := {|
  ft_id := ft_id t; ft_priority := ft_priority t; ft_pre_roll_ns := ft_pre_roll_ns t; ft_post_roll_ns := ft_post_roll_ns t;
  ft_enabled := b |}.

Definition FailureTrigger_new (id : TriggerId) : FailureTrigger := {|
  ft_id := id; ft_priority := Critical; ft_pre_roll_ns := 10000000000; ft_post_roll_ns := 5000000000;
  ft_enabled := true |}.

Definition ft_evaluate (c : TriggerContext) (t : FailureTrigger) : option TriggerEvent * FailureTrigger :=
  (if failure_detected c then
     let why := default "Unknown failure" (failure_reason c) in
     Some (with_metadata "failure_reason" why
       (with_post_roll (ft_post_roll_ns t) (with_pre_roll (ft_pre_roll_ns t) (with_priority (ft_priority t)
         (TriggerEvent_new (ft_id t) Failure (now_ns c) why)))))
   else None, t).

#[export] Instance FailureTrigger_trigger : Trigger FailureTrigger := {
  id_of := ft_id; type_of _ := Failure; priority_of := ft_priority; evaluate := ft_evaluate;
  reset t := t; is_enabled := ft_enabled; set_enabled := ft_set_enabled;
  config_metadata t := rolls_metadata (ft_pre_roll_ns t) (ft_post_roll_ns t) ∅ }.

(** [PeriodicTrigger]: fires at intervals; [u64_max] says it never fired. *)
Record PeriodicTrigger : Type := {
  pt_id : TriggerId; pt_priority : TriggerPriority; pt_pre_roll_ns : Z; pt_post_roll_ns : Z;
  pt_enabled : bool; pt_interval_ns : Z; pt_last_fire_ns : Z }.

Definition pt_with_priority (p : TriggerPriority) (t : PeriodicTrigger) : PeriodicTrigger := {|
  pt_id := pt_id t; pt_priority := p; pt_pre_roll_ns := pt_pre_roll_ns t; pt_post_roll_ns := pt_post_roll_ns t;
  pt_enabled := pt_enabled t; pt_interval_ns := pt_interval_ns t; pt_last_fire_ns := pt_last_fire_ns t |}.

Definition pt_with_pre_roll (d : Z) (t : PeriodicTrigger) : PeriodicTrigger := {|
  pt_id := pt_id t; pt_priority := pt_priority t; pt_pre_roll_ns := d; pt_post_roll_ns := pt_post_roll_ns t;
  pt_enabled := pt_enabled t; pt_interval_ns := pt_interval_ns t; pt_last_fire_ns := pt_last_fire_ns t |}.

Definition pt_with_post_roll (d : Z) (t : PeriodicTrigger) : PeriodicTrigger := {|
  pt_id := pt_id t; pt_priority := pt_priority t; pt_pre_roll_ns := pt_pre_roll_ns t; pt_post_roll_ns := d;
  pt_enabled := pt_enabled t; pt_interval_ns := pt_interval_ns t; pt_last_fire_ns := pt_last_fire_ns t |}.

Definition pt_set_enabled (b : bool) (t : PeriodicTrigger) : PeriodicTrigger := {|
  pt_id := pt_id t; pt_priority := pt_priority t; pt_pre_roll_ns := pt_pre_roll_ns t; pt_post_roll_ns := pt_post_roll_ns t;
  pt_enabled := b; pt_interval_ns := pt_interval_ns t; pt_last_fire_ns := pt_last_fire_ns t |}.

Definition PeriodicTrigger_new (id : TriggerId) (interval : Z) : PeriodicTrigger := {|
  pt_id := id; pt_priority := Low; pt_pre_roll_ns := 5000000000; pt_post_roll_ns := 25000000000;
  pt_enabled := true; pt_interval_ns := interval; pt_last_fire_ns := u64_max |}.

(** The product of seconds and nanoseconds wraps. *)
Definition with_interval_secs (id : TriggerId) (interval_secs : Z) : PeriodicTrigger :=
  PeriodicTrigger_new id ((interval_secs * 1000000000) `mod` (u64_max + 1)).

Definition pt_set_last_fire (n : Z) (t : PeriodicTrigger) : PeriodicTrigger := {|
  pt_id := pt_id t; pt_priority := pt_priority t; pt_pre_roll_ns := pt_pre_roll_ns t; pt_post_roll_ns := pt_post_roll_ns t;
  pt_enabled := pt_enabled t; pt_interval_ns := pt_interval_ns t; pt_last_fire_ns := n |}.

Definition pt_should_fire (c : TriggerContext) (t : PeriodicTrigger) : bool :=
  let last := pt_last_fire_ns t in
  if last =? u64_max then true else wrap_add u64_max last (pt_interval_ns t) <=? now_ns c.

Definition pt_evaluate (c : TriggerContext) (t : PeriodicTrigger) : option TriggerEvent * PeriodicTrigger :=
  if pt_should_fire c t then
    (Some (with_metadata "interval_ns" (show_uint (pt_interval_ns t))
       (with_post_roll (pt_post_roll_ns t) (with_pre_roll (pt_pre_roll_ns t) (with_priority (pt_priority t)
         (TriggerEvent_new (pt_id t) Periodic (now_ns c) "Periodic capture"))))),
     pt_set_last_fire (now_ns c) t)
  else (None, t).

Definition pt_reset (t : PeriodicTrigger) : PeriodicTrigger := pt_set_last_fire u64_max t.

#[export] Instance PeriodicTrigger_trigger : Trigger PeriodicTrigger := {
  id_of := pt_id; type_of _ := Periodic; priority_of := pt_priority; evaluate := pt_evaluate;
  reset := pt_reset; is_enabled := pt_enabled; set_enabled := pt_set_enabled;
  config_metadata t := rolls_metadata (pt_pre_roll_ns t) (pt_post_roll_ns t)
    (<["interval_ns" := show_uint (pt_interval_ns t)]> ∅) }.

(** [ManualTrigger]: fires once for a request. *)
Record ManualTrigger : Type := {
  mt_id : TriggerId; mt_priority : TriggerPriority; mt_pre_roll_ns : Z; mt_post_roll_ns : Z;
  mt_enabled : bool; mt_pending : bool; mt_pending_reason : option string }.

Definition mt_with_priority (p : TriggerPriority) (t : ManualTrigger) : ManualTrigger := {|
  mt_id := mt_id t; mt_priority := p; mt_pre_roll_ns := mt_pre_roll_ns t; mt_post_roll_ns := mt_post_roll_ns t;
  mt_enabled := mt_enabled t; mt_pending := mt_pending t; mt_pending_reason := mt_pending_reason t |}.

Definition mt_with_pre_roll (d : Z) (t : ManualTrigger) : ManualTrigger := {|
  mt_id := mt_id t; mt_priority := mt_priority t; mt_pre_roll_ns := d; mt_post_roll_ns := mt_post_roll_ns t;
  mt_enabled := mt_enabled t; mt_pending := mt_pending t; mt_pending_reason := mt_pending_reason t |}.

Definition mt_with_post_roll (d : Z) (t : ManualTrigger) : ManualTrigger := {|
  mt_id := mt_id t; mt_priority := mt_priority t; mt_pre_roll_ns := mt_pre_roll_ns t; mt_post_roll_ns := d;
  mt_enabled := mt_enabled t; mt_pending := mt_pending t; mt_pending_reason := mt_pending_reason t |}.

Definition mt_set_enabled (b : bool) (t : ManualTrigger) : ManualTrigger := {|
  mt_id := mt_id t; mt_priority := mt_priority t; mt_pre_roll_ns := mt_pre_roll_ns t; mt_post_roll_ns := mt_post_roll_ns t;
  mt_enabled := b; mt_pending := mt_pending t; mt_pending_reason := mt_pending_reason t |}.

Definition ManualTrigger_new (id : TriggerId) : ManualTrigger := {|
  mt_id := id; mt_priority := Normal; mt_pre_roll_ns := 5000000000; mt_post_roll_ns := 5000000000;
  mt_enabled := true; mt_pending := false; mt_pending_reason := None |}.

Definition mt_set_pending (b : bool) (why : option string) (t : ManualTrigger) : ManualTrigger := {|
  mt_id := mt_id t; mt_priority := mt_priority t; mt_pre_roll_ns := mt_pre_roll_ns t; mt_post_roll_ns := mt_post_roll_ns t;
  mt_enabled := mt_enabled t; mt_pending := b; mt_pending_reason := why |}.

Definition request (why : string) (t : ManualTrigger) : ManualTrigger := mt_set_pending true (Some why) t.
Definition has_pending (t : ManualTrigger) : bool := mt_pending t.
Definition cancel (t : ManualTrigger) : ManualTrigger := mt_set_pending false None t.

Definition mt_evaluate (c : TriggerContext) (t : ManualTrigger) : option TriggerEvent * ManualTrigger :=
  if mt_pending t then
    let why := default "Manual trigger" (mt_pending_reason t) in
    let t := mt_set_pending false None t in
    (Some (with_metadata "manual_reason" why
       (with_post_roll (mt_post_roll_ns t) (with_pre_roll (mt_pre_roll_ns t) (with_priority (mt_priority t)
         (TriggerEvent_new (mt_id t) Manual (now_ns c) why))))), t)
  else (None, mt_set_pending false (mt_pending_reason t) t).

Definition mt_reset (t : ManualTrigger) : ManualTrigger := mt_set_pending false None t.

#[export] Instance ManualTrigger_trigger : Trigger ManualTrigger := {
  id_of := mt_id; type_of _ := Manual; priority_of := mt_priority; evaluate := mt_evaluate;
  reset := mt_reset; is_enabled := mt_enabled; set_enabled := mt_set_enabled;
  config_metadata _ := ∅ }.

(** The text of numbers: [{}] of [f32] and [f64], [{:.3}] of [f32]. *)
Section WithText.
Context (show_f32 show_f64 show_three_decimals : spec_float -> string).

(** [AnomalyTrigger]: fires while the score reaches the threshold. *)
Record AnomalyTrigger : Type := {
  at_id : TriggerId; at_priority : TriggerPriority; at_pre_roll_ns : Z; at_post_roll_ns : Z;
  at_enabled : bool; at_threshold : spec_float }.

Definition at_with_priority (p : TriggerPriority) (t : AnomalyTrigger) : AnomalyTrigger := {|
  at_id := at_id t; at_priority := p; at_pre_roll_ns := at_pre_roll_ns t; at_post_roll_ns := at_post_roll_ns t;
  at_enabled := at_enabled t; at_threshold := at_threshold t |}.

Definition at_with_pre_roll (d : Z) (t : AnomalyTrigger) : AnomalyTrigger := {|
  at_id := at_id t; at_priority := at_priority t; at_pre_roll_ns := d; at_post_roll_ns := at_post_roll_ns t;
  at_enabled := at_enabled t; at_threshold := at_threshold t |}.

Definition at_with_post_roll (d : Z) (t : AnomalyTrigger) : AnomalyTrigger := {|
  at_id := at_id t; at_priority := at_priority t; at_pre_roll_ns := at_pre_roll_ns t; at_post_roll_ns := d;
  at_enabled := at_enabled t; at_threshold := at_threshold t |}.

Definition at_set_enabled (b : bool) (t : AnomalyTrigger) : AnomalyTrigger := {|
  at_id := at_id t; at_priority := at_priority t; at_pre_roll_ns := at_pre_roll_ns t; at_post_roll_ns := at_post_roll_ns t;
  at_enabled := b; at_threshold := at_threshold t |}.

Definition AnomalyTrigger_new (id : TriggerId) (threshold : spec_float) : AnomalyTrigger := {|
  at_id := id; at_priority := High; at_pre_roll_ns := 5000000000; at_post_roll_ns := 5000000000;
  at_enabled := true; at_threshold := clamp01 threshold |}.

Definition with_threshold (threshold : spec_float) (t : AnomalyTrigger) : AnomalyTrigger := {|
  at_id := at_id t; at_priority := at_priority t; at_pre_roll_ns := at_pre_roll_ns t; at_post_roll_ns := at_post_roll_ns t;
  at_enabled := at_enabled t; at_threshold := clamp01 threshold |}.

Definition at_evaluate (c : TriggerContext) (t : AnomalyTrigger) : option TriggerEvent * AnomalyTrigger :=
  (if SFleb (at_threshold t) (anomaly_score c) then
     Some (with_metadata "threshold" (show_f32 (at_threshold t))
       (with_metadata "anomaly_score" (show_f32 (anomaly_score c))
         (with_post_roll (at_post_roll_ns t) (with_pre_roll (at_pre_roll_ns t) (with_priority (at_priority t)
           (TriggerEvent_new (at_id t) Anomaly (now_ns c)
             ("Anomaly detected: score " +:+ show_three_decimals (anomaly_score c) +:+
              " >= threshold " +:+ show_three_decimals (at_threshold t))))))))
   else None, t).

#[export] Instance AnomalyTrigger_trigger : Trigger AnomalyTrigger := {
  id_of := at_id; type_of _ := Anomaly; priority_of := at_priority; evaluate := at_evaluate;
  reset t := t; is_enabled := at_enabled; set_enabled := at_set_enabled;
  config_metadata t := rolls_metadata (at_pre_roll_ns t) (at_post_roll_ns t)
    (<["threshold" := show_f32 (at_threshold t)]> ∅) }.

Inductive Comparison : Type :=
  GreaterThan | GreaterThanOrEqual | LessThan | LessThanOrEqual | Equal.

(** [f64::EPSILON]: 2 to the power -52. *)
Definition f64_epsilon : spec_float := S754_finite false 4503599627370496 (-104).

Definition compare (k : Comparison) (value threshold : spec_float) : bool :=
  match k with
  | GreaterThan => SFltb threshold value
  | GreaterThanOrEqual => SFleb threshold value
  | LessThan => SFltb value threshold
  | LessThanOrEqual => SFleb value threshold
  | Equal => SFltb (SFabs (SFsub 53 1024 value threshold)) f64_epsilon
  end.

Definition Comparison_as_str (k : Comparison) : string :=
  match k with
  | GreaterThan => ">" | GreaterThanOrEqual => ">=" | LessThan => "<"
  | LessThanOrEqual => "<=" | Equal => "=="
  end.

(** [SignalThresholdTrigger]: fires while a signal stands in the comparison. *)
Record SignalThresholdTrigger : Type := {
  st_id : TriggerId; st_priority : TriggerPriority; st_pre_roll_ns : Z; st_post_roll_ns : Z;
  st_enabled : bool; st_signal_name : string; st_threshold : spec_float; st_comparison : Comparison }.

Definition st_with_priority (p : TriggerPriority) (t : SignalThresholdTrigger) : SignalThresholdTrigger := {|
  st_id := st_id t; st_priority := p; st_pre_roll_ns := st_pre_roll_ns t; st_post_roll_ns := st_post_roll_ns t;
  st_enabled := st_enabled t; st_signal_name := st_signal_name t; st_threshold := st_threshold t; st_comparison := st_comparison t |}.

Definition st_with_pre_roll (d : Z) (t : SignalThresholdTrigger) : SignalThresholdTrigger := {|
  st_id := st_id t; st_priority := st_priority t; st_pre_roll_ns := d; st_post_roll_ns := st_post_roll_ns t;
  st_enabled := st_enabled t; st_signal_name := st_signal_name t; st_threshold := st_threshold t; st_comparison := st_comparison t |}.

Definition st_with_post_roll (d : Z) (t : SignalThresholdTrigger) : SignalThresholdTrigger := {|
  st_id := st_id t; st_priority := st_priority t; st_pre_roll_ns := st_pre_roll_ns t; st_post_roll_ns := d;
  st_enabled := st_enabled t; st_signal_name := st_signal_name t; st_threshold := st_threshold t; st_comparison := st_comparison t |}.

Definition st_set_enabled (b : bool) (t : SignalThresholdTrigger) : SignalThresholdTrigger := {|
  st_id := st_id t; st_priority := st_priority t; st_pre_roll_ns := st_pre_roll_ns t; st_post_roll_ns := st_post_roll_ns t;
  st_enabled := b; st_signal_name := st_signal_name t; st_threshold := st_threshold t; st_comparison := st_comparison t |}.

Definition SignalThresholdTrigger_new (id : TriggerId) (signal : string) (k : Comparison)
    (threshold : spec_float) : SignalThresholdTrigger := {|
  st_id := id; st_priority := Normal; st_pre_roll_ns := 5000000000; st_post_roll_ns := 5000000000;
  st_enabled := true; st_signal_name := signal; st_threshold := threshold; st_comparison := k |}.

Definition st_event (c : TriggerContext) (t : SignalThresholdTrigger) (value : spec_float) : TriggerEvent :=
  with_metadata "threshold" (show_f64 (st_threshold t))
    (with_metadata "signal_value" (show_f64 value) (with_metadata "signal_name" (st_signal_name t)
      (with_post_roll (st_post_roll_ns t) (with_pre_roll (st_pre_roll_ns t) (with_priority (st_priority t)
        (TriggerEvent_new (st_id t) Custom (now_ns c)
          ("Signal '" +:+ st_signal_name t +:+ "' " +:+ Comparison_as_str (st_comparison t) +:+ " " +:+
           show_f64 (st_threshold t) +:+ " (value: " +:+ show_f64 value +:+ ")"))))))).

Definition st_evaluate (c : TriggerContext) (t : SignalThresholdTrigger) :
    option TriggerEvent * SignalThresholdTrigger :=
  (match signals c !! st_signal_name t with
   | Some value => if compare (st_comparison t) value (st_threshold t) then Some (st_event c t value) else None
   | None => None
   end, t).

#[export] Instance SignalThresholdTrigger_trigger : Trigger SignalThresholdTrigger := {
  id_of := st_id; type_of _ := Custom; priority_of := st_priority; evaluate := st_evaluate;
  reset t := t; is_enabled := st_enabled; set_enabled := st_set_enabled;
  config_metadata t := <["comparison" := Comparison_as_str (st_comparison t)]>
    (<["threshold" := show_f64 (st_threshold t)]> (<["signal_name" := st_signal_name t]> ∅)) }.

(** [Arc<dyn Trigger>]: one of them. *)
Inductive AnyTrigger : Type :=
| ATeleop (t : TeleopTrigger) | AFailure (t : FailureTrigger) | AAnomaly (t : AnomalyTrigger)
| APeriodic (t : PeriodicTrigger) | AManual (t : ManualTrigger) | ASignal (t : SignalThresholdTrigger).

Definition any_evaluate (c : TriggerContext) (a : AnyTrigger) : option TriggerEvent * AnyTrigger :=
  match a with
  | ATeleop t => ((evaluate c t).1, ATeleop (evaluate c t).2)
  | AFailure t => ((evaluate c t).1, AFailure (evaluate c t).2)
  | AAnomaly t => ((evaluate c t).1, AAnomaly (evaluate c t).2)
  | APeriodic t => ((evaluate c t).1, APeriodic (evaluate c t).2)
  | AManual t => ((evaluate c t).1, AManual (evaluate c t).2)
  | ASignal t => ((evaluate c t).1, ASignal (evaluate c t).2)
  end.

(** A method that looks at the trigger, and one that changes it. *)
Definition any_get {B} (f : forall T, Trigger T -> T -> B) (a : AnyTrigger) : B :=
  match a with
  | ATeleop t => f _ _ t | AFailure t => f _ _ t | AAnomaly t => f _ _ t
  | APeriodic t => f _ _ t | AManual t => f _ _ t | ASignal t => f _ _ t
  end.

Definition any_map (f : forall T, Trigger T -> T -> T) (a : AnyTrigger) : AnyTrigger :=
  match a with
  | ATeleop t => ATeleop (f _ _ t) | AFailure t => AFailure (f _ _ t) | AAnomaly t => AAnomaly (f _ _ t)
  | APeriodic t => APeriodic (f _ _ t) | AManual t => AManual (f _ _ t) | ASignal t => ASignal (f _ _ t)
  end.

#[export] Instance AnyTrigger_trigger : Trigger AnyTrigger := {
  id_of := any_get (@id_of); type_of := any_get (@type_of); priority_of := any_get (@priority_of);
  evaluate := any_evaluate; reset := any_map (@reset); is_enabled := any_get (@is_enabled);
  set_enabled b := any_map (fun T H => @set_enabled T H b); config_metadata := any_get (@config_metadata) }.

(** *** They keep the promises of the trait *)

Ltac trigger_laws :=
  split; [ intros c t | intros c t e | intros t | intros b t ]; cbn;
  unfold tt_evaluate, ft_evaluate, at_evaluate, pt_evaluate, mt_evaluate, st_evaluate, any_evaluate;
  repeat case_match; cbn; try intros [= <-]; try done.

#[export] Instance TeleopTrigger_laws : TriggerLaws TeleopTrigger.
Proof. trigger_laws. Qed.
#[export] Instance FailureTrigger_laws : TriggerLaws FailureTrigger.
Proof. trigger_laws. Qed.
#[export] Instance AnomalyTrigger_laws : TriggerLaws AnomalyTrigger.
Proof. trigger_laws. Qed.
#[export] Instance PeriodicTrigger_laws : TriggerLaws PeriodicTrigger.
Proof. trigger_laws. Qed.
#[export] Instance ManualTrigger_laws : TriggerLaws ManualTrigger.
Proof. trigger_laws. Qed.
#[export] Instance SignalThresholdTrigger_laws : TriggerLaws SignalThresholdTrigger.
Proof. trigger_laws. Qed.

#[export] Instance AnyTrigger_laws : TriggerLaws AnyTrigger.
Proof.
  split; [intros c [t|t|t|t|t|t]|intros c [t|t|t|t|t|t] e|intros [t|t|t|t|t|t]|intros b [t|t|t|t|t|t]]; cbn [any_evaluate any_get any_map id_of type_of priority_of evaluate reset is_enabled set_enabled AnyTrigger_trigger fst snd].
  1-6: apply evaluate_keeps. 1-6: apply evaluate_own. 1-6: apply reset_keeps. all: apply set_enabled_keeps.
Qed.

(** A teleop trigger is not evaluated during its cooldown, so
    it does not see that teleoperation stops: a demonstration that starts
    later, even after the cooldown, is not captured. *)
Theorem teleop_restart_missed order_off order_on c_off c_on m h id r t :
  registry_ok m h -> triggers m !! id = Some r -> h !! r = Some (ATeleop t) -> tt_was_active t = true ->
  cooling m (now_ns c_off) id = true -> is_teleop_active c_off = false ->
  cooling m (now_ns c_on) id = false -> is_teleop_active c_on = true ->
  order_off ≡ₚ map_to_list (triggers m) -> order_on ≡ₚ map_to_list (triggers m) ->
  let h' := (manager_evaluate order_off c_off m h).2 in
  forall e, e ∈ (manager_evaluate order_on c_on m h').1 -> trigger_id e <> id.
Proof.
  intros Hok Hr Et Hw Hc _ _ Ha Hpo Hpn h' e He Hid.
  assert (Et' : h' !! r = Some (ATeleop t)).
  { destruct (mgr_enabled m) eqn:Em; unfold h'.
    - rewrite (manager_evaluate_enabled order_off c_off m h) by done. simpl.
      rewrite (settle_all_entry m c_off order_off h id r);
        [|by apply (registry_refs m h)|by apply (order_entry m order_off)].
      rewrite Et. simpl. unfold settle, due. by rewrite Hc, andb_false_r.
    - unfold manager_evaluate. by rewrite Em. }
  assert (Hok' : registry_ok m h') by by apply manager_evaluate_ok.
  destruct (manager_event order_on c_on m h' e Hok' Hpn He) as (id' & r' & a & Hr' & Ea & Hid' & _ & Ev).
  destruct (evaluate_own c_on a e Ev) as (Hie & _). assert (id' = id) as -> by congruence.
  rewrite Hr in Hr'. injection Hr' as <-. rewrite Et' in Ea. injection Ea as <-.
  cbn in Ev. by rewrite Hw, Ha in Ev.
Qed.
End WithText.

(** ** Triggers over time *)

(** A teleop trigger that sees every context fires
    exactly when teleoperation is on and was off (or unknown) before. *)
Theorem teleop_rising_edges id cs i :
  (exists e, watch cs (TeleopTrigger_new id) !! i = Some (Some e)) <->
  (exists c, cs !! i = Some c /\ is_teleop_active c = true) /\
  (forall j c, i = S j -> cs !! j = Some c -> is_teleop_active c = false).
Proof.
  rewrite watch_lookup.
  assert (Hw : tt_was_active (after (take i cs) (TeleopTrigger_new id)) =
    match i with O => false | S j => match cs !! j with Some c => is_teleop_active c | None => tt_was_active (after cs (TeleopTrigger_new id)) end end).
  { destruct i as [|j]; [done|]. destruct (cs !! j) as [c|] eqn:E.
    - by rewrite (after_take_S _ _ _ _ E).
    - apply lookup_ge_None in E. by rewrite firstn_all2 by lia. }
  split.
  - intros (e & E). destruct (cs !! i) as [c|] eqn:Ec; [|done]. simpl in E. injection E as E.
    unfold tt_evaluate in E. simpl in E. rewrite Hw in E. destruct (is_teleop_active c) eqn:Ea; [|done]. split; [eauto|].
    intros j c' -> Ej. rewrite Ej in E. by destruct (is_teleop_active c').
  - intros ((c & Ec & Ea) & Hp). rewrite Ec. simpl. unfold tt_evaluate. simpl. rewrite Hw, Ea. destruct i as [|j]; [eauto|].
    destruct (cs !! j) as [c'|] eqn:Ej; [|by apply lookup_ge_None in Ej; apply lookup_lt_Some in Ec; lia].
    rewrite (Hp j c' eq_refl Ej). eauto.
Qed.

(** The trigger [t] fires at the [i]-th context. *)
Definition fired_at {T} `{Trigger T} (cs : list TriggerContext) (t : T) (i : nat) : Prop :=
  exists e, watch cs t !! i = Some (Some e).

Lemma fired_at_evaluate {T} `{Trigger T} cs (t : T) i :
  fired_at cs t i <-> exists c e, cs !! i = Some c /\ (evaluate c (after (take i cs) t)).1 = Some e.
Proof.
  unfold fired_at. rewrite watch_lookup. split.
  - intros (e & E). destruct (cs !! i) as [c|]; [|done]. injection E as E. eauto.
  - intros (c & e & -> & E). exists e. simpl. by rewrite E.
Qed.

Lemma pt_evaluate_fires c t : is_some (pt_evaluate c t).1 = pt_should_fire c t.
Proof. unfold pt_evaluate. by destruct (pt_should_fire c t). Qed.

Lemma fired_at_periodic cs (t : PeriodicTrigger) i c :
  cs !! i = Some c -> fired_at cs t i <-> pt_should_fire c (after (take i cs) t) = true.
Proof.
  intros Ec. rewrite fired_at_evaluate, <- pt_evaluate_fires. split.
  - intros (c' & e & Ec' & E). simplify_eq. cbn in E. by rewrite E.
  - intros E. destruct (pt_evaluate c (after (take i cs) t)).1 as [e|] eqn:Ee; [|done]. by exists c, e.
Qed.

(** The memory of a periodic trigger: untouched until it fires, then the time
    of the latest context it fired at. *)
Lemma periodic_memory cs t i :
  pt_interval_ns (after (take i cs) t) = pt_interval_ns t /\
  (pt_last_fire_ns (after (take i cs) t) = pt_last_fire_ns t /\ (forall k, (k < i)%nat -> ~ fired_at cs t k) \/
   exists k c, (k < i)%nat /\ cs !! k = Some c /\ fired_at cs t k /\
     pt_last_fire_ns (after (take i cs) t) = now_ns c /\ (forall k', (k < k' < i)%nat -> ~ fired_at cs t k')).
Proof.
  induction i as [|i (IHi & IH)]; [split; [done|]; left; split; [done|lia]|].
  destruct (cs !! i) as [c|] eqn:Ec.
  - rewrite (after_take_S _ _ _ _ Ec). pose proof (fired_at_periodic cs t i c Ec) as Hf.
    cbn [evaluate PeriodicTrigger_trigger]. unfold pt_evaluate. destruct (pt_should_fire c (after (take i cs) t)) eqn:Es; simpl.
    + split; [done|]. right. exists i, c. split; [lia|]. split; [done|]. split; [by apply Hf|]. split; [done|lia].
    + assert (Hn : ~ fired_at cs t i) by (rewrite Hf; done). split; [done|]. destruct IH as [(IH & Hk)|(k & c' & Hk & Ek & Hfk & IH & Hl)].
      * left. split; [done|]. intros k Hlt. destruct (decide (k = i)) as [->|]; [done|]. apply Hk. lia.
      * right. exists k, c'. repeat split; try done; [lia|]. intros k' Hk'. destruct (decide (k' = i)) as [->|]; [done|]. apply Hl. lia.
  - apply lookup_ge_None in Ec. rewrite take_ge by lia. rewrite take_ge in IHi, IH by lia. split; [done|].
    assert (Hn : ~ fired_at cs t i).
    { intros (e & E). rewrite watch_lookup, lookup_ge_None_2 in E by lia. done. }
    destruct IH as [(IH & Hk)|(k & c' & Hk & Ek & Hfk & IH & Hl)].
    * left. split; [done|]. intros k Hlt. destruct (decide (k = i)) as [->|]; [done|]. apply Hk. lia.
    * right. exists k, c'. repeat split; try done; [lia|]. intros k' Hk'. destruct (decide (k' = i)) as [->|]; [done|]. apply Hl. lia.
Qed.

(** The sums of times of the contexts fit 64 bits. *)
Definition times_fit (d : Z) (cs : list TriggerContext) : Prop :=
  Forall (fun c => 0 <= now_ns c < u64_max /\ 0 <= now_ns c + d <= u64_max) cs.

Definition ordered_times (cs : list TriggerContext) : Prop :=
  forall i j ci cj, (i <= j)%nat -> cs !! i = Some ci -> cs !! j = Some cj -> now_ns ci <= now_ns cj.

(** When a periodic trigger fires at [j], in terms of the latest fire before. *)
Lemma periodic_decision cs t j cj :
  pt_last_fire_ns t = u64_max -> times_fit (pt_interval_ns t) cs -> cs !! j = Some cj ->
  ((forall k, (k < j)%nat -> ~ fired_at cs t k) /\ fired_at cs t j) \/
  (exists k ck, (k < j)%nat /\ cs !! k = Some ck /\ fired_at cs t k /\
    (forall k', (k < k' < j)%nat -> ~ fired_at cs t k') /\
    (fired_at cs t j <-> now_ns ck + pt_interval_ns t <= now_ns cj)).
Proof.
  intros Hm Hfit Ej. pose proof (fired_at_periodic cs t j cj Ej) as Hj. unfold pt_should_fire in Hj.
  destruct (periodic_memory cs t j) as (Hi & [(Hl & Hk)|(k & c & Hlt & Ek & Hf & Hl & Hk)]); rewrite Hi, Hl in Hj.
  - left. split; [done|]. apply Hj. by rewrite Hm, Z.eqb_refl.
  - right. exists k, c. do 4 (split; [done|]). unfold times_fit in Hfit. rewrite Forall_lookup in Hfit.
    destruct (Hfit _ _ Ek) as (Hb & Hs). destruct (now_ns c =? u64_max) eqn:E; [reflect_bools; lia|].
    rewrite wrap_add_small, Z.leb_le in Hj by done. exact Hj.
Qed.

(** A periodic trigger that sees contexts whose times do not go
    back fires at the first, never twice within its interval, and leaves no
    gap: between a context and one at least an interval later it fires. *)
Theorem periodic_exact id interval cs :
  0 <= interval -> times_fit interval cs -> ordered_times cs ->
  let t := PeriodicTrigger_new id interval in
  (forall c, cs !! 0%nat = Some c -> fired_at cs t 0) /\
  (forall i j ci cj, (i < j)%nat -> cs !! i = Some ci -> cs !! j = Some cj ->
     fired_at cs t i -> fired_at cs t j -> now_ns ci + interval <= now_ns cj) /\
  (forall i j ci cj, (i < j)%nat -> cs !! i = Some ci -> cs !! j = Some cj ->
     now_ns ci + interval <= now_ns cj -> exists k, (i < k <= j)%nat /\ fired_at cs t k).
Proof.
  intros H0 Hfit Hord t. split; [|split].
  - intros c Ec. destruct (periodic_decision cs t 0 c eq_refl Hfit Ec) as [(_ & Hf)|(k & ck & Hk & _)]; [done|lia].
  - intros i j ci cj Hij Ei Ej Hi Hj.
    destruct (periodic_decision cs t j cj eq_refl Hfit Ej) as [(Hn & _)|(k & ck & Hk & Ek & Hf & Hl & Hd)]; [by destruct (Hn i)|].
    apply Hd in Hj. change (pt_interval_ns t) with interval in Hj.
    destruct (decide (k < i)%nat); [by destruct (Hl i)|]. specialize (Hord i k ci ck ltac:(lia) Ei Ek). lia.
  - intros i j ci cj Hij Ei Ej Hd.
    destruct (periodic_decision cs t j cj eq_refl Hfit Ej) as [(Hn & Hf)|(k & ck & Hk & Ek & Hf & Hl & Hc)]; [exists j; split; [lia|done]|].
    destruct (decide (i < k)%nat) as [Hik|Hik]; [exists k; split; [lia|done]|]. exists j. split; [lia|]. apply Hc.
    change (pt_interval_ns t) with interval. specialize (Hord k i ck ci ltac:(lia) Ek Ei). lia.
Qed.

(** What can be asked of a manual trigger. *)
Inductive ManualOp : Type :=
| MRequest (why : string) | MCancel | MReset | MEnable (b : bool) | MEvaluate (c : TriggerContext).

Definition manual_op (o : ManualOp) (t : ManualTrigger) : option TriggerEvent * ManualTrigger :=
  match o with
  | MRequest why => (None, request why t)
  | MCancel => (None, cancel t)
  | MReset => (None, reset t)
  | MEnable b => (None, set_enabled b t)
  | MEvaluate c => evaluate c t
  end.

(** The specification: a box for one reason. *)
Definition mailbox_op (o : ManualOp) (box : option string) : option string * option string :=
  match o with
  | MRequest why => (None, Some why)
  | MCancel | MReset => (None, None)
  | MEnable _ => (None, box)
  | MEvaluate _ => (box, None)
  end.

(** The outputs of a sequence of operations. *)
Fixpoint outputs {S A} (op : ManualOp -> S -> option A * S) (os : list ManualOp) (s : S) : list (option A) :=
  match os with [] => [] | o :: os => (op o s).1 :: outputs op os (op o s).2 end.

(** The trigger holds what the box holds. *)
Definition mailbox_of (t : ManualTrigger) (box : option string) : Prop :=
  mt_pending t = is_some box /\ mt_pending_reason t = box.

Lemma manual_op_mailbox o t box :
  mailbox_of t box ->
  reason <$> (manual_op o t).1 = (mailbox_op o box).1 /\ mailbox_of (manual_op o t).2 (mailbox_op o box).2.
Proof.
  intros (Hp & Hr). destruct o as [why| | |b|c]; simpl; try done.
  unfold mt_evaluate. rewrite Hp. unfold mailbox_of. destruct box as [w|]; simpl; rewrite ?Hr; done.
Qed.

(** Under any sequence of requests, cancellations, resets and
    evaluations a manual trigger is a box for one reason: an evaluation takes
    the latest request that was not cancelled, once, with its reason. *)
Theorem manual_mailbox id os :
  map (fmap reason) (outputs manual_op os (ManualTrigger_new id)) = outputs mailbox_op os None.
Proof.
  assert (Hm : mailbox_of (ManualTrigger_new id) None) by done. revert Hm.
  generalize (ManualTrigger_new id), (@None string).
  induction os as [|o os IH]; intros t box Hm; simpl; [done|].
  destruct (manual_op_mailbox o t box Hm) as (-> & Hm'). by rewrite (IH _ _ Hm').
Qed.

(** ** Witnesses *)

Definition no_text : spec_float -> string := fun _ => "".

(** A manager with one teleop trigger, its cooldown the default second. *)
Definition teleop_manager : TriggerManager :=
  set_triggers {["demo" := 0%nat]} TriggerManager_new.
Definition teleop_heap : gmap nat AnyTrigger := {[0%nat := ATeleop (TeleopTrigger_new "demo")]}.
Definition on_at (ts : Z) : TriggerContext := with_teleop true (TriggerContext_new ts).
Definition off_at (ts : Z) : TriggerContext := with_teleop false (TriggerContext_new ts).

Definition any_no_text : Trigger AnyTrigger := AnyTrigger_trigger no_text no_text no_text.
#[local] Existing Instance any_no_text.
Definition any_no_text_laws : TriggerLaws AnyTrigger := AnyTrigger_laws no_text no_text no_text.
#[local] Existing Instance any_no_text_laws.

Lemma teleop_registry (t : TeleopTrigger) (l : gmap string Z) :
  tt_id t = "demo" -> registry_ok (set_times l teleop_manager) {[0%nat := ATeleop t]}.
Proof.
  intros E id r. simpl. rewrite lookup_singleton_Some. intros (<- & <-). exists (ATeleop t).
  split; [done|exact E].
Qed.

Definition demo_order : list (string * nat) := [("demo", 0%nat)].

Lemma demo_order_ok : demo_order ≡ₚ map_to_list (triggers teleop_manager).
Proof. done. Qed.


(** The state after processing a context, and its events. *)
Definition process (c : TriggerContext) (s : TriggerManager * gmap nat AnyTrigger) :
    TriggerManager * gmap nat AnyTrigger :=
  (record_trigger_fired (manager_evaluate demo_order c s.1 s.2).1 s.1, (manager_evaluate demo_order c s.1 s.2).2).
Definition process_events (c : TriggerContext) (s : TriggerManager * gmap nat AnyTrigger) : list TriggerEvent :=
  (manager_evaluate demo_order c s.1 s.2).1.

Lemma process_step c s : triggers s.1 = triggers teleop_manager -> manager_step s (process_events c s) (process c s).
Proof. intros E. destruct s as [m h]. apply step_process. simpl in E. simpl. by rewrite E. Qed.

Lemma cooldown_spacing_witness :
  let s0 := (teleop_manager, teleop_heap) in
  let s1 := process (on_at 0) s0 in
  let s2 := process (off_at 1500000000) s1 in
  match process_events (on_at 0) s0, process_events (on_at 2000000000) s2 with
  | [e1], [e2] => timestamp_ns e1 + 1000000000 <= timestamp_ns e2
  | _, _ => False
  end.
Proof.
  intros s0 s1 s2.
  destruct (process_events (on_at 0) s0) as [|e1 [|]] eqn:E1; [by vm_compute in E1| |by vm_compute in E1].
  destruct (process_events (on_at 2000000000) s2) as [|e2 [|]] eqn:E2; [by vm_compute in E2| |by vm_compute in E2].
  apply (cooldown_spacing s0 [] (process_events (on_at 0) s0) [process_events (off_at 1500000000) s1]
    (process_events (on_at 2000000000) s2) [] (process (on_at 2000000000) s2) e1 e2).
  - by apply (teleop_registry (TeleopTrigger_new "demo") ∅).
  - by vm_compute.
  - do 3 (eapply run_cons; [by apply process_step|]). constructor.
  - rewrite E1. apply Forall_forall. intros l Hl. apply Forall_forall. intros e He.
    vm_compute in E1. injection E1 as <-.
    apply elem_of_cons in Hl as [->|Hl]; [apply list_elem_of_singleton in He as ->; by vm_compute|].
    apply list_elem_of_singleton in Hl as ->. vm_compute in He. by apply elem_of_nil in He.
  - rewrite E1. by left.
  - rewrite E2. by left.
  - vm_compute in E1, E2. injection E1 as <-. by injection E2 as <-.
Defined.

Lemma teleop_restart_missed_witness :
  let s := process (on_at 0) (teleop_manager, teleop_heap) in
  length (process_events (on_at 0) (teleop_manager, teleop_heap)) = 1%nat /\
  forall e, e ∈ process_events (on_at 2000000000) (s.1, (process (off_at 500000000) s).2) -> trigger_id e <> "demo".
Proof.
  intros s. split; [by vm_compute|].
  apply (teleop_restart_missed no_text no_text no_text demo_order demo_order (off_at 500000000) (on_at 2000000000)
    s.1 s.2 "demo" 0%nat (tt_set_was_active true (TeleopTrigger_new "demo"))); try by vm_compute.
  by apply (teleop_registry (tt_set_was_active true (TeleopTrigger_new "demo")) {["demo" := 0]}).
Defined.

Lemma periodic_exact_witness :
  let cs := map TriggerContext_new [0; 4; 10; 15; 20] in
  fired_at cs (PeriodicTrigger_new "p" 10) 0 /\
  exists k, (2 < k <= 4)%nat /\ fired_at cs (PeriodicTrigger_new "p" 10) k.
Proof.
  intros cs.
  assert (Hfit : times_fit 10 cs) by (repeat constructor; by vm_compute).
  assert (Hord : ordered_times cs).
  { intros i j ci cj Hij Ei Ej. unfold cs in *. rewrite list_lookup_fmap in Ei, Ej.
    do 5 (destruct i as [|i]; [do 5 (destruct j as [|j]; [simpl in *; simplify_eq; simpl; lia|]); done|]). done. }
  destruct (periodic_exact "p" 10 cs) as (Hf & _ & Hl); [lia|done|done|].
  split; [by eapply Hf|]. by apply (Hl 2%nat 4%nat (TriggerContext_new 10) (TriggerContext_new 20)); [lia|..].
Defined.
