(* ===== verification/Storage.v ===== *)
(** * Episode storage (omni-plugin/src/robotics/data_collection/storage.rs)

    The index of the recorded episodes and the manager that keeps it, on disk
    and within the limits of its configuration.  The manager is a program over
    the calls it makes to the clock, the file system and the JSON codec, in the
    state and error monad of Effects.v.  The order in which the index is walked
    ([HashMap]) is a reply of the system too. *)

From Stdlib Require Import Ascii Sorting.Sorted.
From S2P Require Import Prelude RustStr F32 Paths Effects SortBy.

Open Scope string_scope.
Open Scope list_scope.
Open Scope Z_scope.

Abbreviation EpisodeId := string (only parsing).

(** Errors of [std::io] and of the codec, by their text. *)
Inductive StorageError : Set :=
| Io (e : string)
| Json (e : string)
| EpisodeNotFound (id : string)
| IndexCorrupted (e : string)
| StorageFull (used_bytes max_bytes : Z)
| InvalidPath (p : string)
| EpisodeExists (id : string).

Inductive CleanupStrategy : Set := OldestFirst | LargestFirst | LowestQualityFirst | UploadedFirst.

Record StorageConfig : Set := {
  root_dir : string; max_storage_bytes : Z; max_episodes : Z; max_age_seconds : Z;
  auto_cleanup : bool; cleanup_strategy : CleanupStrategy; maintain_index : bool; index_file : string }.

(** [StorageConfig::new]; [default] has the root "episodes". *)
Definition StorageConfig_new (root : string) : StorageConfig := {|
  root_dir := root; max_storage_bytes := 0; max_episodes := 0; max_age_seconds := 0;
  auto_cleanup := true; cleanup_strategy := OldestFirst; maintain_index := true;
  index_file := "episode_index.json" |}.
Definition StorageConfig_default : StorageConfig := StorageConfig_new "episodes".

Definition with_max_size (bytes : Z) (c : StorageConfig) : StorageConfig := {|
  root_dir := root_dir c; max_storage_bytes := bytes; max_episodes := max_episodes c;
  max_age_seconds := max_age_seconds c; auto_cleanup := auto_cleanup c;
  cleanup_strategy := cleanup_strategy c; maintain_index := maintain_index c; index_file := index_file c |}.
Definition with_max_episodes (count : Z) (c : StorageConfig) : StorageConfig := {|
  root_dir := root_dir c; max_storage_bytes := max_storage_bytes c; max_episodes := count;
  max_age_seconds := max_age_seconds c; auto_cleanup := auto_cleanup c;
  cleanup_strategy := cleanup_strategy c; maintain_index := maintain_index c; index_file := index_file c |}.
Definition with_max_age (seconds : Z) (c : StorageConfig) : StorageConfig := {|
  root_dir := root_dir c; max_storage_bytes := max_storage_bytes c; max_episodes := max_episodes c;
  max_age_seconds := seconds; auto_cleanup := auto_cleanup c;
  cleanup_strategy := cleanup_strategy c; maintain_index := maintain_index c; index_file := index_file c |}.
Definition with_cleanup_strategy (s : CleanupStrategy) (c : StorageConfig) : StorageConfig := {|
  root_dir := root_dir c; max_storage_bytes := max_storage_bytes c; max_episodes := max_episodes c;
  max_age_seconds := max_age_seconds c; auto_cleanup := auto_cleanup c;
  cleanup_strategy := s; maintain_index := maintain_index c; index_file := index_file c |}.

Record PackageResult : Set := {
  pr_episode_id : EpisodeId; mcap_path_of : string; metadata_path_of : option string;
  total_samples : Z; samples_per_stream : gmap string Z; pr_duration_ns : Z; file_size_bytes : Z;
  privacy_detections : Z; packaging_time_ms : Z }.

(** The fields of [EpisodeMetadata] the storage reads. *)
Record EpisodeMetadata : Set := {
  md_start_time_ns : Z; md_end_time_ns : Z; md_duration_seconds : spec_float;
  md_robot_id : string; overall_score : spec_float; md_labels : gmap string string }.

Record EpisodeIndexEntry : Set := {
  episode_id : EpisodeId; path : string; mcap_file : string; metadata_file : option string;
  start_time_ns : Z; end_time_ns : Z; duration_seconds : spec_float; size_bytes : Z;
  sample_count : Z; robot_id : string; uploaded : bool; uploaded_at : option Z;
  upload_destination : option string; quality_score : spec_float; created_at : Z;
  labels : gmap string string }.

(** [default_quality]: the number 1 of [f32]. *)
Definition default_quality : spec_float := S754_finite false 8388608 (-23).

(** The time since the epoch as the code reads it: nanoseconds cut to 64 bits,
    0 for a clock before the epoch. *)
Definition epoch_ns (t : Z) : Z := Z.max 0 t `mod` (u64_max + 1).

Definition from_package_result (r : PackageResult) (m : EpisodeMetadata) (root : string) (now : Z)
    : EpisodeIndexEntry := {|
  episode_id := pr_episode_id r;
  path := default (pr_episode_id r) (p ← path_parent (mcap_path_of r); strip_prefix p root);
  mcap_file := default "episode.mcap" (file_name (mcap_path_of r));
  metadata_file := p ← metadata_path_of r; file_name p;
  start_time_ns := md_start_time_ns m; end_time_ns := md_end_time_ns m;
  duration_seconds := md_duration_seconds m; size_bytes := file_size_bytes r;
  sample_count := total_samples r; robot_id := md_robot_id m; uploaded := false; uploaded_at := None;
  upload_destination := None; quality_score := overall_score m; created_at := epoch_ns now;
  labels := md_labels m |}.

Definition mcap_path (e : EpisodeIndexEntry) (root : string) : string :=
  path_join (path_join root (path e)) (mcap_file e).
Definition metadata_path (e : EpisodeIndexEntry) (root : string) : option string :=
  f ← metadata_file e; Some (path_join (path_join root (path e)) f).

Definition entry_mark_uploaded (now : Z) (destination : string) (e : EpisodeIndexEntry) : EpisodeIndexEntry := {|
  episode_id := episode_id e; path := path e; mcap_file := mcap_file e; metadata_file := metadata_file e;
  start_time_ns := start_time_ns e; end_time_ns := end_time_ns e; duration_seconds := duration_seconds e;
  size_bytes := size_bytes e; sample_count := sample_count e; robot_id := robot_id e;
  uploaded := true; uploaded_at := Some (epoch_ns now); upload_destination := Some destination;
  quality_score := quality_score e; created_at := created_at e; labels := labels e |}.

Definition age_seconds (now : Z) (e : EpisodeIndexEntry) : Z :=
  sat_sub (epoch_ns now) (created_at e) / 1000000000.

(** ** The index *)

Record EpisodeIndex : Set := {
  version : string; last_updated : Z; total_size_bytes : Z; episode_count : Z;
  episodes : gmap string EpisodeIndexEntry }.

Definition EpisodeIndex_new : EpisodeIndex := {|
  version := "1.0"; last_updated := 0; total_size_bytes := 0; episode_count := 0; episodes := ∅ |}.

(** [now] is the time [update_timestamp] reads. *)
Definition add (now : Z) (entry : EpisodeIndexEntry) (i : EpisodeIndex) : EpisodeIndex :=
  let eps := <[episode_id entry := entry]> (episodes i) in {|
  version := version i; last_updated := epoch_ns now;
  total_size_bytes := wrap_add u64_max (total_size_bytes i) (size_bytes entry);
  episode_count := Z.of_nat (size eps) `mod` (u32_max + 1); episodes := eps |}.

(** The index without an entry it has. *)
Definition drop_entry (now : Z) (id : string) (entry : EpisodeIndexEntry) (i : EpisodeIndex) : EpisodeIndex :=
  let eps := delete id (episodes i) in {|
  version := version i; last_updated := epoch_ns now;
  total_size_bytes := sat_sub (total_size_bytes i) (size_bytes entry);
  episode_count := Z.of_nat (size eps) `mod` (u32_max + 1); episodes := eps |}.

Definition remove (now : Z) (id : string) (i : EpisodeIndex) : option EpisodeIndexEntry * EpisodeIndex :=
  match episodes i !! id with
  | Some entry => (Some entry, drop_entry now id entry i)
  | None => (None, i)
  end.

Definition index_get (id : string) (i : EpisodeIndex) : option EpisodeIndexEntry := episodes i !! id.

(** [get_mut] followed by a change of the entry. *)
Definition change_entry (id : string) (f : EpisodeIndexEntry -> EpisodeIndexEntry) (i : EpisodeIndex) : EpisodeIndex := {|
  version := version i; last_updated := last_updated i; total_size_bytes := total_size_bytes i;
  episode_count := episode_count i; episodes := alter f id (episodes i) |}.

(** The queries work on the entries in the order the map gives them. *)
Definition older (a b : EpisodeIndexEntry) : bool := created_at a <=? created_at b.
Definition larger (a b : EpisodeIndexEntry) : bool := size_bytes b <=? size_bytes a.
(** [partial_cmp(..).unwrap_or(Equal)]: an incomparable pair counts as equal. *)
Definition worse (a b : EpisodeIndexEntry) : bool := negb (SFltb (quality_score b) (quality_score a)).

Definition sorted_by_age (values : list EpisodeIndexEntry) : list EpisodeIndexEntry := sort_by older values.
Definition sorted_by_size (values : list EpisodeIndexEntry) : list EpisodeIndexEntry := sort_by larger values.
Definition sorted_by_quality (values : list EpisodeIndexEntry) : list EpisodeIndexEntry := sort_by worse values.
Definition uploaded_episodes (values : list EpisodeIndexEntry) : list EpisodeIndexEntry :=
  sort_by older (List.filter uploaded values).
Definition pending_upload (values : list EpisodeIndexEntry) : list EpisodeIndexEntry :=
  List.filter (fun e => negb (uploaded e)) values.
Definition by_robot (id : string) (values : list EpisodeIndexEntry) : list EpisodeIndexEntry :=
  List.filter (fun e => bool_decide (robot_id e = id)) values.
Definition by_label (key value : string) (values : list EpisodeIndexEntry) : list EpisodeIndexEntry :=
  List.filter (fun e => bool_decide (labels e !! key = Some value)) values.
Definition in_time_range (start_ns end_ns : Z) (values : list EpisodeIndexEntry) : list EpisodeIndexEntry :=
  List.filter (fun e => (start_ns <=? start_time_ns e) && (end_time_ns e <=? end_ns)) values.

(** The episode [cleanup_one] chooses. *)
Definition choose (s : CleanupStrategy) (values : list EpisodeIndexEntry) : option EpisodeId :=
  episode_id <$> match s with
  | OldestFirst => head (sorted_by_age values)
  | LargestFirst => head (sorted_by_size values)
  | LowestQualityFirst => head (sorted_by_quality values)
  | UploadedFirst => match head (uploaded_episodes values) with
                     | Some e => Some e
                     | None => head (sorted_by_age values)
                     end
  end.

(** ** The manager *)

(** What [fs::metadata] gives: the length, and the times where the platform has
    them, in nanoseconds from the epoch. *)
Record FileMeta : Set := { fm_len : Z; fm_created : option Z; fm_modified : option Z }.

Inductive StorageCall : Set -> Set :=
| Now : StorageCall Z
| Values (m : gmap string EpisodeIndexEntry) : StorageCall (list EpisodeIndexEntry)
| CreateDirAll (p : string) : StorageCall (result string unit)
| PathExists (p : string) : StorageCall bool
| IsDir (p : string) : StorageCall bool
| OpenFile (p : string) : StorageCall (result string Z)
| CreateFile (p : string) : StorageCall (result string Z)
| ReadIndex (fd : Z) : StorageCall (result string EpisodeIndex)
| WriteIndex (fd : Z) (i : EpisodeIndex) : StorageCall (result string unit)
| ReadMetadata (fd : Z) : StorageCall (result string EpisodeMetadata)
| RemoveDirAll (p : string) : StorageCall (result string unit)
| ReadDir (p : string) : StorageCall (result string (list (result string string)))
| FileMetadata (p : string) : StorageCall (result string FileMeta).

Record StorageManager : Set := { config : StorageConfig; index : EpisodeIndex; index_dirty : bool }.

Definition set_index (i : EpisodeIndex) (m : StorageManager) : StorageManager := {|
  config := config m; index := i; index_dirty := index_dirty m |}.
Definition set_dirty (b : bool) (m : StorageManager) : StorageManager := {|
  config := config m; index := index m; index_dirty := b |}.

Abbreviation StM := (SM StorageCall StorageManager StorageError) (only parsing).

(** The [?] operator on a call of [std::fs] or of the codec. *)
Definition io {A : Set} (c : StorageCall (result string A)) : StM A :=
  r ← call c; match r with Ok a => mret a | Err e => throw (Io e) end.
Definition json {A : Set} (c : StorageCall (result string A)) : StM A :=
  r ← call c; match r with Ok a => mret a | Err e => throw (Json e) end.

(** The entries of the index in the order of the map. *)
Definition values : StM (list EpisodeIndexEntry) :=
  i ← gets index; call (Values (episodes i)).

Definition index_path (c : StorageConfig) : string := path_join (root_dir c) (index_file c).

Definition load_index (c : StorageConfig) : StM EpisodeIndex :=
  if negb (maintain_index c) then mret EpisodeIndex_new
  else
    found ← call (PathExists (index_path c));
    if found : bool then
      fd ← io (OpenFile (index_path c));
      json (ReadIndex fd)
    else mret EpisodeIndex_new.

Definition save_index : StM unit :=
  c ← gets config;
  if negb (maintain_index c) then mret tt
  else
    fd ← io (CreateFile (index_path c));
    i ← gets index;
    _ ← json (WriteIndex fd i);
    modify (set_dirty false).

(** [StorageManager::new], run on a manager that is not there yet. *)
Definition StorageManager_new (c : StorageConfig) : StM unit :=
  _ ← io (CreateDirAll (root_dir c));
  i ← load_index c;
  modify (fun _ => {| config := c; index := i; index_dirty := false |}).

Definition index_mut (f : EpisodeIndex -> EpisodeIndex) (m : StorageManager) : StorageManager :=
  set_index (f (index m)) (set_dirty true m).

Definition full {A} (m : StorageManager) (used : Z) : result StorageError A :=
  Err (StorageFull used (max_storage_bytes (config m))).

Definition check_limits (additional_bytes : Z) (m : StorageManager) : result StorageError unit :=
  let c := config m in
  let new_total := wrap_add u64_max (total_size_bytes (index m)) additional_bytes in
  if (0 <? max_storage_bytes c) && (max_storage_bytes c <? new_total) then full m new_total
  else if (0 <? max_episodes c) && (max_episodes c <=? episode_count (index m))
  then full m (total_size_bytes (index m))
  else Ok tt.

Definition delete_episode (id : string) : StM unit :=
  i ← gets index;
  entry ← or_throw (EpisodeNotFound id) (index_get id i);
  now ← call Now;
  _ ← modify (fun m => set_index (drop_entry now id entry (index m)) m);
  c ← gets config;
  let episode_dir := path_join (root_dir c) (path entry) in
  found ← call (PathExists episode_dir);
  _ ← (if found : bool then io (RemoveDirAll episode_dir) else mret tt);
  _ ← modify (set_dirty true);
  if maintain_index c then save_index else mret tt.

Definition cleanup_one : StM bool :=
  c ← gets config;
  vs ← values;
  match choose (cleanup_strategy c) vs with
  | Some id => _ ← delete_episode id; mret true
  | None => mret false
  end.

(** Each entry's age is read against a clock of its own. *)
Fixpoint expired_ids (max_age : Z) (vs : list EpisodeIndexEntry) : StM (list EpisodeId) :=
  match vs with
  | [] => mret []
  | e :: vs =>
      now ← call Now;
      ids ← expired_ids max_age vs;
      mret (if max_age <? age_seconds now e then episode_id e :: ids else ids)
  end.

Fixpoint delete_all (ids : list EpisodeId) : StM Z :=
  match ids with
  | [] => mret 0
  | id :: ids => _ ← delete_episode id; n ← delete_all ids; mret (n + 1)
  end.

Definition cleanup_expired : StM Z :=
  c ← gets config;
  if max_age_seconds c =? 0 then mret 0
  else
    vs ← values;
    ids ← expired_ids (max_age_seconds c) vs;
    delete_all ids.

(** The two loops of [enforce_limits]; every round deletes an episode. *)
Fixpoint enforce_size (fuel : nat) (additional_bytes : Z) : StM unit :=
  match fuel with
  | O => mret tt
  | S fuel =>
      m ← gets id;
      let new_total := wrap_add u64_max (total_size_bytes (index m)) additional_bytes in
      if negb (0 <? max_storage_bytes (config m)) || (new_total <=? max_storage_bytes (config m)) then mret tt
      else
        more ← cleanup_one;
        if more : bool then enforce_size fuel additional_bytes else lift (full m new_total)
  end.

Fixpoint enforce_count (fuel : nat) : StM unit :=
  match fuel with
  | O => mret tt
  | S fuel =>
      m ← gets id;
      if negb ((0 <? max_episodes (config m)) && (max_episodes (config m) <=? episode_count (index m))) then mret tt
      else
        more ← cleanup_one;
        if more : bool then enforce_count fuel else lift (full m (total_size_bytes (index m)))
  end.

Definition rounds (m : StorageManager) : nat := S (size (episodes (index m))).

Definition enforce_limits (additional_bytes : Z) : StM unit :=
  _ ← cleanup_expired;
  n ← gets rounds;
  _ ← enforce_size n additional_bytes;
  n ← gets rounds;
  enforce_count n.

(** The end of [store_episode], the room being there. *)
Definition add_entry (r : PackageResult) (md : EpisodeMetadata) (c : StorageConfig) : StM EpisodeIndexEntry :=
  now ← call Now;
  let entry := from_package_result r md (root_dir c) now in
  now ← call Now;
  _ ← modify (fun m => set_dirty true (set_index (add now entry (index m)) m));
  _ ← (if maintain_index c then save_index else mret tt);
  mret entry.

Definition store_episode (r : PackageResult) (md : EpisodeMetadata) : StM EpisodeIndexEntry :=
  m ← gets id;
  _ ← guard_m (negb (bool_decide (is_Some (episodes (index m) !! pr_episode_id r)))) (EpisodeExists (pr_episode_id r));
  _ ← (if auto_cleanup (config m) then enforce_limits (file_size_bytes r)
       else lift (check_limits (file_size_bytes r) m));
  add_entry r md (config m).

Definition get_episode (id : string) (m : StorageManager) : option EpisodeIndexEntry := index_get id (index m).

Definition load_episode_metadata (id : string) : StM EpisodeMetadata :=
  m ← gets (fun m => m);
  entry ← or_throw (EpisodeNotFound id) (index_get id (index m));
  p ← or_throw (EpisodeNotFound "Metadata file not available") (metadata_path entry (root_dir (config m)));
  fd ← io (OpenFile p);
  json (ReadMetadata fd).

Definition mark_uploaded (id destination : string) : StM unit :=
  i ← gets index;
  _ ← or_throw (EpisodeNotFound id) (index_get id i);
  now ← call Now;
  _ ← modify (fun m => set_dirty true (set_index (change_entry id (entry_mark_uploaded now destination) (index m)) m));
  c ← gets config;
  if maintain_index c then save_index else mret tt.

Definition flush : StM unit :=
  d ← gets index_dirty;
  if d : bool then save_index else mret tt.

(** [Drop]: the error of the flush is dropped. *)
Definition drop : StM unit := _ ← attempt flush; mret tt.

Definition list_episodes : StM (list EpisodeId) := vs ← values; mret (map episode_id vs).

Record StorageStats : Set := {
  total_episodes : Z; stats_size_bytes : Z; stats_pending : Z; stats_uploaded : Z;
  stats_max_size : Z; stats_max_episodes : Z; usage_percent : spec_float }.

Definition stats : StM StorageStats :=
  m ← gets id;
  vs ← values;
  let pending := Z.of_nat (length (pending_upload vs)) `mod` (u32_max + 1) in
  mret {| total_episodes := episode_count (index m); stats_size_bytes := total_size_bytes (index m);
          stats_pending := pending; stats_uploaded := sat_sub (episode_count (index m)) pending;
          stats_max_size := max_storage_bytes (config m); stats_max_episodes := max_episodes (config m);
          usage_percent := if 0 <? max_storage_bytes (config m)
            then f32_mul (f32_div (f32_of (total_size_bytes (index m))) (f32_of (max_storage_bytes (config m)))) (f32_of 100)
            else S754_zero false |}.

(** ** Rebuilding the index from the directories *)

Definition has_extension (ext p : string) : bool := bool_decide (extension p = Some ext).
Definition is_metadata_file (p : string) : bool :=
  has_extension "json" p && match file_stem p with Some s => ends_with s "_metadata" | None => false end.

(** [filter_map(|e| e.ok())]. *)
Definition oks (l : list (result string string)) : list string := omap ok l.

(** What the metadata file says, or the defaults where it cannot be read. *)
Definition unknown_metadata : EpisodeMetadata := {|
  md_start_time_ns := 0; md_end_time_ns := 0; md_duration_seconds := S754_zero false;
  md_robot_id := "unknown"; overall_score := default_quality; md_labels := ∅ |}.

Definition scan_metadata (dir : string) (file : option string) : StM EpisodeMetadata :=
  match file with
  | None => mret unknown_metadata
  | Some f =>
      let p := path_join dir f in
      found ← call (PathExists p);
      if found : bool then
        r ← call (OpenFile p);
        match r with
        | Err _ => mret unknown_metadata
        | Ok fd => m ← call (ReadMetadata fd); mret (match m with Ok m => m | Err _ => unknown_metadata end)
        end
      else mret unknown_metadata
  end.

(** [metadata(dir)?.created().or_else(|_| metadata(dir)?.modified())], 0 when
    the platform has neither. *)
Definition dir_created_at (dir : string) : StM Z :=
  md ← io (FileMetadata dir);
  match fm_created md with
  | Some t => mret (epoch_ns t)
  | None =>
      r ← call (FileMetadata dir);
      mret (match r with Ok md => default 0 (epoch_ns <$> fm_modified md) | Err _ => 0 end)
  end.

Definition scan_episode_dir (dir : string) : StM (option EpisodeIndexEntry) :=
  es ← io (ReadDir dir);
  match List.filter (has_extension "mcap") (oks es) with
  | [] => mret None
  | mcap :: _ =>
      es ← io (ReadDir dir);
      let metadata_file := p ← head (List.filter is_metadata_file (oks es)); file_name p in
      let id := default "unknown" (file_name dir) in
      size ← io (FileMetadata mcap);
      md ← scan_metadata dir metadata_file;
      c ← gets config;
      created ← dir_created_at dir;
      mret (Some {|
        episode_id := id; path := default id (strip_prefix dir (root_dir c));
        mcap_file := default "episode.mcap" (file_name mcap); metadata_file := metadata_file;
        start_time_ns := md_start_time_ns md; end_time_ns := md_end_time_ns md;
        duration_seconds := md_duration_seconds md; size_bytes := fm_len size; sample_count := 0;
        robot_id := md_robot_id md; uploaded := false; uploaded_at := None; upload_destination := None;
        quality_score := overall_score md; created_at := created; labels := md_labels md |})
  end.

(** The loop over the directory. *)
Fixpoint scan_all (es : list (result string string)) (found : Z) : StM Z :=
  match es with
  | [] => mret found
  | Err e :: _ => throw (Io e)
  | Ok p :: es =>
      d ← call (IsDir p);
      c ← gets config;
      if negb d || bool_decide (file_name p = Some (index_file c)) then scan_all es found
      else
        entry ← scan_episode_dir p;
        match entry with
        | Some e =>
            now ← call Now;
            _ ← modify (fun m => set_index (add now e (index m)) m);
            scan_all es (wrap_add u32_max found 1)
        | None => scan_all es found
        end
  end.

Definition rebuild_index : StM Z :=
  _ ← modify (set_index EpisodeIndex_new);
  c ← gets config;
  es ← io (ReadDir (root_dir c));
  found ← scan_all es 0;
  _ ← modify (set_dirty true);
  _ ← save_index;
  mret found.

(** ** The books of the index *)

(** The bytes of the episodes the index has. *)
Definition bytes_of (m : gmap string EpisodeIndexEntry) : Z := map_fold (fun _ e n => size_bytes e + n) 0 m.

(** Episodes stand under their names, and the totals are the totals. *)
Record accounted (i : EpisodeIndex) : Prop := {
  acc_keyed : forall k e, episodes i !! k = Some e -> episode_id e = k /\ 0 <= size_bytes e;
  acc_bytes : total_size_bytes i = bytes_of (episodes i);
  acc_bytes_max : total_size_bytes i <= u64_max;
  acc_count : episode_count i = Z.of_nat (size (episodes i));
  acc_count_max : episode_count i <= u32_max }.

Lemma bytes_of_insert m k e : m !! k = None -> bytes_of (<[k := e]> m) = size_bytes e + bytes_of m.
Proof. intros Hk. unfold bytes_of. rewrite map_fold_insert_L; [done| |done]. intros. lia. Qed.

Lemma bytes_of_delete m k e : m !! k = Some e -> bytes_of m = size_bytes e + bytes_of (delete k m).
Proof. intros Hk. unfold bytes_of. rewrite (map_fold_delete_L _ _ k e m); [done| |done]. intros. lia. Qed.

Lemma bytes_of_nonneg m : (forall k e, m !! k = Some e -> 0 <= size_bytes e) -> 0 <= bytes_of m.
Proof.
  induction m as [|k e m Hk IH] using map_ind; intros Hp; [done|]. rewrite bytes_of_insert by done.
  pose proof (Hp k e (lookup_insert_eq _ _ _)). assert (0 <= bytes_of m); [|lia].
  apply IH. intros k' e' H'. apply (Hp k'). rewrite lookup_insert_ne; [done|]. intros ->. congruence.
Qed.

Lemma accounted_nonneg i : accounted i -> 0 <= total_size_bytes i.
Proof. intros Ha. rewrite acc_bytes by done. apply bytes_of_nonneg. intros k e H. by apply (acc_keyed i Ha k e). Qed.

Lemma accounted_new : accounted EpisodeIndex_new.
Proof. by split. Qed.

Lemma add_accounted now e i :
  accounted i -> episodes i !! episode_id e = None -> 0 <= size_bytes e ->
  total_size_bytes i + size_bytes e <= u64_max -> episode_count i < u32_max ->
  accounted (add now e i) /\ total_size_bytes (add now e i) = total_size_bytes i + size_bytes e /\
  episode_count (add now e i) = episode_count i + 1.
Proof.
  intros Ha Hn He Hb Hc. pose proof (accounted_nonneg i Ha) as Hp.
  assert (Hb' : wrap_add u64_max (total_size_bytes i) (size_bytes e) = total_size_bytes i + size_bytes e)
    by (apply wrap_add_small; lia).
  assert (Hs : Z.of_nat (size (<[episode_id e := e]> (episodes i))) = episode_count i + 1)
    by (rewrite map_size_insert_None by done; rewrite (acc_count i Ha); lia).
  assert (Hc' : Z.of_nat (size (<[episode_id e := e]> (episodes i))) `mod` (u32_max + 1) = episode_count i + 1)
    by (rewrite Hs; apply Z.mod_small; rewrite (acc_count i Ha) in *; lia).
  unfold add. cbv zeta. rewrite Hb', Hc'. split; [|done]. split; simpl.
  - intros k e'. rewrite lookup_insert_Some. intros [(<- & <-)|(_ & H)]; [done|by apply (acc_keyed i Ha)].
  - rewrite bytes_of_insert by done. rewrite <- (acc_bytes i Ha). lia.
  - done.
  - done.
  - lia.
Qed.

Lemma drop_entry_accounted now k e i :
  accounted i -> episodes i !! k = Some e ->
  accounted (drop_entry now k e i) /\ total_size_bytes (drop_entry now k e i) = total_size_bytes i - size_bytes e /\
  episode_count (drop_entry now k e i) = episode_count i - 1.
Proof.
  intros Ha Hk. pose proof (bytes_of_delete _ _ _ Hk) as Hb. rewrite <- (acc_bytes i Ha) in Hb.
  assert (Hnn : 0 <= bytes_of (delete k (episodes i))).
  { apply bytes_of_nonneg. intros k' e'. rewrite lookup_delete_Some. intros (_ & H). by apply (acc_keyed i Ha k'). }
  destruct (acc_keyed i Ha k e Hk) as (_ & He).
  assert (Hsz : size (episodes i) <> 0%nat) by (intros E; apply map_size_empty_iff in E; rewrite E in Hk; done).
  assert (Hb' : sat_sub (total_size_bytes i) (size_bytes e) = total_size_bytes i - size_bytes e) by (unfold sat_sub; lia).
  assert (Hs : Z.of_nat (size (delete k (episodes i))) = episode_count i - 1)
    by (rewrite map_size_delete_Some by eauto; rewrite (acc_count i Ha); lia).
  pose proof (acc_count_max i Ha) as Hm. pose proof (acc_bytes_max i Ha) as Hm64.
  assert (Hc' : Z.of_nat (size (delete k (episodes i))) `mod` (u32_max + 1) = episode_count i - 1)
    by (rewrite Hs; apply Z.mod_small; lia).
  unfold drop_entry. cbv zeta. rewrite Hb', Hc'. split; [|done]. split; simpl.
  - intros k' e'. rewrite lookup_delete_Some. intros (_ & H). by apply (acc_keyed i Ha).
  - lia.
  - lia.
  - lia.
  - lia.
Qed.

Lemma change_entry_accounted k f i :
  (forall e, episode_id (f e) = episode_id e /\ size_bytes (f e) = size_bytes e) ->
  accounted i -> accounted (change_entry k f i).
Proof.
  intros Hf Ha. split; simpl; [| |by apply Ha| |by apply Ha].
  - intros k' e'. rewrite lookup_alter_Some. intros [(<- & e & H & ->)|(_ & H)]; [|by apply (acc_keyed i Ha)].
    destruct (Hf e) as (-> & ->). by apply (acc_keyed i Ha).
  - rewrite (acc_bytes i Ha). destruct (episodes i !! k) as [e|] eqn:E; [|by rewrite alter_id by (intros x; by rewrite E)].
    rewrite (bytes_of_delete _ _ _ E), (bytes_of_delete (alter f k (episodes i)) k (f e)) by (by rewrite lookup_alter_eq, E).
    destruct (Hf e) as (_ & ->). do 2 f_equal. apply map_eq. intros j. destruct (decide (j = k)) as [->|].
    + by rewrite !lookup_delete_eq.
    + by rewrite !lookup_delete_ne, lookup_alter_ne by done.
  - rewrite (acc_count i Ha). f_equal. destruct (episodes i !! k) as [e|] eqn:E; [|by rewrite alter_id by (intros x; by rewrite E)].
    replace (alter f k (episodes i)) with (<[k := f e]> (episodes i)); [by rewrite map_size_insert_Some by eauto|].
    rewrite <- (insert_id _ _ _ E) at 2. by rewrite alter_insert_eq.
Qed.

(** ** What the cleanup deletes *)

(** The episode [id] is one the strategy may delete from [m]. *)
Definition chosen (s : CleanupStrategy) (id : string) (m : gmap string EpisodeIndexEntry) : Prop :=
  exists e, m !! id = Some e /\
  match s with
  | OldestFirst => forall k e', m !! k = Some e' -> created_at e <= created_at e'
  | LargestFirst => forall k e', m !! k = Some e' -> size_bytes e' <= size_bytes e
  | LowestQualityFirst => True
  | UploadedFirst =>
      (forall k e', m !! k = Some e' -> uploaded e' = true -> uploaded e = true /\ created_at e <= created_at e') /\
      (uploaded e = false -> forall k e', m !! k = Some e' -> created_at e <= created_at e')
  end.

(** Deletions one after the other, each chosen from what is left. *)
Inductive pruned (s : CleanupStrategy) : gmap string EpisodeIndexEntry -> gmap string EpisodeIndexEntry -> Prop :=
| pruned_refl m : pruned s m m
| pruned_step id m m' : chosen s id m -> pruned s (delete id m) m' -> pruned s m m'.

Lemma pruned_subseteq s m m' : pruned s m m' -> m' ⊆ m.
Proof. induction 1 as [|id m m' _ _ IH]; [done|]. etransitivity; [exact IH|]. apply delete_subseteq. Qed.

Lemma pruned_trans s m1 m2 m3 : pruned s m1 m2 -> pruned s m2 m3 -> pruned s m1 m3.
Proof. induction 1; [done|]. intros H'. eapply pruned_step; eauto. Qed.

Lemma entry_older_refl x : older x x = true.
Proof. apply Z.leb_refl. Qed.
Lemma entry_older_total x y : older x y = false -> older y x = true.
Proof. unfold older. intros. reflect_bools. apply Z.leb_le. lia. Qed.
Lemma entry_older_trans x y z : older x y = true -> older y z = true -> older x z = true.
Proof. unfold older. intros. reflect_bools. apply Z.leb_le. lia. Qed.
Lemma larger_refl x : larger x x = true.
Proof. apply Z.leb_refl. Qed.
Lemma larger_total x y : larger x y = false -> larger y x = true.
Proof. unfold larger. intros. reflect_bools. apply Z.leb_le. lia. Qed.
Lemma larger_trans x y z : larger x y = true -> larger y z = true -> larger x z = true.
Proof. unfold larger. intros. reflect_bools. apply Z.leb_le. lia. Qed.

Lemma values_in (m : gmap string EpisodeIndexEntry) vs e : vs ≡ₚ (map_to_list m).*2 -> e ∈ vs <-> exists k, m !! k = Some e.
Proof.
  intros ->. rewrite list_elem_of_fmap. split.
  - intros ([k e'] & -> & H). apply elem_of_map_to_list in H. eauto.
  - intros (k & H). exists (k, e). split; [done|]. by apply elem_of_map_to_list.
Qed.

Lemma values_nil (m : gmap string EpisodeIndexEntry) vs : vs ≡ₚ (map_to_list m).*2 -> vs = [] -> m = ∅.
Proof.
  intros Hp ->. symmetry in Hp. apply Permutation_nil_r, fmap_nil_inv in Hp. by apply map_to_list_empty_iff.
Qed.

Lemma choose_spec s m vs :
  (forall k e, m !! k = Some e -> episode_id e = k) -> vs ≡ₚ (map_to_list m).*2 ->
  match choose s vs with Some id => chosen s id m | None => m = ∅ end.
Proof.
  intros Hk Hv. assert (Hin : forall e, e ∈ vs -> m !! episode_id e = Some e).
  { intros e He. apply (values_in m vs e Hv) in He as (k & He). by rewrite (Hk k e He). }
  assert (Hval : forall k e, m !! k = Some e -> e ∈ vs) by (intros k e H; apply (values_in m vs e Hv); eauto).
  unfold choose. destruct s; simpl.
  - unfold sorted_by_age. destruct (head (sort_by older vs)) as [e|] eqn:E; simpl.
    + exists e. split; [by apply Hin, (sort_by_head_in older)|]. intros k e' H. apply Z.leb_le.
      by apply (sort_by_head older vs e e' entry_older_refl entry_older_total entry_older_trans E), (Hval k).
    + by apply (values_nil m vs Hv), (sort_by_head_none older).
  - unfold sorted_by_size. destruct (head (sort_by larger vs)) as [e|] eqn:E; simpl.
    + exists e. split; [by apply Hin, (sort_by_head_in larger)|]. intros k e' H. apply Z.leb_le.
      by apply (sort_by_head larger vs e e' larger_refl larger_total larger_trans E), (Hval k).
    + by apply (values_nil m vs Hv), (sort_by_head_none larger).
  - unfold sorted_by_quality. destruct (head (sort_by worse vs)) as [e|] eqn:E; simpl.
    + exists e. split; [by apply Hin, (sort_by_head_in worse)|done].
    + by apply (values_nil m vs Hv), (sort_by_head_none worse).
  - unfold uploaded_episodes, sorted_by_age. destruct (head (sort_by older (List.filter uploaded vs))) as [e|] eqn:E; simpl.
    + pose proof (sort_by_head_in older _ _ E) as He. apply list_elem_of_In, filter_In in He as (He & Hu).
      apply list_elem_of_In in He. exists e. split; [by apply Hin|]. split; [|congruence].
      intros k e' H Hu'. split; [done|]. apply Z.leb_le.
      apply (sort_by_head older _ e e' entry_older_refl entry_older_total entry_older_trans E).
      apply list_elem_of_In, filter_In. split; [|done]. by apply list_elem_of_In, (Hval k).
    + apply sort_by_head_none in E.
      assert (Hno : forall k e', m !! k = Some e' -> uploaded e' = true -> False).
      { intros k e' H Hu. assert (Hf : In e' (List.filter uploaded vs)); [|by rewrite E in Hf].
        apply filter_In. split; [|done]. by apply list_elem_of_In, (Hval k). }
      destruct (head (sort_by older vs)) as [e|] eqn:E'; simpl.
      * exists e. split; [by apply Hin, (sort_by_head_in older)|]. split; [intros k e' H Hu; by destruct (Hno k e' H Hu)|].
        intros _ k e' H. apply Z.leb_le.
        by apply (sort_by_head older vs e e' entry_older_refl entry_older_total entry_older_trans E'), (Hval k).
      * by apply (values_nil m vs Hv), (sort_by_head_none older).
Qed.

(** Under [OldestFirst], what is deleted is no newer than what is kept. *)
Lemma pruned_oldest m m' :
  pruned OldestFirst m m' -> forall k x j y, m !! k = Some x -> m' !! k = None -> m' !! j = Some y ->
  created_at x <= created_at y.
Proof.
  induction 1 as [m|id m m' (e & He & Hc) Hp IH]; intros k x j y Hx Hn Hy; [congruence|].
  destruct (decide (k = id)) as [->|Hne].
  - rewrite He in Hx. injection Hx as <-. apply (Hc j).
    by apply (lookup_weaken _ _ _ _ Hy), (transitivity (pruned_subseteq _ _ _ Hp)), delete_subseteq.
  - apply (IH k x j y); [by rewrite lookup_delete_ne|done|done].
Qed.

(** ** The programs, whatever the system replies *)

(** The map is walked over all its entries, in some order. *)
Definition honest (R : Set) (c : StorageCall R) : R -> Prop :=
  match c in StorageCall R return R -> Prop with
  | Values m => fun r => r ≡ₚ (map_to_list m).*2
  | _ => fun _ => True
  end.

Abbreviation under m s Q := (hoare (fun _ _ => True) honest m s Q) (only parsing).

Abbreviation eps m := (episodes (index m)) (only parsing).

(** Steps through the calls, replies that may fail taken apart. *)
Ltac steps :=
  repeat first
    [ exact I
    | sm_step
    | match goal with |- hoare _ _ (match ?r with Ok _ => _ | Err _ => _ end) _ _ => destruct r end ].

(** An outcome that does not say the storage is full. *)
Definition ordinary {A} (r : result StorageError A) : Prop :=
  match r with Err (StorageFull _ _) => False | _ => True end.

Lemma save_index_spec s :
  under save_index s (fun s' r => index s' = index s /\ config s' = config s /\ ordinary r).
Proof. unfold save_index, io, json. by steps. Qed.

Lemma delete_episode_spec id s :
  under (delete_episode id) s (fun s' r => config s' = config s /\ ordinary r /\
    match eps s !! id with
    | Some e => exists now, index s' = drop_entry now id e (index s)
    | None => s' = s /\ r = Err (EpisodeNotFound id)
    end).
Proof.
  unfold delete_episode, io. steps.
  all: match goal with H : index_get _ _ = _ |- _ => unfold index_get in H; rewrite H end.
  all: try by (split; [|split; [|eauto]]).
  all: eapply hoare_mono; [apply save_index_spec|]; intros s' ? (-> & -> & ?); by (split; [|split; [|eauto]]).
Qed.

(** What every deletion keeps: the configuration, the books, and that episodes
    only go. *)
Record kept (s s' : StorageManager) : Prop := {
  kept_config : config s' = config s;
  kept_accounted : accounted (index s');
  kept_episodes : eps s' ⊆ eps s;
  kept_bytes : total_size_bytes (index s') <= total_size_bytes (index s);
  kept_count : episode_count (index s') <= episode_count (index s) }.

Lemma kept_refl s : accounted (index s) -> kept s s.
Proof. by split. Qed.

Lemma kept_trans s1 s2 s3 : kept s1 s2 -> kept s2 s3 -> kept s1 s3.
Proof.
  intros [H1 H2 H3 H4 H5] [H6 H7 H8 H9 H10]. split; [congruence|done|by etransitivity|lia|lia].
Qed.

Lemma kept_drop s s' id e now :
  accounted (index s) -> eps s !! id = Some e -> config s' = config s -> index s' = drop_entry now id e (index s) ->
  kept s s'.
Proof.
  intros Ha He Hc Hi. destruct (drop_entry_accounted now id e (index s) Ha He) as (Ha' & Hb & Hn).
  destruct (acc_keyed _ Ha id e He) as (_ & Hs). rewrite <- Hi in *.
  split; [done|done| |lia|lia]. rewrite Hi. apply delete_subseteq.
Qed.

Lemma delete_episode_kept id s :
  accounted (index s) -> under (delete_episode id) s (fun s' r => kept s s' /\ ordinary r).
Proof.
  intros Ha. eapply hoare_mono; [apply delete_episode_spec|]. intros s' r (Hc & Ho & Hd). split; [|done].
  destruct (eps s !! id) as [e|] eqn:E; [|by destruct Hd as (-> & _); apply kept_refl].
  destruct Hd as (now & Hi). by eapply kept_drop.
Qed.

(** One deletion by the strategy, or nothing left to delete. *)
Lemma cleanup_one_spec s :
  accounted (index s) ->
  under cleanup_one s (fun s' r => kept s s' /\ ordinary r /\
    match r with
    | Ok false => eps s = ∅ /\ s' = s
    | _ => exists id, chosen (cleanup_strategy (config s)) id (eps s) /\ eps s' = delete id (eps s)
    end).
Proof.
  intros Ha. unfold cleanup_one, values. do 6 sm_step; [done|].
  match goal with H : honest _ _ _ |- _ => simpl in H;
    pose proof (choose_spec (cleanup_strategy (config s)) (eps s) _ (fun k e E => proj1 (acc_keyed _ Ha k e E)) H) as Hch end.
  destruct (choose (cleanup_strategy (config s)) r) as [id|].
  - apply hoare_bind. eapply hoare_mono; [apply delete_episode_spec|]. intros s' r' (Hc & Ho & Hd).
    destruct Hch as (e & He & Hch). rewrite He in Hd. destruct Hd as (now & Hi).
    assert (Hk : kept s s') by (by eapply kept_drop).
    assert (Hx : exists id, chosen (cleanup_strategy (config s)) id (eps s) /\ eps s' = delete id (eps s)).
    { exists id. split; [by exists e|by rewrite Hi]. }
    destruct r'; [by sm_step|done].
  - sm_step. split; [by apply kept_refl|]. done.
Qed.

Lemma expired_ids_spec age vs s : under (expired_ids age vs) s (fun s' r => s' = s /\ is_ok r = true).
Proof.
  revert s. induction vs as [|e vs IH]; intros s; simpl; [done|]. do 2 sm_step; [done|]. sm_step.
  eapply hoare_mono; [apply IH|]. intros s' [ids|x] (-> & Hr); [by sm_step|done].
Qed.

Lemma delete_all_kept ids s : accounted (index s) -> under (delete_all ids) s (fun s' r => kept s s' /\ ordinary r).
Proof.
  revert s. induction ids as [|id ids IH]; intros s Ha; simpl; [by sm_step; split; [apply kept_refl|]|]. sm_step.
  eapply hoare_mono; [by apply delete_episode_kept|]. intros s1 [u|x] (Hk & Ho); [|done]. sm_step.
  eapply hoare_mono; [apply IH; apply Hk|]. intros s2 [n|x] (Hk2 & Ho2); [sm_step|]; (split; [by eapply kept_trans|done]).
Qed.

Lemma cleanup_expired_kept s :
  accounted (index s) ->
  under cleanup_expired s (fun s' r => kept s s' /\ ordinary r /\ (max_age_seconds (config s) = 0 -> s' = s /\ r = Ok 0)).
Proof.
  intros Ha. unfold cleanup_expired, values. do 3 sm_step.
  - sm_step. split; [by apply kept_refl|done].
  - reflect_bools. do 4 sm_step; [done|]. sm_step. eapply hoare_mono; [apply expired_ids_spec|].
    intros s1 [ids|x] (-> & Hr); [|done]. eapply hoare_mono; [by apply delete_all_kept|]. by intros s2 ? (Hk & Ho).
Qed.

(** What a cleanup loop leaves: [goal] on success, nothing when it gave up. *)
Definition loop_outcome (goal : StorageManager -> Prop) (s s' : StorageManager) (r : result StorageError unit) : Prop :=
  kept s s' /\ pruned (cleanup_strategy (config s)) (eps s) (eps s') /\
  match r with
  | Ok _ => goal s'
  | Err (StorageFull _ _) => eps s' = ∅
  | Err _ => True
  end.

Lemma loop_outcome_step goal s s1 s2 id r :
  kept s s1 -> chosen (cleanup_strategy (config s)) id (eps s) -> eps s1 = delete id (eps s) ->
  loop_outcome goal s1 s2 r -> loop_outcome goal s s2 r.
Proof.
  intros Hk Hch He (Hk2 & Hp & Hr). split; [by eapply kept_trans|]. split; [|done].
  eapply pruned_step; [exact Hch|]. rewrite <- He. by rewrite (kept_config _ _ Hk) in Hp.
Qed.

(** A round shrinks the index, so the rounds suffice. *)
Lemma chosen_shrinks s id m : chosen s id m -> (size (delete id m) < size m)%nat.
Proof.
  intros (e & He & _). rewrite map_size_delete_Some by eauto.
  assert (size m <> 0%nat); [|lia]. intros E. apply map_size_empty_iff in E. by rewrite E in He.
Qed.

Definition size_within (bytes : Z) (m : StorageManager) : Prop :=
  0 < max_storage_bytes (config m) -> total_size_bytes (index m) + bytes <= max_storage_bytes (config m).
Definition count_within (m : StorageManager) : Prop :=
  0 < max_episodes (config m) -> episode_count (index m) < max_episodes (config m).

Lemma enforce_size_spec fuel bytes s :
  accounted (index s) -> 0 <= bytes -> total_size_bytes (index s) + bytes <= u64_max ->
  (size (eps s) < fuel)%nat ->
  under (enforce_size fuel bytes) s (loop_outcome (size_within bytes) s).
Proof.
  revert s. induction fuel as [|fuel IH]; intros s Ha Hb Hm Hf; [lia|]. simpl. do 2 sm_step.
  pose proof (accounted_nonneg _ Ha) as Hnn. rewrite wrap_add_small by (unfold id; lia). sm_step.
  - sm_step. split; [by apply kept_refl|]. split; [constructor|]. intros Hpos. unfold id in *.
    apply orb_true_iff in H as [H|H]; [apply negb_true_iff in H|]; reflect_bools; lia.
  - sm_step. eapply hoare_mono; [by apply cleanup_one_spec|]. intros s1 [[|]|x] (Hk & Hr).
    + destruct Hr as (_ & i & Hch & He). eapply hoare_mono; [apply IH|].
      * apply Hk.
      * done.
      * pose proof (kept_bytes _ _ Hk). lia.
      * pose proof (chosen_shrinks _ _ _ Hch) as Hs. rewrite <- He in Hs. lia.
      * intros s2 r Ho. by eapply loop_outcome_step.
    + destruct Hr as (_ & He & ->). unfold full. sm_step. split; [done|]. split; [constructor|done].
    + destruct Hr as (Ho & i & Hch & He). eapply (loop_outcome_step _ _ s1 s1); [done|exact Hch|done|].
      split; [apply kept_refl, Hk|]. split; [constructor|]. by destruct x.
Qed.

Lemma enforce_count_spec fuel s :
  accounted (index s) -> (size (eps s) < fuel)%nat ->
  under (enforce_count fuel) s (loop_outcome count_within s).
Proof.
  revert s. induction fuel as [|fuel IH]; intros s Ha Hf; [lia|]. simpl. do 2 sm_step. sm_step.
  - sm_step. split; [by apply kept_refl|]. split; [constructor|]. intros Hpos. unfold id in *.
    apply negb_true_iff, andb_false_iff in H as [H|H]; reflect_bools; lia.
  - sm_step. eapply hoare_mono; [by apply cleanup_one_spec|]. intros s1 [[|]|x] (Hk & Hr).
    + destruct Hr as (_ & i & Hch & He). eapply hoare_mono; [apply IH|].
      * apply Hk.
      * pose proof (chosen_shrinks _ _ _ Hch) as Hs. rewrite <- He in Hs. lia.
      * intros s2 r Ho. by eapply loop_outcome_step.
    + destruct Hr as (_ & He & ->). unfold full. sm_step. split; [done|]. split; [constructor|done].
    + destruct Hr as (Ho & i & Hch & He). eapply (loop_outcome_step _ _ s1 s1); [done|exact Hch|done|].
      split; [apply kept_refl, Hk|]. split; [constructor|]. by destruct x.
Qed.

Lemma kept_size bytes s s' : kept s s' -> size_within bytes s -> size_within bytes s'.
Proof.
  intros Hk Hs Hp. rewrite (kept_config _ _ Hk) in *. pose proof (kept_bytes _ _ Hk). specialize (Hs Hp). lia.
Qed.

(** Making room: the expired episodes go, then one after the other what the
    strategy chooses. *)
Lemma enforce_limits_spec bytes s :
  accounted (index s) -> 0 <= bytes -> total_size_bytes (index s) + bytes <= u64_max ->
  under (enforce_limits bytes) s (fun s' r => kept s s' /\
    (max_age_seconds (config s) = 0 -> pruned (cleanup_strategy (config s)) (eps s) (eps s')) /\
    match r with
    | Ok _ => size_within bytes s' /\ count_within s'
    | Err (StorageFull _ _) => eps s' = ∅
    | Err _ => True
    end).
Proof.
  intros Ha Hb Hm. unfold enforce_limits. sm_step. eapply hoare_mono; [by apply cleanup_expired_kept|].
  intros s1 [n|x] (Hk & Ho & Hage).
  2: { split; [done|]. split; [intros H; by destruct (Hage H)|by destruct x]. }
  do 3 sm_step. pose proof (kept_bytes _ _ Hk). pose proof (kept_config _ _ Hk) as Hc.
  eapply hoare_mono; [apply enforce_size_spec; [apply Hk|done|lia|unfold rounds; lia]|].
  intros s2 [u|x] (Hk2 & Hp2 & Hr2).
  2: { split; [by eapply kept_trans|]. split; [|done]. intros H0. destruct (Hage H0) as (-> & _). done. }
  do 2 sm_step. eapply hoare_mono; [apply enforce_count_spec; [apply Hk2|unfold rounds; lia]|].
  intros s3 r (Hk3 & Hp3 & Hr3). split; [by eapply kept_trans; [|eapply kept_trans]|]. split.
  - intros H0. destruct (Hage H0) as (-> & _). rewrite (kept_config _ _ Hk2) in Hp3. by eapply pruned_trans.
  - destruct r as [[]|x]; [|done]. split; [by eapply kept_size|done].
Qed.

(** There is room in the counters for one more episode of [bytes]. *)
Definition room (bytes : Z) (i : EpisodeIndex) : Prop :=
  0 <= bytes /\ total_size_bytes i + bytes <= u64_max /\ episode_count i < u32_max.

(** The index after making room, from which [store_episode] adds the entry. *)
Definition stored (r : PackageResult) (s s1 s' : StorageManager) : Prop :=
  eps s !! pr_episode_id r = None /\ exists e, episode_id e = pr_episode_id r /\ size_bytes e = file_size_bytes r /\ config s' = config s1 /\
    eps s' = <[pr_episode_id r := e]> (eps s1) /\ accounted (index s') /\
    total_size_bytes (index s') = total_size_bytes (index s1) + file_size_bytes r /\
    episode_count (index s') = episode_count (index s1) + 1.

(** Storing either fails before the entry is added, or has made room and adds
    it; only the last save of the index can fail after that. *)
Definition store_outcome (r : PackageResult) (s s' : StorageManager) (res : result StorageError EpisodeIndexEntry) : Prop :=
  exists s1, kept s s1 /\
  (max_age_seconds (config s) = 0 -> pruned (cleanup_strategy (config s)) (eps s) (eps s1)) /\
  ((s' = s1 /\ match res with
               | Ok _ => False
               | Err (StorageFull _ _) => auto_cleanup (config s) = true -> eps s1 = ∅
               | Err _ => True
               end) \/
   (size_within (file_size_bytes r) s1 /\ count_within s1 /\ ordinary res /\ stored r s s1 s')).

Lemma add_entry_spec r md s s1 c :
  eps s !! pr_episode_id r = None -> room (file_size_bytes r) (index s) -> kept s s1 ->
  (max_age_seconds (config s) = 0 -> pruned (cleanup_strategy (config s)) (eps s) (eps s1)) ->
  size_within (file_size_bytes r) s1 -> count_within s1 ->
  under (add_entry r md c) s1 (store_outcome r s).
Proof.
  intros Hnone (Hb & Hm & Hc) Hk Hp Hs Hn. unfold add_entry. do 2 sm_step; [done|]. do 2 sm_step; [done|]. do 2 sm_step.
  set (e := from_package_result _ _ _ _). destruct (add_accounted r1 e (index s1)) as (Ha1 & Hb1 & Hc1).
  - apply Hk.
  - destruct (eps s1 !! episode_id e) as [x|] eqn:Ex; [|done].
    pose proof (lookup_weaken _ _ _ _ Ex (kept_episodes _ _ Hk)) as Hx. unfold e in Hx. simpl in Hx. congruence.
  - done.
  - pose proof (kept_bytes _ _ Hk). simpl. lia.
  - pose proof (kept_count _ _ Hk). lia.
  - set (s2 := set_dirty true _).
    assert (Hst : forall (s' : StorageManager) res, index s' = index s2 -> config s' = config s2 -> ordinary res -> store_outcome r s s' res).
    { intros s' res Hi Hcf Ho. exists s1. split; [done|]. split; [done|]. right. do 4 (split; [done|]). exists e. by rewrite Hi, Hcf. }
    sm_step. sm_step; [|do 2 sm_step; by apply Hst].
    eapply hoare_mono; [apply save_index_spec|]. intros s' [u|x] (Hi & Hcf & Ho); [sm_step|]; by apply Hst.
Qed.

Lemma store_episode_spec r md s :
  accounted (index s) -> room (file_size_bytes r) (index s) -> under (store_episode r md) s (store_outcome r s).
Proof.
  intros Ha Hroom. pose proof (kept_refl s Ha) as Hrefl. pose proof (accounted_nonneg _ Ha) as Hnn.
  assert (Hfail : forall e : StorageError, ordinary (@Err _ unit e) \/ auto_cleanup (config s) = false -> store_outcome r s s (Err e)).
  { intros e He. exists s. split; [done|]. split; [constructor|]. left. split; [done|]. destruct He as [He|He]; by destruct e; rewrite ?He. }
  unfold store_episode. do 4 sm_step; [|by apply Hfail; left].
  apply negb_true_iff, bool_decide_eq_false, eq_None_not_Some in H. unfold id in *. sm_step.
  destruct (auto_cleanup (config s)) eqn:Eauto.
  - eapply hoare_mono; [apply enforce_limits_spec; [done|apply Hroom..]|]. intros s1 [u|x] (Hk & Hp & Hr).
    + destruct Hr. by apply add_entry_spec.
    + exists s1. split; [done|]. split; [done|]. left. split; [done|]. by destruct x.
  - unfold check_limits, full. cbv zeta. rewrite wrap_add_small by (destruct Hroom; lia).
    destruct ((0 <? max_storage_bytes (config s)) && (max_storage_bytes (config s) <? _)) eqn:Es; cbn [lift];
      [sm_step; apply Hfail; by right|].
    destruct ((0 <? max_episodes (config s)) && (max_episodes (config s) <=? _)) eqn:En; cbn [lift];
      [sm_step; apply Hfail; by right|].
    sm_step. apply add_entry_spec; [done..|constructor| |].
    + intros Hpos. apply andb_false_iff in Es as [E|E]; reflect_bools; lia.
    + intros Hpos. apply andb_false_iff in En as [E|E]; reflect_bools; lia.
Qed.

(** The episode is there, within the limits of the configuration. *)
Definition stored_within (r : PackageResult) (c : StorageConfig) (s' : StorageManager) : Prop :=
  (exists e, eps s' !! pr_episode_id r = Some e /\ size_bytes e = file_size_bytes r) /\
  (0 < max_storage_bytes c -> total_size_bytes (index s') <= max_storage_bytes c) /\
  (0 < max_episodes c -> episode_count (index s') <= max_episodes c).

Lemma store_outcome_within r s s' res :
  store_outcome r s s' res -> is_ok res = true -> stored_within r (config s) s' /\ accounted (index s').
Proof.
  intros (s1 & Hk & _ & [(-> & Hr)|(Hs & Hn & _ & _ & e & _ & He & _ & Heps & Ha' & Hb & Hc)]) Hok; [by destruct res|].
  split; [|done]. unfold stored_within. rewrite Heps. split; [exists e; by rewrite lookup_insert_eq|].
  pose proof (kept_config _ _ Hk) as Hcf. unfold size_within, count_within in Hs, Hn. rewrite Hcf in Hs, Hn.
  split; intros Hpos; [specialize (Hs Hpos)|specialize (Hn Hpos)]; lia.
Qed.

(** Claim C16: With consistent books and room in the counters, an
    episode is stored only within the limits of the configuration, whatever
    the clock, the disk and the order of the map are. *)
Theorem store_within_limits r md s :
  accounted (index s) -> room (file_size_bytes r) (index s) ->
  under (store_episode r md) s (fun s' res => is_ok res = true -> stored_within r (config s) s').
Proof.
  intros Ha Hroom. eapply hoare_mono; [by apply store_episode_spec|].
  intros s' res Ho Hok. by apply (store_outcome_within r s s' res).
Qed.

(** An episode larger than the whole storage is refused, and
    making room for it has deleted every episode before the refusal. *)
Theorem oversize_wipes r md s :
  accounted (index s) -> room (file_size_bytes r) (index s) -> auto_cleanup (config s) = true ->
  0 < max_storage_bytes (config s) < file_size_bytes r ->
  under (store_episode r md) s (fun s' res =>
    exists e, res = Err e /\ match e with StorageFull _ _ => eps s' = ∅ | _ => True end).
Proof.
  intros Ha Hroom Hauto Hbig. eapply hoare_mono; [by apply store_episode_spec|].
  intros s' res (s1 & Hk & _ & [(-> & Hr)|(Hs & _)]).
  - destruct res as [e|e]; [done|]. exists e. split; [done|]. destruct e; try done. by apply Hr.
  - specialize (Hs ltac:(rewrite (kept_config _ _ Hk); lia)). rewrite (kept_config _ _ Hk) in Hs.
    pose proof (accounted_nonneg _ (kept_accounted _ _ Hk)). lia.
Qed.

(** Without an age limit, storing under [OldestFirst] deletes
    no episode that is newer than one it keeps. *)
Theorem oldest_deleted_first r md s :
  accounted (index s) -> room (file_size_bytes r) (index s) ->
  max_age_seconds (config s) = 0 -> cleanup_strategy (config s) = OldestFirst ->
  under (store_episode r md) s (fun s' _ => forall k x j y,
    eps s !! k = Some x -> eps s' !! k = None -> eps s !! j = Some y -> eps s' !! j = Some y ->
    created_at x <= created_at y).
Proof.
  intros Ha Hroom Hage Hst. eapply hoare_mono; [by apply store_episode_spec|].
  intros s' res (s1 & Hk & Hp & Hr) k x j y Hx Hx' Hy Hy'. specialize (Hp Hage). rewrite Hst in Hp.
  destruct Hr as [(-> & _)|(_ & _ & _ & Hnone & e & Hid & _ & _ & Heps & _)]; [by apply (pruned_oldest _ _ Hp k x j y)|].
  rewrite Heps in Hx', Hy'. apply lookup_insert_None in Hx' as (Hx' & Hne).
  apply (pruned_oldest _ _ Hp k x j y); [done|done|]. rewrite lookup_insert_ne in Hy'; [done|]. intros <-. congruence.
Qed.

(** The operations of a manager that keep its index. *)
Inductive StorageOp : Set :=
| OpStore (r : PackageResult) (md : EpisodeMetadata) | OpDelete (id : string) | OpCleanupExpired
| OpMarkUploaded (id destination : string) | OpFlush.

Definition perform (op : StorageOp) : StM unit :=
  match op with
  | OpStore r md => _ ← store_episode r md; mret tt
  | OpDelete id => delete_episode id
  | OpCleanupExpired => _ ← cleanup_expired; mret tt
  | OpMarkUploaded id d => mark_uploaded id d
  | OpFlush => flush
  end.


(** ** A disk that takes everything, and a clock that ticks *)

Definition sample_disk (R : Set) (c : StorageCall R) (now : Z) : R * Z :=
  (match c in StorageCall R return R with
   | Now => now
   | Values m => (map_to_list m).*2
   | CreateDirAll _ | RemoveDirAll _ | WriteIndex _ _ => Ok tt
   | PathExists _ | IsDir _ => true
   | OpenFile _ | CreateFile _ => Ok 3
   | ReadIndex _ => Ok EpisodeIndex_new
   | ReadMetadata _ => Ok unknown_metadata
   | ReadDir _ => Ok []
   | FileMetadata _ => Err "not found"
   end, now + 1).

Definition sample_config : StorageConfig := with_max_size 100 (StorageConfig_new "/data").
Definition sample_package (id : string) (bytes : Z) : PackageResult := {|
  pr_episode_id := id; mcap_path_of := path_join (path_join "/data" id) (id +:+ ".mcap");
  metadata_path_of := None; total_samples := 1; samples_per_stream := ∅; pr_duration_ns := 0;
  file_size_bytes := bytes; privacy_detections := 0; packaging_time_ms := 0 |}.

Definition empty_manager : StorageManager := {| config := sample_config; index := EpisodeIndex_new; index_dirty := false |}.
Definition run_store (r : PackageResult) (w : StorageManager * Z) : StorageManager * result StorageError EpisodeIndexEntry * Z :=
  run_prog sample_disk (store_episode r unknown_metadata w.1) w.2.
Definition then_store (r : PackageResult) (w : StorageManager * Z) : StorageManager * Z :=
  ((run_store r w).1.1, (run_store r w).2).

(** Two episodes of forty bytes. *)
Definition two_stored : StorageManager * Z :=
  then_store (sample_package "b" 40) (then_store (sample_package "a" 40) (empty_manager, 5)).

Lemma two_stored_accounted : accounted (index two_stored.1).
Proof.
  split.
  - intros k e. replace (eps two_stored.1) with (list_to_map (map_to_list (eps two_stored.1)) : gmap string EpisodeIndexEntry)
      by apply list_to_map_to_list.
    intros H. apply elem_of_list_to_map_2 in H. vm_compute in H.
    repeat (apply elem_of_cons in H as [[= -> ->]|H]; [by vm_compute|]). by apply elem_of_nil in H.
  - by vm_compute.
  - by vm_compute.
  - by vm_compute.
  - by vm_compute.
Qed.

Example third_evicts_oldest :
  let s := then_store (sample_package "c" 40) two_stored in
  map fst (map_to_list (eps s.1)) = ["c"; "b"] /\ total_size_bytes (index s.1) = 80 /\
  mcap_path <$> (eps s.1 !! "c") = Some (fun root => path_join (path_join root "c") "c.mcap").
Proof. by vm_compute. Qed.

Lemma store_within_limits_witness :
  under (store_episode (sample_package "c" 40) unknown_metadata) two_stored.1 (fun s' res =>
    is_ok res = true -> stored_within (sample_package "c" 40) sample_config s').
Proof.
  apply (store_within_limits (sample_package "c" 40) unknown_metadata two_stored.1 two_stored_accounted).
  by vm_compute.
Defined.

Lemma oversize_wipes_witness :
  length (map_to_list (eps two_stored.1)) = 2%nat /\
  under (store_episode (sample_package "big" 101) unknown_metadata) two_stored.1 (fun s' res =>
    exists e, res = Err e /\ match e with StorageFull _ _ => eps s' = ∅ | _ => True end) /\
  let s := run_store (sample_package "big" 101) two_stored in
  s.1.2 = Err (StorageFull 101 100) /\ map_to_list (eps s.1.1) = [].
Proof.
  split; [by vm_compute|]. split; [|by vm_compute].
  apply (oversize_wipes (sample_package "big" 101) unknown_metadata two_stored.1 two_stored_accounted); by vm_compute.
Defined.

Lemma oldest_deleted_first_witness :
  under (store_episode (sample_package "c" 40) unknown_metadata) two_stored.1 (fun s' _ => forall k x j y,
    eps two_stored.1 !! k = Some x -> eps s' !! k = None -> eps two_stored.1 !! j = Some y -> eps s' !! j = Some y ->
    created_at x <= created_at y).
Proof.
  apply (oldest_deleted_first (sample_package "c" 40) unknown_metadata two_stored.1 two_stored_accounted); by vm_compute.
Defined.

