(* ===== verification/Packager.v ===== *)
(** * The packager (data_collection/packager.rs)

    An episode becomes a directory with an MCAP file and a metadata file: the
    samples of the window are collected from the buffers, sorted, sent through
    the privacy filters and written.  The packager is a program over the disk,
    the clock, the buffers others write to and the observer of its progress;
    the writer of Mcap.v and the filters of Privacy.v run inside it. *)

From S2P Require Import Prelude RustStr F32 SortBy Paths Effects Digests Samples.
From S2P Require Buffer Mcap Privacy Storage.

Open Scope string_scope.
Open Scope list_scope.
Open Scope Z_scope.

Inductive PackagerError : Set :=
| Io (e : string) | McapFailed (e : Mcap.McapError) | PrivacyFailed (e : Privacy.PrivacyError) | NoDataAvailable
| InvalidConfig (e : string) | EpisodeExists (e : string) | PackagingInProgress | SerializationError (e : string).

Record PackagerConfig : Set := {
  output_dir : string; mcap_config : option Mcap.McapWriterConfig; privacy_config : Privacy.PrivacyConfig;
  streams : list StreamConfig; include_metadata : bool; include_urdf : bool; include_calibration : bool;
  max_episode_duration_secs : spec_float; min_samples_per_stream : Z }.

Definition PackagerConfig_default : PackagerConfig := {|
  output_dir := "episodes"; mcap_config := None; privacy_config := Privacy.PrivacyConfig_default; streams := [];
  include_metadata := true; include_urdf := true; include_calibration := true;
  max_episode_duration_secs := f32_of 300; min_samples_per_stream := 10 |}.
Definition PackagerConfig_new (dir : string) : PackagerConfig := {|
  output_dir := dir; mcap_config := None; privacy_config := Privacy.PrivacyConfig_default; streams := [];
  include_metadata := true; include_urdf := true; include_calibration := true;
  max_episode_duration_secs := f32_of 300; min_samples_per_stream := 10 |}.
Definition with_stream (s : StreamConfig) (c : PackagerConfig) : PackagerConfig := {|
  output_dir := output_dir c; mcap_config := mcap_config c; privacy_config := privacy_config c;
  streams := push (streams c) s; include_metadata := include_metadata c; include_urdf := include_urdf c;
  include_calibration := include_calibration c; max_episode_duration_secs := max_episode_duration_secs c;
  min_samples_per_stream := min_samples_per_stream c |}.
Definition with_privacy (p : Privacy.PrivacyConfig) (c : PackagerConfig) : PackagerConfig := {|
  output_dir := output_dir c; mcap_config := mcap_config c; privacy_config := p; streams := streams c;
  include_metadata := include_metadata c; include_urdf := include_urdf c;
  include_calibration := include_calibration c; max_episode_duration_secs := max_episode_duration_secs c;
  min_samples_per_stream := min_samples_per_stream c |}.
Definition with_mcap_config (m : Mcap.McapWriterConfig) (c : PackagerConfig) : PackagerConfig := {|
  output_dir := output_dir c; mcap_config := Some m; privacy_config := privacy_config c; streams := streams c;
  include_metadata := include_metadata c; include_urdf := include_urdf c;
  include_calibration := include_calibration c; max_episode_duration_secs := max_episode_duration_secs c;
  min_samples_per_stream := min_samples_per_stream c |}.

Inductive PackagingPhase : Set :=
| Initializing | CollectingSamples | ApplyingPrivacy | WritingMcap | WritingMetadata | Finalizing | Complete.

Record PackagingProgress : Set := {
  phase : PackagingPhase; progress_percent : spec_float; samples_processed : Z; progress_total : Z;
  current_stream : option string }.

Definition Fd : Set := Z.

Section Packager.
Context {Json : Set} {J : SampleJson Json} {D : Digests} (hex_encode : list Z -> string).
(** [EpisodeMetadata] and its pretty JSON. *)
Context {Metadata : Set} (metadata_json : Metadata -> result string string).

Abbreviation Sample := (@Buffer.DataSample (SampleData Json)).

(** The clock, the buffers, the disk, the orders of the maps, the observer. *)
Inductive PkgCall : Set -> Set :=
| InstantNow : PkgCall Z
| ImageTimes : PkgCall (list Z)
| StreamIds : PkgCall (list string)
| GetRange (stream : string) (start_time end_time : Z) : PkgCall (option (list Sample))
| CreateDirAll (p : string) : PkgCall (result string unit)
| CreateFile (p : string) : PkgCall (result string Fd)
| WriteAll (fd : Fd) (bytes : list Z) : PkgCall (result string unit)
| MetadataOrder (m : gmap string string) : PkgCall (list (string * string))
| CountsOrder (m : gmap Z Z) : PkgCall (list (Z * Z))
| DropWriter (fd : Fd) : PkgCall unit
| WriteFile (p text : string) : PkgCall (result string unit)
| FileLen (p : string) : PkgCall (result string Z)
| StreamOrder (m : gmap string Z) : PkgCall (list string)
| CalibrationOrder (m : gmap string (list Z)) : PkgCall (list (string * list Z))
| Report (p : PackagingProgress) : PkgCall unit.

Record EpisodePackager : Type := {
  config : PackagerConfig; privacy_manager : Privacy.PrivacyManager; urdf_data : option (list Z);
  calibration_data : option (gmap string (list Z)); stream_schemas : gmap string Mcap.Schema;
  is_packaging : bool }.

Definition EpisodePackager_new (c : PackagerConfig) : EpisodePackager := {|
  config := c; privacy_manager := Privacy.with_default_filters hex_encode (privacy_config c); urdf_data := None;
  calibration_data := None; stream_schemas := ∅; is_packaging := false |}.

Definition set_urdf (urdf : list Z) (p : EpisodePackager) : EpisodePackager := {|
  config := config p; privacy_manager := privacy_manager p; urdf_data := Some urdf;
  calibration_data := calibration_data p; stream_schemas := stream_schemas p; is_packaging := is_packaging p |}.
Definition set_calibration (camera_id : string) (data : list Z) (p : EpisodePackager) : EpisodePackager := {|
  config := config p; privacy_manager := privacy_manager p; urdf_data := urdf_data p;
  calibration_data := Some (<[camera_id := data]> (from_option id ∅ (calibration_data p)));
  stream_schemas := stream_schemas p; is_packaging := is_packaging p |}.
Definition register_schema (stream : string) (s : Mcap.Schema) (p : EpisodePackager) : EpisodePackager := {|
  config := config p; privacy_manager := privacy_manager p; urdf_data := urdf_data p;
  calibration_data := calibration_data p; stream_schemas := <[stream := s]> (stream_schemas p);
  is_packaging := is_packaging p |}.
Definition set_privacy (m : Privacy.PrivacyManager) (p : EpisodePackager) : EpisodePackager := {|
  config := config p; privacy_manager := m; urdf_data := urdf_data p; calibration_data := calibration_data p;
  stream_schemas := stream_schemas p; is_packaging := is_packaging p |}.
Definition set_packaging (b : bool) (p : EpisodePackager) : EpisodePackager := {|
  config := config p; privacy_manager := privacy_manager p; urdf_data := urdf_data p;
  calibration_data := calibration_data p; stream_schemas := stream_schemas p; is_packaging := b |}.

Abbreviation PM S := (SM PkgCall S PackagerError) (only parsing).

Definition io {A} (r : result string A) : result PackagerError A :=
  match r with Ok a => Ok a | Err e => Err (Io e) end.
Definition try_io {S A} (c : PkgCall (result string A)) : PM S A := r ← call c; lift (io r).

(** [report_progress]: nothing without a callback. *)
Definition report {S} (cb : bool) (ph : PackagingPhase) (percent : spec_float) (samples total : Z)
    (stream : option string) : PM S unit :=
  if cb then
    call (Report {| phase := ph; progress_percent := percent; samples_processed := samples; progress_total := total;
                    current_stream := stream |})
  else mret tt.

(** [base + (i as f32 / total as f32) * 30.0]. *)
Definition percent_at (base i total : Z) : spec_float :=
  f32_add (f32_of base) (f32_mul (f32_div (f32_of i) (f32_of total)) (f32_of 30)).
Definition report_every {S} (cb : bool) (ph : PackagingPhase) (base i total : Z) (stream : option string) : PM S unit :=
  if i mod 100 =? 0 then report cb ph (percent_at base i total) i total stream else mret tt.

(** ** Collecting *)

Fixpoint collect (ids : list string) (start_time end_time : Z) (samples : list Sample) (counts : gmap string Z)
    : PM EpisodePackager (list Sample * gmap string Z) :=
  match ids with
  | [] => mret (samples, counts)
  | id :: ids =>
      range ← call (GetRange id start_time end_time);
      match range with
      | Some more =>
          collect ids start_time end_time (samples ++ more) (<[id := Z.of_nat (length more)]> counts)
      | None => collect ids start_time end_time samples counts
      end
  end.

(** ** Privacy *)

Definition is_camera (t : StreamType) : bool :=
  match t with RgbCamera _ _ _ _ | DepthCamera _ _ _ _ _ => true | _ => false end.

(** The configuration of the stream decides; without one, its name. *)
Definition is_image_stream (c : PackagerConfig) (stream : string) : bool :=
  match List.find (fun s => bool_decide (sc_stream_id s = stream)) (streams c) with
  | Some s => is_camera (stream_type s)
  | None =>
      let name := to_lowercase stream in
      contains name "camera" || contains name "image" || contains name "rgb" || contains name "depth"
  end.

Definition dimensions (t : StreamType) : option (Z * Z) :=
  match t with RgbCamera _ w h _ => Some (w, h) | DepthCamera _ w h _ _ => Some (w, h) | _ => None end.

(** The first camera with the name of the stream. *)
Fixpoint get_image_dimensions (cs : list StreamConfig) (stream : string) : Z * Z :=
  match cs with
  | [] => (640, 480)
  | c :: cs =>
      if bool_decide (sc_stream_id c = stream) then
        match dimensions (stream_type c) with Some d => d | None => get_image_dimensions cs stream end
      else get_image_dimensions cs stream
  end.

Definition with_data (d : SampleData Json) (s : Sample) : Sample := {|
  Buffer.stream_id := Buffer.stream_id s; Buffer.timestamp_ns := Buffer.timestamp_ns s;
  Buffer.sequence := Buffer.sequence s; Buffer.data := d |}.

(** One sample, and how many detections it brings. *)
Definition filter_sample (s : Sample) : PM EpisodePackager (Sample * Z) :=
  p ← gets id;
  if is_image_stream (config p) (Buffer.stream_id s) then
    let '(width, height) := get_image_dimensions (streams (config p)) (Buffer.stream_id s) in
    times ← call ImageTimes;
    let '(r, m) := Privacy.process_image times (Buffer.stream_id s) (to_bytes (Buffer.data s)) width height
                     (privacy_manager p) in
    _ ← modify (set_privacy m);
    match r with
    | Err e => throw (PrivacyFailed e)
    | Ok r =>
        if Privacy.modified r
        then mret (with_data (Binary (Privacy.result_data r)) s, Z.of_nat (length (Privacy.detections r)))
        else mret (s, 0)
    end
  else mret (s, 0).

Fixpoint apply_privacy (cb : bool) (i total : Z) (samples processed : list Sample) (found : Z)
    : PM EpisodePackager (list Sample * Z) :=
  match samples with
  | [] => mret (processed, found)
  | s :: samples =>
      r ← filter_sample s;
      _ ← report_every cb ApplyingPrivacy 20 i total None;
      apply_privacy cb (i + 1) total samples (push processed r.1) (wrap_add u64_max found r.2)
  end.

(** ** Writing *)

(** The operations of the writer, on the file of the episode. *)
Definition on_file (fd : Fd) (R : Set) (c : Mcap.McapCall R) : PkgCall R :=
  match c with
  | Mcap.WriteAll bytes => WriteAll fd bytes
  | Mcap.MetadataOrder m => MetadataOrder m
  | Mcap.CountsOrder m => CountsOrder m
  end.
Definition on_mcap {A} (fd : Fd) (m : SM Mcap.McapCall Mcap.McapWriter Mcap.McapError A) : PM Mcap.McapWriter A :=
  zoom (on_file fd) id (fun w _ => w) McapFailed m.

Fixpoint add_channels (fd : Fd) (schemas : gmap string Mcap.Schema) (ids : list string) : PM Mcap.McapWriter unit :=
  match ids with
  | [] => mret tt
  | id :: ids =>
      schema_id ← on_mcap fd (match schemas !! id with
        | Some schema => Mcap.register_schema schema
        | None => Mcap.add_schema ("omniedge/" +:+ id) "jsonschema" (string_bytes "{}")
        end);
      channel_id ← on_mcap fd (Mcap.add_channel schema_id ("/" +:+ id) "json");
      _ ← on_mcap fd (Mcap.register_stream id channel_id);
      add_channels fd schemas ids
  end.

Fixpoint write_samples (fd : Fd) (cb : bool) (i total : Z) (samples : list Sample) : PM Mcap.McapWriter unit :=
  match samples with
  | [] => mret tt
  | s :: samples =>
      _ ← on_mcap fd (Mcap.write_sample to_bytes s);
      _ ← report_every cb WritingMcap 50 i total (Some (Buffer.stream_id s));
      write_samples fd cb (i + 1) total samples
  end.

Fixpoint add_calibration (fd : Fd) (cameras : list (string * list Z)) : PM Mcap.McapWriter unit :=
  match cameras with
  | [] => mret tt
  | (camera_id, data) :: cameras =>
      _ ← on_mcap fd (Mcap.add_attachment ("calibration_" +:+ camera_id +:+ ".yaml") "application/x-yaml" data);
      add_calibration fd cameras
  end.

Definition add_urdf (fd : Fd) (p : EpisodePackager) : PM Mcap.McapWriter unit :=
  if include_urdf (config p) then
    match urdf_data p with
    | Some urdf => on_mcap fd (Mcap.add_attachment "robot.urdf" "application/xml" urdf)
    | None => mret tt
    end
  else mret tt.

Definition add_calibrations (fd : Fd) (p : EpisodePackager) : PM Mcap.McapWriter unit :=
  if include_calibration (config p) then
    match calibration_data p with
    | Some m => order ← call (CalibrationOrder m); add_calibration fd order
    | None => mret tt
    end
  else mret tt.

Definition episode_info (episode_id : string) (start_time end_time total : Z) : gmap string string :=
  <["sample_count" := show_uint total]> (<["end_time_ns" := show_uint end_time]>
    (<["start_time_ns" := show_uint start_time]> (<["episode_id" := episode_id]> ∅))).

(** The life of the writer. *)
Definition write_mcap (fd : Fd) (cb : bool) (p : EpisodePackager) (episode_id : string) (start_time end_time : Z)
    (counts : gmap string Z) (samples : list Sample) : PM Mcap.McapWriter unit :=
  let total := Z.of_nat (length samples) in
  _ ← on_mcap fd Mcap.start;
  order ← call (StreamOrder counts);
  _ ← add_channels fd (stream_schemas p) order;
  _ ← write_samples fd cb 0 total samples;
  _ ← add_urdf fd p;
  _ ← add_calibrations fd p;
  _ ← on_mcap fd (Mcap.add_metadata "episode_info" (episode_info episode_id start_time end_time total));
  _ ← on_mcap fd Mcap.finish;
  mret tt.

(** The writer is a local variable: when it goes, with the last step or with
    an error, the buffer before the file is written and an error of that is
    lost. *)
Definition with_writer {A} (fd : Fd) (w : Mcap.McapWriter) (m : PM Mcap.McapWriter A) : PM EpisodePackager A :=
  fun p => prog_bind (m w) (fun '(_, r) => Vis (DropWriter fd) (fun _ => Ret (p, r))).

(** ** Packaging *)

Definition episode_dir (c : PackagerConfig) (id : string) : string := path_join (output_dir c) id.
Definition mcap_path (c : PackagerConfig) (id : string) : string := path_join (episode_dir c id) (id +:+ ".mcap").
Definition metadata_path (c : PackagerConfig) (id : string) : string :=
  path_join (episode_dir c id) (id +:+ "_metadata.json").

Definition write_metadata (c : PackagerConfig) (id : string) (md : Metadata) : PM EpisodePackager (option string) :=
  if include_metadata c then
    text ← lift (match metadata_json md with Ok t => Ok t | Err e => Err (SerializationError e) end);
    _ ← try_io (WriteFile (metadata_path c id) text);
    mret (Some (metadata_path c id))
  else mret None.

Definition do_package (episode_id : string) (start_time end_time : Z) (md : Metadata) (cb : bool)
    : PM EpisodePackager Storage.PackageResult :=
  _ ← report cb Initializing (f32_of 0) 0 0 None;
  c ← gets config;
  _ ← try_io (CreateDirAll (output_dir c));
  _ ← try_io (CreateDirAll (episode_dir c episode_id));
  _ ← report cb CollectingSamples (f32_of 5) 0 0 None;
  ids ← call StreamIds;
  got ← collect ids start_time end_time [] ∅;
  let '(samples, counts) := got in
  _ ← guard_m (negb (bool_decide (samples = [] :> list Sample))) NoDataAvailable;
  let samples := sort_by Buffer.older samples in
  let total := Z.of_nat (length samples) in
  _ ← report cb ApplyingPrivacy (f32_of 20) 0 total None;
  filtered ← apply_privacy cb 0 total samples [] 0;
  _ ← report cb WritingMcap (f32_of 50) 0 total None;
  fd ← try_io (CreateFile (mcap_path c episode_id));
  p ← gets id;
  _ ← with_writer fd (Mcap.McapWriter_new (from_option id Mcap.McapWriterConfig_default (mcap_config c)))
        (write_mcap fd cb p episode_id start_time end_time counts filtered.1);
  _ ← report cb WritingMetadata (f32_of 85) total total None;
  metadata ← write_metadata c episode_id md;
  size ← try_io (FileLen (mcap_path c episode_id));
  _ ← report cb Finalizing (f32_of 95) total total None;
  _ ← report cb Complete (f32_of 100) total total None;
  mret {| Storage.pr_episode_id := episode_id; Storage.mcap_path_of := mcap_path c episode_id;
          Storage.metadata_path_of := metadata; Storage.total_samples := total;
          Storage.samples_per_stream := counts; Storage.pr_duration_ns := sat_sub end_time start_time;
          Storage.file_size_bytes := size; Storage.privacy_detections := filtered.2;
          Storage.packaging_time_ms := 0 |}.

(** Milliseconds of a [Duration], as [u64]. *)
Definition as_millis (d : Z) : Z := (d / 1000000) mod (u64_max + 1).

Definition set_packaging_time (ms : Z) (r : Storage.PackageResult) : Storage.PackageResult := {|
  Storage.pr_episode_id := Storage.pr_episode_id r; Storage.mcap_path_of := Storage.mcap_path_of r;
  Storage.metadata_path_of := Storage.metadata_path_of r; Storage.total_samples := Storage.total_samples r;
  Storage.samples_per_stream := Storage.samples_per_stream r; Storage.pr_duration_ns := Storage.pr_duration_ns r;
  Storage.file_size_bytes := Storage.file_size_bytes r; Storage.privacy_detections := Storage.privacy_detections r;
  Storage.packaging_time_ms := ms |}.

Definition package_episode_with_progress (episode_id : string) (start_time end_time : Z) (md : Metadata) (cb : bool)
    : PM EpisodePackager Storage.PackageResult :=
  busy ← gets is_packaging;
  _ ← guard_m (negb busy) PackagingInProgress;
  _ ← modify (set_packaging true);
  since ← call InstantNow;
  r ← attempt (do_package episode_id start_time end_time md cb);
  _ ← modify (set_packaging false);
  r ← lift r;
  now ← call InstantNow;
  mret (set_packaging_time (as_millis (elapsed since now)) r).

Definition package_episode (episode_id : string) (start_time end_time : Z) (md : Metadata)
    : PM EpisodePackager Storage.PackageResult :=
  package_episode_with_progress episode_id start_time end_time md false.

(** ** Batches *)

Record PendingEpisode : Set := { pe_id : string; pe_start : Z; pe_end : Z; pe_metadata : Metadata }.
Record BatchPackager : Type := { packager : EpisodePackager; queue : list PendingEpisode }.

Definition BatchPackager_new (c : PackagerConfig) : BatchPackager := {| packager := EpisodePackager_new c; queue := [] |}.
Definition enqueue (e : PendingEpisode) (b : BatchPackager) : BatchPackager :=
  {| packager := packager b; queue := push (queue b) e |}.

Fixpoint package_each (es : list PendingEpisode) (p : EpisodePackager)
    : prog PkgCall (EpisodePackager * list (result PackagerError Storage.PackageResult)) :=
  match es with
  | [] => Ret (p, [])
  | e :: es =>
      prog_bind (package_episode (pe_id e) (pe_start e) (pe_end e) (pe_metadata e) p) (fun '(p, r) =>
        prog_bind (package_each es p) (fun '(p, rs) => Ret (p, r :: rs)))
  end.

Definition process_all (b : BatchPackager)
    : prog PkgCall (BatchPackager * list (result PackagerError Storage.PackageResult)) :=
  prog_bind (package_each (queue b) (packager b)) (fun '(p, rs) => Ret ({| packager := p; queue := [] |}, rs)).
End Packager.

(** ** What the packager promises, whatever the system does *)

Section Promises.
Context {Json : Set} {J : SampleJson Json} {D : Digests} (hex_encode : list Z -> string).
Context {Metadata : Set} (metadata_json : Metadata -> result string string).

(** Files are no longer than [max]. *)
Definition sizes_within (max : Z) (R : Set) (c : @PkgCall Json R) : R -> Prop :=
  match c with FileLen _ => fun r => forall n, r = Ok n -> 0 <= n <= max | _ => fun _ => True end.

Abbreviation any := (fun (R : Set) (_ : @PkgCall Json R) => True) (only parsing).

Lemma hoare_skip {S A B} L (m : SM (@PkgCall Json) S PackagerError A) (f : A -> SM (@PkgCall Json) S PackagerError B) s Q :
  (forall s' a, hoare any L (f a) s' Q) -> (forall s' e, Q s' (Err e)) -> hoare any L (m ≫= f) s Q.
Proof. intros Hf He. apply hoare_bind. eapply hoare_mono; [apply hoare_any|]. intros s' [a|e] _; auto. Qed.

Lemma do_package_result max id start_time end_time md cb p :
  hoare any (sizes_within max) (do_package metadata_json id start_time end_time md cb) p
    (fun _ r => forall k, r = Ok k -> Storage.pr_episode_id k = id /\ 0 <= Storage.file_size_bytes k <= max /\
      Storage.pr_duration_ns k = sat_sub end_time start_time).
Proof.
  unfold do_package. apply hoare_skip; [intros s1 _|done]. apply hoare_skip; [intros s2 c|done].
  apply hoare_skip; [intros s3 _|done]. apply hoare_skip; [intros s4 _|done]. apply hoare_skip; [intros s5 _|done].
  apply hoare_skip; [intros s6 ids|done]. apply hoare_skip; [intros s7 [samples counts]|done].
  apply hoare_skip; [intros s8 _|done]. apply hoare_skip; [intros s9 _|done]. apply hoare_skip; [intros s10 f|done].
  apply hoare_skip; [intros s11 _|done]. apply hoare_skip; [intros s12 fd|done]. apply hoare_skip; [intros s13 p'|done].
  apply hoare_skip; [intros s14 _|done]. apply hoare_skip; [intros s15 _|done]. apply hoare_skip; [intros s16 m|done].
  unfold try_io. apply hoare_bind, hoare_bind. apply hoare_call; [done|]. intros r Hr. cbn in Hr.
  destruct r as [n|e]; [|done]. apply hoare_ret. specialize (Hr n eq_refl).
  apply hoare_skip; [intros s17 _|done]. apply hoare_skip; [intros s18 _|done]. apply hoare_ret.
  intros k [= <-]. done.
Qed.

(** A package carries the name of its episode, is no larger than the files of
    the system and covers the window asked for; and the packager is idle after
    every attempt if it was idle before: a failure never leaves it busy. *)
Theorem package_keeps_name max id start_time end_time md cb p :
  hoare any (sizes_within max) (package_episode_with_progress metadata_json id start_time end_time md cb) p
    (fun p' r => is_packaging p' = is_packaging p /\ forall k, r = Ok k ->
      is_packaging p = false /\ Storage.pr_episode_id k = id /\ 0 <= Storage.file_size_bytes k <= max /\
      Storage.pr_duration_ns k = sat_sub end_time start_time).
Proof.
  unfold package_episode_with_progress. apply hoare_bind, hoare_gets, hoare_bind.
  destruct (is_packaging p) eqn:Eb; [by apply hoare_throw|]. apply hoare_ret, hoare_bind, hoare_modify, hoare_bind.
  apply hoare_call; [done|]. intros since _. apply hoare_bind, hoare_attempt.
  eapply hoare_mono; [apply do_package_result|]. intros s r Hr. apply hoare_bind, hoare_modify, hoare_bind.
  destruct r as [k|e]; [|apply hoare_throw; split; [done|by intros ?]]. apply hoare_ret, hoare_bind, hoare_call; [done|]. intros now _.
  apply hoare_ret. split; [done|]. intros k' [= <-]. split; [done|]. exact (Hr k eq_refl).
Qed.

(** A batch answers every episode of the queue, in order, and empties it. *)
Lemma package_each_length es p :
  wp any (fun _ _ _ => True) (package_each metadata_json es p) (fun pr => length pr.2 = length es).
Proof.
  revert p. induction es as [|e es IH]; intros p; [done|]. cbn [package_each]. apply wp_bind.
  eapply wp_mono; [|apply (hoare_any (fun _ _ _ => True) (package_episode metadata_json (pe_id e) (pe_start e) (pe_end e) (pe_metadata e)))].
  intros [p' r] _. apply wp_bind. eapply wp_mono; [|apply IH]. intros [p'' rs] Hl. cbn in *. by rewrite Hl.
Qed.

Lemma batch_answers_all b :
  wp any (fun _ _ _ => True) (process_all metadata_json b)
    (fun br => queue br.1 = [] /\ length br.2 = length (queue b)).
Proof.
  unfold process_all. apply wp_bind. eapply wp_mono; [|apply package_each_length]. intros [p rs] Hl. done.
Qed.
End Promises.

(** ** What is in the file

    Against a store of buffers that nobody writes to and a disk that takes
    every byte. *)

Section Bench.
Context {Json : Set} {J : SampleJson Json} {D : Digests} (hex_encode : list Z -> string).
Context {Metadata : Set} (metadata_json : Metadata -> result string string).
Context (store : @Buffer.Store (SampleData Json)).
Context (keys : gmap string Z -> list string) (maps : gmap string string -> list (string * string))
  (counts : gmap Z Z -> list (Z * Z)) (cameras : gmap string (list Z) -> list (string * list Z)).

Abbreviation Sample := (@Buffer.DataSample (SampleData Json)).

Definition buffer_of (id : string) : option Buffer.RingBuffer :=
  r ← Buffer.get_buffer id store; Buffer.heap store !! r.

(** The state is the content of the file of the episode. *)
Definition bench (R : Set) (c : @PkgCall Json R) (file : list Z) : R * list Z :=
  match c with
  | InstantNow => (0, file)
  | ImageTimes => ([], file)
  | StreamIds => (Buffer.stream_ids store, file)
  | GetRange id s e => ((fun b => Buffer.get_range b s e) <$> buffer_of id, file)
  | CreateDirAll _ => (Ok tt, file)
  | CreateFile _ => (Ok 3, file)
  | WriteAll _ bytes => (Ok tt, file ++ bytes)
  | MetadataOrder m => (maps m, file)
  | CountsOrder m => (counts m, file)
  | DropWriter _ => (tt, file)
  | WriteFile _ _ => (Ok tt, file)
  | FileLen _ => (Ok (Z.of_nat (length file)), file)
  | StreamOrder m => (keys m, file)
  | CalibrationOrder m => (cameras m, file)
  | Report _ => (tt, file)
  end.

Abbreviation PM S := (SM (@PkgCall Json) S PackagerError) (only parsing).

(** [m] takes the state from [s] to [s'], adding [out] to the file. *)
Definition adds {S A} (m : PM S A) (s : S) (r : result PackagerError A) (s' : S) (out : list Z) : Prop :=
  forall file, run_prog bench (m s) file = ((s', r), file ++ out).

Lemma adds_bind {S A B} (m : PM S A) (f : A -> PM S B) s a s1 out1 r s2 out2 :
  adds m s (Ok a) s1 out1 -> adds (f a) s1 r s2 out2 -> adds (m ≫= f) s r s2 (out1 ++ out2).
Proof. intros Hm Hf file. rewrite run_sm_bind, Hm, Hf. by rewrite app_assoc. Qed.
Lemma adds_pure {S A B} (m : PM S A) (f : A -> PM S B) s a s1 r s2 out :
  adds m s (Ok a) s1 [] -> adds (f a) s1 r s2 out -> adds (m ≫= f) s r s2 out.
Proof. intros Hm Hf. exact (adds_bind m f s a s1 [] r s2 out Hm Hf). Qed.
Lemma adds_nothing {S A} (m : PM S A) s r s' :
  (forall file, run_prog bench (m s) file = ((s', r), file)) -> adds m s r s' [].
Proof. intros H file. by rewrite H, app_nil_r. Qed.
Lemma adds_ret {S A} (a : A) (s : S) : adds (mret a) s (Ok a) s [].
Proof. by apply adds_nothing. Qed.

Lemma adds_report {S} cb ph percent samples total stream (s : S) :
  adds (report cb ph percent samples total stream) s (Ok tt) s [].
Proof. destruct cb; by apply adds_nothing. Qed.
Lemma adds_report_every {S} cb ph base i total stream (s : S) :
  adds (report_every cb ph base i total stream) s (Ok tt) s [].
Proof. unfold report_every. destruct (i mod 100 =? 0); [apply adds_report|apply adds_ret]. Qed.

(** The writer inside the packager is the writer. *)
Lemma adds_on_mcap {A} fd (m : SM Mcap.McapCall Mcap.McapWriter Mcap.McapError A) w a w' out :
  Mcap.emits maps counts m w (Ok a) w' out -> adds (on_mcap fd m) w (Ok a) w' out.
Proof.
  intros Hm file. unfold on_mcap. rewrite (run_zoom _ _ _ _ (Mcap.device maps counts)) by (by intros R [] w0).
  cbn [id]. by rewrite Hm.
Qed.

(** *** The channels of the streams *)

Definition has_stream (id : string) (w : Mcap.McapWriter) : Prop :=
  exists ch, Mcap.stream_to_channel (Mcap.registry w) !! id = Some ch /\
    is_Some (Mcap.channels (Mcap.registry w) !! ch) /\ 0 <= ch <= u16_max.
Definition channels_ok (w : Mcap.McapWriter) : Prop := 0 <= Mcap.next_channel_id (Mcap.registry w) <= u16_max.

(** What an operation returns is known without a system. *)
Lemma emits_value {A} (m : SM Mcap.McapCall Mcap.McapWriter Mcap.McapError A) w a w' out (P : A -> Prop) :
  Mcap.emits maps counts m w (Ok a) w' out ->
  hoare (fun _ _ => True) (fun _ _ _ => True) m w (fun _ r => forall a, r = Ok a -> P a) -> P a.
Proof.
  intros Hm Hh. apply (run_hoare (Mcap.device maps counts) m w _ []) in Hh. rewrite (Hm []) in Hh. by apply Hh.
Qed.

Ltac skip := apply hoare_bind; eapply hoare_mono; [apply hoare_any|]; intros ? [?|?] _; [|done].

Lemma schema_step (schema : option Mcap.Schema) id w file sent :
  Mcap.holds w file sent ->
  exists sid w' out,
    Mcap.emits maps counts (match schema with
      | Some schema => Mcap.register_schema schema
      | None => Mcap.add_schema ("omniedge/" +:+ id) "jsonschema" (string_bytes "{}")
      end) w (Ok sid) w' out /\
    Mcap.holds w' (file ++ out) sent /\ is_Some (Mcap.schemas (Mcap.registry w') !! sid) /\
    Mcap.channels (Mcap.registry w') = Mcap.channels (Mcap.registry w) /\
    Mcap.stream_to_channel (Mcap.registry w') = Mcap.stream_to_channel (Mcap.registry w) /\
    Mcap.next_channel_id (Mcap.registry w') = Mcap.next_channel_id (Mcap.registry w).
Proof.
  intros Hw. assert (Hv : forall s w, hoare (fun _ _ => True) (fun _ _ _ => True) (Mcap.register_schema s) w
    (fun _ r => forall a, r = Ok a -> a = Mcap.s_id s)) by (intros s0 w0; do 2 skip; apply hoare_ret; congruence).
  destruct schema as [s|].
  - destruct (Mcap.register_schema_refines maps counts s w file sent Hw) as (a & w' & out & He & Hr & Hh).
    pose proof (emits_value _ _ _ _ _ _ He (Hv s w)) as ->. exists (Mcap.s_id s), w', out. rewrite app_nil_r in Hh.
    rewrite Hr. split; [done|]. split; [done|]. split; [|done]. cbn. by rewrite lookup_insert_eq.
  - set (s := {| Mcap.s_id := Mcap.next_schema_id (Mcap.registry w); Mcap.s_name := "omniedge/" +:+ id;
      Mcap.s_encoding := "jsonschema"; Mcap.s_data := string_bytes "{}" |}).
    set (w1 := Mcap.set_registry (Mcap.take_schema_id (Mcap.registry w)) w).
    destruct (Mcap.register_schema_refines maps counts s w1 file sent Hw) as (a & w' & out & He & Hr & Hh).
    pose proof (emits_value _ _ _ _ _ _ He (Hv s w1)) as ->. exists (Mcap.s_id s), w', out. rewrite app_nil_r in Hh.
    rewrite Hr. split; [|split; [done|split; [|done]]].
    + eapply Mcap.emits_pure; [apply Mcap.emits_gets|]. eapply Mcap.emits_pure; [apply Mcap.emits_modify|]. exact He.
    + cbn. by rewrite lookup_insert_eq.
Qed.

Lemma channel_step sid id w file sent :
  Mcap.holds w file sent -> is_Some (Mcap.schemas (Mcap.registry w) !! sid) -> channels_ok w ->
  exists ch w' out,
    Mcap.emits maps counts (Mcap.add_channel sid ("/" +:+ id) "json") w (Ok ch) w' out /\
    Mcap.holds w' (file ++ out) sent /\ channels_ok w' /\ ch = Mcap.next_channel_id (Mcap.registry w) /\
    (exists c, Mcap.channels (Mcap.registry w') = <[ch := c]> (Mcap.channels (Mcap.registry w))) /\
    Mcap.stream_to_channel (Mcap.registry w') = Mcap.stream_to_channel (Mcap.registry w).
Proof.
  intros Hw Hs Hc. set (c := Mcap.Channel_new (Mcap.next_channel_id (Mcap.registry w)) sid ("/" +:+ id) "json").
  set (w1 := Mcap.set_registry (Mcap.take_channel_id (Mcap.registry w)) w).
  pose proof (Mcap.register_channel_refines maps counts c w1 file sent Hw) as Hr. unfold Mcap.spec_channel in Hr.
  assert (E : (Mcap.c_schema_id c =? 0) || bool_decide (is_Some (Mcap.schemas (Mcap.registry w1) !! Mcap.c_schema_id c)) = true)
    by (rewrite orb_true_iff; right; by apply bool_decide_eq_true).
  rewrite E in Hr. destruct Hr as (a & w' & out & He & Hr & Hh).
  assert (Hv : hoare (fun _ _ => True) (fun _ _ _ => True) (Mcap.register_channel c) w1 (fun _ r => forall a, r = Ok a -> a = Mcap.c_id c)).
  { apply hoare_bind, hoare_gets. case_match; [done|]. do 2 skip. apply hoare_ret. congruence. }
  pose proof (emits_value _ _ _ _ _ _ He Hv) as ->. rewrite app_nil_r in Hh.
  exists (Mcap.c_id c), w', out. rewrite Hr. split; [|split; [done|split; [|split; [done|split; [by exists c|done]]]]].
  - eapply Mcap.emits_pure; [apply Mcap.emits_gets|]. eapply Mcap.emits_pure; [apply Mcap.emits_modify|]. exact He.
  - unfold channels_ok. rewrite Hr. cbn. apply wrap_add_bound. unfold u16_max. lia.
Qed.

Lemma has_stream_keep id w w' ch c :
  Mcap.channels (Mcap.registry w') = <[ch := c]> (Mcap.channels (Mcap.registry w)) ->
  (forall k, is_Some (Mcap.stream_to_channel (Mcap.registry w) !! id) ->
     Mcap.stream_to_channel (Mcap.registry w) !! id = Some k -> Mcap.stream_to_channel (Mcap.registry w') !! id = Some k) ->
  has_stream id w -> has_stream id w'.
Proof.
  intros Hch Hst (k & Hk & Hs & Hr). exists k. split; [by apply Hst|]. split; [|done]. rewrite Hch.
  destruct (decide (k = ch)) as [->|Hne]; [by rewrite lookup_insert_eq|by rewrite lookup_insert_ne].
Qed.

Lemma add_channels_adds fd schemas ids w file sent :
  Mcap.holds w file sent -> channels_ok w ->
  exists w' out, adds (add_channels fd schemas ids) w (Ok tt) w' out /\ Mcap.holds w' (file ++ out) sent /\
    (forall id, id ∈ ids \/ has_stream id w -> has_stream id w').
Proof.
  revert w file. induction ids as [|id ids IH]; intros w file Hw Hc.
  - exists w, []. rewrite app_nil_r. split; [apply adds_ret|]. split; [done|]. set_solver.
  - destruct (schema_step (schemas !! id) id w file sent Hw) as (sid & w1 & o1 & He1 & Hh1 & Hs1 & Hch1 & Hst1 & Hn1).
    assert (Hc1 : channels_ok w1) by (unfold channels_ok; by rewrite Hn1).
    destruct (channel_step sid id w1 _ sent Hh1 Hs1 Hc1) as (ch & w2 & o2 & He2 & Hh2 & Hc2 & Hch & (c & Hchs) & Hst2).
    set (w3 := Mcap.set_registry (Mcap.insert_stream id ch (Mcap.registry w2)) w2).
    assert (Hh3 : Mcap.holds w3 ((file ++ o1) ++ o2) sent) by exact Hh2.
    assert (Hsome : is_Some (Mcap.channels (Mcap.registry w2) !! ch)) by (rewrite Hchs, lookup_insert_eq; by eexists).
    destruct (IH w3 _ Hh3 Hc2) as (w4 & o4 & He4 & Hh4 & Hall). exists w4, (o1 ++ o2 ++ o4). split; [|split].
    + eapply adds_bind; [by apply adds_on_mcap|]. eapply adds_bind; [by apply adds_on_mcap|].
      eapply adds_pure; [|exact He4]. apply adds_on_mcap. eapply Mcap.emits_pure; [apply Mcap.emits_gets|].
      unfold Mcap.has_channel. rewrite bool_decide_true by done. eapply Mcap.emits_pure; [apply Mcap.emits_ret|].
      apply Mcap.emits_modify.
    + by rewrite !app_assoc.
    + intros i Hi. apply Hall.
      destruct (decide (i = id)) as [->|Hne].
      * right. exists ch. cbn. rewrite lookup_insert_eq. split; [done|]. split; [done|]. rewrite Hch. exact Hc1.
      * destruct Hi as [[?|Hi]%elem_of_cons|Hi]; [done|by left|]. right.
        apply (has_stream_keep i w w3 ch c); [by cbn; rewrite Hchs, Hch1| |done].
        intros k _ Hk. cbn. rewrite lookup_insert_ne by done. by rewrite Hst2, Hst1.
Qed.

(** *** The samples *)

Definition content (s : Sample) : Z * list Z := (Buffer.timestamp_ns s, to_bytes (Buffer.data s)).

Lemma write_sample_step s w file sent :
  Mcap.holds w file sent -> has_stream (Buffer.stream_id s) w ->
  exists ch w' out, Mcap.emits maps counts (Mcap.write_sample to_bytes s) w (Ok tt) w' out /\ 0 <= ch <= u16_max /\
    Mcap.registry w' = Mcap.registry w /\ Mcap.holds w' (file ++ out) (sent ++ [(ch, (content s).1, (content s).2)]).
Proof.
  intros Hw (ch & Hst & Hs & Hr).
  pose proof (Mcap.write_message_refines maps counts ch (Buffer.timestamp_ns s) (to_bytes (Buffer.data s)) w file sent Hw) as H.
  unfold Mcap.spec_message in H. rewrite bool_decide_true in H by done. destruct H as ([] & w' & out & He & Hreg & Hh).
  exists ch, w', out. split; [|done]. eapply Mcap.emits_pure; [apply Mcap.emits_gets|]. rewrite Hst.
  eapply Mcap.emits_pure; [apply Mcap.emits_ret|]. exact He.
Qed.

Lemma write_samples_adds fd cb i total samples w file sent :
  Mcap.holds w file sent -> Forall (fun s => has_stream (Buffer.stream_id s) w) samples ->
  exists more w' out, adds (write_samples fd cb i total samples) w (Ok tt) w' out /\
    Mcap.holds w' (file ++ out) (sent ++ more) /\ map (fun m : Mcap.Sent => (m.1.2, m.2)) more = map content samples /\
    Forall (fun m : Mcap.Sent => 0 <= m.1.1 <= u16_max) more.
Proof.
  revert i w file sent. induction samples as [|s samples IH]; intros i w file sent Hw Hs.
  - exists [], w, []. rewrite !app_nil_r. split; [apply adds_ret|]. done.
  - apply Forall_cons in Hs as [Hs Hss].
    destruct (write_sample_step s w file sent Hw Hs) as (ch & w1 & o1 & He1 & Hch & Hreg & Hh1).
    assert (Hss1 : Forall (fun s => has_stream (Buffer.stream_id s) w1) samples)
      by (eapply Forall_impl; [exact Hss|]; intros x (k & ?); exists k; by rewrite Hreg).
    destruct (IH (i + 1) w1 _ _ Hh1 Hss1) as (more & w2 & o2 & He2 & Hh2 & Hm & Hc).
    exists ((ch, (content s).1, (content s).2) :: more), w2, (o1 ++ o2). split; [|split; [|split]].
    + cbn [write_samples]. eapply adds_bind; [by apply adds_on_mcap|]. eapply adds_pure; [apply adds_report_every|]. exact He2.
    + rewrite <- (app_assoc sent) in Hh2. rewrite app_assoc. exact Hh2.
    + cbn. by rewrite Hm.
    + by constructor.
Qed.

(** *** The rest of the file *)

Lemma add_attachment_adds fd name media data w file sent :
  Mcap.holds w file sent ->
  exists w' out, adds (on_mcap fd (Mcap.add_attachment name media data)) w (Ok tt) w' out /\ Mcap.holds w' (file ++ out) sent.
Proof.
  intros Hw. destruct (Mcap.add_attachment_refines maps counts name media data w file sent Hw) as ([] & w' & out & He & _ & Hh).
  rewrite app_nil_r in Hh. exists w', out. split; [by apply adds_on_mcap|done].
Qed.

Lemma add_calibration_adds fd cams w file sent :
  Mcap.holds w file sent ->
  exists w' out, adds (add_calibration fd cams) w (Ok tt) w' out /\ Mcap.holds w' (file ++ out) sent.
Proof.
  revert w file. induction cams as [|[id data] cams IH]; intros w file Hw.
  - exists w, []. rewrite app_nil_r. split; [apply adds_ret|done].
  - destruct (add_attachment_adds fd ("calibration_" +:+ id +:+ ".yaml") "application/x-yaml" data w file sent Hw)
      as (w1 & o1 & He1 & Hh1). destruct (IH w1 _ Hh1) as (w2 & o2 & He2 & Hh2). exists w2, (o1 ++ o2).
    rewrite app_assoc. split; [|done]. by eapply adds_bind.
Qed.

Lemma attachments_add fd p w file sent :
  Mcap.holds w file sent ->
  exists w' out, adds (_ ← add_urdf fd p; add_calibrations fd p) w (Ok tt) w' out /\ Mcap.holds w' (file ++ out) sent.
Proof.
  intros Hw.
  assert (exists w1 o1, adds (add_urdf fd p) w (Ok tt) w1 o1 /\ Mcap.holds w1 (file ++ o1) sent) as (w1 & o1 & He1 & Hh1).
  { unfold add_urdf. destruct (include_urdf (config p)), (urdf_data p);
      [by apply add_attachment_adds|exists w, []; rewrite app_nil_r; split; [apply adds_ret|done]..]. }
  assert (exists w2 o2, adds (add_calibrations fd p) w1 (Ok tt) w2 o2 /\ Mcap.holds w2 ((file ++ o1) ++ o2) sent)
    as (w2 & o2 & He2 & Hh2).
  { unfold add_calibrations. destruct (include_calibration (config p)), (calibration_data p) as [m|];
      [|exists w1, []; rewrite app_nil_r; split; [apply adds_ret|done]..].
    destruct (add_calibration_adds fd (cameras m) w1 _ sent Hh1) as (w2 & o2 & He2 & Hh2). exists w2, o2. split; [|done].
    eapply adds_pure; [by apply adds_nothing|exact He2]. }
  exists w2, (o1 ++ o2). rewrite app_assoc. split; [by eapply adds_bind|done].
Qed.

Lemma write_mcap_adds c fd cb p id start_time end_time cnts samples :
  Forall (fun s => Buffer.stream_id s ∈ keys cnts) samples ->
  exists sent w' out, adds (write_mcap fd cb p id start_time end_time cnts samples) (Mcap.McapWriter_new c) (Ok tt) w' out /\
    Mcap.finished w' out sent /\ map (fun m : Mcap.Sent => (m.1.2, m.2)) sent = map content samples /\
    Forall (fun m : Mcap.Sent => 0 <= m.1.1 <= u16_max) sent.
Proof.
  intros Hk. destruct (Mcap.start_holds maps counts c) as (w0 & o0 & He0 & Hr0 & Hh0).
  assert (Hc0 : channels_ok w0) by (unfold channels_ok; rewrite Hr0; cbn; unfold u16_max; lia).
  destruct (add_channels_adds fd (stream_schemas p) (keys cnts) w0 o0 [] Hh0 Hc0) as (w1 & o1 & He1 & Hh1 & Hs1).
  assert (Hst : Forall (fun s => has_stream (Buffer.stream_id s) w1) samples)
    by (eapply Forall_impl; [exact Hk|]; intros x Hx; apply Hs1; by left).
  destruct (write_samples_adds fd cb 0 (Z.of_nat (length samples)) samples w1 _ _ Hh1 Hst)
    as (sent & w2 & o2 & He2 & Hh2 & Hm & Hc).
  destruct (attachments_add fd p w2 _ _ Hh2) as (w3 & o3 & He3 & Hh3).
  destruct (Mcap.add_metadata_refines maps counts "episode_info"
    (episode_info id start_time end_time (Z.of_nat (length samples))) w3 _ _ Hh3) as ([] & w4 & o4 & He4 & _ & Hh4).
  rewrite app_nil_r in Hh4. destruct (Mcap.finish_finishes maps counts w4 _ _ Hh4) as (w5 & o5 & He5 & Hf5).
  exists sent, w5, (o0 ++ o1 ++ o2 ++ o3 ++ o4 ++ o5). split; [|split; [rewrite !app_assoc; exact Hf5|done]].
  eapply adds_bind; [by apply adds_on_mcap|]. eapply adds_pure; [by apply adds_nothing|].
  eapply adds_bind; [exact He1|]. eapply adds_bind; [exact He2|].
  assert (Hrest : adds (_ ← on_mcap fd (Mcap.add_metadata "episode_info"
      (episode_info id start_time end_time (Z.of_nat (length samples)))); _ ← on_mcap fd Mcap.finish; mret tt) w3 (Ok tt) w5 (o4 ++ o5)).
  { eapply adds_bind; [by apply adds_on_mcap|]. rewrite <- (app_nil_r o5).
    eapply adds_bind; [by apply adds_on_mcap|apply adds_ret]. }
  intros file. specialize (He3 file). rewrite run_sm_bind in He3 |- *.
  destruct (run_prog bench (add_urdf fd p w2) file) as [[w' [[]|e]] file'] eqn:Eu; [|done].
  rewrite run_sm_bind, He3. specialize (Hrest (file ++ o3)). rewrite Hrest. by rewrite <- !app_assoc.
Qed.

(** *** Collecting and filtering *)

(** The samples of the window, stream by stream. *)
Definition window (start_time end_time : Z) (ids : list string) : list Sample :=
  concat (map (fun id => from_option (fun b => Buffer.get_range b start_time end_time) [] (buffer_of id)) ids).

Lemma collect_adds ids start_time end_time samples cnts p :
  exists cnts', adds (collect ids start_time end_time samples cnts) p
      (Ok (samples ++ window start_time end_time ids, cnts')) p [] /\
    forall id, is_Some (cnts !! id) \/ (id ∈ ids /\ is_Some (buffer_of id)) -> is_Some (cnts' !! id).
Proof.
  revert samples cnts. induction ids as [|id ids IH]; intros samples cnts.
  - exists cnts. unfold window. cbn. rewrite app_nil_r. split; [apply adds_ret|]. intros id [?|[H _]]; [done|]. by apply elem_of_nil in H.
  - destruct (buffer_of id) as [b|] eqn:E.
    + destruct (IH (samples ++ Buffer.get_range b start_time end_time)
        (<[id := Z.of_nat (length (Buffer.get_range b start_time end_time))]> cnts)) as (cnts' & Ha & Hc). exists cnts'. split.
      * unfold window. cbn [map concat]. rewrite E. cbn [from_option]. rewrite <- app_assoc in Ha.
        intros file. cbn [collect]. rewrite run_sm_bind. cbn [run_prog call bench fmap option_fmap option_map]. rewrite E. exact (Ha file).
      * intros i [Hi|[[->|Hi]%elem_of_cons Hb]]; apply Hc; [|left; by rewrite lookup_insert_eq|by right].
        left. destruct (decide (i = id)) as [->|Hne]; [by rewrite lookup_insert_eq|by rewrite lookup_insert_ne].
    + destruct (IH samples cnts) as (cnts' & Ha & Hc). exists cnts'. split.
      * unfold window. cbn [map concat]. rewrite E. cbn [from_option app].
        intros file. cbn [collect]. rewrite run_sm_bind. cbn [run_prog call bench fmap option_fmap option_map]. rewrite E. exact (Ha file).
      * intros i [Hi|[[->|Hi]%elem_of_cons [b Hb]]]; apply Hc; [by left|congruence|right; split; [done|by exists b]].
Qed.

(** The packager as made, but for its statistics. *)
Definition default_filters (p : EpisodePackager) : Prop :=
  exists c, Privacy.filters (privacy_manager p) = Privacy.filters (Privacy.with_default_filters hex_encode c).

Lemma filter_sample_adds s p :
  default_filters p ->
  exists m, adds (filter_sample s) p (Ok (s, 0)) (set_privacy m p) [] /\ default_filters (set_privacy m p).
Proof.
  intros [c Hp].
  assert (Hsame : set_privacy (privacy_manager p) p = p) by by destruct p.
  destruct (is_image_stream (config p) (Buffer.stream_id s)) eqn:E.
  - destruct (get_image_dimensions (streams (config p)) (Buffer.stream_id s)) as [w h] eqn:Ed.
    destruct (Privacy.default_filters_never_blur hex_encode c (privacy_manager p) [] (Buffer.stream_id s)
      (to_bytes (Buffer.data s)) w h Hp) as (r & st & Hr & Hdata & Hdet & Hmod).
    exists (Privacy.set_stats st (privacy_manager p)). split; [|by exists c].
    unfold filter_sample. eapply adds_pure; [by apply adds_nothing|]. cbn [id]. rewrite E, Ed.
    eapply adds_pure; [by apply adds_nothing|]. rewrite Hr. eapply adds_pure; [by apply adds_nothing|].
    rewrite Hmod. apply adds_ret.
  - exists (privacy_manager p). rewrite Hsame. split; [|by exists c].
    unfold filter_sample. eapply adds_pure; [by apply adds_nothing|]. cbn [id]. rewrite E. apply adds_ret.
Qed.

Lemma apply_privacy_adds cb i total samples processed found p :
  default_filters p ->
  exists m found', adds (apply_privacy cb i total samples processed found) p (Ok (processed ++ samples, found'))
    (set_privacy m p) [].
Proof.
  revert i processed found p. induction samples as [|s samples IH]; intros i processed found p Hp.
  - exists (privacy_manager p), found. rewrite app_nil_r.
    assert (set_privacy (privacy_manager p) p = p) as -> by by destruct p. apply adds_ret.
  - destruct (filter_sample_adds s p Hp) as (m1 & H1 & Hp1).
    destruct (IH (i + 1) (push processed s) (wrap_add u64_max found 0) (set_privacy m1 p) Hp1) as (m2 & f2 & H2).
    exists m2, f2. cbn [apply_privacy]. eapply adds_pure; [exact H1|]. eapply adds_pure; [apply adds_report_every|].
    unfold push in H2. rewrite <- app_assoc in H2. exact H2.
Qed.

(** *** The whole *)

(** The samples in a buffer carry the name of its stream. *)
Definition labelled : Prop :=
  forall id b s, buffer_of id = Some b -> s ∈ Buffer.samples b -> Buffer.stream_id s = id.

Lemma window_streams start_time end_time ids s :
  labelled -> s ∈ window start_time end_time ids ->
  Buffer.stream_id s ∈ ids /\ is_Some (buffer_of (Buffer.stream_id s)).
Proof.
  intros Hl Hs. unfold window in Hs. apply list_elem_of_In, in_concat in Hs as (l & Hlist & Hin).
  apply in_map_iff in Hlist as (id & <- & Hid). apply list_elem_of_In in Hin, Hid.
  destruct (buffer_of id) as [b|] eqn:E; [|by apply elem_of_nil in Hin]. cbn in Hin. unfold Buffer.get_range in Hin.
  rewrite sort_by_perm in Hin. apply list_elem_of_In, filter_In in Hin as [Hin _]. apply list_elem_of_In in Hin.
  rewrite (Hl id b s E Hin). by rewrite E.
Qed.

Lemma window_times start_time end_time ids s :
  s ∈ window start_time end_time ids -> start_time <= Buffer.timestamp_ns s <= end_time.
Proof.
  unfold window. intros (l & Hlist & Hin)%list_elem_of_In%in_concat. apply in_map_iff in Hlist as (i & <- & _).
  destruct (buffer_of i); [|done]. cbn in Hin. apply list_elem_of_In in Hin. unfold Buffer.get_range in Hin.
  rewrite sort_by_perm in Hin. apply list_elem_of_In, filter_In in Hin as [_ Hwin]. unfold Buffer.in_window in Hwin.
  reflect_bools. lia.
Qed.

(** A run on a given file. *)
Definition runs {S A} (m : PM S A) (s : S) (file : list Z) (r : result PackagerError A) (s' : S) (file' : list Z) : Prop :=
  run_prog bench (m s) file = ((s', r), file').

Lemma runs_bind {S A B} (m : PM S A) (f : A -> PM S B) s file a s1 file1 r s2 file2 :
  runs m s file (Ok a) s1 file1 -> runs (f a) s1 file1 r s2 file2 -> runs (m ≫= f) s file r s2 file2.
Proof. unfold runs. intros Hm Hf. by rewrite run_sm_bind, Hm. Qed.
Lemma runs_quiet {S A B} (m : PM S A) (f : A -> PM S B) s file a s1 r s2 file2 :
  adds m s (Ok a) s1 [] -> runs (f a) s1 file r s2 file2 -> runs (m ≫= f) s file r s2 file2.
Proof. intros Hm Hf. eapply runs_bind; [|exact Hf]. unfold runs. rewrite (Hm file). by rewrite app_nil_r. Qed.

Lemma with_writer_runs {A} fd w (m : PM Mcap.McapWriter A) p a w' out :
  adds m w (Ok a) w' out -> runs (with_writer fd w m) p [] (Ok a) p out.
Proof. intros Hm. unfold runs, with_writer. rewrite run_bind, (Hm []). done. Qed.

Lemma write_metadata_adds c id md text p :
  metadata_json md = Ok text -> exists o, adds (write_metadata metadata_json c id md) p (Ok o) p [].
Proof.
  intros Ht. unfold write_metadata. destruct (include_metadata c).
  - exists (Some (metadata_path c id)). rewrite Ht. by apply adds_nothing.
  - exists None. apply adds_ret.
Qed.

Context (Hkeys : forall m k, is_Some (m !! k) -> k ∈ keys m).

Lemma do_package_runs id start_time end_time md text cb p :
  default_filters p -> labelled -> metadata_json md = Ok text ->
  let samples := sort_by Buffer.older (window start_time end_time (Buffer.stream_ids store)) in
  samples <> [] ->
  exists r p' file w' sent, runs (do_package metadata_json id start_time end_time md cb) p [] (Ok r) p' file /\
    Storage.total_samples r = Z.of_nat (length samples) /\ Storage.file_size_bytes r = Z.of_nat (length file) /\
    Mcap.finished w' file sent /\ map (fun m : Mcap.Sent => (m.1.2, m.2)) sent = map content samples /\
    Forall (fun m : Mcap.Sent => 0 <= m.1.1 <= u16_max) sent.
Proof.
  intros Hp Hl Ht samples Hne. unfold do_package. set (ids := Buffer.stream_ids store) in *.
  destruct (collect_adds ids start_time end_time [] ∅ p) as (cnts & Hcol & Hcnts).
  destruct (apply_privacy_adds cb 0 (Z.of_nat (length samples)) samples [] 0 p Hp) as (m & found & Hpriv).
  assert (Hk : Forall (fun s => Buffer.stream_id s ∈ keys cnts) samples).
  { apply Forall_forall. intros s Hs. unfold samples in Hs. rewrite sort_by_perm in Hs.
    destruct (window_streams start_time end_time ids s Hl Hs) as [H1 H2]. apply Hkeys, Hcnts. by right. }
  set (c := from_option Datatypes.id Mcap.McapWriterConfig_default (mcap_config (config p))).
  destruct (write_mcap_adds c 3 cb (set_privacy m p) id start_time end_time cnts samples Hk)
    as (sent & w' & out & Hw & Hf & Hm & Hch).
  destruct (write_metadata_adds (config p) id md text (set_privacy m p) Ht) as (o & Ho).
  eexists _, (set_privacy m p), out, w', sent. split; [|split; [|split; [|done]]].
  - do 5 (eapply runs_quiet; [first [apply adds_report|by apply adds_nothing]|]). eapply runs_quiet; [by apply adds_nothing|].
    eapply runs_quiet; [exact Hcol|]. cbv beta iota. cbn [app].
    rewrite bool_decide_false by (intros H; apply Hne; unfold samples; by rewrite H).
    eapply runs_quiet; [apply adds_ret|]. cbv zeta. fold samples. eapply runs_quiet; [apply adds_report|].
    eapply runs_quiet; [exact Hpriv|]. eapply runs_quiet; [apply adds_report|]. eapply runs_quiet; [by apply adds_nothing|].
    eapply runs_quiet; [by apply adds_nothing|]. eapply runs_bind; [exact (with_writer_runs 3 _ _ _ _ _ _ Hw)|].
    eapply runs_quiet; [apply adds_report|]. eapply runs_quiet; [exact Ho|].
    eapply runs_bind; [reflexivity|]. eapply runs_quiet; [apply adds_report|]. eapply runs_quiet; [apply adds_report|].
    reflexivity.
  - done.
  - done.
Qed.

End Bench.

(** ** Examples *)

Module Demo.
#[local] Instance json : SampleJson unit := {|
  joint_json _ := Err ""; command_json _ := Err ""; sensor_json _ := Err ""; event_json _ := Err "";
  teleop_json _ := Err "" |}.

Definition sample (t : Z) (bytes : list Z) : @Buffer.DataSample (SampleData unit) :=
  {| Buffer.stream_id := "rgb"; Buffer.timestamp_ns := t; Buffer.sequence := 0; Buffer.data := Binary bytes |}.

Definition buffer : @Buffer.RingBuffer (SampleData unit) := {|
  Buffer.rb_stream_id := "rgb"; Buffer.storage := [Some (sample 30 [3]); Some (sample 10 [1]); None; Some (sample 20 [2; 2])];
  Buffer.write_pos := 3; Buffer.total_written := 3; Buffer.capacity := 4; Buffer.max_age_ns := 0;
  Buffer.rb_stats := Buffer.BufferStats_default |}.

Definition store : @Buffer.Store (SampleData unit) := {|
  Buffer.manager := {| Buffer.buffers := {["rgb" := 0%nat]}; Buffer.total_memory_limit := 0;
    Buffer.current_memory_used := 0; Buffer.default_capacity := 4; Buffer.default_max_age_ns := 0 |};
  Buffer.heap := {[0%nat := buffer]}; Buffer.next_ref := 1%nat |}.

Definition keys (m : gmap string Z) : list string := (map_to_list m).*1.
Definition system := bench store keys map_to_list map_to_list map_to_list.
Definition packager : EpisodePackager := EpisodePackager_new (D := demo_digests) bytes_string (PackagerConfig_new "/data").
Definition package (start_time end_time : Z) := package_episode (Json := unit) (Metadata := string) Ok "e1" start_time end_time "{}".

Lemma keys_complete m k : is_Some (m !! k) -> k ∈ keys m.
Proof.
  intros [v Hv]. unfold keys. apply list_elem_of_fmap. exists (k, v). split; [done|]. by apply elem_of_map_to_list.
Qed.

Lemma store_labelled : labelled store.
Proof.
  intros id b s. unfold buffer_of, Buffer.get_buffer. cbn. destruct (decide (id = "rgb")) as [->|Hne].
  - rewrite lookup_singleton_eq. cbn. rewrite lookup_singleton_eq. intros [= <-]. cbn.
    rewrite !elem_of_cons. intros [-> | [-> | [-> | H]]]; [done..|]. by apply elem_of_nil in H.
  - by rewrite lookup_singleton_ne.
Qed.


(** A window without samples is refused when the directories already exist. *)
Example nothing_to_package :
  let answer (R : Set) (c : PkgCall R) : R := (system R c []).1 in
  let directories := omap (fun c : Call (@PkgCall unit) => match projT2 c with CreateDirAll p => Some p | _ => None end)
    (calls answer (package 100 200) packager) in
  returns answer (package 100 200) packager = Err NoDataAvailable /\ directories = ["/data"; "/data/e1"].
Proof. by vm_compute. Qed.
End Demo.
