(* ===== verification/Upload.v ===== *)
(** * Cloud uploads (omni-plugin/src/robotics/data_collection/upload.rs)

    The configuration of the upload target and the manager's queue.  The code
    does not transfer anything yet: [do_upload] looks at the local files and
    reports where they would go.  The manager is a program over the calls it
    makes to the clock and the file system. *)

From Stdlib Require Import Ascii Sorting.Sorted.
From S2P Require Import Prelude RustStr Paths Effects SortBy Storage.

Open Scope string_scope.
Open Scope list_scope.
Open Scope Z_scope.

Inductive UploadError : Set :=
| Io (e : string) | Network (e : string) | AuthFailed (e : string) | PermissionDenied (e : string)
| BucketNotFound (e : string) | ObjectTooLarge (size_bytes max_bytes : Z) | RateLimited (retry_after_secs : Z)
| Cancelled | MaxRetriesExceeded (e : string) | InvalidConfig (e : string) | EpisodeNotFound (e : string)
| ProviderError (e : string) | SerializationError (e : string).

Inductive CloudProvider : Set := S3 | Gcs | Azure | Minio | CustomProvider.

Definition default_endpoint (p : CloudProvider) : option string :=
  match p with
  | Gcs => Some "https://storage.googleapis.com"
  | Minio => Some "http://localhost:9000"
  | S3 | Azure | CustomProvider => None
  end.

(** The environment variables of the process. *)
Definition Env : Type := string -> option string.

Record S3Credentials : Set := {
  access_key_id : option string; secret_access_key : option string; session_token : option string;
  region : string; profile : option string; credentials_file : option string; use_instance_credentials : bool }.

(** [Default] is derived: the region is empty there, not [default_region]. *)
Definition S3Credentials_default : S3Credentials := {|
  access_key_id := None; secret_access_key := None; session_token := None; region := "";
  profile := None; credentials_file := None; use_instance_credentials := false |}.

Definition default_region : string := "us-east-1".

(** [a.or_else(b)]. *)
Definition or_else {A} (a b : option A) : option A := match a with Some _ => a | None => b end.

Definition S3Credentials_from_env (env : Env) : S3Credentials := {|
  access_key_id := env "AWS_ACCESS_KEY_ID"; secret_access_key := env "AWS_SECRET_ACCESS_KEY";
  session_token := env "AWS_SESSION_TOKEN";
  region := default default_region (or_else (env "AWS_REGION") (env "AWS_DEFAULT_REGION"));
  profile := env "AWS_PROFILE"; credentials_file := None; use_instance_credentials := false |}.

Definition with_keys (key secret : string) : S3Credentials := {|
  access_key_id := Some key; secret_access_key := Some secret; session_token := None; region := "";
  profile := None; credentials_file := None; use_instance_credentials := false |}.

Definition with_region (r : string) (c : S3Credentials) : S3Credentials := {|
  access_key_id := access_key_id c; secret_access_key := secret_access_key c; session_token := session_token c;
  region := r; profile := profile c; credentials_file := credentials_file c;
  use_instance_credentials := use_instance_credentials c |}.

Definition with_profile (p : string) (c : S3Credentials) : S3Credentials := {|
  access_key_id := access_key_id c; secret_access_key := secret_access_key c; session_token := session_token c;
  region := region c; profile := Some p; credentials_file := credentials_file c;
  use_instance_credentials := use_instance_credentials c |}.

Definition with_instance_credentials (c : S3Credentials) : S3Credentials := {|
  access_key_id := access_key_id c; secret_access_key := secret_access_key c; session_token := session_token c;
  region := region c; profile := profile c; credentials_file := credentials_file c;
  use_instance_credentials := true |}.

Definition is_some {A} (o : option A) : bool := match o with Some _ => true | None => false end.

Definition s3_configured (c : S3Credentials) : bool :=
  is_some (access_key_id c) && is_some (secret_access_key c) || is_some (profile c) || use_instance_credentials c.

Record GcsCredentials : Set := {
  service_account_key : option string; service_account_json : option string;
  project_id : option string; use_application_default : bool }.

Definition GcsCredentials_default : GcsCredentials := {|
  service_account_key := None; service_account_json := None; project_id := None; use_application_default := false |}.

Definition GcsCredentials_from_env (env : Env) : GcsCredentials := {|
  service_account_key := env "GOOGLE_APPLICATION_CREDENTIALS"; service_account_json := None;
  project_id := or_else (env "GOOGLE_CLOUD_PROJECT") (env "GCLOUD_PROJECT"); use_application_default := true |}.

Definition with_service_account (p : string) : GcsCredentials := {|
  service_account_key := Some p; service_account_json := None; project_id := None; use_application_default := false |}.

Definition with_project (p : string) (c : GcsCredentials) : GcsCredentials := {|
  service_account_key := service_account_key c; service_account_json := service_account_json c;
  project_id := Some p; use_application_default := use_application_default c |}.

Definition gcs_configured (c : GcsCredentials) : bool :=
  is_some (service_account_key c) || is_some (service_account_json c) || use_application_default c.

Record AzureCredentials : Set := {
  account_name : option string; account_key : option string; connection_string : option string;
  sas_token : option string; use_managed_identity : bool }.

Definition AzureCredentials_default : AzureCredentials := {|
  account_name := None; account_key := None; connection_string := None; sas_token := None;
  use_managed_identity := false |}.

Definition AzureCredentials_from_env (env : Env) : AzureCredentials := {|
  account_name := env "AZURE_STORAGE_ACCOUNT"; account_key := env "AZURE_STORAGE_KEY";
  connection_string := env "AZURE_STORAGE_CONNECTION_STRING"; sas_token := None; use_managed_identity := false |}.

Definition azure_configured (c : AzureCredentials) : bool :=
  is_some (connection_string c) || (is_some (account_name c) && is_some (account_key c)) ||
  is_some (sas_token c) || use_managed_identity c.

Record UploadConfig : Set := {
  provider : CloudProvider; bucket : string; prefix : string; endpoint : option string;
  s3_credentials : S3Credentials; gcs_credentials : GcsCredentials; azure_credentials : AzureCredentials;
  max_concurrent : Z; max_retries : Z; retry_delay_ms : Z; multipart_threshold : Z; chunk_size : Z;
  verify_checksum : bool; storage_class : option string; custom_metadata : gmap string string;
  upload_metadata : bool; delete_after_upload : bool }.

(** [UploadConfig] with the defaults for everything but the target. *)
Definition target (p : CloudProvider) (b : string) (e : option string) (s3 : S3Credentials)
    (gcs : GcsCredentials) (azure : AzureCredentials) : UploadConfig := {|
  provider := p; bucket := b; prefix := ""; endpoint := e;
  s3_credentials := s3; gcs_credentials := gcs; azure_credentials := azure;
  max_concurrent := 4; max_retries := 3; retry_delay_ms := 1000;
  multipart_threshold := 100 * 1024 * 1024; chunk_size := 8 * 1024 * 1024;
  verify_checksum := true; storage_class := None; custom_metadata := ∅;
  upload_metadata := true; delete_after_upload := false |}.

Definition UploadConfig_default : UploadConfig :=
  target S3 "" None S3Credentials_default GcsCredentials_default AzureCredentials_default.
Definition s3 (env : Env) (b : string) : UploadConfig :=
  target S3 b None (S3Credentials_from_env env) GcsCredentials_default AzureCredentials_default.
Definition gcs (env : Env) (b : string) : UploadConfig :=
  target Gcs b None S3Credentials_default (GcsCredentials_from_env env) AzureCredentials_default.
Definition azure (env : Env) (container : string) : UploadConfig :=
  target Azure container None S3Credentials_default GcsCredentials_default (AzureCredentials_from_env env).
Definition minio (env : Env) (b e : string) : UploadConfig :=
  target Minio b (Some e) (S3Credentials_from_env env) GcsCredentials_default AzureCredentials_default.

(** [is_configured] of the manager, and the guard of [validate]. *)
Definition is_configured (c : UploadConfig) : bool :=
  match provider c with
  | S3 | Minio | CustomProvider => s3_configured (s3_credentials c)
  | Gcs => gcs_configured (gcs_credentials c)
  | Azure => azure_configured (azure_credentials c)
  end.

Definition credentials_message (p : CloudProvider) : string :=
  match p with
  | S3 | Minio | CustomProvider =>
      "S3 credentials not configured. Set AWS_ACCESS_KEY_ID and AWS_SECRET_ACCESS_KEY environment variables or configure credentials in UploadConfig"
  | Gcs => "GCS credentials not configured. Set GOOGLE_APPLICATION_CREDENTIALS environment variable or configure service account in UploadConfig"
  | Azure => "Azure credentials not configured. Set AZURE_STORAGE_CONNECTION_STRING environment variable or configure credentials in UploadConfig"
  end.

Definition validate (c : UploadConfig) : result UploadError unit :=
  if bool_decide (bucket c = "") then Err (InvalidConfig "Bucket name is required")
  else if negb (is_configured c) then Err (InvalidConfig (credentials_message (provider c)))
  else if chunk_size c <? 5 * 1024 * 1024 then Err (InvalidConfig "Chunk size must be at least 5 MB")
  else Ok tt.

Definition object_key (c : UploadConfig) (episode_id filename : string) : string :=
  if bool_decide (prefix c = "") then episode_id +:+ "/" +:+ filename
  else trim_end_matches "/" (prefix c) +:+ "/" +:+ episode_id +:+ "/" +:+ filename.

(** ** The queue *)

Record UploadJob : Set := {
  episode_id : string; mcap_path : string; metadata_path : option string; priority : Z; created_at : Z }.

(** [from_entry] at the time [now]. *)
Definition from_entry (now : Z) (entry : EpisodeIndexEntry) (root : string) : UploadJob := {|
  episode_id := Storage.episode_id entry; mcap_path := Storage.mcap_path entry root;
  metadata_path := Storage.metadata_path entry root; priority := 0; created_at := epoch_ns now |}.

Definition with_priority (p : Z) (j : UploadJob) : UploadJob := {|
  episode_id := episode_id j; mcap_path := mcap_path j; metadata_path := metadata_path j;
  priority := p; created_at := created_at j |}.

Record UploadState : Set := {
  us_job : UploadJob; started_at : Z; us_bytes_uploaded : Z; retry_count : Z; cancelled : bool }.

Record UploadResult : Set := {
  ur_episode_id : string; success : bool; urls : list string; bytes_uploaded : Z; duration_ms : Z;
  error : option string; retries : Z }.

Record UploadManager : Set := {
  config : UploadConfig; queue : list UploadJob; active_uploads : gmap string UploadState;
  cancel_flag : bool; session_bytes_uploaded : Z }.

(** [UploadManager::new]. *)
Definition UploadManager_new (c : UploadConfig) : result UploadError UploadManager :=
  _ ← validate c;
  Ok {| config := c; queue := []; active_uploads := ∅; cancel_flag := false; session_bytes_uploaded := 0 |}.

Definition set_queue (q : list UploadJob) (m : UploadManager) : UploadManager := {|
  config := config m; queue := q; active_uploads := active_uploads m;
  cancel_flag := cancel_flag m; session_bytes_uploaded := session_bytes_uploaded m |}.
Definition set_active (a : gmap string UploadState) (m : UploadManager) : UploadManager := {|
  config := config m; queue := queue m; active_uploads := a;
  cancel_flag := cancel_flag m; session_bytes_uploaded := session_bytes_uploaded m |}.

(** Priority descending, then creation time ascending. *)
Definition sooner (a b : UploadJob) : bool :=
  (priority b <? priority a) || ((priority a =? priority b) && (created_at a <=? created_at b)).

Definition enqueue (j : UploadJob) (m : UploadManager) : UploadManager :=
  if existsb (fun q => bool_decide (episode_id q = episode_id j)) (queue m) then m
  else set_queue (sort_by sooner (queue m ++ [j])) m.

Definition enqueue_batch (js : list UploadJob) (m : UploadManager) : UploadManager :=
  foldl (fun m j => enqueue j m) m js.

Definition mark_cancelled (s : UploadState) : UploadState := {|
  us_job := us_job s; started_at := started_at s; us_bytes_uploaded := us_bytes_uploaded s;
  retry_count := retry_count s; cancelled := true |}.

Definition cancel_all (m : UploadManager) : UploadManager := {|
  config := config m; queue := []; active_uploads := mark_cancelled <$> active_uploads m;
  cancel_flag := true; session_bytes_uploaded := session_bytes_uploaded m |}.

Definition cancel (id : string) (m : UploadManager) : UploadManager :=
  set_active (alter mark_cancelled id (active_uploads m))
    (set_queue (List.filter (fun j => negb (bool_decide (episode_id j = id))) (queue m)) m).

Record UploadSessionStats : Set := { queued : Z; active : Z; stats_bytes_uploaded : Z }.

Definition session_stats (m : UploadManager) : UploadSessionStats := {|
  queued := Z.of_nat (length (queue m)) `mod` (u32_max + 1);
  active := Z.of_nat (size (active_uploads m)) `mod` (u32_max + 1);
  stats_bytes_uploaded := session_bytes_uploaded m |}.

(** ** The programs *)

(** Times are nanoseconds: of the calendar clock, and of the monotonic one. *)
Inductive UploadCall : Set -> Set :=
| SystemTime : UploadCall Z
| Instant : UploadCall Z
| PathExists (p : string) : UploadCall bool
| FileLen (p : string) : UploadCall (result string Z).

Abbreviation UpM := (SM UploadCall UploadManager UploadError) (only parsing).

Definition base_url (c : UploadConfig) (key : string) : string :=
  match provider c with
  | S3 => "s3://" +:+ bucket c +:+ "/" +:+ key
  | Gcs => "gs://" +:+ bucket c +:+ "/" +:+ key
  | Azure => "https://" +:+ default "account" (account_name (azure_credentials c)) +:+
             ".blob.core.windows.net/" +:+ bucket c +:+ "/" +:+ key
  | Minio | CustomProvider => default "http://localhost:9000" (endpoint c) +:+ "/" +:+ bucket c +:+ "/" +:+ key
  end.

(** [rsplit_once('/')], and the new last segment. *)
Definition replace_last (url name : string) : option string :=
  i ← rfind_char "/" url; Some (take_str i url +:+ "/" +:+ name).

Definition elapsed_ms (start now : Z) : Z := elapsed start now / 1000000.

(** Every run, whatever the system replies. *)
Abbreviation all_replies m s Q := (hoare (fun _ _ => True) (fun _ _ _ => True) m s Q) (only parsing).

Section Uploads.
(** [{:?}] of a path. *)
Context (debug_path : string -> string).

Definition metadata_urls (j : UploadJob) (url : string) : UpM (list string) :=
  c ← gets config;
  match metadata_path j with
  | Some p =>
      if upload_metadata c then
        found ← call (PathExists p);
        mret (if found : bool then option_list (replace_last url (default "metadata.json" (file_name p))) else [])
      else mret []
  | None => mret []
  end.

Definition do_upload (j : UploadJob) : UpM UploadResult :=
  start ← call Instant;
  found ← call (PathExists (mcap_path j));
  if negb found then
    now ← call Instant;
    mret {| ur_episode_id := episode_id j; success := false; urls := []; bytes_uploaded := 0;
            duration_ms := elapsed_ms start now; error := Some ("File not found: " +:+ debug_path (mcap_path j));
            retries := 0 |}
  else
    len ← call (FileLen (mcap_path j));
    let file_size := default 0 (ok len) in
    c ← gets config;
    let url := base_url c (object_key c (episode_id j) (default "episode.mcap" (file_name (mcap_path j)))) in
    more ← metadata_urls j url;
    _ ← modify (fun m => {| config := config m; queue := queue m; active_uploads := active_uploads m;
                            cancel_flag := cancel_flag m;
                            session_bytes_uploaded := wrap_add u64_max (session_bytes_uploaded m) file_size |});
    now ← call Instant;
    mret {| ur_episode_id := episode_id j; success := true; urls := url :: more; bytes_uploaded := file_size;
            duration_ms := elapsed_ms start now; error := None; retries := 0 |}.

(** [queue.pop()] takes the last job. *)
Definition process_next : UpM (option UploadResult) :=
  m ← gets id;
  if cancel_flag m then mret None
  else
    match last (queue m) with
    | None => mret None
    | Some job =>
        _ ← modify (set_queue (removelast (queue m)));
        now ← call Instant;
        _ ← modify (fun m => set_active (<[episode_id job :=
              {| us_job := job; started_at := now; us_bytes_uploaded := 0; retry_count := 0; cancelled := false |}]>
              (active_uploads m)) m);
        r ← do_upload job;
        _ ← modify (fun m => set_active (delete (episode_id job) (active_uploads m)) m);
        mret (Some r)
    end.

Definition upload_episode (entry : EpisodeIndexEntry) (root : string) : UpM UploadResult :=
  now ← call SystemTime;
  let job := from_entry now entry root in
  found ← call (PathExists (mcap_path job));
  if negb found then throw (EpisodeNotFound ("MCAP file not found: " +:+ debug_path (mcap_path job)))
  else
    _ ← modify (enqueue job);
    r ← process_next;
    or_throw Cancelled r.

(** ** The queue under every operation *)

Lemma sooner_total a b : sooner a b = false -> sooner b a = true.
Proof.
  unfold sooner. intros H. apply orb_false_iff in H as (H1 & H2). apply orb_true_iff.
  apply andb_false_iff in H2 as [H2|H2]; reflect_bools; [left; apply Z.ltb_lt; lia|].
  destruct (Z.eq_dec (priority a) (priority b)) as [E|E]; [right|left; apply Z.ltb_lt; lia].
  apply andb_true_iff. split; [by apply Z.eqb_eq|apply Z.leb_le; lia].
Qed.

Lemma sooner_spec a b :
  sooner a b = true <-> priority b < priority a \/ (priority a = priority b /\ created_at a <= created_at b).
Proof. unfold sooner. by rewrite orb_true_iff, andb_true_iff, Z.ltb_lt, Z.eqb_eq, Z.leb_le. Qed.

Lemma sooner_trans a b c : sooner a b = true -> sooner b c = true -> sooner a c = true.
Proof. rewrite !sooner_spec. lia. Qed.

Record queue_ok (m : UploadManager) : Prop := {
  queue_sorted : StronglySorted (ordered sooner) (queue m);
  queue_unique : NoDup (map episode_id (queue m)) }.

Lemma enqueue_ok j m : queue_ok m -> queue_ok (enqueue j m).
Proof.
  intros [Hs Hu]. unfold enqueue. destruct (existsb _ (queue m)) eqn:E; [by split|]. split; simpl.
  - apply sort_by_sorted; [apply sooner_total|apply sooner_trans].
  - assert (Hp : map episode_id (sort_by sooner (queue m ++ [j])) ≡ₚ map episode_id (queue m ++ [j]))
      by (apply Permutation_map, sort_by_perm).
    rewrite Hp, map_app. apply NoDup_app. split; [done|]. split; [|apply NoDup_singleton].
    intros x Hx Hj. apply list_elem_of_singleton in Hj as ->. apply list_elem_of_fmap in Hx as (q & Hq & Hin).
    rewrite existsb_false in E. specialize (E q Hin). simpl in E. apply bool_decide_eq_false in E. by symmetry in Hq.
Qed.

Lemma filter_sorted {A} (R : A -> A -> Prop) (f : A -> bool) l :
  StronglySorted R l -> StronglySorted R (List.filter f l).
Proof.
  induction 1 as [|x l Hl IH Hx]; simpl; [constructor|]. destruct (f x); [|done]. constructor; [done|].
  rewrite Forall_forall in Hx |- *. intros y Hy. apply list_elem_of_In, filter_In in Hy as (Hy & _).
  by apply Hx, list_elem_of_In.
Qed.

Lemma filter_unique {A B} (g : A -> B) (f : A -> bool) l : NoDup (map g l) -> NoDup (map g (List.filter f l)).
Proof.
  induction l as [|x l IH]; simpl; [done|]. intros Hu. apply NoDup_cons in Hu as (Hx & Hu).
  destruct (f x); simpl; [|by apply IH]. apply NoDup_cons. split; [|by apply IH].
  intros Hin. apply Hx. apply list_elem_of_fmap in Hin as (y & -> & Hy).
  apply list_elem_of_In, filter_In in Hy as (Hy & _). by apply list_elem_of_fmap_2, list_elem_of_In.
Qed.

Lemma cancel_ok i m : queue_ok m -> queue_ok (cancel i m).
Proof. intros [Hs Hu]. split; [by apply filter_sorted|by apply filter_unique]. Qed.

Lemma cancel_all_ok m : queue_ok (cancel_all m).
Proof. split; constructor. Qed.

Lemma removelast_snoc {A} (l : list A) x : last l = Some x -> l = removelast l ++ [x].
Proof. intros H. apply last_Some in H as (l' & ->). by rewrite removelast_last. Qed.

Lemma sorted_snoc {A} (R : A -> A -> Prop) l x :
  StronglySorted R (l ++ [x]) -> StronglySorted R l /\ Forall (fun y => R y x) l.
Proof.
  induction l as [|y l IH]; intros H; simpl in *; [by split; constructor|]. inversion H as [|? ? Hl Hy]; subst.
  destruct (IH Hl) as (H1 & H2). apply Forall_app in Hy as (Hy & Hx). split; [by constructor|].
  constructor; [|done]. by apply Forall_inv in Hx.
Qed.

Lemma queue_ok_pop m job :
  queue_ok m -> last (queue m) = Some job ->
  queue_ok (set_queue (removelast (queue m)) m) /\ Forall (fun q => sooner q job = true) (removelast (queue m)).
Proof.
  intros [Hs Hu] Hl. rewrite (removelast_snoc _ _ Hl) in Hs, Hu. apply sorted_snoc in Hs as (Hs & Hj).
  rewrite map_app in Hu. apply NoDup_app in Hu as (Hu & _). by split.
Qed.

(** ** What the programs do, whatever the system replies *)

Ltac upload_steps :=
  repeat first
    [ exact I
    | sm_step
    | match goal with |- hoare _ _ (match ?o with Some _ => _ | None => _ end) _ _ => destruct o eqn:? end ].

Lemma do_upload_spec j s :
  all_replies (do_upload j) s (fun s' r => queue s' = queue s /\ config s' = config s /\ cancel_flag s' = cancel_flag s /\
    active_uploads s' = active_uploads s /\
    exists x, r = Ok x /\ ur_episode_id x = episode_id j /\ (success x = true <-> error x = None)).
Proof.
  unfold do_upload, metadata_urls. upload_steps; repeat (split; [done|]); eexists; (split; [done|]); done.
Qed.

(** One turn: nothing while cancelled or empty, else the last job, whose name
    the result carries. *)
Lemma process_next_spec s :
  all_replies process_next s (fun s' r => config s' = config s /\ cancel_flag s' = cancel_flag s /\
    match (if cancel_flag s then None else last (queue s)) with
    | None => s' = s /\ r = Ok None
    | Some job => queue s' = removelast (queue s) /\
        active_uploads s' = delete (episode_id job) (active_uploads s) /\
        exists x, r = Ok (Some x) /\ ur_episode_id x = episode_id job
    end).
Proof.
  unfold process_next. do 2 sm_step. unfold id. sm_step; [sm_step; by rewrite H|]. rewrite H.
  destruct (last (queue s)) as [job|] eqn:El; [|by sm_step].
  do 2 sm_step. do 2 sm_step; [done|]. do 3 sm_step. eapply hoare_mono; [apply do_upload_spec|].
  intros s' r' (Hq & Hc & Hf & Ha & x & -> & Hx & _). do 3 sm_step. simpl. rewrite Hq, Hc, Hf, Ha. simpl.
  split; [done|]. split; [done|]. split; [done|]. split; [by rewrite delete_insert_eq|]. eauto.
Qed.

(** The operations of a client. *)
Inductive UploadOp : Set :=
| OpEnqueue (j : UploadJob) | OpEnqueueBatch (js : list UploadJob) | OpCancel (id : string) | OpCancelAll
| OpProcessNext | OpUploadEpisode (entry : EpisodeIndexEntry) (root : string).

Definition perform (op : UploadOp) : UpM (option UploadResult) :=
  match op with
  | OpEnqueue j => _ ← modify (enqueue j); mret None
  | OpEnqueueBatch js => _ ← modify (enqueue_batch js); mret None
  | OpCancel id => _ ← modify (cancel id); mret None
  | OpCancelAll => _ ← modify cancel_all; mret None
  | OpProcessNext => process_next
  | OpUploadEpisode entry root => r ← upload_episode entry root; mret (Some r)
  end.

Lemma enqueue_batch_ok js m : queue_ok m -> queue_ok (enqueue_batch js m).
Proof. revert m. induction js as [|j js IH]; intros m Hm; simpl; [done|]. by apply IH, enqueue_ok. Qed.

Lemma enqueue_keeps j m :
  config (enqueue j m) = config m /\ cancel_flag (enqueue j m) = cancel_flag m.
Proof. unfold enqueue. by case_match. Qed.

Lemma enqueue_batch_keeps js m : cancel_flag (enqueue_batch js m) = cancel_flag m.
Proof.
  revert m. induction js as [|j js IH]; intros m; simpl; [done|]. rewrite IH. apply enqueue_keeps.
Qed.

Lemma process_next_ok s : queue_ok s -> all_replies process_next s (fun s' _ => queue_ok s').
Proof.
  intros Hok. eapply hoare_mono; [apply process_next_spec|]. intros s' r (_ & _ & Hc).
  destruct (if cancel_flag s then None else last (queue s)) as [job|] eqn:E; [|by destruct Hc as (-> & _)].
  destruct (cancel_flag s); [done|]. destruct Hc as (Hq & _), (queue_ok_pop s job Hok E) as ([Hs Hu] & _).
  simpl in *. split; by rewrite Hq.
Qed.

(** Under every operation the queue stays sorted by priority and
    age and names every episode at most once. *)
Theorem upload_queue_ok op s :
  queue_ok s -> all_replies (perform op) s (fun s' _ => queue_ok s').
Proof.
  intros Hok. destruct op as [j|js|i| | |entry root]; simpl.
  - do 3 sm_step. by apply enqueue_ok.
  - do 3 sm_step. by apply enqueue_batch_ok.
  - do 3 sm_step. by apply cancel_ok.
  - do 3 sm_step. by apply cancel_all_ok.
  - by apply process_next_ok.
  - unfold upload_episode. do 3 sm_step; [done|]. do 2 sm_step; [done|]. sm_step; [by sm_step|]. do 3 sm_step.
    eapply hoare_mono; [by apply process_next_ok, enqueue_ok|]. intros s' [x|e] Hs; [|done].
    sm_step; [by sm_step|done].
Qed.

(** The next job processed is the one of least priority and,
    among those, the youngest: the queue is sorted for taking from the front,
    and the code takes from the back. *)
Theorem least_urgent_first s :
  queue_ok s -> cancel_flag s = false -> queue s <> [] ->
  all_replies process_next s (fun s' r => exists job x, r = Ok (Some x) /\ ur_episode_id x = episode_id job /\
    job ∈ queue s /\ queue s ≡ₚ job :: queue s' /\
    forall q, q ∈ queue s' -> priority job < priority q \/
      (priority job = priority q /\ created_at q <= created_at job)).
Proof.
  intros Hok Hc Hne. eapply hoare_mono; [apply process_next_spec|]. rewrite Hc. intros s' r (_ & _ & Hr).
  destruct (last (queue s)) as [job|] eqn:E; [|by apply last_None in E]. destruct Hr as (Hq & _ & x & -> & Hx).
  destruct (queue_ok_pop s job Hok E) as (_ & Hall). pose proof (removelast_snoc _ _ E) as Hl.
  exists job, x. split; [done|]. split; [done|]. split; [rewrite Hl; set_solver|]. rewrite Hq.
  split; [rewrite Hl at 1; apply Permutation_app_comm|]. intros q Hin. rewrite Forall_forall in Hall.
  specialize (Hall q Hin). apply sooner_spec in Hall. lia.
Qed.

(** A caller that processes until nothing is left, for at most [n] turns. *)
Fixpoint drain (n : nat) : UpM (list UploadResult) :=
  match n with
  | O => mret []
  | S n =>
      r ← process_next;
      match r with None => mret [] | Some x => xs ← drain n; mret (x :: xs) end
  end.

(** Processing until nothing is left attempts every queued episode
    once, in the reverse of the queue's order, and empties the queue. *)
Theorem queue_drains n s :
  cancel_flag s = false -> (length (queue s) <= n)%nat ->
  all_replies (drain n) s (fun s' r => queue s' = [] /\
    exists xs, r = Ok xs /\ map ur_episode_id xs = rev (map episode_id (queue s))).
Proof.
  revert s. induction n as [|n IH]; intros s Hc Hn; simpl.
  - sm_step. destruct (queue s); [|simpl in Hn; lia]. split; [done|]. by exists [].
  - sm_step. eapply hoare_mono; [apply process_next_spec|]. rewrite Hc. intros s1 r (_ & Hf & Hr).
    destruct (last (queue s)) as [job|] eqn:E.
    + destruct Hr as (Hq & _ & x & -> & Hx). pose proof (removelast_snoc _ _ E) as Hl. sm_step.
      eapply hoare_mono; [apply IH; [congruence|]|].
      * rewrite Hq. rewrite Hl, length_app in Hn. simpl in Hn. lia.
      * intros s2 r (Hq2 & xs & -> & Hxs). sm_step. split; [done|]. exists (x :: xs). split; [done|].
        rewrite Hl, map_app, rev_app_distr. simpl. by rewrite Hx, Hxs, Hq.
    + destruct Hr as (-> & ->). apply last_None in E. sm_step. rewrite E. split; [done|]. by exists [].
Qed.

(** After [cancel_all] nothing is uploaded any more, whatever
    is enqueued later: no operation clears the flag, and no operation returns a
    result. *)
Theorem cancelled_for_good op s :
  cancel_flag s = true ->
  all_replies (perform op) s (fun s' r => cancel_flag s' = true /\ forall x, r <> Ok (Some x)).
Proof.
  intros Hc. destruct op as [j|js|i| | |entry root]; simpl.
  - do 3 sm_step. by rewrite (proj2 (enqueue_keeps j s)).
  - do 3 sm_step. by rewrite enqueue_batch_keeps.
  - do 3 sm_step. done.
  - do 3 sm_step. done.
  - eapply hoare_mono; [apply process_next_spec|]. rewrite Hc. by intros s' r (_ & -> & _ & ->).
  - unfold upload_episode. do 3 sm_step; [done|]. do 2 sm_step; [done|]. sm_step; [by sm_step|]. do 3 sm_step.
    eapply hoare_mono; [apply process_next_spec|]. rewrite (proj2 (enqueue_keeps _ s)), Hc.
    intros s' r' (_ & Hf & _ & ->). by sm_step.
Qed.
End Uploads.

(** ** A queue with three priorities *)

Definition sample_job (id : string) (p t : Z) : UploadJob := {|
  episode_id := id; mcap_path := "/data/" +:+ id; metadata_path := None; priority := p; created_at := t |}.
Definition sample_manager : UploadManager :=
  enqueue_batch [sample_job "low" 0 1; sample_job "high" 9 2; sample_job "mid" 5 3; sample_job "low" 7 4]
    {| config := UploadConfig_default; queue := []; active_uploads := ∅; cancel_flag := false; session_bytes_uploaded := 0 |}.

Lemma sample_manager_ok : queue_ok sample_manager.
Proof. apply enqueue_batch_ok. split; constructor. Qed.

Example sample_order : map episode_id (queue sample_manager) = ["high"; "mid"; "low"].
Proof. by vm_compute. Qed.

Lemma upload_queue_ok_witness :
  all_replies (perform id (OpCancel "mid")) sample_manager (fun s' _ => queue_ok s').
Proof. apply (upload_queue_ok id (OpCancel "mid") sample_manager sample_manager_ok). Defined.

Lemma least_urgent_first_witness :
  all_replies (process_next id) sample_manager (fun s' r => exists job x, r = Ok (Some x) /\ ur_episode_id x = episode_id job /\
    job ∈ queue sample_manager /\ queue sample_manager ≡ₚ job :: queue s' /\
    forall q, q ∈ queue s' -> priority job < priority q \/
      (priority job = priority q /\ created_at q <= created_at job)).
Proof. apply (least_urgent_first id sample_manager sample_manager_ok); [done|by vm_compute]. Defined.

Lemma queue_drains_witness :
  all_replies (drain id 3) sample_manager (fun s' r => queue s' = [] /\
    exists xs, r = Ok xs /\ map ur_episode_id xs = ["low"; "mid"; "high"]).
Proof. apply (queue_drains id 3 sample_manager); [done|by vm_compute]. Defined.

Lemma cancelled_for_good_witness :
  all_replies (perform id (OpEnqueue (sample_job "late" 1 1))) (cancel_all sample_manager)
    (fun s' r => cancel_flag s' = true /\ forall x, r <> Ok (Some x)).
Proof. apply (cancelled_for_good id (OpEnqueue (sample_job "late" 1 1)) (cancel_all sample_manager)). done. Defined.
