(* ===== verification/Collector.v ===== *)
(** * The data collection plugin (omni-plugin/src/robotics/data_collection/plugin.rs)

    The plugin joins the ring buffers (Buffer.v), the triggers (Triggers.v), the
    storage (Storage.v), the uploads (Upload.v) and the packager.  It is a
    program over the calls of its parts, in the state and error monad; the
    packager is known by what it promises: a package carries the name of the
    episode it was made for. *)

From Stdlib Require Import Ascii.
From S2P Require Import Prelude RustStr F32 Effects.
From S2P Require Buffer Triggers Storage Upload Samples Digests Packager.

Open Scope string_scope.
Open Scope list_scope.
Open Scope Z_scope.

Inductive PluginError : Set :=
| NotInitialized | AlreadyRunning | NotRunning
| Config (e : string) | BufferError (e : string) | PackagerError (e : string)
| StorageError (e : Storage.StorageError) | UploadError (e : Upload.UploadError) | IoError (e : string)
| EpisodeInProgress | NoEpisodeInProgress | StreamNotFound (id : string).

Inductive PluginState : Set := Created | Initialized | Running | Recording | Packaging | Stopped | Error.

#[global] Instance PluginState_eq_dec : EqDecision PluginState.
Proof. solve_decision. Defined.

(** ** Configuration *)

(** Of a stream the plugin itself reads the name only. *)
Record DataCollectionConfig : Type := {
  name : string; robot_id : string; fleet_id : option string; streams : list string;
  memory_limit_bytes : Z; default_capacity : nat; max_age_seconds : spec_float;
  storage : Storage.StorageConfig; upload : option Upload.UploadConfig; auto_upload : bool; auto_start : bool;
  default_episode_duration_secs : spec_float; trigger_cooldown_secs : spec_float }.

(** [DataCollectionConfig::new]; the default robot is "robot-001". *)
Definition DataCollectionConfig_new (robot : string) : DataCollectionConfig := {|
  name := "data-collection"; robot_id := robot; fleet_id := None; streams := [];
  memory_limit_bytes := 1024 * 1024 * 1024; default_capacity := 1000; max_age_seconds := f32_of 60;
  storage := Storage.StorageConfig_default; upload := None; auto_upload := false; auto_start := false;
  default_episode_duration_secs := f32_of 60; trigger_cooldown_secs := f32_of 5 |}.

Definition validate (c : DataCollectionConfig) : result PluginError unit :=
  if bool_decide (robot_id c = "") then Err (Config "Robot ID is required")
  else match streams c with
       | [] => Err (Config "At least one stream is required")
       | _ => match upload c with
              | None => Ok tt
              | Some u => match Upload.validate u with Ok _ => Ok tt | Err e => Err (UploadError e) end
              end
       end.

(** The parts of [ActiveEpisode]; of the metadata the fields that are stored. *)
Record ActiveEpisode : Type := {
  episode_id : string; start_time_ns : Z; expected_end_ns : Z;
  trigger_event : Triggers.TriggerEvent; metadata : Storage.EpisodeMetadata }.

Record PluginStats : Set := {
  samples_received : Z; episodes_started : Z; episodes_completed : Z; episodes_failed : Z;
  bytes_packaged : Z; bytes_uploaded : Z; triggers_evaluated : Z; triggers_fired : Z }.
Definition PluginStats_default : PluginStats := {|
  samples_received := 0; episodes_started := 0; episodes_completed := 0; episodes_failed := 0;
  bytes_packaged := 0; bytes_uploaded := 0; triggers_evaluated := 0; triggers_fired := 0 |}.

(** ** The calls: of the parts, and the plugin's own *)

Inductive OwnCall : Set -> Set :=
| CurrentTimestamp : OwnCall Z
| NewEpisodeId : OwnCall string
| TriggerOrder (m : gmap string nat) : OwnCall (list (string * nat))
| PackageEpisode (id : string) (start_ns end_ns : Z) (md : Storage.EpisodeMetadata) :
    OwnCall (result string Storage.PackageResult).

Definition PluginCall (R : Set) : Set := (OwnCall R + Storage.StorageCall R + Upload.UploadCall R)%type.
Definition own {R : Set} (c : OwnCall R) : PluginCall R := inl (inl c).
Definition of_storage (R : Set) (c : Storage.StorageCall R) : PluginCall R := inl (inr c).
Definition of_upload (R : Set) (c : Upload.UploadCall R) : PluginCall R := inr c.

(** What the replies are known to satisfy: the entries of the triggers in some
    order, packages under the name of their episode and no larger than
    [max_file], and what the storage expects of the system. *)
Definition replies (max_file : Z) (R : Set) (c : PluginCall R) : R -> Prop :=
  match c with
  | inl (inl c) =>
      match c in OwnCall R return R -> Prop with
      | TriggerOrder m => fun r => r ≡ₚ map_to_list m
      | PackageEpisode id _ _ _ => fun r => forall p, r = Ok p ->
          Storage.pr_episode_id p = id /\ 0 <= Storage.file_size_bytes p <= max_file
      | _ => fun _ => True
      end
  | inl (inr c) => Storage.honest R c
  | inr _ => fun _ => True
  end.

(** ** The plugin *)

Section Plugin.
Context {Payload : Set} (payload_bytes : Payload -> Z).
Context {T : Type} `{Triggers.Trigger T}.
(** [{:?}] of a path, and the text of trigger errors. *)
Context (debug_path : string -> string) (show_trigger_error : Triggers.TriggerError -> string).

Record Plugin : Type := {
  config : DataCollectionConfig; state : PluginState;
  buffers : @Buffer.Store Payload; triggers : Triggers.TriggerManager; heap : gmap nat T;
  storage_manager : option Storage.StorageManager; upload_manager : option Upload.UploadManager;
  active_episode : option ActiveEpisode; stats : PluginStats; enabled : bool; running : bool }.

Definition set_state (st : PluginState) (p : Plugin) : Plugin := {|
  config := config p; state := st; buffers := buffers p; triggers := triggers p; heap := heap p;
  storage_manager := storage_manager p; upload_manager := upload_manager p; active_episode := active_episode p;
  stats := stats p; enabled := enabled p; running := running p |}.
Definition set_running (b : bool) (p : Plugin) : Plugin := {|
  config := config p; state := state p; buffers := buffers p; triggers := triggers p; heap := heap p;
  storage_manager := storage_manager p; upload_manager := upload_manager p; active_episode := active_episode p;
  stats := stats p; enabled := enabled p; running := b |}.
Definition set_active (a : option ActiveEpisode) (p : Plugin) : Plugin := {|
  config := config p; state := state p; buffers := buffers p; triggers := triggers p; heap := heap p;
  storage_manager := storage_manager p; upload_manager := upload_manager p; active_episode := a;
  stats := stats p; enabled := enabled p; running := running p |}.
Definition set_stats (s : PluginStats) (p : Plugin) : Plugin := {|
  config := config p; state := state p; buffers := buffers p; triggers := triggers p; heap := heap p;
  storage_manager := storage_manager p; upload_manager := upload_manager p; active_episode := active_episode p;
  stats := s; enabled := enabled p; running := running p |}.
Definition set_buffers (b : Buffer.Store) (p : Plugin) : Plugin := {|
  config := config p; state := state p; buffers := b; triggers := triggers p; heap := heap p;
  storage_manager := storage_manager p; upload_manager := upload_manager p; active_episode := active_episode p;
  stats := stats p; enabled := enabled p; running := running p |}.
Definition set_triggers (m : Triggers.TriggerManager) (h : gmap nat T) (p : Plugin) : Plugin := {|
  config := config p; state := state p; buffers := buffers p; triggers := m; heap := h;
  storage_manager := storage_manager p; upload_manager := upload_manager p; active_episode := active_episode p;
  stats := stats p; enabled := enabled p; running := running p |}.
Definition set_storage (s : option Storage.StorageManager) (p : Plugin) : Plugin := {|
  config := config p; state := state p; buffers := buffers p; triggers := triggers p; heap := heap p;
  storage_manager := s; upload_manager := upload_manager p; active_episode := active_episode p;
  stats := stats p; enabled := enabled p; running := running p |}.
Definition set_upload (u : option Upload.UploadManager) (p : Plugin) : Plugin := {|
  config := config p; state := state p; buffers := buffers p; triggers := triggers p; heap := heap p;
  storage_manager := storage_manager p; upload_manager := u; active_episode := active_episode p;
  stats := stats p; enabled := enabled p; running := running p |}.

(** [DataCollectionPlugin::new], for the triggers someone else holds. *)
Definition Plugin_new (c : DataCollectionConfig) (h : gmap nat T) : result PluginError Plugin :=
  _ ← validate c;
  Ok {| config := c; state := Created;
        buffers := foldl (fun s sid => (Buffer.register_stream sid (Some (default_capacity c))
            (Some (f32_nanos (max_age_seconds c))) s).2)
          (Buffer.Store_new (Buffer.BufferManager_new (memory_limit_bytes c))) (streams c);
        triggers := Triggers.with_cooldown (f32_nanos (trigger_cooldown_secs c)) Triggers.TriggerManager_new;
        heap := h; storage_manager := None; upload_manager := None; active_episode := None;
        stats := PluginStats_default; enabled := true; running := false |}.

Abbreviation PlM := (SM PluginCall Plugin PluginError) (only parsing).

(** A part's program, on the part the plugin has. *)
Definition on_storage {A} (m : SM Storage.StorageCall Storage.StorageManager Storage.StorageError A)
    (s : Storage.StorageManager) : PlM A :=
  zoom of_storage (fun _ => s) (fun s p => set_storage (Some s) p) StorageError m.
Definition on_upload {A} (m : SM Upload.UploadCall Upload.UploadManager Upload.UploadError A)
    (u : Upload.UploadManager) : PlM A :=
  zoom of_upload (fun _ => u) (fun u p => set_upload (Some u) p) UploadError m.

(** [StorageManager::new(..)?]: the storage is there only when it succeeds. *)
Definition open_storage (c : Storage.StorageConfig) : PlM unit :=
  zoom of_storage
    (fun _ => {| Storage.config := c; Storage.index := Storage.EpisodeIndex_new; Storage.index_dirty := false |})
    (fun s p => p) StorageError (_ ← Storage.StorageManager_new c; gets id) ≫= (fun s => modify (set_storage (Some s))).

(** [start], told how to initialise a plugin that is not. *)
Definition start_from (init : PlM unit) : PlM unit :=
  st ← gets state;
  if bool_decide (st = Running \/ st = Recording) then throw AlreadyRunning
  else
    _ ← (if bool_decide (st = Created) then init else mret tt);
    modify (fun p => set_state Running (set_running true p)).

(** [start] finds the plugin initialised when [initialize] calls it. *)
Definition initialize : PlM unit :=
  p ← gets id;
  _ ← guard_m (bool_decide (state p = Created)) (Config "Plugin already initialized");
  _ ← open_storage (storage (config p));
  _ ← (match upload (config p) with
       | Some c => match Upload.UploadManager_new c with
                   | Ok u => modify (set_upload (Some u))
                   | Err e => throw (UploadError e)
                   end
       | None => mret tt
       end);
  _ ← modify (set_state Initialized);
  if auto_start (config p) then start_from (mret tt) else mret tt.

Definition start : PlM unit := start_from initialize.

Definition is_running (p : Plugin) : bool := running p.
Definition is_recording (p : Plugin) : bool := match active_episode p with Some _ => true | None => false end.

Definition register_trigger (r : nat) (p : Plugin) : option (result PluginError unit * Plugin) :=
  res ← Triggers.register (heap p) r (triggers p);
  Some (match res.1 with Ok _ => Ok tt | Err e => Err (Config (show_trigger_error e)) end,
        set_triggers res.2 (heap p) p).

Definition count_sample (p : Plugin) : Plugin :=
  let s := stats p in
  set_stats {| samples_received := wrap_add u64_max (samples_received s) 1; episodes_started := episodes_started s;
               episodes_completed := episodes_completed s; episodes_failed := episodes_failed s;
               bytes_packaged := bytes_packaged s; bytes_uploaded := bytes_uploaded s;
               triggers_evaluated := triggers_evaluated s; triggers_fired := triggers_fired s |} p.

(** [None]: the buffer panics. *)
Definition push_sample (x : Buffer.DataSample) (p : Plugin) : option (result PluginError unit * Plugin) :=
  if negb (is_running p) then Some (Err NotRunning, p)
  else
    b ← Buffer.manager_push payload_bytes x (buffers p);
    Some (Ok tt, count_sample (set_buffers b p)).

Fixpoint push_loop (xs : list Buffer.DataSample) (p : Plugin) : option Plugin :=
  match xs with
  | [] => Some p
  | x :: xs => b ← Buffer.manager_push payload_bytes x (buffers p); push_loop xs (count_sample (set_buffers b p))
  end.
Definition push_samples (xs : list Buffer.DataSample) (p : Plugin) : option (result PluginError unit * Plugin) :=
  if negb (is_running p) then Some (Err NotRunning, p)
  else p ← push_loop xs p; Some (Ok tt, p).

(** ** Episodes *)

Definition on_stats (f : PluginStats -> PluginStats) (p : Plugin) : Plugin := set_stats (f (stats p)) p.

Definition episode_started (s : PluginStats) : PluginStats := {|
  samples_received := samples_received s; episodes_started := wrap_add u64_max (episodes_started s) 1;
  episodes_completed := episodes_completed s; episodes_failed := episodes_failed s;
  bytes_packaged := bytes_packaged s; bytes_uploaded := bytes_uploaded s;
  triggers_evaluated := triggers_evaluated s; triggers_fired := triggers_fired s |}.
Definition episode_completed (bytes : Z) (s : PluginStats) : PluginStats := {|
  samples_received := samples_received s; episodes_started := episodes_started s;
  episodes_completed := wrap_add u64_max (episodes_completed s) 1; episodes_failed := episodes_failed s;
  bytes_packaged := wrap_add u64_max (bytes_packaged s) bytes; bytes_uploaded := bytes_uploaded s;
  triggers_evaluated := triggers_evaluated s; triggers_fired := triggers_fired s |}.

(** [EpisodeMetadata::new] at the time [now], then the start of the episode. *)
Definition episode_metadata (now start : Z) (robot : string) : Storage.EpisodeMetadata := {|
  Storage.md_start_time_ns := start; Storage.md_end_time_ns := Storage.epoch_ns now;
  Storage.md_duration_seconds := S754_zero false; Storage.md_robot_id := robot;
  Storage.overall_score := f32_of 1; Storage.md_labels := ∅ |}.

(** [set_end_time]: the difference wraps. *)
Definition set_end_time (end_ns : Z) (m : Storage.EpisodeMetadata) : Storage.EpisodeMetadata := {|
  Storage.md_start_time_ns := Storage.md_start_time_ns m; Storage.md_end_time_ns := end_ns;
  Storage.md_duration_seconds := f64_seconds ((end_ns - Storage.md_start_time_ns m) `mod` (u64_max + 1));
  Storage.md_robot_id := Storage.md_robot_id m; Storage.overall_score := Storage.overall_score m;
  Storage.md_labels := Storage.md_labels m |}.

Definition start_episode_from_trigger (e : Triggers.TriggerEvent) : PlM string :=
  id ← call (own NewEpisodeId);
  let now := Triggers.timestamp_ns e in
  let start_time := sat_sub now (Triggers.pre_roll_ns e) in
  let expected_end := wrap_add u64_max now (Triggers.post_roll_ns e) in
  created ← call (own CurrentTimestamp);
  _ ← modify (fun p => set_active (Some {|
        episode_id := id; start_time_ns := start_time; expected_end_ns := expected_end; trigger_event := e;
        metadata := episode_metadata created start_time (robot_id (config p)) |}) p);
  _ ← modify (fun p => on_stats episode_started (set_state Recording p));
  mret id.

Definition process_triggers (c : Triggers.TriggerContext) : PlM (list Triggers.TriggerEvent) :=
  p ← gets id;
  if negb (is_running p) then throw NotRunning
  else if is_recording p then mret []
  else
    order ← call (own (TriggerOrder (Triggers.triggers (triggers p))));
    let '(events, h) := Triggers.manager_evaluate order c (triggers p) (heap p) in
    _ ← modify (fun p => set_triggers (triggers p) h p);
    match events with
    | [] => mret []
    | first :: _ =>
        _ ← modify (fun p => set_triggers (Triggers.record_trigger_fired events (triggers p)) (heap p) p);
        _ ← start_episode_from_trigger first;
        mret events
    end.

Definition start_episode_manual (why : string) : PlM string :=
  p ← gets id;
  if negb (is_running p) then throw NotRunning
  else if is_recording p then throw EpisodeInProgress
  else
    now ← call (own CurrentTimestamp);
    let d := default_episode_duration_secs (config p) in
    let quarter := f32_nanos (f32_mul d (f32_div (f32_of 1) (f32_of 4))) in
    let rest := f32_nanos (f32_mul d (f32_div (f32_of 3) (f32_of 4))) in
    start_episode_from_trigger (Triggers.with_post_roll rest (Triggers.with_pre_roll quarter
      (Triggers.TriggerEvent_new "manual" Triggers.Manual (Storage.epoch_ns now) why))).

(** The upload of the stored episode; its result is dropped. *)
Definition auto_uploads (r : Storage.PackageResult) : PlM unit :=
  p ← gets id;
  match upload_manager p, storage_manager p with
  | Some u, Some s =>
      match Storage.get_episode (Storage.pr_episode_id r) s with
      | Some entry =>
          _ ← attempt (on_upload (Upload.upload_episode debug_path entry
                (Storage.root_dir (storage (config p)))) u);
          mret tt
      | None => mret tt
      end
  | _, _ => mret tt
  end.

(** The packaging of an episode that has been taken from the plugin. *)
Definition package (e : ActiveEpisode) (end_time_ns : Z) : PlM Storage.PackageResult :=
  _ ← modify (set_state Packaging);
  let md := set_end_time end_time_ns (metadata e) in
  r ← call (own (PackageEpisode (episode_id e) (start_time_ns e) end_time_ns md));
  r ← (match r with Ok r => mret r | Err x => throw (PackagerError x) end);
  p ← gets id;
  _ ← (match storage_manager p with
       | Some s => _ ← on_storage (Storage.store_episode r md) s; mret tt
       | None => mret tt
       end);
  _ ← (if auto_upload (config p) then auto_uploads r else mret tt);
  _ ← modify (fun p => on_stats (episode_completed (Storage.file_size_bytes r)) (set_state Running p));
  mret r.

Definition finish_episode (end_time_ns : Z) : PlM Storage.PackageResult :=
  p ← gets id;
  match active_episode p with
  | None => throw NoEpisodeInProgress
  | Some e => _ ← modify (set_active None); package e end_time_ns
  end.

Definition check_episode_timeout : PlM (option Storage.PackageResult) :=
  now ← call (own CurrentTimestamp);
  p ← gets id;
  match active_episode p with
  | Some e =>
      if expected_end_ns e <=? Storage.epoch_ns now
      then r ← finish_episode (Storage.epoch_ns now); mret (Some r)
      else mret None
  | None => mret None
  end.

Definition stop : PlM unit :=
  p ← gets id;
  if negb (running p) then throw NotRunning
  else
    _ ← (if is_recording p then
           now ← call (own CurrentTimestamp);
           _ ← finish_episode (Storage.epoch_ns now); mret tt
         else mret tt);
    _ ← modify (fun p => set_state Stopped (set_running false p));
    p ← gets id;
    match storage_manager p with
    | Some s => on_storage Storage.flush s
    | None => mret tt
    end.

(** What a client can ask about the episode. *)
Definition current_episode_id (p : Plugin) : option string := episode_id <$> active_episode p.
Definition list_streams (p : Plugin) : list string := Buffer.stream_ids (buffers p).

Record ActiveEpisodeInfo : Type := {
  info_id : string; info_start_ns : Z; info_expected_end_ns : Z; info_type : Triggers.TriggerType;
  elapsed_ns : Z; remaining_ns : Z }.

(** The clock is read twice. *)
Definition active_episode_info : PlM (option ActiveEpisodeInfo) :=
  p ← gets id;
  match active_episode p with
  | None => mret None
  | Some e =>
      t1 ← call (own CurrentTimestamp);
      t2 ← call (own CurrentTimestamp);
      mret (Some {| info_id := episode_id e; info_start_ns := start_time_ns e;
                    info_expected_end_ns := expected_end_ns e;
                    info_type := Triggers.trigger_type (trigger_event e);
                    elapsed_ns := sat_sub (Storage.epoch_ns t1) (start_time_ns e);
                    remaining_ns := sat_sub (expected_end_ns e) (Storage.epoch_ns t2) |})
  end.

(** ** The life of the plugin *)

Context (max_file : Z).
Abbreviation under m p Q := (hoare (fun _ _ => True) (replies max_file) m p Q) (only parsing).

(** An episode is active exactly in the state [Recording], and only while the
    plugin runs. *)
Record coherent (p : Plugin) : Prop := {
  recording_iff : state p = Recording <-> is_recording p = true;
  recording_runs : is_recording p = true -> running p = true }.

(** What the parts' programs leave alone. *)
Record same_life (p p' : Plugin) : Prop := {
  same_state : state p' = state p; same_active : active_episode p' = active_episode p;
  same_running : running p' = running p; same_config : config p' = config p; same_stats : stats p' = stats p }.

Lemma same_life_coherent p p' : same_life p p' -> coherent p -> coherent p'.
Proof. intros [H1 H2 H3 _ _] [H4 H5]. unfold is_recording in *. split; unfold is_recording; by rewrite ?H1, H2, ?H3. Qed.

Lemma on_storage_spec {A} (m : SM Storage.StorageCall Storage.StorageManager Storage.StorageError A) s p Q :
  hoare (fun _ _ => True) Storage.honest m s Q ->
  under (on_storage m s) p (fun p' r => same_life p p' /\ upload_manager p' = upload_manager p /\
    exists s' r', storage_manager p' = Some s' /\ Q s' r' /\
      r = match r' with Ok a => Ok a | Err e => Err (StorageError e) end).
Proof.
  intros Hm. eapply (hoare_zoom of_storage); [done| |exact Hm|].
  - intros R c r Hr. exact Hr.
  - intros s' r Hq. split; [done|]. split; [done|]. exists s', r. done.
Qed.

Lemma on_upload_spec {A} (m : SM Upload.UploadCall Upload.UploadManager Upload.UploadError A) u p Q :
  hoare (fun _ _ => True) (fun _ _ _ => True) m u Q ->
  under (on_upload m u) p (fun p' r => same_life p p' /\ storage_manager p' = storage_manager p /\
    exists u' r', upload_manager p' = Some u' /\ Q u' r' /\
      r = match r' with Ok a => Ok a | Err e => Err (UploadError e) end).
Proof.
  intros Hm. eapply (hoare_zoom of_upload); [done| |exact Hm|].
  - done.
  - intros u' r Hq. split; [done|]. split; [done|]. exists u', r. done.
Qed.

Lemma open_storage_spec c p : under (open_storage c) p (fun p' _ => same_life p p').
Proof.
  unfold open_storage. sm_step. eapply (hoare_zoom of_storage); [done| |apply (hoare_any Storage.honest)|].
  - intros R d r Hr. exact Hr.
  - intros s' [s|e] _; [by sm_step|done].
Qed.

(** Steps that keep the plugin coherent and, when no episode is active, start none. *)
Definition calm (p p' : Plugin) : Prop :=
  coherent p' /\ (is_recording p = false -> is_recording p' = false).

Lemma same_life_calm p p' : coherent p -> same_life p p' -> calm p p'.
Proof.
  intros Hc Hs. split; [by eapply same_life_coherent|]. unfold is_recording. by rewrite (same_active _ _ Hs).
Qed.

Lemma calm_trans p1 p2 p3 : calm p1 p2 -> calm p2 p3 -> calm p1 p3.
Proof. intros [_ H1] [H2 H3]. split; [done|]. auto. Qed.

Lemma idle_coherent st b p :
  is_recording p = false -> st <> Recording -> calm p (set_state st (set_running b p)).
Proof.
  intros Hr Hst. unfold calm, is_recording in *. split; [|done]. split; unfold is_recording; simpl.
  - split; [done|]. by rewrite Hr.
  - by rewrite Hr.
Qed.

Lemma not_recording p : coherent p -> state p <> Recording -> is_recording p = false.
Proof. intros Hc Hs. destruct (is_recording p) eqn:E; [|done]. by apply (recording_iff _ Hc) in E. Qed.

Lemma start_from_spec init p :
  coherent p -> (state p = Created -> under init p (fun p' _ => calm p p')) ->
  under (start_from init) p (fun p' _ => calm p p').
Proof.
  intros Hc Hi. unfold start_from. do 3 sm_step; [by sm_step|]. reflect_bools.
  assert (Hnr : is_recording p = false) by (apply not_recording; naive_solver).
  do 2 sm_step.
  - reflect_bools. eapply hoare_mono; [by apply Hi|]. intros p' [u|e] Hp; [|done]. sm_step.
    eapply calm_trans; [exact Hp|]. apply idle_coherent; [by apply Hp|done].
  - do 2 sm_step. by apply idle_coherent.
Qed.

Lemma initialize_spec p : coherent p -> under initialize p (fun p' _ => calm p p').
Proof.
  intros Hc. unfold initialize. do 4 sm_step; [|done]. reflect_bools. unfold id in *.
  assert (Hnr : is_recording p = false) by (apply not_recording; [done|congruence]).
  sm_step. eapply hoare_mono; [apply open_storage_spec|]. intros p1 [u|e] H1; [|by apply same_life_calm].
  assert (Hend : forall p2, calm p p2 -> under (_ ← modify (set_state Initialized);
      if auto_start (config p) then start_from (mret tt) else mret tt) p2 (fun p' _ => calm p p')).
  { intros p2 Hp2. do 2 sm_step. assert (Hi : calm p2 (set_state Initialized p2)).
    { apply (idle_coherent Initialized (running p2) p2); [by apply Hp2|done]. }
    sm_step; [|by sm_step; eapply calm_trans]. eapply hoare_mono.
    - apply start_from_spec; [apply Hi|]. simpl. discriminate.
    - intros p3 r Hp3. by eapply calm_trans; [|eapply calm_trans]. }
  sm_step. destruct (upload (config p)) as [c|].
  - destruct (Upload.UploadManager_new c) as [u'|e]; sm_step; [|by apply same_life_calm].
    apply Hend. eapply calm_trans; [by apply same_life_calm|]. apply same_life_calm; [|done]. by eapply same_life_coherent.
  - sm_step. apply Hend. by apply same_life_calm.
Qed.

Lemma auto_uploads_spec r p :
  under (auto_uploads r) p (fun p' res => same_life p p' /\ storage_manager p' = storage_manager p /\ is_ok res = true).
Proof.
  unfold auto_uploads. do 2 sm_step. unfold id.
  destruct (upload_manager p) as [u|]; [|by sm_step]. destruct (storage_manager p) as [s|] eqn:Es; [|by sm_step].
  destruct (Storage.get_episode _ s) as [entry|]; [|by sm_step]. do 2 sm_step.
  eapply hoare_mono; [apply (on_upload_spec _ _ _ (fun _ _ => True)), hoare_any|].
  intros p' res (Hs & Hst & _). sm_step. by rewrite Hst.
Qed.

(** The storage has room for one more file. *)
Definition storage_ready (s : Storage.StorageManager) : Prop :=
  Storage.accounted (Storage.index s) /\
  Storage.total_size_bytes (Storage.index s) + max_file <= u64_max /\ Storage.episode_count (Storage.index s) < u32_max.

(** What a finished episode leaves in the storage. *)
Definition kept_in (r : Storage.PackageResult) (before after : option Storage.StorageManager) : Prop :=
  match before with
  | None => after = None
  | Some s => storage_ready s -> exists s', after = Some s' /\ Storage.accounted (Storage.index s') /\
      Storage.stored_within r (Storage.config s) s'
  end.

Lemma store_spec r md s p :
  0 <= Storage.file_size_bytes r <= max_file ->
  under (on_storage (Storage.store_episode r md) s) p (fun p' res => same_life p p' /\
    (is_ok res = true -> kept_in r (Some s) (storage_manager p'))).
Proof.
  intros Hf. eapply hoare_mono; [apply (on_storage_spec _ s p (fun s' res =>
    storage_ready s -> is_ok res = true -> Storage.accounted (Storage.index s') /\ Storage.stored_within r (Storage.config s) s'))|].
  - apply hoare_assuming. intros (Ha & Hb & Hc). eapply hoare_mono.
    + apply Storage.store_episode_spec; [done|]. split; [lia|]. split; [lia|done].
    + intros s' res Ho Hok. apply and_comm. by apply (Storage.store_outcome_within r s s' res).
  - intros p' res (Hs & _ & s' & r' & Hst & Hq & ->). split; [done|]. intros Hok Hready.
    exists s'. split; [done|]. apply Hq; [done|]. by destruct r'.
Qed.

(** How the packaging of [e] ends. *)
Definition packaged (e : ActiveEpisode) (p p' : Plugin) (res : result PluginError Storage.PackageResult) : Prop :=
  active_episode p' = active_episode p /\ running p' = running p /\ config p' = config p /\
  match res with
  | Ok r => state p' = Running /\ stats p' = episode_completed (Storage.file_size_bytes r) (stats p) /\
      Storage.pr_episode_id r = episode_id e /\ kept_in r (storage_manager p) (storage_manager p')
  | Err _ => state p' = Packaging /\ stats p' = stats p
  end.

Lemma package_spec e t p : under (package e t) p (packaged e p).
Proof.
  unfold package. do 2 sm_step. do 2 sm_step; [done|]. sm_step.
  match goal with H : replies _ _ _ _ |- _ => simpl in H; rename H into Hpkg end.
  destruct r as [r|x]; sm_step; [|done]. destruct (Hpkg r eq_refl) as (Hid & Hf).
  set (p1 := set_state Packaging p).
  assert (Hend : forall p2, same_life p1 p2 -> kept_in r (storage_manager p) (storage_manager p2) ->
    under (_ ← (if auto_upload (config p) then auto_uploads r else mret tt);
           _ ← modify (fun p => on_stats (episode_completed (Storage.file_size_bytes r)) (set_state Running p));
           mret r) p2 (packaged e p)).
  { intros p2 [H1 H2 H3 H4 H5] Hk. do 2 sm_step.
    - eapply hoare_mono; [apply auto_uploads_spec|]. intros p3 [u|err] ([G1 G2 G3 G4 G5] & Hst & Hok); [|done].
      do 3 sm_step. unfold packaged. simpl. rewrite Hst, G2, G3, G4, G5, H2, H3, H4, H5. done.
    - do 4 sm_step. unfold packaged. simpl. by rewrite H2, H3, H4, H5. }
  do 3 sm_step. change (storage_manager (id p1)) with (storage_manager p). unfold id.
  destruct (storage_manager p) as [s|] eqn:Es.
  - sm_step. eapply hoare_mono; [by apply store_spec|]. intros p2 [u|err] (Hs & Hk).
    + sm_step. apply Hend; [done|]. by apply Hk.
    + destruct Hs as [H1 H2 H3 H4 H5]. done.
  - sm_step. apply Hend; [done|]. simpl. exact Es.
Qed.

(** Finishing: nothing happens without an episode; with one, it is gone in any
    case, and what the packaging did is left. *)
Lemma finish_episode_spec t p :
  under (finish_episode t) p (fun p' res =>
    match active_episode p with
    | None => p' = p /\ res = Err NoEpisodeInProgress
    | Some e => packaged e (set_active None p) p' res
    end).
Proof.
  unfold finish_episode. do 2 sm_step. unfold id. destruct (active_episode p) as [e|]; [|by sm_step].
  do 2 sm_step. apply package_spec.
Qed.

Lemma finish_calm t p : coherent p -> under (finish_episode t) p (fun p' _ => calm p p' /\ is_recording p' = false).
Proof.
  intros Hc. eapply hoare_mono; [apply finish_episode_spec|]. intros p' res Hp.
  destruct (active_episode p) as [e|] eqn:E.
  - destruct Hp as (Ha & Hr & _ & Hs). simpl in Ha. assert (Hn : is_recording p' = false) by (unfold is_recording; by rewrite Ha).
    split; [|done]. split; [|done]. split; rewrite Hn; [|done]. destruct res; destruct Hs as (-> & _); naive_solver.
  - destruct Hp as (-> & _). assert (Hn : is_recording p = false) by (unfold is_recording; by rewrite E). done.
Qed.

Lemma start_episode_spec e p :
  coherent p -> running p = true ->
  under (start_episode_from_trigger e) p (fun p' res => coherent p' /\ is_ok res = true /\
    triggers p' = triggers p /\ heap p' = heap p /\ exists a, active_episode p' = Some a /\ trigger_event a = e /\
      start_time_ns a = sat_sub (Triggers.timestamp_ns e) (Triggers.pre_roll_ns e) /\
      expected_end_ns a = wrap_add u64_max (Triggers.timestamp_ns e) (Triggers.post_roll_ns e)).
Proof.
  intros Hc Hr. unfold start_episode_from_trigger. do 2 sm_step; [done|]. do 2 sm_step; [done|]. do 5 sm_step.
  split; [by split|]. do 3 (split; [done|]). eexists. done.
Qed.

(** The operations of the plugin that wait or change its life; those on samples
    and on the registry of triggers leave it alone. *)
Inductive PluginOp : Type :=
| OpInitialize | OpStart | OpStop | OpProcess (c : Triggers.TriggerContext) | OpManual (why : string)
| OpFinish (end_time_ns : Z) | OpTimeout.

Definition perform (op : PluginOp) : PlM unit :=
  match op with
  | OpInitialize => initialize
  | OpStart => start
  | OpStop => stop
  | OpProcess c => _ ← process_triggers c; mret tt
  | OpManual why => _ ← start_episode_manual why; mret tt
  | OpFinish t => _ ← finish_episode t; mret tt
  | OpTimeout => _ ← check_episode_timeout; mret tt
  end.

Lemma process_coherent c p : coherent p -> under (process_triggers c) p (fun p' _ => coherent p').
Proof.
  intros Hc. unfold process_triggers. do 3 sm_step; [by sm_step|]. sm_step; [by sm_step|].
  do 2 sm_step; [done|]. destruct (Triggers.manager_evaluate _ _ _ _) as [events h].
  do 2 sm_step. destruct events as [|first rest]; [sm_step; by apply (same_life_coherent p)|].
  do 3 sm_step. eapply hoare_mono.
  - apply start_episode_spec; [by apply (same_life_coherent p)|]. simpl. by apply negb_false_iff in H0.
  - intros p' [i|e] (Hc' & _); [by sm_step|done].
Qed.

Lemma manual_coherent why p : coherent p -> under (start_episode_manual why) p (fun p' _ => coherent p').
Proof.
  intros Hc. unfold start_episode_manual. do 3 sm_step; [by sm_step|]. sm_step; [by sm_step|].
  do 2 sm_step; [done|]. apply negb_false_iff in H0. eapply hoare_mono; [by apply start_episode_spec|]. by intros p' res (Hc' & _).
Qed.

Lemma timeout_coherent p : coherent p -> under check_episode_timeout p (fun p' _ => coherent p').
Proof.
  intros Hc. unfold check_episode_timeout. do 2 sm_step; [done|]. do 2 sm_step. unfold id.
  destruct (active_episode p) as [e|]; [|by sm_step]. sm_step; [|by sm_step]. sm_step.
  eapply hoare_mono; [by apply finish_calm|]. intros p' [r'|x] ((Hc' & _) & _); [by sm_step|done].
Qed.

Lemma stop_coherent p : coherent p -> under stop p (fun p' _ => coherent p').
Proof.
  intros Hc. unfold stop. do 3 sm_step; [by sm_step|].
  assert (Hend : forall p2, coherent p2 -> is_recording p2 = false ->
    under (_ ← modify (fun p => set_state Stopped (set_running false p)); p ← gets id;
           match storage_manager p with Some s => on_storage Storage.flush s | None => mret tt end) p2 (fun p' _ => coherent p')).
  { intros p2 Hc2 Hn. assert (Hc3 : coherent (set_state Stopped (set_running false p2))) by by apply idle_coherent.
    do 4 sm_step. unfold id. destruct (storage_manager _) as [s|]; [|by sm_step].
    eapply hoare_mono; [apply (on_storage_spec _ _ _ (fun _ _ => True)), hoare_any|].
    intros p3 r (Hs & _). by eapply same_life_coherent. }
  do 2 sm_step.
  - do 2 sm_step; [done|]. sm_step. eapply hoare_mono; [by apply finish_calm|].
    intros p2 [r'|x] ((Hc2 & _) & Hn); [|done]. sm_step. by apply Hend.
  - sm_step. by apply Hend.
Qed.

(** Claim C20: Under every operation an episode is active exactly in the
    state [Recording] and only while the plugin runs, also when the disk, the
    packager or the upload fails. *)
Theorem plugin_life_coherent op p :
  coherent p -> under (perform op) p (fun p' _ => coherent p').
Proof.
  intros Hc. destruct op as [| | |c|why|t|]; simpl.
  - eapply hoare_mono; [by apply initialize_spec|]. by intros p' r [].
  - eapply hoare_mono; [apply start_from_spec; [done|]|by intros p' r []]. intros _. by apply initialize_spec.
  - by apply stop_coherent.
  - sm_step. eapply hoare_mono; [by apply process_coherent|]. intros p' [r|x] Hc'; [by sm_step|done].
  - sm_step. eapply hoare_mono; [by apply manual_coherent|]. intros p' [r|x] Hc'; [by sm_step|done].
  - sm_step. eapply hoare_mono; [by apply finish_calm|]. intros p' [r|x] ((Hc' & _) & _); [by sm_step|done].
  - sm_step. eapply hoare_mono; [by apply timeout_coherent|]. intros p' [r|x] Hc'; [by sm_step|done].
Qed.

(** A running plugin without an episode returns what its
    triggers say; when one fires, the most urgent event starts the episode,
    from its pre-roll (not before 0) to its post-roll, and the fired triggers
    are recorded for their cooldown.  A plugin that records asks no trigger. *)
Theorem triggered_episode c p :
  coherent p -> running p = true ->
  under (process_triggers c) p (fun p' res =>
    if is_recording p then p' = p /\ res = Ok []
    else exists order events h, order ≡ₚ map_to_list (Triggers.triggers (triggers p)) /\
      Triggers.manager_evaluate order c (triggers p) (heap p) = (events, h) /\ res = Ok events /\ heap p' = h /\
      triggers p' = Triggers.record_trigger_fired events (triggers p) /\
      match events with
      | [] => active_episode p' = None
      | first :: rest => exists a, active_episode p' = Some a /\ state p' = Recording /\ trigger_event a = first /\
          start_time_ns a = sat_sub (Triggers.timestamp_ns first) (Triggers.pre_roll_ns first) /\
          expected_end_ns a = wrap_add u64_max (Triggers.timestamp_ns first) (Triggers.post_roll_ns first)
      end).
Proof.
  intros Hc Hr. unfold process_triggers. do 3 sm_step; [unfold is_running, id in *; by rewrite Hr in *|].
  unfold id in *. sm_step; rewrite H1; [by sm_step|].
  do 2 sm_step; [done|]. match goal with H : replies _ _ _ _ |- _ => simpl in H; rename H into Hord end.
  destruct (Triggers.manager_evaluate r c (triggers p) (heap p)) as [events h] eqn:Ev. do 2 sm_step.
  destruct events as [|first rest].
  - sm_step. exists r, [], h. do 4 (split; [done|]). split; [by destruct p as [? ? ? []]|].
    unfold is_recording in H1. simpl. by destruct (active_episode p).
  - do 3 sm_step. eapply hoare_mono.
    + apply start_episode_spec; [by apply (same_life_coherent p)|done].
    + intros p' [i|e] (Hc' & Hok & Ht & Hh & a & Ha & Hrest); [|done]. sm_step. exists r, (first :: rest), h.
      do 3 (split; [done|]). split; [by rewrite Hh|]. split; [by rewrite Ht|]. exists a. split; [done|].
      split; [|done]. apply (recording_iff _ Hc'). unfold is_recording. by rewrite Ha.
Qed.

(** Claim C8: When finishing an episode succeeds, the package has the
    episode's name and is in the index of the storage, whose books agree and
    whose limits hold; the plugin runs on without an episode. *)
Theorem finished_episode_kept e t p s :
  active_episode p = Some e -> storage_manager p = Some s -> storage_ready s ->
  under (finish_episode t) p (fun p' res => forall r, res = Ok r ->
    Storage.pr_episode_id r = episode_id e /\ state p' = Running /\ active_episode p' = None /\
    exists s', storage_manager p' = Some s' /\ Storage.accounted (Storage.index s') /\
      Storage.stored_within r (Storage.config s) s').
Proof.
  intros He Hs Hready. eapply hoare_mono; [apply finish_episode_spec|]. rewrite He.
  intros p' res (Ha & _ & _ & Hr) r ->. destruct Hr as (Hst & _ & Hid & Hk). unfold kept_in in Hk. simpl in *.
  rewrite Hs in Hk. do 3 (split; [done|]). by apply Hk.
Qed.

(** When the packager, the disk or the index fails, the
    episode is gone, the plugin keeps the state [Packaging] although it still
    runs, and the failure is not counted. *)
Theorem failed_package_lost e t p :
  active_episode p = Some e ->
  under (finish_episode t) p (fun p' res => forall x, res = Err x ->
    active_episode p' = None /\ state p' = Packaging /\ running p' = running p /\ stats p' = stats p).
Proof.
  intros He. eapply hoare_mono; [apply finish_episode_spec|]. rewrite He.
  intros p' res (Ha & Hr & _ & Hs) x ->. by destruct Hs as (-> & ->).
Qed.
End Plugin.

(** ** A plugin with a camera and a teleop trigger *)

#[local] Existing Instance Triggers.TeleopTrigger_trigger.

Definition demo_config : DataCollectionConfig := {|
  name := "demo"; robot_id := "r1"; fleet_id := None; streams := ["cam"];
  memory_limit_bytes := 1024; default_capacity := 4; max_age_seconds := f32_of 60;
  storage := Storage.sample_config; upload := None; auto_upload := false; auto_start := false;
  default_episode_duration_secs := f32_of 60; trigger_cooldown_secs := f32_of 5 |}.

Definition demo_plugin : @Plugin unit Triggers.TeleopTrigger := {|
  config := demo_config; state := Running;
  buffers := (Buffer.register_stream "cam" (Some 4%nat) None (Buffer.Store_new (Buffer.BufferManager_new 1024))).2;
  triggers := Triggers.with_cooldown 5000000000 Triggers.teleop_manager;
  heap := {[0%nat := Triggers.TeleopTrigger_new "demo"]};
  storage_manager := Some Storage.empty_manager; upload_manager := None; active_episode := None;
  stats := PluginStats_default; enabled := true; running := true |}.

Definition demo_event : Triggers.TriggerEvent :=
  Triggers.TriggerEvent_new "demo" Triggers.Teleop 7000000000 "Teleoperation started".
Definition demo_episode : ActiveEpisode := {|
  episode_id := "e1"; start_time_ns := 2000000000; expected_end_ns := 12000000000;
  trigger_event := demo_event; metadata := episode_metadata 7000000000 2000000000 "r1" |}.
Definition demo_recording : @Plugin unit Triggers.TeleopTrigger :=
  set_active (Some demo_episode) (set_state Recording demo_plugin).

Lemma demo_coherent : coherent demo_plugin.
Proof. by split. Qed.
Lemma demo_recording_coherent : coherent demo_recording.
Proof. by split. Qed.
Lemma demo_storage_ready : storage_ready 50 Storage.empty_manager.
Proof. split; [apply Storage.accounted_new|by vm_compute]. Qed.

Example demo_built :
  is_ok (@Plugin_new unit Triggers.TeleopTrigger demo_config ∅) = true /\
  @Plugin_new unit Triggers.TeleopTrigger (DataCollectionConfig_new "r1") ∅ = Err (Config "At least one stream is required").
Proof. by vm_compute. Qed.

(** A system for the demo: it packages forty bytes, or fails. *)
Definition demo_system (packs : bool) (R : Set) (c : PluginCall R) (now : Z) : R * Z :=
  match c with
  | inl (inl c) =>
      (match c in OwnCall R return R with
       | CurrentTimestamp => now
       | NewEpisodeId => "e1"
       | TriggerOrder m => map_to_list m
       | PackageEpisode id _ _ _ => if packs then Ok (Storage.sample_package id 40) else Err "disk full"
       end, now + 1)
  | inl (inr c) => Storage.sample_disk R c now
  | inr c =>
      (match c in Upload.UploadCall R return R with
       | Upload.SystemTime | Upload.Instant => now
       | Upload.PathExists _ => true
       | Upload.FileLen _ => Ok 40
       end, now + 1)
  end.

Lemma plugin_life_coherent_witness :
  hoare (fun _ _ => True) (replies 50) (perform id OpStop) demo_recording (fun p' _ => coherent p') /\
  state (run_prog (demo_system true) (perform id OpStop demo_recording) 9000000000).1.1 = Stopped.
Proof.
  split; [|by vm_compute]. apply (plugin_life_coherent id 50 OpStop demo_recording demo_recording_coherent).
Defined.

Lemma triggered_episode_witness :
  hoare (fun _ _ => True) (replies 50) (process_triggers (Triggers.on_at 7000000000)) demo_plugin (fun p' res =>
    exists order events h, order ≡ₚ map_to_list (Triggers.triggers (triggers demo_plugin)) /\
      Triggers.manager_evaluate order (Triggers.on_at 7000000000) (triggers demo_plugin) (heap demo_plugin) = (events, h) /\
      res = Ok events /\ heap p' = h /\
      triggers p' = Triggers.record_trigger_fired events (triggers demo_plugin) /\
      match events with
      | [] => active_episode p' = None
      | first :: rest => exists a, active_episode p' = Some a /\ state p' = Recording /\ trigger_event a = first /\
          start_time_ns a = sat_sub (Triggers.timestamp_ns first) (Triggers.pre_roll_ns first) /\
          expected_end_ns a = wrap_add u64_max (Triggers.timestamp_ns first) (Triggers.post_roll_ns first)
      end) /\
  is_recording (run_prog (demo_system true) (process_triggers (Triggers.on_at 7000000000) demo_plugin) 0).1.1 = true.
Proof.
  split; [|by vm_compute]. exact (triggered_episode 50 (Triggers.on_at 7000000000) demo_plugin demo_coherent eq_refl).
Defined.

Lemma finished_episode_kept_witness :
  hoare (fun _ _ => True) (replies 50) (finish_episode id 9000000000) demo_recording (fun p' res => forall r, res = Ok r ->
    Storage.pr_episode_id r = "e1" /\ state p' = Running /\ active_episode p' = None /\
    exists s', storage_manager p' = Some s' /\ Storage.accounted (Storage.index s') /\
      Storage.stored_within r Storage.sample_config s') /\
  is_ok (run_prog (demo_system true) (finish_episode id 9000000000 demo_recording) 9000000000).1.2 = true.
Proof.
  split; [|by vm_compute].
  apply (finished_episode_kept id 50 demo_episode 9000000000 demo_recording Storage.empty_manager);
    [done|done|exact demo_storage_ready].
Defined.

Lemma failed_package_lost_witness :
  hoare (fun _ _ => True) (replies 50) (finish_episode id 9000000000) demo_recording (fun p' res => forall x, res = Err x ->
    active_episode p' = None /\ state p' = Packaging /\ running p' = true /\ stats p' = PluginStats_default) /\
  (run_prog (demo_system false) (finish_episode id 9000000000 demo_recording) 9000000000).1.2 = Err (PackagerError "disk full").
Proof.
  split; [|by vm_compute]. apply (failed_package_lost id 50 demo_episode 9000000000 demo_recording). done.
Defined.

(** ** The packager keeps the promise the plugin relies on *)

(** What [replies] assumes of a package, the packager of Packager.v delivers on
    every system whose files are no longer than [max]. *)
Theorem packager_meets_promise {Json : Set} {J : Samples.SampleJson Json} {D : Digests.Digests}
    (metadata_json : Storage.EpisodeMetadata -> result string string) (show : Packager.PackagerError -> string)
    max id start_ns end_ns md (p : Packager.EpisodePackager) :
  hoare (fun (R : Set) (_ : @Packager.PkgCall Json R) => True) (Packager.sizes_within max)
    (Packager.package_episode metadata_json id start_ns end_ns md) p
    (fun _ r => replies max _ (own (PackageEpisode id start_ns end_ns md))
                  (match r with Ok k => Ok k | Err e => Err (show e) end)).
Proof.
  eapply hoare_mono; [apply Packager.package_keeps_name|]. intros p' r [_ H] k. destruct r as [k'|e]; [|done].
  intros [= <-]. by destruct (H k' eq_refl) as (_ & ? & ? & _).
Qed.
