(* ===== verification/Health.v ===== *)
(** * Connection health (omni-ssh/src/health/mod.rs)

    The health of one connection, as the keepalives, round trips and losses
    move it, and the monitor of all connections.  Percentages are IEEE floats
    ([f32]); times are seconds since the connection's start. *)

From Stdlib Require Import SpecFloat.
From S2P Require Import Prelude RustStr.

Open Scope string_scope.
Open Scope list_scope.
Open Scope Z_scope.

Inductive HealthStatus : Type :=
| Healthy
| Degraded (reason : string)
| Unhealthy (reason : string)
| Dead (reason : string).

Definition should_terminate (s : HealthStatus) : bool := match s with Dead _ => true | _ => false end.
Definition is_usable (s : HealthStatus) : bool :=
  match s with Healthy | Degraded _ => true | _ => false end.

Record HealthThreshold : Type := {
  max_rtt_degraded_ms : Z; max_rtt_unhealthy_ms : Z;
  max_loss_degraded_pct : spec_float; max_loss_unhealthy_pct : spec_float;
  keepalive_interval_secs : Z; max_missed_keepalives : Z; operation_timeout_secs : Z }.

(** A small whole number as a float: [n = m * 2^e] with the mantissa filling 24 bits. *)
Definition HealthThreshold_default : HealthThreshold := {|
  max_rtt_degraded_ms := 500; max_rtt_unhealthy_ms := 2000;
  max_loss_degraded_pct := S754_finite false 10485760 (-21);
  max_loss_unhealthy_pct := S754_finite false 10485760 (-19);
  keepalive_interval_secs := 30; max_missed_keepalives := 3; operation_timeout_secs := 60 |}.

Record ConnectionHealth : Type := {
  conn_id : string;
  status : HealthStatus;
  last_activity : Z;
  last_keepalive_sent : Z;
  last_keepalive_received : Z;
  missed_keepalives : Z;
  bytes_received : Z;
  bytes_sent : Z;
  active : bool;
  thresholds : HealthThreshold }.

Definition new (id : string) (th : HealthThreshold) : ConnectionHealth := {|
  conn_id := id; status := Healthy; last_activity := 0; last_keepalive_sent := 0;
  last_keepalive_received := 0; missed_keepalives := 0; bytes_received := 0; bytes_sent := 0;
  active := true; thresholds := th |}.

Definition update_status (s : HealthStatus) (c : ConnectionHealth) : ConnectionHealth :=
  if active c then {|
    conn_id := conn_id c; status := s; last_activity := last_activity c;
    last_keepalive_sent := last_keepalive_sent c; last_keepalive_received := last_keepalive_received c;
    missed_keepalives := missed_keepalives c; bytes_received := bytes_received c;
    bytes_sent := bytes_sent c; active := active c; thresholds := thresholds c |}
  else c.

(** [now]: the seconds elapsed since the start. *)
Definition record_activity (now : Z) (c : ConnectionHealth) : ConnectionHealth := {|
  conn_id := conn_id c; status := status c; last_activity := now;
  last_keepalive_sent := last_keepalive_sent c; last_keepalive_received := last_keepalive_received c;
  missed_keepalives := missed_keepalives c; bytes_received := bytes_received c;
  bytes_sent := bytes_sent c; active := active c; thresholds := thresholds c |}.

Definition record_received (now bytes : Z) (c : ConnectionHealth) : ConnectionHealth :=
  record_activity now {|
    conn_id := conn_id c; status := status c; last_activity := last_activity c;
    last_keepalive_sent := last_keepalive_sent c; last_keepalive_received := last_keepalive_received c;
    missed_keepalives := missed_keepalives c; bytes_received := wrap_add u64_max (bytes_received c) bytes;
    bytes_sent := bytes_sent c; active := active c; thresholds := thresholds c |}.

Definition record_sent (now bytes : Z) (c : ConnectionHealth) : ConnectionHealth :=
  record_activity now {|
    conn_id := conn_id c; status := status c; last_activity := last_activity c;
    last_keepalive_sent := last_keepalive_sent c; last_keepalive_received := last_keepalive_received c;
    missed_keepalives := missed_keepalives c; bytes_received := bytes_received c;
    bytes_sent := wrap_add u64_max (bytes_sent c) bytes; active := active c; thresholds := thresholds c |}.

Definition record_keepalive_sent (now : Z) (c : ConnectionHealth) : ConnectionHealth := {|
  conn_id := conn_id c; status := status c; last_activity := last_activity c;
  last_keepalive_sent := now; last_keepalive_received := last_keepalive_received c;
  missed_keepalives := missed_keepalives c; bytes_received := bytes_received c;
  bytes_sent := bytes_sent c; active := active c; thresholds := thresholds c |}.

Definition set_missed (c : ConnectionHealth) (received missed : Z) : ConnectionHealth := {|
  conn_id := conn_id c; status := status c; last_activity := last_activity c;
  last_keepalive_sent := last_keepalive_sent c; last_keepalive_received := received;
  missed_keepalives := missed; bytes_received := bytes_received c;
  bytes_sent := bytes_sent c; active := active c; thresholds := thresholds c |}.

Definition record_keepalive_received (now : Z) (c : ConnectionHealth) : ConnectionHealth :=
  record_activity now (set_missed c now 0).

Definition record_missed_keepalive (c : ConnectionHealth) : ConnectionHealth :=
  let missed := missed_keepalives c + 1 in
  let c := set_missed c (last_keepalive_received c) (wrap_add u64_max (missed_keepalives c) 1) in
  let max := max_missed_keepalives (thresholds c) in
  if max <=? missed then update_status (Dead ("Missed " +:+ show_uint missed +:+ " keepalives")) c
  else update_status (Unhealthy ("Missed " +:+ show_uint missed +:+ " of " +:+ show_uint max +:+ " keepalives")) c.

Definition rtt_status (th : HealthThreshold) (rtt_ms : Z) : HealthStatus :=
  if max_rtt_unhealthy_ms th <? rtt_ms then Unhealthy ("High RTT: " +:+ show_uint rtt_ms +:+ "ms")
  else if max_rtt_degraded_ms th <? rtt_ms then Degraded ("Elevated RTT: " +:+ show_uint rtt_ms +:+ "ms")
  else Healthy.

Definition update_rtt (rtt_ms : Z) (c : ConnectionHealth) : ConnectionHealth :=
  update_status (rtt_status (thresholds c) rtt_ms) c.

(** [format!("{:.1}", x)] of the standard library. *)
Section Loss.
Context (show_one_decimal : spec_float -> string).

Definition loss_status (th : HealthThreshold) (loss_pct : spec_float) : HealthStatus :=
  if SFltb (max_loss_unhealthy_pct th) loss_pct
  then Unhealthy ("High packet loss: " +:+ show_one_decimal loss_pct +:+ "%")
  else if SFltb (max_loss_degraded_pct th) loss_pct
  then Degraded ("Elevated packet loss: " +:+ show_one_decimal loss_pct +:+ "%")
  else Healthy.

Definition update_packet_loss (loss_pct : spec_float) (c : ConnectionHealth) : ConnectionHealth :=
  update_status (loss_status (thresholds c) loss_pct) c.
End Loss.

Definition mark_dead (reason : string) (c : ConnectionHealth) : ConnectionHealth := update_status (Dead reason) c.

(** [None]: the subtraction underflows. *)
Definition needs_keepalive (now : Z) (c : ConnectionHealth) : option bool :=
  if now <? last_activity c then None
  else Some (keepalive_interval_secs (thresholds c) <=? now - last_activity c).

Definition stop (c : ConnectionHealth) : ConnectionHealth := {|
  conn_id := conn_id c; status := status c; last_activity := last_activity c;
  last_keepalive_sent := last_keepalive_sent c; last_keepalive_received := last_keepalive_received c;
  missed_keepalives := missed_keepalives c; bytes_received := bytes_received c;
  bytes_sent := bytes_sent c; active := false; thresholds := thresholds c |}.

Record ConnectionStats : Type := {
  cs_conn_id : string; cs_uptime : Z; cs_bytes_received : Z; cs_bytes_sent : Z;
  cs_missed_keepalives : Z; cs_status : HealthStatus }.

Definition stats (uptime : Z) (c : ConnectionHealth) : ConnectionStats := {|
  cs_conn_id := conn_id c; cs_uptime := uptime; cs_bytes_received := bytes_received c;
  cs_bytes_sent := bytes_sent c; cs_missed_keepalives := missed_keepalives c mod (u32_max + 1);
  cs_status := status c |}.

(** ** The monitor *)

(** Connections are shared; [detached] are those no longer monitored that their
    owners may still use. *)
Record HealthMonitor : Type := {
  connections : gmap string ConnectionHealth; default_thresholds : HealthThreshold;
  detached : list ConnectionHealth }.

Definition HealthMonitor_new (th : HealthThreshold) : HealthMonitor := {|
  connections := ∅; default_thresholds := th; detached := [] |}.
Definition HealthMonitor_default : HealthMonitor := HealthMonitor_new HealthThreshold_default.

Definition monitor_with_thresholds (id : string) (th : HealthThreshold) (m : HealthMonitor) : HealthMonitor := {|
  connections := <[id := new id th]> (connections m); default_thresholds := default_thresholds m;
  detached := match connections m !! id with Some h => push (detached m) h | None => detached m end |}.
Definition monitor (id : string) (m : HealthMonitor) : HealthMonitor :=
  monitor_with_thresholds id (default_thresholds m) m.

Definition stop_monitoring (id : string) (m : HealthMonitor) : HealthMonitor :=
  match connections m !! id with
  | Some h => {| connections := delete id (connections m); default_thresholds := default_thresholds m;
                 detached := push (detached m) (stop h) |}
  | None => m
  end.

Definition get (id : string) (m : HealthMonitor) : option ConnectionHealth := connections m !! id.

Definition is_unhealthy (s : HealthStatus) : bool := match s with Unhealthy _ | Dead _ => true | _ => false end.

Definition unhealthy_connections (m : HealthMonitor) : list string :=
  (List.filter (fun kv => is_unhealthy (status kv.2)) (map_to_list (connections m))).*1.

Record MonitorStats : Type := { total : nat; healthy : nat; degraded : nat; unhealthy : nat; dead : nat }.

Definition count_status (f : HealthStatus -> bool) (m : HealthMonitor) : nat :=
  length (List.filter (fun kv => f (status kv.2)) (map_to_list (connections m))).

Definition overall_stats (m : HealthMonitor) : MonitorStats := {|
  total := size (connections m);
  healthy := count_status (fun s => match s with Healthy => true | _ => false end) m;
  degraded := count_status (fun s => match s with Degraded _ => true | _ => false end) m;
  unhealthy := count_status (fun s => match s with Unhealthy _ => true | _ => false end) m;
  dead := count_status should_terminate m |}.

(** ** Properties *)

Lemma missed_step c :
  active c = true -> 0 <= missed_keepalives c < u64_max ->
  let c' := record_missed_keepalive c in
  should_terminate (status c') = (max_missed_keepalives (thresholds c) <=? missed_keepalives c + 1) /\
  is_usable (status c') = false /\ missed_keepalives c' = missed_keepalives c + 1 /\
  active c' = true /\ thresholds c' = thresholds c.
Proof.
  intros Ha Hm. unfold record_missed_keepalive, update_status, set_missed. cbn. rewrite Ha.
  case_match; cbn; (split; [done|]; split; [done|]; split; [by rewrite wrap_add_small by lia|done]).
Qed.

(** after [n] missed keepalives in a row a connection is unusable, and
    dead exactly when the count reached the threshold; a keepalive received
    starts the count again. *)
Theorem missed_keepalives_kill c n now :
  active c = true -> 0 <= missed_keepalives c -> (0 < n)%nat ->
  missed_keepalives c + Z.of_nat n <= u64_max ->
  let missed k := Nat.iter n record_missed_keepalive k in
  is_usable (status (missed c)) = false /\
  should_terminate (status (missed c)) =
    (max_missed_keepalives (thresholds c) <=? missed_keepalives c + Z.of_nat n) /\
  should_terminate (status (missed (record_keepalive_received now c))) =
    (max_missed_keepalives (thresholds c) <=? Z.of_nat n).
Proof.
  intros Ha Hm Hn Hb. cbv zeta.
  assert (Hmain : forall k, active k = true -> 0 <= missed_keepalives k -> missed_keepalives k + Z.of_nat n <= u64_max ->
    let k' := Nat.iter n record_missed_keepalive k in
    should_terminate (status k') = (max_missed_keepalives (thresholds k) <=? missed_keepalives k + Z.of_nat n) /\
    is_usable (status k') = false /\ missed_keepalives k' = missed_keepalives k + Z.of_nat n /\
    active k' = true /\ thresholds k' = thresholds k).
  { clear c Ha Hm Hb. intros c Ha Hm Hb. induction n as [|m IH]; [lia|].
    destruct m as [|m].
    - apply missed_step; [done|lia].
    - destruct IH as (_ & _ & Hm' & Ha' & Ht'); [lia|lia|].
      cbv zeta. set (k := Nat.iter (S m) record_missed_keepalive c) in *.
      change (Nat.iter (S (S m)) record_missed_keepalive c) with (record_missed_keepalive k).
      destruct (missed_step k) as (H1 & H2 & H3 & H4 & H5); [done|lia|].
      rewrite H1, H3, H5, Hm', Ht'. split; [f_equal; lia|]. split; [done|]. split; [lia|done]. }
  destruct (Hmain c Ha Hm Hb) as (H1 & H2 & _). split; [done|]. split; [done|].
  destruct (Hmain (record_keepalive_received now c)) as (H3 & _); [done|done|cbn; lia|].
  rewrite H3. done.
Qed.

(** a dead connection is not final: one acceptable round trip makes it
    healthy again, while a keepalive received leaves it dead; a stopped one
    keeps its status whatever is reported. *)
Theorem dead_is_revived c reason rtt_ms now :
  active c = true -> rtt_ms <= max_rtt_degraded_ms (thresholds c) ->
  max_rtt_degraded_ms (thresholds c) <= max_rtt_unhealthy_ms (thresholds c) ->
  let d := mark_dead reason c in
  status d = Dead reason /\ status (update_rtt rtt_ms d) = Healthy /\
  status (record_keepalive_received now d) = Dead reason /\
  (forall s, update_status s (stop d) = stop d).
Proof.
  intros Ha Hr Hle. unfold mark_dead, update_rtt, update_status. rewrite Ha. cbn.
  split; [done|]. split; [|done]. unfold rtt_status.
  replace (max_rtt_unhealthy_ms (thresholds c) <? rtt_ms) with false by (symmetry; apply Z.ltb_ge; lia).
  by replace (max_rtt_degraded_ms (thresholds c) <? rtt_ms) with false by (symmetry; apply Z.ltb_ge; lia).
Qed.

(** The monitor counts every connection once. *)
Lemma overall_stats_total m :
  let s := overall_stats m in (healthy s + degraded s + unhealthy s + dead s)%nat = total s.
Proof.
  cbv zeta. cbn. unfold count_status. rewrite <- (length_map_to_list (connections m)).
  induction (map_to_list (connections m)) as [|[k c] l IH]; [done|]. cbn. destruct (status c); cbn; lia.
Qed.

Lemma missed_keepalives_kill_witness :
  should_terminate (status (Nat.iter 3 record_missed_keepalive (new "c" HealthThreshold_default))) = true.
Proof.
  destruct (missed_keepalives_kill (new "c" HealthThreshold_default) 3 0) as (_ & H & _);
    [reflexivity|by vm_compute|lia|by vm_compute|]. exact H.
Defined.

Lemma dead_is_revived_witness :
  status (update_rtt 10 (mark_dead "timeout" (new "c" HealthThreshold_default))) = Healthy.
Proof. apply (dead_is_revived (new "c" HealthThreshold_default) "timeout" 10 0); by vm_compute. Defined.

Example default_losses :
  SFltb (max_loss_degraded_pct HealthThreshold_default) (S754_finite false 12582912 (-21)) = true /\
  SFltb (max_loss_degraded_pct HealthThreshold_default) (S754_finite false 8388608 (-21)) = false.
Proof. by vm_compute. Qed.
