(* ===== verification/Recording.v ===== *)
(** * Session recording (omni-ssh/src/recording/mod.rs, server/handler.rs)

    The recorder with its writers (file, upload, signed chunks around another
    writer), the chain of signed chunks and its check, and the recorder the
    handler makes for a session when it is built with recording. *)

From Stdlib Require Import Ascii.
From S2P Require Import Prelude RustStr F32 Paths Effects SshTypes Digests.

Open Scope string_scope.
Open Scope list_scope.
Open Scope Z_scope.

(** ** Data *)

Module Config.
Record RecordingConfig : Set := {
  enabled : bool; local_dir : option string; cloud_url : option string; chunk_size : Z;
  record_input : bool; integrity_key : option string }.

Definition default_chunk_size : Z := 65536.

Definition default : RecordingConfig := {|
  enabled := false; local_dir := None; cloud_url := None; chunk_size := default_chunk_size;
  record_input := false; integrity_key := None |}.
End Config.

Record CastHeader : Type := {
  h_version : Z; h_width : Z; h_height : Z; h_timestamp : Z; h_duration : option spec_float;
  h_command : option string; h_title : option string; h_env : gmap string string;
  h_ssh_user : option string; h_local_user : option string; h_src_node_id : option string;
  h_connection_id : option string }.

(** The time is the number of seconds since the start, an [f64]. *)
Record CastEntry : Type := { e_time : spec_float; e_kind : string; e_data : string }.

Record SignedRecordingChunk : Set := {
  chunk_num : Z; data : string; sha256_of : string; signature : string; timestamp : Z;
  prev_hash : option string }.

(** The serde_json crate: the text of the three. *)
Class RecordingJson := {
  header_json : CastHeader -> result string string;
  entry_json : CastEntry -> result string string;
  chunk_json : SignedRecordingChunk -> result string string }.

(** ** The chain of signed chunks *)

Record RecordingIntegrity : Set := { hmac_key : list Z; next_num : Z; last_hash : option string }.

Section Chain.
Context {D : Digests}.

Definition integrity_new (key : list Z) : RecordingIntegrity := {| hmac_key := key; next_num := 0; last_hash := None |}.

Definition from_base64_key (key_b64 : string) : result string RecordingIntegrity :=
  key ← b64_decode key_b64; mret (integrity_new key).

(** [u32::to_le_bytes]. *)
Definition u32_le (n : Z) : list Z := [n mod 256; n / 256 mod 256; n / 65536 mod 256; n / 16777216 mod 256].

(** What is signed: the number, the digest, the text of the previous one. *)
Definition sig_data (num : Z) (digest : list Z) (prev : option string) : list Z :=
  u32_le num ++ digest ++ from_option string_bytes [] prev.

Definition sign_chunk (now : Z) (text : string) (i : RecordingIntegrity) : SignedRecordingChunk * RecordingIntegrity :=
  let digest := sha256 (string_bytes text) in
  let sha256_b64 := b64_encode digest in
  ({| chunk_num := next_num i; data := b64_encode (string_bytes text); sha256_of := sha256_b64;
      signature := b64_encode (hmac_sha256 (hmac_key i) (sig_data (next_num i) digest (last_hash i)));
      timestamp := now; prev_hash := last_hash i |},
   {| hmac_key := hmac_key i; next_num := wrap_add u32_max (next_num i) 1; last_hash := Some sha256_b64 |}).

Definition verify_chunk (key : list Z) (chunk : SignedRecordingChunk) (expected_prev_hash : option string)
    : result string string :=
  decoded ← b64_decode (data chunk);
  let digest := sha256 decoded in
  if bool_decide (b64_encode digest <> sha256_of chunk) then Err "SHA256 mismatch"
  else if bool_decide (prev_hash chunk <> expected_prev_hash) then Err "Chain hash mismatch"
  else
    expected_sig ← b64_decode (signature chunk);
    if hmac_verify key (sig_data (chunk_num chunk) digest (prev_hash chunk)) expected_sig then
      if valid_utf8 decoded then mret (bytes_string decoded) else Err "invalid utf-8 sequence"
    else Err "HMAC signature verification failed".
End Chain.

(** ** Writers *)

Definition Fd : Set := Z.

Record Request : Set := { url : string; headers : list (string * string); body : string }.

(** The clocks, the disk and the HTTP client.  A reply to a request is an
    error or whether the status is a success. *)
Inductive RecCall : Set -> Set :=
| InstantNow : RecCall Z
| UtcNow : RecCall Z
| CreateDirAll (p : string) : RecCall (result string unit)
| CreateFile (p : string) : RecCall (result string Fd)
| WriteAll (fd : Fd) (bytes : string) : RecCall (result string unit)
| Flush (fd : Fd) : RecCall (result string unit)
| SyncAll (fd : Fd) : RecCall (result string unit)
| Send (r : Request) : RecCall (result string bool).

Abbreviation Rec S := (SM RecCall S string) (only parsing).

Record FileRecordingWriter : Set := { path : string; file : option Fd }.

Record CloudRecordingWriter : Set := {
  upload_url : string; cloud_session : string; buffer : list string; lines_per_chunk : Z;
  chunks_sent : Z; api_token : option string }.

(** The implementations of the trait [RecordingWriter]. *)
Inductive Writer : Set :=
| FileWriter (f : FileRecordingWriter)
| CloudWriter (c : CloudRecordingWriter)
| IntegrityWriter (integrity : RecordingIntegrity) (pending : list string) (size : Z) (inner : Writer).

Definition newline : ascii := "010".

(** [FileRecordingWriter::new]. *)
Definition file_new {S} (p : string) : Rec S FileRecordingWriter :=
  _ ← match path_parent p with
      | Some parent => r ← call (CreateDirAll parent); lift r
      | None => mret tt
      end;
  r ← call (CreateFile p);
  fd ← lift r;
  mret {| path := p; file := Some fd |}.

Definition file_write_line (line : string) : Rec FileRecordingWriter unit :=
  f ← gets file;
  match f with
  | Some fd =>
      r ← call (WriteAll fd line);
      _ ← lift r;
      r ← call (WriteAll fd (String newline ""));
      lift r
  | None => mret tt
  end.

Definition file_finalize : Rec FileRecordingWriter unit :=
  f ← gets file;
  match f with
  | Some fd =>
      r ← call (Flush fd);
      _ ← lift r;
      r ← call (SyncAll fd);
      lift r
  | None => mret tt
  end.

Definition cloud_new (url session : string) : CloudRecordingWriter := {|
  upload_url := url; cloud_session := session; buffer := []; lines_per_chunk := 100; chunks_sent := 0;
  api_token := None |}.
Definition with_chunk_size (size : Z) (c : CloudRecordingWriter) : CloudRecordingWriter := {|
  upload_url := upload_url c; cloud_session := cloud_session c; buffer := buffer c; lines_per_chunk := size;
  chunks_sent := chunks_sent c; api_token := api_token c |}.
Definition with_api_token (token : string) (c : CloudRecordingWriter) : CloudRecordingWriter := {|
  upload_url := upload_url c; cloud_session := cloud_session c; buffer := buffer c;
  lines_per_chunk := lines_per_chunk c; chunks_sent := chunks_sent c; api_token := Some token |}.

Definition set_buffer (b : list string) (n : Z) (c : CloudRecordingWriter) : CloudRecordingWriter := {|
  upload_url := upload_url c; cloud_session := cloud_session c; buffer := b;
  lines_per_chunk := lines_per_chunk c; chunks_sent := n; api_token := api_token c |}.

Definition authorization (c : CloudRecordingWriter) : list (string * string) :=
  match api_token c with Some token => [("Authorization", "Bearer " +:+ token)] | None => [] end.

(** The request for chunk [n]. *)
Definition chunk_request (c : CloudRecordingWriter) (n : Z) (lines : list string) : Request := {|
  url := upload_url c;
  headers := [("Content-Type", "application/x-ndjson"); ("X-Session-ID", cloud_session c);
              ("X-Chunk-Number", show_uint n)] ++ authorization c;
  body := join newline lines |}.

Definition finalize_request (c : CloudRecordingWriter) : Request := {|
  url := upload_url c;
  headers := [("Content-Type", "application/json"); ("X-Session-ID", cloud_session c);
              ("X-Finalize", "true")] ++ authorization c;
  body := "{}" |}.

(** Failures are logged only. *)
Definition flush_buffer : Rec CloudRecordingWriter unit :=
  c ← gets Datatypes.id;
  match buffer c with
  | [] => mret tt
  | _ =>
      let n := wrap_add u32_max (chunks_sent c) 1 in
      _ ← call (Send (chunk_request c n (buffer c)));
      modify (set_buffer [] n)
  end.

Definition cloud_write_line (line : string) : Rec CloudRecordingWriter unit :=
  _ ← modify (fun c => set_buffer (push (buffer c) line) (chunks_sent c) c);
  c ← gets Datatypes.id;
  if lines_per_chunk c <=? Z.of_nat (length (buffer c)) then flush_buffer else mret tt.

Definition cloud_finalize : Rec CloudRecordingWriter unit :=
  _ ← flush_buffer;
  c ← gets Datatypes.id;
  _ ← call (Send (finalize_request c));
  mret tt.

(** A writer's program seen from outside. *)
Definition Outcome : Type := prog RecCall (Writer * result string unit).
Definition on {S} (wrap : S -> Writer) (m : Rec S unit) (s : S) : Outcome :=
  prog_bind (m s) (fun '(s, r) => Ret (wrap s, r)).

Section Writers.
Context {D : Digests} {J : RecordingJson}.

Definition integrity_writer_new (inner : Writer) (key : list Z) (size : Z) : Writer :=
  IntegrityWriter (integrity_new key) [] size inner.

(** [flush_chunk], with the [write_line] of the inner writer. *)
Definition flush_chunk (write : string -> Outcome) (i : RecordingIntegrity) (pending : list string) (size : Z)
    (inner : Writer) : Outcome :=
  match pending with
  | [] => Ret (IntegrityWriter i pending size inner, Ok tt)
  | _ =>
      Vis UtcNow (fun now =>
        let '(chunk, i) := sign_chunk now (join newline pending) i in
        match chunk_json chunk with
        | Err e => Ret (IntegrityWriter i pending size inner, Err e)
        | Ok json =>
            prog_bind (write json) (fun '(inner, r) =>
              match r with
              | Err e => Ret (IntegrityWriter i pending size inner, Err e)
              | Ok _ => Ret (IntegrityWriter i [] size inner, Ok tt)
              end)
        end)
  end.

Fixpoint write_line (w : Writer) (line : string) {struct w} : Outcome :=
  match w with
  | FileWriter f => on FileWriter (file_write_line line) f
  | CloudWriter c => on CloudWriter (cloud_write_line line) c
  | IntegrityWriter i pending size inner =>
      let pending := push pending line in
      if size <=? Z.of_nat (length pending) then flush_chunk (write_line inner) i pending size inner
      else Ret (IntegrityWriter i pending size inner, Ok tt)
  end.

(** How many writers are wrapped around each other: flushing keeps it, and it
    bounds the recursion of [finalize]. *)
Fixpoint depth (w : Writer) : nat :=
  match w with IntegrityWriter _ _ _ inner => S (depth inner) | _ => O end.

Fixpoint finalize_within (n : nat) (w : Writer) {struct n} : Outcome :=
  match w with
  | FileWriter f => on FileWriter file_finalize f
  | CloudWriter c => on CloudWriter cloud_finalize c
  | IntegrityWriter i pending size inner =>
      match n with
      | O => Ret (w, Ok tt)
      | S n =>
          prog_bind (flush_chunk (write_line inner) i pending size inner) (fun '(w, r) =>
            match w, r with
            | IntegrityWriter i pending size inner, Ok _ =>
                prog_bind (finalize_within n inner) (fun '(inner, r) => Ret (IntegrityWriter i pending size inner, r))
            | _, _ => Ret (w, r)
            end)
      end
  end.
Definition finalize_writer (w : Writer) : Outcome := finalize_within (depth w) w.

(** ** The recorder *)

Record SessionRecorder : Set := {
  session_id : string; start_time : Z; start_timestamp : Z; width : Z; height : Z;
  writers : list Writer; header_written : bool; bytes_recorded : Z; entry_count : Z }.

Definition recorder_new (id : string) (w h now utc : Z) : SessionRecorder := {|
  session_id := id; start_time := now; start_timestamp := utc; width := w; height := h; writers := [];
  header_written := false; bytes_recorded := 0; entry_count := 0 |}.

Definition set_writers (ws : list Writer) (r : SessionRecorder) : SessionRecorder := {|
  session_id := session_id r; start_time := start_time r; start_timestamp := start_timestamp r;
  width := width r; height := height r; writers := ws; header_written := header_written r;
  bytes_recorded := bytes_recorded r; entry_count := entry_count r |}.
Definition add_writer (w : Writer) (r : SessionRecorder) : SessionRecorder := set_writers (push (writers r) w) r.
Definition mark_header_written (r : SessionRecorder) : SessionRecorder := {|
  session_id := session_id r; start_time := start_time r; start_timestamp := start_timestamp r;
  width := width r; height := height r; writers := writers r; header_written := true;
  bytes_recorded := bytes_recorded r; entry_count := entry_count r |}.
Definition set_size (w h : Z) (r : SessionRecorder) : SessionRecorder := {|
  session_id := session_id r; start_time := start_time r; start_timestamp := start_timestamp r;
  width := w; height := h; writers := writers r; header_written := header_written r;
  bytes_recorded := bytes_recorded r; entry_count := entry_count r |}.
Definition counted (bytes : Z) (r : SessionRecorder) : SessionRecorder := {|
  session_id := session_id r; start_time := start_time r; start_timestamp := start_timestamp r;
  width := width r; height := height r; writers := writers r; header_written := header_written r;
  bytes_recorded := wrap_add u64_max (bytes_recorded r) bytes; entry_count := wrap_add u64_max (entry_count r) 1 |}.

(** [timestamp()]: whole seconds. *)
Definition create_header (r : SessionRecorder) : CastHeader := {|
  h_version := 2; h_width := width r; h_height := height r; h_timestamp := start_timestamp r / nanos_per_sec;
  h_duration := None; h_command := None; h_title := Some ("OmniEdge SSH Session " +:+ session_id r);
  h_env := ∅; h_ssh_user := None; h_local_user := None; h_src_node_id := None;
  h_connection_id := Some (session_id r) |}.

(** [for writer in &mut self.writers { f(writer).await?; }]. *)
Fixpoint each_writer (f : Writer -> Outcome) (ws : list Writer) : prog RecCall (list Writer * result string unit) :=
  match ws with
  | [] => Ret ([], Ok tt)
  | w :: ws =>
      prog_bind (f w) (fun '(w, r) =>
        match r with
        | Err e => Ret (w :: ws, Err e)
        | Ok _ => prog_bind (each_writer f ws) (fun '(ws, r) => Ret (w :: ws, r))
        end)
  end.

Definition all_writers (f : Writer -> Outcome) : Rec SessionRecorder unit := fun r =>
  prog_bind (each_writer f (writers r)) (fun '(ws, x) => Ret (set_writers ws r, x)).

Definition write_header (h : CastHeader) : Rec SessionRecorder unit :=
  json ← lift (header_json h);
  _ ← all_writers (fun w => write_line w json);
  modify mark_header_written.

(** The line of an event: its time and its text go to every writer. *)
Definition write_entry (kind text : string) : Rec SessionRecorder unit :=
  since ← gets start_time;
  now ← call InstantNow;
  json ← lift (entry_json {| e_time := as_secs_f64 (elapsed since now); e_kind := kind; e_data := text |});
  all_writers (fun w => write_line w json).

Definition require_header : Rec SessionRecorder unit :=
  ready ← gets header_written; guard_m ready "Header not written".

Definition record_output (bytes : list Z) : Rec SessionRecorder unit :=
  _ ← require_header;
  _ ← write_entry "o" (bytes_string (from_utf8_lossy bytes));
  modify (counted (Z.of_nat (length bytes))).

Definition record_input (bytes : list Z) : Rec SessionRecorder unit :=
  _ ← require_header;
  _ ← write_entry "i" (bytes_string (from_utf8_lossy bytes));
  modify (counted (Z.of_nat (length bytes))).

Definition record_resize (w h : Z) : Rec SessionRecorder unit :=
  _ ← require_header;
  _ ← modify (set_size w h);
  _ ← write_entry "r" (show_uint w +:+ "x" +:+ show_uint h);
  modify (counted 0).

Definition finalize : Rec SessionRecorder unit :=
  _ ← call InstantNow;
  all_writers finalize_writer.

(** ** Making recorders *)

Definition recording_path (dir id : string) : string := path_join dir (id +:+ ".cast").

(** [SessionRecorder::new] with both clocks. *)
Definition new_recorder {S} (id : string) (w h : Z) : Rec S SessionRecorder :=
  now ← call InstantNow;
  utc ← call UtcNow;
  mret (recorder_new id w h now utc).

Definition create_recorder (config : Config.RecordingConfig) (id : string) (w h : Z) : Rec unit SessionRecorder :=
  r ← new_recorder id w h;
  r ← match Config.local_dir config with
      | Some dir => f ← file_new (recording_path dir id); mret (add_writer (FileWriter f) r)
      | None => mret r
      end;
  mret (match Config.cloud_url config with
        | Some u => add_writer (CloudWriter (cloud_new u id)) r
        | None => r
        end).

(** ** The recorder of a handler ([SshConnectionHandler::create_recorder])

    The parts of the handler it reads, and the size of the terminal. *)
Record Session : Type := {
  s_action : option SshAction; s_config : RecordingConfig; s_conn_id : string; s_terminal : option (Z * Z);
  s_ssh_user : option string; s_local_user : option string }.

Definition should_record (s : Session) : bool := from_option record_session false (s_action s) || enabled (s_config s).

Definition add_clouds (id : string) (urls : list string) (r : SessionRecorder) : SessionRecorder :=
  fold_left (fun r u => add_writer (CloudWriter (cloud_new u id)) r) urls r.

Definition session_header (s : Session) (session_type : string) (r : SessionRecorder) : CastHeader :=
  let h := create_header r in {|
  h_version := h_version h; h_width := h_width h; h_height := h_height h; h_timestamp := h_timestamp h;
  h_duration := h_duration h; h_command := Some session_type; h_title := h_title h; h_env := h_env h;
  h_ssh_user := s_ssh_user s; h_local_user := s_local_user s; h_src_node_id := h_src_node_id h;
  h_connection_id := Some (s_conn_id s) |}.

(** The recorder and the header that a task of its own writes later. *)
Definition handler_recorder (s : Session) (session_type : string)
    : Rec unit (option (SessionRecorder * CastHeader)) :=
  if negb (should_record s) then mret None
  else
    let '(w, h) := from_option Datatypes.id (80, 24) (s_terminal s) in
    let id := s_conn_id s +:+ "_" +:+ session_type in
    r ← new_recorder id w h;
    r ← match local_dir (s_config s) with
        | Some dir =>
            made ← attempt (file_new (recording_path dir id));
            mret (match made with Ok f => add_writer (FileWriter f) r | Err _ => r end)
        | None => mret r
        end;
    let r := match cloud_url (s_config s) with
             | Some u => add_writer (CloudWriter (cloud_new u id)) r
             | None => r
             end in
    let r := add_clouds id (from_option recorders [] (s_action s)) r in
    mret (Some (r, session_header s session_type r)).

(** The session type of an exec request. *)
Definition exec_session_type (command : string) : string := "exec:" +:+ take_chars 50 command.
End Writers.

(** ** The chain: every signed stream verifies, and what verifies was signed *)

Section ChainTheorems.
Context {D : Digests} {HD : DigestLaws D}.

Definition is_text (t : string) : Prop := valid_utf8 (string_bytes t) = true.

(** Signing one text after the other. *)
Fixpoint sign_all (times : list Z) (texts : list string) (i : RecordingIntegrity)
    : list SignedRecordingChunk * RecordingIntegrity :=
  match texts with
  | [] => ([], i)
  | t :: texts =>
      let '(c, i) := sign_chunk (hd 0 times) t i in
      let '(cs, i) := sign_all (tl times) texts i in (c :: cs, i)
  end.

(** The reader of a stream: each chunk is checked against the digest of the
    one before it. *)
Fixpoint verify_all (key : list Z) (expected : option string) (cs : list SignedRecordingChunk)
    : result string (list string) :=
  match cs with
  | [] => mret []
  | c :: cs =>
      t ← verify_chunk key c expected;
      ts ← verify_all key (Some (sha256_of c)) cs;
      mret (t :: ts)
  end.

Lemma verify_signed now t i :
  is_text t ->
  verify_chunk (hmac_key i) (sign_chunk now t i).1 (last_hash i) = Ok t.
Proof.
  intros Ht. unfold verify_chunk, sign_chunk, hmac_verify. cbn -[bool_decide].
  rewrite (b64_round (string_bytes t)) by apply string_bytes_range. cbn -[bool_decide].
  rewrite !bool_decide_false by (intros H; by apply H). rewrite b64_round by apply hmac_bytes.
  cbn -[bool_decide]. rewrite bool_decide_true by done. unfold is_text in Ht. rewrite Ht.
  cbn. by rewrite bytes_string_bytes.
Qed.

Lemma sign_all_app times a b i :
  sign_all times (a ++ b) i =
  let '(cs, j) := sign_all times a i in
  let '(ds, k) := sign_all (drop (length a) times) b j in (cs ++ ds, k).
Proof.
  revert times i. induction a as [|t a IH]; intros times i; simpl.
  - rewrite drop_0. by destruct (sign_all times b i).
  - rewrite IH. destruct (sign_all (tl times) a _) as [cs j].
    assert (drop (S (length a)) times = drop (length a) (tl times)) as -> by (by destruct times; simpl; rewrite ?drop_nil).
    by destruct (sign_all _ b j).
Qed.

Lemma sign_all_key times ts i : hmac_key (sign_all times ts i).2 = hmac_key i.
Proof.
  revert times i. induction ts as [|t ts IH]; intros times i; simpl; [done|].
  specialize (IH (tl times) (sign_chunk (hd 0 times) t i).2). simpl in IH.
  by destruct (sign_all (tl times) ts _).
Qed.

Lemma sign_all_last times ts t i :
  last_hash (sign_all times (ts ++ [t]) i).2 = Some (b64_encode (sha256 (string_bytes t))).
Proof. rewrite sign_all_app. by destruct (sign_all times ts i). Qed.

Lemma verify_sign_all times ts i :
  Forall is_text ts -> verify_all (hmac_key i) (last_hash i) (sign_all times ts i).1 = Ok ts.
Proof.
  intros Hts. revert times i. induction Hts as [|t ts Ht Hts IH]; intros times i; [done|]. cbn [sign_all].
  pose proof (verify_signed (hd 0 times) t i Ht) as Hv. pose proof (IH (tl times) (sign_chunk (hd 0 times) t i).2) as Hr.
  destruct (sign_chunk (hd 0 times) t i) as [c j] eqn:Es. injection Es as <- <-. cbn in Hr, Hv |- *.
  destruct (sign_all _ ts _) as [cs k]. cbn in Hr |- *. rewrite Hv. cbn. by rewrite Hr.
Qed.

Lemma sign_all_length times ts i : length (sign_all times ts i).1 = length ts.
Proof.
  revert times i. induction ts as [|t ts IH]; intros times i; simpl; [done|].
  specialize (IH (tl times) (sign_chunk (hd 0 times) t i).2). simpl in IH.
  destruct (sign_all (tl times) ts _). simpl in *. by rewrite IH.
Qed.

(** What the reader accepts it accepts in parts, where the digests meet. *)
Lemma verify_all_app key e cs ds ts us :
  verify_all key e cs = Ok ts ->
  verify_all key (from_option (fun c => Some (sha256_of c)) e (last cs)) ds = Ok us ->
  verify_all key e (cs ++ ds) = Ok (ts ++ us).
Proof.
  revert e ts. induction cs as [|c cs IH]; intros e ts; simpl.
  - intros [= <-] Hd. done.
  - destruct (verify_chunk key c e) as [t|]; [|done]. cbn [mbind result_bind].
    destruct (verify_all key (Some (sha256_of c)) cs) as [ts'|] eqn:Ev; [|done]. cbn. intros [= <-] Hd.
    erewrite IH; [done|done|]. destruct cs as [|c' cs]; [done|]. cbn [last] in Hd |- *.
    by destruct (last (c' :: cs)) eqn:El; [|by apply last_None in El].
Qed.

Lemma last_sign_all times ts t i :
  last (sign_all times (ts ++ [t]) i).1 = Some (sign_chunk (hd 0 (drop (length ts) times)) t (sign_all times ts i).2).1.
Proof.
  rewrite sign_all_app. destruct (sign_all times ts i) as [cs j]. simpl. by rewrite last_snoc.
Qed.

(** Claim C23: a recording signed with a key verifies with that key, chunk by
    chunk against the digest of the chunk before, and the check returns the
    texts that were signed. *)
Theorem signed_recording_verifies key times texts :
  Forall is_text texts ->
  verify_all key None (sign_all times texts (integrity_new key)).1 = Ok texts.
Proof. apply (verify_sign_all times texts (integrity_new key)). Qed.

(** *** Authenticity *)

Lemma u32_le_inj m n : 0 <= m <= u32_max -> 0 <= n <= u32_max -> u32_le m = u32_le n -> m = n.
Proof.
  unfold u32_max. intros Hm Hn [= H0 H1 H2 H3].
  assert (forall k, 0 <= k <= 2 ^ 32 - 1 -> k = k mod 256 + 256 * (k / 256 mod 256) + 65536 * (k / 65536 mod 256)
    + 16777216 * (k / 16777216 mod 256)) as Hd; [|rewrite (Hd m), (Hd n) by done; lia].
  intros k Hk. Z.to_euclidean_division_equations. lia.
Qed.

(** The signed bytes determine number, digest and the text of the previous
    digest. *)
Lemma sig_data_inj m n d e p q :
  0 <= m <= u32_max -> 0 <= n <= u32_max -> length d = length e ->
  sig_data m d p = sig_data n e q ->
  m = n /\ d = e /\ from_option string_bytes [] p = from_option string_bytes [] q.
Proof.
  intros Hm Hn Hl H. unfold sig_data in H. apply app_inj_1 in H as [H1 H2]; [|done].
  apply app_inj_1 in H2 as [-> H2]; [|done]. split; [by apply u32_le_inj|]. done.
Qed.

Lemma sig_data_bytes n d p :
  Forall (fun b => 0 <= b < 256) d -> Forall (fun b => 0 <= b < 256) (sig_data n d p).
Proof.
  intros Hd. unfold sig_data, u32_le. rewrite !Forall_app. split; [|split; [done|]].
  - repeat constructor; apply Z.mod_pos_bound; lia.
  - destruct p; simpl; [apply string_bytes_range | constructor].
Qed.

(** What was signed for a chunk. *)
Definition chunk_message (c : SignedRecordingChunk) : option (list Z) :=
  match b64_decode (data c) with
  | Ok bytes => Some (sig_data (chunk_num c) (sha256 bytes) (prev_hash c))
  | Err _ => None
  end.


(** the check does not look at the numbers, and the digest that chains
    the chunks covers the text of one chunk only: where two consecutive chunks
    have the same text, the second can be cut out and the rest still verifies. *)
Theorem repeated_chunk_can_be_cut key times before t after :
  Forall is_text (before ++ [t; t] ++ after) ->
  let whole := (sign_all times (before ++ [t; t] ++ after) (integrity_new key)).1 in
  let cut := take (length before + 1) whole ++ drop (length before + 2) whole in
  verify_all key None cut = Ok (before ++ [t] ++ after) /\ length whole = S (length cut).
Proof.
  assert (before ++ [t; t] ++ after = (before ++ [t]) ++ [t] ++ after) as -> by (by rewrite <- app_assoc).
  intros Hall whole cut.
  pose proof (sign_all_length times (before ++ [t]) (integrity_new key)) as Hlen. rewrite length_app in Hlen.
  pose proof (sign_all_last times before t (integrity_new key)) as Hlast.
  pose proof (last_sign_all times before t (integrity_new key)) as Hl.
  pose proof (sign_all_key times (before ++ [t]) (integrity_new key)) as Hkey.
  apply Forall_app in Hall as [Hb [Ht Ha]%Forall_app]. pose proof (verify_sign_all times _ (integrity_new key) Hb) as Hv.
  unfold cut, whole. clear cut whole. rewrite sign_all_app. destruct (sign_all times (before ++ [t]) _) as [cs j]. cbn [fst snd] in *.
  rewrite sign_all_app. set (rest := drop _ times). cbn [sign_all].
  destruct (sign_chunk (hd 0 rest) t j) as [c k] eqn:Ec.
  pose proof (verify_sign_all (drop (length [t]) rest) after k Ha) as Hr.
  destruct (sign_all (drop (length [t]) rest) after k) as [ds m]. cbn [fst snd] in *. simpl in Hlen.
  rewrite take_app_le, take_ge by lia. rewrite drop_app_ge by lia.
  replace (length before + 2 - length cs)%nat with 1%nat by lia. 
  cbn [drop app]. rewrite drop_0. split; [|rewrite !length_app; simpl; lia].
  change (t :: after) with ([t] ++ after). rewrite (app_assoc before). apply verify_all_app; [exact Hv|].
  rewrite Hl. simpl from_option. injection Ec as _ <-. rewrite Hkey in Hr. exact Hr.
Qed.
End ChainTheorems.

(** ** Writers that take every line

    [Sink]: what a writer promises to the recorder, against a system [sys].
    [I w s ls]: writer and system have taken the lines [ls]; [F s ls]: they have
    been delivered. *)

Section Sinks.
Context {D : Digests} {J : RecordingJson}.

Class Sink {W : Type} (sys : forall R : Set, RecCall R -> W -> R * W) (I : Writer -> W -> list string -> Prop)
    (F : W -> list string -> Prop) : Prop := {
  sink_takes : forall w s ls line, I w s ls ->
    exists w' s', run_prog sys (write_line w line) s = ((w', Ok tt), s') /\ I w' s' (ls ++ [line]);
  sink_clock : forall w s ls, I w s ls -> I w (sys _ InstantNow s).2 ls /\ I w (sys _ UtcNow s).2 ls;
  sink_finalize : forall w s ls, I w s ls ->
    exists w' s', run_prog sys (finalize_writer w) s = ((w', Ok tt), s') /\ F s' ls }.

(** *** The upload is one *)

Definition sends (log : list (Call RecCall)) : list Request :=
  omap (fun c : Call RecCall => match projT2 c with Send r => Some r | _ => None end) log.

(** The requests for the chunks [bs], numbered from the next number on. *)
Definition requests (c : CloudRecordingWriter) (bs : list (list string)) : list Request :=
  imap (fun k b => chunk_request c (wrap_add u32_max (chunks_sent c) (Z.of_nat (S k))) b) bs.

Section Cloud.
Context {W : Type} (sys : forall R : Set, RecCall R -> W -> R * W) (c0 : CloudRecordingWriter).

Definition chunk_lines : Z := Z.max 1 (lines_per_chunk c0).
Definition full (b : list string) : Prop := Z.of_nat (length b) = chunk_lines.

(** The writer after [bs] full chunks. *)
Definition cloud_after (bs : list (list string)) (rest : list string) : CloudRecordingWriter :=
  set_buffer rest (wrap_add u32_max (chunks_sent c0) (Z.of_nat (length bs))) c0.

Definition cloud_taking (w : Writer) (s : W * list (Call RecCall)) (ls : list string) : Prop :=
  exists bs rest, w = CloudWriter (cloud_after bs rest) /\ sends s.2 = requests c0 bs /\
    concat bs ++ rest = ls /\ Forall full bs /\ Z.of_nat (length rest) < chunk_lines.

Definition cloud_delivered (s : W * list (Call RecCall)) (ls : list string) : Prop :=
  exists bs rest, sends s.2 = requests c0 (bs ++ (match rest with [] => [] | _ => [rest] end)) ++ [finalize_request c0] /\
    concat bs ++ rest = ls /\ Forall full bs /\ Z.of_nat (length rest) < chunk_lines.

Lemma requests_snoc bs b :
  requests c0 (bs ++ [b]) =
  requests c0 bs ++ [chunk_request c0 (wrap_add u32_max (chunks_sent c0) (Z.of_nat (S (length bs)))) b].
Proof. unfold requests. rewrite imap_app. simpl. by rewrite Nat.add_0_r. Qed.

Lemma wrap_add_succ n k : wrap_add u32_max (wrap_add u32_max n k) 1 = wrap_add u32_max n (k + 1).
Proof. unfold wrap_add. rewrite Zplus_mod_idemp_l. f_equal. lia. Qed.

Lemma sends_snoc log R (c : RecCall R) :
  sends (log ++ [existT R c]) = sends log ++ match c with Send r => [r] | _ => [] end.
Proof. unfold sends. rewrite omap_app. f_equal. by destruct c. Qed.

(** One flush: the whole buffer in one request, whatever the reply. *)
Lemma run_flush bs rest s :
  rest <> [] ->
  exists w, run_prog (traced sys) (flush_buffer (cloud_after bs rest)) s =
    ((cloud_after (bs ++ [rest]) [], Ok tt),
     (w, s.2 ++ [existT _ (Send (chunk_request c0 (wrap_add u32_max (chunks_sent c0) (Z.of_nat (S (length bs)))) rest))])).
Proof.
  intros Hr. unfold flush_buffer. sm_unfold. cbn. destruct rest as [|l ls]; [done|]. cbn.
  rewrite wrap_add_succ. unfold traced at 1. replace (Z.of_nat (length bs) + 1) with (Z.of_nat (S (length bs))) by lia.
  match goal with |- context [sys ?R ?c ?w] => destruct (sys R c w) as [r w'] eqn:Hs end. cbn. exists w'.
  unfold cloud_after. rewrite length_app. simpl. by rewrite Nat.add_1_r.
Qed.

Lemma cloud_takes w s ls line :
  cloud_taking w s ls ->
  exists w' s', run_prog (traced sys) (write_line w line) s = ((w', Ok tt), s') /\ cloud_taking w' s' (ls ++ [line]).
Proof.
  intros (bs & rest & -> & Hs & <- & Hf & Hr). cbn [write_line]. unfold on. rewrite run_bind.
  unfold cloud_write_line. rewrite run_sm_bind. cbn [run_prog modify]. rewrite run_sm_bind. cbn [run_prog gets].
  change (set_buffer (push (buffer (cloud_after bs rest)) line) (chunks_sent (cloud_after bs rest)) (cloud_after bs rest))
    with (cloud_after bs (push rest line)).
  cbn [Datatypes.id]. change (lines_per_chunk (cloud_after bs (push rest line))) with (lines_per_chunk c0).
  change (buffer (cloud_after bs (push rest line))) with (push rest line).
  assert (Hlen : Z.of_nat (length (push rest line)) = Z.of_nat (length rest) + 1) by (unfold push; rewrite length_app; simpl; lia).
  destruct (Z.leb_spec (lines_per_chunk c0) (Z.of_nat (length (push rest line)))) as [Hle|Hlt].
  - destruct (run_flush bs (push rest line) s) as [w ->]; [unfold push; by destruct rest|].
    eexists _, _. split; [done|]. exists (bs ++ [push rest line]), []. cbn [snd].
    split; [done|]. rewrite sends_snoc, Hs, requests_snoc. split; [done|]. split.
    { rewrite concat_app. simpl. by rewrite !app_nil_r, <- app_assoc. }
    unfold chunk_lines in *. simpl. split; [|lia]. rewrite Forall_app, Forall_singleton. split; [done|].
    unfold full, chunk_lines. lia.
  - eexists _, _. split; [done|]. exists bs, (push rest line). repeat split; try done.
    + unfold push. by rewrite app_assoc.
    + unfold chunk_lines in *. lia.
Qed.

Lemma cloud_finalizes w s ls :
  cloud_taking w s ls ->
  exists w' s', run_prog (traced sys) (finalize_writer w) s = ((w', Ok tt), s') /\ cloud_delivered s' ls.
Proof.
  intros (bs & rest & -> & Hs & <- & Hf & Hr). unfold finalize_writer. cbn [depth finalize_within]. unfold on.
  rewrite run_bind. unfold cloud_finalize. rewrite run_sm_bind.
  assert (exists bs' w, run_prog (traced sys) (flush_buffer (cloud_after bs rest)) s = ((cloud_after bs' [], Ok tt), w) /\
    sends w.2 = requests c0 (bs ++ match rest with [] => [] | _ => [rest] end)) as (bs' & w & -> & Hw).
  { destruct (decide (rest = [])) as [->|Hne].
    - exists bs, s. rewrite app_nil_r. done.
    - destruct (run_flush bs rest s Hne) as [w ->]. eexists _, _. split; [done|]. cbn [snd].
      rewrite sends_snoc, Hs. destruct rest; [done|]. by rewrite requests_snoc. }
  sm_unfold. cbn. unfold traced.
  match goal with |- context [sys ?R ?c ?w] => destruct (sys R c w) as [r w'] eqn:Hsys end. cbn.
  eexists _, _. split; [done|]. exists bs, rest. cbn [snd]. rewrite sends_snoc, Hw. done.
Qed.

#[export] Instance cloud_sink : Sink (traced sys) cloud_taking cloud_delivered.
Proof.
  split; [exact cloud_takes | | exact cloud_finalizes].
  intros w s ls (bs & rest & -> & Hs & <- & Hf & Hr). unfold traced.
  split; match goal with |- context [sys ?R ?c ?w] => destruct (sys R c w) as [r w'] end;
    exists bs, rest; cbn [snd]; rewrite sends_snoc, app_nil_r; done.
Qed.
End Cloud.

(** *** So are signed chunks around a sink *)

Lemma wp_on {S} (wrap : S -> Writer) (m : Rec S unit) (s : S) P L (Q : Writer -> Prop) :
  (forall s, Q (wrap s)) -> wp P L (m s) (fun _ => True) -> wp P L (on wrap m s) (fun wr => Q wr.1).
Proof. intros HQ Hm. apply wp_bind. eapply wp_mono; [|exact Hm]. intros [s' r] _. apply HQ. Qed.

Lemma write_line_depth w line :
  wp (fun _ _ => True) (fun _ _ _ => True) (write_line w line) (fun wr => depth wr.1 = depth w).
Proof.
  revert line. induction w as [f|c|i pending size inner IH]; intros line; cbn [write_line].
  - by apply (wp_on FileWriter (file_write_line line) f _ _ (fun w => depth w = O)), hoare_any.
  - by apply (wp_on CloudWriter (cloud_write_line line) c _ _ (fun w => depth w = O)), hoare_any.
  - case_match; [|done]. unfold flush_chunk. destruct (push pending line) as [|l ls]; [done|]. simpl. split; [done|].
    intros now _. destruct (chunk_json _) as [json|e]; [|done]. apply wp_bind. eapply wp_mono; [|apply IH].
    intros [inner' [u|e]]; simpl; intros ->; done.
Qed.

Lemma run_write_line_depth {W} (sys : forall R : Set, RecCall R -> W -> R * W) w line s :
  depth (run_prog sys (write_line w line) s).1.1 = depth w.
Proof.
  pose proof (write_line_depth w line) as Hd.
  by apply (wp_run (fun _ _ => True) (fun _ _ _ => True) sys (fun _ => True) _ _ s) in Hd as [? _].
Qed.

Lemma sign_all_snoc times ts t now i :
  length times = length ts ->
  sign_all (times ++ [now]) (ts ++ [t]) i =
  let '(cs, j) := sign_all times ts i in let '(c, k) := sign_chunk now t j in (cs ++ [c], k).
Proof.
  revert times i. induction ts as [|u ts IH]; intros [|n times] i Hl; simplify_eq/=; [done|].
  rewrite IH by done. by destruct (sign_all times ts _).
Qed.

Section Integrity.
Context {W : Type} (sys : forall R : Set, RecCall R -> W -> R * W) {I : Writer -> W -> list string -> Prop}
  {F : W -> list string -> Prop} `{HI : !Sink sys I F}.
Context (chunk_total : forall c, exists t, chunk_json c = Ok t) (i0 : RecordingIntegrity) (size : Z).

Definition signed_lines (cs : list SignedRecordingChunk) : list string := omap (fun c => ok (chunk_json c)) cs.

(** The texts of the chunks that hold the batches [bs] of lines. *)
Definition chunk_texts (bs : list (list string)) : list string := map (join newline) bs.

Definition integrity_taking (w : Writer) (s : W) (ls : list string) : Prop :=
  exists times bs pending inner cs i, w = IntegrityWriter i pending size inner /\
    length times = length bs /\ sign_all times (chunk_texts bs) i0 = (cs, i) /\ I inner s (signed_lines cs) /\
    concat bs ++ pending = ls /\ Forall (fun b => b <> []) bs.

Definition integrity_delivered (s : W) (ls : list string) : Prop :=
  exists times bs, F s (signed_lines (sign_all times (chunk_texts bs) i0).1) /\ concat bs = ls /\
    Forall (fun b => b <> []) bs.

(** A flush hands the inner writer one signed chunk with all pending lines. *)
Lemma run_flush_chunk times bs pending inner cs i s :
  pending <> [] -> length times = length bs -> sign_all times (chunk_texts bs) i0 = (cs, i) ->
  I inner s (signed_lines cs) ->
  exists now c j inner' s', run_prog sys (flush_chunk (write_line inner) i pending size inner) s =
      ((IntegrityWriter j [] size inner', Ok tt), s') /\
    sign_all (times ++ [now]) (chunk_texts (bs ++ [pending])) i0 = (cs ++ [c], j) /\
    I inner' s' (signed_lines (cs ++ [c])) /\ depth inner' = depth inner.
Proof.
  intros Hp Hlen Hs Hi. unfold flush_chunk. destruct pending as [|l ls]; [done|]. cbn [run_prog].
  apply sink_clock in Hi as [_ Hi]. destruct (sys _ UtcNow s) as [now s1]. cbn [snd] in Hi.
  pose proof (sign_all_snoc times (chunk_texts bs) (join newline (l :: ls)) now i0) as Hsnoc.
  rewrite Hs in Hsnoc. destruct (sign_chunk now (join newline (l :: ls)) i) as [c j] eqn:Ec.
  destruct (chunk_total c) as [t Ht]. rewrite Ht, run_bind.
  pose proof (run_write_line_depth sys inner t s1) as Hd.
  destruct (sink_takes inner s1 (signed_lines cs) t Hi) as (inner' & s' & Hrun & Hi'). rewrite Hrun in Hd |- *.
  exists now, c, j, inner', s'. cbn. split; [done|]. split; [|split].
  - unfold chunk_texts in *. rewrite map_app. apply Hsnoc. by rewrite length_map.
  - unfold signed_lines in *. rewrite omap_app. simpl. by rewrite Ht.
  - done.
Qed.

Lemma integrity_finalizes w s ls :
  integrity_taking w s ls ->
  exists w' s', run_prog sys (finalize_writer w) s = ((w', Ok tt), s') /\ integrity_delivered s' ls.
Proof.
  intros (times & bs & pending & inner & cs & i & -> & Hlen & Hs & Hi & <- & Hne).
  unfold finalize_writer. cbn [depth finalize_within]. rewrite run_bind.
  assert (exists times bs' j inner' s', run_prog sys (flush_chunk (write_line inner) i pending size inner) s =
      ((IntegrityWriter j [] size inner', Ok tt), s') /\ I inner' s' (signed_lines (sign_all times (chunk_texts bs') i0).1) /\
      concat bs' = concat bs ++ pending /\ Forall (fun b => b <> []) bs' /\ depth inner' = depth inner)
    as (times' & bs' & j & inner' & s' & -> & Hi' & Hbs & Hne' & Hd).
  { destruct (decide (pending = [])) as [->|Hp].
    - exists times, bs, i, inner, s. by rewrite Hs, app_nil_r.
    - destruct (run_flush_chunk times bs pending inner cs i s Hp Hlen Hs Hi) as (now & c & j & inner' & s' & -> & Hs' & Hi' & Hd).
      exists (times ++ [now]), (bs ++ [pending]), j, inner', s'. rewrite Hs'. split; [done|]. split; [done|].
      rewrite concat_app, Forall_app, Forall_singleton. simpl. by rewrite app_nil_r. }
  rewrite run_bind, <- Hd. fold (finalize_writer inner').
  destruct (sink_finalize inner' s' _ Hi') as (w' & s'' & -> & Hf). eexists _, _. split; [done|].
  by exists times', bs'.
Qed.

#[export] Instance integrity_sink : Sink sys integrity_taking integrity_delivered.
Proof.
  split; [| |exact integrity_finalizes].
  - intros w s ls line (times & bs & pending & inner & cs & i & -> & Hlen & Hs & Hi & <- & Hne). cbn [write_line].
    case_match.
    + destruct (run_flush_chunk times bs (push pending line) inner cs i s) as (now & c & j & inner' & s' & -> & Hs' & Hi' & _);
        [unfold push; by destruct pending|done..|].
      eexists _, _. split; [done|]. exists (times ++ [now]), (bs ++ [push pending line]), [], inner', (cs ++ [c]), j.
      rewrite !length_app, concat_app, Forall_app, Forall_singleton. simpl. rewrite !app_nil_r, Hlen, <- app_assoc.
      repeat split; try done. unfold push. by destruct pending.
    + eexists _, _. split; [done|]. exists times, bs, (push pending line), inner, cs, i. unfold push. by rewrite app_assoc.
  - intros w s ls (times & bs & pending & inner & cs & i & -> & Hlen & Hs & Hi & <- & Hne).
    apply sink_clock in Hi as [H1 H2]. by split; exists times, bs, pending, inner, cs, i.
Qed.
End Integrity.

(** ** A recording reaches its writer complete *)

(** What the handler passes on during a session. *)
Inductive Event : Set := Output (bytes : list Z) | Input (bytes : list Z) | Resize (w h : Z).

Definition record (e : Event) : Rec SessionRecorder unit :=
  match e with
  | Output bytes => record_output bytes
  | Input bytes => record_input bytes
  | Resize w h => record_resize w h
  end.

Fixpoint record_all (es : list Event) : Rec SessionRecorder unit :=
  match es with
  | [] => mret tt
  | e :: es => _ ← record e; record_all es
  end.

Definition record_session_with (h : CastHeader) (es : list Event) : Rec SessionRecorder unit :=
  _ ← write_header h;
  _ ← record_all es;
  finalize.

(** The entry an event is to become. *)
Definition event_kind (e : Event) : string := match e with Output _ => "o" | Input _ => "i" | Resize _ _ => "r" end.
Definition event_text (e : Event) : string :=
  match e with
  | Output bytes | Input bytes => bytes_string (from_utf8_lossy bytes)
  | Resize w h => show_uint w +:+ "x" +:+ show_uint h
  end.
Definition entry_for (e : Event) (entry : CastEntry) : Prop :=
  e_kind entry = event_kind e /\ e_data entry = event_text e.

Section Complete.
Context {W : Type} (sys : forall R : Set, RecCall R -> W -> R * W) {I : Writer -> W -> list string -> Prop}
  {F : W -> list string -> Prop} `{HI : !Sink sys I F}.
Context (entry_total : forall e, exists t, entry_json e = Ok t).

Definition entry_lines (entries : list CastEntry) : list string := omap (fun e => ok (entry_json e)) entries.

Lemma run_single (f : Writer -> Outcome) r w s w' s' x :
  writers r = [w] -> run_prog sys (f w) s = ((w', Ok x), s') ->
  run_prog sys (all_writers f r) s = ((set_writers [w'] r, Ok tt), s').
Proof. intros Hw Hr. unfold all_writers. rewrite Hw. cbn. by rewrite !run_bind, Hr. Qed.

(** One entry: a line more for the writer, the rest of the recorder as it was. *)
Lemma run_write_entry r w s ls kind text :
  writers r = [w] -> I w s ls ->
  exists entry w' s', run_prog sys (write_entry kind text r) s = ((set_writers [w'] r, Ok tt), s') /\
    e_kind entry = kind /\ e_data entry = text /\ I w' s' (ls ++ entry_lines [entry]).
Proof.
  intros Hw Hi. unfold write_entry. rewrite run_sm_bind. cbn [run_prog gets]. rewrite run_sm_bind. cbn [run_prog call].
  apply sink_clock in Hi as [Hi _]. destruct (sys _ InstantNow s) as [now s1]. cbn [snd] in Hi. rewrite run_sm_bind.
  set (entry := {| e_time := _; e_kind := kind; e_data := text |}). destruct (entry_total entry) as [t Ht]. rewrite Ht.
  cbn [run_prog lift mret SM_ret]. destruct (sink_takes w s1 ls t Hi) as (w' & s' & Hr & Hi').
  rewrite (run_single _ r w s1 w' s' tt Hw Hr). exists entry, w', s'. cbn. by rewrite Ht.
Qed.

Lemma run_record e r w s ls :
  header_written r = true -> writers r = [w] -> I w s ls ->
  exists entry r' w' s', run_prog sys (record e r) s = ((r', Ok tt), s') /\ entry_for e entry /\
    header_written r' = true /\ writers r' = [w'] /\ I w' s' (ls ++ entry_lines [entry]).
Proof.
  intros Hh Hw Hi.
  assert (forall n kind text r, header_written r = true -> writers r = [w] ->
    exists entry r' w' s', run_prog sys ((_ ← write_entry kind text; modify (counted n)) r) s = ((r', Ok tt), s') /\
      (e_kind entry = kind /\ e_data entry = text) /\
      header_written r' = true /\ writers r' = [w'] /\ I w' s' (ls ++ entry_lines [entry])) as Hone.
  { intros n kind text r0 Hh0 Hw0. destruct (run_write_entry r0 w s ls kind text Hw0 Hi) as (entry & w' & s' & Hr & Hk & Hd & Hi').
    rewrite run_sm_bind, Hr. exists entry, (counted n (set_writers [w'] r0)), w', s'. done. }
  assert (forall (m : Rec SessionRecorder unit), run_prog sys ((_ ← require_header; m) r) s = run_prog sys (m r) s) as Hgate.
  { intros m. rewrite run_sm_bind. unfold require_header. sm_unfold. cbn. by rewrite Hh. }
  destruct e as [bytes|bytes|wd ht]; cbn [record record_output record_input record_resize];
    unfold record_output, record_input, record_resize; rewrite Hgate; [apply (Hone _ "o"); done|apply (Hone _ "i"); done|].
  rewrite run_sm_bind. cbn [run_prog modify]. apply (Hone _ "r"); done.
Qed.

Lemma run_record_all es : forall r w s ls,
  header_written r = true -> writers r = [w] -> I w s ls ->
  exists entries r' w' s', run_prog sys (record_all es r) s = ((r', Ok tt), s') /\ Forall2 entry_for es entries /\
    writers r' = [w'] /\ I w' s' (ls ++ entry_lines entries).
Proof.
  induction es as [|e es IH]; intros r w s ls Hh Hw Hi.
  - exists [], r, w, s. cbn. by rewrite app_nil_r.
  - destruct (run_record e r w s ls Hh Hw Hi) as (entry & r1 & w1 & s1 & Hr & He & Hh1 & Hw1 & Hi1).
    destruct (IH r1 w1 s1 _ Hh1 Hw1 Hi1) as (entries & r' & w' & s' & Hr' & Hes & Hw' & Hi').
    exists (entry :: entries), r', w', s'. cbn [record_all]. rewrite run_sm_bind, Hr. repeat split; try done.
    + by constructor.
    + unfold entry_lines in *. by rewrite (omap_app _ [entry] entries), app_assoc.
Qed.

(** Claim C19: whatever the session does, its writer gets the header and then one
    entry per event, in order, each with the kind and the text of its event,
    and finalizing delivers them all; no operation fails.  This holds for every
    writer that takes every line, so for uploads and for signed chunks around
    one. *)
Theorem recording_delivered h hj es r w s :
  header_json h = Ok hj -> writers r = [w] -> I w s [] ->
  exists entries r' s', run_prog sys (record_session_with h es r) s = ((r', Ok tt), s') /\
    Forall2 entry_for es entries /\ F s' (hj :: entry_lines entries).
Proof.
  intros Hj Hw Hi. unfold record_session_with, write_header. rewrite !run_sm_bind, Hj. cbn [run_prog lift mret SM_ret].
  rewrite run_sm_bind. destruct (sink_takes w s [] hj Hi) as (w1 & s1 & Hr1 & Hi1).
  rewrite (run_single (fun w => write_line w hj) r w s w1 s1 tt Hw Hr1). cbn [run_prog modify]. rewrite run_sm_bind.
  destruct (run_record_all es (mark_header_written (set_writers [w1] r)) w1 s1 [hj]) as
    (entries & r2 & w2 & s2 & -> & Hes & Hw2 & Hi2); [done..|].
  unfold finalize. rewrite run_sm_bind. cbn [run_prog call]. apply sink_clock in Hi2 as [Hi2 _].
  destruct (sys _ InstantNow s2) as [now s3]. cbn [snd] in Hi2.
  destruct (sink_finalize w2 s3 _ Hi2) as (w3 & s4 & Hr3 & Hf).
  rewrite (run_single finalize_writer r2 w2 s3 w3 s4 tt Hw2 Hr3). by eexists entries, _, _.
Qed.
End Complete.
End Sinks.

(** ** What is not recorded, and where recordings go *)

Section Gaps.
Context {D : Digests} {J : RecordingJson} (answer : forall R : Set, RecCall R -> R).

(** The recorder the handler makes for a session. *)
Definition made_recorder (s : Session) (session_type : string) : option (SessionRecorder * CastHeader) :=
  match returns answer (handler_recorder s session_type) tt with Ok o => o | Err _ => None end.

Lemma add_clouds_fields id urls r :
  header_written (add_clouds id urls r) = header_written r /\
  writers (add_clouds id urls r) = writers r ++ map (fun u => CloudWriter (cloud_new u id)) urls.
Proof.
  unfold add_clouds. revert r. induction urls as [|u urls IH]; intros r; simpl; [by rewrite app_nil_r|].
  destruct (IH (add_writer (CloudWriter (cloud_new u id)) r)) as [-> ->]. split; [done|].
  simpl. unfold push. by rewrite <- app_assoc.
Qed.

(** The file is made, or the recording goes on without it. *)
Lemma run_file_new {S} (s : S) p log :
  exists r log', run_prog (logged answer) (file_new p s) log = ((s, r), log') /\
    ((exists parent, path_parent p = Some parent /\ is_ok (answer _ (CreateDirAll parent)) = false) \/
     existT _ (CreateFile p) ∈ log').
Proof.
  unfold file_new. sm_unfold. destruct (path_parent p) as [parent|]; cbn.
  - destruct (answer _ (CreateDirAll parent)) as [[]|e] eqn:Ed; cbn.
    + destruct (answer _ (CreateFile p)); cbn; eexists _, _; (split; [done|]); right; set_solver.
    + eexists _, _. split; [done|]. left. exists parent. by rewrite Ed.
  - destruct (answer _ (CreateFile p)); cbn; eexists _, _; (split; [done|]); right; set_solver.
Qed.

(** The addresses a session uploads to. *)
Definition upload_urls (s : Session) : list string :=
  match cloud_url (s_config s) with Some u => [u] | None => [] end ++ from_option recorders [] (s_action s).
Definition recording_id (s : Session) (session_type : string) : string := s_conn_id s +:+ "_" +:+ session_type.

Lemma run_new_recorder {S} (s : S) id w h log :
  exists r log', run_prog (logged answer) (new_recorder id w h s) log = ((s, Ok r), log') /\
    writers r = [] /\ header_written r = false.
Proof. unfold new_recorder. sm_unfold. cbn. by eexists _, _. Qed.

Lemma run_handler_recorder s session_type :
  should_record s = true ->
  exists r h files log, run_prog (logged answer) (handler_recorder s session_type tt) [] = ((tt, Ok (Some (r, h))), log) /\
    header_written r = false /\
    writers r = files ++ map (fun u => CloudWriter (cloud_new u (recording_id s session_type))) (upload_urls s) /\
    (local_dir (s_config s) = None -> files = []) /\
    (forall dir, local_dir (s_config s) = Some dir ->
      let p := recording_path dir (recording_id s session_type) in
      (exists parent, path_parent p = Some parent /\ is_ok (answer _ (CreateDirAll parent)) = false) \/
      existT _ (CreateFile p) ∈ log).
Proof.
  intros Hs. unfold handler_recorder. rewrite Hs. cbn [negb]. destruct (from_option _ _ _) as [w h]. cbv zeta.
  fold (recording_id s session_type). set (id := recording_id s session_type).
  destruct (run_new_recorder tt id w h []) as (r0 & log0 & Hr0 & Hw0 & Hh0). rewrite (run_bind_ok _ _ _ _ _ _ _ _ Hr0).
  assert (forall files r log, writers r = files -> header_written r = false ->
    exists r' h', run_prog (logged answer) ((mret (Some (add_clouds id (from_option recorders [] (s_action s))
      (match cloud_url (s_config s) with Some u => add_writer (CloudWriter (cloud_new u id)) r | None => r end),
      session_header s session_type (add_clouds id (from_option recorders [] (s_action s))
      (match cloud_url (s_config s) with Some u => add_writer (CloudWriter (cloud_new u id)) r | None => r end))))
      : Rec unit _) tt) log = ((tt, Ok (Some (r', h'))), log) /\
    header_written r' = false /\ writers r' = files ++ map (fun u => CloudWriter (cloud_new u id)) (upload_urls s)) as Hfin.
  { intros files r log <- Hh. eexists _, _. split; [reflexivity|].
    match goal with |- context [add_clouds id ?u ?x] => destruct (add_clouds_fields id u x) as [-> ->] end.
    unfold upload_urls. rewrite map_app. by destruct (cloud_url (s_config s)); simpl; unfold push; rewrite <- ?app_assoc. }
  destruct (local_dir (s_config s)) as [dir|].
  - destruct (run_file_new tt (recording_path dir id) log0) as (f & log1 & Hf & Hcase).
    rewrite run_sm_bind. rewrite run_sm_bind. unfold attempt. rewrite run_bind, Hf. cbn [run_prog mret SM_ret].
    destruct f as [f|e].
    + destruct (Hfin [FileWriter f] (add_writer (FileWriter f) r0) log1) as (r & h' & Hr & Hh & Hw); [|done|].
      { unfold add_writer, push. simpl. by rewrite Hw0. }
      exists r, h', [FileWriter f], log1. repeat split; try done. by intros _ [= <-].
    + destruct (Hfin [] r0 log1 Hw0 Hh0) as (r & h' & Hr & Hh & Hw).
      exists r, h', [], log1. repeat split; try done. by intros _ [= <-].
  - rewrite run_sm_bind. cbn [run_prog mret SM_ret].
    destruct (Hfin [] r0 log0 Hw0 Hh0) as (r & h' & Hr & Hh & Hw). by exists r, h', [], log0.
Qed.

(** Before the header an event changes nothing and asks nothing. *)
Lemma record_too_early r e log :
  header_written r = false ->
  run_prog (logged answer) (record e r) log = ((r, Err "Header not written"), log).
Proof.
  intros Hh. assert (forall (m : Rec SessionRecorder unit), run_prog (logged answer) ((_ ← require_header; m) r) log =
    ((r, Err "Header not written"), log)) as Hgate; [|destruct e; apply Hgate].
  intros m. rewrite run_sm_bind. unfold require_header. sm_unfold. cbn. by rewrite Hh.
Qed.

(** the handler gives the recorder of a session to the task that copies
    the output while the header is still to be written by another task: what
    the session says before is refused by the recorder and recorded nowhere. *)
Theorem early_output_lost s session_type e :
  should_record s = true ->
  exists r h, made_recorder s session_type = Some (r, h) /\
    forall log, run_prog (logged answer) (record e r) log = ((r, Err "Header not written"), log).
Proof.
  intros Hs. destruct (run_handler_recorder s session_type Hs) as (r & h & files & log & Hr & Hh & _).
  exists r, h. unfold made_recorder, returns. rewrite Hr. split; [done|]. intros log'. by apply record_too_early.
Qed.

(** where the policy demands recording but neither directory nor upload
    address is configured, the session gets a recorder without writers: the
    session goes on and nothing of it is recorded. *)
Theorem demanded_recording_void s session_type :
  from_option record_session false (s_action s) = true ->
  local_dir (s_config s) = None -> upload_urls s = [] ->
  exists r h, made_recorder s session_type = Some (r, h) /\ writers r = [] /\
    forall f log, run_prog (logged answer) (all_writers f r) log = ((r, Ok tt), log).
Proof.
  intros Hs Hd Hu. destruct (run_handler_recorder s session_type) as (r & h & files & log & Hr & Hh & Hw & Hf & _).
  { unfold should_record. by rewrite Hs. }
  rewrite Hu, Hf, app_nil_r in Hw by done. exists r, h. unfold made_recorder, returns. rewrite Hr.
  split; [done|]. split; [done|]. intros f log'. unfold all_writers. rewrite Hw. cbn. by destruct r; cbn in *; subst.
Qed.
(** The name of a recording holds the first characters of the command,
    slashes and double dots included: by the text of an exec request a client
    chooses a file outside the directory of the recordings, which the server
    then creates or truncates. *)
Theorem recording_path_escapes s dir name :
  should_record s = true -> local_dir (s_config s) = Some dir -> is_absolute dir = true ->
  no_char "/" (s_conn_id s) -> no_char "/" name -> (String.length name <= 42)%nat ->
  (forall p, answer _ (CreateDirAll p) = Ok tt) ->
  exists p, existT _ (CreateFile p) ∈ calls answer (handler_recorder s (exec_session_type ("x/../../" +:+ name))) tt /\
    components p = components dir ++
      [Normal (s_conn_id s +:+ "_exec:x"); ParentDir; ParentDir; Normal (name +:+ ".cast")].
Proof.
  intros Hs Hdir Habs Hconn Hname Hlen Hmk. set (t := exec_session_type _).
  destruct (run_handler_recorder s t Hs) as (r & h & files & log & Hr & _ & _ & _ & Hp).
  exists (recording_path dir (recording_id s t)). unfold calls. rewrite Hr. split.
  { destruct (Hp dir Hdir) as [(parent & _ & Hno)|Hin]; [|done]. by rewrite Hmk in Hno. }
  assert (Hid : recording_id s t +:+ ".cast" =
    (s_conn_id s +:+ "_exec:x") +:+ String "/" (".." +:+ String "/" (".." +:+ String "/" (name +:+ ".cast")))).
  { unfold recording_id, t, exec_session_type. rewrite take_chars_short by (rewrite length_append; simpl; lia).
    rewrite !append_assoc. done. }
  unfold recording_path. rewrite Hid. rewrite components_join; [|done|].
  - assert (no_char "/" (s_conn_id s +:+ "_exec:x")) by (by apply no_char_app).
    assert (no_char "/" (name +:+ ".cast")) by (by apply no_char_app).
    rewrite !split_app, split_no_char by done. cbn [omap list_omap].
    assert (forall u v, (5 <= String.length v)%nat -> piece_component (u +:+ v) = Some (Normal (u +:+ v))) as Hpiece.
    { intros u v Hv. unfold piece_component, trivial_piece.
      rewrite !bool_decide_false; [done|..]; intros E; apply (f_equal String.length) in E;
        rewrite length_append in E; simpl in E; lia. }
    rewrite !Hpiece by (simpl; lia). done.
  - apply no_char_app with (t := "_exec:x") in Hconn; [|done]. unfold is_absolute.
    destruct (starts_with _ "/") eqn:E; [|done]. apply starts_with_spec in E as [u Hu].
    destruct (s_conn_id s) as [|a c]; [done|]. rewrite !append_cons in Hu. injection Hu as -> _.
    by apply no_char_cons in Hconn as [? _].
Qed.
(** An error of the first writer ends the entry: the others do not get it, and
    it is not counted. *)
Lemma failed_writer_starves_rest r e f fd rest x log :
  header_written r = true -> writers r = FileWriter f :: rest -> file f = Some fd ->
  (forall line, answer _ (WriteAll fd line) = Err x) -> (forall entry, is_ok (entry_json entry) = true) ->
  exists log' r', run_prog (logged answer) (record e r) log = ((r', Err x), log') /\
    writers r' = writers r /\ entry_count r' = entry_count r.
Proof.
  intros Hh Hw Hf Hx Hj.
  assert (forall kind text n r, header_written r = true -> writers r = FileWriter f :: rest ->
    exists log' r', run_prog (logged answer) ((_ ← write_entry kind text; modify (counted n)) r) log = ((r', Err x), log') /\
      writers r' = FileWriter f :: rest /\ entry_count r' = entry_count r) as Hone.
  { intros kind text n r0 Hh0 Hw0. rewrite run_sm_bind. unfold write_entry. rewrite run_sm_bind. cbn [run_prog gets].
    rewrite run_sm_bind. cbn [run_prog call logged]. rewrite run_sm_bind.
    match goal with |- context [entry_json ?y] => specialize (Hj y); destruct (entry_json y) as [t|] eqn:Ej; [|done] end.
    cbn [run_prog lift mret SM_ret]. unfold all_writers. rewrite Hw0. cbn [each_writer write_line]. unfold on, file_write_line.
    sm_unfold. cbn. rewrite Hf. cbn. rewrite Hx. cbn. by eexists _, _. }
  assert (forall (m : Rec SessionRecorder unit), run_prog (logged answer) ((_ ← require_header; m) r) log = run_prog (logged answer) (m r) log) as Hgate.
  { intros m. rewrite run_sm_bind. unfold require_header. sm_unfold. cbn. by rewrite Hh. }
  rewrite Hw. destruct e as [bytes|bytes|wd ht]; cbn [record]; unfold record_output, record_input, record_resize;
    rewrite Hgate; try by apply Hone.
  rewrite run_sm_bind. cbn [run_prog modify]. by apply (Hone _ _ _ (set_size wd ht r)).
Qed.
End Gaps.

(** ** Witnesses *)

#[export] Instance demo_json : RecordingJson := {|
  header_json h := Ok "header";
  entry_json e := Ok (e_kind e +:+ ":" +:+ e_data e);
  chunk_json c := Ok (data c) |}.

Definition demo_texts : list string := ["ls"; "ls"; "exit"].
Definition demo_chunks : list SignedRecordingChunk := (sign_all [1; 2; 3] demo_texts (integrity_new [7])).1.

Lemma signed_recording_verifies_witness :
  Forall is_text demo_texts /\ verify_all [7] None demo_chunks = Ok demo_texts.
Proof.
  split; [by repeat constructor|]. apply (signed_recording_verifies [7] [1; 2; 3] demo_texts). by repeat constructor.
Defined.

Lemma repeated_chunk_can_be_cut_witness :
  verify_all [7] None (take 1 demo_chunks ++ drop 2 demo_chunks) = Ok ["ls"; "exit"].
Proof. apply (repeated_chunk_can_be_cut [7] [1; 2; 3] [] "ls" ["exit"]). by repeat constructor. Defined.

(** The only message with the tag of the first chunk is its own. *)
Lemma demo_unforgeable msg :
  Forall (fun b => 0 <= b < 256) msg ->
  b64_decode (signature (hd (sign_chunk 0 "" (integrity_new [])).1 demo_chunks)) = Ok (hmac_sha256 [7] msg) ->
  Some msg ∈ map chunk_message demo_chunks.
Proof.
  intros Hm H. assert (msg = sig_data 0 (sha256 (string_bytes "ls")) None) as ->.
  { cbn [b64_decode hmac_sha256 demo_digests] in H. rewrite map_app, (mod_bytes_id msg Hm) in H.
    vm_compute in H. injection H as <-. by vm_compute. }
  left.
Qed.


(** A system where everything succeeds, and the clock ticks. *)
Definition demo_sys (R : Set) (c : RecCall R) (t : Z) : R * Z :=
  (match c in RecCall R return R with
   | InstantNow | UtcNow => t
   | CreateDirAll _ => Ok tt
   | CreateFile _ => Ok 3
   | WriteAll _ _ | Flush _ | SyncAll _ => Ok tt
   | Send _ => Err "offline"
   end, t + 1).

Definition demo_cloud : CloudRecordingWriter := with_chunk_size 2 (cloud_new "https://x" "s1").
Definition demo_recorder : SessionRecorder :=
  add_writer (integrity_writer_new (CloudWriter demo_cloud) [7] 2) (recorder_new "s1" 80 24 0 0).
Definition demo_events : list Event := [Output (string_bytes "$ "); Input (string_bytes "ls"); Resize 100 30].

Lemma demo_json_total : (forall e, exists t, entry_json e = Ok t) /\ (forall c, exists t, chunk_json c = Ok t).
Proof. split; intros x; by eexists. Qed.

Lemma recording_delivered_witness :
  exists entries r s, run_prog (traced demo_sys) (record_session_with (create_header demo_recorder) demo_events demo_recorder)
      (0, []) = ((r, Ok tt), s) /\ Forall2 entry_for demo_events entries /\
    integrity_delivered (F := cloud_delivered demo_cloud) (integrity_new [7]) s ("header" :: entry_lines entries).
Proof.
  eapply (recording_delivered (traced demo_sys) (HI := integrity_sink (traced demo_sys) (proj2 demo_json_total)
    (integrity_new [7]) 2 (HI := cloud_sink demo_sys demo_cloud)) (proj1 demo_json_total)).
  - reflexivity.
  - reflexivity.
  - exists [], [], [], (CloudWriter demo_cloud), [], (integrity_new [7]). repeat split; [|constructor].
    exists [], []. repeat split. constructor.
Defined.

Definition demo_session (dir : option string) : Session := {|
  s_action := Some {| accept := true; reject := false; message := None; allow_agent_forwarding := false;
    allow_local_port_forwarding := false; allow_remote_port_forwarding := false; allow_sftp := true;
    session_duration := None; record_session := true; recorders := []; on_recording_failure := None;
    hold_and_delegate := None; allowed_commands := None; blocked_commands := None; allowed_paths := None;
    read_only := false; time_restrictions := None |};
  s_config := {| enabled := false; local_dir := dir; cloud_url := None; chunk_size := default_chunk_size |};
  s_conn_id := "c1"; s_terminal := None; s_ssh_user := Some "root"; s_local_user := Some "root" |}.

Definition demo_answer (R : Set) (c : RecCall R) : R := (demo_sys R c 0).1.

Lemma early_output_lost_witness :
  exists r h, made_recorder demo_answer (demo_session (Some "/var/rec")) "shell" = Some (r, h) /\
    run_prog (logged demo_answer) (record (Output [36]) r) [] = ((r, Err "Header not written"), []).
Proof.
  destruct (early_output_lost demo_answer (demo_session (Some "/var/rec")) "shell" (Output [36]) eq_refl) as (r & h & Hm & Hr).
  by exists r, h.
Defined.

Lemma demanded_recording_void_witness :
  exists r h, made_recorder demo_answer (demo_session None) "shell" = Some (r, h) /\ writers r = [].
Proof.
  destruct (demanded_recording_void demo_answer (demo_session None) "shell") as (r & h & Hm & Hw & _); [reflexivity..|].
  by exists r, h.
Defined.

Lemma recording_path_escapes_witness :
  exists p, existT _ (CreateFile p) ∈ calls demo_answer
      (handler_recorder (demo_session (Some "/var/rec")) (exec_session_type "x/../../motd")) tt /\
    components p = [RootDir; Normal "var"; Normal "rec"; Normal "c1_exec:x"; ParentDir; ParentDir; Normal "motd.cast"].
Proof.
  apply (recording_path_escapes demo_answer (demo_session (Some "/var/rec")) "/var/rec" "motd");
    [reflexivity..|vm_compute; lia|reflexivity].
Defined.
