(* ===== verification/SshClient.v ===== *)
(** * The SSH client (omni-ssh/src/client/mod.rs)

    The store of known hosts with its file, the check of a server's key in
    every mode, how a connection is made, and how the output of a command is
    collected. *)

From Stdlib Require Import Ascii.
From S2P Require Import Prelude RustStr Net Paths Effects Digests.

Open Scope string_scope.
Open Scope list_scope.
Open Scope Z_scope.

(** ** Targets *)

Record SshTarget : Set := { user : string; host : string; port : Z }.

Definition SshTarget_new (host user : string) : SshTarget := {| user := user; host := host; port := 22 |}.
Definition with_port (p : Z) (t : SshTarget) : SshTarget := {| user := user t; host := host t; port := p |}.

Definition SshTarget_parse (s : string) : result string SshTarget :=
  match find_char "@" s with
  | None => Err ("Missing user in target: " +:+ s)
  | Some pos =>
      let rest := drop_str (S pos) s in
      match find_char ":" rest with
      | Some colon =>
          p ← ok_or "invalid port" (parse_uint u16_max (drop_str (S colon) rest));
          mret {| user := take_str pos s; host := take_str colon rest; port := p |}
      | None => mret {| user := take_str pos s; host := rest; port := 22 |}
      end
  end.

(** ** Known hosts *)

Inductive HostKeyVerification : Set := Tofu | Strict | AcceptNew | Insecure.

Record HostKeyConfig : Set := { mode : HostKeyVerification; cfg_known_hosts_path : option string }.
Definition HostKeyConfig_default : HostKeyConfig := {| mode := Tofu; cfg_known_hosts_path := None |}.
Definition insecure : HostKeyConfig := {| mode := Insecure; cfg_known_hosts_path := None |}.
Definition strict : HostKeyConfig := {| mode := Strict; cfg_known_hosts_path := None |}.

(** The keys of the russh-keys crate. *)
Class PublicKeys := {
  PublicKey : Set;
  fingerprint : PublicKey -> string;
  key_name : PublicKey -> string;
  public_key_base64 : PublicKey -> string }.

Record KnownHostEntry : Set := { key_type : string; entry_fingerprint : string; entry_base64 : string }.

Record KnownHostsStore : Set := { path : string; hosts : gmap string KnownHostEntry }.

Inductive HostKeyCheckResult : Set :=
| Match
| Mismatch (expected actual : string)
| NotFound.

Definition Fd : Set := Z.

(** What the messages of a channel are. *)
Inductive ChannelMsg : Set :=
| Data (bytes : list Z)
| ExtendedData (bytes : list Z) (ext : Z)
| ExitStatus (status : Z)
| ExitSignal (name : string)
| Eof
| Close
| OtherMsg.

Section Client.
Context {D : Digests} {K : PublicKeys}.

(** Disk, names, sockets and the protocol.  [ServerKey] is the part of the
    handshake up to the server's key, [FinishHandshake] the rest; a walk over
    the store gives its entries in some order. *)
Inductive ClientCall : Set -> Set :=
| PathExists (p : string) : ClientCall bool
| ReadLines (p : string) : ClientCall (result string (list (result string string)))
| CreateDirAll (p : string) : ClientCall (result string unit)
| OpenAppend (p : string) : ClientCall (result string Fd)
| CreateFile (p : string) : ClientCall (result string Fd)
| WriteLine (fd : Fd) (line : string) : ClientCall (result string unit)
| WalkHosts (m : gmap string KnownHostEntry) : ClientCall (list (string * KnownHostEntry))
| ResolvePeerName (name : string) : ClientCall (result string (option IpAddr))
| LookupHost (hostport : string) : ClientCall (result string (list SocketAddr))
| TcpConnect (addr : SocketAddr) : ClientCall (result string unit)
| ServerKey : ClientCall (result string PublicKey)
| FinishHandshake : ClientCall (result string unit)
| AuthenticateNone (user : string) : ClientCall (result string bool)
| OpenSession : ClientCall (result string unit)
| ExecCommand (command : string) : ClientCall (result string unit)
| ChannelWait : ClientCall (option ChannelMsg).

Abbreviation CM S := (SM ClientCall S string) (only parsing).

(** A call whose error is returned. *)
Definition try_call {S} {A : Set} (c : ClientCall (result string A)) : CM S A := r ← call c; lift r.

Definition set_hosts (m : gmap string KnownHostEntry) (s : KnownHostsStore) : KnownHostsStore :=
  {| path := path s; hosts := m |}.

(** The fingerprint [load] computes from the text of a key. *)
Definition loaded_fingerprint (base64 : string) : option string :=
  bytes ← ok (b64_decode base64); mret ("SHA256:" +:+ b64_encode (sha256 bytes)).

(** One line of the file: the host and its entry, if it has one. *)
Definition load_line (line : string) : option (string * KnownHostEntry) :=
  let line := trim line in
  if bool_decide (line = "") || starts_with line "#" then None
  else
    match split_whitespace line with
    | h :: kt :: b64 :: _ =>
        fp ← loaded_fingerprint b64;
        mret (h, {| key_type := kt; entry_fingerprint := fp; entry_base64 := b64 |})
    | _ => None
    end.

(** The loop of [load]: a later line replaces an earlier one. *)
Fixpoint load_lines (lines : list (result string string)) : CM KnownHostsStore unit :=
  match lines with
  | [] => mret tt
  | l :: lines =>
      line ← lift l;
      _ ← modify (fun s => match load_line line with
                           | Some (h, e) => set_hosts (<[h := e]> (hosts s)) s
                           | None => s
                           end);
      load_lines lines
  end.

Definition load : CM KnownHostsStore unit :=
  p ← gets path;
  lines ← try_call (ReadLines p);
  load_lines lines.

(** [KnownHostsStore::new]; the state before is replaced. *)
Definition new (p : string) : CM KnownHostsStore unit :=
  _ ← modify (fun _ => {| path := p; hosts := ∅ |});
  exists_ ← call (PathExists p);
  if (exists_ : bool) then load else mret tt.

Definition host_key (host : string) (port : Z) : string :=
  if port =? 22 then host else "[" +:+ host +:+ "]:" +:+ show_uint port.

Definition check (s : KnownHostsStore) (host : string) (port : Z) (key : PublicKey) : HostKeyCheckResult :=
  match hosts s !! host_key host port with
  | Some e => if bool_decide (entry_fingerprint e = fingerprint key) then Match
              else Mismatch (entry_fingerprint e) (fingerprint key)
  | None => NotFound
  end.

Definition entry_line (host kt b64 : string) : string := host +:+ " " +:+ kt +:+ " " +:+ b64.

Definition make_parent {S} (p : string) : CM S unit :=
  match path_parent p with Some parent => try_call (CreateDirAll parent) | None => mret tt end.

Definition save_entry (host kt b64 : string) : CM KnownHostsStore unit :=
  p ← gets path;
  _ ← make_parent p;
  fd ← try_call (OpenAppend p);
  try_call (WriteLine fd (entry_line host kt b64)).

Definition key_entry (key : PublicKey) : KnownHostEntry :=
  {| key_type := key_name key; entry_fingerprint := fingerprint key; entry_base64 := public_key_base64 key |}.

Definition add (host : string) (port : Z) (key : PublicKey) : CM KnownHostsStore unit :=
  let h := host_key host port in
  _ ← modify (fun s => set_hosts (<[h := key_entry key]> (hosts s)) s);
  save_entry h (key_name key) (public_key_base64 key).

Fixpoint write_entries (fd : Fd) (es : list (string * KnownHostEntry)) : CM KnownHostsStore unit :=
  match es with
  | [] => mret tt
  | (h, e) :: es => _ ← try_call (WriteLine fd (entry_line h (key_type e) (entry_base64 e))); write_entries fd es
  end.

Definition rewrite_file : CM KnownHostsStore unit :=
  s ← gets Datatypes.id;
  _ ← make_parent (path s);
  fd ← try_call (CreateFile (path s));
  _ ← try_call (WriteLine fd "# OmniEdge SSH known hosts");
  _ ← try_call (WriteLine fd "# Format: host key_type base64_public_key");
  es ← call (WalkHosts (hosts s));
  write_entries fd es.

Definition remove (host : string) (port : Z) : CM KnownHostsStore bool :=
  let h := host_key host port in
  s ← gets Datatypes.id;
  let removed := bool_decide (is_Some (hosts s !! h)) in
  _ ← modify (set_hosts (delete h (hosts s)));
  _ ← if removed then rewrite_file else mret tt;
  mret removed.

(** ** The server's key *)

Definition key_changed (host expected actual : string) : string :=
  let nl := String "010" "" in
  "Host key verification failed for '" +:+ host +:+ "': key has changed!" +:+ nl +:+
  "Expected: " +:+ expected +:+ nl +:+ "Received: " +:+ actual +:+ nl +:+
  "This could indicate a man-in-the-middle attack." +:+ nl +:+
  "If the server key was legitimately changed, remove the old key with:" +:+ nl +:+
  "omniedge ssh-keygen -R " +:+ host.

Definition unknown_host (host : string) : string :=
  "Host key verification failed: '" +:+ host +:+ "' not in known hosts." +:+ String "010" "" +:+
  "To add this host, connect with TOFU mode first or manually add the key.".

(** Failing to save a new key is only logged. *)
Definition check_server_key (m : HostKeyVerification) (target_host : string) (target_port : Z) (key : PublicKey)
    : CM KnownHostsStore bool :=
  match m with
  | Insecure => mret true
  | _ =>
      verdict ← gets (fun s => check s target_host target_port key);
      match verdict with
      | Match => mret true
      | Mismatch expected actual => throw (key_changed target_host expected actual)
      | NotFound =>
          match m with
          | Strict => throw (unknown_host target_host)
          | _ => _ ← attempt (add target_host target_port key); mret true
          end
      end
  end.

(** ** Connecting *)

Definition resolve_peer {S} (t : SshTarget) : CM S SocketAddr :=
  match parse_ip (host t) with
  | Some ip => mret {| sa_ip := ip; sa_port := port t |}
  | None =>
      named ← try_call (ResolvePeerName (host t));
      match named with
      | Some ip => mret {| sa_ip := ip; sa_port := port t |}
      | None =>
          addrs ← try_call (LookupHost (host t +:+ ":" +:+ show_uint (port t)));
          or_throw ("Could not resolve host: " +:+ host t) (head addrs)
      end
  end.

(** [default_path]: the home directory is an argument. *)
Definition default_path (home : option string) : string :=
  path_join (path_join (from_option Datatypes.id "." home) ".omniedge") "known_hosts".

Definition known_hosts_path (home : option string) (c : HostKeyConfig) : string :=
  from_option Datatypes.id (default_path home) (cfg_known_hosts_path c).

(** The handshake refuses the server unless its key is accepted. *)
Definition handshake (m : HostKeyVerification) (t : SshTarget) : CM KnownHostsStore unit :=
  key ← try_call ServerKey;
  accepted ← check_server_key m (host t) (port t) key;
  _ ← guard_m accepted "Unknown server key";
  try_call FinishHandshake.

(** Like the handler with its store, the state begins with the connection. *)
Definition connect (home : option string) (c : HostKeyConfig) (t : SshTarget) : CM KnownHostsStore SshTarget :=
  addr ← resolve_peer t;
  _ ← try_call (TcpConnect addr);
  _ ← new (known_hosts_path home c);
  _ ← handshake (mode c) t;
  ok ← try_call (AuthenticateNone (user t));
  _ ← guard_m ok ("Authentication failed for user '" +:+ user t +:+ "'");
  mret t.

(** ** Running a command *)

Record ExecResult : Set := { exit_code : Z; stdout : list Z; stderr : list Z }.

Definition success (r : ExecResult) : bool := exit_code r =? 0.
Definition stdout_str (r : ExecResult) : string := bytes_string (from_utf8_lossy (stdout r)).
Definition stderr_str (r : ExecResult) : string := bytes_string (from_utf8_lossy (stderr r)).

(** [x as i32]. *)
Definition as_i32 (x : Z) : Z := (x + 2 ^ 31) `mod` 2 ^ 32 - 2 ^ 31.

(** What a message adds. *)
Definition collect (msg : ChannelMsg) (r : ExecResult) : ExecResult :=
  match msg with
  | Data bytes => {| exit_code := exit_code r; stdout := stdout r ++ bytes; stderr := stderr r |}
  | ExtendedData bytes ext =>
      if ext =? 1 then {| exit_code := exit_code r; stdout := stdout r; stderr := stderr r ++ bytes |} else r
  | ExitStatus status => {| exit_code := as_i32 status; stdout := stdout r; stderr := stderr r |}
  | ExitSignal _ => {| exit_code := 128; stdout := stdout r; stderr := stderr r |}
  | Eof | Close | OtherMsg => r
  end.

(** [None]: still reading when the fuel is spent. *)
Fixpoint exec_loop (fuel : nat) (r : ExecResult) : CM unit (option ExecResult) :=
  match fuel with
  | O => mret None
  | S fuel =>
      msg ← call ChannelWait;
      match msg with
      | Some Close | None => mret (Some r)
      | Some msg => exec_loop fuel (collect msg r)
      end
  end.

Definition nothing_yet : ExecResult := {| exit_code := -1; stdout := []; stderr := [] |}.

Definition exec (fuel : nat) (command : string) : CM unit (option ExecResult) :=
  _ ← try_call OpenSession;
  _ ← try_call (ExecCommand command);
  exec_loop fuel nothing_yet.
End Client.

(** ** The file of known hosts *)

Section KnownHosts.
Context {D : Digests} {K : PublicKeys}.

(** A name the file can hold: visible ASCII, no comment sign first. *)
Definition plain_host (h : string) : Prop := dark h = true /\ h <> "" /\ starts_with h "#" = false.
(** A key whose text the file can hold and decode. *)
Definition plain_key (key : PublicKey) : Prop :=
  dark (key_name key) = true /\ key_name key <> "" /\ dark (public_key_base64 key) = true /\
  public_key_base64 key <> "" /\ is_Some (loaded_fingerprint (public_key_base64 key)).

Lemma starts_with_app_false h t c : h <> "" -> starts_with h (String c "") = false -> starts_with (h +:+ t) (String c "") = false.
Proof.
  intros Hne Hs. destruct h as [|a h]; [done|]. rewrite append_cons. unfold starts_with in *. simpl in *.
  destruct (ascii_dec c a); [by destruct h|done].
Qed.

Lemma load_entry_line h key fp :
  plain_host h -> plain_key key -> loaded_fingerprint (public_key_base64 key) = Some fp ->
  load_line (entry_line h (key_name key) (public_key_base64 key)) =
  Some (h, {| key_type := key_name key; entry_fingerprint := fp; entry_base64 := public_key_base64 key |}).
Proof.
  intros (Hd & Hne & Hc) (Hk & Hkne & Hb & Hbne & _) Hfp. unfold load_line.
  assert (trim (entry_line h (key_name key) (public_key_base64 key)) = join " " [h; key_name key; public_key_base64 key]) as ->.
  { unfold entry_line. cbn [join].
    replace (h +:+ " " +:+ key_name key +:+ " " +:+ public_key_base64 key) with
      (h +:+ (" " +:+ key_name key +:+ " ") +:+ public_key_base64 key) by (by rewrite !append_assoc).
    rewrite trim_words; [by rewrite !append_assoc|try done..].
    apply dark_ascii in Hk. clear -Hk. rewrite append_cons. simpl. induction (key_name key) as [|a z IH]; [done|].
    rewrite append_cons. simpl in *. apply andb_true_iff in Hk as [-> Hk]. by apply IH. }
  assert (starts_with (join " " [h; key_name key; public_key_base64 key]) "#" = false) as ->
    by (cbn [join]; by apply starts_with_app_false).
  rewrite bool_decide_false by (cbn [join]; by destruct h). cbn [orb].
  rewrite split_whitespace_join by (by repeat constructor). cbn. by rewrite Hfp.
Qed.

(** A disk that holds this file alone, and on which everything succeeds. *)
Definition Disk : Type := option (list string).
Definition file_lines (w : Disk) : list string := from_option Datatypes.id [] w.

Definition disk (R : Set) (c : ClientCall R) (w : Disk) : R * Disk :=
  match c in ClientCall R return R * Disk with
  | PathExists _ => (bool_decide (is_Some w), w)
  | ReadLines _ => (Ok (map Ok (file_lines w)), w)
  | CreateDirAll _ => (Ok tt, w)
  | OpenAppend _ => (Ok 3, Some (file_lines w))
  | CreateFile _ => (Ok 3, Some [])
  | WriteLine _ l => (Ok tt, Some (file_lines w ++ [l]))
  | WalkHosts m => (map_to_list m, w)
  | ResolvePeerName _ => (Ok None, w)
  | LookupHost _ => (Ok [], w)
  | TcpConnect _ | FinishHandshake | OpenSession | ExecCommand _ => (Err "offline", w)
  | ServerKey => (Err "offline", w)
  | AuthenticateNone _ => (Err "offline", w)
  | ChannelWait => (None, w)
  end.

(** What the file says. *)
Definition note_line (m : gmap string KnownHostEntry) (line : string) : gmap string KnownHostEntry :=
  match load_line line with Some (h, e) => <[h := e]> m | None => m end.
Definition known (w : Disk) : gmap string KnownHostEntry := fold_left note_line (file_lines w) ∅.

Lemma run_load_lines ls s w :
  run_prog disk (load_lines (map Ok ls) s) w =
  ((set_hosts (fold_left note_line ls (hosts s)) s, Ok tt), w).
Proof.
  revert s. induction ls as [|l ls IH]; intros s; [by destruct s|]. cbn [map load_lines].
  rewrite run_sm_bind. cbn [run_prog lift mret SM_ret]. rewrite run_sm_bind. cbn [run_prog modify]. rewrite IH.
  cbn [fold_left]. unfold note_line at 3. by destruct (load_line l) as [[h e]|].
Qed.

Lemma run_new p s w : run_prog disk (new p s) w = (({| path := p; hosts := known w |}, Ok tt), w).
Proof.
  unfold new. rewrite run_sm_bind. cbn [run_prog modify]. rewrite run_sm_bind. cbn [run_prog call disk].
  unfold known. destruct w as [ls|]; cbn [file_lines from_option]; [|by rewrite bool_decide_false by (by intros [])].
  rewrite bool_decide_true by done. unfold load. rewrite run_sm_bind. cbn [run_prog gets]. rewrite run_sm_bind.
  unfold try_call. rewrite run_sm_bind. cbn [run_prog call disk lift mret SM_ret file_lines from_option].
  by rewrite run_load_lines.
Qed.

(** One connection as far as the key: the store is read, the key is checked. *)
Record Visit : Type := { v_mode : HostKeyVerification; v_host : string; v_port : Z; v_key : PublicKey }.
Definition visit (p : string) (v : Visit) : SM ClientCall KnownHostsStore string bool :=
  _ ← new p; check_server_key (v_mode v) (v_host v) (v_port v) (v_key v).

Definition visited (v : Visit) : string := host_key (v_host v) (v_port v).
Definition adds (v : Visit) : bool := match v_mode v with Tofu | AcceptNew => true | _ => false end.

(** The verdict and the line it adds, as functions of what the file says. *)
Definition visit_verdict (v : Visit) (w : Disk) : result string bool :=
  match v_mode v, known w !! visited v with
  | Insecure, _ => Ok true
  | _, Some e => if bool_decide (entry_fingerprint e = fingerprint (v_key v)) then Ok true
                 else Err (key_changed (v_host v) (entry_fingerprint e) (fingerprint (v_key v)))
  | Strict, None => Err (unknown_host (v_host v))
  | _, None => Ok true
  end.
Definition visit_line (v : Visit) (w : Disk) : Disk :=
  match known w !! visited v with
  | None => if adds v then Some (file_lines w ++
              [entry_line (visited v) (key_name (v_key v)) (public_key_base64 (v_key v))]) else w
  | Some _ => w
  end.

Lemma run_visit p s v w :
  exists s', run_prog disk (visit p v s) w = ((s', visit_verdict v w), visit_line v w).
Proof.
  unfold visit. rewrite run_sm_bind, run_new. unfold check_server_key, visit_verdict, visit_line, adds, visited.
  set (hk := host_key (v_host v) (v_port v)).
  assert (Hadd : forall key, exists s', run_prog disk ((_ ← attempt (add (v_host v) (v_port v) key); mret true : SM ClientCall KnownHostsStore string bool)
      {| path := p; hosts := known w |}) w =
    ((s', Ok true), Some (file_lines w ++ [entry_line hk (key_name key) (public_key_base64 key)]))).
  { intros key. unfold add, save_entry, make_parent, try_call. fold hk. sm_unfold. cbn.
    destruct (path_parent p); cbn; by eexists. }
  destruct (v_mode v); cbv beta iota;
    [| | |by destruct (known w !! hk); eexists]; rewrite run_sm_bind; cbn [run_prog gets]; unfold check; cbn [hosts]; fold hk;
    destruct (known w !! hk) as [e|] eqn:Ek; try (case_bool_decide; by eexists); try apply Hadd; by eexists.
Qed.

Lemma known_snoc ls l : known (Some (ls ++ [l])) = note_line (known (Some ls)) l.
Proof. unfold known. cbn. by rewrite fold_left_app. Qed.

Lemma known_visit v w :
  plain_host (visited v) -> plain_key (v_key v) -> adds v = true -> known w !! visited v = None ->
  exists fp, loaded_fingerprint (public_key_base64 (v_key v)) = Some fp /\
    known (visit_line v w) = <[visited v := {| key_type := key_name (v_key v); entry_fingerprint := fp;
                                              entry_base64 := public_key_base64 (v_key v) |}]> (known w).
Proof.
  intros Hh Hk Ha Hn. pose proof Hk as (_ & _ & _ & _ & [fp Hfp]). exists fp. split; [done|].
  unfold visit_line. rewrite Hn, Ha, known_snoc. unfold note_line. rewrite (load_entry_line _ _ fp) by done.
  unfold known. by destruct w.
Qed.


(** the fate of a host accepted on first use: the next connection reads
    its key back from the file and accepts it if and only if the fingerprint
    that [load] computes (with its prefix and padding) is the one the key
    library gives; otherwise the very key that was remembered is reported as
    changed. *)
Theorem second_visit_fate p s v w :
  known w !! visited v = None -> adds v = true -> plain_host (visited v) -> plain_key (v_key v) ->
  (run_prog disk (visit p v s) w).1.2 = Ok true /\
  exists fp, loaded_fingerprint (public_key_base64 (v_key v)) = Some fp /\
    (run_prog disk (visit p v s) (run_prog disk (visit p v s) w).2).1.2 =
      if bool_decide (fp = fingerprint (v_key v)) then Ok true
      else Err (key_changed (v_host v) fp (fingerprint (v_key v))).
Proof.
  intros Hn Ha Hh Hk. destruct (run_visit p s v w) as [s1 Hr]. rewrite Hr. cbn [fst snd].
  destruct (known_visit v w Hh Hk Ha Hn) as (fp & Hfp & Hkn). split.
  - unfold visit_verdict. rewrite Hn. unfold adds in Ha. by destruct (v_mode v).
  - exists fp. split; [done|]. destruct (run_visit p s v (visit_line v w)) as [s2 ->]. cbn [fst snd].
    unfold visit_verdict. rewrite Hkn, lookup_insert_eq. cbn [entry_fingerprint]. unfold adds in Ha. by destruct (v_mode v).
Qed.

(** ** Connections *)

(** What [connect] leaves: the store has the server's key under its host. *)
Definition pinned (t : SshTarget) (key : PublicKey) (s : KnownHostsStore) : Prop :=
  exists e, hosts s !! host_key (host t) (port t) = Some e /\ entry_fingerprint e = fingerprint key.

(** The server has one key. *)
Definition server_is (key : PublicKey) (R : Set) (c : ClientCall R) : R -> Prop :=
  match c in ClientCall R return R -> Prop with
  | ServerKey => fun r => forall k, r = Ok k -> k = key
  | _ => fun _ => True
  end.

Section Connect.
Context (key : PublicKey).
Abbreviation ok_hoare := (hoare (fun _ _ => True) (server_is key)) (only parsing).

Lemma hoare_try_call {S} {A : Set} (c : ClientCall (result string A)) (s : S) Q :
  (forall a, server_is key _ c (Ok a) -> Q s (Ok a)) -> (forall e, Q s (Err e)) -> ok_hoare (try_call c) s Q.
Proof.
  intros H1 H2. unfold try_call. sm_step. sm_step; [done|]. sm_step; subst; auto.
Qed.

Lemma check_server_key_pins m t s :
  ok_hoare (check_server_key m (host t) (port t) key) s (fun s' r =>
    r = Ok true -> m <> Insecure -> pinned t key s').
Proof.
  unfold check_server_key. destruct m; cbv beta iota; try (apply hoare_bind; apply hoare_gets;
    destruct (check s _ _ key) eqn:Ec; try (by apply hoare_throw)); try (by apply hoare_ret).
  all: unfold check in Ec; destruct (hosts s !! _) as [e|] eqn:Ee; try case_bool_decide; simplify_eq.
  all: try (apply hoare_ret; intros _ _; by exists e).
  all: apply hoare_bind, hoare_attempt; unfold add, save_entry; sm_step; sm_step; sm_step; sm_step; sm_step.
  all: set (s1 := set_hosts _ s); assert (Hp : pinned t key s1) by
    (exists (key_entry key); cbn; by rewrite lookup_insert_eq).
  all: assert (Hm : forall p, ok_hoare (make_parent p) s1 (fun s' _ => s' = s1)) by
    (intros p; unfold make_parent; destruct (path_parent p); [by apply hoare_try_call|done]).
  all: eapply hoare_mono; [apply Hm|]; intros s' [u|e] ->; [|by apply hoare_ret].
  all: apply hoare_bind, hoare_try_call; [intros fd _|intros e; by apply hoare_ret].
  all: apply hoare_try_call; intros; by apply hoare_ret.
Qed.

(** A connection that is made without the insecure mode is made to a
    server whose key the store of known hosts now has under the name and port
    asked for: it matched, or it was new and the mode accepts new keys. *)
Theorem connect_pins_key home c t s :
  ok_hoare (connect home c t) s (fun s' r => is_ok r = true -> mode c <> Insecure -> pinned t key s').
Proof.
  unfold connect. apply hoare_bind. eapply hoare_mono; [apply hoare_any|]. intros s1 [addr|e] _; [|done].
  apply hoare_bind, hoare_try_call; [intros _ _|done]. apply hoare_bind. eapply hoare_mono; [apply hoare_any|].
  intros s2 [[]|e] _; [|done]. apply hoare_bind. unfold handshake.
  apply hoare_bind, hoare_try_call; [intros k Hk|done]. cbn in Hk. specialize (Hk k eq_refl) as ->.
  apply hoare_bind. eapply hoare_mono; [apply check_server_key_pins|]. intros s3 [[|]|e] Hp; cbv beta iota; [|done..].
  apply hoare_bind. apply hoare_ret. apply hoare_try_call; [intros _ _|done].
  apply hoare_bind, hoare_try_call; [intros ok _|done]. apply hoare_bind. sm_step; [|done].
  apply hoare_ret. intros _ Hm. by apply Hp.
Qed.
End Connect.

(** ** Output of a command *)

(** The messages before the channel closes. *)
Fixpoint until_close (msgs : list ChannelMsg) : list ChannelMsg :=
  match msgs with
  | [] | Close :: _ => []
  | m :: msgs => m :: until_close msgs
  end.

Definition data_of (m : ChannelMsg) : list Z := match m with Data b => b | _ => [] end.
Definition stderr_of (m : ChannelMsg) : list Z := match m with ExtendedData b ext => if ext =? 1 then b else [] | _ => [] end.
Definition code_of (m : ChannelMsg) : option Z :=
  match m with ExitStatus z => Some (as_i32 z) | ExitSignal _ => Some 128 | _ => None end.

(** A channel with these messages to come. *)
Definition channel (R : Set) (c : ClientCall R) (msgs : list ChannelMsg) : R * list ChannelMsg :=
  match c in ClientCall R return R * list ChannelMsg with
  | ChannelWait => (head msgs, tail msgs)
  | OpenSession | ExecCommand _ => (Ok tt, msgs)
  | c => ((disk _ c None).1, msgs)
  end.

Lemma run_exec_loop fuel r msgs :
  (length msgs < fuel)%nat ->
  (run_prog channel (exec_loop fuel r tt) msgs).1.2 = Ok (Some {|
    exit_code := from_option Datatypes.id (exit_code r) (last (omap code_of (until_close msgs)));
    stdout := stdout r ++ concat (map data_of (until_close msgs));
    stderr := stderr r ++ concat (map stderr_of (until_close msgs)) |}).
Proof.
  revert fuel r. induction msgs as [|m msgs IH]; intros fuel r Hf; (destruct fuel as [|fuel]; [simpl in Hf; lia|]);
    cbn [exec_loop]; rewrite run_sm_bind; cbn [run_prog call channel head tail].
  { cbn. rewrite !app_nil_r. by destruct r. }
  assert (Hgo : m <> Close -> (run_prog channel (exec_loop fuel (collect m r) tt) msgs).1.2 = Ok (Some {|
    exit_code := from_option Datatypes.id (exit_code r) (last (omap code_of (m :: until_close msgs)));
    stdout := stdout r ++ concat (map data_of (m :: until_close msgs));
    stderr := stderr r ++ concat (map stderr_of (m :: until_close msgs)) |})).
  { intros _. rewrite IH by (simpl in Hf; lia). do 2 f_equal. cbn [map concat omap list_omap].
    destruct m; cbn; rewrite ?app_nil_l, ?app_assoc; try done.
    - destruct (ext =? 1); cbn; by rewrite ?app_nil_r, ?app_assoc.
    - by destruct (omap code_of (until_close msgs)) as [|z zs] eqn:E using rev_ind; rewrite ?last_snoc, ?app_comm_cons, ?last_snoc.
    - by destruct (omap code_of (until_close msgs)) as [|z zs] eqn:E using rev_ind; rewrite ?last_snoc, ?app_comm_cons, ?last_snoc. }
  destruct m; try (by apply Hgo). cbn. rewrite !app_nil_r. by destruct r.
Qed.

(** with fuel for every message, the result of a command is all its
    output and all its errors, each in order, up to the close of the channel,
    and the last exit code reported (-1 when none was). *)
Theorem exec_collects fuel command msgs :
  (length msgs < fuel)%nat ->
  (run_prog channel (exec fuel command tt) msgs).1.2 = Ok (Some {|
    exit_code := from_option Datatypes.id (-1) (last (omap code_of (until_close msgs)));
    stdout := concat (map data_of (until_close msgs));
    stderr := concat (map stderr_of (until_close msgs)) |}).
Proof.
  intros Hf. unfold exec, try_call. rewrite !run_sm_bind. cbn [run_prog call channel lift mret SM_ret].
  rewrite !run_sm_bind. cbn [run_prog call channel lift mret SM_ret]. by apply (run_exec_loop fuel nothing_yet).
Qed.
End KnownHosts.

(** ** Targets *)

Definition show_target (t : SshTarget) : string := user t +:+ "@" +:+ host t +:+ ":" +:+ show_uint (port t).

Lemma find_char_app c s t : no_char c s -> find_char c (s +:+ String c t) = Some (String.length s).
Proof.
  induction s as [|a s IH]; [intros _; rewrite append_nil_l; cbn; by rewrite bool_decide_true|].
  intros [Ha Hs]%no_char_cons. rewrite append_cons. cbn. rewrite bool_decide_false by done. by rewrite IH.
Qed.

(** A target is read back from its text unless the host has a colon. *)
Lemma parse_show_target t :
  no_char "@" (user t) -> no_char ":" (host t) -> 0 <= port t <= u16_max ->
  SshTarget_parse (show_target t) = Ok t.
Proof.
  intros Hu Hh Hp. unfold SshTarget_parse, show_target. rewrite append_cons, append_nil_l, find_char_app by done.
  rewrite drop_str_S_app, append_cons, append_nil_l, find_char_app by done.
  rewrite drop_str_S_app, parse_show_uint by done. cbn. rewrite !take_str_app. by destruct t.
Qed.

(** An address of IPv6 has colons. *)
Example ipv6_target_misread : SshTarget_parse "root@fd00::1" = Err "invalid port".
Proof. by vm_compute. Qed.

(** ** Witnesses *)

(** Keys are numbers; the fingerprint comes with or without the prefix. *)
Definition demo_keys (prefix : string) : PublicKeys := {|
  PublicKey := Z;
  fingerprint k := prefix +:+ b64_encode (sha256 (string_bytes (show_uint k)));
  key_name _ := "ssh-ed25519";
  public_key_base64 k := show_uint k |}.

Definition demo_visit (prefix : string) (key : Z) : @Visit (demo_keys prefix) :=
  @Build_Visit (demo_keys prefix) Tofu "web" 2222 key.


(** With the format of [load] the second visit succeeds, without it fails. *)
Lemma second_visit_fate_witness :
  let second prefix := @run_prog (@ClientCall (demo_keys prefix)) Disk disk _
      (visit "/k" (demo_visit prefix 5) {| path := ""; hosts := ∅ |})
      (run_prog disk (visit "/k" (demo_visit prefix 5) {| path := ""; hosts := ∅ |}) None).2 in
  (second "SHA256:").1.2 = Ok true /\ is_ok (second "").1.2 = false.
Proof.
  intros second. split.
  - destruct (@second_visit_fate demo_digests (demo_keys "SHA256:") "/k" {| path := ""; hosts := ∅ |}
      (demo_visit "SHA256:" 5) None) as (_ & fp & Hfp & Hr); [done|done| |..].
    + by vm_compute.
    + repeat split; vm_compute; try done; by eexists.
    + unfold second. rewrite Hr. injection Hfp as <-. by vm_compute.
  - destruct (@second_visit_fate demo_digests (demo_keys "") "/k" {| path := ""; hosts := ∅ |}
      (demo_visit "" 5) None) as (_ & fp & Hfp & Hr); [done|done| |..].
    + by vm_compute.
    + repeat split; vm_compute; try done; by eexists.
    + unfold second. rewrite Hr. injection Hfp as <-. by vm_compute.
Defined.

Lemma exec_collects_witness :
  (@run_prog (@ClientCall (demo_keys "")) _ channel _ (exec 9 "make" tt)
    [Data [1]; ExtendedData [9] 1; Data [2; 3]; ExitStatus 2; Eof; Close; Data [4]]).1.2 =
  Ok (Some {| exit_code := 2; stdout := [1; 2; 3]; stderr := [9] |}).
Proof.
  apply (@exec_collects (demo_keys "") 9 "make" [Data [1]; ExtendedData [9] 1; Data [2; 3]; ExitStatus 2; Eof; Close; Data [4]]).
  simpl. lia.
Defined.
