(* ===== verification/Fleet.v ===== *)
(** * Fleet operations (omni-ssh/src/fleet/mod.rs)

    A command run on many nodes: which peers a selection means, what happens on
    one node, the tasks of an operation under their semaphore as a step
    relation, and the summary. *)

From S2P Require Import Prelude RustStr Net Effects Standalone SshClient.

Open Scope string_scope.
Open Scope list_scope.
Open Scope Z_scope.

(** ** Data *)

Inductive FleetTargets : Set :=
| NodeIds (ids : list string)
| Tags (tags : list string)
| Network (id : string)
| VpnIps (ips : list string)
| AllOnline.

Record FleetOperation : Set := {
  operation_id : string; command : string; targets : FleetTargets; initiator_id : string; started_at : Z;
  timeout_secs : Z; max_parallel : Z; ssh_user : string; ssh_port : Z }.

(** [FleetOperation::new], with the identifier and the time it draws. *)
Definition FleetOperation_new (uuid : string) (now : Z) (command : string) (ts : FleetTargets) : FleetOperation := {|
  operation_id := uuid; command := command; targets := ts; initiator_id := ""; started_at := now;
  timeout_secs := 60; max_parallel := 10; ssh_user := "root"; ssh_port := 22 |}.

Inductive NodeExecutionStatus : Set :=
| Pending | Running | Succeeded | Failed | TimedOut | Unreachable | Cancelled.

#[global] Instance NodeExecutionStatus_eq_dec : EqDecision NodeExecutionStatus.
Proof. solve_decision. Defined.

Record NodeResult : Set := {
  node_id : string; node_name : string; vpn_ip : string; exit_code : option Z; stdout : string; stderr : string;
  duration_ms : Z; error : option string; status : NodeExecutionStatus }.

Definition success (r : NodeResult) : bool := bool_decide (exit_code r = Some 0) && bool_decide (error r = None).

Record TargetNode : Set := { tn_node_id : string; tn_name : string; tn_vpn_ip : string; tn_online : bool }.

Definition success_result (t : TargetNode) (code : Z) (out err : string) (ms : Z) : NodeResult := {|
  node_id := tn_node_id t; node_name := tn_name t; vpn_ip := tn_vpn_ip t; exit_code := Some code; stdout := out;
  stderr := err; duration_ms := ms; error := None; status := if code =? 0 then Succeeded else Failed |}.

Definition connection_error (t : TargetNode) (e : string) (ms : Z) : NodeResult := {|
  node_id := tn_node_id t; node_name := tn_name t; vpn_ip := tn_vpn_ip t; exit_code := None; stdout := "";
  stderr := ""; duration_ms := ms; error := Some e; status := Unreachable |}.

(** [timeout_secs * 1000] wraps in a release build. *)
Definition timeout (t : TargetNode) (secs : Z) : NodeResult := {|
  node_id := tn_node_id t; node_name := tn_name t; vpn_ip := tn_vpn_ip t; exit_code := None; stdout := "";
  stderr := ""; duration_ms := (secs * 1000) `mod` (u64_max + 1);
  error := Some ("Execution timed out after " +:+ show_uint secs +:+ "s"); status := TimedOut |}.

Record FleetSummary : Set := { total : Z; succeeded : Z; failed : Z; timed_out : Z; unreachable : Z }.
Definition FleetSummary_default : FleetSummary :=
  {| total := 0; succeeded := 0; failed := 0; timed_out := 0; unreachable := 0 |}.

(** The results with a status. *)
Definition count_status (st : NodeExecutionStatus) (results : gmap string NodeResult) : Z :=
  Z.of_nat (length (filter (fun r => status r = st) (snd <$> map_to_list results))).

Definition from_results (results : gmap string NodeResult) : FleetSummary := {|
  total := Z.of_nat (size results); succeeded := count_status Succeeded results;
  failed := count_status Failed results; timed_out := count_status TimedOut results;
  unreachable := count_status Unreachable results |}.

Record FleetResults : Set := {
  r_operation_id : string; r_command : string; r_started_at : Z; r_completed_at : Z;
  results : gmap string NodeResult; summary : FleetSummary }.

(** ** The targets *)

Definition target_node (p : PeerInfo) : TargetNode := {|
  tn_node_id := from_option id "" (pi_device_id p); tn_name := pi_name p;
  tn_vpn_ip := show_ip (Standalone.vpn_ip p); tn_online := pi_online p |}.

(** The closure of each [filter]. *)
Definition selected (ts : FleetTargets) (p : PeerInfo) : bool :=
  match ts with
  | NodeIds ids => from_option (fun i => bool_decide (i ∈ ids)) false (pi_device_id p)
  | VpnIps ips => bool_decide (show_ip (Standalone.vpn_ip p) ∈ ips)
  | AllOnline => pi_online p
  | Network _ | Tags _ => true
  end.

Definition resolve_targets (list_peers : result string (list PeerInfo)) (ts : FleetTargets)
    : result string (list TargetNode) :=
  peers ← list_peers;
  mret (map target_node (List.filter (selected ts) peers)).

(** ** One node *)

(** [tokio::time::timeout]: the future's value, or the time is over. *)
Inductive Timed (A : Set) : Set := Done (a : A) | Elapsed.
Arguments Done {A} a.
Arguments Elapsed {A}.

Inductive NodeCall : Set -> Set :=
| InstantNow : NodeCall Z
| ConnectWithin (d : Z) (t : SshTarget) : NodeCall (Timed (result string unit))
| ExecWithin (d : Z) (command : string) : NodeCall (Timed (result string ExecResult))
| CloseSession : NodeCall (result string unit).

#[global] Instance node_ret : MRet (prog NodeCall) := fun A a => Ret a.
#[global] Instance node_bind : MBind (prog NodeCall) := fun A B f m => prog_bind m f.
Definition ask {R : Set} (c : NodeCall R) : prog NodeCall R := Vis c (fun r => Ret r).

(** [as_millis() as u64]. *)
Definition millis (d : Z) : Z := (d / 1000000) `mod` (u64_max + 1).

Definition since (start : Z) : prog NodeCall Z := now ← ask InstantNow; mret (millis (elapsed start now)).

Definition execute_on_node (t : TargetNode) (command ssh_user : string) (ssh_port secs : Z) : prog NodeCall NodeResult :=
  let limit := from_secs secs in
  start ← ask InstantNow;
  let ssh_target := with_port ssh_port (SshTarget_new (tn_vpn_ip t) ssh_user) in
  connect_result ← ask (ConnectWithin limit ssh_target);
  match connect_result with
  | Done (Err e) => ms ← since start; mret (connection_error t ("Connection failed: " +:+ e) ms)
  | Elapsed => mret (timeout t secs)
  | Done (Ok _) =>
      now ← ask InstantNow;
      exec_result ← ask (ExecWithin (sat_sub limit (elapsed start now)) command);
      r ← match exec_result with
          | Done (Ok out) =>
              ms ← since start;
              mret (success_result t (SshClient.exit_code out) (stdout_str out) (stderr_str out) ms)
          | Done (Err e) => ms ← since start; mret (connection_error t ("Execution failed: " +:+ e) ms)
          | Elapsed => mret (timeout t secs)
          end;
      _ ← ask CloseSession;
      mret r
  end.

Definition node_program (op : FleetOperation) (t : TargetNode) : prog NodeCall NodeResult :=
  execute_on_node t (command op) (ssh_user op) (ssh_port op) (timeout_secs op).

(** ** The operation

    One task per target; [permits] is what is left of the semaphore. *)

Inductive TaskState : Set := Executing | Finished (r : NodeResult) | Panicked.

Record Execution : Set := {
  waiting : list TargetNode; permits : Z; tasks : list (TargetNode * TaskState); collected : nat;
  gathered : gmap string NodeResult }.

Definition start_execution (op : FleetOperation) (ts : list TargetNode) : Execution :=
  {| waiting := ts; permits := max_parallel op; tasks := []; collected := 0; gathered := ∅ |}.

Inductive FleetEvent : Set := Spawn | Finish (i : nat) (r : NodeResult) | Panic (i : nat) | Collect.

(** A result the node can give. *)
Definition node_outcome (op : FleetOperation) (t : TargetNode) (r : NodeResult) : Prop :=
  exists (W : Set) (sys : forall R : Set, NodeCall R -> W -> R * W) (w : W), (run_prog sys (node_program op t) w).1 = r.

(** A task ends and gives its permit back. *)
Definition end_task (i : nat) (t : TargetNode) (st : TaskState) (e : Execution) : Execution := {|
  waiting := waiting e; permits := permits e + 1; tasks := <[i := (t, st)]> (tasks e); collected := collected e;
  gathered := gathered e |}.

(** The result of a joined task. *)
Definition gather (task : TargetNode * TaskState) (m : gmap string NodeResult) : gmap string NodeResult :=
  match task.2 with Finished r => <[tn_node_id task.1 := r]> m | _ => m end.

Inductive fleet_step (op : FleetOperation) : Execution -> FleetEvent -> Execution -> Prop :=
| spawn_step e t ts :
    waiting e = t :: ts -> 0 < permits e ->
    fleet_step op e Spawn {| waiting := ts; permits := permits e - 1; tasks := tasks e ++ [(t, Executing)];
                             collected := collected e; gathered := gathered e |}
| finish_step e i t r :
    tasks e !! i = Some (t, Executing) -> node_outcome op t r ->
    fleet_step op e (Finish i r) (end_task i t (Finished r) e)
| panic_step e i t :
    tasks e !! i = Some (t, Executing) ->
    fleet_step op e (Panic i) (end_task i t Panicked e)
| collect_step e task :
    waiting e = [] -> tasks e !! collected e = Some task -> task.2 <> Executing ->
    fleet_step op e Collect {| waiting := []; permits := permits e; tasks := tasks e; collected := S (collected e);
                               gathered := gather task (gathered e) |}.

(** The handles are joined: [execute] goes on to the summary. *)
Definition complete (e : Execution) : Prop := waiting e = [] /\ collected e = length (tasks e).

Definition fleet_results (op : FleetOperation) (started completed : Z) (e : Execution) : FleetResults := {|
  r_operation_id := operation_id op; r_command := command op; r_started_at := started; r_completed_at := completed;
  results := gathered e; summary := from_results (gathered e) |}.

(** [execute]: no targets give the empty results at once, which is a complete
    execution too. *)
Definition execute (op : FleetOperation) (list_peers : result string (list PeerInfo)) (started completed : Z)
    (r : result string FleetResults) : Prop :=
  match resolve_targets list_peers (targets op) with
  | Err e => r = Err e
  | Ok ts => exists evs e, run (fleet_step op) (start_execution op ts) evs e /\ complete e /\
               r = Ok (fleet_results op started completed e)
  end.

(** ** One node *)

(** Whose result it is, and that status, exit code and error agree. *)
Definition result_fits (t : TargetNode) (r : NodeResult) : Prop :=
  node_id r = tn_node_id t /\ node_name r = tn_name t /\ vpn_ip r = tn_vpn_ip t /\
  ((exists code, exit_code r = Some code /\ error r = None /\
      status r = (if code =? 0 then Succeeded else Failed)) \/
   (exit_code r = None /\ is_Some (error r) /\ (status r = TimedOut \/ status r = Unreachable))).

Lemma node_result_fits op t (P : forall R : Set, NodeCall R -> Prop) L :
  (forall R c, P R c) -> wp P L (node_program op t) (result_fits t).
Proof.
  intros HP. assert (forall e ms, result_fits t (connection_error t e ms)) as Hc.
  { intros e ms. repeat split. right. simpl. eauto. }
  assert (result_fits t (timeout t (timeout_secs op))) as Ht by (repeat split; right; simpl; eauto).
  unfold node_program, execute_on_node. simpl. split; [done|]. intros start _. split; [done|].
  intros [[u|e]|] _; simpl; [|by split; [|intros]|exact Ht].
  split; [done|]. intros now _. split; [done|]. intros [[out|e]|] _; simpl; [split; [done|]; intros ms _..|]; (split; [done|]);
    intros c _; [|apply Hc|exact Ht].
  repeat split. left. by eexists.
Qed.

Lemma outcome_fits op t r : node_outcome op t r -> result_fits t r.
Proof.
  intros (W & sys & w & <-).
  by apply (wp_run (fun _ _ => True) (fun _ _ _ => True) sys (fun _ => True) _ _ w (fun _ _ _ _ _ => conj I I)
    (node_result_fits op t _ _ (fun _ _ => I)) I).
Qed.

(** A result counts as a success exactly with the status. *)
Lemma success_status t r : result_fits t r -> success r = bool_decide (status r = Succeeded).
Proof.
  intros (_ & _ & _ & [(code & Hc & He & Hs)|(Hc & [e He] & Hs)]); unfold success; rewrite Hc, He;
    apply eq_true_iff_eq; rewrite andb_true_iff, !bool_decide_eq_true.
  - rewrite Hs. destruct (Z.eqb_spec code 0) as [->|Hne]; intuition congruence.
  - intuition congruence.
Qed.

Lemma some_outcome op t : exists r, node_outcome op t r.
Proof.
  eexists. exists unit, (fun (R : Set) (c : NodeCall R) _ =>
    (match c in NodeCall R return R with
     | InstantNow => 0 | ConnectWithin _ _ => Elapsed | ExecWithin _ _ => Elapsed | CloseSession => Ok tt end, tt)), tt.
  reflexivity.
Qed.

(** ** The operation *)

Section Operation.
Context (op : FleetOperation) (all : list TargetNode).

Definition executing (task : TargetNode * TaskState) : bool := match task.2 with Executing => true | _ => false end.
Definition running (e : Execution) : nat := length (List.filter executing (tasks e)).

(** The invariant of the executor: permits and running tasks are the
    parallelism; tasks and waiting targets are the targets in order; a finished
    task has a result its node can give; what is gathered comes from the tasks
    joined so far. *)
Record fleet_ok (e : Execution) : Prop := {
  ok_permits : permits e + Z.of_nat (running e) = max_parallel op;
  ok_nonneg : 0 <= permits e;
  ok_targets : map fst (tasks e) ++ waiting e = all;
  ok_outcomes : forall i t r, tasks e !! i = Some (t, Finished r) -> node_outcome op t r;
  ok_collected : (collected e <= length (tasks e))%nat;
  ok_joined : forall i, (i < collected e)%nat -> forall t, tasks e !! i <> Some (t, Executing);
  ok_gathered : gathered e = fold_left (fun m task => gather task m) (take (collected e) (tasks e)) ∅;
  ok_order : (0 < collected e)%nat -> waiting e = [] }.

Lemma filter_insert (l : list (TargetNode * TaskState)) i x y :
  l !! i = Some x -> executing x = true -> executing y = false ->
  S (length (List.filter executing (<[i := y]> l))) = length (List.filter executing l).
Proof.
  revert i. induction l as [|z l IH]; intros [|i] Hi Hx Hy; simplify_eq/=; [by rewrite Hx, Hy|].
  destruct (executing z); simpl; rewrite <- (IH i) by done; done.
Qed.

Lemma end_task_ok e i t st :
  fleet_ok e -> tasks e !! i = Some (t, Executing) -> st <> Executing ->
  (forall r, st = Finished r -> node_outcome op t r) -> fleet_ok (end_task i t st e).
Proof.
  intros [Hp Hn Ht Ho Hc Hj Hg Hor] Hi Hst Hout. split; cbn [end_task permits tasks waiting collected gathered]; try done.
  - unfold running in *. cbn [end_task tasks].
    pose proof (filter_insert (tasks e) i (t, Executing) (t, st) Hi eq_refl) as Hf. rewrite <- Hf in Hp; [lia|].
    by destruct st.
  - lia.
  - rewrite <- Ht. f_equal. rewrite list_fmap_insert. apply list_insert_id. by rewrite list_lookup_fmap, Hi.
  - intros j t' r Hj'. destruct (decide (i = j)) as [<-|Hne].
    + rewrite list_lookup_insert_eq in Hj' by (by eapply lookup_lt_Some). simplify_eq. by apply Hout.
    + rewrite list_lookup_insert_ne in Hj' by done. by eapply Ho.
  - by rewrite length_insert.
  - intros j Hlt t' Hj'. destruct (decide (i = j)) as [<-|Hne]; [by eapply Hj|].
    rewrite list_lookup_insert_ne in Hj' by done. by eapply Hj.
  - rewrite take_insert_ge; [done|]. apply Nat.nlt_ge. intros Hlt. by eapply Hj.
Qed.

Lemma fleet_step_ok e ev e' : fleet_ok e -> fleet_step op e ev e' -> fleet_ok e'.
Proof.
  intros He Hs. destruct Hs as [e t ts Hw Hp|e i t r Hi Ho|e i t Hi|e task Hw Hi Ht].
  - destruct He as [Hp' Hn Ht Ho Hc Hj Hg Hor]. split; cbn [permits tasks waiting collected gathered]; try done.
    + unfold running in *. cbn [tasks]. rewrite List.filter_app, length_app. simpl. lia.
    + lia.
    + by rewrite map_app, <- app_assoc, <- Ht, Hw.
    + intros i t' r Hi. apply lookup_app_Some in Hi as [Hi|[_ Hi]]; [by eapply Ho|].
      by apply list_lookup_singleton_Some in Hi as [_ ?].
    + rewrite length_app. lia.
    + intros i Hlt t' Hi. apply lookup_app_Some in Hi as [Hi|[Hle _]]; [by eapply Hj|lia].
    + by rewrite take_app_le.
    + intros Hpos. specialize (Hor Hpos). congruence.
  - apply end_task_ok; [done..|]. by intros r' [= <-].
  - by apply end_task_ok.
  - destruct He as [Hp Hn Htg Ho Hc Hj Hg Hor]. split; cbn [permits tasks waiting collected gathered]; try done.
    + by rewrite <- Hw.
    + apply lookup_lt_Some in Hi. lia.
    + intros i Hlt t' Hi'. destruct (decide (i = collected e)) as [->|Hne]; [|apply (Hj i ltac:(lia) _ Hi')].
      rewrite Hi in Hi'. by simplify_eq.
    + by rewrite (take_S_r _ _ task Hi), fold_left_app, <- Hg.
Qed.

Lemma start_ok : 0 <= max_parallel op -> fleet_ok (start_execution op all).
Proof. intros H. split; cbn; try done; try lia. Qed.

Lemma run_ok evs e : 0 <= max_parallel op -> run (fleet_step op) (start_execution op all) evs e -> fleet_ok e.
Proof. intros H Hr. eapply (run_invariant _ fleet_ok); [apply fleet_step_ok|exact Hr|by apply start_ok]. Qed.

(** never more than [max_parallel] nodes are busy, in any interleaving
    of the tasks. *)
Theorem fleet_parallelism evs e :
  0 <= max_parallel op -> run (fleet_step op) (start_execution op all) evs e ->
  Z.of_nat (running e) <= max_parallel op.
Proof. intros H Hr. destruct (run_ok evs e H Hr) as [Hp Hn _ _ _ _ _ _]. lia. Qed.
(** *** An operation ends *)

(** Three steps for every target: start, end, join. *)
Definition steps_left (e : Execution) : nat :=
  3 * length (waiting e) + running e + (length (tasks e) - collected e).

Lemma step_measure e ev e' : fleet_ok e -> fleet_step op e ev e' -> steps_left e = S (steps_left e').
Proof.
  intros He Hs. destruct He as [_ _ _ _ Hc _ _ _]. unfold steps_left, running.
  destruct Hs as [e t ts Hw Hp|e i t r Hi Ho|e i t Hi|e task Hw Hi Ht]; cbn [end_task waiting tasks collected].
  - rewrite Hw, List.filter_app, !length_app. simpl. lia.
  - pose proof (filter_insert (tasks e) i (t, Executing) (t, Finished r) Hi eq_refl eq_refl). rewrite length_insert. lia.
  - pose proof (filter_insert (tasks e) i (t, Executing) (t, Panicked) Hi eq_refl eq_refl). rewrite length_insert. lia.
  - apply lookup_lt_Some in Hi. rewrite Hw. lia.
Qed.

(** A task that runs can be found. *)
Lemma running_task e : (0 < running e)%nat -> exists i t, tasks e !! i = Some (t, Executing).
Proof.
  unfold running. intros H. destruct (List.filter executing (tasks e)) as [|[t st] l] eqn:E; [simpl in H; lia|].
  assert (In (t, st) (List.filter executing (tasks e))) as [Hin Hx]%filter_In by (rewrite E; by left).
  apply list_elem_of_In, list_elem_of_lookup in Hin as [i Hi]. exists i, t. by destruct st.
Qed.

Lemma step_exists e : 0 < max_parallel op -> fleet_ok e -> ~ complete e -> exists ev e', fleet_step op e ev e'.
Proof.
  intros Hm He Hn. destruct (decide (0 < running e)%nat) as [Hr|Hr].
  - destruct (running_task e Hr) as (i & t & Hi). destruct (some_outcome op t) as [r Ho]. eexists _, _. by apply (finish_step op e i t r).
  - destruct He as [Hp _ _ _ Hc _ _ _]. destruct (waiting e) as [|t ts] eqn:Hw.
    + destruct (lookup_lt_is_Some_2 (tasks e) (collected e)) as [task Ht].
      { unfold complete in Hn. rewrite Hw in Hn. destruct (decide (collected e = length (tasks e))); [by destruct Hn|lia]. }
      eexists _, _. apply (collect_step op e task); [done..|]. intros Hx. apply Hr. unfold running.
      assert (In task (List.filter executing (tasks e))) as Hin.
      { apply filter_In. split; [apply list_elem_of_In; by eapply list_elem_of_lookup_2|]. unfold executing. by rewrite Hx. }
      destruct (List.filter executing (tasks e)); [done|]. simpl. lia.
    + eexists _, _. eapply spawn_step; [done|]. lia.
Qed.

Lemma run_length evs e e' : fleet_ok e -> run (fleet_step op) e evs e' -> steps_left e = (length evs + steps_left e')%nat.
Proof.
  intros He Hr. induction Hr as [|e ev e1 evs e2 Hs Hr IH]; [done|]. rewrite (step_measure e ev e1 He Hs).
  simpl. rewrite IH; [done|]. by eapply fleet_step_ok.
Qed.

Lemma complete_steps e : fleet_ok e -> steps_left e = 0%nat -> complete e.
Proof.
  intros [_ _ _ _ Hc _ _ _] H. unfold steps_left in H. split; [|lia]. destruct (waiting e); [done|simpl in H; lia].
Qed.

Lemma complete_running e : fleet_ok e -> complete e -> running e = 0%nat.
Proof.
  intros [Hp Hn Ht Ho Hcl Hj Hg Hor] [Hw Hc]. destruct (decide (0 < running e)%nat) as [Hr|Hr]; [|lia].
  destruct (running_task e Hr) as (i & t & Hi). exfalso. apply (Hj i) with t; [|done].
  apply lookup_lt_Some in Hi. lia.
Qed.

Lemma complete_steps_left e : fleet_ok e -> complete e -> steps_left e = 0%nat.
Proof.
  intros He Hc. unfold steps_left. rewrite (complete_running e He Hc). destruct Hc as [-> ->]. simpl. lia.
Qed.

(** An operation with a positive parallelism ends: however the tasks
    interleave, it can always go on until it is complete, and it is complete
    after exactly three steps per target. *)
Theorem fleet_ends evs e :
  0 < max_parallel op -> run (fleet_step op) (start_execution op all) evs e ->
  (length evs + steps_left e = 3 * length all)%nat /\
  (steps_left e = 0%nat -> complete e) /\
  (steps_left e <> 0%nat -> exists ev e', fleet_step op e ev e').
Proof.
  intros Hm Hr. pose proof (run_ok evs e ltac:(lia) Hr) as He. pose proof (start_ok ltac:(lia)) as H0.
  pose proof (run_length evs _ e H0 Hr) as Hl.
  assert (steps_left (start_execution op all) = 3 * length all)%nat as Hs by (unfold steps_left, running; simpl; lia).
  split; [lia|]. split; [by apply complete_steps|]. intros Hne. apply step_exists; [done..|].
  intros Hcp. apply Hne. by apply complete_steps_left.
Qed.
(** *** The results *)

Definition has_result (task : TargetNode * TaskState) : bool := match task.2 with Finished _ => true | _ => false end.
Definition gather_all (l : list (TargetNode * TaskState)) : gmap string NodeResult :=
  fold_left (fun m task => gather task m) l ∅.

Lemma gather_all_lookup l i r :
  gather_all l !! i = Some r -> exists t, (t, Finished r) ∈ l /\ tn_node_id t = i.
Proof.
  unfold gather_all. induction l as [|[t st] l IH] using rev_ind; [done|].
  rewrite fold_left_app. cbn [fold_left]. unfold gather at 1. cbn [fst snd].
  assert (fold_left (fun m task => gather task m) l ∅ !! i = Some r -> exists t0, (t0, Finished r) ∈ l ++ [(t, st)] /\ tn_node_id t0 = i) as Hold.
  { intros H. destruct (IH H) as (t0 & Ht0 & Hi). exists t0. split; [set_solver|done]. }
  destruct st as [|r'|]; [done| |done]. intros [[<- <-]|[_ H]]%lookup_insert_Some; [|by apply Hold].
  exists t. split; [set_solver|done].
Qed.

Lemma gather_all_dom l :
  forallb has_result l = true -> dom (gather_all l) = list_to_set (map (fun task => tn_node_id task.1) l).
Proof.
  unfold gather_all. induction l as [|[t st] l IH] using rev_ind; [done|].
  rewrite forallb_app, andb_true_iff. intros [Hl Hx]. rewrite fold_left_app. cbn [fold_left].
  destruct st as [|r|]; [by rewrite andb_false_r in Hx || done| |done]. unfold gather at 1. cbn [fst snd].
  rewrite dom_insert_L, IH, map_app, list_to_set_app_L by done. set_solver.
Qed.

(** What a complete execution has gathered. *)
Lemma complete_gathered e : fleet_ok e -> complete e -> gathered e = gather_all (tasks e) /\ map fst (tasks e) = all.
Proof.
  intros [Hp Hn Ht Ho Hcl Hj Hg Hor] [Hw Hc]. rewrite Hw, app_nil_r in Ht. split; [|done].
  by rewrite Hg, Hc, take_ge.
Qed.

Lemma complete_results e i r :
  fleet_ok e -> complete e -> gathered e !! i = Some r -> exists t, t ∈ all /\ tn_node_id t = i /\ node_outcome op t r.
Proof.
  intros He Hc Hi. destruct (complete_gathered e He Hc) as [Hg Hall]. rewrite Hg in Hi.
  apply gather_all_lookup in Hi as (t & Hin & <-). exists t. apply list_elem_of_lookup in Hin as [k Hk]. split; [|split; [done|]].
  - rewrite <- Hall. apply list_elem_of_fmap. exists (t, Finished r). split; [done|]. by eapply list_elem_of_lookup_2.
  - by eapply ok_outcomes.
Qed.

Lemma complete_dom e :
  fleet_ok e -> complete e -> (forall t, (t, Panicked) ∉ tasks e) -> dom (gathered e) = list_to_set (map tn_node_id all).
Proof.
  intros He Hc Hnp. destruct (complete_gathered e He Hc) as [Hg Hall]. rewrite Hg, gather_all_dom.
  - by rewrite <- Hall, map_map.
  - apply forallb_forall. intros [t st] Hin%list_elem_of_In. destruct st as [| |]; [|done|by apply Hnp in Hin].
    apply list_elem_of_lookup in Hin as [k Hk]. exfalso. apply (ok_joined e He k) with t; [|done].
    destruct Hc as [_ ->]. by eapply lookup_lt_Some.
Qed.

(** Four counters, one for each status a node can end with. *)
Lemma count_statuses (l : list NodeResult) :
  Forall (fun r => status r = Succeeded \/ status r = Failed \/ status r = TimedOut \/ status r = Unreachable) l ->
  (length (filter (fun r => status r = Succeeded) l) + length (filter (fun r => status r = Failed) l) +
   length (filter (fun r => status r = TimedOut) l) + length (filter (fun r => status r = Unreachable) l) = length l)%nat.
Proof.
  induction 1 as [|r l Hr _ IH]; [done|]. rewrite !filter_cons.
  destruct Hr as [Hr|[Hr|[Hr|Hr]]]; repeat case_decide; try congruence; simpl; lia.
Qed.

Definition summary_adds_up (m : gmap string NodeResult) : Prop :=
  let s := from_results m in succeeded s + failed s + timed_out s + unreachable s = total s.

Lemma adds_up m : (forall i r, m !! i = Some r -> exists t, result_fits t r) -> summary_adds_up m.
Proof.
  intros H. unfold summary_adds_up, from_results, count_status. cbn [succeeded failed timed_out unreachable total].
  assert (Hs : size m = length (snd <$> map_to_list m)) by (by rewrite length_fmap, length_map_to_list).
  rewrite Hs, <- !Nat2Z.inj_add. f_equal. apply count_statuses, Forall_fmap, Forall_forall. intros [i r] Hin.
  apply elem_of_map_to_list in Hin. destruct (H i r Hin) as (t & _ & _ & _ & [(code & _ & _ & Hst)|(_ & _ & Hst)]); cbn.
  - destruct (code =? 0); auto.
  - intuition.
Qed.


Lemma distinct_le (l : list string) : (size (list_to_set l : gset string) <= length l)%nat.
Proof.
  induction l as [|x l IH]; simpl; [done|].
  rewrite size_union_alt, size_singleton. pose proof (subseteq_size (list_to_set l ∖ {[x]}) (list_to_set l : gset string) ltac:(set_solver)). lia.
Qed.

Lemma distinct_fewer (l : list string) : ~ NoDup l -> (size (list_to_set l : gset string) < length l)%nat.
Proof.
  induction l as [|x l IH]; intros Hn; [by destruct Hn; constructor|]. simpl. destruct (decide (x ∈ l)) as [Hx|Hx].
  - assert ({[x]} ∪ list_to_set l = (list_to_set l : gset string)) as -> by set_solver.
    pose proof (distinct_le l). lia.
  - assert (~ NoDup l) as Hl by (intros Hl; apply Hn; by constructor). specialize (IH Hl).
    rewrite size_union by set_solver. rewrite size_singleton. lia.
Qed.

(** results are kept by node identifier, and a peer without a device
    identifier has the empty one: where two targets share an identifier, the
    command runs on both and the results and the total count one of them only. *)
Theorem shared_ids_lose_results evs e :
  0 <= max_parallel op -> run (fleet_step op) (start_execution op all) evs e -> complete e ->
  (forall t, (t, Panicked) ∉ tasks e) -> ~ NoDup (map tn_node_id all) ->
  length (tasks e) = length all /\ total (from_results (gathered e)) < Z.of_nat (length all).
Proof.
  intros Hm Hr Hc Hnp Hdup. pose proof (run_ok evs e Hm Hr) as He.
  pose proof (complete_dom e He Hc Hnp) as Hd. destruct (complete_gathered e He Hc) as [_ Hall].
  split; [by rewrite <- Hall, length_map|]. cbn. rewrite <- size_dom, Hd.
  pose proof (distinct_fewer _ Hdup) as Hlt. rewrite length_map in Hlt. lia.
Qed.
End Operation.

(** ** Selections and limits *)

(** A selection by identifiers, addresses or presence is exactly that. *)
Lemma resolve_exact ps ts nodes :
  resolve_targets (Ok ps) ts = Ok nodes ->
  forall n, n ∈ nodes <-> exists p, p ∈ ps /\ n = target_node p /\
    match ts with
    | NodeIds ids => exists i, pi_device_id p = Some i /\ i ∈ ids
    | VpnIps ips => show_ip (Standalone.vpn_ip p) ∈ ips
    | AllOnline => pi_online p = true
    | Network _ | Tags _ => True
    end.
Proof.
  intros [= <-] n. rewrite list_elem_of_In, in_map_iff. setoid_rewrite filter_In. setoid_rewrite list_elem_of_In.
  split; intros (p & H1 & H2); exists p; [destruct H2 as [Hin Hs]|destruct H2 as [-> Hs]]; repeat split; try done.
  all: destruct ts; cbn in *; try done.
  - destruct (pi_device_id p) as [i|]; [|done]. exists i. by apply bool_decide_eq_true in Hs.
  - by apply bool_decide_eq_true in Hs.
  - destruct Hs as (i & -> & Hi). cbn. by apply bool_decide_eq_true.
  - by apply bool_decide_eq_true.
Qed.

(** A selection by tags or by network selects every peer, whatever its
    tags and its network, offline ones included. *)
Theorem tags_select_everyone ps ts :
  (exists tags, ts = Tags tags) \/ (exists n, ts = Network n) ->
  resolve_targets (Ok ps) ts = Ok (map target_node ps).
Proof.
  intros [[tags ->]|[n ->]]; cbn; do 2 f_equal; induction ps as [|p ps IH]; simpl; congruence.
Qed.

(** without parallelism an operation with targets never takes a step:
    it waits for the semaphore for ever. *)
Theorem zero_parallel_hangs op ts evs e :
  max_parallel op = 0 -> ts <> [] -> run (fleet_step op) (start_execution op ts) evs e ->
  evs = [] /\ ~ complete e /\ forall ev e', ~ fleet_step op e ev e'.
Proof.
  intros Hm Hne Hr. assert (forall ev e', ~ fleet_step op (start_execution op ts) ev e') as Hstuck.
  { intros ev e' Hs. inversion Hs as [? ? ? ? Hp|? ? ? ? Hi|? ? ? Hi|? ? Hw]; subst; cbn in *; try done. lia. }
  inversion Hr as [|? ? ? ? ? Hs]; subst; [|by apply Hstuck in Hs].
  split; [done|]. split; [|done]. intros [Hw _]. done.
Qed.

(** A session that was opened is closed, whatever the command does. *)
Lemma session_closed answer op t :
  let target := with_port (ssh_port op) (SshTarget_new (tn_vpn_ip t) (ssh_user op)) in
  existT _ CloseSession ∈ (run_prog (logged answer) (node_program op t) []).2 <->
  exists u, answer _ (ConnectWithin (from_secs (timeout_secs op)) target) = Done (Ok u).
Proof.
  intros target. unfold node_program, execute_on_node. fold target. cbn.
  destruct (answer _ (ConnectWithin (from_secs (timeout_secs op)) target)) as [[u|e]|]; cbn.
  - split; [by eexists|]. intros _. destruct (answer _ (ExecWithin _ _)) as [[out|e]|]; cbn; set_solver.
  - split; [|by intros [? [=]]]. intros H. exfalso.
    repeat (apply elem_of_cons in H as [H|H]; [by simplify_eq|]). by apply elem_of_nil in H.
  - split; [|by intros [? [=]]]. intros H. exfalso.
    repeat (apply elem_of_cons in H as [H|H]; [by simplify_eq|]). by apply elem_of_nil in H.
Qed.

(** ** Witnesses *)

Definition demo_peer (name : string) (last : Z) : PeerInfo :=
  {| pi_name := name; Standalone.vpn_ip := ipv4 10 0 0 last; pi_online := false; pi_device_id := None |}.
Definition demo_peers : list PeerInfo := [demo_peer "a" 1; demo_peer "b" 2].
Definition demo_nodes : list TargetNode := map target_node demo_peers.
Definition demo_op (n : Z) : FleetOperation := {|
  operation_id := "op"; command := "uptime"; targets := Tags ["production"]; initiator_id := ""; started_at := 0;
  timeout_secs := 60; max_parallel := n; ssh_user := "root"; ssh_port := 22 |}.

Definition demo_result (t : TargetNode) : NodeResult := timeout t 60.
Lemma demo_outcome n t : node_outcome (demo_op n) t (demo_result t).
Proof.
  exists unit, (fun (R : Set) (c : NodeCall R) _ =>
    (match c in NodeCall R return R with
     | InstantNow => 0 | ConnectWithin _ _ => Elapsed | ExecWithin _ _ => Elapsed | CloseSession => Ok tt end, tt)), tt.
  reflexivity.
Qed.

Definition demo_a : TargetNode := target_node (demo_peer "a" 1).
Definition demo_b : TargetNode := target_node (demo_peer "b" 2).
Definition demo_events : list FleetEvent :=
  [Spawn; Finish 0 (demo_result demo_a); Spawn; Finish 1 (demo_result demo_b); Collect; Collect].
Definition demo_end : Execution := {|
  waiting := []; permits := 1; collected := 2;
  tasks := [(demo_a, Finished (demo_result demo_a)); (demo_b, Finished (demo_result demo_b))];
  gathered := {[ "" := demo_result demo_b ]} |}.

Lemma fleet_demo_run : run (fleet_step (demo_op 1)) (start_execution (demo_op 1) demo_nodes) demo_events demo_end.
Proof.
  eapply run_cons; [by eapply spawn_step; [reflexivity|cbn; lia]|].
  eapply run_cons; [eapply (finish_step _ _ 0 demo_a); [reflexivity|apply demo_outcome]|].
  eapply run_cons; [by eapply spawn_step; [reflexivity|cbn; lia]|].
  eapply run_cons; [eapply (finish_step _ _ 1 demo_b); [reflexivity|apply demo_outcome]|].
  eapply run_cons; [by eapply collect_step; [reflexivity..|]|].
  eapply run_cons; [by eapply collect_step; [reflexivity..|]|].
  match goal with |- run _ ?e [] _ => replace e with demo_end by (by vm_compute) end. constructor.
Qed.

Lemma demo_complete : complete demo_end.
Proof. done. Qed.
Lemma demo_no_panic t : (t, Panicked) ∉ tasks demo_end.
Proof. set_solver. Qed.

Lemma fleet_parallelism_witness : Z.of_nat (running demo_end) <= 1.
Proof. apply (fleet_parallelism (demo_op 1) demo_nodes demo_events demo_end); [cbn; lia|exact fleet_demo_run]. Defined.

Lemma fleet_ends_witness : (length demo_events + steps_left demo_end = 3 * length demo_nodes)%nat.
Proof. apply (fleet_ends (demo_op 1) demo_nodes demo_events demo_end); [cbn; lia|exact fleet_demo_run]. Defined.


Lemma shared_ids_lose_results_witness :
  length (tasks demo_end) = 2%nat /\ total (from_results (gathered demo_end)) < 2.
Proof.
  apply (shared_ids_lose_results (demo_op 1) demo_nodes demo_events demo_end);
    [cbn; lia|exact fleet_demo_run|exact demo_complete|exact demo_no_panic|].
  intros H. inversion H as [|? ? Hx]. apply Hx. vm_compute. left.
Defined.

Lemma tags_select_everyone_witness :
  resolve_targets (Ok demo_peers) (Tags ["production"]) = Ok [demo_a; demo_b].
Proof. apply (tags_select_everyone demo_peers). left. by eexists. Defined.

Lemma zero_parallel_hangs_witness :
  ~ complete (start_execution (demo_op 0) demo_nodes).
Proof. apply (zero_parallel_hangs (demo_op 0) demo_nodes []); [done|done|constructor]. Defined.
