(* ===== verification/Updater.v ===== *)
(** * The updater (omni-core/src/updater.rs)

    Comparing versions, what a check for updates answers, the download of an
    asset, and the replacement of the executable on unix and on windows. *)

From Stdlib Require Import Ascii.
From S2P Require Import Prelude RustStr Paths Effects.

Open Scope string_scope.
Open Scope list_scope.
Open Scope Z_scope.

(** ** Products and releases *)

Inductive Product : Set := Cli | Desktop.
Inductive Os : Set := Windows | Macos | Linux | OtherOs.
Inductive Arch : Set := X86_64 | Aarch64 | OtherArch.

(** The platform the program is built for. *)
Definition asset_pattern (os : Os) (arch : Arch) (p : Product) : string :=
  match p, os, arch with
  | Cli, Windows, X86_64 => "omniedge-cli-windows-x86_64"
  | Cli, Windows, Aarch64 => "omniedge-cli-windows-aarch64"
  | Cli, Macos, X86_64 => "omniedge-cli-macos-x86_64"
  | Cli, Macos, Aarch64 => "omniedge-cli-macos-aarch64"
  | Cli, Linux, X86_64 => "omniedge-cli-linux-x86_64"
  | Cli, Linux, Aarch64 => "omniedge-cli-linux-aarch64"
  | Cli, _, _ => "omniedge-cli-unknown"
  | Desktop, Windows, X86_64 => "OmniEdge_x64-setup.exe"
  | Desktop, Windows, Aarch64 => "OmniEdge_arm64-setup.exe"
  | Desktop, Macos, X86_64 => "OmniEdge_x64.dmg"
  | Desktop, Macos, Aarch64 => "OmniEdge_aarch64.dmg"
  | Desktop, Linux, X86_64 => "omniedge_amd64.deb"
  | Desktop, Linux, Aarch64 => "omniedge_arm64.deb"
  | Desktop, _, _ => "omniedge-desktop-unknown"
  end.

Definition exe_extension (os : Os) : string := match os with Windows => ".exe" | _ => "" end.

Definition GITHUB_REPO : string := "omniedgeio/omniedge".
Definition GITHUB_API_BASE : string := "https://api.github.com".

Record UpdaterConfig : Set := { repo : string; include_prerelease : bool; download_dir : option string }.
Definition UpdaterConfig_default : UpdaterConfig :=
  {| repo := GITHUB_REPO; include_prerelease := false; download_dir := None |}.

Record ReleaseAsset : Set := { a_name : string; browser_download_url : string; size : Z; content_type : string }.

Record ReleaseInfo : Set := {
  version : string; tag_name : string; name : string; body : string; prerelease : bool; published_at : string;
  html_url : string; assets : list ReleaseAsset }.

(** [GitHubRelease]; its assets have the fields of ours. *)
Record GitHubRelease : Set := {
  g_tag_name : string; g_name : option string; g_body : option string; g_prerelease : bool;
  g_published_at : string; g_html_url : string; g_assets : list ReleaseAsset }.

Record UpdateCheckResult : Set := {
  current_version : string; latest_release : option ReleaseInfo; update_available : bool;
  download_url : option string; asset_name : option string }.

(** [trim_start_matches('v')]. *)
Fixpoint trim_v (s : string) : string :=
  match s with String "v" s' => trim_v s' | _ => s end.

Definition convert_release (r : GitHubRelease) : ReleaseInfo := {|
  version := trim_v (g_tag_name r); tag_name := g_tag_name r; name := from_option id "" (g_name r);
  body := from_option id "" (g_body r); prerelease := g_prerelease r; published_at := g_published_at r;
  html_url := g_html_url r; assets := g_assets r |}.

(** ** Versions *)

Definition Version : Set := Z * Z * Z * option string.

Definition part (o : option string) : Z := from_option id 0 (s ← o; parse_uint u32_max s).

(** The closure [parse_version]. *)
Definition parse_version (v : string) : Version :=
  let v := trim_v v in
  let '(version_part, pre) :=
    match find_char "-" v with
    | Some n => (take_str n v, Some (drop_str (S n) v))
    | None => (v, None)
    end in
  let nums := split "." version_part in
  (part (nums !! 0%nat), part (nums !! 1%nat), part (nums !! 2%nat), pre).

Definition newer (l c : Version) : bool :=
  let '(l_major, l_minor, l_patch, l_pre) := l in
  let '(c_major, c_minor, c_patch, c_pre) := c in
  match Z.compare l_major c_major, Z.compare l_minor c_minor, Z.compare l_patch c_patch with
  | Gt, _, _ => true
  | Lt, _, _ => false
  | _, Gt, _ => true
  | _, Lt, _ => false
  | _, _, Gt => true
  | _, _, Lt => false
  | _, _, _ =>
      match l_pre, c_pre with
      | None, Some _ => true
      | Some _, None => false
      | _, _ => false
      end
  end.

Definition is_newer_version (latest current : string) : bool := newer (parse_version latest) (parse_version current).

Example is_newer_examples :
  is_newer_version "2.5.0" "2.4.9" = true /\ is_newer_version "3.0.0" "2.9.9" = true /\
  is_newer_version "2.4.0" "2.5.0" = false /\ is_newer_version "2.5.0" "2.5.0" = false /\
  is_newer_version "v2.5.0" "2.4.0" = true /\ is_newer_version "2.5.0" "2.5.0-dev.1" = true /\
  is_newer_version "2.5.0-dev.1" "2.5.0" = false.
Proof. by vm_compute. Qed.

(** ** Asking for releases *)

Definition Fd : Set := Z.

(** What an HTTP reply has: the status with the text it prints as, the body
    (empty when it cannot be read) and the length it states. *)
Record Response : Set := { code : Z; status_text : string; text : string; content_length : option Z }.

Record FoundEntry : Set := { fe_path : string; fe_name : string; fe_is_file : bool }.

Inductive UpdCall : Set -> Set :=
| HttpGet (url : string) (accept : option string) : UpdCall (result string Response)
| NextChunk : UpdCall (option (result string (list Z)))
| TempDir : UpdCall string
| CreateFile (p : string) : UpdCall (result string Fd)
| WriteAll (fd : Fd) (bytes : list Z) : UpdCall (result string unit)
| Flush (fd : Fd) : UpdCall (result string unit)
| Progress (downloaded total : Z) : UpdCall unit
| CurrentExe : UpdCall (result string string)
| Exists (p : string) : UpdCall bool
| Rename (a b : string) : UpdCall (result string unit)
| Copy (a b : string) : UpdCall (result string unit)
| RemoveFile (p : string) : UpdCall (result string unit)
| GetMode (p : string) : UpdCall (result string Z)
| SetMode (p : string) (mode : Z) : UpdCall (result string unit)
| CreateDirAll (p : string) : UpdCall (result string unit)
| Unzip (archive dir : string) : UpdCall (result string unit)
| Untar (archive dir : string) : UpdCall (result string unit)
| WalkDir (dir : string) : UpdCall (list (result string FoundEntry)).

(** Programs of the updater: [self] gives the configuration. *)
Abbreviation UM := (SM UpdCall UpdaterConfig string) (only parsing).

Definition try_call {A : Set} (c : UpdCall (result string A)) : UM A := r ← call c; lift r.
(** [.context(msg)?]: the message hides the cause. *)
Definition try_context {A : Set} (msg : string) (c : UpdCall (result string A)) : UM A :=
  r ← call c; match r with Ok a => mret a | Err _ => throw msg end.

(** The JSON of the API (serde_json). *)
Class ReleaseJson := {
  parse_release : string -> result string GitHubRelease;
  parse_releases : string -> result string (list GitHubRelease) }.

Definition is_success (r : Response) : bool := (200 <=? code r) && (code r <=? 299).

Section Updater.
Context {J : ReleaseJson} (os : Os) (arch : Arch).

Definition github_json : option string := Some "application/vnd.github.v3+json".

(** A GET of the API: the text of a success. *)
Definition api_get (what url : string) : UM string :=
  response ← try_context what (HttpGet url github_json);
  if is_success response then mret (text response)
  else throw ("GitHub API error: " +:+ status_text response +:+ " - " +:+ text response).

Definition get_latest_release : UM ReleaseInfo :=
  r ← gets repo;
  json ← api_get "Failed to fetch latest release" (GITHUB_API_BASE +:+ "/repos/" +:+ r +:+ "/releases/latest");
  match parse_release json with
  | Ok release => mret (convert_release release)
  | Err _ => throw "Failed to parse release info"
  end.

Definition get_all_releases (limit : nat) : UM (list ReleaseInfo) :=
  r ← gets repo;
  json ← api_get "Failed to fetch releases"
    (GITHUB_API_BASE +:+ "/repos/" +:+ r +:+ "/releases?per_page=" +:+ show_uint (Z.of_nat limit));
  match parse_releases json with
  | Ok releases =>
      pre ← gets include_prerelease;
      mret (take limit (map convert_release (List.filter (fun r => pre || negb (g_prerelease r)) releases)))
  | Err _ => throw "Failed to parse releases"
  end.

(** The first asset whose name contains the pattern of the platform. *)
Definition find_asset (p : Product) (r : ReleaseInfo) : option ReleaseAsset :=
  List.find (fun a => contains (a_name a) (asset_pattern os arch p)) (assets r).

(** What [check_for_update] makes of the latest release. *)
Definition update_result (p : Product) (current : string) (latest : ReleaseInfo) : UpdateCheckResult :=
  let available := is_newer_version (version latest) current in
  let asset := if available then find_asset p latest else None in
  {| current_version := current; latest_release := if available then Some latest else None;
     update_available := available; download_url := browser_download_url <$> asset;
     asset_name := a_name <$> asset |}.

Definition check_for_update (p : Product) (current : string) : UM UpdateCheckResult :=
  latest ← get_latest_release; mret (update_result p current latest).

(** ** Download *)

Definition product_name (p : Product) : string := match p with Cli => "CLI" | Desktop => "Desktop" end.

(** The chunks of the body; [None]: more to come when the fuel is spent.
    [downloaded] counts in 64 bits. *)
Fixpoint save_chunks (fuel : nat) (fd : Fd) (progress : bool) (total downloaded : Z) : UM (option unit) :=
  match fuel with
  | O => mret None
  | S fuel =>
      next ← call NextChunk;
      match next with
      | None => mret (Some tt)
      | Some (Err _) => throw "Error reading download stream"
      | Some (Ok chunk) =>
          _ ← try_context "Failed to write to file" (WriteAll fd chunk);
          let downloaded := wrap_add u64_max downloaded (Z.of_nat (length chunk)) in
          _ ← if progress then call (Progress downloaded total) else mret tt;
          save_chunks fuel fd progress total downloaded
      end
  end.

Definition download_update (fuel : nat) (release : ReleaseInfo) (p : Product) (progress : bool) : UM (option string) :=
  asset ← or_throw ("No compatible asset found for " +:+ product_name p +:+ " on this platform (looking for '" +:+
                    asset_pattern os arch p +:+ "')") (find_asset p release);
  dir ← gets download_dir;
  dir ← match dir with Some d => mret d | None => call TempDir end;
  let download_path := path_join dir (a_name asset) in
  response ← try_context "Failed to start download" (HttpGet (browser_download_url asset) None);
  _ ← guard_m (is_success response) ("Download failed: HTTP " +:+ status_text response);
  let total := from_option id (size asset) (content_length response) in
  fd ← try_context "Failed to create download file" (CreateFile download_path);
  saved ← save_chunks fuel fd progress total 0;
  match saved with
  | None => mret None
  | Some _ => _ ← try_call (Flush fd); mret (Some download_path)
  end.

(** ** Installation *)

(** [with_extension]: the file name up to its extension, then the new one. *)
Definition with_extension (ext p : string) : string :=
  match path_parent p, file_stem p with
  | Some dir, Some stem => path_join dir (stem +:+ "." +:+ ext)
  | _, _ => p
  end.

(** The walk over the extracted files: the first file whose name contains
    omniedge. *)
Fixpoint first_binary (es : list (result string FoundEntry)) : result string (option string) :=
  match es with
  | [] => Ok None
  | Err e :: _ => Err e
  | Ok e :: es => if contains (fe_name e) "omniedge" && fe_is_file e then Ok (Some (fe_path e)) else first_binary es
  end.

(** [parent().unwrap()]: a path with an extension has a parent. *)
Definition extract_archive (archive : string) : UM string :=
  let dir := path_join (from_option id "" (path_parent archive)) "omniedge-extract" in
  _ ← try_call (CreateDirAll dir);
  let search : UM string :=
    es ← call (WalkDir dir);
    found ← lift (first_binary es);
    or_throw ("Could not find omniedge" +:+ exe_extension os +:+ " in extracted archive") found in
  match extension archive with
  | Some "zip" => _ ← try_call (Unzip archive dir); search
  | Some "gz" | Some "tar" => _ ← try_call (Untar archive dir); search
  | _ => mret archive
  end.

Definition has_extension (exts : list string) (p : string) : bool :=
  match extension p with Some e => bool_decide (e ∈ exts) | None => false end.

(** [install_cli_update] on unix. *)
Definition install_unix (downloaded : string) : UM unit :=
  current_exe ← try_context "Failed to get current executable path" CurrentExe;
  let backup := with_extension "old" current_exe in
  binary ← if has_extension ["tar"; "gz"] downloaded then extract_archive downloaded else mret downloaded;
  there ← call (Exists current_exe);
  _ ← if (there : bool) then try_context "Failed to backup current executable" (Rename current_exe backup) else mret tt;
  _ ← try_context "Failed to install new executable" (Copy binary current_exe);
  _ ← try_call (GetMode current_exe);
  try_call (SetMode current_exe 493).

(** [install_cli_update] on windows. *)
Definition install_windows (downloaded : string) : UM unit :=
  current_exe ← try_context "Failed to get current executable path" CurrentExe;
  let backup := with_extension "exe.old" current_exe in
  let temp_new := with_extension "exe.new" current_exe in
  binary ← if has_extension ["zip"] downloaded then extract_archive downloaded else mret downloaded;
  _ ← try_context "Failed to copy new executable" (Copy binary temp_new);
  there ← call (Exists backup);
  _ ← if (there : bool) then _ ← call (RemoveFile backup); mret tt else mret tt;
  _ ← try_context "Failed to backup current executable" (Rename current_exe backup);
  try_context "Failed to install new executable" (Rename temp_new current_exe).

(** Without the updater feature. *)
Definition install_disabled (downloaded : string) : UM unit :=
  throw "Self-update requires the 'updater' feature to be enabled".
End Updater.

(** ** Versions are ordered *)

(** The components, and whether it is a release. *)
Definition version_key (v : Version) : Z * Z * Z * Z :=
  let '(major, minor, patch, pre) := v in (major, minor, patch, match pre with None => 1 | Some _ => 0 end).

Definition key_lt (a b : Z * Z * Z * Z) : Prop :=
  let '(a1, a2, a3, a4) := a in
  let '(b1, b2, b3, b4) := b in
  a1 < b1 \/ (a1 = b1 /\ (a2 < b2 \/ (a2 = b2 /\ (a3 < b3 \/ (a3 = b3 /\ a4 < b4))))).

Lemma newer_lt l c : newer l c = true <-> key_lt (version_key c) (version_key l).
Proof.
  destruct l as [[[l1 l2] l3] lp], c as [[[c1 c2] c3] cp]. cbn.
  destruct (Z.compare_spec l1 c1), (Z.compare_spec l2 c2), (Z.compare_spec l3 c3); destruct lp, cp; subst;
    split; intros; try done; try lia.
Qed.

(** The comparison of versions is a strict order on the texts: it is
    lexicographic in the three numbers, with a release above its pre-releases;
    nothing is newer than itself, and texts neither of which is newer agree in
    the three numbers and in being a release. *)
Theorem newer_is_order :
  (forall a b, is_newer_version a b = true <-> key_lt (version_key (parse_version b)) (version_key (parse_version a))) /\
  (forall a, is_newer_version a a = false) /\
  (forall a b c, is_newer_version a b = true -> is_newer_version b c = true -> is_newer_version a c = true) /\
  (forall a b, is_newer_version a b = false -> is_newer_version b a = false ->
     version_key (parse_version a) = version_key (parse_version b)).
Proof.
  unfold is_newer_version. split; [intros a b; apply newer_lt|]. split; [|split].
  - intros a. apply not_true_iff_false. rewrite newer_lt. destruct (version_key _) as [[[? ?] ?] ?]. cbn. lia.
  - intros a b c. rewrite !newer_lt. destruct (version_key (parse_version a)) as [[[? ?] ?] ?],
      (version_key (parse_version b)) as [[[? ?] ?] ?], (version_key (parse_version c)) as [[[? ?] ?] ?]. cbn. lia.
  - intros a b Ha Hb. apply not_true_iff_false in Ha, Hb. rewrite newer_lt in Ha, Hb.
    destruct (version_key (parse_version a)) as [[[a1 a2] a3] a4], (version_key (parse_version b)) as [[[b1 b2] b3] b4].
    cbn in Ha, Hb. repeat f_equal; lia.
Qed.

Lemma newer_irrefl v : is_newer_version v v = false.
Proof. unfold is_newer_version. apply not_true_iff_false. rewrite newer_lt. destruct (version_key _) as [[[? ?] ?] ?]. cbn. lia. Qed.

(** A release is not offered to those who have it, and its asset is one of its
    own that names the platform. *)
Lemma offered_update os arch p current latest :
  update_available (update_result os arch p current latest) = is_newer_version (version latest) current /\
  update_available (update_result os arch p (version latest) latest) = false /\
  forall u, download_url (update_result os arch p current latest) = Some u ->
    exists a, a ∈ assets latest /\ browser_download_url a = u /\ contains (a_name a) (asset_pattern os arch p) = true.
Proof.
  split; [done|]. split; [apply newer_irrefl|]. intros u. cbn. destruct (is_newer_version _ _); [|done].
  unfold find_asset. destruct (List.find _ _) as [a|] eqn:E; [|done]. cbn. intros [= <-].
  apply find_some in E as [Hin Hc]. exists a. by rewrite list_elem_of_In.
Qed.

(** ** Installation on a disk *)

(** Files with their contents and modes; [refuses]: the calls that fail. *)
Record Disk : Type := { exe : string; files : gmap string (string * Z) }.

Section Install.
Context (refuses : forall R : Set, UpdCall R -> bool).

Definition disk_op {A : Set} (c : UpdCall (result string A)) (ok : option (A * gmap string (string * Z))) (w : Disk)
    : result string A * Disk :=
  if refuses _ c then (Err "refused", w)
  else match ok with
       | Some (a, fs) => (Ok a, {| exe := exe w; files := fs |})
       | None => (Err "no such file", w)
       end.

Definition disk (R : Set) (c : UpdCall R) (w : Disk) : R * Disk :=
  match c in UpdCall R return R * Disk with
  | CurrentExe => disk_op CurrentExe (Some (exe w, files w)) w
  | Exists p => (bool_decide (is_Some (files w !! p)), w)
  | Rename a b => disk_op (Rename a b) (f ← files w !! a; Some (tt, <[b := f]> (delete a (files w)))) w
  | Copy a b => disk_op (Copy a b) (f ← files w !! a; Some (tt, <[b := f]> (files w))) w
  | RemoveFile p => disk_op (RemoveFile p) (_ ← files w !! p; Some (tt, delete p (files w))) w
  | GetMode p => disk_op (GetMode p) (f ← files w !! p; Some (f.2, files w)) w
  | SetMode p m => disk_op (SetMode p m) (f ← files w !! p; Some (tt, <[p := (f.1, m)]> (files w))) w
  | CreateDirAll p => (Ok tt, w)
  | Unzip _ _ | Untar _ _ => (Err "not an archive", w)
  | WalkDir _ => ([], w)
  | TempDir => ("/tmp", w)
  | HttpGet _ _ => (Err "offline", w)
  | CreateFile _ => (Err "read only", w)
  | WriteAll _ _ | Flush _ => (Err "read only", w)
  | Progress _ _ => (tt, w)
  | NextChunk => (None, w)
  end.

Definition backup_of (w : Disk) : string := with_extension "old" (exe w).

(** the installation on unix moves the executable out of the way before
    it copies the new one, and never back: the old executable ends under the
    backup name in every case, and when the copy fails the program is gone from
    its place; otherwise the new contents are there, and the installation
    succeeds exactly if the mode could be read and set. *)
Theorem install_unix_fate w downloaded old conf :
  files w !! exe w = Some old -> has_extension ["tar"; "gz"] downloaded = false ->
  backup_of w <> exe w -> downloaded <> exe w -> downloaded <> backup_of w ->
  refuses _ CurrentExe = false -> refuses _ (Rename (exe w) (backup_of w)) = false ->
  let '((_, r), w') := run_prog disk (install_unix Linux downloaded conf) w in
  files w' !! backup_of w = Some old /\
  match files w !! downloaded, refuses _ (Copy downloaded (exe w)) with
  | Some new, false =>
      fst <$> files w' !! exe w = Some new.1 /\
      (is_ok r = negb (refuses _ (GetMode (exe w)) || refuses _ (SetMode (exe w) 493)))
  | _, _ => r = Err "Failed to install new executable" /\ files w' !! exe w = None
  end.
Proof.
  intros He Hx Hb Hd1 Hd2 Hc Hr. unfold install_unix, try_context, try_call. rewrite Hx. sm_unfold.
  fold (backup_of w). cbn -[with_extension backup_of disk_op]. unfold disk_op at 1. rewrite Hc.
  cbn -[with_extension backup_of disk_op]. fold (backup_of w). rewrite He, bool_decide_true by done.
  cbn -[with_extension backup_of disk_op]. unfold disk_op at 1. rewrite Hr, He. cbn -[with_extension backup_of disk_op].
  rewrite lookup_insert_ne, lookup_delete_ne by done. unfold disk_op at 1.
  destruct (refuses _ (Copy downloaded (exe w))) eqn:Hcp; cbn -[with_extension backup_of disk_op].
  { destruct (files w !! downloaded); (split; [by rewrite lookup_insert_eq|]); (split; [done|]);
      by rewrite lookup_insert_ne, lookup_delete_eq. }
  destruct (files w !! downloaded) as [new|] eqn:En; cbn -[with_extension backup_of disk_op];
    [|split; [by rewrite lookup_insert_eq|]; split; [done|]; by rewrite lookup_insert_ne, lookup_delete_eq].
  unfold disk_op. cbn [exe files]. destruct (refuses _ (GetMode (exe w))); cbn -[with_extension backup_of];
    [split; [by rewrite lookup_insert_ne, lookup_insert_eq|split; [by rewrite lookup_insert_eq|done]]|].
  rewrite lookup_insert_eq. cbn -[with_extension backup_of].
  unfold disk_op. destruct (refuses _ (SetMode (exe w) 493)); cbn -[with_extension backup_of].
  - split; [by rewrite lookup_insert_ne, lookup_insert_eq|split; [by rewrite lookup_insert_eq|done]].
  - rewrite lookup_insert_eq. cbn -[with_extension backup_of]. rewrite !lookup_insert_ne, lookup_insert_eq by done.
    split; [done|]. split; [|done]. by rewrite lookup_insert_eq.
Qed.

(** On windows the copy comes first: when it fails the program is untouched. *)
Theorem install_windows_copy_first w downloaded conf :
  has_extension ["zip"] downloaded = false -> refuses _ CurrentExe = false ->
  (files w !! downloaded = None \/ refuses _ (Copy downloaded (with_extension "exe.new" (exe w))) = true) ->
  run_prog disk (install_windows Windows downloaded conf) w = ((conf, Err "Failed to copy new executable"), w).
Proof.
  intros Hx Hc Hd. unfold install_windows, try_context, try_call. rewrite Hx. sm_unfold. cbn. unfold disk_op.
  rewrite Hc. cbn. unfold disk_op. destruct w as [x fs]; cbn in *.
  destruct (refuses _ (Copy _ _)); cbn; [done|]. destruct Hd as [->|?]; done.
Qed.
End Install.

(** ** Witnesses *)

Definition demo_disk : Disk := {| exe := "/usr/bin/omniedge"; files := {[
  "/usr/bin/omniedge" := ("v1", 493); "/tmp/omniedge-cli-linux-x86_64" := ("v2", 420) ]} |}.

(** A disk too full to copy to. *)
Definition full_disk (R : Set) (c : UpdCall R) : bool := match c with Copy _ _ => true | _ => false end.

Lemma install_unix_fate_witness :
  backup_of demo_disk = "/usr/bin/omniedge.old" /\
  let w' := (run_prog (disk full_disk) (install_unix Linux "/tmp/omniedge-cli-linux-x86_64" UpdaterConfig_default) demo_disk).2 in
  files w' !! "/usr/bin/omniedge.old" = Some ("v1", 493) /\ files w' !! "/usr/bin/omniedge" = None.
Proof.
  split; [by vm_compute|].
  pose proof (install_unix_fate full_disk demo_disk "/tmp/omniedge-cli-linux-x86_64" ("v1", 493) UpdaterConfig_default
    eq_refl eq_refl ltac:(by vm_compute) ltac:(by vm_compute) ltac:(by vm_compute) eq_refl eq_refl) as H.
  destruct (run_prog _ _ _) as [[s r] w']. exact (conj (proj1 H) (proj2 (proj2 H))).
Defined.
