(* ===== verification/Routing.v ===== *)
(** * Exit-node routing (omni-core/src/routing.rs)

    The commands by which a machine sends its traffic through an exit node and
    takes it back, on linux, macos and windows: programs over the commands of
    the system. *)

From Stdlib Require Import Ascii.
From S2P Require Import Prelude RustStr Net Effects.

Open Scope string_scope.
Open Scope list_scope.
Open Scope Z_scope.

(** What a command that could be started leaves. *)
Record Output : Set := { succeeded : bool; out : list Z; err : list Z }.

Inductive CmdCall : Set -> Set :=
| Run (name : string) (args : list string) : CmdCall (result string Output).

Abbreviation CM := (SM CmdCall unit string) (only parsing).

Definition FALLBACK_DNS : string := "8.8.8.8".

Section Routing.
(** The text of an argument list with its quotes ([{:?}]). *)
Context (debug_args : list string -> string).

Definition lossy (l : list Z) : string := bytes_string (from_utf8_lossy l).

Definition run_command (name : string) (args : list string) : CM string :=
  r ← call (Run name args);
  match r with
  | Ok o => if succeeded o then mret (lossy (out o))
            else throw ("Command " +:+ name +:+ " " +:+ debug_args args +:+ " failed: " +:+ lossy (err o))
  | Err e => throw ("Failed to execute command " +:+ name +:+ " " +:+ debug_args args +:+ ": " +:+ e)
  end.

(** [let _ = Self::run_command(..)]. *)
Definition try_command (name : string) (args : list string) : CM unit := _ ← attempt (run_command name args); mret tt.
Definition sh (script : string) : CM string := run_command "sh" ["-c"; script].
Definition powershell (script : string) : CM string := run_command "powershell" ["-Command"; script].

(** ** The name server *)

Definition is_valid_ip (s : string) : bool := bool_decide (is_Some (parse_ip s)).

(** One way to ask: the trimmed output if it is an address. *)
Definition ask_dns (ask : CM string) : CM (option string) :=
  r ← attempt ask;
  mret (match r with
        | Ok output =>
            let dns := trim output in
            if negb (bool_decide (dns = "")) && is_valid_ip dns then Some dns else None
        | Err _ => None
        end).

Definition detect_linux : CM (option string) :=
  first ← ask_dns (sh "resolvectl status 2>/dev/null | grep 'Current DNS Server' | head -1 | awk '{print $NF}'");
  match first with
  | Some dns => mret (Some dns)
  | None => ask_dns (sh "grep -m1 '^nameserver' /etc/resolv.conf | awk '{print $2}'")
  end.

Definition detect_macos : CM (option string) :=
  ask_dns (sh "scutil --dns | grep 'nameserver\[0\]' | head -1 | awk '{print $3}'").

Definition detect_windows : CM (option string) :=
  ask_dns (powershell "Get-DnsClientServerAddress -AddressFamily IPv4 | Where-Object { $_.ServerAddresses } | Select-Object -First 1 -ExpandProperty ServerAddresses | Select-Object -First 1").

Definition get_dns_server (detect_system_dns : CM (option string)) : CM string :=
  d ← detect_system_dns; mret (from_option id FALLBACK_DNS d).

(** ** The primary interface *)

Definition named (what : string) (ask : CM string) : CM string :=
  o ← ask;
  let iface := trim o in
  if bool_decide (iface = "") then throw what else mret iface.

Definition get_primary_interface_linux : CM string :=
  named "Could not detect primary Linux interface" (sh "ip route get 8.8.8.8 | grep -oP 'dev \K\S+'").
Definition get_primary_interface_macos : CM string :=
  named "Could not detect primary macOS interface" (sh "route -n get default | grep interface | awk '{print $2}'").
Definition get_primary_interface_windows : CM string :=
  named "Could not detect primary Windows interface"
    (powershell "Get-NetIPInterface -AddressFamily IPv4 -ConnectionState Connected | Sort-Object InterfaceMetric | Select-Object -First 1 -ExpandProperty InterfaceAlias").

(** ** Linux *)

Definition resolvectl_there : CM bool := r ← attempt (sh "command -v resolvectl"); mret (is_ok r).

Definition dquote : string := String "034" "".

Definition setup_dns_linux (iface : string) : CM unit :=
  dns_server ← get_dns_server detect_linux;
  modern ← resolvectl_there;
  if (modern : bool) then
    _ ← try_command "sudo" ["resolvectl"; "dns"; iface; dns_server];
    try_command "sudo" ["resolvectl"; "domain"; iface; "~."]
  else
    link ← attempt (sh "test -L /etc/resolv.conf");
    _ ← if is_ok link then mret tt
        else try_command "sudo" ["cp"; "/etc/resolv.conf"; "/etc/resolv.conf.omniedge_bak"];
    _ ← sh ("echo " +:+ dquote +:+ "nameserver " +:+ dns_server +:+ dquote +:+ " | sudo tee /etc/resolv.conf");
    mret tt.

(** The host without a port. *)
Definition host_part (nucleus_host : string) : string :=
  match find_char ":" nucleus_host with Some pos => take_str pos nucleus_host | None => nucleus_host end.

Definition first_address (output : string) : option string := l ← first_line output; head (split_whitespace l).

Definition route_nucleus (nucleus_ip gateway iface : string) : list string :=
  ["ip"; "route"; "add"; nucleus_ip; "via"; gateway; "dev"; iface].
Definition delete_default (iface : string) : list string := ["ip"; "route"; "del"; "default"; "dev"; iface].
Definition add_default (exit_node_ip : string) : list string := ["ip"; "route"; "add"; "default"; "via"; exit_node_ip].

(** The route of IPv6, whose failures are only logged. *)
Definition route_v6_linux (v6 : option string) : CM unit :=
  match v6 with
  | Some exit_v6 =>
      _ ← try_command "sudo" ["ip"; "-6"; "route"; "del"; "default"];
      try_command "sudo" ["ip"; "-6"; "route"; "add"; "default"; "via"; exit_v6]
  | None => mret tt
  end.

Definition setup_linux (exit_node_ip : string) (v6 : option string) (nucleus_host : string) : CM unit :=
  output ← run_command "getent" ["ahosts"; host_part nucleus_host];
  nucleus_ip ← or_throw "Failed to resolve nucleus host" (first_address output);
  iface ← get_primary_interface_linux;
  gateway_output ← sh ("ip route show dev " +:+ iface +:+ " | head -n1 | awk '{print $3}'");
  let original_gateway := trim gateway_output in
  _ ← guard_m (negb (bool_decide (original_gateway = "")))
        ("Could not determine current gateway for interface " +:+ iface);
  _ ← run_command "sudo" (route_nucleus nucleus_ip original_gateway iface);
  _ ← try_command "sudo" (delete_default iface);
  _ ← run_command "sudo" (add_default exit_node_ip);
  _ ← route_v6_linux v6;
  setup_dns_linux iface.

Definition restore_dns_linux : CM unit :=
  iface ← attempt get_primary_interface_linux;
  modern ← match iface with Ok _ => resolvectl_there | Err _ => mret false end;
  match iface, modern with
  | Ok iface, true => try_command "sudo" ["resolvectl"; "revert"; iface]
  | _, _ =>
      backup ← attempt (sh "test -f /etc/resolv.conf.omniedge_bak");
      if is_ok backup then
        _ ← run_command "sudo" ["mv"; "/etc/resolv.conf.omniedge_bak"; "/etc/resolv.conf"]; mret tt
      else mret tt
  end.

Definition restore_linux : CM unit :=
  _ ← try_command "sudo" ["ip"; "-6"; "route"; "del"; "default"];
  restore_dns_linux.

(** ** macOS *)

Definition setup_dns_macos (iface : string) : CM unit :=
  dns_server ← get_dns_server detect_macos;
  service_out ← sh ("networksetup -listallhardwareports | grep -B 1 " +:+ iface +:+ " | head -n 1 | cut -d ' ' -f 3-");
  let service := trim service_out in
  _ ← guard_m (negb (bool_decide (service = ""))) ("Could not find network service for interface " +:+ iface);
  _ ← run_command "sudo" ["networksetup"; "-setdnsservers"; service; dns_server];
  mret tt.

Definition setup_macos (exit_node_ip : string) (v6 : option string) (nucleus_host : string) : CM unit :=
  iface ← get_primary_interface_macos;
  first ← attempt (sh ("networksetup -getadditionalroutes " +:+ iface +:+ " | head -n1 | awk '{print $3}'"));
  gateway_output ← match first with
                   | Ok o => mret o
                   | Err _ => sh "route -n get default | grep gateway | awk '{print $2}'"
                   end;
  let original_gateway := trim gateway_output in
  _ ← guard_m (negb (bool_decide (original_gateway = ""))) "Could not determine current gateway";
  _ ← run_command "sudo" ["route"; "-n"; "add"; "-net"; nucleus_host; original_gateway];
  _ ← try_command "sudo" ["route"; "delete"; "default"];
  _ ← run_command "sudo" ["route"; "-n"; "add"; "-net"; "0.0.0.0"; exit_node_ip];
  _ ← match v6 with
      | Some exit_v6 =>
          _ ← try_command "sudo" ["route"; "-n"; "delete"; "-inet6"; "default"];
          try_command "sudo" ["route"; "-n"; "add"; "-inet6"; "default"; exit_v6]
      | None => mret tt
      end;
  setup_dns_macos iface.

Definition restore_dns_macos : CM unit :=
  service_out ← sh "networksetup -listallnetworkservices | grep -v '*' | head -n 1";
  let service := trim service_out in
  if bool_decide (service = "") then mret tt
  else _ ← run_command "sudo" ["networksetup"; "-setdnsservers"; service; "Empty"]; mret tt.

Definition restore_macos : CM unit :=
  _ ← try_command "sudo" ["route"; "-n"; "delete"; "-inet6"; "default"];
  restore_dns_macos.

(** ** Windows *)

Definition get_interface_index (alias : string) : CM string :=
  named ("Could not get interface index for " +:+ alias)
    (powershell ("Get-NetAdapter -Name '" +:+ alias +:+ "' | Select-Object -ExpandProperty ifIndex")).

Definition setup_dns_windows (iface : string) : CM unit :=
  dns_server ← get_dns_server detect_windows;
  try_command "netsh" ["interface"; "ip"; "set"; "dns"; iface; "static"; dns_server].

Definition route_v6_windows (iface : string) (v6 : option string) : CM unit :=
  match v6 with
  | Some exit_v6 =>
      idx ← attempt (get_interface_index iface);
      let iface_idx := match idx with Ok i => i | Err _ => iface end in
      _ ← try_command "route" ["-6"; "delete"; "::/0"];
      r ← attempt (powershell ("New-NetRoute -DestinationPrefix '::/0' -NextHop '" +:+ exit_v6 +:+
             "' -InterfaceAlias '" +:+ iface +:+ "' -PolicyStore ActiveStore -ErrorAction SilentlyContinue"));
      match r with
      | Ok _ => mret tt
      | Err _ => try_command "route" ["-6"; "ADD"; "::/0"; exit_v6; "IF"; iface_idx]
      end
  | None => mret tt
  end.

Definition setup_windows (exit_node_ip : string) (v6 : option string) (nucleus_host : string) : CM unit :=
  iface ← get_primary_interface_windows;
  _ ← try_command "route" ["delete"; "0.0.0.0"];
  _ ← run_command "route" ["ADD"; "0.0.0.0"; "MASK"; "0.0.0.0"; exit_node_ip; "IF"; iface];
  _ ← route_v6_windows iface v6;
  setup_dns_windows iface.

Definition restore_dns_windows : CM unit :=
  _ ← try_command "netsh" ["interface"; "ip"; "set"; "dns"; "Ethernet"; "dhcp"];
  try_command "netsh" ["interface"; "ip"; "set"; "dns"; "Wi-Fi"; "dhcp"].

Definition restore_windows : CM unit :=
  _ ← attempt (powershell "Remove-NetRoute -DestinationPrefix '::/0' -PolicyStore ActiveStore -Confirm:$false -ErrorAction SilentlyContinue");
  _ ← try_command "route" ["-6"; "delete"; "::/0"];
  restore_dns_windows.

(** ** By platform *)

Inductive Os : Set := LinuxOs | MacOs | WindowsOs | OtherOs.

Definition setup_exit_node (os : Os) (exit_node_ip : string) (v6 : option string) (nucleus_host : string) : CM unit :=
  match os with
  | LinuxOs => setup_linux exit_node_ip v6 nucleus_host
  | MacOs => setup_macos exit_node_ip v6 nucleus_host
  | WindowsOs => setup_windows exit_node_ip v6 nucleus_host
  | OtherOs => throw "Exit node not supported on this OS"
  end.

Definition restore_exit_node (os : Os) : CM unit :=
  match os with
  | LinuxOs => restore_linux | MacOs => restore_macos | WindowsOs => restore_windows | OtherOs => mret tt
  end.
End Routing.

(** ** What the commands do *)

Section Facts.
Context (debug_args : list string -> string).
Abbreviation run_command := (run_command debug_args).

(** A command that succeeds, as the system answers. *)
Definition command_ok (answer : forall R : Set, CmdCall R -> R) (name : string) (args : list string) : bool :=
  match answer _ (Run name args) with Ok o => succeeded o | Err _ => false end.

Section Hoare.
Context (answer : forall R : Set, CmdCall R -> R).
Context (P : forall R : Set, CmdCall R -> Prop).
Abbreviation ahoare := (hoare P (fun R c r => r = answer R c)) (only parsing).

Lemma hoare_run name args s Q :
  P _ (Run name args) ->
  (forall o, answer _ (Run name args) = Ok o -> command_ok answer name args = true -> Q s (Ok (lossy (out o)))) ->
  (forall e, command_ok answer name args = false -> Q s (Err e)) -> ahoare (run_command name args) s Q.
Proof.
  intros Hp H1 H2. unfold Routing.run_command. sm_step. sm_step; [done|]. subst. unfold command_ok in *.
  destruct (answer _ (Run name args)) as [o|e] eqn:Ea; [destruct (succeeded o) eqn:Es|];
    unfold throw, mret, SM_ret, hoare; simpl; auto.
Qed.

Lemma hoare_try_command name args s Q :
  P _ (Run name args) -> Q s (Ok tt) -> ahoare (try_command debug_args name args) s Q.
Proof. intros Hp Hq. unfold try_command. sm_step. sm_step. by apply hoare_run. Qed.
End Hoare.

(** *** The name server *)

(** whatever the commands print, the name server the setup uses is the
    text of an IP address, on every platform: what ends in command lines and
    scripts is never other text. *)
Theorem dns_server_is_address detect s :
  detect = detect_linux debug_args \/ detect = detect_macos debug_args \/ detect = detect_windows debug_args ->
  hoare (fun _ _ => True) (fun _ _ _ => True) (get_dns_server detect) s
    (fun _ r => exists d, r = Ok d /\ is_valid_ip d = true).
Proof.
  assert (Hask : forall ask s, hoare (fun _ _ => True) (fun _ _ _ => True) (ask_dns ask) s
    (fun _ r => exists o, r = Ok o /\ forall d, o = Some d -> is_valid_ip d = true)).
  { intros ask s0. unfold ask_dns. sm_step. apply hoare_attempt. eapply hoare_mono; [apply hoare_any|].
    intros s' [o|e] _; cbv beta iota; apply hoare_ret; eexists; (split; [done|]); [|done].
    intros d. cbv zeta. destruct (negb _ && is_valid_ip (trim o)) eqn:E; [|done]. intros [= <-].
    by apply andb_true_iff in E as [_ ?]. }
  assert (Hfb : is_valid_ip FALLBACK_DNS = true) by (by vm_compute).
  intros Hd. unfold get_dns_server. sm_step. eapply (hoare_mono _ _ _ _ (fun _ r => exists o, r = Ok o /\ forall d, o = Some d -> is_valid_ip d = true)).
  - destruct Hd as [->|[->| ->]]; [|apply Hask..]. unfold detect_linux. sm_step. eapply hoare_mono; [apply Hask|].
    intros s1 r (o & -> & Ho). cbv beta iota. destruct o as [d|]; [apply hoare_ret; by eexists|apply Hask].
  - intros s1 r (o & -> & Ho). cbv beta iota. apply hoare_ret. eexists. split; [done|]. destruct o as [d|]; [by apply Ho|done].
Qed.

(** *** Setting up the exit node on linux *)

Definition always : forall R : Set, CmdCall R -> Prop := fun _ _ => True.

(** What must be in place before the default route goes. *)
Definition nucleus_reachable (answer : forall R : Set, CmdCall R -> R) (nucleus_host iface : string) : Prop :=
  exists nucleus_ip gateway output,
    answer _ (Run "getent" ["ahosts"; host_part nucleus_host]) = Ok output /\
    first_address (lossy (out output)) = Some nucleus_ip /\ gateway <> "" /\
    command_ok answer "sudo" (route_nucleus nucleus_ip gateway iface) = true.

(** The command line of a call. *)
Definition command_line {R} (c : CmdCall R) : string * list string := match c with Run name args => (name, args) end.

Definition guarded (answer : forall R : Set, CmdCall R -> R) (nucleus_host : string) (R : Set) (c : CmdCall R) : Prop :=
  forall iface, command_line c = ("sudo", delete_default iface) -> nucleus_reachable answer nucleus_host iface.

Lemma guarded_other answer host name args :
  (name <> "sudo" \/ forall iface, args <> delete_default iface) -> guarded answer host _ (Run name args).
Proof. intros H iface [= -> ->]. destruct H as [H|H]; [done|by destruct (H iface)]. Qed.

Ltac other := apply guarded_other; first [left; discriminate | right; intros ?; discriminate].

Section Setup.
Context (answer : forall R : Set, CmdCall R -> R) (host : string).
Abbreviation ghoare := (hoare (guarded answer host) (fun R c r => r = answer R c)) (only parsing).

Lemma ask_dns_guarded script s Q : (forall r, Q s (Ok r)) -> ghoare (ask_dns (sh debug_args script)) s Q.
Proof.
  intros HQ. unfold ask_dns. sm_step. apply hoare_attempt. unfold sh.
  apply hoare_run; [other| |]; intros; by apply hoare_ret.
Qed.

Lemma dns_guarded iface s Q : (forall r, Q s r) -> ghoare (setup_dns_linux debug_args iface) s Q.
Proof.
  intros HQ. unfold setup_dns_linux. sm_step. unfold get_dns_server, detect_linux. sm_step. sm_step.
  apply ask_dns_guarded. intros first. cbv beta iota.
  eapply (hoare_mono _ _ _ _ (fun s' r => s' = s /\ is_ok r = true)).
  { destruct first; [by apply hoare_ret|]. by apply ask_dns_guarded. }
  intros s1 [d|e] [-> _]; [|by apply HQ]. cbv beta iota. apply hoare_ret. cbv beta iota.
  sm_step. unfold resolvectl_there. sm_step. apply hoare_attempt. unfold sh.
  apply hoare_run; [other| |]; intros; apply hoare_ret; cbn [is_ok]; cbv beta iota.
  - sm_step. apply hoare_try_command; [other|]. by apply hoare_try_command; [other|].
  - sm_step. apply hoare_attempt. apply hoare_run; [other| |]; intros; cbn [is_ok]; cbv beta iota; sm_step.
    + apply hoare_ret. sm_step. apply hoare_run; [other|intros; by apply hoare_ret|auto].
    + apply hoare_try_command; [other|]. sm_step. apply hoare_run; [other|intros; by apply hoare_ret|auto].
Qed.

Lemma v6_guarded v6 s (Q : unit -> result string unit -> Prop) : Q s (Ok tt) -> ghoare (route_v6_linux debug_args v6) s Q.
Proof.
  intros HQ. unfold route_v6_linux. destruct v6 as [x|]; [|by apply hoare_ret].
  sm_step. apply hoare_try_command; [other|]. by apply hoare_try_command; [other|].
Qed.

Lemma setup_guarded exit_node_ip v6 :
  ghoare (setup_linux debug_args exit_node_ip v6 host) tt (fun _ _ => True).
Proof.
  unfold setup_linux. sm_step. apply hoare_run; [other| |done]. intros output Ho _. cbv beta iota.
  sm_step. sm_step; [|done]. cbv beta iota. rename a into nucleus_ip, H into Hip.
  sm_step. unfold get_primary_interface_linux, named, sh. sm_step. apply hoare_run; [other| |done]. intros o1 _ _. cbv beta iota zeta.
  set (iface := trim (lossy (out o1))). destruct (bool_decide (iface = "")); [done|]. apply hoare_ret. cbv beta iota.
  sm_step. apply hoare_run; [other| |done]. intros o2 _ _. cbv beta iota zeta. set (gateway := trim (lossy (out o2))).
  sm_step. sm_step; [|done]. cbv beta iota. rename H into Hgw. apply negb_true_iff, bool_decide_eq_false in Hgw.
  sm_step. apply hoare_run; [other| |done]. intros o3 _ Hok. cbv beta iota.
  sm_step. apply hoare_try_command.
  { intros i [= <-]. exists nucleus_ip, gateway, output. done. }
  cbv beta iota. sm_step. apply hoare_run; [other| |done]. intros o4 _ _. cbv beta iota.
  sm_step. apply v6_guarded. cbv beta iota. by apply dns_guarded.
Qed.

(** Claim C22: on linux the default route is deleted only when the nucleus has
    been resolved and the route to it through the present gateway has been added
    with success: the way to the server is never cut. *)
Theorem default_route_deleted_last exit_node_ip v6 iface :
  existT _ (Run "sudo" (delete_default iface)) ∈ calls answer (setup_linux debug_args exit_node_ip v6 host) tt ->
  nucleus_reachable answer host iface.
Proof. intros Hc. by apply (hoare_calls _ _ _ _ _ (setup_guarded exit_node_ip v6) _ Hc). Qed.

Lemma run_try_command name args s log :
  exists log', run_prog (logged answer) (try_command debug_args name args s) log = ((s, Ok tt), log').
Proof.
  unfold try_command, Routing.run_command. sm_unfold. cbn.
  destruct (answer _ (Run name args)) as [o|e]; [destruct (succeeded o)|]; cbn; by eexists.
Qed.

Lemma run_v6 v6 s : exists log, (run_prog (logged answer) (route_v6_linux debug_args v6 s) []) = ((s, Ok tt), log).
Proof.
  unfold route_v6_linux. destruct v6 as [x|]; [|by eexists]. rewrite run_sm_bind.
  edestruct run_try_command as [log ->]. edestruct run_try_command as [log' ->]. by eexists.
Qed.

(** the exit node of IPv4 does not depend on IPv6: whatever the commands
    for it answer, the setup has the result it has without. *)
Theorem v6_is_optional exit_node_ip v6 :
  returns answer (setup_linux debug_args exit_node_ip v6 host) tt =
  returns answer (setup_linux debug_args exit_node_ip None host) tt.
Proof.
  unfold setup_linux. do 8 (apply returns_cong; intros ? []). rewrite !returns_bind.
  destruct (run_v6 v6 tt) as [log ->]. destruct (run_v6 None tt) as [log' ->]. done.
Qed.

Lemma run_cmd name args log :
  (exists o, run_prog (logged answer) (run_command name args tt) log = ((tt, Ok o), log ++ [existT _ (Run name args)])) \/
  (exists e, run_prog (logged answer) (run_command name args tt) log = ((tt, Err e), log ++ [existT _ (Run name args)])).
Proof.
  unfold Routing.run_command. sm_unfold. cbn.
  destruct (answer _ (Run name args)) as [o|e]; [destruct (succeeded o)|]; cbn; [left|right..]; by eexists.
Qed.

Lemma run_failing name args log :
  command_ok answer name args = false ->
  exists e, run_prog (logged answer) (run_command name args tt) log = ((tt, Err e), log ++ [existT _ (Run name args)]).
Proof.
  unfold command_ok, Routing.run_command. sm_unfold. cbn.
  destruct (answer _ (Run name args)) as [o|e]; [destruct (succeeded o)|]; cbn; [done|by eexists..].
Qed.

(** A call that is none of those made. *)
Ltac not_there :=
  let H := fresh in
  intros H; exfalso; cbn [snd app] in H;
  repeat (apply elem_of_cons in H as [H|H]; [apply (f_equal (fun c => command_line (projT2 c))) in H; discriminate H|]);
  by apply elem_of_nil in H.

(** when the default route of the exit node cannot be added, the setup
    ends there: nothing brings back the default route that was deleted. *)
Theorem failed_setup_not_undone exit_node_ip v6 :
  (exists iface, existT _ (Run "sudo" (delete_default iface)) ∈ calls answer (setup_linux debug_args exit_node_ip v6 host) tt) ->
  command_ok answer "sudo" (add_default exit_node_ip) = false ->
  is_ok (returns answer (setup_linux debug_args exit_node_ip v6 host) tt) = false /\
  exists before, calls answer (setup_linux debug_args exit_node_ip v6 host) tt =
    before ++ [existT _ (Run "sudo" (add_default exit_node_ip))].
Proof.
  intros [iface Hdel] Hadd. revert Hdel. unfold calls, returns, setup_linux, get_primary_interface_linux, named, sh.
  rewrite !run_sm_bind. destruct (run_cmd "getent" ["ahosts"; host_part host] []) as [[o ->]|[e ->]]; cbv beta iota;
    [|by not_there].
  rewrite !run_sm_bind. unfold or_throw. destruct (first_address o) as [ip|]; cbn [run_prog throw mret SM_ret]; [|by not_there].
  rewrite !run_sm_bind. edestruct run_cmd as [[o1 ->]|[e ->]]; cbv beta iota zeta; [|by not_there].
  destruct (bool_decide (trim o1 = "")); cbn [run_prog throw mret SM_ret]; [by not_there|].
  rewrite !run_sm_bind. edestruct run_cmd as [[o2 ->]|[e ->]]; cbv beta iota zeta; [|by not_there].
  rewrite !run_sm_bind. unfold guard_m. destruct (negb _); cbn [run_prog throw mret SM_ret]; [|by not_there].
  rewrite !run_sm_bind. edestruct run_cmd as [[o3 ->]|[e ->]]; cbv beta iota; [|by not_there].
  intros _. rewrite !run_sm_bind. edestruct run_try_command as [l ->]. rewrite !run_sm_bind.
  destruct (run_failing _ _ l Hadd) as [e ->]. split; [done|by eexists].
Qed.
(** Taking the exit node back on linux touches no route of IPv4: the
    default route through the exit node stays, and the one before it does not
    come back. *)
Theorem restore_leaves_ipv4 :
  Forall (fun c => forall rest, command_line (projT2 c) <> ("sudo", "ip" :: "route" :: rest))
    (calls answer (restore_linux debug_args) tt).
Proof.
  apply Forall_forall. eapply (hoare_calls answer (fun R c => forall rest, command_line c <> ("sudo", "ip" :: "route" :: rest)) _ _ (fun _ _ => True)).
  unfold restore_linux. sm_step. apply hoare_try_command; [done|]. cbv beta iota. unfold restore_dns_linux.
  sm_step. sm_step. unfold get_primary_interface_linux, named, sh. sm_step.
  assert (Hrest : forall (o : option string), hoare (fun R c => forall rest, command_line c <> ("sudo", "ip" :: "route" :: rest))
    (fun R c r => r = answer R c)
    (match o with
     | Some iface => try_command debug_args "sudo" ["resolvectl"; "revert"; iface]
     | None => backup ← attempt (run_command "sh" ["-c"; "test -f /etc/resolv.conf.omniedge_bak"]);
         if is_ok backup then _ ← run_command "sudo" ["mv"; "/etc/resolv.conf.omniedge_bak"; "/etc/resolv.conf"]; mret tt
         else mret tt
     end) tt (fun _ _ => True)).
  { intros [iface|]; [by apply hoare_try_command|]. sm_step. sm_step. apply hoare_run; [done| |]; intros; cbn [is_ok]; cbv beta iota; [|done].
    sm_step. by apply hoare_run. }
  apply hoare_run; [done|intros o _ _|intros e _]; cbv beta iota zeta.
  - case_bool_decide; (apply hoare_throw || apply hoare_ret); cbv beta iota; sm_step.
    + apply hoare_ret. cbv beta iota. apply (Hrest None).
    + unfold resolvectl_there, sh. sm_step. sm_step. apply hoare_run; [done| |]; intros; apply hoare_ret; cbn [is_ok]; cbv beta iota.
      * apply (Hrest (Some (trim (lossy (out o))))).
      * apply (Hrest None).
  - sm_step. apply hoare_ret. cbv beta iota. apply (Hrest None).
Qed.
End Setup.
End Facts.

(** ** Witnesses *)

Definition quiet (args : list string) : string := "".

(** A machine where everything works except, if [stuck], adding the route to
    the exit node. *)
Definition demo_answer (stuck : bool) (R : Set) (c : CmdCall R) : R :=
  match c in CmdCall R return R with
  | Run name args =>
      let reply := string_bytes (if bool_decide (name = "getent") then "203.0.113.7 STREAM" else "192.168.1.1") in
      Ok {| succeeded := negb (stuck && bool_decide (args = add_default "10.0.0.9")); out := reply; err := [] |}
  end.

Lemma demo_deletes stuck :
  existT _ (Run "sudo" (delete_default "192.168.1.1")) ∈ calls (demo_answer stuck) (setup_linux quiet "10.0.0.9" None "nucleus:443") tt.
Proof.
  apply list_elem_of_lookup. exists 4%nat. destruct stuck; by vm_compute.
Qed.

Lemma dns_server_is_address_witness :
  hoare (fun _ _ => True) (fun _ _ _ => True) (get_dns_server (detect_linux quiet)) tt
    (fun _ r => exists d, r = Ok d /\ is_valid_ip d = true) /\
  returns (demo_answer false) (get_dns_server (detect_linux quiet)) tt = Ok "192.168.1.1".
Proof. split; [apply (dns_server_is_address quiet); by left|by vm_compute]. Defined.

Lemma default_route_deleted_last_witness : nucleus_reachable (demo_answer false) "nucleus:443" "192.168.1.1".
Proof. exact (default_route_deleted_last quiet (demo_answer false) "nucleus:443" "10.0.0.9" None "192.168.1.1" (demo_deletes false)). Defined.

Lemma failed_setup_not_undone_witness :
  is_ok (returns (demo_answer true) (setup_linux quiet "10.0.0.9" None "nucleus:443") tt) = false.
Proof.
  apply (failed_setup_not_undone quiet (demo_answer true) "nucleus:443" "10.0.0.9" None).
  - exists "192.168.1.1". exact (demo_deletes true).
  - by vm_compute.
Defined.
