(* ===== verification/Tunnel.v ===== *)
(** * The tunnel (omni-tun/src/lib.rs)

    The device of the VPN: its name, its addresses and routes, and the peers it
    knows.  The WireGuard interface (the omninervous crate), the commands of the
    system and the clock are effects.  The builds for linux and macos, without
    the feature for layer 2. *)

From Stdlib Require Import Ascii.
From S2P Require Import Prelude RustStr Net Effects.
From S2P Require Routing.

Open Scope string_scope.
Open Scope list_scope.
Open Scope Z_scope.

(** ** The data *)

Inductive WgMode : Set := Auto | Kernel | Userspace.
Definition should_use_kernel (mode : WgMode) : bool := false.

Definition WG_TUNNEL_EXPIRY_SECS : Z := 300.

Record PeerConfig : Set := { endpoint : option SocketAddr; allowed_ips : list string }.

Record OmniTun : Set := {
  ifname : string; actual_ifname : option string; vip : option string; wg_mode : WgMode;
  known_peers : gmap string PeerConfig }.

(** The time of the last handshake, of the statistics of a peer. *)
Record PeerStats : Set := { last_handshake : option Z }.

(** The interface, the commands, the clock ([SystemTime::now], nanoseconds) and
    the order in which a map is walked. *)
Inductive TunCall : Set -> Set :=
| SetupInterface (vip : string) (vip_v6 : option string) (port : Z) (key : string) (mtu : Z) :
    TunCall (result string unit)
| GetPeerStats (key : string) : TunCall (option PeerStats)
| SetPeer (key : string) (e : option SocketAddr) (ips : list string) (keepalive : option Z) :
    TunCall (result string unit)
| StartLoop : TunCall (result string unit)
| HandleIncoming (packet : list Z) (src : SocketAddr) : TunCall (result string unit)
| Shutdown : TunCall unit
| SoftShutdown : TunCall unit
| IsTunActive : TunCall bool
| RunCmd (name : string) (args : list string) : TunCall (result string Routing.Output)
| Now : TunCall Z
| KeyOrder (keys : gset string) : TunCall (list string).

Abbreviation TM := (SM TunCall OmniTun string) (only parsing).

Definition new_with_mode (name : string) (mode : WgMode) (linux : bool) : OmniTun :=
  let use_kernel := should_use_kernel mode in {|
  ifname := name; actual_ifname := None; vip := None;
  wg_mode := if use_kernel && linux then Kernel else Userspace; known_peers := ∅ |}.
Definition new_userspace (name : string) : OmniTun := {|
  ifname := name; actual_ifname := None; vip := None; wg_mode := Userspace; known_peers := ∅ |}.
Definition is_kernel_mode (t : OmniTun) : bool := match wg_mode t with Kernel => true | _ => false end.

Definition set_vip (v : string) (t : OmniTun) : OmniTun := {|
  ifname := ifname t; actual_ifname := actual_ifname t; vip := Some v; wg_mode := wg_mode t;
  known_peers := known_peers t |}.
Definition learn_peer (key : string) (c : PeerConfig) (t : OmniTun) : OmniTun := {|
  ifname := ifname t; actual_ifname := actual_ifname t; vip := vip t; wg_mode := wg_mode t;
  known_peers := <[key := c]> (known_peers t) |}.

(** [res.map_err(|e| anyhow!("{what}: {e}"))]. *)
Definition failing (what : string) (c : TunCall (result string unit)) : TM unit :=
  r ← call c; match r with Ok u => mret u | Err e => throw (what +:+ ": " +:+ e) end.

(** ** The name of the interface *)

Section Interface.
(** [macos]: the build; [wide]: [char::is_alphanumeric] beyond ASCII, on the
    bytes of the character. *)
Context (macos : bool) (wide : list Z -> bool).

(** The name a shell pipeline prints, if it is one of a utun. *)
Definition ask_utun (script : string) : TM (option string) :=
  r ← call (RunCmd "sh" ["-c"; script]);
  mret (match r with
        | Ok o =>
            if Routing.succeeded o then
              let name := trim (Routing.lossy (Routing.out o)) in
              if negb (bool_decide (name = "")) && starts_with name "utun" then Some name else None
            else None
        | Err _ => None
        end).
Definition find_script (target_ip : string) : string :=
  "ifconfig | grep -B5 'inet " +:+ target_ip +:+ "' | grep -E '^utun[0-9]+:' | head -1 | cut -d: -f1".
Definition find_interface_by_ip (target_ip : string) : TM (option string) := ask_utun (find_script target_ip).
Definition find_utun_with_omniedge_ip : TM (option string) :=
  ask_utun "ifconfig | grep -B1 'inet 100\.' | grep -E '^utun[0-9]+:' | head -1 | cut -d: -f1".

Definition get_interface_name : TM string :=
  t ← gets id;
  if negb (bool_decide (ifname t = "")) then mret (ifname t)
  else if macos then
    first ← match vip t with Some v => find_interface_by_ip v | None => mret None end;
    match first with
    | Some name => mret name
    | None =>
        second ← find_utun_with_omniedge_ip;
        mret (match second with Some name => name | None => "utun0" end)
    end
  else mret "omniedge0".

(** [str::chars], each as its bytes. *)
Fixpoint chars_from (skip : nat) (l : list Z) : list (list Z) :=
  match l with
  | [] => []
  | b :: l' =>
      match skip with
      | S k => chars_from k l'
      | O => let n := (utf8_sequence b l').2 in take n l :: chars_from (n - 1) l'
      end
  end.
Definition chars (s : string) : list (list Z) := chars_from 0 (string_bytes s).

Definition safe_char (c : list Z) : bool :=
  match c with
  | [b] => in_range 48 57 b || in_range 65 90 b || in_range 97 122 b
           || (b =? 45) || (b =? 95) || (b =? 32) || (b =? 46)
  | _ => wide c
  end.
Definition validate_interface_name (name : string) : result string unit :=
  if bool_decide (name = "") then Err "Interface name cannot be empty"
  else if (256 <? Z.of_nat (String.length name)) then Err "Interface name too long (max 256 chars)"
  else if forallb safe_char (chars name) then Ok tt
  else Err ("Invalid interface name '" +:+ name +:+ "': contains unsafe characters").

(** ** Networks *)

Definition v4_of (s : string) : option Z := match parse_ipv4 s with Some (V4 z) => Some z | _ => None end.
Definition v6_of (s : string) : option Z := match parse_ipv6 s with Some (V6 z) => Some z | _ => None end.

(** [u32::count_ones]. *)
Definition count_ones (z : Z) : Z := Z.of_nat (length (filter (fun i => Z.testbit z (Z.of_nat i) = true) (seq 0 32))).

(** The network of an address, and the length of its prefix. *)
Definition vip_network (v : string) (netmask : option string) : result string (string * Z) :=
  vip_addr ← ok_or ("Invalid VIP address format: " +:+ v) (v4_of v);
  match netmask with
  | Some mask =>
      mask_bits ← ok_or ("Invalid netmask format: " +:+ mask) (v4_of mask);
      Ok (show_ipv4 (Z.land vip_addr mask_bits), count_ones mask_bits)
  | None => Ok (show_ipv4 (vip_addr / 256 * 256), 24)
  end.

(** [!x] of a [u16]; the mask of a segment cut after [bits] bits. *)
Definition not16 (x : Z) : Z := Z.lxor x u16_max.
Definition segment_mask (bits : Z) : Z := not16 (Z.shiftl 1 (16 - bits) - 1).
Definition network_segment (prefix_len : Z) (i : nat) (segment : Z) : Z :=
  let full_segments := Z.to_nat (prefix_len / 16) in
  let remaining_bits := prefix_len mod 16 in
  if (i <? full_segments)%nat then segment
  else if (i =? full_segments)%nat && (0 <? remaining_bits) then Z.land segment (segment_mask remaining_bits)
  else 0.
(** The address of the segments. *)
Definition network_v6 (addr prefix_len : Z) : Z := groups_value (imap (network_segment prefix_len) (v6_groups addr)).
Definition ipv6_network_address (ipv6 : string) (prefix_len : Z) : string :=
  match v6_of ipv6 with
  | Some addr => show_ipv6 (network_v6 addr prefix_len)
  | None => ipv6
  end.

(** ** Routes *)

(** A command that may find its work done; [already]: the texts that say so,
    [what] and [failed]: what the messages call it. *)
Definition add_route (name : string) (args : list string) (what failed : string) (already : list string) : TM unit :=
  r ← call (RunCmd name args);
  match r with
  | Err e => throw ("Failed to run " +:+ what +:+ " command: " +:+ e)
  | Ok o =>
      if Routing.succeeded o then mret tt
      else
        let stderr := Routing.lossy (Routing.err o) in
        if existsb (contains stderr) already then mret tt
        else throw (failed +:+ " failed: " +:+ stderr)
  end.

Definition add_vip_network_route (v : string) (netmask : option string) : TM unit :=
  name ← get_interface_name;
  _ ← guard_m (bool_decide (is_Some (v4_of v))) ("Invalid VIP address format: " +:+ v);
  _ ← lift (validate_interface_name name);
  net ← lift (vip_network v netmask);
  let network_cidr := net.1 +:+ "/" +:+ show_uint net.2 in
  if macos then
    add_route "route" ["-n"; "add"; "-net"; network_cidr; "-interface"; name] "route" "route add" ["File exists"; "exists"]
  else
    add_route "ip" ["route"; "add"; network_cidr; "dev"; name] "ip route" "ip route add"
      ["File exists"; "RTNETLINK answers: File exists"].

Definition add_ipv6_network_route (ipv6 : string) (prefix_len : Z) : TM unit :=
  name ← get_interface_name;
  _ ← guard_m (bool_decide (is_Some (v6_of ipv6))) ("Invalid IPv6 address format: " +:+ ipv6);
  _ ← guard_m (prefix_len <=? 128) ("Invalid IPv6 prefix length: " +:+ show_uint prefix_len +:+ " (must be 0-128)");
  _ ← lift (validate_interface_name name);
  let network_cidr := ipv6_network_address ipv6 prefix_len +:+ "/" +:+ show_uint prefix_len in
  if macos then
    add_route "route" ["-n"; "add"; "-inet6"; network_cidr; "-interface"; name] "route" "route -inet6 add" ["exists"]
  else
    add_route "ip" ["-6"; "route"; "add"; network_cidr; "dev"; name] "ip -6 route" "ip -6 route add"
      ["File exists"; "RTNETLINK answers: File exists"].

Definition add_ipv6_address (ipv6 : string) (prefix_len : Z) : TM unit :=
  name ← get_interface_name;
  let '(cmd, args, failed) :=
    if macos then ("ifconfig", [name; "inet6"; ipv6; "prefixlen"; show_uint prefix_len], "ifconfig inet6 failed: ")
    else ("ip", ["-6"; "addr"; "replace"; ipv6 +:+ "/" +:+ show_uint prefix_len; "dev"; name],
          "ip -6 addr replace failed: ") in
  r ← call (RunCmd cmd args);
  match r with
  | Err e => throw ("Failed to run " +:+ cmd +:+ " command: " +:+ e)
  | Ok o => if Routing.succeeded o then mret tt else throw (failed +:+ Routing.lossy (Routing.err o))
  end.

(** ** Setting up *)

Definition setup_with_mtu (v : string) (port : Z) (key : string) (mtu : Z) : TM unit :=
  _ ← modify (set_vip v); failing "TUN Setup failed" (SetupInterface v None port key mtu).
Definition setup (v : string) (port : Z) (key : string) : TM unit := setup_with_mtu v port key 1420.

Definition setup_dual_stack (v : string) (subnet_mask vip_v6 : option string) (prefix_v6 : option Z) (port : Z)
    (key : string) (mtu : Z) : TM unit :=
  _ ← modify (set_vip v);
  _ ← failing "TUN Setup failed" (SetupInterface v vip_v6 port key mtu);
  let netmask := match subnet_mask with Some "" => None | m => m end in
  _ ← attempt (add_vip_network_route v netmask);
  match vip_v6 with
  | Some ipv6 =>
      let prefix := default 120 prefix_v6 in
      r ← attempt (add_ipv6_address ipv6 prefix);
      match r with
      | Ok _ => _ ← attempt (add_ipv6_network_route ipv6 prefix); mret tt
      | Err _ => mret tt
      end
  | None => mret tt
  end.

(** ** Peers *)

Definition set_peer (key : string) (c : PeerConfig) : TunCall (result string unit) :=
  SetPeer key (endpoint c) (allowed_ips c) (Some 25).

(** The test for a tunnel that is dead; a clock that went backwards and a peer
    without a handshake count as alive. *)
Definition expired (key : string) : TM bool :=
  stats ← call (GetPeerStats key);
  match stats with
  | Some s =>
      match last_handshake s with
      | Some handshake_time =>
          now ← call Now;
          mret (if now <? handshake_time then false
                else WG_TUNNEL_EXPIRY_SECS <? (now - handshake_time) / nanos_per_sec)
      | None => mret false
      end
  | None => mret false
  end.

(** The other peers are set again; what fails is only logged. *)
Fixpoint restore_peers (key : string) (order : list string) : TM unit :=
  match order with
  | [] => mret tt
  | pk :: order =>
      t ← gets id;
      _ ← match known_peers t !! pk with
          | Some c => if bool_decide (pk = key) then mret (Ok tt) else call (set_peer pk c)
          | None => mret (Ok tt)
          end;
      restore_peers key order
  end.

Definition add_peer (key : string) (e : option SocketAddr) (ips : list string) : TM unit :=
  dead ← expired key;
  _ ← (if (dead : bool) then
         _ ← call SoftShutdown;
         t ← gets id;
         order ← call (KeyOrder (dom (known_peers t)));
         restore_peers key order
       else mret tt);
  let c := {| endpoint := e; allowed_ips := ips |} in
  _ ← modify (learn_peer key c);
  failing "Set peer failed" (set_peer key c).

(** ** The rest *)

Definition start_loop : TM unit := failing "Packet loop failed" StartLoop.
Definition handle_packet (packet : list Z) (src : SocketAddr) : TM unit :=
  failing "WireGuard packet handling failed" (HandleIncoming packet src).
Definition get_peer_stats (key : string) : TM (option PeerStats) := call (GetPeerStats key).
Definition shutdown : TM unit := call Shutdown.
Definition soft_shutdown : TM unit := call SoftShutdown.
Definition is_tun_active : TM bool := call IsTunActive.
End Interface.

(** Layer 2 without its feature: refused. *)
Definition OmniTapTun_new (linux : bool) : result string unit :=
  Err (if linux then "L2 TAP mode requires the 'l2-vpn' feature. Rebuild with: cargo build --features l2-vpn"
       else "L2 TAP mode is only supported on Linux. TAP devices require Linux kernel support. Please use L3 mode (--transport-mode l3) on this platform.").

(** ** Networks *)

Lemma groups_value_app a b : groups_value (a ++ b) = groups_value a * 2 ^ (16 * Z.of_nat (length b)) + groups_value b.
Proof.
  unfold groups_value. rewrite fold_left_app. generalize (fold_left (fun acc g => acc * 65536 + g) a 0) as acc.
  assert (Hgen : forall l acc, fold_left (fun acc g => acc * 65536 + g) l acc =
            acc * 2 ^ (16 * Z.of_nat (length l)) + fold_left (fun acc g => acc * 65536 + g) l 0).
  { intros l. induction l as [|g l IH]; intros acc; cbn [fold_left length]; [rewrite Z.mul_0_r; lia|].
    rewrite IH, (IH (0 * 65536 + g)). rewrite Nat2Z.inj_succ.
    replace (16 * Z.succ (Z.of_nat (length l))) with (16 + 16 * Z.of_nat (length l)) by lia.
    rewrite Z.pow_add_r by lia. lia. }
  intros acc. apply Hgen.
Qed.

Definition segment (g : Z) : Prop := 0 <= g < 2 ^ 16.

Lemma groups_value_bound gs : Forall segment gs -> 0 <= groups_value gs < 2 ^ (16 * Z.of_nat (length gs)).
Proof.
  induction gs as [|g gs IH] using rev_ind; intros Hgs; [by simpl|]. apply Forall_app in Hgs as [Hgs Hg].
  inversion Hg as [|? ? Hg' _]; subst. specialize (IH Hgs). rewrite groups_value_app, length_app.
  change (groups_value [g]) with (0 * 65536 + g). change (length [g]) with 1%nat. unfold segment in Hg'.
  replace (16 * Z.of_nat (length gs + 1)) with (16 + 16 * Z.of_nat (length gs)) by lia.
  rewrite Z.pow_add_r by lia. simpl (16 * Z.of_nat 1) in *. change (16 * Z.of_nat 1) with 16. nia.
Qed.

Lemma v6_groups_value z : 0 <= z < 2 ^ 128 -> groups_value (v6_groups z) = z /\ Forall segment (v6_groups z) .
Proof.
  intros Hz. split.
  - unfold groups_value, v6_groups. cbn [map seq fold_left Nat.sub].
    assert (Hd : forall k, 0 <= k -> z / 2 ^ (16 * (k + 1)) * 65536 + (z / 2 ^ (16 * k)) mod 65536 = z / 2 ^ (16 * k)).
    { intros k Hk. replace (16 * (k + 1)) with (16 * k + 16) by lia. rewrite Z.pow_add_r, <- Z.div_div by lia.
      change (2 ^ 16) with 65536. pose proof (Z.div_mod (z / 2 ^ (16 * k)) 65536 ltac:(lia)). lia. }
    assert (0 * 65536 = z / 2 ^ (16 * (Z.of_nat 7 + 1)) * 65536) as ->.
    { rewrite Z.div_small; [lia|]. exact Hz. }
    rewrite (Hd (Z.of_nat 7)) by lia. change (Z.of_nat 7) with (Z.of_nat 6 + 1). rewrite (Hd (Z.of_nat 6)) by lia.
    change (Z.of_nat 6) with (Z.of_nat 5 + 1). rewrite (Hd (Z.of_nat 5)) by lia.
    change (Z.of_nat 5) with (Z.of_nat 4 + 1). rewrite (Hd (Z.of_nat 4)) by lia.
    change (Z.of_nat 4) with (Z.of_nat 3 + 1). rewrite (Hd (Z.of_nat 3)) by lia.
    change (Z.of_nat 3) with (Z.of_nat 2 + 1). rewrite (Hd (Z.of_nat 2)) by lia.
    change (Z.of_nat 2) with (Z.of_nat 1 + 1). rewrite (Hd (Z.of_nat 1)) by lia.
    change (Z.of_nat 1) with (Z.of_nat 0 + 1). rewrite (Hd (Z.of_nat 0)) by lia.
    change (2 ^ (16 * Z.of_nat 0)) with 1. apply Z.div_1_r.
  - unfold v6_groups. apply Forall_fmap, Forall_forall. intros i _. unfold segment. simpl. apply Z.mod_pos_bound. lia.
Qed.

(** A segment cut after [bits] bits loses its remainder. *)
Lemma segment_cut g bits :
  segment g -> 0 < bits < 16 -> Z.land g (segment_mask bits) = g - g mod 2 ^ (16 - bits).
Proof.
  intros Hg Hb. unfold segment in Hg. set (k := 16 - bits).
  assert (segment_mask bits = Z.lxor (Z.ones k) (Z.ones 16)) as ->.
  { unfold segment_mask, not16. fold k. rewrite Z.shiftl_1_l. f_equal. rewrite Z.ones_equiv. lia. }
  assert (Z.land g (Z.lxor (Z.ones k) (Z.ones 16)) = Z.ldiff g (Z.ones k)) as ->.
  { apply Z.bits_inj'. intros n Hn. rewrite Z.land_spec, Z.ldiff_spec, Z.lxor_spec, !Z.testbit_ones_nonneg by lia.
    destruct (Z.ltb_spec n 16) as [Hlt|Hge].
    - by destruct (n <? k).
    - rewrite (Z.bits_above_log2 g n); [done|lia|]. destruct (decide (g = 0)) as [->|]; [simpl; lia|].
      apply Z.log2_lt_pow2; [lia|]. apply Z.lt_le_trans with (2 ^ 16); [lia|]. by apply Z.pow_le_mono_r. }
  rewrite Z.ldiff_ones_r, Z.shiftl_mul_pow2, Z.shiftr_div_pow2 by lia.
  pose proof (Z.div_mod g (2 ^ k) ltac:(apply Z.pow_nonzero; lia)). lia.
Qed.

Lemma imap_full p gs k :
  (forall i, (i < length gs)%nat -> (k + i < Z.to_nat (p / 16))%nat) ->
  imap (fun i => network_segment p (k + i)) gs = gs.
Proof.
  revert k. induction gs as [|g gs IH]; intros k Hk; [done|]. rewrite imap_cons. f_equal.
  - unfold network_segment. rewrite (proj2 (Nat.ltb_lt _ _)); [done|]. apply (Hk 0%nat). simpl. lia.
  - rewrite <- (IH (S k)) at 2.
    + apply imap_ext. intros i x _. simpl. by rewrite Nat.add_succ_r.
    + intros i Hi. specialize (Hk (S i) ltac:(simpl; lia)). lia.
Qed.
Lemma imap_full_0 p gs : (length gs <= Z.to_nat (p / 16))%nat -> imap (network_segment p) gs = gs.
Proof. intros H. apply (imap_full p gs 0). intros i Hi. lia. Qed.
Lemma imap_none p gs k : (Z.to_nat (p / 16) < k)%nat -> groups_value (imap (fun i => network_segment p (k + i)) gs) = 0.
Proof.
  intros Hk. assert (imap (fun i => network_segment p (k + i)) gs = replicate (length gs) 0) as ->.
  { apply list_eq. intros i. rewrite list_lookup_imap. destruct (gs !! i) as [g|] eqn:E; simpl.
    - rewrite lookup_replicate_2 by (by eapply lookup_lt_Some). f_equal. unfold network_segment.
      rewrite (proj2 (Nat.ltb_ge _ _)), (proj2 (Nat.eqb_neq _ _)) by lia. done.
    - symmetry. apply lookup_replicate_None. by apply lookup_ge_None. }
  induction gs as [|g gs IH]; [done|]. simpl. exact IH.
Qed.

Lemma network_segment_at p g :
  0 <= p -> segment g -> network_segment p (Z.to_nat (p / 16)) g = g - g mod 2 ^ (16 - p mod 16).
Proof.
  intros Hp Hg. pose proof (Z.mod_pos_bound p 16 ltac:(lia)). unfold network_segment.
  rewrite Nat.ltb_irrefl, Nat.eqb_refl. destruct (Z.ltb_spec 0 (p mod 16)) as [Hr|Hr]; simpl.
  - apply segment_cut; [done|lia].
  - replace (p mod 16) with 0 by lia. unfold segment in Hg. rewrite Z.mod_small by (simpl; lia). lia.
Qed.

Lemma groups_value_cut a g b :
  groups_value (a ++ g :: b) =
  (groups_value a * 2 ^ 16 + g) * 2 ^ (16 * Z.of_nat (length b)) + groups_value b.
Proof.
  rewrite (groups_value_app a (g :: b)). change (g :: b) with ([g] ++ b). rewrite (groups_value_app [g] b), length_app.
  change (groups_value [g]) with (0 * 65536 + g). change (length [g]) with 1%nat.
  replace (16 * Z.of_nat (1 + length b)) with (16 + 16 * Z.of_nat (length b)) by lia. rewrite Z.pow_add_r by lia. ring.
Qed.

(** Cutting inside the digit [g] of [(va * 2 ^ 16 + g) * B + vb]. *)
Lemma cut_value va g vb B m c :
  0 < m -> m * c = 2 ^ 16 -> 0 <= vb < B ->
  (va * 2 ^ 16 + (g - g mod m)) * B + 0 = ((va * 2 ^ 16 + g) * B + vb) / (B * m) * (B * m).
Proof.
  intros Hm Hc Hvb. pose proof (Z.div_mod g m ltac:(lia)) as Hg. pose proof (Z.mod_pos_bound g m Hm) as Hr.
  assert (((va * 2 ^ 16 + g) * B + vb) / (B * m) = va * c + g / m) as ->.
  { symmetry. apply (Z.div_unique_pos _ _ _ ((g mod m) * B + vb)); [nia|]. rewrite <- Hc.
    rewrite Hg at 1. ring. }
  rewrite <- Hc. replace (g - g mod m) with (m * (g / m)) by lia. ring.
Qed.

(** The network of an address is what shifting out and back gives. *)
Lemma network_v6_masks z p :
  0 <= z < 2 ^ 128 -> 0 <= p <= 128 -> network_v6 z p = Z.shiftl (Z.shiftr z (128 - p)) (128 - p).
Proof.
  intros Hz Hp. destruct (v6_groups_value z Hz) as [Hv Hs]. unfold network_v6.
  rewrite Z.shiftl_mul_pow2, Z.shiftr_div_pow2 by lia.
  destruct (decide (p = 128)) as [->|Hne].
  { rewrite (imap_full_0 128 (v6_groups z)), Hv by done. simpl. rewrite Z.div_1_r. lia. }
  set (f := Z.to_nat (p / 16)). pose proof (Z.div_mod p 16 ltac:(lia)) as Hdm.
  pose proof (Z.mod_pos_bound p 16 ltac:(lia)) as Hr. assert (Hf : Z.of_nat f = p / 16) by (apply Z2Nat.id, Z.div_pos; lia).
  assert (f < 8)%nat as Hf8 by lia. assert (Hlen : length (v6_groups z) = 8%nat) by done.
  destruct (lookup_lt_is_Some_2 (v6_groups z) f) as [g Hg]; [lia|].
  rewrite <- (take_drop_middle _ _ _ Hg) in Hv, Hs |- *.
  set (a := take f (v6_groups z)) in *. set (b := drop (S f) (v6_groups z)) in *.
  assert (Ha : length a = f) by (unfold a; rewrite length_take; lia).
  assert (Hb : length b = (7 - f)%nat) by (unfold b; rewrite length_drop; lia).
  apply Forall_app in Hs as [Hsa Hs]. apply Forall_cons in Hs as [Hsg Hsb].
  rewrite imap_app, imap_cons. rewrite Ha, Nat.add_0_r.
  rewrite (imap_full_0 p a) by (fold f; lia).
  assert (Hrest : groups_value (imap (network_segment p ∘ Nat.add f ∘ S) b) = 0).
  { erewrite <- (imap_none p b (S f)) by lia. f_equal. apply imap_ext. intros i x _. simpl. by rewrite Nat.add_succ_r. }
  change ((fun n : nat => network_segment p (f + n)) ∘ S) with (network_segment p ∘ Nat.add f ∘ S).
  unfold f at 1. rewrite network_segment_at by (done || lia).
  rewrite groups_value_cut, Hrest, length_imap, Hb. rewrite groups_value_cut, Hb in Hv.
  pose proof (groups_value_bound b Hsb) as Hvb. rewrite Hb in Hvb.
  replace (128 - p) with (16 * Z.of_nat (7 - f) + (16 - p mod 16)) by lia.
  rewrite Z.pow_add_r by lia. rewrite <- Hv. apply (cut_value _ _ _ _ _ (2 ^ (p mod 16))); try done.
  - apply Z.pow_pos_nonneg; lia.
  - rewrite <- Z.pow_add_r by lia. f_equal. lia.
Qed.

(** The network of an address, segment by segment, is the text of the address
    with all bits after the prefix cleared, whatever the prefix. *)
Theorem ipv6_network_address_masks s z p :
  v6_of s = Some z -> 0 <= z < 2 ^ 128 -> 0 <= p <= 128 ->
  ipv6_network_address s p = show_ipv6 (Z.shiftl (Z.shiftr z (128 - p)) (128 - p)).
Proof. intros H Hz Hp. unfold ipv6_network_address. rewrite H. by rewrite network_v6_masks. Qed.

(** The mask of a prefix of IPv4. *)
Definition prefix_mask (p : Z) : Z := Z.shiftl (Z.ones p) (32 - p).

Lemma count_ones_mask p : 0 <= p <= 32 -> count_ones (prefix_mask p) = p.
Proof.
  intros Hp. assert (Hall : Forall (fun k => count_ones (prefix_mask (Z.of_nat k)) = Z.of_nat k) (seq 0 33))
    by (repeat constructor).
  rewrite Forall_forall in Hall. specialize (Hall (Z.to_nat p)). rewrite Z2Nat.id in Hall by lia.
  apply Hall, elem_of_seq. lia.
Qed.

Lemma land_prefix_mask z p : 0 <= z < 2 ^ 32 -> 0 <= p <= 32 ->
  Z.land z (prefix_mask p) = Z.shiftl (Z.shiftr z (32 - p)) (32 - p).
Proof.
  intros Hz Hp. unfold prefix_mask. apply Z.bits_inj'. intros n Hn. rewrite Z.land_spec.
  rewrite !Z.shiftl_spec by lia. destruct (Z.ltb_spec n (32 - p)) as [Hlt|Hge].
  - rewrite !(Z.testbit_neg_r _ (n - (32 - p))) by lia. by rewrite andb_false_r.
  - rewrite Z.shiftr_spec by lia. replace (n - (32 - p) + (32 - p)) with n by lia.
    rewrite Z.testbit_ones_nonneg by lia. destruct (Z.ltb_spec (n - (32 - p)) p) as [H|H]; [by rewrite andb_true_r|].
    rewrite andb_false_r. symmetry. destruct (decide (z = 0)) as [->|Hz0]; [apply Z.testbit_0_l|].
    apply Z.bits_above_log2; [lia|]. apply Z.log2_lt_pow2; [lia|]. apply Z.lt_le_trans with (2 ^ 32); [lia|].
    apply Z.pow_le_mono_r; lia.
Qed.

(** With the mask of a prefix the route is to the network of the address, with
    that prefix; without a mask, to its network of 24 bits. *)
Theorem vip_network_exact v z :
  v4_of v = Some z -> 0 <= z < 2 ^ 32 ->
  (forall mask p, 0 <= p <= 32 -> v4_of mask = Some (prefix_mask p) ->
     vip_network v (Some mask) = Ok (show_ipv4 (Z.shiftl (Z.shiftr z (32 - p)) (32 - p)), p)) /\
  vip_network v None = Ok (show_ipv4 (Z.shiftl (Z.shiftr z (32 - 24)) (32 - 24)), 24).
Proof.
  intros Hv Hz. split.
  - intros mask p Hp Hm. unfold vip_network. rewrite Hv, Hm. simpl. by rewrite land_prefix_mask, count_ones_mask.
  - unfold vip_network. rewrite Hv. simpl. rewrite Z.shiftl_mul_pow2, Z.shiftr_div_pow2 by lia. done.
Qed.

(** A mask with a hole counts as the prefix of as many ones: the network is not
    the one the mask describes. *)
Example mask_with_hole : vip_network "10.7.9.4" (Some "255.0.255.0") = Ok ("10.0.9.0", 16).
Proof. by vm_compute. Qed.
Example ipv6_network_examples :
  ipv6_network_address "fd00:1234:5678:9abc::12ff" 120 = "fd00:1234:5678:9abc::1200" /\
  ipv6_network_address "fd00:1234::1" 20 = "fd00:1000::" /\ ipv6_network_address "zz" 20 = "zz".
Proof. by vm_compute. Qed.

Lemma vip_network_exact_witness :
  vip_network "100.100.3.158" (Some "255.255.252.0") = Ok ("100.100.0.0", 22).
Proof.
  destruct (vip_network_exact "100.100.3.158" 1684276126 ltac:(by vm_compute) ltac:(lia)) as [H _].
  rewrite (H "255.255.252.0" 22 ltac:(lia) ltac:(by vm_compute)). by vm_compute.
Defined.

Lemma ipv6_network_address_masks_witness :
  ipv6_network_address "fd00:1234:5678:9abc::12ff" 20 =
  show_ipv6 (Z.shiftl (Z.shiftr (default 0 (v6_of "fd00:1234:5678:9abc::12ff")) 108) 108).
Proof.
  apply (ipv6_network_address_masks "fd00:1234:5678:9abc::12ff"
           (default 0 (v6_of "fd00:1234:5678:9abc::12ff")) 20); [by vm_compute|by vm_compute|lia].
Defined.

(** ** Names of interfaces *)

Section Names.
Context (wide : list Z -> bool).

(** What a shell reads as more than a letter. *)
Definition shell_meta : list Z :=
  string_bytes ";|&$`'\<>(){}[]!#*?~" ++ [34; 10; 9; 13].

Lemma chars_single skip l b :
  b ∈ l -> 0 <= b < 128 -> (forall c, c ∈ l -> 0 <= c < 128) -> skip = 0%nat -> [b] ∈ chars_from skip l.
Proof.
  intros Hb Hr Hall ->. induction l as [|x l IH]; [by apply elem_of_nil in Hb|].
  assert (utf8_sequence x l = (true, 1%nat)) as Hs.
  { unfold utf8_sequence. assert (0 <= x < 128) by (apply Hall; by left). unfold in_range.
    rewrite (proj2 (Z.leb_le 0 x)), (proj2 (Z.leb_le x 127)) by lia. done. }
  cbn [chars_from]. rewrite Hs. simpl. apply elem_of_cons in Hb as [->|Hb]; [by left|]. right. apply IH; [done|].
  intros c Hc. apply Hall. by right.
Qed.

Lemma ascii_bytes_small s c : is_ascii_str s = true -> c ∈ string_bytes s -> 0 <= c < 128.
Proof.
  intros Hs Hc. unfold string_bytes in Hc. apply list_elem_of_fmap in Hc as (a & -> & Ha).
  induction s as [|x s IH]; simpl in *; [by apply elem_of_nil in Ha|]. apply andb_true_iff in Hs as [Hx Hs].
  apply elem_of_cons in Ha as [->|Ha]; [|by apply IH]. apply Nat.ltb_lt in Hx. unfold nat_of_ascii in Hx. lia.
Qed.

(** A name of ASCII that passes has nothing a shell would read. *)
Theorem valid_name_is_plain name b :
  validate_interface_name wide name = Ok tt -> is_ascii_str name = true -> b ∈ string_bytes name -> b ∉ shell_meta.
Proof.
  unfold validate_interface_name. case_bool_decide; [done|]. case_match; [done|]. case_match eqn:Hall; [|done].
  intros _ Hascii Hb Hm.
  assert (Hsmall : forall c, c ∈ string_bytes name -> 0 <= c < 128) by (intros c; by apply ascii_bytes_small).
  assert (safe_char wide [b] = true) as Hsafe.
  { rewrite forallb_forall in Hall. apply Hall. apply list_elem_of_In. unfold chars. apply chars_single; auto. }
  revert Hsafe. clear -Hm. unfold shell_meta in Hm. vm_compute in Hm.
  repeat (apply elem_of_cons in Hm as [->|Hm]; [by vm_compute|]). by apply elem_of_nil in Hm.
Qed.
End Names.

Lemma valid_name_is_plain_witness :
  validate_interface_name (fun _ => false) "omniedge0" = Ok tt /\ 111 ∉ shell_meta.
Proof.
  split; [by vm_compute|]. apply (valid_name_is_plain (fun _ => false) "omniedge0" 111); [by vm_compute|done|by left].
Defined.

(** ** What reaches the shell *)

(** On macos the address goes into a script of the shell before anything has
    looked at it: whatever text the API gave. *)
Theorem vip_reaches_shell answer wide v netmask t :
  ifname t = "" -> vip t = Some v ->
  existT _ (RunCmd "sh" ["-c"; find_script v]) ∈ calls answer (add_vip_network_route true wide v netmask) t.
Proof.
  intros Hn Hv. unfold calls, add_vip_network_route. apply logged_bind. unfold get_interface_name.
  unfold gets, mbind, SM_bind. simpl. rewrite Hn, Hv. simpl. apply logged_grows. by left.
Qed.

Definition no_answer (R : Set) (c : TunCall R) : R :=
  match c in TunCall R return R with
  | SetupInterface _ _ _ _ _ | SetPeer _ _ _ _ | StartLoop | HandleIncoming _ _ => Ok tt
  | GetPeerStats _ => None
  | Shutdown | SoftShutdown => tt
  | IsTunActive => true
  | RunCmd _ _ => Err "no such command"
  | Now => 0
  | KeyOrder _ => []
  end.

Lemma vip_reaches_shell_witness :
  existT _ (RunCmd "sh" ["-c"; find_script "';reboot;'"]) ∈
    calls no_answer (add_vip_network_route true (fun _ => false) "';reboot;'" None)
      (set_vip "';reboot;'" (new_userspace "")).
Proof. by apply (vip_reaches_shell no_answer). Defined.

(** ** Setting up on linux *)

Section SetupTheorems.
Context (wide : list Z -> bool) (v : string) (mask v6 : option string) (p6 : option Z) (port : Z) (key : string) (mtu : Z).
(** What the interface answers to being set up. *)
Context (reply : result string unit).

Definition device (t : OmniTun) : string := if bool_decide (ifname t = "") then "omniedge0" else ifname t.
Definition netmask : option string := match mask with Some "" => None | m => m end.
Definition prefix : Z := default 120 p6.

(** The calls that set up the tunnel: the interface, and commands of [ip] with
    the network of the address, the address of IPv6 and its network. *)
Definition setup_call (name : string) (R : Set) (c : TunCall R) : Prop :=
  match c with
  | SetupInterface a a6 p k m => a = v /\ a6 = v6 /\ p = port /\ k = key /\ m = mtu
  | RunCmd cmd args =>
      cmd = "ip" /\
      ((exists net, vip_network v netmask = Ok net /\ validate_interface_name wide name = Ok tt /\
          args = ["route"; "add"; net.1 +:+ "/" +:+ show_uint net.2; "dev"; name]) \/
       (exists a6, v6 = Some a6 /\
          (args = ["-6"; "addr"; "replace"; a6 +:+ "/" +:+ show_uint prefix; "dev"; name] \/
           (is_Some (v6_of a6) /\ prefix <= 128 /\ validate_interface_name wide name = Ok tt /\
            args = ["-6"; "route"; "add"; ipv6_network_address a6 prefix +:+ "/" +:+ show_uint prefix; "dev"; name]))))
  | _ => False
  end.
Definition setup_reply (R : Set) (c : TunCall R) : R -> Prop :=
  match c in TunCall R return R -> Prop with
  | SetupInterface _ _ _ _ _ => fun r => r = reply
  | _ => fun _ => True
  end.

Abbreviation shoare name := (hoare (setup_call name) setup_reply) (only parsing).

Lemma hoare_device name t Q : name = device t -> Q t (Ok name) -> shoare name (get_interface_name false) t Q.
Proof.
  intros -> HQ. unfold get_interface_name, device in *. apply hoare_bind, hoare_gets. cbn [id].
  case_bool_decide as Hd; cbn [negb]; apply hoare_ret, HQ.
Qed.

Lemma hoare_add_route name cmd args what failed already t (Q : OmniTun -> result string unit -> Prop) :
  setup_call name _ (RunCmd cmd args) -> (forall r, Q t r) -> shoare name (add_route cmd args what failed already) t Q.
Proof.
  intros Hc HQ. unfold add_route. apply hoare_bind, hoare_call; [done|]. intros r _.
  destruct r as [o|e]; [|apply hoare_throw, HQ]. apply hoare_if; intros _; [apply hoare_ret, HQ|].
  apply hoare_if; intros _; [apply hoare_ret, HQ|apply hoare_throw, HQ].
Qed.

Lemma hoare_vip_route name t (Q : OmniTun -> result string unit -> Prop) :
  name = device t -> (forall r, Q t r) -> shoare name (add_vip_network_route false wide v netmask) t Q.
Proof.
  intros Hn HQ. unfold add_vip_network_route. apply hoare_bind, hoare_device; [done|]. apply hoare_bind, hoare_guard; [|intros _; apply HQ].
  intros _. apply hoare_bind, hoare_lift; [|intros e _; apply HQ]. intros [] Ev.
  apply hoare_bind, hoare_lift; [|intros e _; apply HQ]. intros net En.
  apply hoare_add_route; [|done]. split; [done|]. left. by exists net.
Qed.

Lemma hoare_v6_route name a6 t (Q : OmniTun -> result string unit -> Prop) :
  name = device t -> v6 = Some a6 -> (forall r, Q t r) -> shoare name (add_ipv6_network_route false wide a6 prefix) t Q.
Proof.
  intros Hn H6 HQ. unfold add_ipv6_network_route. apply hoare_bind, hoare_device; [done|].
  apply hoare_bind, hoare_guard; [|intros _; apply HQ]. intros Hv%bool_decide_eq_true. apply hoare_bind, hoare_guard; [|intros _; apply HQ].
  intros Hp%Z.leb_le. apply hoare_bind, hoare_lift; [|intros e _; apply HQ]. intros [] Ev.
  apply hoare_add_route; [|done]. split; [done|]. right. exists a6. split; [done|]. by right.
Qed.

Lemma hoare_v6_address name a6 t (Q : OmniTun -> result string unit -> Prop) :
  name = device t -> v6 = Some a6 -> (forall r, Q t r) -> shoare name (add_ipv6_address false a6 prefix) t Q.
Proof.
  intros Hn H6 HQ. unfold add_ipv6_address. apply hoare_bind, hoare_device; [done|].
  apply hoare_bind, hoare_call; [split; [done|]; right; exists a6; split; [done|]; by left|]. intros r _.
  destruct r as [o|e]; [|apply hoare_throw, HQ]. apply hoare_if; intros _; [apply hoare_ret, HQ|apply hoare_throw, HQ].
Qed.

(** Whatever the system answers, setting up runs only [ip], for the network of
    the address and for IPv6; it fails exactly when the interface does, since
    routes and IPv6 are optional, and keeps the address it was asked for. *)
Theorem setup_outcome t :
  shoare (device t) (setup_dual_stack false wide v mask v6 p6 port key mtu) t (fun t' r =>
    t' = set_vip v t /\ r = match reply with Ok _ => Ok tt | Err e => Err ("TUN Setup failed: " +:+ e) end).
Proof.
  unfold setup_dual_stack. fold netmask prefix. apply hoare_bind, hoare_modify. apply hoare_bind.
  unfold failing. apply hoare_bind, hoare_call; [done|]. intros r ->.
  assert (Hd : device t = device (set_vip v t)) by done. rewrite Hd.
  destruct reply as [[]|e]; [|by apply hoare_throw]. apply hoare_ret.
  apply hoare_bind, hoare_attempt, hoare_vip_route; [done|]. intros _.
  apply hoare_option; [|intros _; by apply hoare_ret]. intros a6 H6.
  apply hoare_bind, hoare_attempt, hoare_v6_address; [done|done|]. intros [u|e]; [|by apply hoare_ret].
  apply hoare_bind, hoare_attempt, hoare_v6_route; [done|done|]. intros _. by apply hoare_ret.
Qed.
End SetupTheorems.

(** ** Peers *)

Section PeerTheorems.
Context {W : Type} (sys : forall R : Set, TunCall R -> W -> R * W) (peers : W -> gmap string PeerConfig).

(** What the interface does with its peers: setting one adds it unless it
    fails, the soft shutdown clears all, asking changes nothing. *)
Record interface_laws : Prop := {
  law_set key e ips k w :
    peers (sys _ (SetPeer key e ips k) w).2 =
    if is_ok (sys _ (SetPeer key e ips k) w).1 then <[key := {| endpoint := e; allowed_ips := ips |}]> (peers w)
    else peers w;
  law_soft w : peers (sys _ SoftShutdown w).2 = ∅;
  law_stats key w : peers (sys _ (GetPeerStats key) w).2 = peers w;
  law_now w : peers (sys _ Now w).2 = peers w;
  law_order ks w : peers (sys _ (KeyOrder ks) w).2 = peers w;
  law_walk ks w : (sys _ (KeyOrder ks) w).1 ≡ₚ elements ks }.

Context (Laws : interface_laws).

Lemma run_tun_call {R : Set} (c : TunCall R) (t : OmniTun) w :
  run_prog sys (call (X := string) c t) w = ((t, Ok (sys R c w).1), (sys R c w).2).
Proof. unfold call. simpl. by destruct (sys R c w). Qed.

Lemma run_tun_expired key t w :
  exists b w', run_prog sys (expired key t) w = ((t, Ok b), w') /\ peers w' = peers w.
Proof.
  unfold expired, call, mbind, SM_bind, mret, SM_ret. cbn. pose proof (law_stats Laws key w) as Hs.
  destruct (sys _ (GetPeerStats key) w) as [st w1]. cbn in Hs. destruct st as [[[h|]]|]; cbn; [|by eexists _, _..].
  pose proof (law_now Laws w1) as Hn. destruct (sys _ Now w1) as [now w2]. cbn in *.
  eexists _, _. split; [reflexivity|]. congruence.
Qed.

(** Restoring ends, keeps what the tunnel knows, and adds only known peers. *)
Lemma run_restore key order t w :
  exists w', run_prog sys (restore_peers key order t) w = ((t, Ok tt), w') /\
    (forall k c, peers w' !! k = Some c -> peers w !! k = Some c \/ known_peers t !! k = Some c) /\
    ((forall k e ips ka w, is_ok (sys _ (SetPeer k e ips ka) w).1 = true) ->
     forall k, peers w' !! k = if bool_decide (k ∈ order /\ k <> key /\ is_Some (known_peers t !! k))
                               then known_peers t !! k else peers w !! k).
Proof.
  revert w. induction order as [|pk order IH]; intros w.
  { exists w. split; [done|]. split; [auto|]. intros _ k. rewrite bool_decide_false; [done|].
    intros [H _]. by apply elem_of_nil in H. }
  cbn [restore_peers]. rewrite run_sm_bind. cbn [run_prog gets id]. rewrite run_sm_bind.
  assert (Hskip : known_peers t !! pk = None \/ pk = key ->
    exists w', run_prog sys (restore_peers key order t) w = ((t, Ok tt), w') /\
    (forall k c, peers w' !! k = Some c -> peers w !! k = Some c \/ known_peers t !! k = Some c) /\
    ((forall k e ips ka w, is_ok (sys _ (SetPeer k e ips ka) w).1 = true) ->
     forall k, peers w' !! k = if bool_decide (k ∈ pk :: order /\ k <> key /\ is_Some (known_peers t !! k))
                               then known_peers t !! k else peers w !! k)).
  { intros Hs. destruct (IH w) as (w' & E & Hin & Hall). exists w'. split; [done|]. split; [done|].
    intros Hok k. rewrite (Hall Hok k). destruct (decide (k = pk)) as [->|Hne].
    - rewrite !bool_decide_false; [done| |]; intros (_ & Hk & [c Hc]); destruct Hs; congruence.
    - erewrite bool_decide_ext; [reflexivity|]. rewrite elem_of_cons. naive_solver. }
  destruct (known_peers t !! pk) as [c|] eqn:Ek; [|by apply Hskip; left].
  case_bool_decide as Hpk; [by apply Hskip; right|]. clear Hskip. rewrite run_tun_call.
  set (r := sys _ (set_peer pk c) w). pose proof (law_set Laws pk (endpoint c) (allowed_ips c) (Some 25) w) as Hset.
  fold (set_peer pk c) in Hset. fold r in Hset. destruct (IH r.2) as (w' & E & Hin & Hall).
  exists w'. split; [exact E|]. split.
  - intros k d Hd. destruct (Hin k d Hd) as [Hk|Hk]; [|by right]. rewrite Hset in Hk.
    destruct (is_ok r.1); [|by left]. apply lookup_insert_Some in Hk as [[<- <-]|[_ Hk]]; [right|by left].
    by destruct c.
  - intros Hok k. rewrite (Hall Hok k). rewrite Hset. rewrite (Hok pk _ _ _ w : is_ok r.1 = true).
    destruct (decide (k = pk)) as [->|Hne].
    + rewrite lookup_insert_eq, Ek. rewrite (bool_decide_true (pk ∈ pk :: order /\ _)) by (split; [by left|eauto]).
      destruct c; by case_bool_decide.
    + rewrite lookup_insert_ne by done. erewrite bool_decide_ext; [reflexivity|]. rewrite elem_of_cons. naive_solver.
Qed.
Lemma run_clearing key t w :
  exists w', run_prog sys (
      (_ ← call SoftShutdown; t ← gets id; order ← call (KeyOrder (dom (known_peers t))); restore_peers key order : TM unit) t) w
    = ((t, Ok tt), w') /\
    (forall k c, peers w' !! k = Some c -> known_peers t !! k = Some c) /\
    ((forall k e ips ka w, is_ok (sys _ (SetPeer k e ips ka) w).1 = true) -> peers w' = delete key (known_peers t)).
Proof.
  rewrite run_sm_bind, run_tun_call. pose proof (law_soft Laws w) as Hsoft.
  destruct (sys _ SoftShutdown w) as [[] w1]. cbn [fst snd] in *. rewrite run_sm_bind. cbn [run_prog gets id].
  rewrite run_sm_bind, run_tun_call. pose proof (law_order Laws (dom (known_peers t)) w1) as Hord.
  pose proof (law_walk Laws (dom (known_peers t)) w1) as Hwalk.
  destruct (sys _ (KeyOrder (dom (known_peers t))) w1) as [order w2]. cbn [fst snd] in *.
  destruct (run_restore key order t w2) as (w' & E & Hin & Hall). rewrite Hord, Hsoft in *.
  exists w'. split; [exact E|]. split.
  - intros k c Hk. destruct (Hin k c Hk) as [Hk'|Hk']; [by rewrite lookup_empty in Hk'|done].
  - intros Hok. apply map_eq. intros k. rewrite (Hall Hok k), lookup_empty.
    destruct (decide (k = key)) as [->|Hne].
    + rewrite lookup_delete_eq. rewrite bool_decide_false; [done|]. naive_solver.
    + rewrite lookup_delete_ne by done. destruct (known_peers t !! k) as [c|] eqn:Ek.
      * rewrite bool_decide_true; [done|]. split; [|split; [done|by eexists]].
        rewrite Hwalk, elem_of_elements, elem_of_dom. by eexists.
      * by case_bool_decide.
Qed.

End PeerTheorems.

(** An interface that keeps its peers in a map and whose clock stands at an
    hour. *)
Definition hour : Z := 3600 * nanos_per_sec.
Definition demo_sys (R : Set) (c : TunCall R) (w : gmap string PeerConfig) : R * gmap string PeerConfig :=
  match c in TunCall R return R * gmap string PeerConfig with
  | SetPeer key e ips _ => (Ok tt, <[key := {| endpoint := e; allowed_ips := ips |}]> w)
  | SoftShutdown => (tt, ∅)
  | Shutdown => (tt, ∅)
  | GetPeerStats key => ((fun _ => {| last_handshake := Some (if bool_decide (key = "old") then 0 else hour) |}) <$> w !! key, w)
  | Now => (hour, w)
  | KeyOrder ks => (elements ks, w)
  | SetupInterface _ _ _ _ _ | StartLoop | HandleIncoming _ _ => (Ok tt, w)
  | IsTunActive => (true, w)
  | RunCmd _ _ => (Err "no such command", w)
  end.
Lemma demo_laws : interface_laws demo_sys id.
Proof. by split. Qed.

Definition demo_peer (ip : string) : PeerConfig := {| endpoint := None; allowed_ips := [ip] |}.
Definition demo_tun : OmniTun :=
  learn_peer "old" (demo_peer "10.0.0.2/32") (learn_peer "new" (demo_peer "10.0.0.3/32") (new_userspace "omniedge0")).


(** Only the peer that is added is tested: when another one is dead it stays as
    it is. *)
Example other_dead_peer_untested :
  calls (fun R c => (demo_sys R c (known_peers demo_tun)).1) (add_peer "new" None ["10.0.0.3/32"]) demo_tun =
  [existT _ (GetPeerStats "new"); existT _ Now; existT _ (SetPeer "new" None ["10.0.0.3/32"] (Some 25))].
Proof. by vm_compute. Qed.
