(* ===== verification/Api.v ===== *)
(** * The client of the API (omni-api/src/)

    Requests of the services, the answers they wait for, and the two
    deserializers written by hand.  HTTP is an effect; the JSON of the
    responses is a class. *)

From Stdlib Require Import Ascii.
From S2P Require Import Prelude RustStr Effects.

Open Scope string_scope.
Open Scope list_scope.
Open Scope Z_scope.

(** ** Types (types.rs) *)

Record SuccessResponse (T : Set) : Set := { code : option Z; message : option string; data : T }.
Arguments code {T}. Arguments message {T}. Arguments data {T}.
Record ListWrapper (T : Set) : Set := { list_data : T }.
Arguments list_data {T}.
(** The code and the details, which the client never reads, are left out. *)
Record ErrorResponse : Set := {
  error_message : option string; error : option string; error_description : option string }.

Record AuthResp : Set := {
  token : string; refresh_token : string; access_token : string; id_token : string; expires_in : Z;
  email : option string; user_id : option string }.
Record DeviceCodeResp : Set := {
  device_code : string; user_code : string; verification_uri : string; verification_uri_complete : string;
  code_expires_in : Z; interval : Z }.
Record SessionResponse : Set := { session_id : string; auth_url : string; expires_at : string }.
Record WebSocketTokenResponse : Set := { ws_token : string; ws_refresh_token : string }.
Record ProfileResponse : Set := {
  profile_id : string; profile_name : option string; profile_email : option string; picture : option string }.
Record ServerResponse : Set := { server_name : option string; host : string; country : option string }.
Record VirtualNetworkResponse : Set := {
  network_id : string; network_name : string; ip_range : string; ip_range_v6 : option string; role : Z;
  network_server : option ServerResponse; network_exit_node : option string }.
Record VirtualNetworkDeviceResponse : Set := {
  member_id : string; member_name : string; member_hardware_id : string; member_os : string;
  member_virtual_ip : string; member_virtual_ip_v6 : option string; is_exit_node : bool; online : bool;
  exit_node_enabled : bool; selected_exit_node_id : option string }.
Record JoinVirtualNetworkResponse : Set := {
  cluster : string; community_name : option string; secret_key : string; virtual_ip : string;
  subnet_mask : string; virtual_ip_v6 : option string; subnet_prefix_v6 : option Z;
  join_ip_range_v6 : option string; server : ServerResponse }.
Record DeviceResponse : Set := {
  device_id : string; device_name : string; hardware_id : string; device_os : string;
  device_virtual_ip : option string; device_virtual_ip_v6 : option string }.
Record HeartbeatResponse : Set := {
  heartbeat_message : string; last_seen : string; exit_nodes : list (string * string) }.
Record ScanResult : Set := {
  host_name : string; ipv4 : string; ipv6 : string; mac_address : string; vendor : string; scan_os : string }.
Record UserServer : Set := {
  us_id : string; us_name : string; us_host : string; us_country : option string; server_type : option Z;
  is_default : bool; created_at : option string }.
Record CreateUserServerRequest : Set := { create_name : string; create_host : string; create_country : option string }.
Record UpdateUserServerRequest : Set := {
  update_name : option string; update_host : option string; update_country : option string }.

Definition effective_token (a : AuthResp) : string :=
  if negb (bool_decide (token a = "")) then token a else access_token a.

(** ** JSON

    The shapes the source asks serde for; the derived deserializers are
    serde's, what is written by hand stands below. *)
Section Shapes.
Context (Value : Set).

Inductive Shape : Set -> Type :=
| SValue : Shape Value
| SDeviceCode : Shape DeviceCodeResp
| SSession : Shape SessionResponse
| SProfile : Shape ProfileResponse
| SNetwork : Shape VirtualNetworkResponse
| SMember : Shape VirtualNetworkDeviceResponse
| SJoin : Shape JoinVirtualNetworkResponse
| SDevice : Shape DeviceResponse
| SHeartbeat : Shape HeartbeatResponse
| SUserServer : Shape UserServer
| SError : Shape ErrorResponse
| SList {A : Set} (t : Shape A) : Shape (list A)
| SWrapped {A : Set} (t : Shape A) : Shape (ListWrapper A)
| SSuccess {A : Set} (t : Shape A) : Shape (SuccessResponse A).
End Shapes.
Arguments SValue {Value}. Arguments SDeviceCode {Value}. Arguments SSession {Value}. Arguments SProfile {Value}.
Arguments SNetwork {Value}. Arguments SMember {Value}. Arguments SJoin {Value}. Arguments SDevice {Value}.
Arguments SHeartbeat {Value}. Arguments SUserServer {Value}. Arguments SError {Value}.
Arguments SList {Value A}. Arguments SWrapped {Value A}. Arguments SSuccess {Value A}.

(** serde_json: values, how they are looked at and built, and the parser. *)
Class ApiJson : Type := {
  Value : Set;
  as_object : Value -> option (string -> option Value);
  as_str : Value -> option string;
  as_i64 : Value -> option Z;
  json_object : list (string * Value) -> Value;
  json_string : string -> Value;
  json_int : Z -> Value;
  json_null : Value;
  from_slice : forall A : Set, Shape Value A -> list Z -> result string A }.

(** What is documented of values built and looked at. *)
Class ApiJsonLaws `{ApiJson} : Prop := {
  object_fields kvs : exists get, as_object (json_object kvs) = Some get /\
    forall k, get k = snd <$> find (fun kv => String.eqb kv.1 k) kvs;
  string_value s : as_str (json_string s) = Some s;
  int_value z : -2 ^ 63 <= z < 2 ^ 63 -> as_i64 (json_int z) = Some z;
  null_no_string : as_str json_null = None }.

(** [as i32]. *)
Definition wrap_i32 (z : Z) : Z := (z + 2 ^ 31) `mod` 2 ^ 32 - 2 ^ 31.
Definition or_else {A} (o1 o2 : option A) : option A := match o1 with Some a => Some a | None => o2 end.

Section Deserializers.
Context `{ApiJson}.

Definition get_optional_string (obj : string -> option Value) (camel snake : string) : option string :=
  v ← or_else (obj snake) (obj camel); as_str v.
Definition get_string (obj : string -> option Value) (camel snake : string) : string :=
  from_option id "" (get_optional_string obj camel snake).
Definition get_i32 (obj : string -> option Value) (camel snake : string) : Z :=
  wrap_i32 (from_option id 0 (v ← or_else (obj snake) (obj camel); as_i64 v)).

Definition auth_of_value (value : Value) : result string AuthResp :=
  match as_object value with
  | None => Err "expected object"
  | Some obj => Ok {|
      token := from_option id "" (v ← obj "token"; as_str v);
      refresh_token := get_string obj "refreshToken" "refresh_token";
      access_token := get_string obj "accessToken" "access_token";
      id_token := get_string obj "idToken" "id_token";
      expires_in := get_i32 obj "expiresIn" "expires_in";
      email := get_optional_string obj "email" "email";
      user_id := get_optional_string obj "userId" "user_id" |}
  end.

(** The derived [Serialize]. *)
Definition value_of_auth (a : AuthResp) : Value :=
  let opt o := match o with Some s => json_string s | None => json_null end in
  json_object [("token", json_string (token a)); ("refresh_token", json_string (refresh_token a));
    ("access_token", json_string (access_token a)); ("id_token", json_string (id_token a));
    ("expires_in", json_int (expires_in a)); ("email", opt (email a)); ("user_id", opt (user_id a))].

Fixpoint first_string (obj : string -> option Value) (names : list string) : string :=
  match names with
  | [] => ""
  | name :: names => match (v ← obj name; as_str v) with Some s => s | None => first_string obj names end
  end.

Definition ws_token_of_value (value : Value) : result string WebSocketTokenResponse :=
  match as_object value with
  | None => Err "expected object"
  | Some obj => Ok {|
      ws_token := first_string obj ["token"; "accessToken"; "access_token"];
      ws_refresh_token := first_string obj ["refresh_token"; "refreshToken"] |}
  end.
End Deserializers.

(** ** Requests *)

Inductive Method : Set := Get | Post | Put.

Inductive Field : Set :=
| FString (s : string) | FBool (b : bool) | FOption (o : option string) | FScans (l : list ScanResult).
Inductive Body : Set := NoBody | Json (fields : list (string * Field)).

Record RequestBuilder : Set := {
  req_method : Method; req_url : string; authorization : option string; req_body : Body }.

(** Of a response the client reads whether it is a success, how its status and
    address print, and its body, which may fail to arrive. *)
Record Response : Set := { is_success : bool; status : string; body : result string (list Z) }.

Inductive HttpCall : Set -> Set :=
| Http (req : RequestBuilder) : HttpCall (result string Response).

(** A client, without the connections behind it. *)
Record ApiClient : Set := { base_url : string; client_token : option string }.

Definition ApiClient_new (url : string) (t : option string) : ApiClient :=
  {| base_url := trim_end_matches "/" url; client_token := t |}.

(** [s.trim_start_matches(c)]. *)
Fixpoint trim_start_matches (c : ascii) (s : string) : string :=
  match s with
  | EmptyString => EmptyString
  | String a s' => if bool_decide (a = c) then trim_start_matches c s' else s
  end.

(** [s.replace(from, to)] for a pattern that is not empty: [skip] bytes belong
    to the occurrence just replaced. *)
Fixpoint replace_from (skip : nat) (from to s : string) : string :=
  match s with
  | EmptyString => EmptyString
  | String a s' =>
      match skip with
      | S skip => replace_from skip from to s'
      | O => if starts_with s from then to +:+ replace_from (String.length from - 1) from to s'
             else String a (replace_from O from to s')
      end
  end.
Definition replace (from to s : string) : string := replace_from 0 from to s.

Definition build_url (c : ApiClient) (path : string) : string :=
  base_url c +:+ "/" +:+ trim_start_matches "/" path.
Definition ws_url (c : ApiClient) (path : string) : string :=
  replace "https://" "wss://" (replace "http://" "ws://" (build_url c path)).

Definition request (c : ApiClient) (m : Method) (path : string) (b : Body) : RequestBuilder :=
  {| req_method := m; req_url := build_url c path; authorization := None; req_body := b |}.
Definition get (c : ApiClient) (path : string) : RequestBuilder := request c Get path NoBody.
Definition post (c : ApiClient) (path : string) (b : Body) : RequestBuilder := request c Post path b.
Definition put (c : ApiClient) (path : string) (b : Body) : RequestBuilder := request c Put path b.

Definition bearer (t : string) : string :=
  if starts_with (to_lowercase t) "bearer " then t else "Bearer " +:+ t.

Definition auth_header (c : ApiClient) : option string :=
  match client_token c with
  | Some t => if negb (bool_decide (t = "")) then Some (bearer t) else None
  | None => None
  end.

Definition authorized (c : ApiClient) (b : RequestBuilder) : RequestBuilder :=
  match auth_header c with
  | Some h => {| req_method := req_method b; req_url := req_url b; authorization := Some h; req_body := req_body b |}
  | None => b
  end.

(** What a response is read as: inside the wrapper, and by itself. *)
Record Decoder (A : Type) : Type := { wrapped : list Z -> result string A; direct : list Z -> result string A }.
Arguments wrapped {A}. Arguments direct {A}.

Abbreviation AM := (SM HttpCall unit string) (only parsing).

Section Client.
Context `{ApiJson} (c : ApiClient).

Definition derived {A : Set} (t : Shape Value A) : Decoder A := {|
  wrapped b := data <$> from_slice _ (SSuccess t) b; direct := from_slice _ t |}.
(** A type whose deserializer goes through a value. *)
Definition by_value {A} (f : Value -> result string A) : Decoder A := {|
  wrapped b := from_slice _ (SSuccess SValue) b ≫= (fun r => f (data r));
  direct b := from_slice _ SValue b ≫= f |}.

Definition lossy (l : list Z) : string := bytes_string (from_utf8_lossy l).

Definition error_response (body : list Z) : ErrorResponse :=
  match from_slice _ SError body with
  | Ok e => e
  | Err _ => {| error_message := Some (lossy body); error := None; error_description := None |}
  end.
Definition error_text (e : ErrorResponse) : string :=
  from_option id "Unknown error" (or_else (or_else (error e) (error_message e)) (error_description e)).

Definition read_response {A} (d : Decoder A) (r : Response) : result string A :=
  match body r with
  | Err e => Err e
  | Ok bytes =>
      if is_success r then
        match wrapped d bytes with
        | Ok a => Ok a
        | Err _ => match direct d bytes with
                   | Ok a => Ok a
                   | Err e => Err ("Failed to parse response (tried wrapped and unwrapped): " +:+ e +:+
                                   String "010" "Body: " +:+ lossy bytes)
                   end
        end
      else Err ("API Error (" +:+ status r +:+ "): " +:+ error_text (error_response bytes))
  end.

Definition send_internal {A} (d : Decoder A) (b : RequestBuilder) : AM A :=
  answer ← call (Http (authorized c b));
  resp ← lift answer;
  lift (read_response d resp).
(** [send] and [send_quiet] differ in what they log. *)
Definition send {A : Set} (t : Shape Value A) (b : RequestBuilder) : AM A := send_internal (derived t) b.
Definition send_auth (b : RequestBuilder) : AM AuthResp := send_internal (by_value auth_of_value) b.

(** A list, wrapped or bare; the error is that of the first attempt. *)
Definition send_list {A : Set} (t : Shape Value A) (b : RequestBuilder) : AM (list A) :=
  r ← attempt (send (SWrapped (SList t)) b);
  match r with
  | Ok w => mret (list_data w)
  | Err e =>
      r ← attempt (send (SList t) b);
      match r with Ok l => mret l | Err _ => throw e end
  end.

(** ** auth.rs *)
Definition login_with_password (mail password : string) : AM AuthResp :=
  send_auth (post c "/auth/login/password" (Json [("email", FString mail); ("password", FString password)])).
Definition login_with_security_key (key : string) : AM AuthResp :=
  send_auth (post c "/auth/login/security-key" (Json [("key", FString key)])).
Definition generate_session : AM SessionResponse := send SSession (get c "/auth/login/session").
Definition device_flow_init (client_id scope : string) : AM DeviceCodeResp :=
  send SDeviceCode (post c "/oauth/device/code" (Json [("client_id", FString client_id); ("scope", FString scope)])).
Definition device_flow_token (client_id code : string) : AM AuthResp :=
  send_auth (post c "/oauth/token" (Json [("client_id", FString client_id); ("device_code", FString code);
    ("grant_type", FString "urn:ietf:params:oauth:grant-type:device_code")])).
Definition refresh (client_id refresh : string) : AM AuthResp :=
  send_auth (post c "/oauth/token" (Json [("refresh_token", FString refresh);
    ("grant_type", FString "refresh_token"); ("client_id", FString client_id)])).
Definition me : AM ProfileResponse := send SProfile (get c "/profile").

(** ** device.rs *)
Definition register (name hardware os : string) : AM DeviceResponse :=
  send SDevice (post c "/devices" (Json [("name", FString name); ("hardware_uuid", FString hardware);
    ("platform", FString os)])).
Definition heartbeat (hardware : string) (exit : bool) : AM HeartbeatResponse :=
  send SHeartbeat (post c "/devices/heartbeat" (Json [("hardware_id", FString hardware); ("is_exit_node", FBool exit)])).
Definition list_devices : AM (list DeviceResponse) := send_list SDevice (get c "/devices").

(** ** network.rs *)
Definition list_networks : AM (list VirtualNetworkResponse) := send_list SNetwork (get c "/virtual-networks/all/list").
Definition member_path (network device : string) : string := "/virtual-networks/" +:+ network +:+ "/devices/" +:+ device.
Definition join_network (network device : string) : AM JoinVirtualNetworkResponse :=
  send SJoin (post c (member_path network device) NoBody).
Definition get_devices (network : string) : AM (list VirtualNetworkDeviceResponse) :=
  send_list SMember (get c ("/virtual-networks/" +:+ network +:+ "/devices")).
(** An answer of any kind. *)
Definition send_any (b : RequestBuilder) : AM unit := _ ← send SValue b; mret tt.
Definition update_device (network device : string) (exit : bool) : AM unit :=
  send_any (put c (member_path network device) (Json [("is_exit_node", FBool exit)])).
Definition select_exit_node (network device : string) (exit_node : option string) : AM unit :=
  send_any (put c (member_path network device +:+ "/select-exit-node") (Json [("exit_node_id", FOption exit_node)])).
Definition upload_subnets (device ip mac mask : string) (scans : list ScanResult) : AM unit :=
  send_any (post c ("/devices/" +:+ device +:+ "/subnets")
    (Json [("ip", FString ip); ("mac_addr", FString mac); ("subnet_mask", FString mask); ("devices", FScans scans)])).

(** ** user_server.rs; fields without a value are not sent *)
Definition present (key : string) (o : option string) : list (string * Field) :=
  match o with Some s => [(key, FString s)] | None => [] end.
Definition list_servers : AM (list UserServer) := send_list SUserServer (get c "/user-servers").
Definition create_server (r : CreateUserServerRequest) : AM UserServer :=
  send SUserServer (post c "/user-servers" (Json ([("name", FString (create_name r)); ("host", FString (create_host r))]
    ++ present "country" (create_country r)))).
Definition update_server (id : string) (r : UpdateUserServerRequest) : AM UserServer :=
  send SUserServer (put c ("/user-servers/" +:+ id) (Json (present "name" (update_name r) ++
    present "host" (update_host r) ++ present "country" (update_country r)))).
End Client.

(** ** Theorems *)

(** *** Addresses *)

Lemma trim_end_push a s : trim_end_matches a (s +:+ String a "") = trim_end_matches a s.
Proof.
  induction s as [|b s IH]; [simpl; by rewrite bool_decide_true|].
  rewrite append_cons. simpl. by rewrite IH.
Qed.

Lemma trim_end_clean a s t : trim_end_matches a s <> t +:+ String a "".
Proof.
  revert t. induction s as [|b s IH]; intros t; simpl; [by destruct t|].
  destruct (trim_end_matches a s) as [|d u] eqn:E.
  - case_bool_decide as Hb; [by destruct t|]. destruct t as [|e t]; [by intros [= ->]|].
    rewrite append_cons. intros [= _ Ht]. by destruct t.
  - destruct t as [|e t]; [done|]. rewrite append_cons. intros [= _ Ht]. by apply (IH t).
Qed.

Lemma trim_start_push a s : trim_start_matches a (String a s) = trim_start_matches a s.
Proof. simpl. by rewrite bool_decide_true. Qed.

Lemma trim_start_clean a s t : trim_start_matches a s <> String a t.
Proof.
  induction s as [|b s IH]; simpl; [done|]. case_bool_decide as Hb; [done|]. by intros [= ->].
Qed.

(** Slashes at the end of the base and at the start of a path are of no
    consequence, and exactly one joins the two. *)
Theorem build_url_slashes url t path :
  build_url (ApiClient_new (url +:+ "/") t) path = build_url (ApiClient_new url t) path /\
  build_url (ApiClient_new url t) ("/" +:+ path) = build_url (ApiClient_new url t) path /\
  exists base rest, build_url (ApiClient_new url t) path = base +:+ "/" +:+ rest /\
    (forall u, base <> u +:+ "/") /\ (forall u, rest <> "/" +:+ u).
Proof.
  unfold build_url, ApiClient_new. cbn [base_url]. split; [by rewrite (trim_end_push "/" url)|].
  split; [by change ("/" +:+ path) with (String "/" path); rewrite trim_start_push|].
  exists (trim_end_matches "/" url), (trim_start_matches "/" path). split; [done|].
  split; [apply trim_end_clean|]. intros u. rewrite append_cons, append_nil_l. apply trim_start_clean.
Qed.

Example ws_urls :
  ws_url (ApiClient_new "https://api.omniedge.io/api/v2/" None) "/auth/login/session/7"
    = "wss://api.omniedge.io/api/v2/auth/login/session/7" /\
  ws_url (ApiClient_new "http://10.0.0.1:8080" None) "x" = "ws://10.0.0.1:8080/x".
Proof. by vm_compute. Qed.

(** *** Tokens *)

(** A token is sent with one scheme, whether or not it came with one. *)
Lemma bearer_once t : bearer (bearer t) = bearer t.
Proof.
  unfold bearer. destruct (starts_with (to_lowercase t) "bearer ") eqn:E; [by rewrite E|].
  replace (to_lowercase ("Bearer " +:+ t)) with ("bearer " +:+ to_lowercase t) by done. by rewrite starts_with_app.
Qed.

Lemma bearer_of_bearer t : bearer t = t \/ bearer t = "Bearer " +:+ t.
Proof. unfold bearer. case_match; auto. Qed.

(** The requests of the services. *)
Section Services.
Context `{ApiJson} (c : ApiClient).

Inductive service : forall A : Type, AM A -> Prop :=
| svc_password m p : service _ (login_with_password c m p)
| svc_key k : service _ (login_with_security_key c k)
| svc_session : service _ (generate_session c)
| svc_flow i s : service _ (device_flow_init c i s)
| svc_token i d : service _ (device_flow_token c i d)
| svc_refresh i r : service _ (refresh c i r)
| svc_me : service _ (me c)
| svc_register n h o : service _ (register c n h o)
| svc_heartbeat h e : service _ (heartbeat c h e)
| svc_list_devices : service _ (list_devices c)
| svc_list_networks : service _ (list_networks c)
| svc_join n d : service _ (join_network c n d)
| svc_devices n : service _ (get_devices c n)
| svc_update n d e : service _ (update_device c n d e)
| svc_select n d e : service _ (select_exit_node c n d e)
| svc_upload d i m k l : service _ (upload_subnets c d i m k l)
| svc_list_servers : service _ (list_servers c)
| svc_create_server r : service _ (create_server c r)
| svc_update_server i r : service _ (update_server c i r).

(** A request to the base of the client, with its token. *)
Definition to_base (R : Set) (call : HttpCall R) : Prop :=
  match call with
  | Http req => (exists path, req_url req = base_url c +:+ "/" +:+ path) /\ authorization req = auth_header c
  end.

Definition plain (b : RequestBuilder) : Prop :=
  (exists path, req_url b = base_url c +:+ "/" +:+ path) /\ authorization b = None.

Lemma plain_request m path b : plain (request c m path b).
Proof. by split; [eexists|]. Qed.

Lemma authorized_to_base b : plain b -> to_base _ (Http (authorized c b)).
Proof.
  intros [[path Hp] Ha]. unfold to_base, authorized. destruct (auth_header c) as [h|]; cbn; (split; [by eexists|done]).
Qed.

Abbreviation safe m := (hoare to_base (fun _ _ _ => True) m tt (fun _ _ => True)) (only parsing).

Lemma send_internal_safe {A} (d : Decoder A) b : plain b -> safe (send_internal c d b).
Proof.
  intros Hb. unfold send_internal. sm_step. sm_step; [by apply authorized_to_base|]. cbv beta iota.
  sm_step. sm_step; [|done]. cbv beta iota. by sm_step.
Qed.

Lemma send_list_safe {A : Set} (t : Shape Value A) b : plain b -> safe (send_list c t b).
Proof.
  intros Hb. unfold send_list, send. sm_step. sm_step. eapply hoare_mono; [by apply send_internal_safe|].
  intros [] [w|e] _; cbv beta iota; [by sm_step|]. sm_step. sm_step.
  eapply hoare_mono; [by apply send_internal_safe|]. intros [] [l|e'] _; cbv beta iota; by sm_step.
Qed.

(** Whatever the server answers, every request of every service goes to
    the base of the client and carries the token of the client. *)
Theorem services_to_base A (m : AM A) : service A m -> safe m.
Proof.
  assert (Hany : forall b, plain b -> safe (send_any c b)).
  { intros b Hb. unfold send_any, send. sm_step. eapply hoare_mono; [by apply send_internal_safe|].
    intros [] [v|e] _; [by sm_step|done]. }
  destruct 1; first [apply send_internal_safe | apply send_list_safe | apply Hany]; apply plain_request.
Qed.
End Services.

(** *** Lists *)
Section Lists.
Context `{ApiJson} (c : ApiClient).

Definition ok_first {A} (r : result string A) (next : option A) : option A := match r with Ok a => Some a | Err _ => next end.

(** The four forms a list may have. *)
Definition read_list {A : Set} (t : Shape Value A) (bytes : list Z) : option (list A) :=
  ok_first ((fun r => list_data (data r)) <$> from_slice _ (SSuccess (SWrapped (SList t))) bytes)
    (ok_first (list_data <$> from_slice _ (SWrapped (SList t)) bytes)
      (ok_first (data <$> from_slice _ (SSuccess (SList t)) bytes)
        (ok_first (from_slice _ (SList t) bytes) None))).

Lemma run_send (answer : forall R : Set, HttpCall R -> R) {A} (d : Decoder A) b s log :
  run_prog (logged answer) (send_internal c d b s) log =
  ((s, match answer _ (Http (authorized c b)) with Ok r => read_response d r | Err e => Err e end),
   log ++ [existT _ (Http (authorized c b))]).
Proof.
  unfold send_internal. sm_unfold. cbn. destruct (answer _ _) as [r|e]; cbn; [|done].
  by destruct (read_response d r).
Qed.

(** A server that answers every request the same way is asked once for a list
    inside two wrappers or one, and twice for a bare list and for an error;
    the list is what the first form that fits says. *)
Theorem send_list_outcome (answer : forall R : Set, HttpCall R -> R) {A : Set} (t : Shape Value A) b :
  let req := existT _ (Http (authorized c b)) : Call HttpCall in
  match answer _ (Http (authorized c b)) with
  | Ok r => match body r with
            | Ok bytes =>
                is_success r = true ->
                ok (returns answer (send_list c t b) tt) = read_list t bytes
            | Err e => returns answer (send_list c t b) tt = Err e
            end
  | Err e => returns answer (send_list c t b) tt = Err e
  end /\
  (calls answer (send_list c t b) tt = [req] \/ calls answer (send_list c t b) tt = [req; req]).
Proof.
  cbv zeta. unfold returns, calls, send_list, send. rewrite run_sm_bind, run_attempt, run_send.
  destruct (answer _ _) as [r|e] eqn:Ea; cbn [fst snd].
  - destruct (read_response (derived (SWrapped (SList t))) r) as [w|e1] eqn:E1.
    + cbn. split; [|by left]. unfold read_response in E1. destruct (body r) as [bytes|e]; [|done].
      intros Hs. rewrite Hs in E1. unfold read_list. cbn in E1 |- *.
      destruct (from_slice _ (SSuccess (SWrapped (SList t))) bytes); cbn in E1 |- *; [by injection E1 as <-|].
      destruct (from_slice _ (SWrapped (SList t)) bytes); cbn in E1 |- *; [by injection E1 as <-|done].
    + rewrite run_sm_bind, run_attempt, run_send, Ea.
      destruct (read_response (derived (SList t)) r) as [l|e2] eqn:E2; cbn; (split; [|by right]);
        unfold read_response in E1, E2; destruct (body r) as [bytes|e]; try congruence;
        intros Hs; rewrite Hs in E1, E2; unfold read_list; cbn in E1, E2 |- *;
        repeat (destruct (from_slice _ _ bytes); cbn in E1, E2 |- *; try congruence).
  - rewrite run_sm_bind, run_attempt, run_send, Ea. cbn. split; [done|by right].
Qed.
End Lists.

(** *** The deserializers *)
Section Json.
Context `{ApiJsonLaws}.

(** What a configuration keeps of a login reads back as the login. *)
Theorem auth_roundtrip a :
  -2 ^ 31 <= expires_in a < 2 ^ 31 -> auth_of_value (value_of_auth a) = Ok a.
Proof.
  intros Hr. unfold auth_of_value, value_of_auth.
  match goal with |- context [json_object ?kvs] => destruct (object_fields kvs) as (g & -> & Hg) end.
  unfold get_i32, get_string, get_optional_string. rewrite !Hg. cbn.
  rewrite !string_value. rewrite int_value by lia. cbn.
  assert (Hw : wrap_i32 (expires_in a) = expires_in a).
  { unfold wrap_i32. rewrite Z.mod_small; lia. }
  rewrite Hw. destruct a as [t1 t2 t3 t4 n e u]. cbn in *.
  destruct e, u; cbn; rewrite ?string_value, ?null_no_string; done.
Qed.

(** A snake_case field that is there hides the camelCase one, even when it is
    null: the login then has no token of that kind. *)
Example null_hides t :
  exists a, auth_of_value (json_object [("access_token", json_null); ("accessToken", json_string t)]) = Ok a /\
    access_token a = "" /\ effective_token a = "".
Proof.
  unfold auth_of_value.
  match goal with |- context [json_object ?kvs] => destruct (object_fields kvs) as (g & -> & Hg) end.
  eexists. split; [done|]. unfold effective_token, get_string, get_optional_string. cbn. rewrite !Hg. cbn.
  by rewrite null_no_string.
Qed.

(** The message of a session login takes the first name that has a text. *)
Example null_skipped t :
  exists w, ws_token_of_value (json_object [("token", json_null); ("accessToken", json_string t)]) = Ok w /\ ws_token w = t.
Proof.
  unfold ws_token_of_value.
  match goal with |- context [json_object ?kvs] => destruct (object_fields kvs) as (g & -> & Hg) end.
  eexists. split; [done|]. cbn. rewrite !Hg. cbn. by rewrite null_no_string, string_value.
Qed.
End Json.

(** *** A concrete JSON *)
Module Demo.
(** An object is a chain of its fields. *)
Inductive JV : Set := JNil | JCons (k : string) (v rest : JV) | JS (s : string) | JI (z : Z) | JN.

Fixpoint field (v : JV) (k : string) : option JV :=
  match v with JCons k' x rest => if String.eqb k' k then Some x else field rest k | _ => None end.

#[global] Instance json : ApiJson := {|
  Value := JV;
  as_object v := match v with JNil | JCons _ _ _ => Some (field v) | _ => None end;
  as_str v := match v with JS s => Some s | _ => None end;
  as_i64 v := match v with JI z => Some z | _ => None end;
  json_object := foldr (fun kv => JCons kv.1 kv.2) JNil; json_string := JS; json_int := JI; json_null := JN;
  from_slice A t bytes := Err "not json" |}.

#[global] Instance json_laws : ApiJsonLaws.
Proof.
  split; [|done|done|done]. intros kvs. exists (field (foldr (fun kv => JCons kv.1 kv.2) JNil kvs)).
  split; [by destruct kvs|]. intros k. induction kvs as [|[k' v] kvs IH]; simpl; [done|]. by destruct (String.eqb k' k).
Qed.

Definition login : AuthResp := {|
  token := "t"; refresh_token := "r"; access_token := ""; id_token := ""; expires_in := 3600;
  email := Some "a@b"; user_id := None |}.

Lemma auth_roundtrip_witness : auth_of_value (value_of_auth login) = Ok login.
Proof. apply auth_roundtrip. split; [done|reflexivity]. Defined.

Definition client : ApiClient := ApiClient_new "https://api.omniedge.io/api/v2/" (Some "t").
Lemma services_to_base_witness :
  hoare (to_base client) (fun _ _ _ => True) (me client) tt (fun _ _ => True).
Proof. apply services_to_base. apply svc_me. Defined.
End Demo.
