(* ===== verification/Config.v ===== *)
(** * Configuration (omni-core/src/config.rs)

    The settings of the network, of SSH and of the client, the file they are
    kept in, and the address of the API.  Files, environment and commands are
    an effect; the JSON of the file is a class.  The build is the one for unix. *)

From Stdlib Require Import Ascii.
From S2P Require Import Prelude RustStr Paths Effects.
From S2P Require Api.

Open Scope string_scope.
Open Scope list_scope.
Open Scope Z_scope.

(** ** Network settings *)

Inductive WireGuardMode : Set := Auto | Kernel | Userspace.

#[global] Instance WireGuardMode_eq_dec : EqDecision WireGuardMode.
Proof. solve_decision. Defined.

Definition should_use_kernel (m : WireGuardMode) : bool := false.
Definition display_name (m : WireGuardMode) : string :=
  match m with Auto => "auto" | Kernel => "kernel" | Userspace => "userspace" end.
Definition parse_mode (s : string) : result string WireGuardMode :=
  let l := to_lowercase s in
  if bool_decide (l = "auto") then Ok Auto
  else if bool_decide (l = "kernel") then Ok Kernel
  else if bool_decide (l = "userspace") then Ok Userspace
  else Err ("Invalid WireGuard mode: " +:+ s +:+ ". Valid options: auto, kernel, userspace").

Record NetworkConfig : Set := {
  relay_enabled : bool; relay_server : option string; portmap_enabled : bool; encrypt_signaling : bool;
  ipv6_enabled : bool; prefer_ipv6 : bool; ipv6_preference_threshold_ms : Z; happy_eyeballs_delay_ms : Z;
  mtu : Z; mtu_auto_detect : bool; wireguard_mode : WireGuardMode }.

Definition NetworkConfig_default : NetworkConfig := {|
  relay_enabled := true; relay_server := None; portmap_enabled := true; encrypt_signaling := true;
  ipv6_enabled := true; prefer_ipv6 := true; ipv6_preference_threshold_ms := 5;
  happy_eyeballs_delay_ms := 250; mtu := 1420; mtu_auto_detect := true; wireguard_mode := Auto |}.

(** [linux]: the [cfg] of the build. *)
Definition validate_network (linux : bool) (c : NetworkConfig) : result string unit :=
  if ipv6_preference_threshold_ms c >? 1000 then Err "IPv6 preference threshold must be <= 1000ms"
  else if happy_eyeballs_delay_ms c >? 2000 then Err "Happy Eyeballs delay must be <= 2000ms"
  else if (match relay_server c with Some s => negb (contains s ":") | None => false end)
  then Err "Relay server must include port (format: host:port)"
  else if negb linux && bool_decide (wireguard_mode c = Kernel)
  then Err "Kernel WireGuard mode is only supported on Linux"
  else Ok tt.

Definition features (fs : list (bool * string)) (none : string) : list string :=
  let on := map snd (filter (fun f => f.1 = true) fs) in
  if bool_decide (on = []) then [none] else on.

Definition network_summary (c : NetworkConfig) : list string :=
  features [(relay_enabled c, "Relay Fallback"); (portmap_enabled c, "Port Mapping");
    (encrypt_signaling c, "Encrypted Signaling");
    (ipv6_enabled c, if prefer_ipv6 c then "IPv6 (Preferred)" else "IPv6 (Available)");
    (mtu_auto_detect c, "Auto-MTU Detection")] "Basic Mode".

(** ** SSH settings *)

Record SshConfig : Set := {
  server_enabled : bool; server_port : Z; sftp_enabled : bool; recording_enabled : bool;
  recording_path : option string; recording_cloud_upload : bool; command_filter_enabled : bool;
  blocked_commands : list string; allowed_commands : list string; read_only : bool; max_sessions : Z;
  idle_timeout_secs : Z; rate_limit_per_minute : Z; allowed_users : list string }.

Definition SshConfig_default : SshConfig := {|
  server_enabled := true; server_port := 22; sftp_enabled := true; recording_enabled := false;
  recording_path := None; recording_cloud_upload := false; command_filter_enabled := false;
  blocked_commands := []; allowed_commands := []; read_only := false; max_sessions := 10;
  idle_timeout_secs := 3600; rate_limit_per_minute := 10; allowed_users := [] |}.

Definition validate_ssh (c : SshConfig) : result string unit :=
  if server_port c =? 0 then Err "SSH server port cannot be 0"
  else if max_sessions c =? 0 then Err "max_sessions must be at least 1"
  else if rate_limit_per_minute c =? 0 then Err "rate_limit_per_minute must be at least 1"
  else Ok tt.

Definition ssh_summary (c : SshConfig) : list string :=
  features [(server_enabled c, "SSH Server (port " +:+ show_uint (server_port c) +:+ ")"); (sftp_enabled c, "SFTP");
    (recording_enabled c, "Session Recording"); (command_filter_enabled c, "Command Filtering");
    (read_only c, "Read-Only Mode")] "SSH Disabled".

(** ** The configuration of the client *)

Record CliConfig : Set := {
  auth_file_default_path : string; scan_result_default_path : string;
  auth_response : option Api.AuthResp; token_obtained_at : option Z; device_uuid : option string;
  device_name : option string; last_join_info : option Api.JoinVirtualNetworkResponse;
  last_network_id : option string; scan_ip : option string; scan_mac : option string; scan_mask : option string;
  scan_results : option (list Api.ScanResult); identity_private_key : option string; is_exit_node : bool;
  exit_node_ip : option string; exit_node_ip_v6 : option string; last_run_mode : option string;
  nucleus_port : option Z; has_cluster_secret : bool; network_config : NetworkConfig; ssh_config : SshConfig }.

Definition CliConfig_default : CliConfig := {|
  auth_file_default_path := ""; scan_result_default_path := ""; auth_response := None;
  token_obtained_at := None; device_uuid := None; device_name := None; last_join_info := None;
  last_network_id := None; scan_ip := None; scan_mac := None; scan_mask := None; scan_results := None;
  identity_private_key := None; is_exit_node := false; exit_node_ip := None; exit_node_ip_v6 := None;
  last_run_mode := None; nucleus_port := None; has_cluster_secret := false;
  network_config := NetworkConfig_default; ssh_config := SshConfig_default |}.

(** What the operations change. *)
Definition with_paths (auth scan : string) (c : CliConfig) : CliConfig := {|
  auth_file_default_path := auth; scan_result_default_path := scan; auth_response := auth_response c;
  token_obtained_at := token_obtained_at c; device_uuid := device_uuid c; device_name := device_name c;
  last_join_info := last_join_info c; last_network_id := last_network_id c; scan_ip := scan_ip c;
  scan_mac := scan_mac c; scan_mask := scan_mask c; scan_results := scan_results c;
  identity_private_key := identity_private_key c; is_exit_node := is_exit_node c;
  exit_node_ip := exit_node_ip c; exit_node_ip_v6 := exit_node_ip_v6 c; last_run_mode := last_run_mode c;
  nucleus_port := nucleus_port c; has_cluster_secret := has_cluster_secret c;
  network_config := network_config c; ssh_config := ssh_config c |}.
Definition with_auth (auth : option Api.AuthResp) (at_ : option Z) (c : CliConfig) : CliConfig := {|
  auth_file_default_path := auth_file_default_path c; scan_result_default_path := scan_result_default_path c;
  auth_response := auth; token_obtained_at := at_; device_uuid := device_uuid c; device_name := device_name c;
  last_join_info := last_join_info c; last_network_id := last_network_id c; scan_ip := scan_ip c;
  scan_mac := scan_mac c; scan_mask := scan_mask c; scan_results := scan_results c;
  identity_private_key := identity_private_key c; is_exit_node := is_exit_node c;
  exit_node_ip := exit_node_ip c; exit_node_ip_v6 := exit_node_ip_v6 c; last_run_mode := last_run_mode c;
  nucleus_port := nucleus_port c; has_cluster_secret := has_cluster_secret c;
  network_config := network_config c; ssh_config := ssh_config c |}.
Definition with_network (exit : bool) (n : NetworkConfig) (c : CliConfig) : CliConfig := {|
  auth_file_default_path := auth_file_default_path c; scan_result_default_path := scan_result_default_path c;
  auth_response := auth_response c; token_obtained_at := token_obtained_at c; device_uuid := device_uuid c;
  device_name := device_name c; last_join_info := last_join_info c; last_network_id := last_network_id c;
  scan_ip := scan_ip c; scan_mac := scan_mac c; scan_mask := scan_mask c; scan_results := scan_results c;
  identity_private_key := identity_private_key c; is_exit_node := exit;
  exit_node_ip := exit_node_ip c; exit_node_ip_v6 := exit_node_ip_v6 c; last_run_mode := last_run_mode c;
  nucleus_port := nucleus_port c; has_cluster_secret := has_cluster_secret c;
  network_config := n; ssh_config := ssh_config c |}.

(** ** The system

    [Command]: the output of a command that could be started.  [ReadDir]: the
    names of a directory, [None] for an entry without a readable one. *)
Inductive ConfCall : Set -> Set :=
| EnvVar (name : string) : ConfCall (option string)
| Command (name : string) (args : list string) : ConfCall (option (list Z))
| Exists (path : string) : ConfCall bool
| HomeDir : ConfCall (option string)
| CreateDirAll (path : string) : ConfCall (result string unit)
| ReadToString (path : string) : ConfCall (result string string)
| WriteFile (path content : string) : ConfCall (result string unit)
| Owner (path : string) : ConfCall (result string Z)
| SetMode (path : string) (mode : Z) : ConfCall (result string unit)
| GetUid : ConfCall Z
| GetPwNam (user : string) : ConfCall (option (Z * Z))
| Chown (path : string) (uid gid : Z) : ConfCall unit
| ReadDir (path : string) : ConfCall (option (list (option string)))
| UnixNow : ConfCall Z.

(** The JSON of the file (serde_json). *)
Class ConfigCodec : Set := {
  from_str : string -> result string CliConfig;
  to_string_pretty : CliConfig -> result string string }.

Abbreviation FM := (SM ConfCall unit string) (only parsing).

Definition lossy (l : list Z) : string := bytes_string (from_utf8_lossy l).

(** [effective_mtu], where [vpn] is what [detect_vpn_active] says. *)
Definition vpn_excluded (name : string) : bool :=
  starts_with name "tunl" || starts_with name "omniedge" || starts_with name "sit".
Definition vpn_name (name : string) : bool :=
  negb (vpn_excluded name) &&
  (starts_with name "tun" || starts_with name "wg" || starts_with name "tap" || starts_with name "ppp").

Definition detect_vpn_active_linux : FM bool :=
  entries ← call (ReadDir "/sys/class/net");
  mret (match entries with
        | Some names => existsb (fun n => match n with Some n => vpn_name n | None => false end) names
        | None => false
        end).

(** [s.lines()]. *)
Definition strip_cr (l : string) : string :=
  if ends_with l (String "013" "") then take_str (String.length l - 1) l else l.
Definition lines (s : string) : list string :=
  let ls := split "010" s in
  map strip_cr (removelast ls) ++ match last ls with Some "" | None => [] | Some l => [l] end.

Definition vpn_line (line : string) : bool :=
  (starts_with line "utun" || starts_with line "ppp") && contains line ":".
Definition detect_vpn_active_macos : FM bool :=
  output ← call (Command "ifconfig" []);
  mret (match output with Some o => existsb vpn_line (lines (lossy o)) | None => false end).

(** [linux]: else the build is for macos. *)
Definition effective_mtu (linux : bool) (c : NetworkConfig) : FM Z :=
  if mtu_auto_detect c then
    vpn ← (if linux then detect_vpn_active_linux else detect_vpn_active_macos);
    mret (if vpn : bool then 1280 else mtu c)
  else mret (mtu c).

(** ** Where the file is *)

Definition ask_home (user : string) : list string := ["-c"; "eval echo ~" +:+ user].
Definition home_of (user : string) : string := "/home/" +:+ user.

Definition get_real_user_home : FM (option string) :=
  sudo_user ← call (EnvVar "SUDO_USER");
  match sudo_user with
  | None => mret None
  | Some user =>
      if bool_decide (user = "") || bool_decide (user = "root") then mret None
      else
        output ← call (Command "sh" (ask_home user));
        found ← match output with
                | None => mret None
                | Some o =>
                    let home := trim (lossy o) in
                    if bool_decide (home = "") || bool_decide (home = "~") then mret None
                    else there ← call (Exists home); mret (if there : bool then Some home else None)
                end;
        match found with
        | Some home => mret (Some home)
        | None =>
            there ← call (Exists (home_of user));
            mret (if there : bool then Some (home_of user) else None)
        end
  end.

(** The directory of the user's files. *)
Definition user_home : FM string :=
  real ← get_real_user_home;
  match real with
  | Some h => mret h
  | None => h ← call HomeDir; or_throw "Could not find home directory" h
  end.

Definition config_path : FM string :=
  home ← user_home;
  let dir := path_join home ".omniedge" in
  _ ← call (CreateDirAll dir);
  mret (path_join dir "auth.json").

Definition default_with_paths : FM CliConfig :=
  home ← user_home;
  let base := path_join home ".omniedge" in
  mret (with_paths (base +:+ "/auth.json") (base +:+ "/scan.json") CliConfig_default).

(** ** Loading and saving *)

Section Codec.
Context {J : ConfigCodec}.

Definition is_empty (s : string) : bool := bool_decide (s = "").

Definition load : FM CliConfig :=
  path ← config_path;
  there ← call (Exists path);
  if negb there then default_with_paths
  else
    content ← call (ReadToString path);
    content ← lift content;
    config ← lift (from_str content);
    if is_empty (auth_file_default_path config) || is_empty (scan_result_default_path config) then
      defaults ← default_with_paths;
      mret (with_paths
        (if is_empty (auth_file_default_path config) then auth_file_default_path defaults
         else auth_file_default_path config)
        (if is_empty (scan_result_default_path config) then scan_result_default_path defaults
         else scan_result_default_path config) config)
    else mret config.

Definition has_nul (s : string) : bool := contains s (String "000" "").

(** Give the file, and its directory if root owns it, to the user behind sudo. *)
Definition chown_to_real_user (path : string) : FM unit :=
  me ← call GetUid;
  if negb (me =? 0) then mret tt
  else
    sudo_user ← call (EnvVar "SUDO_USER");
    match sudo_user with
    | None => mret tt
    | Some user =>
        if is_empty user || bool_decide (user = "root") || has_nul user then mret tt
        else
          pw ← call (GetPwNam user);
          match pw with
          | None => mret tt
          | Some (uid, gid) =>
              _ ← (if has_nul path then mret tt else call (Chown path uid gid));
              match path_parent path with
              | None => mret tt
              | Some parent =>
                  owner ← call (Owner parent);
                  match owner with
                  | Ok 0 => if has_nul parent then mret tt else call (Chown parent uid gid)
                  | _ => mret tt
                  end
              end
          end
    end.

Definition save (c : CliConfig) : FM unit :=
  path ← config_path;
  _ ← match path_parent path with
      | Some parent => r ← call (CreateDirAll parent); lift r
      | None => mret tt
      end;
  content ← lift (to_string_pretty c);
  written ← call (WriteFile path content);
  _ ← lift written;
  perms ← call (Owner path);
  _ ← lift perms;
  set ← call (SetMode path 384);
  _ ← lift set;
  chown_to_real_user path.
End Codec.

(** ** Tokens *)

Definition wrap_i64 (z : Z) : Z := (z + 2 ^ 63) `mod` 2 ^ 64 - 2 ^ 63.

Definition token_expired_at (now : Z) (c : CliConfig) : bool :=
  match auth_response c, token_obtained_at c with
  | Some auth, Some obtained_at => wrap_i64 (wrap_i64 (obtained_at + Api.expires_in auth) - 300) <=? now
  | _, _ => true
  end.
(** The clock is read only when it matters. *)
Definition is_token_expired (c : CliConfig) : FM bool :=
  match auth_response c, token_obtained_at c with
  | Some _, Some _ => now ← call UnixNow; mret (token_expired_at now c)
  | _, _ => mret true
  end.

Definition set_auth_response (auth : Api.AuthResp) (c : CliConfig) : FM CliConfig :=
  now ← call UnixNow; mret (with_auth (Some auth) (Some now) c).

(** ** The address of the API *)

Definition DEFAULT_BASE_URL : string := "https://api.omniedge.io".
Definition API_VERSION : string := "/api/v2".

(** [s.trim_end_matches(p)] for a text [p] that is not empty. *)
Fixpoint trim_suffixes (fuel : nat) (p s : string) : string :=
  match fuel with
  | O => s
  | S fuel => if ends_with s p then trim_suffixes fuel p (take_str (String.length s - String.length p) s) else s
  end.
Definition trim_end_str (p s : string) : string := trim_suffixes (String.length s) p s.

Definition versioned (base : string) : bool := ends_with base "/api/v2" || ends_with base "/api/v1".
Fixpoint trim_versions (fuel : nat) (base : string) : string :=
  match fuel with
  | O => base
  | S fuel =>
      if versioned base then
        trim_versions fuel (trim_end_matches "/" (trim_end_str "/api/v1" (trim_end_str "/api/v2" base)))
      else base
  end.

Definition api_base_url (var : option string) : string :=
  let base := trim_end_matches "/" (from_option id DEFAULT_BASE_URL var) in
  trim_versions (S (String.length base)) base +:+ API_VERSION.
Definition get_api_base_url : FM string := url ← call (EnvVar "OMNIEDGE_API_BASE_URL"); mret (api_base_url url).

Example api_urls :
  api_base_url None = "https://api.omniedge.io/api/v2" /\
  api_base_url (Some "http://localhost:8080/api/v1/api/v2//") = "http://localhost:8080/api/v2" /\
  api_base_url (Some "x/api/v1/api/v2/api/v1") = "x/api/v2".
Proof. by vm_compute. Qed.

(** ** Theorems *)

Lemma parse_display m : parse_mode (display_name m) = Ok m.
Proof. by destruct m. Qed.

(** *** The address of the API *)

Lemma trim_end_id a s : (forall u, s <> u +:+ String a "") -> trim_end_matches a s = s.
Proof.
  induction s as [|b s IH]; intros Hs; [done|]. simpl. rewrite IH.
  - destruct s; [|done]. rewrite bool_decide_false; [done|]. intros ->. by apply (Hs "").
  - intros u ->. by apply (Hs (String b u)).
Qed.

Lemma trim_end_length a s : (String.length (trim_end_matches a s) <= String.length s)%nat.
Proof.
  induction s as [|b s IH]; simpl; [done|].
  destruct (trim_end_matches a s); [case_bool_decide|]; simpl in *; lia.
Qed.

Lemma take_suffix p s : ends_with s p = true -> s = take_str (String.length s - String.length p) s +:+ p.
Proof.
  intros [t ->]%ends_with_spec. rewrite length_append.
  replace (String.length t + String.length p - String.length p)%nat with (String.length t) by lia.
  by rewrite take_str_app.
Qed.

Lemma take_suffix_length p s : p <> "" -> ends_with s p = true ->
  (String.length (take_str (String.length s - String.length p) s) < String.length s)%nat.
Proof.
  intros Hp H%take_suffix. apply (f_equal String.length) in H. rewrite length_append in H.
  destruct p; [done|]. simpl in *. lia.
Qed.

Section Suffix.
Context (p : string) (Hp : p <> "").

Lemma trim_suffixes_clean fuel s : (String.length s <= fuel)%nat -> ends_with (trim_suffixes fuel p s) p = false.
Proof.
  revert s. induction fuel as [|fuel IH]; intros s Hs; simpl.
  - destruct s; [|simpl in Hs; lia]. destruct (ends_with "" p) eqn:E; [|done].
    apply ends_with_spec in E as [t Ht]. by destruct t, p.
  - destruct (ends_with s p) eqn:E; [|done]. apply IH. apply take_suffix_length in E; [lia|done].
Qed.

Lemma trim_suffixes_length fuel s : (String.length (trim_suffixes fuel p s) <= String.length s)%nat.
Proof.
  revert s. induction fuel as [|fuel IH]; intros s; simpl; [done|]. destruct (ends_with s p) eqn:E; [|done].
  apply take_suffix_length in E; [|done]. specialize (IH (take_str (String.length s - String.length p) s)). lia.
Qed.

Lemma trim_end_str_clean s : ends_with (trim_end_str p s) p = false.
Proof. by apply trim_suffixes_clean. Qed.
Lemma trim_end_str_length s : (String.length (trim_end_str p s) <= String.length s)%nat.
Proof. apply trim_suffixes_length. Qed.
Lemma trim_end_str_shorter s : ends_with s p = true -> (String.length (trim_end_str p s) < String.length s)%nat.
Proof.
  intros E. unfold trim_end_str. destruct s as [|a s].
  - apply ends_with_spec in E as [t Ht]. by destruct t, p.
  - cbn [String.length trim_suffixes]. rewrite E.
    pose proof (take_suffix_length p (String a s) Hp E). cbn [String.length] in *.
    eapply Nat.le_lt_trans; [apply trim_suffixes_length|done].
Qed.
Lemma trim_suffixes_id fuel s : ends_with s p = false -> trim_suffixes fuel p s = s.
Proof. intros E. destruct fuel; simpl; [done|]. by rewrite E. Qed.
Lemma trim_end_str_once s : ends_with s p = false -> trim_end_str p (s +:+ p) = s.
Proof.
  intros E. unfold trim_end_str. destruct (String.length (s +:+ p)) as [|n] eqn:Hn.
  - rewrite length_append in Hn. destruct p; [done|]. simpl in Hn. lia.
  - cbn [trim_suffixes]. assert (Ht : ends_with (s +:+ p) p = true) by (apply ends_with_spec; eauto).
    rewrite Ht, length_append, Nat.add_sub, take_str_app. by apply trim_suffixes_id.
Qed.
End Suffix.

(** What is left once slashes and versions are gone. *)
Definition clean_base (root : string) : Prop := (forall u, root <> u +:+ "/") /\ versioned root = false.

Lemma trim_versions_clean fuel base :
  (String.length base < fuel)%nat -> (forall u, base <> u +:+ "/") -> clean_base (trim_versions fuel base).
Proof.
  revert base. induction fuel as [|fuel IH]; intros base Hf Hb; [lia|]. simpl.
  destruct (versioned base) eqn:E; [|done]. apply IH; [|apply Api.trim_end_clean].
  eapply Nat.le_lt_trans; [apply trim_end_length|].
  pose proof (trim_end_str_length "/api/v1" ltac:(done) (trim_end_str "/api/v2" base)) as H1.
  pose proof (trim_end_str_length "/api/v2" ltac:(done) base) as H2.
  unfold versioned in E. destruct (ends_with base "/api/v2") eqn:E2.
  - pose proof (trim_end_str_shorter "/api/v2" ltac:(done) base E2). lia.
  - unfold trim_end_str at 2 in H1. unfold trim_end_str at 2. rewrite trim_suffixes_id in H1 |- * by done.
    pose proof (trim_end_str_shorter "/api/v1" ltac:(done) base E). lia.
Qed.

(** Whatever the variable holds, the loop ends and the address is a base
    without slash or version at its end, and one version; given back, that
    address is the same address. *)
Theorem api_base_url_canonical var :
  exists root, clean_base root /\ api_base_url var = root +:+ "/api/v2" /\
    api_base_url (Some (api_base_url var)) = api_base_url var.
Proof.
  set (base := trim_end_matches "/" (from_option id DEFAULT_BASE_URL var)).
  set (root := trim_versions (S (String.length base)) base).
  assert (Hc : clean_base root) by (apply trim_versions_clean; [lia|apply Api.trim_end_clean]).
  exists root. split; [done|]. split; [done|]. destruct Hc as [Hs Hv].
  assert (Hu : api_base_url var = root +:+ "/api/v2") by done. rewrite Hu. unfold api_base_url. cbn [from_option id].
  rewrite (trim_end_id "/" (root +:+ "/api/v2")).
  2: { intros u Hu2. replace (root +:+ "/api/v2") with ((root +:+ "/api/v") +:+ "2") in Hu2 by (by rewrite append_assoc).
       apply append_last_inj in Hu2 as [_ [=]]. }
  cbn [trim_versions].
  assert (E : versioned (root +:+ "/api/v2") = true).
  { unfold versioned. apply orb_true_iff. left. apply ends_with_spec. eauto. }
  rewrite E. unfold versioned in Hv. apply orb_false_iff in Hv as [H2 H1].
  rewrite trim_end_str_once by done. unfold trim_end_str. rewrite trim_suffixes_id by done.
  rewrite trim_end_id by done. destruct (String.length (root +:+ "/api/v2")) eqn:En.
  { rewrite length_append in En. simpl in En. lia. }
  cbn [trim_versions]. unfold versioned. by rewrite H2, H1.
Qed.

(** *** Tokens *)

(** A token just obtained lasts until five minutes before its end. *)
Theorem fresh_token_lives obtained now auth c :
  0 <= obtained < 2 ^ 62 -> -2 ^ 31 <= Api.expires_in auth < 2 ^ 31 ->
  token_expired_at now (with_auth (Some auth) (Some obtained) c) = true <->
  obtained + Api.expires_in auth - 300 <= now.
Proof.
  intros Ho He. unfold token_expired_at. cbn. rewrite Z.leb_le.
  assert (Hw : forall z, -2 ^ 63 <= z < 2 ^ 63 -> wrap_i64 z = z) by (intros z Hz; unfold wrap_i64; rewrite Z.mod_small; lia).
  rewrite (Hw (obtained + _)) by lia. rewrite Hw by lia. done.
Qed.

(** *** The file *)

Section File.
Context {J : ConfigCodec}.

(** A disk that keeps what is written to it, in an environment that does not
    change. *)
Definition disk (env : forall R : Set, ConfCall R -> R) (R : Set) (c : ConfCall R) : gmap string string -> R * gmap string string :=
  match c in ConfCall R return gmap string string -> R * gmap string string with
  | WriteFile p text => fun w =>
      match env _ (WriteFile p text) with Ok _ => (Ok tt, <[p := text]> w) | Err e => (Err e, w) end
  | ReadToString p => fun w => (match w !! p with Some text => Ok text | None => env _ (ReadToString p) end, w)
  | Exists p => fun w => (match w !! p with Some _ => true | None => env _ (Exists p) end, w)
  | c => fun w => (env _ c, w)
  end.

Context (env : forall R : Set, ConfCall R -> R).
Abbreviation on w m := (run_prog (disk env) (m tt) w) (only parsing).

(** The places where a home is looked for. *)
Definition homes : list string :=
  match env _ (EnvVar "SUDO_USER") with
  | Some user => home_of user :: match env _ (Command "sh" (ask_home user)) with
                                 | Some o => [trim (lossy o)]
                                 | None => []
                                 end
  | None => []
  end.

(** Finding the home writes nothing and looks only there. *)
Lemma real_home_same w w' :
  (forall h, h ∈ homes -> w !! h = w' !! h) ->
  exists r, on w get_real_user_home = ((tt, Ok r), w) /\ on w' get_real_user_home = ((tt, Ok r), w').
Proof.
  unfold homes. intros Hw. unfold get_real_user_home. rewrite !run_sm_bind. cbn.
  destruct (env _ (EnvVar "SUDO_USER")) as [user|]; [|by eexists].
  pose proof (Hw (home_of user) ltac:(set_solver)) as H1.
  destruct (bool_decide (user = "") || bool_decide (user = "root")); [by eexists|].
  rewrite !run_sm_bind. cbn. destruct (env _ (Command "sh" (ask_home user))) as [o|]; rewrite !run_sm_bind.
  - pose proof (Hw (trim (lossy o)) ltac:(set_solver)) as H2.
    destruct (bool_decide (trim (lossy o) = "") || bool_decide (trim (lossy o) = "~")).
    + cbn. rewrite !run_sm_bind. cbn. rewrite H1. by eexists.
    + rewrite !run_sm_bind. cbn. rewrite H2. destruct (w' !! trim (lossy o)); cbn; [by eexists|].
      destruct (env _ (Exists (trim (lossy o)))); cbn; [by eexists|]. rewrite !run_sm_bind. cbn. rewrite H1. by eexists.
  - cbn. rewrite !run_sm_bind. cbn. rewrite H1. by eexists.
Qed.

Lemma user_home_same w w' :
  (forall h, h ∈ homes -> w !! h = w' !! h) ->
  exists r, on w user_home = ((tt, r), w) /\ on w' user_home = ((tt, r), w').
Proof.
  intros Hw. unfold user_home. rewrite !run_sm_bind. destruct (real_home_same w w' Hw) as (r & -> & ->).
  destruct r as [h|]; [by eexists|]. rewrite !run_sm_bind. cbn. destruct (env _ HomeDir); by eexists.
Qed.

Lemma config_path_same w w' :
  (forall h, h ∈ homes -> w !! h = w' !! h) ->
  exists r, on w config_path = ((tt, r), w) /\ on w' config_path = ((tt, r), w').
Proof.
  intros Hw. unfold config_path. rewrite !run_sm_bind. destruct (user_home_same w w' Hw) as (r & -> & ->).
  destruct r as [h|e]; [|by eexists]. rewrite !run_sm_bind. by eexists.
Qed.

Definition paths_set (c : CliConfig) : Prop :=
  is_empty (auth_file_default_path c) || is_empty (scan_result_default_path c) = false.

(** Giving the file away changes no file. *)
Lemma run_chown path w : exists r, on w (chown_to_real_user path) = (r, w).
Proof.
  unfold chown_to_real_user. rewrite run_sm_bind. cbn [run_prog call disk].
  destruct (negb _); [by eexists|]. rewrite run_sm_bind. cbn [run_prog call disk].
  destruct (env _ (EnvVar "SUDO_USER")) as [user|]; [|by eexists].
  destruct (_ || _ || _); [by eexists|]. rewrite run_sm_bind. cbn [run_prog call disk].
  destruct (env _ (GetPwNam user)) as [[u g]|]; [|by eexists]. rewrite run_sm_bind.
  assert (H : on w ((if has_nul path then mret tt else call (Chown path u g)) : FM unit) =
              ((tt, Ok (if has_nul path then tt else env _ (Chown path u g))), w)) by (by destruct (has_nul path)).
  rewrite H. destruct (path_parent path) as [parent|]; [|by eexists].
  rewrite run_sm_bind. cbn [run_prog call disk]. destruct (env _ (Owner parent)) as [[| |]|]; try by eexists.
  destruct (has_nul parent); by eexists.
Qed.

(** What was saved with success is what the next load gives, for a
    configuration whose paths are set and whose text reads back. *)
Theorem saved_config_loads w c path text :
  (on w config_path).1.2 = Ok path -> path ∉ homes ->
  paths_set c -> to_string_pretty c = Ok text -> from_str text = Ok c ->
  (on w (save c)).1.2 = Ok tt ->
  (on (on w (save c)).2 load).1.2 = Ok c.
Proof.
  intros Hpath Hhome Hset Htext Hback Hsave.
  destruct (config_path_same w w ltac:(done)) as (r & Hr & _). rewrite Hr in Hpath. cbn in Hpath. subst r.
  assert (Hw : (on w (save c)).2 = <[path := text]> w).
  { revert Hsave. unfold save. rewrite run_sm_bind, Hr, run_sm_bind.
    assert (Hdir : exists r, on w (match path_parent path with
        | Some parent => r ← call (CreateDirAll parent); lift r | None => mret tt end) = ((tt, r), w)).
    { destruct (path_parent path) as [parent|]; [|by eexists]. rewrite run_sm_bind. cbn.
      destruct (env _ (CreateDirAll parent)); by eexists. }
    destruct Hdir as [[[]|e] ->]; [|done]. rewrite run_sm_bind, Htext. cbn [lift run_prog mret SM_ret].
    rewrite run_sm_bind. cbn [run_prog call disk]. destruct (env _ (WriteFile path text)) as [u|e]; cbn [run_prog]; [|done].
    rewrite run_sm_bind. cbn [lift run_prog mret SM_ret]. rewrite run_sm_bind. cbn [run_prog call disk].
    rewrite run_sm_bind. destruct (env _ (Owner path)) as [o|e]; [|done]. cbn [lift run_prog mret SM_ret].
    rewrite run_sm_bind. cbn [run_prog call disk]. rewrite run_sm_bind.
    destruct (env _ (SetMode path 384)) as [o'|e]; [|done]. cbn [lift run_prog mret SM_ret].
    destruct (run_chown path (<[path:=text]> w)) as [r ->]. done. }
  rewrite Hw. unfold load. rewrite run_sm_bind.
  destruct (config_path_same w (<[path:=text]> w)) as (r & Hr1 & Hr2).
  { intros h Hh. rewrite lookup_insert_ne; [done|]. by intros ->. }
  rewrite Hr in Hr1. injection Hr1 as <-. rewrite Hr2, run_sm_bind. cbn [run_prog call disk].
  rewrite lookup_insert_eq. cbn [run_prog negb]. rewrite run_sm_bind. cbn [run_prog call disk].
  rewrite lookup_insert_eq. cbn [run_prog]. rewrite run_sm_bind. cbn [lift run_prog mret SM_ret].
  rewrite run_sm_bind, Hback. cbn [lift run_prog mret SM_ret]. unfold paths_set in Hset. by rewrite Hset.
Qed.
End File.

(** *** Giving files away *)
Section Give.
Context {J : ConfigCodec} (answer : forall R : Set, ConfCall R -> R).

Definition config_file (p : string) : Prop := exists dir, p = path_join dir "auth.json".

(** Files go to the user behind sudo only, only from root, a directory only
    when root owns it; and modes are set to that of a private file. *)
Definition careful (R : Set) (c : ConfCall R) : Prop :=
  match c with
  | Chown p uid gid => answer _ GetUid = 0 /\ exists user,
      answer _ (EnvVar "SUDO_USER") = Some user /\ user <> "" /\ user <> "root" /\
      answer _ (GetPwNam user) = Some (uid, gid) /\
      (config_file p \/ exists path, config_file path /\ path_parent path = Some p /\ answer _ (Owner p) = Ok 0)
  | SetMode p mode => mode = 384 /\ config_file p
  | _ => True
  end.

Abbreviation chk m Q := (hoare careful (fun R c r => r = answer R c) m tt Q) (only parsing).

Lemma user_home_careful : chk user_home (fun _ _ => True).
Proof.
  unfold user_home, get_real_user_home. repeat (sm_step; try done).
  all: destruct r as [o|]; [destruct (_ || _)|]; repeat (sm_step; try done); destruct r; by repeat (sm_step; try done).
Qed.

Lemma config_path_careful : chk config_path (fun _ r => forall p, r = Ok p -> config_file p).
Proof.
  unfold config_path. sm_step. eapply hoare_mono; [apply user_home_careful|]. intros [] [h|e] _; [|done].
  cbv beta iota zeta. sm_step. sm_step; [done|]. cbv beta iota. sm_step. intros p [= <-]. by eexists.
Qed.

Lemma chown_careful path : config_file path -> chk (chown_to_real_user path) (fun _ _ => True).
Proof.
  intros Hp. unfold chown_to_real_user. sm_step. sm_step; [done|]. cbv beta iota. sm_step; [by sm_step|].
  apply negb_false_iff, Z.eqb_eq in H0. subst r. sm_step. sm_step; [done|]. cbv beta iota.
  destruct r as [user|]; [|by sm_step]. sm_step; [by sm_step|]. apply orb_false_iff in H1 as [[Hu Hr]%orb_false_iff _].
  apply bool_decide_eq_false in Hu, Hr. sm_step. sm_step; [done|]. cbv beta iota.
  destruct r as [[uid gid]|]; [|by sm_step].
  assert (Hgive : forall q, (config_file q \/ exists path, config_file path /\ path_parent path = Some q /\ answer _ (Owner q) = Ok 0) ->
    careful _ (Chown q uid gid)) by (intros q Hq; split; [done|]; by exists user).
  sm_step. eapply (hoare_mono _ _ _ _ (fun s' r => r = Ok tt)).
  { sm_step; [by sm_step|]. sm_step; [apply Hgive; by left|]. by destruct r. }
  intros [] r ->. cbv beta iota. destruct (path_parent path) as [parent|] eqn:Epar; [|by sm_step].
  sm_step. sm_step; [done|]. cbv beta iota. destruct r as [[| |]|]; try by sm_step.
  sm_step; [by sm_step|]. sm_step; [|done]. apply Hgive. right. by exists path.
Qed.

Lemma save_careful c : chk (save c) (fun _ _ => True).
Proof.
  unfold save. sm_step. eapply hoare_mono; [apply config_path_careful|]. intros [] [path|e] Hp; [|done].
  specialize (Hp path eq_refl). cbv beta iota. sm_step. eapply (hoare_mono _ _ _ _ (fun _ _ => True)).
  { destruct (path_parent path); repeat (sm_step; try done). }
  intros [] [u|e] _; [|done]. cbv beta iota. do 7 (sm_step; try done; cbv beta iota).
  sm_step; [done|]. cbv beta iota. sm_step. sm_step; [|done]. cbv beta iota. sm_step. sm_step; [by split|].
  cbv beta iota. sm_step. sm_step; [|done]. cbv beta iota. by apply chown_careful.
Qed.

(** Whatever the system answers, saving gives files only to the user behind
    sudo, and opens the file to nobody else. *)
Theorem saving_is_careful c (d : Call ConfCall) :
  d ∈ calls answer (save c) tt -> careful (projT1 d) (projT2 d).
Proof. intros Hd. exact (hoare_calls answer careful (save c) tt _ (save_careful c) d Hd). Qed.
End Give.

(** *** A concrete environment *)
Module Demo.
Definition config : CliConfig := with_paths "/home/u/.omniedge/auth.json" "/home/u/.omniedge/scan.json" CliConfig_default.
#[global] Instance codec : ConfigCodec := {|
  from_str s := if String.eqb s "{}" then Ok config else Err "expected value";
  to_string_pretty _ := Ok "{}" |}.
Definition env (R : Set) (c : ConfCall R) : R :=
  match c in ConfCall R return R with
  | EnvVar _ => None
  | Command _ _ => None
  | Exists _ => false
  | HomeDir => Some "/home/u"
  | CreateDirAll _ => Ok tt
  | ReadToString _ => Err "No such file or directory"
  | WriteFile _ _ => Ok tt
  | Owner _ => Ok 1000
  | SetMode _ _ => Ok tt
  | GetUid => 1000
  | GetPwNam _ => None
  | Chown _ _ _ => tt
  | ReadDir _ => None
  | UnixNow => 1700000000
  end.

Lemma saved_config_loads_witness :
  (run_prog (disk env) (load tt) (run_prog (disk env) (save config tt) ∅).2).1.2 = Ok config.
Proof.
  apply (saved_config_loads env ∅ config "/home/u/.omniedge/auth.json" "{}"); try reflexivity.
  unfold homes. cbn. set_solver.
Defined.

(** As root behind sudo: the file goes to the user. *)
Definition sudo (R : Set) (c : ConfCall R) : R :=
  match c in ConfCall R return R -> R with
  | EnvVar _ => fun _ => Some "u"
  | Exists _ => fun _ => true
  | GetUid => fun _ => 0
  | GetPwNam _ => fun _ => Some (1000, 1000)
  | _ => fun r => r
  end (env R c).

Lemma saving_is_careful_witness :
  careful sudo _ (Chown "/home/u/.omniedge/auth.json" 1000 1000).
Proof.
  apply (saving_is_careful sudo config (existT _ (Chown "/home/u/.omniedge/auth.json" 1000 1000))).
  vm_compute. repeat first [apply list_elem_of_here | apply list_elem_of_further].
Defined.
End Demo.
