(* ===== verification/Login.v ===== *)
(** * Logging in from the command line (omni-cli/src/oauth.rs)

    A saved login, its renewal, and the device flow: programs over the API
    (Api.v), the files of the configuration (Config.v) and the terminal, in
    the configuration they change. *)

From Stdlib Require Import Ascii.
From S2P Require Import Prelude RustStr Effects.
From S2P Require Api Config.

Open Scope string_scope.
Open Scope list_scope.
Open Scope Z_scope.

Inductive OwnCall : Set -> Set :=
| IsTerminal : OwnCall bool
| Sleep (secs : Z) : OwnCall unit.

Definition LoginCall (R : Set) : Set := (OwnCall R + Api.HttpCall R + Config.ConfCall R)%type.
Definition own {R : Set} (c : OwnCall R) : LoginCall R := inl (inl c).
Definition of_http (R : Set) (c : Api.HttpCall R) : LoginCall R := inl (inr c).
Definition of_conf (R : Set) (c : Config.ConfCall R) : LoginCall R := inr c.

(** The state is the configuration, [&mut CliConfig]. *)
Abbreviation LM := (SM LoginCall Config.CliConfig string) (only parsing).

Section Login.
Context `{Api.ApiJson, Config.ConfigCodec} (base_url : string).

(** Programs of the two parts. *)
Definition web {A} (m : SM Api.HttpCall unit string A) : LM A := zoom of_http (fun _ => tt) (fun _ c => c) id m.
Definition conf {A} (m : SM Config.ConfCall unit string A) : LM A := zoom of_conf (fun _ => tt) (fun _ c => c) id m.

Definition client : Api.ApiClient := Api.ApiClient_new base_url None.
Definition CLIENT_ID : string := "omniedge-cli".

Definition try_refresh_token (refresh_token : string) : LM Api.AuthResp := web (Api.refresh client CLIENT_ID refresh_token).

Definition with_refresh (r : string) (a : Api.AuthResp) : Api.AuthResp := {|
  Api.token := Api.token a; Api.refresh_token := r; Api.access_token := Api.access_token a;
  Api.id_token := Api.id_token a; Api.expires_in := Api.expires_in a; Api.email := Api.email a;
  Api.user_id := Api.user_id a |}.
Definition with_token (t : string) (a : Api.AuthResp) : Api.AuthResp := {|
  Api.token := t; Api.refresh_token := Api.refresh_token a; Api.access_token := Api.access_token a;
  Api.id_token := Api.id_token a; Api.expires_in := Api.expires_in a; Api.email := Api.email a;
  Api.user_id := Api.user_id a |}.
(** The token field is set, if need be from the access token. *)
Definition fill_token (a : Api.AuthResp) : Api.AuthResp :=
  if bool_decide (Api.token a = "") then with_token (Api.access_token a) a else a.
Definition keep_refresh (old : string) (a : Api.AuthResp) : Api.AuthResp :=
  if bool_decide (Api.refresh_token a = "") then with_refresh old a else a.

Definition is_token_expired : LM bool := c ← gets id; conf (Config.is_token_expired c).
Definition set_auth_response (auth : Api.AuthResp) : LM unit :=
  c ← gets id; c' ← conf (Config.set_auth_response auth c); modify (fun _ => c').
Definition save : LM unit := c ← gets id; conf (Config.save c).
Definition forget : LM unit := modify (Config.with_auth None None).

(** ** The device flow *)

Definition pending (e : string) : bool :=
  let l := to_lowercase e in contains l "authorization_pending" || contains l "slow_down".
Definition slower (e : string) (interval : Z) : Z :=
  if contains (to_lowercase e) "slow_down" then wrap_add u64_max interval 5 else interval.

(** The polling loop; the result is [None] when the fuel runs out. *)
Fixpoint poll (fuel : nat) (code : string) (interval : Z) : LM (option Api.AuthResp) :=
  match fuel with
  | O => mret None
  | S fuel =>
      _ ← call (own (Sleep interval));
      r ← attempt (web (Api.device_flow_token client CLIENT_ID code));
      match r with
      | Ok token => mret (Some (fill_token token))
      | Err e => if pending e then poll fuel code (slower e interval) else throw e
      end
  end.

(** [as u64] of an [i32]. *)
Definition first_interval (i : Z) : Z := let n := i `mod` 2 ^ 64 in if n =? 0 then 5 else n.

Definition not_interactive : string :=
  "Authentication required. Please run 'omniedge start -s YOUR_SECURITY_KEY' for headless environments or login manually in an interactive terminal.".

Definition device_flow (fuel : nat) : LM (option Api.AuthResp) :=
  terminal ← call (own IsTerminal);
  if negb terminal then throw not_interactive
  else
    dr ← web (Api.device_flow_init client CLIENT_ID "openid profile email offline_access");
    polled ← poll fuel (Api.device_code dr) (first_interval (Api.interval dr));
    match polled with
    | None => mret None
    | Some token =>
        let auth := fill_token token in
        _ ← set_auth_response auth;
        _ ← save;
        mret (Some auth)
    end.

Definition ensure_auth (fuel : nat) : LM (option Api.AuthResp) :=
  c ← gets id;
  match Config.auth_response c with
  | None => device_flow fuel
  | Some auth =>
      expired ← is_token_expired;
      if negb expired then mret (Some auth)
      else if bool_decide (Api.refresh_token auth = "") then _ ← forget; device_flow fuel
      else
        r ← attempt (try_refresh_token (Api.refresh_token auth));
        match r with
        | Ok new_auth =>
            let new_auth := fill_token (keep_refresh (Api.refresh_token auth) new_auth) in
            _ ← set_auth_response new_auth;
            _ ← save;
            mret (Some new_auth)
        | Err _ => _ ← forget; device_flow fuel
        end
  end.

Definition login_with_security_key (security_key : string) : LM Api.AuthResp :=
  c ← gets id;
  valid ← match Config.auth_response c with
          | Some auth => expired ← is_token_expired; mret (if expired : bool then None else Some auth)
          | None => mret None
          end;
  match valid with
  | Some auth => mret auth
  | None =>
      auth ← web (Api.login_with_security_key client security_key);
      _ ← set_auth_response auth;
      _ ← save;
      mret auth
  end.
End Login.

(** ** Theorems *)

Section Machine.
Context `{Api.ApiJson, Config.ConfigCodec} (base_url : string).
(** A terminal and an API that answer by functions, above a disk. *)
Context (terminal : forall R : Set, OwnCall R -> R) (api : forall R : Set, Api.HttpCall R -> R)
  (env : forall R : Set, Config.ConfCall R -> R).

Definition machine (R : Set) (c : LoginCall R) (w : gmap string string) : R * gmap string string :=
  match c with
  | inl (inl c) => (terminal R c, w)
  | inl (inr c) => (api R c, w)
  | inr c => Config.disk env R c w
  end.

Abbreviation on m c w := (run_prog machine (m c) w) (only parsing).

Lemma run_web {A} (m : SM Api.HttpCall unit string A) c w : exists r, on (web m) c w = ((c, r), w).
Proof.
  unfold web. rewrite (run_zoom of_http _ _ _ (fun R c w => (api R c, w))) by done.
  assert (Hkeep : forall (X : Type) (p : prog Api.HttpCall X), (run_prog (fun R c w => (api R c, w)) p w).2 = w).
  { intros X p. induction p as [x|R d k IH]; [done|]. apply IH. }
  specialize (Hkeep _ (m tt)). destruct (run_prog _ (m tt) w) as [[[] r] w']. cbn in Hkeep. subst w'. by eexists.
Qed.

Lemma run_conf {A} (m : SM Config.ConfCall unit string A) c w :
  on (conf m) c w = let '((_, r), w') := run_prog (Config.disk env) (m tt) w in ((c, r), w').
Proof.
  unfold conf. rewrite (run_zoom of_conf _ _ _ (Config.disk env)) by done.
  destruct (run_prog _ (m tt) w) as [[[] r] w']. by destruct r.
Qed.

Lemma run_expired c w : exists b, on is_token_expired c w = ((c, Ok b), w).
Proof.
  unfold is_token_expired. rewrite run_sm_bind. cbn [run_prog gets id]. rewrite run_conf. unfold Config.is_token_expired.
  destruct (Config.auth_response c); [|by eexists]. destruct (Config.token_obtained_at c); [|by eexists].
  rewrite run_sm_bind. cbn. by eexists.
Qed.

Lemma run_poll fuel code interval c w : exists r, on (poll base_url fuel code interval) c w = ((c, r), w).
Proof.
  revert interval. induction fuel as [|fuel IH]; intros interval; [by eexists|]. cbn [poll].
  rewrite run_sm_bind. cbn [run_prog call machine own]. rewrite run_sm_bind, run_attempt.
  destruct (run_web (Api.device_flow_token (client base_url) CLIENT_ID code) c w) as [r ->].
  destruct r as [t|e]; [by eexists|]. destruct (pending e); [apply IH|by eexists].
Qed.

(** A login that is kept: it is in the configuration, and if that has changed
    the file now holds it. *)
Definition kept (c : Config.CliConfig) (w : gmap string string) (a : Api.AuthResp) (c' : Config.CliConfig)
    (w' : gmap string string) : Prop :=
  Config.auth_response c' = Some a /\
  (c' = c \/ forall path text, (run_prog (Config.disk env) (Config.config_path tt) w).1.2 = Ok path ->
    path ∉ Config.homes env -> Config.to_string_pretty c' = Ok text -> Config.from_str text = Ok c' ->
    (run_prog (Config.disk env) (Config.load tt) w').1.2 = Ok c').

(** Recording and saving what was obtained. *)
Lemma run_keep {B} a (b : B) c w c' w' r :
  Config.paths_set c -> on (_ ← set_auth_response a; _ ← save; mret b) c w = ((c', Ok r), w') ->
  r = b /\ Config.auth_response c' = Some a /\ Config.paths_set c' /\
  forall path text, (run_prog (Config.disk env) (Config.config_path tt) w).1.2 = Ok path ->
    path ∉ Config.homes env -> Config.to_string_pretty c' = Ok text -> Config.from_str text = Ok c' ->
    (run_prog (Config.disk env) (Config.load tt) w').1.2 = Ok c'.
Proof.
  intros Hset. rewrite run_sm_bind. unfold set_auth_response. rewrite run_sm_bind. cbn [run_prog gets].
  cbn [id]. rewrite run_sm_bind, run_conf. unfold Config.set_auth_response. rewrite run_sm_bind. cbn [run_prog call Config.disk mret SM_ret modify id].
  match goal with |- context [Config.with_auth (Some a) ?n c] => set (c1 := Config.with_auth (Some a) n c) end. rewrite run_sm_bind. unfold save. rewrite run_sm_bind. cbn [run_prog gets id].
  rewrite run_conf. destruct (run_prog (Config.disk env) (Config.save c1 tt) w) as [[[] [[]|e]] w1] eqn:Es; [|done].
  cbn [run_prog mret SM_ret]. intros [= <- <- <-]. split; [done|]. split; [done|]. split; [done|].
  intros path text Hp Hh Ht Hb. pose proof (Config.saved_config_loads env w c1 path text Hp Hh Hset Ht Hb) as Hl.
  rewrite Es in Hl. by apply Hl.
Qed.

Lemma run_device_flow fuel c0 c w c' w' a :
  Config.paths_set c -> on (device_flow base_url fuel) c w = ((c', Ok (Some a)), w') -> kept c0 w a c' w'.
Proof.
  intros Hset. unfold device_flow. rewrite run_sm_bind. cbn [run_prog call machine own].
  destruct (negb _); [done|]. rewrite run_sm_bind.
  destruct (run_web (Api.device_flow_init (client base_url) CLIENT_ID "openid profile email offline_access") c w) as [[dr|e] ->]; [|done].
  rewrite run_sm_bind. destruct (run_poll fuel (Api.device_code dr) (first_interval (Api.interval dr)) c w) as [[[t|]|e] ->]; [|done..].
  intros Hk. eapply run_keep in Hk as (Hr & Ha & _ & Hl); [|done]. injection Hr as ->. split; [done|by right].
Qed.

(** Claim C24: Logging in leaves the login it returns in the configuration; and unless
    that is the configuration it started with, it is what the next program
    loads from the file. *)
Theorem login_survives fuel c w c' w' a :
  Config.paths_set c -> on (ensure_auth base_url fuel) c w = ((c', Ok (Some a)), w') -> kept c w a c' w'.
Proof.
  intros Hset. unfold ensure_auth. rewrite run_sm_bind. cbn [run_prog gets id].
  destruct (Config.auth_response c) as [auth|] eqn:Ea; [|by apply run_device_flow].
  rewrite run_sm_bind. destruct (run_expired c w) as [b ->]. destruct b; cbn [negb].
  - destruct (bool_decide _); [rewrite run_sm_bind; by apply run_device_flow|].
    rewrite run_sm_bind, run_attempt. unfold try_refresh_token.
    destruct (run_web (Api.refresh (client base_url) CLIENT_ID (Api.refresh_token auth)) c w) as [[n|e] ->].
    + intros Hk. eapply run_keep in Hk as (Hr & Ha & _ & Hl); [|done]. injection Hr as ->. split; [done|by right].
    + rewrite run_sm_bind. by apply run_device_flow.
  - intros [= <- <- <-]. split; [done|by left].
Qed.

(** The same for a login with a security key. *)
Theorem key_login_survives key c w c' w' a :
  Config.paths_set c -> on (login_with_security_key base_url key) c w = ((c', Ok a), w') -> kept c w a c' w'.
Proof.
  intros Hset. unfold login_with_security_key. rewrite run_sm_bind. cbn [run_prog gets id].
  assert (Hobtain : on (auth ← web (Api.login_with_security_key (client base_url) key);
      _ ← set_auth_response auth; _ ← save; mret auth) c w = ((c', Ok a), w') -> kept c w a c' w').
  { rewrite run_sm_bind. destruct (run_web (Api.login_with_security_key (client base_url) key) c w) as [[n|e] ->]; [|done].
    intros Hk. eapply run_keep in Hk as (-> & Ha & _ & Hl); [|done]. split; [done|by right]. }
  rewrite run_sm_bind. destruct (Config.auth_response c) as [auth|] eqn:Ea; [|by apply Hobtain].
  rewrite run_sm_bind. destruct (run_expired c w) as [b ->]. destruct b; [by apply Hobtain|].
  intros [= <- <- <-]. split; [done|by left].
Qed.
End Machine.

(** *** Polling *)
Section Polling.
Context `{Api.ApiJson, Config.ConfigCodec} (base_url : string).

(** An API that gives its answers in turn. *)
Definition in_turn (R : Set) (c : LoginCall R) (w : list (result string Api.Response)) : R * list (result string Api.Response) :=
  match c with
  | inl (inl c) => (match c in OwnCall R return R with IsTerminal => true | Sleep _ => tt end, w)
  | inl (inr c) => match c in Api.HttpCall R return R * _ with Api.Http _ => (from_option id (Err "closed") (head w), tail w) end
  | inr c => (Config.Demo.env R c, w)
  end.

(** What an answer means for a login. *)
Definition reply (r : result string Api.Response) : result string Api.AuthResp :=
  match r with Ok resp => Api.read_response (Api.by_value Api.auth_of_value) resp | Err e => Err e end.
Definition not_yet (r : result string Api.Response) : Prop := exists e, reply r = Err e /\ pending e = true.
Definition decided (r : result string Api.Response) : Prop := forall e, reply r = Err e -> pending e = false.

Lemma run_token_request code c r w :
  run_prog in_turn (web (Api.device_flow_token (client base_url) CLIENT_ID code) c) (r :: w) = ((c, reply r), w).
Proof.
  unfold web, zoom, Api.device_flow_token, Api.send_auth, Api.send_internal. rewrite run_bind. sm_unfold. cbn.
  destruct r as [resp|e]; cbn; [|done]. by destruct (Api.read_response _ resp).
Qed.

(** The loop of the device flow ends with the first answer that is neither
    "pending" nor "slow down": with the login it is, or with its error. *)
Theorem poll_ends fuel code interval waiting answer rest c :
  Forall not_yet waiting -> decided answer -> (length waiting < fuel)%nat ->
  run_prog in_turn (poll base_url fuel code interval c) (waiting ++ answer :: rest) =
  ((c, (fun a => Some (fill_token a)) <$> reply answer), rest).
Proof.
  intros Hw Hd. revert interval fuel. induction Hw as [|x waiting (e & He & Hp) _ IH]; intros interval fuel Hf;
    (destruct fuel as [|fuel]; [simpl in Hf; lia|]); cbn [poll app]; rewrite run_sm_bind; cbn [run_prog call in_turn own];
    rewrite run_sm_bind, run_attempt, run_token_request.
  - destruct (reply answer) as [a|e] eqn:E; [done|]. by rewrite (Hd e E).
  - rewrite He, Hp. apply IH. simpl in Hf. lia.
Qed.
End Polling.

(** Any JSON object is a login: the deserializer knows no field it needs, so
    an answer that says nothing logs in with an empty token. *)
Example empty_login_accepted `{Api.ApiJsonLaws} :
  exists a, Api.auth_of_value (Api.json_object []) = Ok a /\ Api.effective_token (fill_token a) = "".
Proof.
  unfold Api.auth_of_value. destruct (Api.object_fields []) as (g & -> & Hg). eexists. split; [done|].
  unfold fill_token, Api.effective_token, Api.get_string, Api.get_optional_string. cbn. by rewrite !Hg.
Qed.

(** *** A login by the device flow *)
Module Demo.
Import Api.Demo.

#[global] Instance json : Api.ApiJson := {|
  Api.Value := JV; Api.as_object := @Api.as_object Api.Demo.json; Api.as_str := @Api.as_str Api.Demo.json;
  Api.as_i64 := @Api.as_i64 Api.Demo.json; Api.json_object := @Api.json_object Api.Demo.json;
  Api.json_string := JS; Api.json_int := JI; Api.json_null := JN;
  Api.from_slice A t bytes :=
    match t in Api.Shape _ A return result string A with
    | Api.SValue => if bool_decide (bytes = [1]) then Ok (JCons "access_token" (JS "t") JNil) else Err "not json"
    | Api.SError => if bool_decide (bytes = [2]) then Ok {| Api.error_message := None;
        Api.error := Some "authorization_pending"; Api.error_description := None |} else Err "not json"
    | Api.SDeviceCode => Ok {| Api.device_code := "d"; Api.user_code := "u"; Api.verification_uri := "";
        Api.verification_uri_complete := ""; Api.code_expires_in := 600; Api.interval := 5 |}
    | _ => Err "not json"
    end |}.

Definition terminal (R : Set) (c : OwnCall R) : R := match c in OwnCall R return R with IsTerminal => true | Sleep _ => tt end.
Definition granted : Api.Response := {| Api.is_success := true; Api.status := "200 OK"; Api.body := Ok [1] |}.
Definition waiting : Api.Response := {| Api.is_success := false; Api.status := "400 Bad Request"; Api.body := Ok [2] |}.
Definition api (R : Set) (c : Api.HttpCall R) : R := match c in Api.HttpCall R return R with Api.Http _ => Ok granted end.

Definition login : Api.AuthResp := {|
  Api.token := "t"; Api.refresh_token := ""; Api.access_token := "t"; Api.id_token := ""; Api.expires_in := 0;
  Api.email := None; Api.user_id := None |}.
Definition outcome := run_prog (machine terminal api Config.Demo.env) (ensure_auth "https://a" 3 Config.Demo.config) ∅.
Definition key_outcome := run_prog (machine terminal api Config.Demo.env) (login_with_security_key "https://a" "k" Config.Demo.config) ∅.

Lemma login_survives_witness : kept Config.Demo.env Config.Demo.config ∅ login outcome.1.1 outcome.2.
Proof. apply (login_survives "https://a" terminal api Config.Demo.env 3); [reflexivity|vm_compute; reflexivity]. Defined.

Lemma key_login_survives_witness :
  exists a, kept Config.Demo.env Config.Demo.config ∅ a key_outcome.1.1 key_outcome.2.
Proof. eexists. apply (key_login_survives "https://a" terminal api Config.Demo.env "k"); [reflexivity|vm_compute; reflexivity]. Defined.

Lemma poll_ends_witness :
  run_prog in_turn (poll "https://a" 3 "d" 5 Config.Demo.config) [Ok waiting; Ok granted] =
  ((Config.Demo.config, Ok (Some login)), []).
Proof.
  transitivity ((Config.Demo.config, (fun a => Some (fill_token a)) <$> reply (Ok granted)), @nil (result string Api.Response));
    [|vm_compute; reflexivity].
  apply (poll_ends "https://a" 3 "d" 5 [Ok waiting] (Ok granted) []); [|by intros e [=]|simpl; lia].
  repeat constructor. eexists. split; vm_compute; reflexivity.
Defined.
End Demo.
