(* ===== verification/Session.v ===== *)
(** * Joining and leaving networks (omni-core/src/manager.rs, state.rs)

    The manager of the connection: its state, logging in and out, joining a
    network (device, socket, port mapping, protocol, tunnel, loops), the exit
    node, and disconnecting.  Sockets, tunnel, port mapper, protocol object and
    tasks are effects of its own; the API (Api.v), the configuration
    (Config.v) and the commands (Routing.v) are the programs of their files.
    The build is the one for linux or macos.  What the loops do to the maps of
    peers is in Dispatcher.v; here the maps are what the manager does to them. *)

From Stdlib Require Import Ascii.
From S2P Require Import Prelude RustStr Net SortBy Effects.
From S2P Require Api Config Routing Proto Peers Dispatcher Links Login.

Open Scope string_scope.
Open Scope list_scope.
Open Scope Z_scope.

Inductive ConnectionState : Set :=
| Disconnected | Authenticating | Authenticated | Joining | Joined | Connecting | Connected | Reconnecting
| Stopping | Error (e : string).

#[global] Instance ConnectionState_eq_dec : EqDecision ConnectionState.
Proof. solve_decision. Defined.

(** What the code reads of a port mapping and of what a gateway can do. *)
Record PortMapping : Set := { internal_port : Z; external_port : Z; gateway : string }.
Record PortMapCapabilities : Set := { nat_pmp : bool; upnp : bool; pcp : bool; external_addr : option string }.
Definition PortMapCapabilities_default : PortMapCapabilities :=
  {| nat_pmp := false; upnp := false; pcp := false; external_addr := None |}.

(** ** The world around the manager

    Sockets, mappers, protocol objects and tunnels are handles.  A timeout is
    [None]. *)
Record TunSettings : Set := {
  ifname : string; wg_mode : Config.WireGuardMode; tun_vip : string; tun_mask : string;
  tun_vip_v6 : option string; tun_prefix_v6 : option Z; tun_port : Z; tun_key : string; tun_mtu : Z }.
Record ProtoSettings : Set := {
  nucleus : string; proto_cluster : string; proto_secret : string; proto_vip : Z; proto_vip_v6 : option Z;
  listen_port : Z; proto_public : list Z; proto_private : list Z }.

(** The tasks the manager starts. *)
Inductive Task : Set :=
| NucleusTask (socket : Z) | DispatcherTask (socket proto tun : Z) | HeartbeatTask (hardware_id : string)
| DiscoveryTask | RefreshTask.

(** What comes over the socket of a session login, or ends the wait. *)
Inductive WsEvent : Set :=
| WsText (text : string) | WsBinary (bytes : list Z) | WsClose (frame : string) | WsPong | WsOther
| WsError (e : string) | WsEnd | WsTimeout | WsCancelled.

Inductive OwnCall : Set -> Set :=
| SleepMs (ms : Z) : OwnCall unit
| Hostname : OwnCall (result string string)
| SocketNew : OwnCall (result string Z)
| SetOnlyV6 (socket : Z) : OwnCall (result string unit)
| SetNonblocking (socket : Z) : OwnCall (result string unit)
| BindV6 (socket : Z) : OwnCall (result string unit)
| FromStd (socket : Z) : OwnCall (result string Z)
| BindV4 (port : Z) : OwnCall (result string Z)
| LocalPort (socket : Z) : OwnCall (result string Z)
| MapperNew (port : Z) : OwnCall Z
| MapperProbe (mapper : Z) : OwnCall (option (result string PortMapCapabilities))
| MapperRequest (mapper lifetime : Z) : OwnCall (result string Z)
| MapperCurrent (mapper : Z) : OwnCall (option PortMapping)
| MapperRefresh (mapper : Z) : OwnCall (result string bool)
| MapperRelease (mapper : Z) : OwnCall (result string unit)
| ProtoNew (p : ProtoSettings) : OwnCall (result string Z)
| SetExternalPort (proto port : Z) : OwnCall unit
| SetExternalAddr (proto : Z) (addr : string) : OwnCall unit
| GetExternalPort (proto : Z) : OwnCall (option Z)
| SetIpv6 (proto : Z) (prefer : bool) (threshold : Z) : OwnCall unit
| UpdateRelayEnabled (proto : Z) (b : bool) : OwnCall unit
| UpdatePortmapEnabled (proto : Z) (b : bool) : OwnCall unit
| Register (proto socket : Z) : OwnCall (result string unit)
| ProtoHeartbeat (proto socket peers : Z) : OwnCall (result string unit)
| QueryPeer (proto socket vip : Z) : OwnCall (result string unit)
| TunSetup (t : TunSettings) : OwnCall (result string Z)
| TunStartLoop (tun socket : Z) : OwnCall (result string unit)
| TunIsKernel (tun : Z) : OwnCall bool
| TunShutdown (tun : Z) : OwnCall unit
| Spawn (t : Task) : OwnCall unit
| SendShutdown : OwnCall unit
| WaitTasks (handles : list Task) : OwnCall unit
| WsRequest (url : string) : OwnCall (result string unit)
| WsConnect (url : string) : OwnCall (option (result string unit))
| WsNext : OwnCall WsEvent.

Definition SessionCall (R : Set) : Set :=
  (OwnCall R + Api.HttpCall R + Config.ConfCall R + Routing.CmdCall R)%type.
Definition own {R : Set} (c : OwnCall R) : SessionCall R := inl (inl (inl c)).
Definition of_http (R : Set) (c : Api.HttpCall R) : SessionCall R := inl (inl (inr c)).
Definition of_conf (R : Set) (c : Config.ConfCall R) : SessionCall R := inl (inr c).
Definition of_cmd (R : Set) (c : Routing.CmdCall R) : SessionCall R := inr c.

(** An error that is returned, or the end of the task by a panic. *)
Inductive Fault : Set := Failed (e : string) | Panicked (m : string).

(** ** The manager *)

Section Session.
Context `{Api.ApiJson, Config.ConfigCodec, Peers.EndpointSets, Dispatcher.Disco}.
(** [RelayClient::new], the text of argument lists, and the build. *)
Context (relay_client_new : list Z -> Z -> SocketAddr -> Dispatcher.RelayClient).
Context (debug_args : list string -> string) (linux : bool).

Record Role : Set := {
  is_nucleus : bool; nucleus_state : bool; nucleus_port : Z; as_exit_node : bool;
  exit_node_ip : option string; exit_node_ip_v6 : option string; cluster_secret : option string }.
Record Connection : Set := {
  proto : option (Z * string); tun : option Z; device_id : option string; hardware_id : option string;
  current_network_id : option string; virtual_ip : option string; virtual_ip_v6 : option string;
  heartbeat_tx : bool; shutdown_tx : bool; task_handles : list Task }.
Record Shared : Type := {
  peer_states : gmap Z Peers.PeerState; pending_pings : gmap (list Z) Peers.PendingDiscoPing;
  relay_client : option Dispatcher.RelayClient; relay_sessions : gmap (list Z) (list Z);
  port_mapper : option Z; port_mapping : option PortMapping }.
Record ConnectionManager : Type := {
  state : ConnectionState; api_client : option Api.ApiClient; public_key : list Z; private_key : list Z;
  base_url : string; role : Role; conn : Connection; network_config : Config.NetworkConfig;
  disco_config : Peers.LocalDiscoConfig; shared : Shared }.

Abbreviation SesM := (SM SessionCall ConnectionManager Fault) (only parsing).

Definition put_state (s : ConnectionState) (m : ConnectionManager) : ConnectionManager := {|
  state := s; api_client := api_client m; public_key := public_key m; private_key := private_key m;
  base_url := base_url m; role := role m; conn := conn m; network_config := network_config m;
  disco_config := disco_config m; shared := shared m |}.
Definition put_client (c : option Api.ApiClient) (m : ConnectionManager) : ConnectionManager := {|
  state := state m; api_client := c; public_key := public_key m; private_key := private_key m;
  base_url := base_url m; role := role m; conn := conn m; network_config := network_config m;
  disco_config := disco_config m; shared := shared m |}.
Definition put_role (r : Role) (m : ConnectionManager) : ConnectionManager := {|
  state := state m; api_client := api_client m; public_key := public_key m; private_key := private_key m;
  base_url := base_url m; role := r; conn := conn m; network_config := network_config m;
  disco_config := disco_config m; shared := shared m |}.
Definition put_conn (c : Connection) (m : ConnectionManager) : ConnectionManager := {|
  state := state m; api_client := api_client m; public_key := public_key m; private_key := private_key m;
  base_url := base_url m; role := role m; conn := c; network_config := network_config m;
  disco_config := disco_config m; shared := shared m |}.
Definition put_config (c : Config.NetworkConfig) (m : ConnectionManager) : ConnectionManager := {|
  state := state m; api_client := api_client m; public_key := public_key m; private_key := private_key m;
  base_url := base_url m; role := role m; conn := conn m; network_config := c;
  disco_config := disco_config m; shared := shared m |}.
Definition put_shared (sh : Shared) (m : ConnectionManager) : ConnectionManager := {|
  state := state m; api_client := api_client m; public_key := public_key m; private_key := private_key m;
  base_url := base_url m; role := role m; conn := conn m; network_config := network_config m;
  disco_config := disco_config m; shared := sh |}.

(** The parts as programs; their errors are errors of the manager. *)
Definition web {A} (p : SM Api.HttpCall unit string A) : SesM A := zoom of_http (fun _ => tt) (fun _ m => m) Failed p.
Definition conf {A} (p : SM Config.ConfCall unit string A) : SesM A := zoom of_conf (fun _ => tt) (fun _ m => m) Failed p.
Definition cmd {A} (p : SM Routing.CmdCall unit string A) : SesM A := zoom of_cmd (fun _ => tt) (fun _ m => m) Failed p.
Definition perform {R : Set} (c : OwnCall R) : SesM R := call (own c).
(** A call whose error is returned. *)
Definition perform_ok {A : Set} (c : OwnCall (result string A)) : SesM A :=
  r ← perform c; match r with Ok a => mret a | Err e => throw (Failed e) end.
(** [let _ = ..] and [if let Ok(..) = ..]: an error is dropped, a panic is not. *)
Definition tolerate {A} (p : SesM A) : SesM (result string A) :=
  r ← attempt p;
  match r with Ok a => mret (Ok a) | Err (Failed e) => mret (Err e) | Err (Panicked p) => throw (Panicked p) end.

Definition set_state (s : ConnectionState) : SesM unit := modify (put_state s).

(** [ConnectionManager::new], for the keys of the identity it gets or makes. *)
Definition new (url : string) (public private : list Z) (loaded : result string Config.CliConfig) : ConnectionManager :=
  let '(exit, net) := match loaded with
                      | Ok c => (Config.is_exit_node c, Config.network_config c)
                      | Err _ => (false, Config.NetworkConfig_default)
                      end in
  {| state := Disconnected; api_client := None; public_key := public; private_key := private; base_url := url;
     role := {| is_nucleus := false; nucleus_state := false; nucleus_port := 51820; as_exit_node := exit;
                exit_node_ip := None; exit_node_ip_v6 := None; cluster_secret := None |};
     conn := {| proto := None; tun := None; device_id := None; hardware_id := None; current_network_id := None;
                virtual_ip := None; virtual_ip_v6 := None; heartbeat_tx := false; shutdown_tx := false;
                task_handles := [] |};
     network_config := net;
     disco_config := {| Peers.ping_timeout := Peers.ping_timeout Peers.LocalDiscoConfig_default;
                        Peers.config_max_retries := Peers.config_max_retries Peers.LocalDiscoConfig_default;
                        Peers.relay_enabled := Config.relay_enabled net |};
     shared := {| peer_states := ∅; pending_pings := ∅; relay_client := None; relay_sessions := ∅;
                  port_mapper := None; port_mapping := None |} |}.

(** ** Queries *)

Definition is_connected (m : ConnectionManager) : bool := match tun (conn m) with Some _ => true | None => false end.
Definition get_peer_state (m : ConnectionManager) (vip : Z) : option Peers.PeerState := peer_states (shared m) !! vip.
Definition get_pending_ping_count (m : ConnectionManager) : nat := size (pending_pings (shared m)).
Definition get_relay_session_count (m : ConnectionManager) : nat := size (relay_sessions (shared m)).
Definition get_external_port (m : ConnectionManager) : option Z := external_port <$> port_mapping (shared m).

(** What is shown of a peer. *)
Record PeerDebugInfo : Set := {
  di_vip : string; di_vip_v6 : option string; di_state : string; best_endpoint : option string;
  best_latency_ms : option Z; endpoint_count : nat; working_endpoint_count : nat; using_relay : bool;
  last_seen_ago_secs : option Z; di_peer_nat_type : option string; di_connection_strategy : string }.
Record ConnectionDebugInfo : Set := {
  total_peers : nat; connected_peers : nat; probing_peers : nat; failed_peers : nat; relayed_peers : nat;
  pending_pings_count : nat; debug_peers : list PeerDebugInfo }.

Definition show_peer_state (s : Peers.PeerConnectionState) : string :=
  match s with
  | Peers.Init => "Init" | Peers.DirectTry => "DirectTry" | Peers.DirectOk => "DirectOk"
  | Peers.RelayTry => "RelayTry" | Peers.RelayOk => "RelayOk" | Peers.Failed => "Failed"
  end.
Definition show_nat_type (n : Proto.NatType) : string :=
  match n with
  | Proto.Unknown => "Unknown" | Proto.Open => "Open" | Proto.FullCone => "FullCone"
  | Proto.RestrictedCone => "RestrictedCone" | Proto.PortRestrictedCone => "PortRestrictedCone"
  | Proto.Symmetric => "Symmetric"
  end.

(** [responsive]: [responsive_count] of the endpoint set; [now]: the clock. *)
Definition peer_debug_info (responsive : Peers.EndpointSet -> nat) (now : Z) (p : Peers.PeerState) : PeerDebugInfo := {|
  di_vip := show_ipv4 (Peers.ps_vip p); di_vip_v6 := show_ipv6 <$> Peers.ps_vip_v6 p;
  di_state := show_peer_state (Peers.state p);
  best_endpoint := show_socket_addr <$> Peers.best_endpoint p;
  best_latency_ms := (e ← Peers.best_endpoint_info p; (fun l => l / 1000000) <$> Peers.latency e);
  endpoint_count := Peers.endpoint_count p; working_endpoint_count := responsive (Peers.endpoints p);
  using_relay := Peers.using_relay p;
  last_seen_ago_secs := (fun t => elapsed t now / nanos_per_sec) <$> Peers.last_seen p;
  di_peer_nat_type := show_nat_type <$> Peers.peer_nat_type p;
  di_connection_strategy := Peers.description (Peers.connection_strategy p) |}.

(** [peers]: the values of the map in the order it is walked. *)
Definition count_state (s : Peers.PeerConnectionState) (ps : list Peers.PeerState) : nat :=
  length (List.filter (fun p => bool_decide (Peers.state p = s)) ps).
Definition get_connection_debug_info (responsive : Peers.EndpointSet -> nat) (now : Z) (peers : list Peers.PeerState) (m : ConnectionManager)
    : ConnectionDebugInfo := {|
  total_peers := length peers; connected_peers := count_state Peers.DirectOk peers;
  probing_peers := count_state Peers.DirectTry peers; failed_peers := count_state Peers.Failed peers;
  relayed_peers := length (List.filter Peers.using_relay peers); pending_pings_count := get_pending_ping_count m;
  debug_peers := sort_by (fun a b => String.leb (di_vip a) (di_vip b)) (map (peer_debug_info responsive now) peers) |}.

(** ** Port mapping *)

Definition put_mapping (pm : option Z) (mp : option PortMapping) (m : ConnectionManager) : ConnectionManager :=
  put_shared {| peer_states := peer_states (shared m); pending_pings := pending_pings (shared m);
    relay_client := relay_client (shared m); relay_sessions := relay_sessions (shared m);
    port_mapper := pm; port_mapping := mp |} m.
Definition put_port_mapping (mp : option PortMapping) (m : ConnectionManager) : ConnectionManager :=
  put_mapping (port_mapper (shared m)) mp m.

Definition init_port_mapper (port : Z) : SesM PortMapCapabilities :=
  net ← gets network_config;
  if negb (Config.portmap_enabled net) then mret PortMapCapabilities_default
  else
    mapper ← perform (MapperNew port);
    probed ← perform (MapperProbe mapper);
    match probed with
    | None => throw (Failed "Port mapping probe timed out after 20 seconds")
    | Some (Err e) => throw (Failed ("Port mapping probe failed: " +:+ e))
    | Some (Ok caps) => _ ← modify (fun m => put_mapping (Some mapper) (port_mapping (shared m)) m); mret caps
    end.

(** The mapping the mapper now has is the one that is shown. *)
Definition adopt_mapping (mapper : Z) : SesM (option PortMapping) :=
  current ← perform (MapperCurrent mapper);
  match current with
  | Some mapping => _ ← modify (put_port_mapping (Some mapping)); mret (Some mapping)
  | None => mret None
  end.

Definition request_port_mapping (lifetime : Z) : SesM Z :=
  pm ← gets (fun m => port_mapper (shared m));
  mapper ← or_throw (Failed "Port mapper not initialized") pm;
  port ← perform_ok (MapperRequest mapper lifetime);
  _ ← adopt_mapping mapper;
  mret port.

Definition check_and_refresh_port_mapping : SesM bool :=
  pm ← gets (fun m => port_mapper (shared m));
  match pm with
  | None => mret false
  | Some mapper =>
      refreshed ← perform_ok (MapperRefresh mapper);
      _ ← (if refreshed : bool then _ ← adopt_mapping mapper; mret tt else mret tt);
      mret refreshed
  end.

Definition release_port_mapping : SesM unit :=
  pm ← gets (fun m => port_mapper (shared m));
  match pm with
  | None => mret tt
  | Some mapper => _ ← perform_ok (MapperRelease mapper); modify (put_port_mapping None)
  end.

(** ** Settings *)

Definition set_network_config (config : Config.NetworkConfig) : SesM unit :=
  _ ← match Config.validate_network linux config with Ok u => mret u | Err e => throw (Failed e) end;
  _ ← modify (put_config config);
  loaded ← tolerate (conf Config.load);
  match loaded with
  | Ok c => conf (Config.save (Config.with_network (Config.is_exit_node c) config c))
  | Err _ => mret tt
  end.

Definition put_network (nid vip vip6 : option string) (m : ConnectionManager) : ConnectionManager :=
  let c := conn m in
  put_conn {| proto := proto c; tun := tun c; device_id := device_id c; hardware_id := hardware_id c;
    current_network_id := nid; virtual_ip := vip; virtual_ip_v6 := vip6; heartbeat_tx := heartbeat_tx c;
    shutdown_tx := shutdown_tx c; task_handles := task_handles c |} m.

Definition sync_state (s : ConnectionState) (nid vip vip6 : option string) : SesM unit :=
  _ ← set_state s; modify (put_network nid vip vip6).

Definition set_nucleus_config (port : Z) (secret : option string) : SesM unit :=
  modify (fun m => let r := role m in put_role {| is_nucleus := is_nucleus r; nucleus_state := nucleus_state r;
    nucleus_port := port; as_exit_node := as_exit_node r; exit_node_ip := exit_node_ip r;
    exit_node_ip_v6 := exit_node_ip_v6 r; cluster_secret := secret |} m).

(** ** Logging in and out *)

Definition new_client (token : option string) : SesM Api.ApiClient :=
  url ← gets base_url; mret (Api.ApiClient_new url token).
(** The client of a login. *)
Definition use_token (token : string) : SesM unit := c ← new_client (Some token); modify (put_client (Some c)).
Definition authenticated : SesM Api.ApiClient := c ← gets api_client; or_throw (Failed "Not authenticated") c.

Definition logout : SesM unit :=
  _ ← modify (put_client None);
  loaded ← tolerate (conf Config.load);
  _ ← match loaded with
      | Ok c => _ ← tolerate (conf (Config.save (Config.with_auth None (Config.token_obtained_at c) c))); mret tt
      | Err _ => mret tt
      end;
  set_state Disconnected.

Definition get_profile : SesM Api.ProfileResponse := c ← authenticated; web (Api.me c).

Definition try_auto_login : SesM bool :=
  config ← conf Config.load;
  client ← gets api_client;
  st ← gets state;
  if bool_decide (client <> None) && negb (bool_decide (st = Disconnected)) then mret true
  else
    match Config.auth_response config with
    | None => mret false
    | Some auth =>
        _ ← use_token (Api.effective_token auth);
        profile ← tolerate get_profile;
        match profile with
        | Ok _ =>
            st ← gets state;
            _ ← (if bool_decide (st = Disconnected) then set_state Authenticated else mret tt);
            mret true
        | Err _ => _ ← modify (put_client None); mret false
        end
    end.

(** What ends each login. *)
Definition logged_in (auth : Api.AuthResp) : SesM Api.AuthResp :=
  _ ← use_token (Api.effective_token auth); _ ← set_state Authenticated; mret auth.

Definition login_with_password (mail password : string) : SesM Api.AuthResp :=
  _ ← set_state Authenticating;
  c ← new_client None;
  auth ← web (Api.login_with_password c mail password);
  logged_in auth.
Definition start_device_flow : SesM Api.DeviceCodeResp :=
  c ← new_client None; web (Api.device_flow_init c "omniedge-cli" "openid profile email offline_access").
Definition poll_device_flow (code : string) : SesM Api.AuthResp :=
  c ← new_client None; auth ← web (Api.device_flow_token c "omniedge-cli" code); logged_in auth.
Definition start_session_login : SesM Api.SessionResponse := c ← new_client None; web (Api.generate_session c).

Definition auth_of_token (t : Api.WebSocketTokenResponse) : Api.AuthResp := {|
  Api.token := Api.ws_token t; Api.refresh_token := Api.ws_refresh_token t; Api.access_token := Api.ws_token t;
  Api.id_token := ""; Api.expires_in := 3600; Api.email := None; Api.user_id := None |}.

Definition handle_login_token (t : Api.WebSocketTokenResponse) : SesM Api.AuthResp :=
  let auth := auth_of_token t in
  _ ← use_token (Api.effective_token auth);
  loaded ← tolerate (conf Config.load);
  _ ← match loaded with
      | Ok c => _ ← tolerate (conf (Config.save (Config.with_auth (Some auth) (Config.token_obtained_at c) c))); mret tt
      | Err _ => mret tt
      end;
  _ ← set_state Authenticated;
  mret auth.

Definition get_networks : SesM (list Api.VirtualNetworkResponse) := c ← authenticated; web (Api.list_networks c).
Definition get_network_devices (nid : string) : SesM (list Api.VirtualNetworkDeviceResponse) :=
  c ← authenticated; web (Api.get_devices c nid).
Definition get_devices : SesM (list Api.DeviceResponse) := c ← authenticated; web (Api.list_devices c).

Definition get_virtual_ip : SesM string :=
  vip ← gets (fun m => virtual_ip (conn m));
  match vip with
  | Some ip => mret ip
  | None =>
      loaded ← tolerate (conf Config.load);
      mret (match loaded with
            | Ok c => from_option Api.virtual_ip "" (Config.last_join_info c)
            | Err _ => ""
            end)
  end.

(** ** Adapters and sockets *)

(** The output of a script that could be run. *)
Definition script (s : string) : SesM (option string) :=
  r ← call (of_cmd _ (Routing.Run "sh" ["-c"; s]));
  mret (match r with Ok o => Some (Routing.lossy (Routing.out o)) | Err _ => None end).

Definition list_adapters : string :=
  if linux then "ip link show | grep -oE 'omniedge[0-9]*'"
  else "ifconfig | grep -B1 'inet 100\.' | grep -E '^utun[0-9]+' | cut -d: -f1".
Definition remove_adapter (name : string) : string * list string :=
  if linux then ("ip", ["link"; "delete"; name]) else ("ifconfig", [name; "down"]).

Fixpoint remove_adapters (names : list string) : SesM unit :=
  match names with
  | [] => mret tt
  | n :: names =>
      let n := trim n in
      _ ← (if bool_decide (n = "") then mret tt
           else _ ← call (of_cmd _ (Routing.Run (remove_adapter n).1 (remove_adapter n).2)); mret tt);
      remove_adapters names
  end.
Definition cleanup_adapters : SesM unit :=
  found ← script list_adapters;
  match found with Some o => remove_adapters (Config.lines o) | None => mret tt end.

Definition find_interface_with_ip (vip : string) : SesM (option string) :=
  found ← script (if linux
    then "ip addr show | grep -B2 'inet " +:+ vip +:+ "/24' | grep -E 'omniedge[0-9]*' | head -1 | awk '{print $2}' | tr -d ':'"
    else "ifconfig | grep -B5 'inet " +:+ vip +:+ "' | grep -E '^utun[0-9]+' | head -1 | cut -d: -f1");
  mret (o ← found; let iface := trim o in if bool_decide (iface = "") then None else Some iface).

(** [.context(what)]. *)
Definition with_context {A : Set} (what : string) (c : OwnCall (result string A)) : SesM A :=
  r ← perform c; match r with Ok a => mret a | Err _ => throw (Failed what) end.

Definition create_dual_stack_socket : SesM Z :=
  socket ← with_context "Failed to create IPv6 UDP socket" SocketNew;
  _ ← perform (SetOnlyV6 socket);
  _ ← with_context "Failed to set socket non-blocking" (SetNonblocking socket);
  _ ← with_context "Failed to bind dual-stack socket" (BindV6 socket);
  tokio ← with_context "Failed to convert to tokio UdpSocket" (FromStd socket);
  _ ← perform_ok (LocalPort tokio);
  mret tokio.

(** A socket, its failure a panic. *)
Definition bind_v4_or_panic (what : string) : SesM Z :=
  r ← perform (BindV4 0); match r with Ok s => mret s | Err e => throw (Panicked (what +:+ ": " +:+ e)) end.

Definition open_socket : SesM (Z * Z) :=
  dual ← tolerate create_dual_stack_socket;
  socket ← match dual with Ok s => mret s | Err _ => bind_v4_or_panic "Failed to bind IPv4 socket" end;
  port ← perform_ok (LocalPort socket);
  mret (socket, port).

(** ** Joining *)

Definition joining (network device hardware : string) (m : ConnectionManager) : ConnectionManager :=
  let c := conn m in
  put_conn {| proto := proto c; tun := tun c; device_id := Some device; hardware_id := Some hardware;
    current_network_id := Some network; virtual_ip := virtual_ip c; virtual_ip_v6 := virtual_ip_v6 c;
    heartbeat_tx := heartbeat_tx c; shutdown_tx := shutdown_tx c; task_handles := task_handles c |} m.
Definition put_device (device : string) (m : ConnectionManager) : ConnectionManager :=
  let c := conn m in
  put_conn {| proto := proto c; tun := tun c; device_id := Some device; hardware_id := hardware_id c;
    current_network_id := current_network_id c; virtual_ip := virtual_ip c; virtual_ip_v6 := virtual_ip_v6 c;
    heartbeat_tx := heartbeat_tx c; shutdown_tx := shutdown_tx c; task_handles := task_handles c |} m.
Definition put_secret (secret : string) (m : ConnectionManager) : ConnectionManager :=
  let r := role m in
  put_role {| is_nucleus := is_nucleus r; nucleus_state := nucleus_state r; nucleus_port := nucleus_port r;
    as_exit_node := as_exit_node r; exit_node_ip := exit_node_ip r; exit_node_ip_v6 := exit_node_ip_v6 r;
    cluster_secret := Some secret |} m.

Definition os_name : string := if linux then "linux" else "macos".

(** The device the join is for: as the API knows it, else by its hardware. *)
Definition register_device (client : Api.ApiClient) (hardware : string) : SesM string :=
  host ← perform Hostname;
  let hostname := match host with Ok h => h | Err _ => "OmniEdge Device" end in
  resp ← tolerate (web (Api.register client hostname hardware os_name));
  match resp with
  | Ok d => _ ← modify (put_device (Api.device_id d)); mret (Api.device_id d)
  | Err _ => mret hardware
  end.

Definition join_api (client : Api.ApiClient) (network device : string) : SesM Api.JoinVirtualNetworkResponse :=
  r ← attempt (web (Api.join_network client network device));
  match r with
  | Ok resp => mret resp
  | Err (Failed e) =>
      _ ← set_state Authenticated; throw (Failed ("Join failed for network " +:+ network +:+ ": " +:+ e))
  | Err e => throw e
  end.

(** A mapping for the socket: the external port and address to tell, if any. *)
Definition map_port (port : Z) : SesM (option Z * option string) :=
  net ← gets network_config;
  if negb (Config.portmap_enabled net) then mret (None, None)
  else
    caps ← tolerate (init_port_mapper port);
    match caps with
    | Err _ => mret (None, None)
    | Ok caps =>
        if nat_pmp caps || upnp caps || pcp caps then
          mapped ← tolerate (request_port_mapping 7200);
          match mapped with
          | Err _ => mret (None, None)
          | Ok ext => mret (Some ext, (fun a => a +:+ ":" +:+ show_uint ext) <$> external_addr caps)
          end
        else mret (None, None)
    end.

Definition open_proto (resp : Api.JoinVirtualNetworkResponse) (vip : Z) (vip6 : option Z) (socket port : Z)
    (mapped : option Z * option string) : SesM Z :=
  m ← gets id;
  proto ← perform_ok (ProtoNew {| nucleus := Api.host (Api.server resp); proto_cluster := Api.cluster resp;
    proto_secret := Api.secret_key resp; proto_vip := vip; proto_vip_v6 := vip6; listen_port := port;
    proto_public := public_key m; proto_private := private_key m |});
  _ ← match mapped.1 with Some p => perform (SetExternalPort proto p) | None => mret tt end;
  _ ← match mapped.2 with Some a => perform (SetExternalAddr proto a) | None => mret tt end;
  _ ← perform (Register proto socket);
  let net := network_config m in
  _ ← (if Config.ipv6_enabled net
       then perform (SetIpv6 proto (Config.prefer_ipv6 net) (Config.ipv6_preference_threshold_ms net)) else mret tt);
  _ ← perform (UpdateRelayEnabled proto (Config.relay_enabled net));
  _ ← perform (UpdatePortmapEnabled proto (Config.portmap_enabled net));
  mret proto.

Definition open_tun (resp : Api.JoinVirtualNetworkResponse) (port : Z) : SesM Z :=
  existing ← find_interface_with_ip (Api.virtual_ip resp);
  _ ← match existing with
      | Some _ => _ ← cleanup_adapters; perform (SleepMs 500)
      | None => mret tt
      end;
  m ← gets id;
  mtu ← conf (Config.effective_mtu linux (network_config m));
  perform_ok (TunSetup {| ifname := if linux then "omniedge0" else "";
    wg_mode := Config.wireguard_mode (network_config m); tun_vip := Api.virtual_ip resp;
    tun_mask := Api.subnet_mask resp; tun_vip_v6 := Api.virtual_ip_v6 resp;
    tun_prefix_v6 := Api.subnet_prefix_v6 resp; tun_port := port;
    tun_key := Dispatcher.hex_encode (private_key m); tun_mtu := mtu |}).

Definition established (pr tn : Z) (resp : Api.JoinVirtualNetworkResponse) (m : ConnectionManager) : ConnectionManager :=
  let c := conn m in
  put_conn {| proto := Some (pr, Api.host (Api.server resp)); tun := Some tn; device_id := device_id c;
    hardware_id := hardware_id c; current_network_id := current_network_id c;
    virtual_ip := Some (Api.virtual_ip resp); virtual_ip_v6 := Api.virtual_ip_v6 resp;
    heartbeat_tx := heartbeat_tx c; shutdown_tx := true; task_handles := task_handles c |} m.

(** ** The loops *)

Definition put_handles (hb : bool) (hs : list Task) (m : ConnectionManager) : ConnectionManager :=
  let c := conn m in
  put_conn {| proto := proto c; tun := tun c; device_id := device_id c; hardware_id := hardware_id c;
    current_network_id := current_network_id c; virtual_ip := virtual_ip c; virtual_ip_v6 := virtual_ip_v6 c;
    heartbeat_tx := hb; shutdown_tx := shutdown_tx c; task_handles := hs |} m.
Definition put_relay (rc : option Dispatcher.RelayClient) (m : ConnectionManager) : ConnectionManager :=
  put_shared {| peer_states := peer_states (shared m); pending_pings := pending_pings (shared m);
    relay_client := rc; relay_sessions := relay_sessions (shared m); port_mapper := port_mapper (shared m);
    port_mapping := port_mapping (shared m) |} m.
Definition push_handle (t : Task) : SesM unit :=
  _ ← perform (Spawn t); modify (fun m => put_handles (heartbeat_tx (conn m)) (task_handles (conn m) ++ [t]) m).

Definition v4_number (s : string) : option Z := match parse_ipv4 s with Some (V4 z) => Some z | _ => None end.
Definition v6_number (s : string) : option Z := match parse_ipv6 s with Some (V6 z) => Some z | _ => None end.

(** The relay: the server of the configuration, else the nucleus, where the
    text is an address with a port. *)
Definition relay_server_addr (net : Config.NetworkConfig) (nucleus_host : string) : option SocketAddr :=
  match (s ← Config.relay_server net; parse_socket_addr s) with
  | Some a => Some a
  | None => parse_socket_addr nucleus_host
  end.

(** What the dispatcher (Dispatcher.v) starts with. *)
Definition dispatcher_env (wg_port : option Z) (nucleus_host : string) (m : ConnectionManager) : Dispatcher.Env := {|
  Dispatcher.our_public_key := public_key m; Dispatcher.our_vip := s ← virtual_ip (conn m); v4_number s;
  Dispatcher.our_vip_v6 := s ← virtual_ip_v6 (conn m); v6_number s; Dispatcher.wg_listen_port := wg_port;
  Dispatcher.disco_config := disco_config m;
  Dispatcher.relay_server_addr := relay_server_addr (network_config m) nucleus_host;
  Dispatcher.secret := cluster_secret (role m); Dispatcher.macos := negb linux |}.

Definition wg_listen_port (tun socket : Z) : SesM (option Z) :=
  kernel ← perform (TunIsKernel tun);
  if kernel : bool then p ← perform (LocalPort socket); mret (ok p) else mret None.

Definition start_nucleus : SesM unit :=
  m ← gets id;
  if is_nucleus (role m) && nucleus_state (role m) then
    bound ← perform (BindV4 (nucleus_port (role m)));
    socket ← match bound with Ok s => mret s | Err _ => bind_v4_or_panic "bind" end;
    perform (Spawn (NucleusTask socket))
  else mret tt.

Definition start_loops (socket pr : Z) (nucleus_host : string) (tn : Z) (hardware : string) : SesM unit :=
  _ ← modify (fun m => put_handles true (task_handles (conn m)) m);
  wg_port ← wg_listen_port tn socket;
  _ ← modify (fun m => put_handles (heartbeat_tx (conn m)) [] m);
  _ ← start_nucleus;
  _ ← perform (TunStartLoop tn socket);
  m ← gets id;
  let env := dispatcher_env wg_port nucleus_host m in
  _ ← (if Peers.relay_enabled (disco_config m) then
         match Dispatcher.relay_server_addr env, Dispatcher.our_vip env with
         | Some addr, Some vip => modify (put_relay (Some (relay_client_new (public_key m) vip addr)))
         | _, _ => mret tt
         end
       else mret tt);
  _ ← push_handle (DispatcherTask socket pr tn);
  _ ← push_handle (HeartbeatTask hardware);
  _ ← push_handle DiscoveryTask;
  if Config.portmap_enabled (network_config m) then push_handle RefreshTask else mret tt.

Definition routing_os : Routing.Os := if linux then Routing.LinuxOs else Routing.MacOs.

(** From the join on, as the device with identifier [effective]. *)
Definition join_as (client : Api.ApiClient) (network hardware effective : string) : SesM Api.JoinVirtualNetworkResponse :=
  resp ← join_api client network effective;
  _ ← set_state Connecting;
  vip ← or_throw (Failed "invalid IPv4 address syntax") (v4_number (Api.virtual_ip resp));
  let vip6 := s ← Api.virtual_ip_v6 resp; v6_number s in
  _ ← modify (put_secret (Api.secret_key resp));
  sp ← open_socket;
  mapped ← map_port sp.2;
  pr ← open_proto resp vip vip6 sp.1 sp.2 mapped;
  tn ← open_tun resp sp.2;
  _ ← modify (established pr tn resp);
  _ ← start_loops sp.1 pr (Api.host (Api.server resp)) tn hardware;
  _ ← set_state Connected;
  r ← gets role;
  _ ← match exit_node_ip r with
      | Some ip => _ ← tolerate (cmd (Routing.setup_exit_node debug_args routing_os ip (exit_node_ip_v6 r)
                     (Api.host (Api.server resp)))); mret tt
      | None => mret tt
      end;
  mret resp.

Definition perform_join (network device hardware : string) : SesM Api.JoinVirtualNetworkResponse :=
  _ ← set_state Joining;
  _ ← modify (joining network device hardware);
  _ ← cleanup_adapters;
  _ ← perform (SleepMs 1000);
  client ← authenticated;
  effective ← register_device client hardware;
  join_as client network hardware effective.

(** ** Leaving *)

(** The end of the connection: channels, handles, tunnel, protocol, network
    and maps; the port mapper stays. *)
Definition take_shutdown (m : ConnectionManager) : ConnectionManager :=
  let c := conn m in
  put_conn {| proto := proto c; tun := tun c; device_id := device_id c; hardware_id := hardware_id c;
    current_network_id := current_network_id c; virtual_ip := virtual_ip c; virtual_ip_v6 := virtual_ip_v6 c;
    heartbeat_tx := heartbeat_tx c; shutdown_tx := false; task_handles := task_handles c |} m.
Definition drop_tun (m : ConnectionManager) : ConnectionManager :=
  let c := conn m in
  put_conn {| proto := proto c; tun := None; device_id := device_id c; hardware_id := hardware_id c;
    current_network_id := current_network_id c; virtual_ip := virtual_ip c; virtual_ip_v6 := virtual_ip_v6 c;
    heartbeat_tx := heartbeat_tx c; shutdown_tx := shutdown_tx c; task_handles := task_handles c |} m.
Definition drop_network (m : ConnectionManager) : ConnectionManager :=
  let c := conn m in
  put_conn {| proto := None; tun := tun c; device_id := device_id c; hardware_id := hardware_id c;
    current_network_id := None; virtual_ip := None; virtual_ip_v6 := None;
    heartbeat_tx := heartbeat_tx c; shutdown_tx := shutdown_tx c; task_handles := task_handles c |} m.
Definition clear_peers (m : ConnectionManager) : ConnectionManager :=
  put_shared {| peer_states := ∅; pending_pings := ∅; relay_client := relay_client (shared m);
    relay_sessions := relay_sessions (shared m); port_mapper := port_mapper (shared m);
    port_mapping := port_mapping (shared m) |} m.
Definition clear_relay (m : ConnectionManager) : ConnectionManager :=
  put_shared {| peer_states := peer_states (shared m); pending_pings := pending_pings (shared m);
    relay_client := None; relay_sessions := ∅; port_mapper := port_mapper (shared m);
    port_mapping := port_mapping (shared m) |} m.

Definition stop_tasks : SesM unit :=
  c ← gets conn;
  _ ← (if shutdown_tx c then _ ← modify take_shutdown; perform SendShutdown else mret tt);
  if bool_decide (task_handles c = []) then mret tt
  else _ ← modify (fun m => put_handles (heartbeat_tx (conn m)) [] m); perform (WaitTasks (task_handles c)).

Definition disconnect : SesM unit :=
  _ ← set_state Stopping;
  _ ← stop_tasks;
  tn ← gets (fun m => tun (conn m));
  _ ← match tn with Some t => perform (TunShutdown t) | None => mret tt end;
  _ ← modify drop_tun;
  _ ← modify drop_network;
  _ ← modify clear_peers;
  _ ← tolerate release_port_mapping;
  _ ← modify clear_relay;
  _ ← cleanup_adapters;
  r ← gets role;
  _ ← match exit_node_ip r with
      | Some _ => _ ← tolerate (cmd (Routing.restore_exit_node debug_args routing_os)); mret tt
      | None => mret tt
      end;
  set_state Disconnected.

Definition connect_with_token (token network device hardware : string) (nucleus exit : bool)
    (exit_ip exit_ip_v6 : option string) : SesM Api.JoinVirtualNetworkResponse :=
  connected ← gets is_connected;
  _ ← (if connected : bool then _ ← tolerate disconnect; mret tt else mret tt);
  _ ← set_state Authenticated;
  _ ← modify (fun m => put_role {| is_nucleus := nucleus; nucleus_state := nucleus || nucleus_state (role m);
        nucleus_port := nucleus_port (role m); as_exit_node := exit; exit_node_ip := exit_ip;
        exit_node_ip_v6 := exit_ip_v6; cluster_secret := cluster_secret (role m) |} m);
  _ ← use_token token;
  r ← attempt (perform_join network device hardware);
  match r with
  | Ok resp => mret resp
  | Err (Failed e) => _ ← set_state Authenticated; throw (Failed e)
  | Err (Panicked p) => throw (Panicked p)
  end.

(** ** The exit node *)

Definition put_exit (exit : bool) (ip v6 : option string) (m : ConnectionManager) : ConnectionManager :=
  let r := role m in
  put_role {| is_nucleus := is_nucleus r; nucleus_state := nucleus_state r; nucleus_port := nucleus_port r;
    as_exit_node := exit; exit_node_ip := ip; exit_node_ip_v6 := v6; cluster_secret := cluster_secret r |} m.

Definition set_exit_node (network exit_node : string) (ip v6 : option string) : SesM unit :=
  client ← authenticated;
  dev ← gets (fun m => device_id (conn m));
  dev ← or_throw (Failed "Device ID not set") dev;
  let node := if bool_decide (exit_node = "") then None else Some exit_node in
  _ ← web (Api.select_exit_node client network dev node);
  _ ← modify (fun m => put_exit (as_exit_node (role m)) ip v6 m);
  m ← gets id;
  if bool_decide (state m = Connected) then
    match ip with
    | Some ip =>
        match proto (conn m) with
        | Some (_, nucleus_host) =>
            _ ← tolerate (cmd (Routing.setup_exit_node debug_args routing_os ip v6 nucleus_host)); mret tt
        | None => mret tt
        end
    | None => _ ← tolerate (cmd (Routing.restore_exit_node debug_args routing_os)); mret tt
    end
  else mret tt.

Definition set_as_exit_node (enabled : bool) : SesM unit :=
  _ ← modify (fun m => put_exit enabled (exit_node_ip (role m)) (exit_node_ip_v6 (role m)) m);
  loaded ← tolerate (conf Config.load);
  _ ← match loaded with
      | Ok c => _ ← tolerate (conf (Config.save (Config.with_network enabled (Config.network_config c) c))); mret tt
      | Err _ => mret tt
      end;
  m ← gets id;
  match api_client m, current_network_id (conn m), device_id (conn m), hardware_id (conn m) with
  | Some client, Some network, Some device, Some hardware =>
      _ ← tolerate (web (Api.heartbeat client hardware enabled));
      _ ← tolerate (web (Api.update_device client network device enabled));
      mret tt
  | _, _, _, _ => mret tt
  end.

(** ** The rounds of the loops *)

(** A tick of the API, or a heartbeat asked for. *)
Definition api_tick (client : option Api.ApiClient) (hardware : string) : SesM unit :=
  match client with
  | Some c =>
      r ← gets role;
      _ ← tolerate (web (Api.heartbeat c hardware (as_exit_node r))); mret tt
  | None => mret tt
  end.
Definition proto_tick (pr socket : Z) : SesM unit :=
  m ← gets id;
  _ ← perform (ProtoHeartbeat pr socket (Z.of_nat (size (peer_states (shared m))) `mod` 2 ^ 32)); mret tt.

(** The device of the network to ask the nucleus about, if any. *)
Definition unknown_peer (our_vip : option Z) (known : gmap Z Peers.PeerState) (d : Api.VirtualNetworkDeviceResponse) : option Z :=
  let ours := match our_vip with
              | Some v => bool_decide (Api.member_virtual_ip d = show_ipv4 v)
              | None => false
              end in
  if ours || negb (Api.online d) then None
  else
    vip ← v4_number (Api.member_virtual_ip d);
    match known !! vip with Some _ => None | None => Some vip end.

Fixpoint query_peers (pr socket : Z) (vips : list Z) : SesM unit :=
  match vips with
  | [] => mret tt
  | v :: vips => _ ← perform (QueryPeer pr socket v); query_peers pr socket vips
  end.

Definition discover_peers (client : option Api.ApiClient) (pr socket : Z) (our_vip : option Z) : SesM unit :=
  nid ← gets (fun m => current_network_id (conn m));
  match client, nid with
  | Some c, Some network =>
      devices ← tolerate (web (Api.get_devices c network));
      match devices with
      | Ok ds =>
          known ← gets (fun m => peer_states (shared m));
          query_peers pr socket (omap (unknown_peer our_vip known) ds)
      | Err _ => mret tt
      end
  | _, _ => mret tt
  end.

(** Every half hour: the mapping is renewed; a port that has changed, or a
    mapping that is lost, is told to the nucleus. *)
Definition refresh_mapping (pr socket : Z) : SesM unit :=
  pm ← gets (fun m => port_mapper (shared m));
  match pm with
  | None => mret tt
  | Some mapper =>
      old ← perform (GetExternalPort pr);
      refreshed ← perform (MapperRefresh mapper);
      match refreshed with
      | Ok true =>
          current ← adopt_mapping mapper;
          match current with
          | Some mapping =>
              if bool_decide (old <> Some (external_port mapping)) then
                _ ← perform (SetExternalPort pr (external_port mapping));
                _ ← perform (SetExternalAddr pr (gateway mapping +:+ ":" +:+ show_uint (external_port mapping)));
                _ ← perform (Register pr socket); mret tt
              else mret tt
          | None => mret tt
          end
      | Ok false => mret tt
      | Err _ =>
          _ ← modify (put_port_mapping None);
          old ← perform (GetExternalPort pr);
          match old with
          | Some _ =>
              _ ← perform (SetExternalPort pr 0);
              _ ← perform (SetExternalAddr pr "");
              _ ← perform (Register pr socket); mret tt
          | None => mret tt
          end
      end
  end.

(** ** Waiting for a login in the browser *)

Definition session_url (url session : string) : string :=
  if contains url "localhost" || contains url "127.0.0.1" then "ws://127.0.0.1:8080/auth/login/session/" +:+ session
  else Api.ws_url (Api.ApiClient_new url None) ("/auth/login/session/" +:+ session).

(** A message that brings a token. *)
Definition token_message (text : string) : option Api.WebSocketTokenResponse :=
  match (v ← Api.from_slice _ Api.SValue (string_bytes text); Api.ws_token_of_value v) with
  | Ok t => if bool_decide (Api.ws_token t = "") then None else Some t
  | Err _ => None
  end.

(** What an event decides: [None] to go on. *)
Definition session_verdict (e : WsEvent) : option (result string Api.WebSocketTokenResponse) :=
  match e with
  | WsText text => Ok <$> token_message text
  | WsBinary bytes => Ok <$> token_message (Routing.lossy bytes)
  | WsClose frame => Some (Err ("WebSocket closed by server: " +:+ frame))
  | WsPong | WsOther => None
  | WsError e => Some (Err ("WebSocket error: " +:+ e))
  | WsEnd => Some (Err "WebSocket closed without receiving tokens")
  | WsTimeout => Some (Err "Login session timed out after 15 minutes. Please try again.")
  | WsCancelled => Some (Err "Login cancelled by user")
  end.

(** The wait; the result is [None] when the fuel runs out. *)
Fixpoint await_token (fuel : nat) : SesM (option Api.WebSocketTokenResponse) :=
  match fuel with
  | O => mret None
  | S fuel =>
      e ← perform WsNext;
      match session_verdict e with
      | Some (Ok t) => mret (Some t)
      | Some (Err e) => throw (Failed e)
      | None => await_token fuel
      end
  end.

Definition wait_for_session_login (fuel : nat) (url session : string) : SesM (option Api.WebSocketTokenResponse) :=
  let ws := session_url url session in
  _ ← perform_ok (WsRequest ws);
  connected ← perform (WsConnect ws);
  match connected with
  | None => throw (Failed "WebSocket connection timed out during handshake")
  | Some (Err _) => throw (Failed "Failed to connect to login WebSocket")
  | Some (Ok _) => await_token fuel
  end.

(** ** What the programs do, whatever the replies *)

#[local] Create HintDb calm discriminated.

Abbreviation any p m Q := (hoare (fun _ _ => True) (fun _ _ _ => True) p m Q) (only parsing).

Lemma hoare_part {E : Set -> Set} (f : forall R : Set, E R -> SessionCall R) {A} (p : SM E unit string A) (m : ConnectionManager) (Q : ConnectionManager -> result Fault A -> Prop) :
  (forall a, Q m (Ok a)) -> (forall e, Q m (Err (Failed e))) ->
  any (zoom f (fun _ => tt) (fun _ m => m) Failed p) m Q.
Proof.
  intros Ho He. eapply (hoare_zoom f (fun _ => tt) (fun _ m => m) Failed (fun _ _ => True) (fun _ _ _ => True) _ _ p m (fun _ _ => True)); [done|done|apply hoare_any|].
  intros s [a|e] _; auto.
Qed.

Lemma hoare_perform {R : Set} (c : OwnCall R) m Q : (forall r, Q m (Ok r)) -> any (perform c) m Q.
Proof. intros HQ. apply hoare_call; [done|]. intros r _. apply HQ. Qed.

Lemma hoare_perform_ok {A : Set} (c : OwnCall (result string A)) m Q :
  (forall a, Q m (Ok a)) -> (forall e, Q m (Err (Failed e))) -> any (perform_ok c) m Q.
Proof.
  intros Ho He. apply hoare_bind, hoare_perform. intros [a|e]; [apply hoare_ret, Ho|apply hoare_throw, He].
Qed.

Lemma hoare_with_context {A : Set} what (c : OwnCall (result string A)) m Q :
  (forall a, Q m (Ok a)) -> (forall e, Q m (Err (Failed e))) -> any (with_context what c) m Q.
Proof.
  intros Ho He. apply hoare_bind, hoare_perform. intros [a|e]; [apply hoare_ret, Ho|apply hoare_throw, He].
Qed.

Lemma hoare_tolerate {A} (p : SesM A) m Q :
  any p m (fun m' r => match r with
                       | Ok a => Q m' (Ok (Ok a)) | Err (Failed e) => Q m' (Ok (Err e))
                       | Err (Panicked x) => Q m' (Err (Panicked x))
                       end) ->
  any (tolerate p) m Q.
Proof.
  intros Hp. unfold tolerate. apply hoare_bind, hoare_attempt. eapply hoare_mono; [exact Hp|].
  intros m' [a|[e|x]] HQ; done.
Qed.

(** Programs that leave the manager as it is; those with [true] do not fail. *)
Definition calm {A} (sure : bool) (p : SesM A) : Prop :=
  forall m (Q : ConnectionManager -> result Fault A -> Prop),
  (forall a, Q m (Ok a)) -> (sure = false -> forall e, Q m (Err e)) -> any p m Q.

Lemma calm_bind {A B} b (p : SesM A) (f : A -> SesM B) : calm b p -> (forall a, calm b (f a)) -> calm b (p ≫= f).
Proof. intros Hp Hf m Q Ho He. apply hoare_bind, Hp; [intros a; by apply Hf|exact He]. Qed.
Lemma calm_ret {A} b (a : A) : calm b (mret a).
Proof. intros m Q Ho He. apply hoare_ret, Ho. Qed.
Lemma calm_throw {A} e : calm false (throw e : SesM A).
Proof. intros m Q Ho He. apply hoare_throw, He, eq_refl. Qed.
Lemma calm_gets {A} b (f : ConnectionManager -> A) : calm b (gets f).
Proof. intros m Q Ho He. apply hoare_gets, Ho. Qed.
Lemma calm_call {R : Set} b (c : SessionCall R) : calm b (call c).
Proof. intros m Q Ho He. apply hoare_call; [done|]. intros r _. apply Ho. Qed.
Lemma calm_part {E : Set -> Set} (f : forall R : Set, E R -> SessionCall R) {A} (p : SM E unit string A) :
  calm false (zoom f (fun _ => tt) (fun _ m => m) Failed p : SesM A).
Proof. intros m Q Ho He. apply hoare_part; [exact Ho|]. intros e. by apply He. Qed.
Lemma calm_tolerate_part {E : Set -> Set} (f : forall R : Set, E R -> SessionCall R) {A} b (p : SM E unit string A) :
  calm b (tolerate (zoom f (fun _ => tt) (fun _ m => m) Failed p : SesM A)).
Proof. intros m Q Ho He. apply hoare_tolerate, hoare_part; intros; apply Ho. Qed.
Lemma calm_attempt {A} b (p : SesM A) : calm false p -> calm b (attempt p).
Proof. intros Hp m Q Ho He. apply hoare_attempt, Hp; intros; apply Ho. Qed.

(** A calm program, by its parts; the database names the programs known to be. *)
Ltac calm :=
  intros;
  repeat first
    [ solve [auto 1 with calm nocore] | apply calm_tolerate_part | apply calm_bind; [|intros ?]
    | apply calm_ret | apply calm_throw | apply calm_gets | apply calm_call
    | apply calm_part | apply calm_attempt; calm | progress unfold perform, perform_ok, with_context, tolerate, web, conf, cmd
    | case_match ].

Lemma calm_cleanup b : calm b cleanup_adapters.
Proof.
  assert (Hr : forall names, calm b (remove_adapters names)) by (intros names; induction names; cbn [remove_adapters]; cbv zeta; calm; done).
  unfold cleanup_adapters, script. calm.
Qed.
#[local] Hint Resolve calm_cleanup : calm.
Lemma calm_open_socket : calm false open_socket.
Proof. unfold open_socket, create_dual_stack_socket, bind_v4_or_panic. calm. Qed.
Lemma calm_open_proto resp vip vip6 socket port mapped : calm false (open_proto resp vip vip6 socket port mapped).
Proof. unfold open_proto. cbv zeta. calm. Qed.
Lemma calm_open_tun resp port : calm false (open_tun resp port).
Proof. unfold open_tun, find_interface_with_ip, script. calm. Qed.
Lemma calm_start_nucleus : calm false start_nucleus.
Proof. unfold start_nucleus, bind_v4_or_panic. calm. Qed.
Lemma calm_wg_port tun socket : calm true (wg_listen_port tun socket).
Proof. unfold wg_listen_port. calm. Qed.
#[local] Hint Resolve calm_open_socket calm_open_proto calm_open_tun calm_start_nucleus calm_wg_port : calm.

(** Past a part that does not touch the manager, and past one that cannot fail. *)
Lemma hoare_calm {A} (p : SesM A) m (Q : ConnectionManager -> result Fault A -> Prop) :
  calm false p -> (forall a, Q m (Ok a)) -> (forall e, Q m (Err e)) -> any p m Q.
Proof. intros Hp Ho He. by apply Hp. Qed.
Lemma hoare_sure {A} (p : SesM A) m (Q : ConnectionManager -> result Fault A -> Prop) :
  calm true p -> (forall a, Q m (Ok a)) -> any p m Q.
Proof. intros Hp Ho. by apply Hp. Qed.
Ltac sure := apply hoare_sure; [by calm|intros ?]; cbv beta iota.

(** *** Leaving *)

Lemma release_mapping m (Q : ConnectionManager -> result Fault (result string unit) -> Prop) :
  (forall r, Q m (Ok r)) -> (forall r, Q (put_port_mapping None m) (Ok r)) -> any (tolerate release_port_mapping) m Q.
Proof.
  intros Hsame Hn. apply hoare_tolerate. unfold release_port_mapping. sm_step. sm_step. cbv beta iota.
  destruct (port_mapper (shared m)) as [h|]; [|sm_step; apply Hsame].
  sm_step. apply hoare_perform_ok; [intros u|intros e; apply Hsame]. cbv beta iota. sm_step. apply Hn.
Qed.

(** The manager after it has left a network. *)
Definition left_behind (m m' : ConnectionManager) : Prop :=
  state m' = Disconnected /\ is_connected m' = false /\ proto (conn m') = None /\
  current_network_id (conn m') = None /\ virtual_ip (conn m') = None /\ virtual_ip_v6 (conn m') = None /\
  shutdown_tx (conn m') = false /\ task_handles (conn m') = [] /\
  peer_states (shared m') = ∅ /\ pending_pings (shared m') = ∅ /\ relay_client (shared m') = None /\
  relay_sessions (shared m') = ∅ /\
  (port_mapping (shared m') = None \/ port_mapping (shared m') = port_mapping (shared m)) /\
  api_client m' = api_client m /\ role m' = role m /\ base_url m' = base_url m.

Lemma stop_tasks_spec m (Q : ConnectionManager -> result Fault unit -> Prop) :
  (forall c, shutdown_tx c = false -> task_handles c = [] -> Q (put_conn c m) (Ok tt)) -> any stop_tasks m Q.
Proof.
  intros HQ. unfold stop_tasks. sm_step. sm_step. cbv beta iota. sm_step.
  apply (hoare_mono _ _ _ _ (fun m1 r => r = Ok tt /\ exists c, m1 = put_conn c m /\ shutdown_tx c = false /\ task_handles c = task_handles (conn m))).
  - destruct (shutdown_tx (conn m)) eqn:Es.
    + sm_step. sm_step. cbv beta iota. sure. destruct a. split; [done|]. by eexists.
    + sm_step. split; [done|]. exists (conn m). split; [by destruct m|done].
  - intros m1 r (-> & c & -> & Hs & Ht). cbv beta iota. case_bool_decide as Hn.
    + sm_step. apply HQ; congruence.
    + sm_step. sm_step. cbv beta iota. sure. destruct a. by apply HQ.
Qed.

(** From any state and whatever the system answers, leaving succeeds and
    leaves nothing of the connection behind; only a port mapping the gateway
    would not release is still shown. *)
Theorem disconnect_leaves_nothing m :
  any disconnect m (fun m' r => r = Ok tt /\ left_behind m m').
Proof.
  unfold disconnect. sm_step. unfold set_state. sm_step. cbv beta iota. sm_step. apply stop_tasks_spec. intros c Hs Ht.
  cbv beta iota. sm_step. sm_step. cbv beta iota. sm_step. sure. do 3 (sm_step; sm_step; cbv beta iota).
  sm_step. apply release_mapping; intros r; cbv beta iota; do 2 (sm_step; try sm_step; cbv beta iota).
  all: sure; sm_step; sm_step; cbv beta iota; sm_step; sure; sm_step; split; [done|]; unfold left_behind; cbn; tauto.
Qed.

(** *** Joining *)

Lemma register_device_spec client hardware m (Q : ConnectionManager -> result Fault string -> Prop) :
  (forall dev, Q m (Ok dev)) -> (forall dev, Q (put_device dev m) (Ok dev)) -> any (register_device client hardware) m Q.
Proof.
  intros Hs Hd. unfold register_device. sm_step. sure. cbv zeta. sm_step. sure.
  destruct a0 as [d|e]; [|sm_step; apply Hs]. sm_step. sm_step. cbv beta iota. sm_step. apply Hd.
Qed.

Lemma join_api_spec client network device m (Q : ConnectionManager -> result Fault Api.JoinVirtualNetworkResponse -> Prop) :
  (forall resp, Q m (Ok resp)) -> (forall e, Q (put_state Authenticated m) (Err (Failed e))) ->
  any (join_api client network device) m Q.
Proof.
  intros Ho He. unfold join_api. sm_step. sm_step. apply hoare_part; [intros resp|intros e]; cbv beta iota.
  - sm_step. apply Ho.
  - unfold set_state. sm_step. sm_step. cbv beta iota. sm_step. apply He.
Qed.

Lemma put_mapping_same m : put_mapping (port_mapper (shared m)) (port_mapping (shared m)) m = m.
Proof. by destruct m as [? ? ? ? ? ? ? ? ? []]. Qed.

Lemma init_port_mapper_spec port m (Q : ConnectionManager -> result Fault PortMapCapabilities -> Prop) :
  (forall c, Q m (Ok c)) -> (forall e, Q m (Err (Failed e))) ->
  (forall h c, Q (put_mapping (Some h) (port_mapping (shared m)) m) (Ok c)) ->
  any (init_port_mapper port) m Q.
Proof.
  intros Ho He Hm. unfold init_port_mapper. sm_step. sm_step. cbv beta iota. sm_step; [sm_step; apply Ho|].
  sm_step. sure. sm_step. sure. destruct a0 as [[caps|e]|]; [|sm_step; apply He..].
  sm_step. sm_step. cbv beta iota. sm_step. apply Hm.
Qed.

Lemma request_mapping_spec lifetime m (Q : ConnectionManager -> result Fault Z -> Prop) :
  (forall pm mp r, (forall x, r <> Err (Panicked x)) -> Q (put_mapping pm mp m) r) -> any (request_port_mapping lifetime) m Q.
Proof.
  intros HQ. unfold request_port_mapping. sm_step. sm_step. cbv beta iota.
  assert (Hm : forall r, (forall x, r <> Err (Panicked x)) -> Q m r).
  { intros r Hr. pose proof (HQ (port_mapper (shared m)) (port_mapping (shared m)) r Hr) as H'. by rewrite put_mapping_same in H'. }
  sm_step. sm_step; [|by apply Hm]. cbv beta iota. sm_step. apply hoare_perform_ok; [intros port|intros e; by apply Hm].
  cbv beta iota. unfold adopt_mapping. sm_step. sm_step. sure. destruct a0 as [mapping|].
  - sm_step. sm_step. cbv beta iota. sm_step. sm_step. by apply HQ.
  - sm_step. sm_step. by apply Hm.
Qed.

Lemma map_port_spec port m (Q : ConnectionManager -> result Fault (option Z * option string) -> Prop) :
  (forall pm mp r, Q (put_mapping pm mp m) (Ok r)) -> any (map_port port) m Q.
Proof.
  intros HQ. assert (Hm : forall r, Q m (Ok r)).
  { intros r. pose proof (HQ (port_mapper (shared m)) (port_mapping (shared m)) r) as H'. by rewrite put_mapping_same in H'. }
  unfold map_port. sm_step. sm_step. cbv beta iota. sm_step; [sm_step; apply Hm|].
  assert (Hcaps : forall (caps : PortMapCapabilities) m1, (exists pm mp, m1 = put_mapping pm mp m) ->
    any (if nat_pmp caps || upnp caps || pcp caps
         then mapped ← tolerate (request_port_mapping 7200);
           match mapped with
           | Ok ext => mret (Some ext, (fun a => a +:+ ":" +:+ show_uint ext) <$> external_addr caps)
           | Err _ => mret (None, None)
           end
         else mret (None, None)) m1 Q).
  { intros caps m1 (pm & mp & ->). sm_step; [|sm_step; apply HQ]. sm_step. apply hoare_tolerate.
    apply request_mapping_spec. intros pm' mp' r Hr.
    assert (HQ' : forall r, Q (put_mapping pm' mp' (put_mapping pm mp m)) (Ok r)) by (intros r'; apply (HQ pm' mp')).
    destruct r as [ext|[e|x]]; [| |by destruct (Hr x)]; cbv beta iota; sm_step; apply HQ'. }
  sm_step. apply hoare_tolerate. apply init_port_mapper_spec; [intros caps|intros e|intros h caps]; cbv beta iota.
  - apply Hcaps. exists (port_mapper (shared m)), (port_mapping (shared m)). by rewrite put_mapping_same.
  - sm_step. apply Hm.
  - apply Hcaps. by eexists _, _.
Qed.

Lemma start_nucleus_spec m (Q : ConnectionManager -> result Fault unit -> Prop) :
  (forall u, Q m (Ok u)) -> (forall x, Q m (Err (Panicked x))) -> any start_nucleus m Q.
Proof.
  intros Ho Hx. unfold start_nucleus. sm_step. sm_step. cbv beta iota. sm_step; [|sm_step; apply Ho].
  sm_step. sure. destruct a as [s|e].
  - sm_step. sm_step. cbv beta iota. sure. apply Ho.
  - unfold bind_v4_or_panic. sm_step. sm_step. sure. destruct a as [s|e'].
    + sm_step. sure. apply Ho.
    + sm_step. apply Hx.
Qed.

(** The connection with its loops. *)
Definition running (hardware : string) (m m' : ConnectionManager) : Prop :=
  state m' = state m /\ api_client m' = api_client m /\ role m' = role m /\ base_url m' = base_url m /\
  proto (conn m') = proto (conn m) /\ tun (conn m') = tun (conn m) /\
  device_id (conn m') = device_id (conn m) /\ hardware_id (conn m') = hardware_id (conn m) /\
  current_network_id (conn m') = current_network_id (conn m) /\ virtual_ip (conn m') = virtual_ip (conn m) /\
  virtual_ip_v6 (conn m') = virtual_ip_v6 (conn m) /\ shutdown_tx (conn m') = shutdown_tx (conn m) /\
  heartbeat_tx (conn m') = true /\ peer_states (shared m') = peer_states (shared m) /\
  pending_pings (shared m') = pending_pings (shared m) /\
  exists socket pr tn rest,
    task_handles (conn m') = DispatcherTask socket pr tn :: HeartbeatTask hardware :: DiscoveryTask :: rest.

Lemma put_relay_same m : put_relay (relay_client (shared m)) m = m.
Proof. by destruct m as [? ? ? ? ? ? ? ? ? []]. Qed.

Lemma push_handle_spec t m (Q : ConnectionManager -> result Fault unit -> Prop) :
  Q (put_handles (heartbeat_tx (conn m)) (task_handles (conn m) ++ [t]) m) (Ok tt) -> any (push_handle t) m Q.
Proof. intros HQ. unfold push_handle. sm_step. sure. by sm_step. Qed.

Lemma start_loops_spec socket pr host tn hardware m (Q : ConnectionManager -> result Fault unit -> Prop) :
  (forall m', running hardware m m' -> Q m' (Ok tt)) -> (forall m' x, Q m' (Err (Panicked x))) ->
  any (start_loops socket pr host tn hardware) m Q.
Proof.
  intros Ho Hx. unfold start_loops. sm_step. sm_step. cbv beta iota. sm_step. sure. sm_step. sm_step. cbv beta iota.
  sm_step. apply start_nucleus_spec; [intros u|intros x; apply Hx]. cbv beta iota. sm_step. sure. sm_step. sm_step. cbv beta iota zeta.
  sm_step. match goal with |- any _ ?m0 _ => set (m1 := m0) end.
  apply (hoare_mono _ _ _ _ (fun m2 r => r = Ok tt /\ exists rc, m2 = put_relay rc m1)).
  { assert (Hsame : exists rc, m1 = put_relay rc m1) by (eexists; symmetry; apply put_relay_same).
    sm_step; [|by sm_step]. do 2 (case_match; [|by sm_step]). sm_step. split; [done|by eexists]. }
  intros m2 r (-> & rc & ->). cbv beta iota. do 3 (sm_step; apply push_handle_spec; cbv beta iota).
  sm_step; [apply push_handle_spec|sm_step]; apply Ho; repeat (split; [done|]); by eexists _, _, _, _.
Qed.

(** What a join leaves, from a manager without a tunnel. *)
Definition joined (network hardware : string) (resp : Api.JoinVirtualNetworkResponse) (m : ConnectionManager) : Prop :=
  state m = Connected /\ is_connected m = true /\ current_network_id (conn m) = Some network /\
  virtual_ip (conn m) = Some (Api.virtual_ip resp) /\ cluster_secret (role m) = Some (Api.secret_key resp) /\
  (exists pr, proto (conn m) = Some (pr, Api.host (Api.server resp))) /\ shutdown_tx (conn m) = true /\
  exists socket pr tn rest,
    task_handles (conn m) = DispatcherTask socket pr tn :: HeartbeatTask hardware :: DiscoveryTask :: rest.

Definition join_result (network hardware : string) (m m' : ConnectionManager)
    (r : result Fault Api.JoinVirtualNetworkResponse) : Prop :=
  match r with
  | Ok resp => api_client m' = api_client m /\ joined network hardware resp m'
  | Err (Failed _) => api_client m' = api_client m /\ tun (conn m') = None /\ current_network_id (conn m') = Some network
  | Err (Panicked _) => True
  end.

Lemma join_as_spec client network hardware dev m m1 :
  api_client m1 = api_client m -> tun (conn m1) = None -> current_network_id (conn m1) = Some network ->
  any (join_as client network hardware dev) m1 (join_result network hardware m).
Proof.
  intros Hapi Ht Hn. unfold join_as, set_state. sm_step. apply join_api_spec; [intros resp|intros e; by split]. cbv beta iota.
  sm_step. sm_step. cbv beta iota. sm_step. sm_step; [|by split]. cbv beta iota zeta. sm_step. sm_step. cbv beta iota.
  sm_step. apply hoare_calm; [calm|intros sp|intros [e|x]; by split]. cbv beta iota.
  sm_step. apply map_port_spec. intros pm mp mapped. cbv beta iota.
  sm_step. apply hoare_calm; [calm|intros pr|intros [e|x]; by split]. cbv beta iota.
  sm_step. apply hoare_calm; [calm|intros tn|intros [e|x]; by split]. cbv beta iota. sm_step. sm_step. cbv beta iota.
  sm_step. apply start_loops_spec; [intros m2 Hr|intros m2 x; done].
  cbv beta iota. sm_step. sm_step. cbv beta iota. sm_step. sm_step. cbv beta iota. sm_step. sure. sm_step.
  destruct Hr as (_ & Ha & Hro & _ & Hp & Htn & _ & _ & Hni & Hv & _ & Hsh & _ & _ & _ & Hh).
  split; [by rewrite <- Hapi|]. unfold joined, is_connected. cbn. rewrite Hp, Htn, Hni, Hv, Hsh, Hro. cbn. naive_solver.
Qed.

Lemma perform_join_spec network device hardware m :
  tun (conn m) = None -> any (perform_join network device hardware) m (join_result network hardware m).
Proof.
  intros Htun. unfold perform_join, set_state. do 2 (sm_step; sm_step; cbv beta iota). sm_step. sure. sm_step. sure.
  sm_step. unfold authenticated. sm_step. sm_step. cbv beta iota. sm_step; [|done]. cbv beta iota.
  sm_step. apply register_device_spec; intros dev; cbv beta iota; by apply join_as_spec.
Qed.

Lemma leave_first m (Q : ConnectionManager -> result Fault unit -> Prop) :
  (forall m1, tun (conn m1) = None -> base_url m1 = base_url m -> Q m1 (Ok tt)) ->
  any (if is_connected m then _ ← tolerate disconnect; mret tt else mret tt) m Q.
Proof.
  intros HQ. destruct (is_connected m) eqn:Ec.
  - sm_step. apply hoare_tolerate. eapply hoare_mono; [apply disconnect_leaves_nothing|].
    intros m1 r [-> Hl]. cbv beta iota. sm_step. destruct Hl as (_ & Hc & H'). unfold is_connected in Hc.
    apply HQ; [by destruct (tun (conn m1))|naive_solver].
  - sm_step. unfold is_connected in Ec. apply HQ; [by destruct (tun (conn m))|done].
Qed.

Section Connect.
Context (token network device hardware : string) (nucleus exit : bool) (ip v6 : option string).
Context (m : ConnectionManager) (Q : ConnectionManager -> result Fault Api.JoinVirtualNetworkResponse -> Prop).

Lemma connect_rule :
  let client := Some (Api.ApiClient_new (base_url m) (Some token)) in
  (forall m' resp, joined network hardware resp m' -> api_client m' = client -> Q m' (Ok resp)) ->
  (forall m' e, state m' = Authenticated -> is_connected m' = false -> current_network_id (conn m') = Some network ->
    api_client m' = client -> Q m' (Err (Failed e))) ->
  (forall m' x, Q m' (Err (Panicked x))) ->
  any (connect_with_token token network device hardware nucleus exit ip v6) m Q.
Proof.
  intros client Ho He Hx. unfold connect_with_token. sm_step. sm_step. cbv beta iota. sm_step.
  apply leave_first. intros m1 Ht Hb. cbv beta iota. unfold set_state, use_token, new_client.
  do 2 (sm_step; sm_step; cbv beta iota). sm_step. sm_step. sm_step. sm_step. cbv beta iota. sm_step. cbv beta iota. sm_step. cbv beta iota.
  sm_step. sm_step. eapply hoare_mono; [by apply perform_join_spec|]. cbn in *.
  intros m2 [resp|[e|x]] Hj; cbn in Hj; cbv beta iota.
  - sm_step. destruct Hj as [Ha Hj]. apply Ho; [done|]. by rewrite Ha, Hb.
  - sm_step. sm_step. cbv beta iota. sm_step. destruct Hj as (Ha & Ht2 & Hn).
    apply He; [done|unfold is_connected; cbn; by rewrite Ht2|done|cbn; by rewrite Ha, Hb].
  - sm_step. apply Hx.
Qed.
End Connect.


(** *** The state between operations *)

(** The state says connected only with a tunnel, a protocol object, a network,
    an address and loops that can be told to stop. *)
Definition coherent (m : ConnectionManager) : Prop :=
  state m = Connected ->
  is_connected m = true /\ is_Some (proto (conn m)) /\ is_Some (current_network_id (conn m)) /\
  is_Some (virtual_ip (conn m)) /\ shutdown_tx (conn m) = true /\ task_handles (conn m) <> [].

Inductive operation : forall A, SesM A -> Prop :=
| op_connect t n d h nu e ip v6 : operation _ (connect_with_token t n d h nu e ip v6)
| op_disconnect : operation _ disconnect
| op_logout : operation _ logout
| op_auto : operation _ try_auto_login
| op_password m p : operation _ (login_with_password m p)
| op_poll c : operation _ (poll_device_flow c)
| op_token t : operation _ (handle_login_token t)
| op_config c : operation _ (set_network_config c)
| op_nucleus p s : operation _ (set_nucleus_config p s)
| op_exit n e ip v6 : operation _ (set_exit_node n e ip v6)
| op_as_exit b : operation _ (set_as_exit_node b)
| op_refresh : operation _ check_and_refresh_port_mapping
| op_release : operation _ release_port_mapping.

(** The connection is that of before, or the state is not connected. *)
Definition unconnected (m m' : ConnectionManager) : Prop :=
  state m' <> Connected \/ (state m' = state m /\ conn m' = conn m).

Lemma unconnected_coherent m m' : unconnected m m' -> coherent m -> coherent m'.
Proof. unfold coherent, is_connected. intros [Hs|[Hs Hc]] Hm; [done|]. by rewrite Hs, Hc. Qed.

(** Through an operation that only calls and sets states, errors and all. *)
Ltac quiet :=
  repeat first
    [ progress cbv beta iota zeta | apply hoare_tolerate, hoare_part; intros | apply hoare_part; intros
    | match goal with |- hoare _ _ (perform_ok _) _ _ => apply hoare_perform_ok; intros end | sm_step
    | progress unfold set_state, use_token, new_client, authenticated, logged_in, web, conf, cmd, perform, get_profile,
        adopt_mapping
    | case_match ];
  try (intros; first [exact I | assumption | eapply unconnected_coherent; [|eassumption]; first [by left | by right]]).


(** A login by password that fails leaves the manager authenticating, with the
    client it had. *)
Theorem failed_login_stays mail password m :
  any (login_with_password mail password) m (fun m' r =>
    match r with
    | Ok auth => state m' = Authenticated /\ api_client m' = Some (Api.ApiClient_new (base_url m) (Some (Api.effective_token auth)))
    | Err _ => state m' = Authenticating /\ api_client m' = api_client m
    end).
Proof.
  unfold login_with_password, set_state, new_client. do 2 (sm_step; sm_step; cbv beta iota). sm_step. cbv beta iota. sm_step.
  sm_step. apply hoare_part; [intros auth|by intros e]. cbv beta iota. unfold logged_in, use_token, new_client, set_state.
  sm_step. sm_step. sm_step. sm_step. cbv beta iota. sm_step. cbv beta iota. sm_step. cbv beta iota. sm_step. sm_step. cbv beta iota. by sm_step.
Qed.

(** *** The file *)

(** What is written to files is a configuration that satisfies [P]. *)
Definition writes (P : Config.CliConfig -> Prop) (R : Set) (c : Config.ConfCall R) : Prop :=
  match c with Config.WriteFile _ text => exists c, P c /\ Config.to_string_pretty c = Ok text | _ => True end.
Definition session_writes (P : Config.CliConfig -> Prop) (R : Set) (c : SessionCall R) : Prop :=
  match c with inl (inr c) => writes P R c | _ => True end.

Lemma home_writes P s Q : (forall r, Q s r) -> hoare (writes P) (fun _ _ _ => True) Config.user_home s Q.
Proof.
  intros HQ. unfold Config.user_home, Config.get_real_user_home.
  repeat (first [progress cbv beta iota zeta | sm_step | case_match]; try done; try apply HQ).
Qed.

Lemma save_writes (P : Config.CliConfig -> Prop) c s Q :
  P c -> (forall r, Q s r) -> hoare (writes P) (fun _ _ _ => True) (Config.save c) s Q.
Proof.
  intros HP HQ. unfold Config.save, Config.config_path, Config.chown_to_real_user. sm_step. sm_step. apply home_writes.
  intros [h|e]; cbv beta iota zeta; [|apply HQ].
  repeat (first [progress cbv beta iota zeta | sm_step | case_match]; try done; try apply HQ; try (by exists c)).
Qed.

Lemma load_writes P s Q : (forall r, Q s r) -> hoare (writes P) (fun _ _ _ => True) Config.load s Q.
Proof.
  intros HQ. unfold Config.load, Config.config_path, Config.default_with_paths.
  repeat (first [progress cbv beta iota zeta | apply home_writes; intros [?|?] | sm_step | case_match]; try done; try apply HQ).
Qed.

(** Every file a session login writes is a configuration with the new login
    and the time of the old one; where there was none before, the login that
    was just made counts as expired at once. *)
Theorem session_login_undated tok m :
  hoare (session_writes (fun c' => exists c, c' = Config.with_auth (Some (auth_of_token tok)) (Config.token_obtained_at c) c /\
      (Config.token_obtained_at c = None -> forall now, Config.token_expired_at now c' = true)))
    (fun _ _ _ => True) (handle_login_token tok) m (fun m' r => is_ok r = true -> state m' = Authenticated).
Proof.
  set (P := fun c' => _). unfold handle_login_token, use_token, new_client, set_state. cbv zeta.
  sm_step. sm_step. sm_step. sm_step. cbv beta iota. sm_step. cbv beta iota. sm_step. cbv beta iota.
  assert (Hp : forall A (p : SM Config.ConfCall unit string A) m Q,
    hoare (writes P) (fun _ _ _ => True) p tt (fun _ _ => True) -> (forall r, Q m (Ok r)) ->
    hoare (session_writes P) (fun _ _ _ => True) (tolerate (conf p)) m Q).
  { intros A p m1 Q Hp HQ. unfold tolerate. sm_step. sm_step.
    eapply (hoare_zoom of_conf _ _ _ (writes P) (fun _ _ _ => True)); [done|done|exact Hp|]. intros s [a|e] _; cbv beta iota; sm_step; apply HQ. }
  sm_step. apply Hp; [by apply load_writes|]. intros loaded. cbv beta iota. sm_step.
  eapply (hoare_mono _ _ _ _ (fun _ _ => True)).
  - destruct loaded as [c|e]; [|by sm_step]. sm_step. apply Hp; [|by intros; sm_step].
    apply save_writes; [|done]. exists c. split; [done|]. intros Hn now. unfold Config.token_expired_at. cbn. by rewrite Hn.
  - intros m1 [u|e] _; [|done]. cbv beta iota. sm_step. sm_step. cbv beta iota. by sm_step.
Qed.

(** *** The rounds of the loops *)

Lemma unknown_peer_spec our_vip known d vip :
  unknown_peer our_vip known d = Some vip <->
  Api.online d = true /\ v4_number (Api.member_virtual_ip d) = Some vip /\ known !! vip = None /\
  (forall v, our_vip = Some v -> Api.member_virtual_ip d <> show_ipv4 v).
Proof.
  unfold unknown_peer. split.
  - destruct (match our_vip with Some v => _ | None => false end || negb (Api.online d)) eqn:E; [done|].
    apply orb_false_iff in E as [Ho Hn%negb_false_iff]. destruct (v4_number _) as [v|] eqn:Ev; [|done]. cbn.
    destruct (known !! v) eqn:Ek; [done|]. intros [= <-]. repeat split; try done.
    intros w ->. by apply bool_decide_eq_false in Ho.
  - intros (Hn & Hv & Hk & Ho). rewrite Hn, Hv. cbn. rewrite Hk.
    destruct our_vip as [w|]; [|done]. rewrite bool_decide_false; [done|by apply Ho].
Qed.

Section Answers.
Context (answer : forall R : Set, SessionCall R -> R).
Abbreviation http := (fun R c => answer R (of_http R c)) (only parsing).

Lemma run_query_peers pr socket vips m log :
  run_prog (logged answer) (query_peers pr socket vips m) log =
  ((m, Ok tt), log ++ map (fun v => existT _ (own (QueryPeer pr socket v))) vips).
Proof.
  revert log. induction vips as [|v vips IH]; intros log; cbn [query_peers]; [by rewrite app_nil_r|].
  rewrite run_sm_bind. cbn [run_prog perform call logged]. rewrite IH. by rewrite <- app_assoc.
Qed.

(** A round of the discovery asks the API for the devices of the network, and
    then the nucleus about each that is online, has an address that is not ours
    and is not known yet: in the order of the list, and about no other. *)
Theorem discovery_exact c network pr socket our_vip m :
  current_network_id (conn m) = Some network ->
  calls answer (discover_peers (Some c) pr socket our_vip) m =
    map (lift_call of_http) (calls http (Api.get_devices c network) tt) ++
    match returns http (Api.get_devices c network) tt with
    | Ok ds => map (fun v => existT _ (own (QueryPeer pr socket v))) (omap (unknown_peer our_vip (peer_states (shared m))) ds)
    | Err _ => []
    end.
Proof.
  intros Hn. unfold calls, returns, discover_peers. rewrite run_sm_bind. cbn [run_prog gets]. rewrite Hn.
  rewrite run_sm_bind. unfold tolerate. rewrite run_sm_bind, run_attempt. unfold web. rewrite log_zoom.
  destruct (run_prog _ (Api.get_devices c network tt) []) as [[[] r] l]. cbn [fst snd app].
  destruct r as [ds|e]; cbn [run_prog mret SM_ret].
  - rewrite run_sm_bind. cbn [run_prog gets]. by rewrite run_query_peers.
  - by rewrite app_nil_r.
Qed.

(** When a renewal changes the external port, the nucleus is told the address
    of the gateway with that port, not the external address the join told. *)
Theorem refresh_tells_gateway pr socket m h mp :
  port_mapper (shared m) = Some h -> answer _ (own (MapperRefresh h)) = Ok true ->
  answer _ (own (MapperCurrent h)) = Some mp -> answer _ (own (GetExternalPort pr)) <> Some (external_port mp) ->
  calls answer (refresh_mapping pr socket) m =
    [existT _ (own (GetExternalPort pr)); existT _ (own (MapperRefresh h)); existT _ (own (MapperCurrent h));
     existT _ (own (SetExternalPort pr (external_port mp)));
     existT _ (own (SetExternalAddr pr (gateway mp +:+ ":" +:+ show_uint (external_port mp))));
     existT _ (own (Register pr socket))] /\
  port_mapping (shared (run_prog (logged answer) (refresh_mapping pr socket m) []).1.1) = Some mp.
Proof.
  intros Hh Hr Hc Hp. unfold calls, refresh_mapping. rewrite run_sm_bind. cbn [run_prog gets]. rewrite Hh.
  rewrite run_sm_bind. cbn [run_prog perform call logged]. rewrite run_sm_bind. cbn [run_prog perform call logged].
  rewrite Hr. unfold adopt_mapping. rewrite !run_sm_bind. cbn [run_prog perform call logged]. rewrite Hc.
  rewrite run_sm_bind. cbn [run_prog modify mret SM_ret]. rewrite bool_decide_true by done.
  do 3 (rewrite run_sm_bind; cbn [run_prog perform call logged]). done.
Qed.
End Answers.

(** The wait for a browser ends with the first event that decides. *)
Lemma await_token_ends (sys : forall R : Set, SessionCall R -> list WsEvent -> R * list WsEvent) fuel idle e rest m :
  (forall e w, sys _ (own WsNext) (e :: w) = (e, w)) ->
  Forall (fun e => session_verdict e = None) idle -> (length idle < fuel)%nat ->
  forall v, session_verdict e = Some v ->
  (run_prog sys (await_token fuel m) (idle ++ e :: rest)).1.2 =
    match v with Ok t => Ok (Some t) | Err e => Err (Failed e) end.
Proof.
  intros Hnext Hidle. revert fuel. induction Hidle as [|x idle Hx _ IH]; intros fuel Hf v Hv;
    (destruct fuel as [|fuel]; [simpl in Hf; lia|]); cbn [await_token app]; rewrite run_sm_bind; cbn [run_prog perform call];
    rewrite Hnext; cbn [run_prog].
  - rewrite Hv. by destruct v.
  - rewrite Hx. apply IH; [simpl in Hf; lia|done].
Qed.
End Session.

(** A relay server given by name passes the validation and is not used: the
    relay is then the nucleus, or none. *)
Example named_relay_ignored net :
  Config.relay_server net = Some "relay.example.com:3478" ->
  relay_server_addr net "nucleus.example.com:51820" = None.
Proof. intros H. unfold relay_server_addr. rewrite H. by vm_compute. Qed.

Example relay_by_name_valid :
  Config.validate_network true {| Config.relay_enabled := true; Config.relay_server := Some "relay.example.com:3478";
    Config.portmap_enabled := true; Config.encrypt_signaling := true; Config.ipv6_enabled := true;
    Config.prefer_ipv6 := true; Config.ipv6_preference_threshold_ms := 5; Config.happy_eyeballs_delay_ms := 250;
    Config.mtu := 1420; Config.mtu_auto_detect := true; Config.wireguard_mode := Config.Auto |} = Ok tt.
Proof. by vm_compute. Qed.

(** *** A concrete manager *)
Module Demo.
#[local] Existing Instance Links.toy_endpoints.
#[local] Existing Instance Links.toy_disco.

Definition relay_new (key : list Z) (vip : Z) (addr : SocketAddr) : Dispatcher.RelayClient := tt.
Definition start : ConnectionManager := new "https://a" [1] [2] (Err "none").
Definition connect := connect_with_token relay_new (fun _ => "") true "t" "n" "d" "h" false false None None.


(** A renewal that moves the port from 1000 to 2000. *)
Definition moved : PortMapping := {| internal_port := 51820; external_port := 2000; gateway := "192.168.1.1" |}.
Definition answers (R : Set) (c : SessionCall R) : R :=
  match c with
  | inl (inl (inl c)) =>
      match c in OwnCall R return R with
      | MapperRefresh _ => Ok true | MapperCurrent _ => Some moved | GetExternalPort _ => Some 1000
      | SleepMs _ => tt | Hostname => Err "" | SocketNew => Err "" | SetOnlyV6 _ => Err "" | SetNonblocking _ => Err ""
      | BindV6 _ => Err "" | FromStd _ => Err "" | BindV4 _ => Err "" | LocalPort _ => Err "" | MapperNew _ => 0
      | MapperProbe _ => None | MapperRequest _ _ => Err "" | MapperRelease _ => Err "" | ProtoNew _ => Err ""
      | SetExternalPort _ _ => tt | SetExternalAddr _ _ => tt | SetIpv6 _ _ _ => tt | UpdateRelayEnabled _ _ => tt
      | UpdatePortmapEnabled _ _ => tt | Register _ _ => Ok tt | ProtoHeartbeat _ _ _ => Ok tt | QueryPeer _ _ _ => Ok tt
      | TunSetup _ => Err "" | TunStartLoop _ _ => Err "" | TunIsKernel _ => false | TunShutdown _ => tt | Spawn _ => tt
      | SendShutdown => tt | WaitTasks _ => tt | WsRequest _ => Err "" | WsConnect _ => None | WsNext => WsEnd
      end
  | inl (inl (inr c)) => match c in Api.HttpCall R return R with Api.Http _ => Err "offline" end
  | inl (inr c) => Config.Demo.env R c
  | inr c => match c in Routing.CmdCall R return R with Routing.Run _ _ => Err "no command" end
  end.
Definition mapped : ConnectionManager := put_mapping (Some 0) None start.

Lemma refresh_tells_gateway_witness :
  existT _ (own (SetExternalAddr 3 "192.168.1.1:2000")) ∈ calls answers (refresh_mapping 3 4) mapped.
Proof.
  rewrite (proj1 (refresh_tells_gateway answers 3 4 mapped 0 moved eq_refl eq_refl eq_refl ltac:(discriminate))).
  do 4 right. apply list_elem_of_here.
Defined.

Lemma discovery_exact_witness :
  calls answers (discover_peers (Some (Api.ApiClient_new "https://a" None)) 3 4 None)
    (put_network (Some "n") None None start) =
  map (lift_call of_http) (calls (fun R c => answers R (of_http R c)) (Api.get_devices (Api.ApiClient_new "https://a" None) "n") tt) ++ [].
Proof. rewrite (discovery_exact answers _ "n"); reflexivity. Defined.
End Demo.
