(* ===== verification/Service.v ===== *)
(** * The background service (omni-cli/src/service.rs and part of utils.rs)

    Whether the service runs, what it runs, and how it is installed, started
    and stopped: programs over the host, the sockets of the nucleus server
    (Nucleus.v), the manager (Session.v) and the configuration (Config.v).  The
    builds are those for linux and macos. *)

From Stdlib Require Import Ascii.
From S2P Require Import Prelude RustStr Net Paths Effects Nucleus.
From S2P Require Api Config Routing Peers Dispatcher Session.

Open Scope string_scope.
Open Scope list_scope.
Open Scope Z_scope.

(** ** The data *)

Inductive RunMode : Set := Edge | NucleusOnly | Dual.
Inductive TransportMode : Set := L3 | L2.
#[global] Instance RunMode_eq_dec : EqDecision RunMode.
Proof. solve_decision. Defined.

Record ServiceStatus : Set := {
  is_running : bool; virtual_ip : option string; virtual_ip_v6 : option string; network_id : option string;
  interface_name : option string; mode : option string; nucleus_port : option Z }.
Definition ServiceStatus_default : ServiceStatus := {|
  is_running := false; virtual_ip := None; virtual_ip_v6 := None; network_id := None; interface_name := None;
  mode := None; nucleus_port := None |}.

(** An interface as the host lists it. *)
Record NetworkInterface : Set := { if_name : string; if_addr : list IpAddr }.
Record InterfaceInfo : Set := { name : string; ip : string; ip_v6 : option string }.

(** [Bindable]: a UDP socket can be bound to the port, and is closed again.
    [NewIdentity]: the keys (public, private) of a private key or new ones. *)
Inductive HostCall : Set -> Set :=
| Bindable (port : Z) : HostCall bool
| Interfaces : HostCall (option (list NetworkInterface))
| CurrentExe : HostCall (result string string)
| SleepMs (ms : Z) : HostCall unit
| RemoveFile (path : string) : HostCall (result string unit)
| SpawnDaemon (exe : string) (args : list string) (rust_log : string) : HostCall (result string Z)
| BindNucleus (port : Z) : HostCall (result string unit)
| CtrlC : HostCall (result string unit)
| NewIdentity (private : option (list Z)) : HostCall (list Z * list Z)
| MachineId : HostCall (result string string)
| Hostname : HostCall (result string string)
| Username : HostCall string.

Definition ServiceCall (R : Set) : Set := (HostCall R + NucleusCall R + Session.SessionCall R)%type.
Definition host {R : Set} (c : HostCall R) : ServiceCall R := inl (inl c).
Definition of_nucleus (R : Set) (c : NucleusCall R) : ServiceCall R := inl (inr c).
Definition of_session (R : Set) (c : Session.SessionCall R) : ServiceCall R := inr c.
Definition of_conf (R : Set) (c : Config.ConfCall R) : ServiceCall R := of_session R (Session.of_conf R c).
Definition of_cmd (R : Set) (c : Routing.CmdCall R) : ServiceCall R := of_session R (Session.of_cmd R c).

(** A returned error ([Failed]) or the end by a panic. *)
Abbreviation VM := (SM ServiceCall unit Session.Fault) (only parsing).

Definition conf {A} (p : SM Config.ConfCall unit string A) : VM A :=
  zoom of_conf id (fun _ m => m) Session.Failed p.
Definition fail {A} (e : string) : VM A := throw (Session.Failed e).
(** [call()?]. *)
Definition try_host {A : Set} (c : HostCall (result string A)) : VM A :=
  r ← call (host c); match r with Ok a => mret a | Err e => fail e end.
(** The output of a command that could be started. *)
Definition output (name : string) (args : list string) : VM (result string Routing.Output) :=
  call (of_cmd _ (Routing.Run name args)).
(** [let _ = Command::new(..).output();]. *)
Definition run_ignored (name : string) (args : list string) : VM unit := _ ← output name args; mret tt.

(** [Ipv4Addr::is_loopback], [is_link_local]. *)
Definition is_loopback (z : Z) : bool := Z.shiftr z 24 =? 127.
Definition is_link_local (z : Z) : bool := Z.shiftr z 16 =? 43518.

Section Service.
Context `{Api.ApiJson, Config.ConfigCodec, Peers.EndpointSets, Dispatcher.Disco, NucleusLogic}.
Context (relay_client_new : list Z -> Z -> SocketAddr -> Dispatcher.RelayClient) (debug_args : list string -> string).
(** [hex::decode]; the build is for linux, or for macos. *)
Context (hex_decode : string -> option (list Z)) (linux : bool).

(** ** Status *)

Definition is_port_in_use (port : Z) : VM bool := free ← call (host (Bindable port)); mret (negb free).

(** The process itself is not left out. *)
Definition is_omniedge_daemon_running : VM bool :=
  r ← output "pgrep" ["-f"; "omniedge.*--daemon"];
  mret (match r with
        | Ok o => existsb (fun l => negb (bool_decide (l = ""))) (Config.lines (Routing.lossy (Routing.out o)))
        | Err _ => false
        end).

(** [omap] over the addresses: those of IPv4, those of IPv6 as text. *)
Definition v4_addrs (i : NetworkInterface) : list Z := omap (fun a => match a with V4 z => Some z | _ => None end) (if_addr i).
Definition v6_texts (i : NetworkInterface) : list string :=
  omap (fun a => match a with V6 z => Some (show_ipv6 z) | _ => None end) (if_addr i).

Definition find_ipv6 (expected : option string) (i : NetworkInterface) : option string :=
  match (e ← expected; List.find (fun s => bool_decide (s = e)) (v6_texts i)) with
  | Some s => Some s
  | None => List.find (fun s => negb (starts_with s "fe80:")) (v6_texts i)
  end.

(** The first address of an interface that qualifies. *)
Definition interface_with (ok : Z -> bool) (expected_v6 : option string) (i : NetworkInterface) : option InterfaceInfo :=
  (fun z => {| name := if_name i; ip := show_ipv4 z; ip_v6 := find_ipv6 expected_v6 i |}) <$> List.find ok (v4_addrs i).
Fixpoint first_interface (f : NetworkInterface -> option InterfaceInfo) (l : list NetworkInterface) : option InterfaceInfo :=
  match l with
  | [] => None
  | i :: l => match f i with Some x => Some x | None => first_interface f l end
  end.

Definition is_omniedge (i : NetworkInterface) : bool :=
  let name_lower := to_lowercase (if_name i) in contains name_lower "omniedge0" || contains name_lower "omniedge".

Definition get_omniedge_interface : VM (option InterfaceInfo) :=
  listed ← call (host Interfaces);
  match listed with
  | None => mret None
  | Some interfaces =>
      config ← attempt (conf Config.load);
      let join_info := match config with Ok c => Config.last_join_info c | Err _ => None end in
      let expected_vip := Api.virtual_ip <$> join_info in
      let expected_vip_v6 := join_info ≫= Api.virtual_ip_v6 in
      let by_vip := expected_vip ≫= fun vip =>
        first_interface (interface_with (fun z => bool_decide (show_ipv4 z = vip)) expected_vip_v6) interfaces in
      mret (match by_vip with
            | Some x => Some x
            | None =>
                if linux then
                  first_interface (fun i => if is_omniedge i
                    then interface_with (fun z => negb (is_loopback z) && negb (is_link_local z)) expected_vip_v6 i
                    else None) interfaces
                else None
            end)
  end.

Definition running_on (i : InterfaceInfo) (m : string) (port : option Z) : ServiceStatus := {|
  is_running := true; virtual_ip := Some (ip i); virtual_ip_v6 := ip_v6 i; network_id := None;
  interface_name := Some (name i); mode := Some m; nucleus_port := port |}.
Definition nucleus_on (port : Z) : ServiceStatus := {|
  is_running := true; virtual_ip := None; virtual_ip_v6 := None; network_id := None; interface_name := None;
  mode := Some "nucleus"; nucleus_port := Some port |}.

Definition get_service_status (last_mode : option string) (port : option Z) : VM ServiceStatus :=
  daemon_running ← is_omniedge_daemon_running;
  if bool_decide (last_mode = Some "nucleus") then
    match port with
    | Some p =>
        if daemon_running : bool then
          used ← is_port_in_use p;
          mret (if used : bool then nucleus_on p else ServiceStatus_default)
        else mret ServiceStatus_default
    | None => mret ServiceStatus_default
    end
  else if negb daemon_running then mret ServiceStatus_default
  else
    info ← get_omniedge_interface;
    match info with
    | None => mret ServiceStatus_default
    | Some i =>
        if bool_decide (last_mode = Some "dual") then
          used ← match port with Some p => is_port_in_use p | None => mret false end;
          mret (running_on i "dual" (if used : bool then port else None))
        else mret (running_on i "edge" None)
    end.

(** ** The workers *)

(** [None]: the fuel is spent. *)
Definition run_nucleus_only (fuel : nat) (port : Z) (secret : string) : VM (option unit) :=
  let secret := if bool_decide (secret = "") then None else Some secret in
  _ ← try_host (BindNucleus port);
  ended ← zoom of_nucleus (fun _ => new_state) (fun _ s => s) (fun _ : unit => Session.Failed "")
            (serve Datatypes.id secret fuel);
  mret (if ended : bool then Some tt else None).

(** The id of the machine (ASCII), as a UUID if it begins with one in
    hexadecimal. *)
Definition show_uuid (hex : string) : string :=
  let part a n := take_str n (drop_str a hex) in
  part 0%nat 8%nat +:+ "-" +:+ part 8%nat 4%nat +:+ "-" +:+ part 12%nat 4%nat +:+ "-" +:+ part 16%nat 4%nat +:+ "-" +:+
  part 20%nat 12%nat.
Definition get_hardware_id : VM string :=
  id ← call (host MachineId);
  match id with
  | Ok id =>
      let uuid := if (32 <=? String.length id)%nat
                  then b ← hex_decode (take_str 32 id); if (length b =? 16)%nat then Some b else None
                  else None in
      mret (match uuid with
            | Some b => show_uuid (Dispatcher.hex_encode b)
            | None => take_str (Nat.min (String.length id) 36) id
            end)
  | Err _ =>
      hostname ← call (host Hostname);
      username ← call (host Username);
      mret (match hostname with Ok h => h | Err _ => "unknown" end +:+ "-" +:+ username)
  end.

(** The identity of the configuration: 32 bytes in hexadecimal. *)
Definition identity_of (c : Config.CliConfig) : option (list Z) :=
  k ← Config.identity_private_key c; b ← hex_decode k; if (length b =? 32)%nat then Some b else None.

(** [ConnectionManager::new]. *)
Definition new_manager (base_url : string) (private : option (list Z)) : VM Session.ConnectionManager :=
  keys ← call (host (NewIdentity private));
  loaded ← attempt (conf Config.load);
  mret (Session.new base_url keys.1 keys.2 (match loaded with Ok c => Ok c | Err _ => Err "" end)).
(** An operation of a manager: the manager after it, and its outcome. *)
Definition on_manager {A} (m : Session.ConnectionManager)
    (p : SM Session.SessionCall Session.ConnectionManager Session.Fault A) :
    VM (Session.ConnectionManager * result Session.Fault A) :=
  fun s => prog_bind (embed of_session (p m)) (fun mr => Ret (s, Ok mr)).

Definition with_join (network : string) (resp : Api.JoinVirtualNetworkResponse) (c : Config.CliConfig) : Config.CliConfig := {|
  Config.auth_file_default_path := Config.auth_file_default_path c;
  Config.scan_result_default_path := Config.scan_result_default_path c;
  Config.auth_response := Config.auth_response c; Config.token_obtained_at := Config.token_obtained_at c;
  Config.device_uuid := Config.device_uuid c; Config.device_name := Config.device_name c;
  Config.last_join_info := Some resp; Config.last_network_id := Some network; Config.scan_ip := Config.scan_ip c;
  Config.scan_mac := Config.scan_mac c; Config.scan_mask := Config.scan_mask c;
  Config.scan_results := Config.scan_results c; Config.identity_private_key := Config.identity_private_key c;
  Config.is_exit_node := Config.is_exit_node c; Config.exit_node_ip := Config.exit_node_ip c;
  Config.exit_node_ip_v6 := Config.exit_node_ip_v6 c; Config.last_run_mode := Config.last_run_mode c;
  Config.nucleus_port := Config.nucleus_port c; Config.has_cluster_secret := Config.has_cluster_secret c;
  Config.network_config := Config.network_config c; Config.ssh_config := Config.ssh_config c |}.

(** What the next [status] reads; failing to write it is only logged. *)
Definition save_join (network : string) (resp : Api.JoinVirtualNetworkResponse) : VM unit :=
  loaded ← attempt (conf Config.load);
  let config := match loaded with Ok c => c | Err _ => Config.CliConfig_default end in
  _ ← attempt (conf (Config.save (with_join network resp config)));
  mret tt.

(** The transport mode is only logged, the secret not used. *)
Definition run_worker (base_url network : string) (run_mode : RunMode) (as_exit_node : bool)
    (exit_node exit_node_v6 : option string) (port : Z) : VM unit :=
  loaded ← attempt (conf Config.load);
  config ← match loaded with Ok c => mret c | Err _ => fail "Failed to load config" end;
  auth ← or_throw (Session.Failed "Not authenticated") (Config.auth_response config);
  device ← or_throw (Session.Failed "Device not registered") (Config.device_uuid config);
  manager ← new_manager base_url (identity_of config);
  let is_nucleus := bool_decide (run_mode = Dual) in
  configured ← (if is_nucleus then on_manager manager (Session.set_nucleus_config port None) else mret (manager, Ok tt));
  hardware ← attempt get_hardware_id;
  joined ← on_manager configured.1
    (Session.connect_with_token relay_client_new debug_args linux (Api.token auth) network device
       (match hardware with Ok h => h | Err _ => "unknown" end) is_nucleus as_exit_node exit_node exit_node_v6);
  resp ← lift joined.2;
  _ ← save_join network resp;
  _ ← try_host CtrlC;
  left ← on_manager joined.1 (Session.disconnect debug_args linux);
  lift left.2.

(** ** Installing and starting *)

(** An older daemon is stopped first. *)
Definition kill_daemons : VM unit := run_ignored "pkill" ["-f"; "omniedge.*--daemon"].
Definition stop_running : VM unit :=
  running ← is_omniedge_daemon_running;
  if running : bool then _ ← kill_daemons; call (host (SleepMs 500)) else mret tt.

Definition nl : string := String "010" "".
Definition text_lines (ls : list string) : string := fold_right (fun l s => l +:+ nl +:+ s) "" ls.

Definition mode_str (m : RunMode) : string := match m with Edge => "edge" | NucleusOnly => "nucleus" | Dual => "dual" end.
Definition transport_str (t : TransportMode) : string := match t with L3 => "l3" | L2 => "l2" end.

Definition secret_flag (secret : string) : string := if bool_decide (secret = "") then "" else "--secret " +:+ secret.

Definition write_file (path content : string) : VM unit := conf (r ← call (Config.WriteFile path content); lift r).
Definition UNIT_TMP : string := "/tmp/omniedge.service".
Definition UNIT : string := "/etc/systemd/system/omniedge.service".

(** The unit is written for all to see, copied and started; what becomes of it
    is not looked at. *)
Definition install_unit (content : string) : VM unit :=
  _ ← write_file UNIT_TMP content;
  _ ← run_ignored "sudo" ["cp"; UNIT_TMP; UNIT];
  _ ← run_ignored "sudo" ["systemctl"; "daemon-reload"];
  _ ← run_ignored "sudo" ["systemctl"; "enable"; "omniedge"];
  run_ignored "sudo" ["systemctl"; "start"; "omniedge"].

Definition unit_text (description exec env_lines : string) : string :=
  text_lines ["[Unit]"; "Description=" +:+ description; "After=network.target"; ""; "[Service]"; "ExecStart=" +:+ exec;
              env_lines; "Restart=always"; "RestartSec=5"; ""; "[Install]"; "WantedBy=multi-user.target"].

Definition nucleus_exec (exe : string) (port : Z) (secret : string) : string :=
  exe +:+ " start --mode nucleus --port " +:+ show_uint port +:+ " " +:+ secret_flag secret +:+ " --daemon".

Definition setup_linux_nucleus_service (port : Z) (secret : string) : VM unit :=
  _ ← stop_running;
  exe ← try_host CurrentExe;
  home ← conf Config.get_real_user_home;
  let env_line := match home with Some h => "Environment=HOME=" +:+ h | None => "" end in
  install_unit (unit_text "OmniEdge Nucleus Signaling Server" (nucleus_exec exe port secret) env_line).

(** What the daemon is to do. *)
Record DaemonSpec : Set := {
  d_network : string; d_mode : RunMode; d_transport : TransportMode; d_exit : bool; d_exit_node : option string;
  d_exit_node_v6 : option string; d_port : Z; d_secret : option string; d_verbose : bool }.

(** The text of the unit: flags that are not given leave a blank. *)
Definition exec_start (exe : string) (d : DaemonSpec) : string :=
  let verbose_flag := if d_verbose d then "-v" else "" in
  let as_exit_flag := if d_exit d then "--as-exit-node" else "" in
  let exit_node_flag := match d_exit_node d with Some ip => "--exit-node " +:+ ip | None => "" end in
  let exit_node_v6_flag := match d_exit_node_v6 d with Some ip => "--exit-node-v6 " +:+ ip | None => "" end in
  let nucleus_flags :=
    match d_mode d with
    | Dual => "--port " +:+ show_uint (d_port d) +:+ " " +:+ match d_secret d with Some s => "--secret " +:+ s | None => "" end
    | _ => ""
    end in
  exe +:+ " start " +:+ verbose_flag +:+ " -n " +:+ d_network d +:+ " --mode " +:+ mode_str (d_mode d) +:+
  " --transport-mode " +:+ transport_str (d_transport d) +:+ " " +:+ nucleus_flags +:+ " " +:+ as_exit_flag +:+ " " +:+
  exit_node_flag +:+ " " +:+ exit_node_v6_flag +:+ " --daemon".

(** The arguments where the program itself starts the daemon. *)
Definition daemon_args (d : DaemonSpec) : list string :=
  ["start"] ++ (if d_verbose d then ["-v"] else []) ++
  ["-n"; d_network d; "--mode"; mode_str (d_mode d); "--transport-mode"; transport_str (d_transport d)] ++
  (match d_mode d with
   | Dual => ["--port"; show_uint (d_port d)] ++ match d_secret d with Some s => ["--secret"; s] | None => [] end
   | _ => []
   end) ++
  (if d_exit d then ["--as-exit-node"] else []) ++
  (match d_exit_node d with Some ip => ["--exit-node"; ip] | None => [] end) ++
  (match d_exit_node_v6 d with Some ip => ["--exit-node-v6"; ip] | None => [] end) ++ ["--daemon"].

Definition start_daemon (exe : string) (d : DaemonSpec) (rust_log : string) : VM unit :=
  child ← call (host (SpawnDaemon exe (daemon_args d) rust_log));
  match child with
  | Ok _ => call (host (SleepMs 500))
  | Err e => fail ("Failed to start daemon process: " +:+ e)
  end.

Definition setup_linux_service (d : DaemonSpec) : VM unit :=
  _ ← stop_running;
  exe ← try_host CurrentExe;
  version ← output "systemctl" ["--version"];
  let systemd_available := match version with Ok o => Routing.succeeded o | Err _ => false end in
  if systemd_available then
    home ← conf Config.get_real_user_home;
    let env_lines := match home with Some h => "Environment=HOME=" +:+ h +:+ nl | None => "" end +:+ "Environment=RUST_LOG=info" in
    install_unit (unit_text "OmniEdge Service" (exec_start exe d) env_lines)
  else
    rust_log ← conf (call (Config.EnvVar "RUST_LOG"));
    start_daemon exe d (default (if d_verbose d then "debug" else "info,omninervous=debug") rust_log).

Definition setup_macos_service (d : DaemonSpec) : VM unit :=
  _ ← stop_running;
  exe ← try_host CurrentExe;
  start_daemon exe d "info".

(** *** launchd *)

Definition PLIST : string := "/Library/LaunchDaemons/io.omniedge.daemon.plist".
Definition PLIST_TMP : string := "/tmp/io.omniedge.daemon.plist".
(** The quote. *)
Definition q : string := String "034" "". 
Definition plist_string (s : string) : string := "<string>" +:+ s +:+ "</string>".
(** [join]: the arguments are one to a line. *)
Fixpoint join_lines (sep : string) (ls : list string) : string :=
  match ls with
  | [] => ""
  | [l] => l
  | l :: ls => l +:+ sep +:+ join_lines sep ls
  end.
Definition plist_text (program_args : list string) (home : string) : string :=
  text_lines ["<?xml version=" +:+ q +:+ "1.0" +:+ q +:+ " encoding=" +:+ q +:+ "UTF-8" +:+ q +:+ "?>";
    "<!DOCTYPE plist PUBLIC " +:+ q +:+ "-//Apple//DTD PLIST 1.0//EN" +:+ q +:+ " " +:+ q +:+
      "http://www.apple.com/DTDs/PropertyList-1.0.dtd" +:+ q +:+ ">";
    "<plist version=" +:+ q +:+ "1.0" +:+ q +:+ ">"; "<dict>"; "    <key>Label</key>";
    "    <string>io.omniedge.daemon</string>"; "    <key>ProgramArguments</key>"; "    <array>";
    "        " +:+ join_lines (nl +:+ "        ") program_args; "    </array>"; "    <key>RunAtLoad</key>"; "    <false/>";
    "    <key>KeepAlive</key>"; "    <true/>"; "    <key>StandardOutPath</key>";
    "    <string>/var/log/omniedge.log</string>"; "    <key>StandardErrorPath</key>";
    "    <string>/var/log/omniedge.error.log</string>"; "    <key>EnvironmentVariables</key>"; "    <dict>";
    "        <key>HOME</key>"; "        <string>" +:+ home +:+ "</string>"; "    </dict>"; "</dict>"; "</plist>"].
Definition nucleus_args (port : Z) (secret : string) : list string :=
  ["start"; "--mode"; "nucleus"; "--port"; show_uint port] ++
  (if bool_decide (secret = "") then [] else ["--secret"; secret]) ++ ["--daemon"].

(** A command that must be started and succeed. *)
Definition required (args : list string) (failed : string) : VM unit :=
  r ← output "sudo" args;
  match r with
  | Err e => fail e
  | Ok o => if Routing.succeeded o then mret tt else fail (failed +:+ Routing.lossy (Routing.err o))
  end.

Definition setup_macos_nucleus_service (port : Z) (secret : string) : VM unit :=
  _ ← stop_running;
  exe ← try_host CurrentExe;
  real ← conf Config.get_real_user_home;
  home ← match real with
         | Some h => mret h
         | None => h ← conf (call Config.HomeDir); or_throw (Session.Failed "Failed to get home directory") h
         end;
  _ ← write_file PLIST_TMP (plist_text (map plist_string (exe :: nucleus_args port secret)) home);
  _ ← run_ignored "sudo" ["launchctl"; "unload"; PLIST];
  _ ← required ["cp"; PLIST_TMP; PLIST] "Failed to install service (sudo required): ";
  _ ← run_ignored "sudo" ["chown"; "root:wheel"; PLIST];
  _ ← required ["launchctl"; "load"; PLIST] "Failed to load launchd service: ";
  _ ← call (host (RemoveFile PLIST_TMP));
  mret tt.

Definition setup_and_start_nucleus_service (port : Z) (secret : string) : VM unit :=
  if linux then setup_linux_nucleus_service port secret else setup_macos_nucleus_service port secret.
Definition setup_and_start_service (d : DaemonSpec) : VM unit :=
  if linux then setup_linux_service d else setup_macos_service d.

(** ** Stopping *)

Definition stop_linux : VM unit :=
  _ ← run_ignored "systemctl" ["stop"; "omniedge"];
  _ ← run_ignored "systemctl" ["disable"; "omniedge"];
  kill_daemons.
Definition stop_macos : VM unit :=
  _ ← run_ignored "launchctl" ["unload"; PLIST];
  _ ← run_ignored "rm" ["-f"; PLIST];
  home ← conf (call Config.HomeDir);
  _ ← match home with
      | Some h =>
          let agent_plist := path_join h "Library/LaunchAgents/io.omniedge.cli.plist" in
          _ ← run_ignored "launchctl" ["unload"; agent_plist];
          _ ← call (host (RemoveFile agent_plist));
          mret tt
      | None => mret tt
      end;
  kill_daemons.

Definition stop_and_cleanup_service (base_url : string) : VM unit :=
  _ ← (if linux then stop_linux else stop_macos);
  _ ← call (host (SleepMs 500));
  loaded ← attempt (conf Config.load);
  let config := match loaded with Ok c => c | Err _ => Config.CliConfig_default end in
  manager ← new_manager base_url (identity_of config);
  cleaned ← on_manager manager (Session.cleanup_adapters linux);
  lift cleaned.2.
End Service.

(** ** The unit runs the daemon *)

(** [p], followed by a blank, is the words [ws]. *)
Definition reads (p : string) (ws : list string) : Prop :=
  forall t, split_whitespace (p +:+ String " " t) = ws ++ split_whitespace t.

Lemma reads_empty : reads "" [].
Proof. done. Qed.
Lemma reads_word w : dark w = true -> w <> "" -> reads w [w].
Proof.
  intros Hd Hne t. unfold split_whitespace. rewrite words_dark, append_nil_l, words_space by done.
  unfold flush_word. by rewrite bool_decide_false.
Qed.
Lemma reads_app p ws p' ws' : reads p ws -> reads p' ws' -> reads (p +:+ " " +:+ p') (ws ++ ws').
Proof.
  intros Hp Hp' t. rewrite !append_assoc, append_cons, append_nil_l. by rewrite Hp, Hp', app_assoc.
Qed.
(** Pieces with blanks between them, the last one a word. *)
Lemma words_of_pieces ps wss w :
  Forall2 reads ps wss -> dark w = true -> w <> "" ->
  split_whitespace (join " " (ps ++ [w])) = concat (wss ++ [[w]]).
Proof.
  intros Hps Hd Hne. induction Hps as [|p ws ps wss Hp _ IH]; [by apply (split_whitespace_join [w]); repeat constructor|].
  cbn [app concat]. rewrite <- IH. rewrite <- Hp. f_equal. by destruct ps.
Qed.

(** Text a shell or systemd would take as one word. *)
Definition plain_word (w : string) : Prop := dark w = true /\ w <> "".
Definition plain_option (o : option string) : Prop := match o with Some w => plain_word w | None => True end.

Lemma dark_pretty_go n s : dark s = true -> dark (pretty_N_go n s) = true.
Proof.
  revert s. induction (N.lt_wf_0 n) as [n _ IH]. intros s Hs. destruct (N.lt_decidable 0 n) as [Hn|Hn].
  - rewrite pretty_N_go_step by done. apply IH; [apply N.div_lt; lia|]. cbn [dark]. rewrite Hs, andb_true_r.
    assert (n `mod` 10 < 10)%N as Hm by (apply N.mod_lt; lia). revert Hm. generalize (n `mod` 10)%N. intros d Hd.
    assert (d = 0 \/ d = 1 \/ d = 2 \/ d = 3 \/ d = 4 \/ d = 5 \/ d = 6 \/ d = 7 \/ d = 8 \/ d = 9)%N as Hd' by lia.
    by repeat (destruct Hd' as [->|Hd']; [done|]); subst.
  - assert (n = 0%N) as -> by lia. by rewrite pretty_N_go_0.
Qed.
Lemma plain_show_uint n : plain_word (show_uint n).
Proof.
  split; [|apply pretty_N_not_nil]. unfold show_uint, pretty, pretty_N. case_decide; [done|]. by apply dark_pretty_go.
Qed.

Lemma reads_plain w : plain_word w -> reads w [w].
Proof. intros [??]. by apply reads_word. Qed.
Lemma reads_flag f w : plain_word f -> plain_word w -> reads (f +:+ " " +:+ w) [f; w].
Proof. intros Hf Hw. apply (reads_app f [f] w [w]); by apply reads_plain. Qed.

Definition option_flag (f : string) (o : option string) : string := match o with Some w => f +:+ " " +:+ w | None => "" end.
Lemma reads_option f o :
  plain_word f -> plain_option o ->
  reads (option_flag f o) (match o with Some w => [f; w] | None => [] end).
Proof. intros Hf Ho. destruct o as [w|]; [by apply reads_flag|apply reads_empty]. Qed.

(** Every word of what the daemon is to do is plain. *)
Definition plain_spec (d : DaemonSpec) : Prop :=
  plain_word (d_network d) /\ plain_option (d_exit_node d) /\ plain_option (d_exit_node_v6 d) /\ plain_option (d_secret d).

Lemma reads_nucleus d :
  plain_option (d_secret d) ->
  reads match d_mode d with
        | Dual => "--port " +:+ show_uint (d_port d) +:+ " " +:+ option_flag "--secret" (d_secret d)
        | _ => ""
        end
        match d_mode d with
        | Dual => ["--port"; show_uint (d_port d)] ++ match d_secret d with Some s => ["--secret"; s] | None => [] end
        | _ => []
        end.
Proof.
  intros Hs. destruct (d_mode d); [apply reads_empty..|].
  apply (reads_app "--port" ["--port"]); [by apply reads_word|].
  apply (reads_app (show_uint (d_port d)) [show_uint (d_port d)]); [apply reads_plain, plain_show_uint|by apply reads_option].
Qed.


Lemma nucleus_unit_runs_the_daemon exe port secret :
  plain_word exe -> secret = "" \/ plain_word secret ->
  split_whitespace (nucleus_exec exe port secret) = exe :: nucleus_args port secret.
Proof.
  intros Hexe Hs. pose proof (fun w H => reads_plain w H) as W.
  assert (reads (secret_flag secret) (if bool_decide (secret = "") then [] else ["--secret"; secret])) as Hf.
  { unfold secret_flag. case_bool_decide; [apply reads_empty|]. destruct Hs as [?|Hs]; [done|]. by apply (reads_flag "--secret"). }
  refine (words_of_pieces _ _ "--daemon"
    (List.Forall2_cons _ _ (W exe Hexe) (List.Forall2_cons _ _ (W "start" _) (List.Forall2_cons _ _ (W "--mode" _)
    (List.Forall2_cons _ _ (W "nucleus" _) (List.Forall2_cons _ _ (W "--port" _)
    (List.Forall2_cons _ _ (W _ (plain_show_uint port)) (List.Forall2_cons _ _ Hf (List.Forall2_nil reads)))))))) _ _); done.
Qed.

(** A value with a blank adds arguments, one with a line end adds directives of
    systemd: the secret is checked nowhere. *)
Example secret_adds_directives :
  let d := {| d_network := "net"; d_mode := Dual; d_transport := L3; d_exit := false; d_exit_node := None;
              d_exit_node_v6 := None; d_port := 51820;
              d_secret := Some ("x" +:+ nl +:+ "ExecStartPre=/bin/sh -c id #"); d_verbose := false |} in
  In "ExecStartPre=/bin/sh -c id #    --daemon" (Config.lines (unit_text "OmniEdge Service" (exec_start "/bin/omniedge" d) "")).
Proof. vm_compute. tauto. Qed.

(** ** Status *)

Section StatusTheorems.
Context `{Config.ConfigCodec} (linux : bool) (answer : forall R : Set, ServiceCall R -> R).
Abbreviation known m Q := (hoare (fun _ _ => True) (fun R c r => r = answer R c) m tt Q) (only parsing).

Lemma known_conf {A} (p : SM Config.ConfCall unit string A) (Q : unit -> result Session.Fault A -> Prop) :
  (forall r, Q tt r) -> known (conf p) Q.
Proof.
  intros HQ. eapply (hoare_zoom of_conf id (fun _ m => m) Session.Failed (fun _ _ => True) (fun _ _ _ => True) _ _ p tt (fun _ _ => True));
    [done|done|apply hoare_any|]. intros s r _. apply HQ.
Qed.

(** The daemon of whom pgrep speaks. *)
Definition daemon_seen : bool :=
  match answer _ (of_cmd _ (Routing.Run "pgrep" ["-f"; "omniedge.*--daemon"])) with
  | Ok o => existsb (fun l => negb (bool_decide (l = ""))) (Config.lines (Routing.lossy (Routing.out o)))
  | Err _ => false
  end.

Lemma first_interface_some f l x : first_interface f l = Some x -> exists i, i ∈ l /\ f i = Some x.
Proof.
  induction l as [|i l IH]; [done|]. cbn [first_interface]. destruct (f i) as [y|] eqn:E.
  - intros [= ->]. exists i. split; [left|done].
  - intros Hx. destruct (IH Hx) as (j & Hj & Hf). exists j. split; [by right|done].
Qed.
Lemma interface_with_some ok e i x :
  interface_with ok e i = Some x ->
  exists z, V4 z ∈ if_addr i /\ ok z = true /\ name x = if_name i /\ ip x = show_ipv4 z /\ ip_v6 x = find_ipv6 e i.
Proof.
  unfold interface_with. destruct (List.find ok (v4_addrs i)) as [z|] eqn:E; [|done]. intros [= <-].
  apply List.find_some in E as [Hin Hok]. exists z. split_and!; try done.
  apply list_elem_of_In, list_elem_of_omap in Hin as (a & Ha & Hz). destruct a; [|done]. by injection Hz as ->.
Qed.
Lemma find_ipv6_listed e i s : find_ipv6 e i = Some s -> exists z, V6 z ∈ if_addr i /\ s = show_ipv6 z.
Proof.
  assert (Hf : forall p, List.find p (v6_texts i) = Some s -> exists z, V6 z ∈ if_addr i /\ s = show_ipv6 z).
  { intros p Hp. apply List.find_some in Hp as [Hin _]. apply list_elem_of_In, list_elem_of_omap in Hin as (a & Ha & Hz).
    destruct a as [|z]; [done|]. injection Hz as <-. by exists z. }
  unfold find_ipv6. destruct (e ≫= _) eqn:E.
  - intros [= ->]. destruct e as [x|]; [|done]. by apply (Hf _ E).
  - apply Hf.
Qed.

(** The addresses are those of a listed interface: one with the address of the
    last join, or, on linux, one that is called omniedge. *)
Definition shown (l : list NetworkInterface) (x : InterfaceInfo) : Prop :=
  exists i z, i ∈ l /\ name x = if_name i /\ V4 z ∈ if_addr i /\ ip x = show_ipv4 z /\
    (forall s, ip_v6 x = Some s -> exists z6, V6 z6 ∈ if_addr i /\ s = show_ipv6 z6) /\
    ((exists c j, Config.last_join_info c = Some j /\ ip x = Api.virtual_ip j) \/
     linux = true /\ is_omniedge i = true /\ is_loopback z = false /\ is_link_local z = false).

Lemma interface_shown (Q : unit -> result Session.Fault (option InterfaceInfo) -> Prop) :
  Q tt (Ok None) ->
  (forall l x, answer _ (host Interfaces) = Some l -> shown l x -> Q tt (Ok (Some x))) ->
  known (get_omniedge_interface linux) Q.
Proof.
  intros Hn Hs. unfold get_omniedge_interface. sm_step. sm_step; [done|]. subst. cbv beta iota.
  destruct (answer _ (host Interfaces)) as [l|] eqn:El; [|by apply hoare_ret]. specialize (Hs l).
  sm_step. apply hoare_attempt, known_conf. intros loaded. cbv beta iota zeta. apply hoare_ret.
  set (ji := match loaded with Ok c => Config.last_join_info c | Err _ => None end).
  destruct (_ ≫= _) as [x|] eqn:Ex.
  - apply Hs; [done|]. destruct ji as [j|] eqn:Ej; [|done]. cbn in Ex.
    apply first_interface_some in Ex as (i & Hi & Hf). apply interface_with_some in Hf as (z & Hz & Hok & Hname & Hip & H6).
    apply bool_decide_eq_true in Hok. exists i, z. split_and!; try done.
    + intros s. rewrite H6. apply find_ipv6_listed.
    + left. destruct loaded as [c|]; [|done]. exists c, j. split; [done|]. by rewrite Hip.
  - destruct linux eqn:Elx; [|done]. destruct (first_interface _ l) as [x|] eqn:Ef; [|done]. apply Hs; [done|].
    apply first_interface_some in Ef as (i & Hi & Hf). destruct (is_omniedge i) eqn:Eo; [|done].
    apply interface_with_some in Hf as (z & Hz & Hok & Hname & Hip & H6).
    apply andb_true_iff in Hok as [H1%negb_true_iff H2%negb_true_iff]. exists i, z. split_and!; try done.
    + intros s. rewrite H6. apply find_ipv6_listed.
    + right. by split_and!.
Qed.

Lemma known_port p (Q : unit -> result Session.Fault bool -> Prop) :
  Q tt (Ok (negb (answer _ (host (Bindable p))))) -> known (is_port_in_use p) Q.
Proof. intros HQ. unfold is_port_in_use. sm_step. sm_step; [done|]. subst. by apply hoare_ret. Qed.

Lemma known_daemon (Q : unit -> result Session.Fault bool -> Prop) : Q tt (Ok daemon_seen) -> known is_omniedge_daemon_running Q.
Proof. intros HQ. unfold is_omniedge_daemon_running, output. sm_step. sm_step; [done|]. subst. by apply hoare_ret. Qed.

(** What a status that says the service runs goes by. *)
Definition backed (last_mode : option string) (port : option Z) (st : ServiceStatus) : Prop :=
  daemon_seen = true /\
  if bool_decide (last_mode = Some "nucleus")
  then exists p, port = Some p /\ answer _ (host (Bindable p)) = false /\ st = nucleus_on p
  else exists l x u, answer _ (host Interfaces) = Some l /\ shown l x /\
         st = running_on x (if bool_decide (last_mode = Some "dual") then "dual" else "edge") u /\
         (forall p, u = Some p -> port = Some p /\ answer _ (host (Bindable p)) = false).

(** The status says that the service runs only if pgrep finds a daemon and, for a
    nucleus, its port is taken, else an interface with the address of the last join (or
    the name of ours) is listed; it then shows that interface.  A status that says
    otherwise shows nothing. *)
Theorem status_sound last_mode port :
  known (get_service_status linux last_mode port) (fun _ r => exists st, r = Ok st /\
    (st = ServiceStatus_default \/ is_running st = true /\ backed last_mode port st)).
Proof.
  assert (Hoff : forall Q : ServiceStatus -> Prop, Q ServiceStatus_default ->
    known (mret ServiceStatus_default) (fun _ (r : result Session.Fault _) => exists st, r = Ok st /\ Q st)) by (intros Q HQ; apply hoare_ret; by eexists).
  unfold get_service_status, backed. sm_step. apply known_daemon. cbv beta iota. case_bool_decide as Hm.
  - destruct port as [p|]; [|apply Hoff; by left]. destruct daemon_seen eqn:Ed; [|apply Hoff; by left].
    sm_step. apply known_port. cbv beta iota. destruct (answer _ (host (Bindable p))) eqn:Ep; [apply Hoff; by left|].
    sm_step. eexists. split; [done|]. right. do 2 (split; [done|]). by exists p.
  - destruct daemon_seen eqn:Ed; [|apply Hoff; by left]. cbn [negb]. sm_step.
    apply interface_shown; [apply Hoff; by left|]. intros l x Hl Hx. cbv beta iota. case_bool_decide as Hd.
    + destruct port as [p|].
      * sm_step. apply known_port. cbv beta iota. sm_step. eexists. split; [done|]. right. do 2 (split; [done|]).
        eexists l, x, _. do 3 (split; [done|]). destruct (answer _ (host (Bindable p))) eqn:Ep; intros p' [= <-]. done.
      * sm_step. sm_step. eexists. split; [done|]. right. do 2 (split; [done|]). by exists l, x, None.
    + sm_step. eexists. split; [done|]. right. do 2 (split; [done|]). by exists l, x, None.
Qed.
End StatusTheorems.

(** ** Installing *)

Section InstallTheorems.
Context (answer : forall R : Set, ServiceCall R -> R).

(** The commands that installing runs, none of which has a part of the input. *)
Definition setup_commands : list (string * list string) :=
  [("pgrep", ["-f"; "omniedge.*--daemon"]); ("pkill", ["-f"; "omniedge.*--daemon"]); ("systemctl", ["--version"]);
   ("sudo", ["cp"; UNIT_TMP; UNIT]); ("sudo", ["systemctl"; "daemon-reload"]); ("sudo", ["systemctl"; "enable"; "omniedge"]);
   ("sudo", ["systemctl"; "start"; "omniedge"])].

(** Asking for the home of the user behind sudo. *)
Definition home_call (R : Set) (c : Config.ConfCall R) : Prop :=
  match c with
  | Config.EnvVar _ | Config.Exists _ => True
  | Config.Command n _ => n = "sh"
  | _ => False
  end.
(** The one file is the unit, and it runs [exe] as [d] says. *)
Definition installs (exe : string) (d : DaemonSpec) (R : Set) (c : ServiceCall R) : Prop :=
  match c with
  | inl (inl (SleepMs _)) | inl (inl CurrentExe) => True
  | inr (inr (Routing.Run n args)) => (n, args) ∈ setup_commands
  | inr (inl (inr (Config.WriteFile path content))) =>
      path = UNIT_TMP /\ exists env, content = unit_text "OmniEdge Service" (exec_start exe d) env
  | inr (inl (inr c)) => home_call R c
  | _ => False
  end.

Lemma home_found L s :
  hoare home_call L Config.get_real_user_home s (fun _ r => exists h, r = Ok h).
Proof.
  unfold Config.get_real_user_home. sm_step. sm_step; [done|]. cbv beta iota.
  destruct r as [user|]; [|apply hoare_ret; by eexists]. destruct (_ || _); [apply hoare_ret; by eexists|].
  sm_step. sm_step; [done|]. cbv beta iota. sm_step.
  apply (hoare_mono _ _ _ _ (fun _ r => exists h, r = Ok h)).
  - destruct r as [o|]; [|apply hoare_ret; by eexists]. cbv zeta. destruct (_ || _); [apply hoare_ret; by eexists|].
    sm_step. sm_step; [done|]. apply hoare_ret. by eexists.
  - intros s' r' [h ->]. cbv beta iota. destruct h as [h|]; [apply hoare_ret; by eexists|].
    sm_step. sm_step; [done|]. apply hoare_ret. by eexists.
Qed.

Section Unit.
Context (exe : string) (d : DaemonSpec).
Abbreviation inst m Q := (hoare (installs exe d) (fun R c r => r = answer R c) m tt Q) (only parsing).

Lemma inst_output n args Q :
  (n, args) ∈ setup_commands -> (forall r, r = answer _ (of_cmd _ (Routing.Run n args)) -> Q tt (Ok r)) ->
  inst (output n args) Q.
Proof. intros Hin HQ. apply hoare_call; [exact Hin|]. intros r ->. by apply HQ. Qed.
Lemma inst_ignored n args Q : (n, args) ∈ setup_commands -> Q tt (Ok tt) -> inst (run_ignored n args) Q.
Proof. intros Hin HQ. unfold run_ignored. sm_step. apply inst_output; [done|]. intros r _. by apply hoare_ret. Qed.
Lemma inst_stop Q : Q tt (Ok tt) -> inst stop_running Q.
Proof.
  intros HQ. unfold stop_running, is_omniedge_daemon_running, kill_daemons. sm_step. sm_step.
  apply inst_output; [set_solver|]. intros r _. sm_step. sm_step.
  - sm_step. apply inst_ignored; [set_solver|]. cbv beta iota. sm_step; [done|]. by destruct r0.
  - by apply hoare_ret.
Qed.
Lemma inst_home Q : (forall h, Q tt (Ok h)) -> inst (conf Config.get_real_user_home) Q.
Proof.
  intros HQ.
  eapply (hoare_zoom of_conf id (fun _ m => m) Session.Failed home_call (fun _ _ _ => True)); [|done|apply home_found|].
  { intros R c Hc. destruct c; done || exact Hc. }
  intros s r [h ->]. apply HQ.
Qed.
Lemma inst_write env Q :
  answer _ (of_conf _ (Config.WriteFile UNIT_TMP (unit_text "OmniEdge Service" (exec_start exe d) env))) = Ok tt ->
  Q tt (Ok tt) -> inst (write_file UNIT_TMP (unit_text "OmniEdge Service" (exec_start exe d) env)) Q.
Proof. intros Hw HQ. split; [split; [done|by exists env]|]. intros r Hr. rewrite Hw in Hr. by subst. Qed.
End Unit.

(** Where there is systemd, installing the service runs a fixed list of commands and
    writes one file, the unit that runs the program as asked; it reports success
    whatever becomes of the commands, once it knows its own path and could write
    the file. *)
Theorem unit_setup exe d :
  answer _ (host CurrentExe) = Ok exe ->
  (forall content, answer _ (of_conf _ (Config.WriteFile UNIT_TMP content)) = Ok tt) ->
  (exists o, answer _ (of_cmd _ (Routing.Run "systemctl" ["--version"])) = Ok o /\ Routing.succeeded o = true) ->
  hoare (installs exe d) (fun R c r => r = answer R c) (setup_linux_service d) tt (fun _ r => r = Ok tt).
Proof.
  intros Hexe Hw (o & Ho & Hok). unfold setup_linux_service. sm_step. apply inst_stop. cbv beta iota.
  sm_step. unfold try_host. sm_step. sm_step; [done|]. subst. cbv beta iota. rewrite Hexe. sm_step.
  sm_step. apply inst_output; [set_solver|]. intros r ->. cbv beta iota zeta. rewrite Ho, Hok.
  sm_step. apply inst_home. intros h. cbv beta iota. unfold install_unit.
  sm_step. apply inst_write; [apply Hw|]. cbv beta iota.
  do 3 (sm_step; apply inst_ignored; [set_solver|]; cbv beta iota). by apply inst_ignored; [set_solver|].
Qed.
End InstallTheorems.

(** ** A concrete host *)
Module Demo.
Definition daemon : DaemonSpec := {|
  d_network := "net-1"; d_mode := Dual; d_transport := L3; d_exit := true; d_exit_node := Some "10.0.0.9";
  d_exit_node_v6 := None; d_port := 51820; d_secret := Some "sixteen_or_more_"; d_verbose := false |}.

Definition answers (R : Set) (c : ServiceCall R) : R :=
  match c with
  | inl (inl c) =>
      match c in HostCall R return R with
      | Bindable _ => true | Interfaces => None | CurrentExe => Ok "/bin/omniedge" | SleepMs _ => tt | RemoveFile _ => Ok tt
      | SpawnDaemon _ _ _ => Ok 4242 | BindNucleus _ => Ok tt | CtrlC => Ok tt | NewIdentity _ => ([], [])
      | MachineId => Err "" | Hostname => Ok "host" | Username => "user"
      end
  | inl (inr c) => match c in NucleusCall R return R with NextEvent => StopSignal | SendTo _ _ => Ok 0 end
  | inr (inr c) =>
      match c in Routing.CmdCall R return R with
      | Routing.Run n _ => if bool_decide (n = "sudo") then Err "sudo: not found"
                           else Ok {| Routing.succeeded := true; Routing.out := string_bytes "4242"; Routing.err := [] |}
      end
  | inr (inl c) => Session.Demo.answers R (inl c)
  end.

Lemma unit_setup_witness :
  installs "/bin/omniedge" daemon _ (of_cmd _ (Routing.Run "sudo" ["systemctl"; "start"; "omniedge"])).
Proof.
  apply (hoare_calls answers _ (setup_linux_service daemon) tt _
    (unit_setup answers "/bin/omniedge" daemon eq_refl (fun _ => eq_refl)
       (ex_intro _ {| Routing.succeeded := true; Routing.out := string_bytes "4242"; Routing.err := [] |} (conj eq_refl eq_refl)))
    (existT _ (of_cmd _ (Routing.Run "sudo" ["systemctl"; "start"; "omniedge"])))).
  apply list_elem_of_In. vm_compute. tauto.
Defined.

End Demo.
