(* ===== verification/Start.v ===== *)
(** * The commands of the command line (omni-cli/src/main.rs and part of utils.rs)

    [start], [stop], [scan] and [config]: programs over the service
    (Service.v), the login (Login.v), the API (Api.v) and the configuration
    they change.  Parsing the arguments and printing are left out; the builds
    are those for linux and macos. *)

From Stdlib Require Import Ascii.
From S2P Require Import Prelude RustStr Net Paths Effects Nucleus.
From S2P Require Api Config Routing Peers Dispatcher Session Login Service.

Open Scope string_scope.
Open Scope list_scope.
Open Scope Z_scope.

(** ** The world *)

(** [ExecSudo]: this process becomes another ([None]), or why not.
    [Connect]: a connection within 100 ms.  [RuntimeNew]: a runtime of tokio
    ([None]), or why there is none. *)
Inductive TermCall : Set -> Set :=
| IsRoot : TermCall bool
| ProgramArgs : TermCall (list string)
| ExecSudo (exe : string) (args : list string) : TermCall (option string)
| Platform : TermCall string
| LocalIp : TermCall (result string IpAddr)
| Masks : TermCall (result string (list (IpAddr * option string)))
| MacAddress : TermCall (option string)
| Connect (addr : string) : TermCall bool
| RuntimeNew : TermCall (option string).

Definition StartCall (R : Set) : Set := (TermCall R + Login.OwnCall R + Service.ServiceCall R)%type.
Definition term {R : Set} (c : TermCall R) : StartCall R := inl (inl c).
Definition of_service (R : Set) (c : Service.ServiceCall R) : StartCall R := inr c.
Definition of_http (R : Set) (c : Api.HttpCall R) : StartCall R := of_service R (Service.of_session R (Session.of_http R c)).
Definition of_conf (R : Set) (c : Config.ConfCall R) : StartCall R := of_service R (Service.of_conf R c).
Definition of_login (R : Set) (c : Login.LoginCall R) : StartCall R :=
  match c with
  | inl (inl c) => inl (inr c)
  | inl (inr c) => of_http R c
  | inr c => of_conf R c
  end.

(** The end of the process by [exit], by becoming sudo, by a panic; or an
    error that main returns. *)
Inductive Halt : Set := Exited (code : Z) | Replaced | Panicked (m : string) | Failed (e : string).
Definition of_fault (f : Session.Fault) : Halt :=
  match f with Session.Failed e => Failed e | Session.Panicked m => Panicked m end.

Definition SUCCESS : Z := 0.
Definition GENERAL_ERROR : Z := 1.
Definition PERMISSION_DENIED : Z := 2.
Definition INVALID_INPUT : Z := 5.

(** The state is the configuration as it was loaded. *)
Abbreviation MM := (SM StartCall Config.CliConfig Halt) (only parsing).

Definition web {A} (p : SM Api.HttpCall unit string A) : MM A := zoom of_http (fun _ => tt) (fun _ c => c) Failed p.
Definition conf {A} (p : SM Config.ConfCall unit string A) : MM A := zoom of_conf (fun _ => tt) (fun _ c => c) Failed p.
Definition service {A} (p : SM Service.ServiceCall unit Session.Fault A) : MM A :=
  zoom of_service (fun _ => tt) (fun _ c => c) of_fault p.
Definition login {A} (p : SM Login.LoginCall Config.CliConfig string A) : MM A := zoom of_login id (fun s _ => s) Failed p.
Definition perform {R : Set} (c : TermCall R) : MM R := call (term c).
Definition host {R : Set} (c : Service.HostCall R) : MM R := call (of_service R (Service.host c)).
Definition exit {A} (code : Z) : MM A := throw (Exited code).

(** ** What the commands change of the configuration *)

Definition remake (exit : bool) (ip v6 : option string) (run_mode : option string) (port : option Z) (secret : bool)
    (identity device device_name : option string) (net : Config.NetworkConfig) (c : Config.CliConfig) : Config.CliConfig := {|
  Config.auth_file_default_path := Config.auth_file_default_path c;
  Config.scan_result_default_path := Config.scan_result_default_path c;
  Config.auth_response := Config.auth_response c; Config.token_obtained_at := Config.token_obtained_at c;
  Config.device_uuid := device; Config.device_name := device_name; Config.last_join_info := Config.last_join_info c;
  Config.last_network_id := Config.last_network_id c; Config.scan_ip := Config.scan_ip c;
  Config.scan_mac := Config.scan_mac c; Config.scan_mask := Config.scan_mask c;
  Config.scan_results := Config.scan_results c; Config.identity_private_key := identity;
  Config.is_exit_node := exit; Config.exit_node_ip := ip; Config.exit_node_ip_v6 := v6; Config.last_run_mode := run_mode;
  Config.nucleus_port := port; Config.has_cluster_secret := secret; Config.network_config := net;
  Config.ssh_config := Config.ssh_config c |}.
Definition set_net (net : Config.NetworkConfig) (c : Config.CliConfig) : Config.CliConfig :=
  remake (Config.is_exit_node c) (Config.exit_node_ip c) (Config.exit_node_ip_v6 c) (Config.last_run_mode c)
    (Config.nucleus_port c) (Config.has_cluster_secret c) (Config.identity_private_key c) (Config.device_uuid c)
    (Config.device_name c) net c.
Definition set_exit (b : bool) (c : Config.CliConfig) : Config.CliConfig :=
  remake b (Config.exit_node_ip c) (Config.exit_node_ip_v6 c) (Config.last_run_mode c)
    (Config.nucleus_port c) (Config.has_cluster_secret c) (Config.identity_private_key c) (Config.device_uuid c)
    (Config.device_name c) (Config.network_config c) c.
Definition set_run (exit : bool) (ip v6 : option string) (m : string) (port : option Z) (secret : bool)
    (c : Config.CliConfig) : Config.CliConfig :=
  remake exit ip v6 (Some m) port secret (Config.identity_private_key c) (Config.device_uuid c) (Config.device_name c)
    (Config.network_config c) c.
Definition set_identity (k : string) (c : Config.CliConfig) : Config.CliConfig :=
  remake (Config.is_exit_node c) (Config.exit_node_ip c) (Config.exit_node_ip_v6 c) (Config.last_run_mode c)
    (Config.nucleus_port c) (Config.has_cluster_secret c) (Some k) (Config.device_uuid c) (Config.device_name c)
    (Config.network_config c) c.
Definition set_device (device name : string) (c : Config.CliConfig) : Config.CliConfig :=
  remake (Config.is_exit_node c) (Config.exit_node_ip c) (Config.exit_node_ip_v6 c) (Config.last_run_mode c)
    (Config.nucleus_port c) (Config.has_cluster_secret c) (Config.identity_private_key c) (Some device) (Some name)
    (Config.network_config c) c.

(** What is asked for on the command line of [start]. *)
Record StartArgs : Set := {
  run_mode : Service.RunMode; transport : Service.TransportMode; arg_network : option string; daemon : bool;
  as_exit_node : bool; no_exit_node : bool; exit_node : option string; exit_node_v6 : option string; port : Z;
  secret : option string; security_key : option string; wireguard : Config.WireGuardMode; verbose : bool }.

Section Start.
Context `{Api.ApiJson, Config.ConfigCodec, Peers.EndpointSets, Dispatcher.Disco, NucleusLogic}.
Context (relay_client_new : list Z -> Z -> SocketAddr -> Dispatcher.RelayClient) (debug_args : list string -> string).
Context (hex_decode : string -> option (list Z)) (linux l2_vpn : bool) (base_url : string).

Definition save : MM unit := c ← gets id; conf (Config.save c).
(** [if let Err(e) = ..]: the error is logged. *)
Definition tolerate {A} (p : MM A) : MM (result string A) :=
  r ← attempt p;
  match r with Ok a => mret (Ok a) | Err (Failed e) => mret (Err e) | Err h => throw h end.

(** ** Privileges *)

Definition require_root_privileges : MM unit :=
  root ← perform IsRoot;
  if root : bool then mret tt
  else
    exe ← host Service.CurrentExe;
    args ← perform ProgramArgs;
    err ← perform (ExecSudo (match exe with Ok e => e | Err _ => "omniedge" end) (tail args));
    match err with None => throw Replaced | Some _ => exit PERMISSION_DENIED end.

(** ** The server list of the user *)

(** Whatever curl prints, without the white space around it. *)
Definition fetch_public_ip : MM (option string) :=
  r ← call (of_service _ (Service.of_cmd _ (Routing.Run "curl" ["-s"; "--connect-timeout"; "5"; "https://api.ipify.org"])));
  mret (match r with
        | Ok o => if Routing.succeeded o then
                    let ip := trim (Routing.lossy (Routing.out o)) in if bool_decide (ip = "") then None else Some ip
                  else None
        | Err _ => None
        end).

Definition serves (m : Service.RunMode) : bool := match m with Service.Edge => false | _ => true end.

Definition sync_custom_server (c : Api.ApiClient) (auth_token : string) (m : Service.RunMode) (p : Z) : MM unit :=
  if negb (serves m) || bool_decide (auth_token = "") then mret tt
  else
    ip ← fetch_public_ip;
    match ip with
    | None => mret tt
    | Some public_ip =>
        h ← host Service.Hostname;
        let name := "Nucleus - " +:+ match h with Ok h => h | Err _ => "omniedge-device" end in
        let addr := public_ip +:+ ":" +:+ show_uint p in
        servers ← web (Api.list_servers c);
        match List.find (fun s => negb (Api.is_default s) && bool_decide (Api.us_name s = name)) servers with
        | Some s => _ ← web (Api.update_server c (Api.us_id s)
                          {| Api.update_name := Some name; Api.update_host := Some addr; Api.update_country := None |}); mret tt
        | None => _ ← web (Api.create_server c
                          {| Api.create_name := name; Api.create_host := addr; Api.create_country := None |}); mret tt
        end
    end.

(** ** start *)

(** The pattern [^[a-zA-Z0-9_\-]+$]. *)
Definition id_char (a : ascii) : bool :=
  let b := Z.of_N (N_of_ascii a) in
  in_range 48 57 b || in_range 65 90 b || in_range 97 122 b || (b =? 95) || (b =? 45).
Fixpoint all_chars (p : ascii -> bool) (s : string) : bool :=
  match s with EmptyString => true | String a s' => p a && all_chars p s' end.
Definition network_id_ok (s : string) : bool :=
  negb (bool_decide (s = "")) && all_chars id_char s && (String.length s <=? 64)%nat.

Definition is_supported (t : Service.TransportMode) : bool :=
  match t with Service.L3 => true | Service.L2 => l2_vpn && linux end.

Definition check_mode (a : StartArgs) : MM unit :=
  match run_mode a with
  | Service.NucleusOnly =>
      match secret a with
      | Some s => if (String.length s <? 16)%nat then exit INVALID_INPUT else mret tt
      | None => mret tt
      end
  | _ => match arg_network a with
         | Some n => if network_id_ok n then mret tt else exit INVALID_INPUT
         | None => mret tt
         end
  end.
Definition check_address (parse : string -> option IpAddr) (o : option string) : MM unit :=
  match o with
  | Some s => if bool_decide (is_Some (parse s)) then mret tt else exit INVALID_INPUT
  | None => mret tt
  end.

(** Connected already: the role of an exit node may change, nothing else. *)
Definition already_connected (a : StartArgs) : MM unit :=
  if as_exit_node a || no_exit_node a then
    let exiting := as_exit_node a in
    _ ← modify (set_exit exiting);
    _ ← save;
    c ← gets id;
    _ ← match Config.auth_response c, Config.last_network_id c, Config.device_uuid c with
        | Some auth, Some net_id, Some dev_id =>
            let client := Api.ApiClient_new base_url (Some (Api.token auth)) in
            _ ← tolerate (web (Api.heartbeat client dev_id exiting));
            _ ← tolerate (web (Api.update_device client net_id dev_id exiting));
            mret tt
        | _, _, _ => mret tt
        end;
    exit SUCCESS
  else exit SUCCESS.

Definition run_daemon (fuel : nat) (a : StartArgs) : MM (option unit) :=
  match run_mode a with
  | Service.NucleusOnly => service (Service.run_nucleus_only fuel (port a) (default "" (secret a)))
  | m =>
      vn_id ← or_throw (Failed "Network ID required for edge/dual mode") (arg_network a);
      _ ← service (Service.run_worker relay_client_new debug_args hex_decode linux base_url vn_id m (as_exit_node a)
                     (exit_node a) (exit_node_v6 a) (port a));
      mret (Some tt)
  end.

Definition start_nucleus (a : StartArgs) : MM unit :=
  _ ← require_root_privileges;
  _ ← modify (fun c => set_run (Config.is_exit_node c) (Config.exit_node_ip c) (Config.exit_node_ip_v6 c) "nucleus"
                         (Some (port a)) (bool_decide (is_Some (secret a))) c);
  _ ← save;
  c ← gets id;
  _ ← match Config.auth_response c with
      | Some auth =>
          _ ← tolerate (sync_custom_server (Api.ApiClient_new base_url (Some (Api.token auth))) (Api.token auth)
                          (run_mode a) (port a)); mret tt
      | None => mret tt
      end;
  service (Service.setup_and_start_nucleus_service linux (port a) (default "" (secret a))).

(** The settings of this run and of the last ones. *)
Definition remember (a : StartArgs) (c : Config.CliConfig) : Config.CliConfig :=
  let exiting := if as_exit_node a then true else if no_exit_node a then false else Config.is_exit_node c in
  let either o saved := match o with Some x => Some x | None => saved end in
  let nucleus := serves (run_mode a) in
  set_run exiting (either (exit_node a) (Config.exit_node_ip c)) (either (exit_node_v6 a) (Config.exit_node_ip_v6 c))
    (Service.mode_str (run_mode a)) (if nucleus then Some (port a) else None)
    (if nucleus then bool_decide (is_Some (secret a)) else false) c.

(** [None]: the polling of the login is out of fuel. *)
Definition ensure_login (fuel : nat) (a : StartArgs) : MM (option Api.AuthResp) :=
  match security_key a with
  | Some key => auth ← login (Login.login_with_security_key base_url key); mret (Some auth)
  | None => login (Login.ensure_auth base_url fuel)
  end.

Definition ensure_identity : MM unit :=
  c ← gets id;
  manager ← service (Service.new_manager base_url (Service.identity_of hex_decode c));
  match Config.identity_private_key c with
  | Some _ => mret tt
  | None => _ ← modify (set_identity (Dispatcher.hex_encode (Session.private_key manager))); save
  end.

Definition ensure_device (client : Api.ApiClient) : MM unit :=
  c ← gets id;
  match Config.device_uuid c with
  | Some _ => mret tt
  | None =>
      h ← host Service.Hostname;
      os ← perform Platform;
      hw ← tolerate (service (Service.get_hardware_id hex_decode));
      dr ← web (Api.register client (match h with Ok h => h | Err _ => "omniedge-device" end)
                  (match hw with Ok h => h | Err _ => "unknown_hwid" end) os);
      _ ← modify (set_device (Api.device_id dr) (Api.device_name dr));
      save
  end.

(** The first network of the account, whatever its id looks like. *)
Definition choose_network (client : Api.ApiClient) (a : StartArgs) : MM string :=
  match arg_network a with
  | Some n => mret n
  | None =>
      networks ← web (Api.list_networks client);
      match networks with [] => exit GENERAL_ERROR | n :: _ => mret (Api.network_id n) end
  end.

Definition daemon_spec (a : StartArgs) (network : string) (c : Config.CliConfig) : Service.DaemonSpec := {|
  Service.d_network := network; Service.d_mode := run_mode a; Service.d_transport := transport a;
  Service.d_exit := Config.is_exit_node c; Service.d_exit_node := Config.exit_node_ip c;
  Service.d_exit_node_v6 := Config.exit_node_ip_v6 c; Service.d_port := port a; Service.d_secret := secret a;
  Service.d_verbose := verbose a |}.

Definition connect (fuel : nat) (a : StartArgs) : MM (option unit) :=
  _ ← modify (remember a);
  effective ← gets id;
  _ ← save;
  _ ← require_root_privileges;
  auth ← ensure_login fuel a;
  match auth with
  | None => mret None
  | Some auth =>
      let token := Api.effective_token auth in
      let client := Api.ApiClient_new base_url (Some token) in
      _ ← ensure_identity;
      _ ← ensure_device client;
      vn_id ← choose_network client a;
      _ ← tolerate (sync_custom_server client token (run_mode a) (port a));
      _ ← service (Service.setup_and_start_service linux (daemon_spec a vn_id effective));
      mret (Some tt)
  end.

Definition set_wireguard (m : Config.WireGuardMode) (n : Config.NetworkConfig) : Config.NetworkConfig := {|
  Config.relay_enabled := Config.relay_enabled n; Config.relay_server := Config.relay_server n;
  Config.portmap_enabled := Config.portmap_enabled n; Config.encrypt_signaling := Config.encrypt_signaling n;
  Config.ipv6_enabled := Config.ipv6_enabled n; Config.prefer_ipv6 := Config.prefer_ipv6 n;
  Config.ipv6_preference_threshold_ms := Config.ipv6_preference_threshold_ms n;
  Config.happy_eyeballs_delay_ms := Config.happy_eyeballs_delay_ms n; Config.mtu := Config.mtu n;
  Config.mtu_auto_detect := Config.mtu_auto_detect n; Config.wireguard_mode := m |}.

Definition start (fuel : nat) (a : StartArgs) : MM (option unit) :=
  _ ← (if is_supported (transport a) then mret tt else exit INVALID_INPUT);
  _ ← (if negb linux && bool_decide (wireguard a = Config.Kernel) then exit INVALID_INPUT else mret tt);
  _ ← modify (fun c => set_net (set_wireguard (wireguard a) (Config.network_config c)) c);
  c ← gets id;
  status ← service (Service.get_service_status linux (Config.last_run_mode c) (Config.nucleus_port c));
  if Service.is_running status then _ ← already_connected a; mret (Some tt)
  else
    _ ← check_mode a;
    _ ← check_address parse_ipv4 (exit_node a);
    _ ← check_address parse_ipv6 (exit_node_v6 a);
    if daemon a then run_daemon fuel a
    else match run_mode a with
         | Service.NucleusOnly => _ ← start_nucleus a; mret (Some tt)
         | _ => connect fuel a
         end.

(** ** stop *)

Definition stop : MM unit :=
  _ ← require_root_privileges;
  service (Service.stop_and_cleanup_service hex_decode linux base_url).

(** ** config *)

Inductive ConfigCommands : Set :=
| Show
| Relay (action : string)
| Portmap (action : string)
| Ipv6 (action : string)
| Encrypt (action : string)
| Wireguard (action : string)
| ResetAll.

Definition is_on (s : string) : bool := existsb (String.eqb s) ["on"; "enable"; "true"; "1"].
Definition is_off (s : string) : bool := existsb (String.eqb s) ["off"; "disable"; "false"; "0"].

(** The settings with some of them replaced. *)
Definition with_relay (b : bool) (server : option string) (n : Config.NetworkConfig) : Config.NetworkConfig := {|
  Config.relay_enabled := b; Config.relay_server := server;
  Config.portmap_enabled := Config.portmap_enabled n; Config.encrypt_signaling := Config.encrypt_signaling n;
  Config.ipv6_enabled := Config.ipv6_enabled n; Config.prefer_ipv6 := Config.prefer_ipv6 n;
  Config.ipv6_preference_threshold_ms := Config.ipv6_preference_threshold_ms n;
  Config.happy_eyeballs_delay_ms := Config.happy_eyeballs_delay_ms n; Config.mtu := Config.mtu n;
  Config.mtu_auto_detect := Config.mtu_auto_detect n; Config.wireguard_mode := Config.wireguard_mode n |}.
Definition with_flags (portmap encrypt ipv6 prefer : bool) (n : Config.NetworkConfig) : Config.NetworkConfig := {|
  Config.relay_enabled := Config.relay_enabled n; Config.relay_server := Config.relay_server n;
  Config.portmap_enabled := portmap; Config.encrypt_signaling := encrypt; Config.ipv6_enabled := ipv6;
  Config.prefer_ipv6 := prefer; Config.ipv6_preference_threshold_ms := Config.ipv6_preference_threshold_ms n;
  Config.happy_eyeballs_delay_ms := Config.happy_eyeballs_delay_ms n; Config.mtu := Config.mtu n;
  Config.mtu_auto_detect := Config.mtu_auto_detect n; Config.wireguard_mode := Config.wireguard_mode n |}.

(** What an action makes of the settings, unless it is none. *)
Definition relay_action (action : string) (n : Config.NetworkConfig) : option Config.NetworkConfig :=
  let l := to_lowercase action in
  if is_on l then Some (with_relay true (Config.relay_server n) n)
  else if is_off l then Some (with_relay false (Config.relay_server n) n)
  else if String.eqb l "server" then None
  else if contains action ":" then Some (with_relay true (Some action) n)
  else None.
Definition portmap_action (action : string) (n : Config.NetworkConfig) : option Config.NetworkConfig :=
  let l := to_lowercase action in
  let set b := Some (with_flags b (Config.encrypt_signaling n) (Config.ipv6_enabled n) (Config.prefer_ipv6 n) n) in
  if is_on l then set true else if is_off l then set false else None.
Definition encrypt_action (action : string) (n : Config.NetworkConfig) : option Config.NetworkConfig :=
  let l := to_lowercase action in
  let set b := Some (with_flags (Config.portmap_enabled n) b (Config.ipv6_enabled n) (Config.prefer_ipv6 n) n) in
  if is_on l then set true else if is_off l then set false else None.
Definition ipv6_action (action : string) (n : Config.NetworkConfig) : option Config.NetworkConfig :=
  let l := to_lowercase action in
  let set enabled prefer := Some (with_flags (Config.portmap_enabled n) (Config.encrypt_signaling n) enabled prefer n) in
  if is_on l then set true (Config.prefer_ipv6 n)
  else if is_off l then set false false
  else if existsb (String.eqb l) ["prefer"; "preferred"] then set true true
  else if existsb (String.eqb l) ["no-prefer"; "noprefer"; "no-preferred"] then set true false
  else None.
Definition wireguard_action (action : string) (n : Config.NetworkConfig) : option Config.NetworkConfig :=
  let l := to_lowercase action in
  if String.eqb l "auto" then Some (set_wireguard Config.Auto n)
  else if String.eqb l "kernel" then if linux then Some (set_wireguard Config.Kernel n) else None
  else if existsb (String.eqb l) ["userspace"; "boringtun"] then Some (set_wireguard Config.Userspace n)
  else None.

Definition handle_config_command (cmd : ConfigCommands) : MM unit :=
  let apply (f : Config.NetworkConfig -> option Config.NetworkConfig) :=
    c ← gets id;
    match f (Config.network_config c) with
    | Some n => _ ← modify (set_net n); save
    | None => exit INVALID_INPUT
    end in
  match cmd with
  | Show => mret tt
  | Relay a => apply (relay_action a)
  | Portmap a => apply (portmap_action a)
  | Ipv6 a => apply (ipv6_action a)
  | Encrypt a => apply (encrypt_action a)
  | Wireguard a => apply (wireguard_action a)
  | ResetAll => apply (fun _ => Some Config.NetworkConfig_default)
  end.

(** ** scan *)

(** [parse_cidr]: the addresses and the mask of a network of the ipnetwork
    crate, as text. *)
Context (parse_cidr : string -> result string (list string * string)).

(** [tokio::runtime::Runtime::block_on], which a thread of a runtime must not
    call. *)
Definition NESTED : string :=
  "Cannot start a runtime from within a runtime. This happens because a function (like `block_on`) attempted to block the current thread while the thread is being used to drive asynchronous tasks.".
Definition block_on {A} (within_runtime : bool) (p : MM A) : MM A :=
  if within_runtime then throw (Panicked NESTED) else p.

(** The first of the ports that answers ends the probe of an address. *)
Fixpoint probe (ip : string) (ports : list Z) : MM bool :=
  match ports with
  | [] => mret false
  | p :: ports =>
      up ← perform (Connect (ip +:+ ":" +:+ show_uint p));
      if up : bool then mret true else probe ip ports
  end.
Definition scanned (ip : string) : Api.ScanResult := {|
  Api.host_name := ""; Api.ipv4 := ip; Api.ipv6 := ""; Api.mac_address := ""; Api.vendor := ""; Api.scan_os := "" |}.
Fixpoint probe_all (ips : list string) : MM (list Api.ScanResult) :=
  match ips with
  | [] => mret []
  | ip :: ips =>
      up ← probe ip [80; 443; 22; 135];
      rest ← probe_all ips;
      mret (if up : bool then scanned ip :: rest else rest)
  end.
Definition run_native_scan (within_runtime : bool) (cidr : string) : MM (list Api.ScanResult) :=
  network ← match parse_cidr cidr with Ok n => mret n | Err e => throw (Failed ("Invalid CIDR: " +:+ e)) end;
  rt ← perform RuntimeNew;
  match rt with Some e => throw (Failed e) | None => block_on within_runtime (probe_all (take 256 network.1)) end.

Record DeviceNet : Set := { dn_ip : string; dn_mac : string; dn_mask : string }.
Definition NO_MAC : string := "00:00:00:00:00:00".
Definition get_current_device_net_status (cidr_hint : string) : MM DeviceNet :=
  my_ip ← perform LocalIp;
  my_ip ← match my_ip with Ok a => mret a | Err e => throw (Failed ("Failed to get local IP: " +:+ e)) end;
  listed ← perform Masks;
  listed ← match listed with Ok l => mret l | Err e => throw (Failed ("Failed to list interfaces: " +:+ e)) end;
  match List.find (fun am => bool_decide (am.1 = my_ip)) listed with
  | Some (_, mask) =>
      mac ← perform MacAddress;
      mret {| dn_ip := show_ip my_ip; dn_mac := default NO_MAC mac; dn_mask := default "255.255.255.0" mask |}
  | None =>
      match parse_cidr cidr_hint with
      | Ok (_, mask) => mret {| dn_ip := show_ip my_ip; dn_mac := NO_MAC; dn_mask := mask |}
      | Err e => throw (Failed ("Invalid CIDR hint: " +:+ e))
      end
  end.

Definition set_scan (d : DeviceNet) (results : list Api.ScanResult) (c : Config.CliConfig) : Config.CliConfig := {|
  Config.auth_file_default_path := Config.auth_file_default_path c;
  Config.scan_result_default_path := Config.scan_result_default_path c;
  Config.auth_response := Config.auth_response c; Config.token_obtained_at := Config.token_obtained_at c;
  Config.device_uuid := Config.device_uuid c; Config.device_name := Config.device_name c;
  Config.last_join_info := Config.last_join_info c; Config.last_network_id := Config.last_network_id c;
  Config.scan_ip := Some (dn_ip d); Config.scan_mac := Some (dn_mac d); Config.scan_mask := Some (dn_mask d);
  Config.scan_results := Some results; Config.identity_private_key := Config.identity_private_key c;
  Config.is_exit_node := Config.is_exit_node c; Config.exit_node_ip := Config.exit_node_ip c;
  Config.exit_node_ip_v6 := Config.exit_node_ip_v6 c; Config.last_run_mode := Config.last_run_mode c;
  Config.nucleus_port := Config.nucleus_port c; Config.has_cluster_secret := Config.has_cluster_secret c;
  Config.network_config := Config.network_config c; Config.ssh_config := Config.ssh_config c |}.

(** The commands run on the runtime that main starts. *)
Definition scan (cidr : string) (timeout : Z) : MM unit :=
  if timeout <=? 0 then exit INVALID_INPUT
  else
    r ← tolerate (run_native_scan true cidr);
    match r with
    | Err _ => exit INVALID_INPUT
    | Ok results =>
        d ← tolerate (get_current_device_net_status cidr);
        let d := match d with Ok d => d | Err _ => {| dn_ip := "unknown"; dn_mac := "unknown"; dn_mask := "unknown" |} end in
        _ ← modify (set_scan d results);
        _ ← save;
        c ← gets id;
        match Config.auth_response c, Config.device_uuid c with
        | Some auth, Some device =>
            _ ← tolerate (web (Api.upload_subnets (Api.ApiClient_new base_url (Some (Api.token auth))) device
                            (dn_ip d) (dn_mac d) (dn_mask d) results));
            mret tt
        | _, _ => mret tt
        end
    end.
End Start.

(** ** What a start launches *)

(** Calls that neither start a daemon nor write a unit. *)
Definition conf_quiet (R : Set) (c : Config.ConfCall R) : Prop :=
  match c with Config.WriteFile path _ => path <> Service.UNIT_TMP | _ => True end.
Definition service_quiet (R : Set) (c : Service.ServiceCall R) : Prop :=
  match c with
  | inl (inl (Service.SpawnDaemon _ _ _)) => False
  | inr (inl (inr c)) => conf_quiet R c
  | _ => True
  end.
Definition login_quiet (R : Set) (c : Login.LoginCall R) : Prop :=
  match c with inr c => conf_quiet R c | _ => True end.
Abbreviation free := (fun (R : Set) _ (_ : R) => True) (only parsing).

Lemma file_is_no_unit dir : path_join dir "auth.json" <> Service.UNIT_TMP.
Proof.
  intros H. assert (Hu : exists u, path_join dir "auth.json" = u +:+ "auth.json").
  { unfold path_join. cbn [is_absolute]. destruct (_ || _); [by eexists|]. exists (dir +:+ "/"). by rewrite append_assoc. }
  destruct Hu as [u Hu]. rewrite Hu in H.
  change ("auth.json") with ("auth.jso" +:+ String "n" "") in H. rewrite <- append_assoc in H.
  change Service.UNIT_TMP with ("/tmp/omniedge.servic" +:+ String "e" "") in H. by apply append_last_inj in H as [_ H].
Qed.

Ltac quietly := repeat first [progress cbv beta iota zeta | sm_step | case_match]; try done.

Section Quiet.
Context `{Api.ApiJson, Config.ConfigCodec, Peers.EndpointSets, Dispatcher.Disco}.

Lemma home_quiet s Q : (forall r, Q s r) -> hoare conf_quiet free Config.user_home s Q.
Proof. intros HQ. unfold Config.user_home, Config.get_real_user_home. quietly; try apply HQ. Qed.
Lemma save_quiet c s Q : (forall r, Q s r) -> hoare conf_quiet free (Config.save c) s Q.
Proof.
  intros HQ. unfold Config.save, Config.config_path, Config.chown_to_real_user. sm_step. sm_step. apply home_quiet.
  intros [h|e]; cbv beta iota zeta; [|apply HQ].
  quietly; first [apply HQ | apply file_is_no_unit].
Qed.
Lemma load_quiet s Q : (forall r, Q s r) -> hoare conf_quiet free Config.load s Q.
Proof.
  intros HQ. unfold Config.load, Config.config_path, Config.default_with_paths.
  repeat (first [progress cbv beta iota zeta | apply home_quiet; intros [?|?] | sm_step | case_match]; try done; try apply HQ).
Qed.

Lemma service_load s Q : (forall r, Q s r) -> hoare service_quiet free (Service.conf Config.load) s Q.
Proof.
  intros HQ. eapply (hoare_zoom Service.of_conf id (fun _ m => m) Session.Failed conf_quiet free);
    [done|done|apply (load_quiet _ (fun _ _ => True)); done|]. intros [] r _. apply HQ.
Qed.
Lemma status_quiet linux m p s Q :
  (forall r, Q s r) -> hoare service_quiet free (Service.get_service_status linux m p) s Q.
Proof.
  intros HQ. unfold Service.get_service_status, Service.is_omniedge_daemon_running, Service.get_omniedge_interface,
    Service.is_port_in_use, Service.output.
  repeat (first [progress cbv beta iota zeta | apply service_load; intros ? | sm_step | case_match]; try done; try apply HQ).
Qed.
Lemma manager_quiet url k s Q : (forall r, Q s r) -> hoare service_quiet free (Service.new_manager url k) s Q.
Proof.
  intros HQ. unfold Service.new_manager.
  repeat (first [progress cbv beta iota zeta | apply service_load; intros ? | sm_step | case_match]; try done; try apply HQ).
Qed.
Lemma hardware_quiet hex_decode s Q : (forall r, Q s r) -> hoare service_quiet free (Service.get_hardware_id hex_decode) s Q.
Proof. intros HQ. unfold Service.get_hardware_id. quietly; apply HQ. Qed.

(** The login writes the configuration only; any state may come of it. *)
Context (base_url : string).
Abbreviation lq m c Q := (hoare login_quiet free m c Q) (only parsing).

Lemma login_conf {A} (p : SM Config.ConfCall unit string A) c Q :
  hoare conf_quiet free p tt (fun _ _ => True) -> (forall r, Q c r) -> lq (Login.conf p) c Q.
Proof.
  intros Hp HQ. eapply (hoare_zoom Login.of_conf (fun _ => tt) (fun _ c => c) id conf_quiet free); [done|done|exact Hp|].
  intros [] r _. apply HQ.
Qed.
Lemma login_web {A} (p : SM Api.HttpCall unit string A) c Q : (forall r, Q c r) -> lq (Login.web p) c Q.
Proof.
  intros HQ. eapply (hoare_zoom Login.of_http (fun _ => tt) (fun _ c => c) id (fun _ _ => True) free);
    [done|done|apply hoare_any|]. intros [] r _. apply HQ.
Qed.
Lemma login_expired c Q : (forall r, Q c r) -> lq Login.is_token_expired c Q.
Proof.
  intros HQ. unfold Login.is_token_expired. sm_step. sm_step. apply login_conf; [|exact HQ].
  unfold Config.is_token_expired. quietly.
Qed.
Lemma login_set auth c Q : (forall c' r, Q c' r) -> lq (Login.set_auth_response auth) c Q.
Proof.
  intros HQ. unfold Login.set_auth_response. sm_step. sm_step. cbv beta iota. sm_step.
  apply login_conf; [unfold Config.set_auth_response; quietly|]. intros [c'|e]; [|apply HQ]. cbv beta iota. sm_step. apply HQ.
Qed.
Lemma login_save c Q : (forall r, Q c r) -> lq Login.save c Q.
Proof. intros HQ. unfold Login.save. sm_step. sm_step. by apply login_conf; [apply save_quiet|]. Qed.

Ltac logging := repeat first
  [ progress cbv beta iota zeta | apply login_expired; intros [?|?] | apply login_set; intros ? [?|?] | apply login_save; intros [?|?]
  | apply login_web; intros [?|?] | sm_step | case_match ]; try done.

Lemma poll_quiet fuel code interval c Q : (forall r, Q c r) -> lq (Login.poll base_url fuel code interval) c Q.
Proof.
  intros HQ. revert interval. induction fuel as [|fuel IH]; intros interval; cbn [Login.poll]; [by sm_step|].
  sm_step. sm_step; [done|]. cbv beta iota. sm_step. apply hoare_attempt, login_web. intros [t|e]; cbv beta iota; [by sm_step|].
  case_match; [apply IH|by sm_step].
Qed.
Lemma flow_quiet fuel c Q : (forall c' r, Q c' r) -> lq (Login.device_flow base_url fuel) c Q.
Proof.
  intros HQ. unfold Login.device_flow. sm_step. sm_step; [done|]. cbv beta iota. sm_step; [by sm_step|].
  sm_step. apply login_web. intros [dr|e]; cbv beta iota; [|apply HQ]. sm_step. apply poll_quiet.
  intros [[t|]|e]; cbv beta iota; [|by sm_step|apply HQ]. logging; try apply HQ.
Qed.
Lemma ensure_auth_quiet fuel c Q : (forall c' r, Q c' r) -> lq (Login.ensure_auth base_url fuel) c Q.
Proof.
  intros HQ. unfold Login.ensure_auth, Login.try_refresh_token, Login.forget.
  repeat first [progress logging | apply flow_quiet]; apply HQ.
Qed.
Lemma key_quiet key c Q : (forall c' r, Q c' r) -> lq (Login.login_with_security_key base_url key) c Q.
Proof.
  intros HQ. unfold Login.login_with_security_key. logging; apply HQ.
Qed.
End Quiet.

Section Launch.
Context `{Api.ApiJson, Config.ConfigCodec, Peers.EndpointSets, Dispatcher.Disco, NucleusLogic}.
Context (relay_client_new : list Z -> Z -> SocketAddr -> Dispatcher.RelayClient) (debug_args : list string -> string).
Context (hex_decode : string -> option (list Z)) (linux l2_vpn : bool) (base_url : string).
Context (a : StartArgs) (c0 : Config.CliConfig).

(** The daemon is to do what was asked for, with the settings of the last run
    where nothing was; ids and addresses that were given are well-formed. *)
Definition vetted (d : Service.DaemonSpec) : Prop :=
  Service.d_mode d = run_mode a /\ run_mode a <> Service.NucleusOnly /\ Service.d_transport d = transport a /\
  Service.d_port d = port a /\ Service.d_secret d = secret a /\
  (forall n, arg_network a = Some n -> Service.d_network d = n /\ network_id_ok n = true) /\
  (if exit_node a is Some ip then Service.d_exit_node d = Some ip /\ is_Some (parse_ipv4 ip)
   else Service.d_exit_node d = Config.exit_node_ip c0) /\
  (if exit_node_v6 a is Some ip then Service.d_exit_node_v6 d = Some ip /\ is_Some (parse_ipv6 ip)
   else Service.d_exit_node_v6 d = Config.exit_node_ip_v6 c0) /\
  Service.d_exit d = as_exit_node a || (negb (no_exit_node a) && Config.is_exit_node c0).
Definition vetted_nucleus : Prop :=
  run_mode a = Service.NucleusOnly /\ (forall s, secret a = Some s -> (16 <= String.length s)%nat).

Definition service_launch (R : Set) (c : Service.ServiceCall R) : Prop :=
  match c with
  | inl (inl (Service.SpawnDaemon _ args _)) => exists d, args = Service.daemon_args d /\ vetted d
  | inr (inl (inr (Config.WriteFile path content))) => path = Service.UNIT_TMP ->
      (exists exe env d, content = Service.unit_text "OmniEdge Service" (Service.exec_start exe d) env /\ vetted d) \/
      (exists exe env, content = Service.unit_text "OmniEdge Nucleus Signaling Server"
                                   (Service.nucleus_exec exe (port a) (default "" (secret a))) env /\ vetted_nucleus)
  | _ => True
  end.
Definition launches (R : Set) (c : StartCall R) : Prop := match c with inr c => service_launch R c | _ => True end.
Abbreviation lh m c Q := (hoare launches free m c Q) (only parsing).

Lemma conf_launch (R : Set) (c : Config.ConfCall R) : conf_quiet R c -> service_launch R (Service.of_conf R c).
Proof. destruct c; try done. intros Hp He. by destruct Hp. Qed.

(** Parts of a start by the programs they are. *)
Lemma launch_service {A} (p : SM Service.ServiceCall unit Session.Fault A) c Q :
  hoare service_launch free p tt (fun _ _ => True) -> (forall r, Q c r) -> lh (service p) c Q.
Proof.
  intros Hp HQ. eapply (hoare_zoom of_service (fun _ => tt) (fun _ c => c) of_fault service_launch free); [done|done|exact Hp|].
  intros [] r _. apply HQ.
Qed.
Lemma launch_quiet {A} (p : SM Service.ServiceCall unit Session.Fault A) c Q :
  hoare service_quiet free p tt (fun _ _ => True) -> (forall r, Q c r) -> lh (service p) c Q.
Proof.
  intros Hp. apply launch_service. eapply hoare_weaken; [exact Hp| |done].
  intros R [[d|d]|[[d|d]|d]]; try done; [by destruct d|apply (conf_launch R d)].
Qed.
Lemma launch_conf {A} (p : SM Config.ConfCall unit string A) c Q :
  hoare conf_quiet free p tt (fun _ _ => True) -> (forall r, Q c r) -> lh (conf p) c Q.
Proof.
  intros Hp HQ. eapply (hoare_zoom of_conf (fun _ => tt) (fun _ c => c) Failed conf_quiet free); [exact conf_launch|done|exact Hp|].
  intros [] r _. apply HQ.
Qed.
Lemma launch_web {A} (p : SM Api.HttpCall unit string A) c Q : (forall r, Q c r) -> lh (web p) c Q.
Proof.
  intros HQ. eapply (hoare_zoom of_http (fun _ => tt) (fun _ c => c) Failed (fun _ _ => True) free); [done|done|apply hoare_any|].
  intros [] r _. apply HQ.
Qed.
Lemma launch_login {A} (p : SM Login.LoginCall Config.CliConfig string A) c Q :
  (forall Q', (forall c' r, Q' c' r) -> hoare login_quiet free p c Q') -> (forall c' r, Q c' r) -> lh (login p) c Q.
Proof.
  intros Hp HQ. eapply (hoare_zoom of_login id (fun s _ => s) Failed login_quiet free _ _ p c (fun _ _ => True)).
  - intros R [[d|d]|d]; try done. apply conf_launch.
  - done.
  - by apply Hp.
  - intros c' r _. apply HQ.
Qed.
Lemma launch_save c Q : (forall r, Q c r) -> lh save c Q.
Proof. intros HQ. unfold save. sm_step. sm_step. cbv beta iota. apply launch_conf; [by apply save_quiet|exact HQ]. Qed.
Lemma launch_tolerate {A} (p : SM StartCall Config.CliConfig Halt A) c Q :
  (forall Q', (forall c' r, Q' c' r) -> lh p c Q') -> (forall c' r, Q c' r) -> lh (tolerate p) c Q.
Proof.
  intros Hp HQ. unfold tolerate. sm_step. apply hoare_attempt, Hp. intros c' [x|[]]; cbv beta iota; sm_step; apply HQ.
Qed.
Lemma launch_root c Q : (forall r, Q c r) -> lh require_root_privileges c Q.
Proof. intros HQ. unfold require_root_privileges, perform, host. quietly; apply HQ. Qed.
Lemma launch_sync cl tok m p c Q : (forall r, Q c r) -> lh (sync_custom_server cl tok m p) c Q.
Proof.
  intros HQ. unfold sync_custom_server, fetch_public_ip, host.
  repeat first [progress cbv beta iota zeta | apply launch_web; intros [?|?] | sm_step | case_match]; try done; apply HQ.
Qed.

(** *** Installing *)
Lemma service_home s Q : (forall r, Q s r) -> hoare service_launch free (Service.conf Config.get_real_user_home) s Q.
Proof.
  intros HQ. eapply (hoare_zoom Service.of_conf id (fun _ m => m) Session.Failed conf_quiet free _ _ _ _ (fun _ _ => True));
    [exact conf_launch|done| |intros [] r _; apply HQ].
  unfold Config.get_real_user_home. quietly.
Qed.
Lemma service_ask {R : Set} (c : Config.ConfCall R) s Q :
  conf_quiet R c -> (forall r, Q s (Ok r)) -> hoare service_launch free (Service.conf (call c)) s Q.
Proof. intros Hc HQ. split; [by apply conf_launch|]. intros r _. apply HQ. Qed.
Lemma write_launch path content s Q :
  service_launch _ (Service.of_conf _ (Config.WriteFile path content)) -> (forall r, Q s r) ->
  hoare service_launch free (Service.write_file path content) s Q.
Proof. intros Hw HQ. split; [exact Hw|]. intros r _. destruct r; apply HQ. Qed.

Ltac installing := repeat first
  [ progress cbv beta iota zeta | progress unfold Service.run_ignored, Service.output, Service.try_host, Service.kill_daemons, Service.required
  | apply service_home; intros [?|?] | apply service_ask; [done|intros ?] | sm_step | case_match ]; try done.

Lemma stop_running_launch s Q : (forall r, Q s r) -> hoare service_launch free Service.stop_running s Q.
Proof. intros HQ. unfold Service.stop_running, Service.is_omniedge_daemon_running. installing; apply HQ. Qed.
Lemma unit_launch content s Q :
  service_launch _ (Service.of_conf _ (Config.WriteFile Service.UNIT_TMP content)) -> (forall r, Q s r) ->
  hoare service_launch free (Service.install_unit content) s Q.
Proof.
  intros Hw HQ. unfold Service.install_unit. sm_step. apply write_launch; [exact Hw|]. intros [?|?]; installing; apply HQ.
Qed.
Lemma daemon_launch exe d log s Q : vetted d -> (forall r, Q s r) -> hoare service_launch free (Service.start_daemon exe d log) s Q.
Proof. intros Hd HQ. unfold Service.start_daemon. sm_step. sm_step; [by exists d|]. installing; apply HQ. Qed.

Lemma setup_launch d s Q :
  vetted d -> (forall r, Q s r) -> hoare service_launch free (Service.setup_and_start_service linux d) s Q.
Proof.
  intros Hd HQ. unfold Service.setup_and_start_service, Service.setup_linux_service, Service.setup_macos_service.
  case_match; (sm_step; apply stop_running_launch; intros [u|e]; [|apply HQ]); installing;
    first [apply HQ | by apply daemon_launch | apply unit_launch; [intros _; left; by eexists _, _, d|exact HQ]].
Qed.
Lemma nucleus_launch s Q :
  vetted_nucleus -> (forall r, Q s r) ->
  hoare service_launch free (Service.setup_and_start_nucleus_service linux (port a) (default "" (secret a))) s Q.
Proof.
  intros Hv HQ. unfold Service.setup_and_start_nucleus_service, Service.setup_linux_nucleus_service, Service.setup_macos_nucleus_service.
  case_match; (sm_step; apply stop_running_launch; intros [u|e]; [|apply HQ]).
  - installing; first [apply HQ | apply unit_launch; [intros _; right; by eexists _, _|exact HQ]].
  - installing; first [apply HQ | apply write_launch; [done|intros [?|?]; installing; apply HQ]].
Qed.

(** *** The start itself *)
Ltac starting := repeat first
  [ progress cbv beta iota zeta | apply launch_web; intros [?|?] | apply launch_save; intros [?|?] | apply launch_root; intros [?|?]
  | apply launch_tolerate; [intros ? ?; first [by apply launch_web | by apply launch_sync
      | apply launch_quiet; [by apply hardware_quiet|done]]|intros ? [?|?]]
  | sm_step | case_match ]; try done.

(** What the checks of the arguments establish. *)
Definition mode_ok : Prop :=
  match run_mode a with
  | Service.NucleusOnly => forall s, secret a = Some s -> (16 <= String.length s)%nat
  | _ => forall n, arg_network a = Some n -> network_id_ok n = true
  end.
Lemma launch_check_mode c Q : (mode_ok -> Q c (Ok tt)) -> (forall e, Q c (Err e)) -> lh (check_mode a) c Q.
Proof.
  unfold check_mode, mode_ok, exit. intros Ho He. destruct (run_mode a).
  1, 3: destruct (arg_network a) as [n|]; [|apply hoare_ret, Ho; by intros];
    destruct (network_id_ok n) eqn:E; [apply hoare_ret, Ho; by intros ? [= <-]|apply hoare_throw, He].
  destruct (secret a) as [s|]; [|apply hoare_ret, Ho; by intros].
  destruct (_ <? _)%nat eqn:E; [apply hoare_throw, He|]. apply hoare_ret, Ho. intros ? [= <-]. by apply Nat.ltb_ge.
Qed.
Lemma launch_check_address parse o c Q :
  ((forall s, o = Some s -> is_Some (parse s)) -> Q c (Ok tt)) -> (forall e, Q c (Err e)) -> lh (check_address parse o) c Q.
Proof.
  intros Ho He. unfold check_address, exit. destruct o as [s|]; [|sm_step; apply Ho; by intros ? [=]].
  case_bool_decide as Hp; sm_step; [|apply He]. apply Ho. by intros ? [= <-].
Qed.

Lemma launch_nucleus c Q : vetted_nucleus -> (forall c' r, Q c' r) -> lh (start_nucleus linux base_url a) c Q.
Proof.
  intros Hv HQ. unfold start_nucleus. starting; try apply HQ.
  all: apply launch_service; [by apply nucleus_launch|intros; apply HQ].
Qed.

Lemma launch_ensure_login fuel c Q : (forall c' r, Q c' r) -> lh (ensure_login base_url fuel a) c Q.
Proof.
  intros HQ. unfold ensure_login. case_match.
  - sm_step. apply launch_login; [intros; by apply key_quiet|]. intros c' [x|e]; cbv beta iota; [sm_step|]; apply HQ.
  - apply launch_login; [intros; by apply ensure_auth_quiet|exact HQ].
Qed.
Lemma launch_identity c Q : (forall c' r, Q c' r) -> lh (ensure_identity hex_decode base_url) c Q.
Proof.
  intros HQ. unfold ensure_identity. sm_step. sm_step. cbv beta iota. sm_step. apply launch_quiet; [by apply manager_quiet|].
  intros [m|e]; [|apply HQ]. starting; apply HQ.
Qed.
Lemma launch_device cl c Q : (forall c' r, Q c' r) -> lh (ensure_device hex_decode cl) c Q.
Proof. intros HQ. unfold ensure_device, host, perform. starting; apply HQ. Qed.
Lemma launch_choose cl c Q :
  (forall vn, (forall n, arg_network a = Some n -> vn = n) -> Q c (Ok vn)) -> (forall e, Q c (Err e)) ->
  lh (choose_network cl a) c Q.
Proof.
  intros Ho He. unfold choose_network, exit. destruct (arg_network a) as [n|]; [sm_step; apply Ho; by intros ? [= ->]|].
  starting; first [apply He|apply Ho]; by intros.
Qed.

Lemma launch_connect fuel c Q :
  (forall vn, (forall n, arg_network a = Some n -> vn = n) -> vetted (daemon_spec a vn (remember a c))) ->
  (forall c' r, Q c' r) -> lh (connect hex_decode linux base_url fuel a) c Q.
Proof.
  intros Hv HQ. unfold connect. sm_step. sm_step. cbv beta iota. sm_step. sm_step. cbv beta iota.
  sm_step. apply launch_save. intros [u|e]; [|apply HQ]. cbv beta iota.
  sm_step. apply launch_root. intros [u'|e]; [|apply HQ]. cbv beta iota.
  sm_step. apply launch_ensure_login. intros c1 [[auth|]|e]; [|sm_step; apply HQ|apply HQ]. cbv beta iota zeta.
  sm_step. apply launch_identity. intros c2 [u1|e]; [|apply HQ]. cbv beta iota.
  sm_step. apply launch_device. intros c3 [u2|e]; [|apply HQ]. cbv beta iota.
  sm_step. apply launch_choose; [intros vn Hvn|intros e; apply HQ]. cbv beta iota.
  sm_step. apply launch_tolerate; [intros; by apply launch_sync|]. intros c4 [u3|e]; [|apply HQ]. cbv beta iota.
  sm_step. apply launch_service; [apply setup_launch; [by apply Hv|done]|]. intros [u4|e]; [|apply HQ]. cbv beta iota.
  sm_step. apply HQ.
Qed.

Lemma remember_vetted net vn :
  run_mode a <> Service.NucleusOnly -> mode_ok -> (forall s, exit_node a = Some s -> is_Some (parse_ipv4 s)) ->
  (forall s, exit_node_v6 a = Some s -> is_Some (parse_ipv6 s)) -> (forall n, arg_network a = Some n -> vn = n) ->
  vetted (daemon_spec a vn (remember a (set_net net c0))).
Proof.
  intros Hr Hm H4 H6 Hn. unfold vetted, daemon_spec, remember, mode_ok in *. cbn. split_and!; try done.
  - intros n Ha. split; [by apply Hn|]. destruct (run_mode a); by auto.
  - destruct (exit_node a) as [ip|]; [|done]. split; [done|]. by apply H4.
  - destruct (exit_node_v6 a) as [ip|]; [|done]. split; [done|]. by apply H6.
  - by destruct (as_exit_node a), (no_exit_node a).
Qed.

End Launch.

(** ** Settings and scans *)

Section Settings.
Context `{Config.ConfigCodec} (linux : bool).

Definition valid_net (n : Config.NetworkConfig) : Prop := Config.validate_network linux n = Ok tt.
(** Every configuration that is written has valid settings. *)
Definition writes_valid (R : Set) (c : StartCall R) : Prop :=
  match c with inr (inr (inl (inr c))) => Session.writes (fun c => valid_net (Config.network_config c)) R c | _ => True end.

Lemma relay_valid a n n' : valid_net n -> relay_action a n = Some n' -> valid_net n'.
Proof.
  unfold valid_net, relay_action, Config.validate_network. intros Hn.
  destruct (is_on _); [intros [= <-]; exact Hn|]. destruct (is_off _); [intros [= <-]; exact Hn|].
  destruct (String.eqb _ _); [done|]. destruct (contains a ":") eqn:Ea; [|done]. intros [= <-].
  cbn in *. rewrite Ea. destruct (_ >? 1000); [done|]. destruct (_ >? 2000); [done|].
  destruct (Config.relay_server n) as [s|]; [|exact Hn]. destruct (contains s ":"); [exact Hn|discriminate Hn].
Qed.
Lemma flags_valid p e i f n : valid_net n -> valid_net (with_flags p e i f n).
Proof. exact id. Qed.
Lemma mode_valid m n : m <> Config.Kernel \/ linux = true -> valid_net n -> valid_net (set_wireguard m n).
Proof.
  unfold valid_net, Config.validate_network. cbn. intros Hm. destruct (_ >? 1000); [done|]. destruct (_ >? 2000); [done|].
  destruct (match Config.relay_server n with Some _ => _ | None => _ end); [done|].
  destruct linux; [done|]. cbn. destruct Hm as [Hm|Hm]; [|done]. intros _. by destruct m.
Qed.
Lemma wireguard_valid a n n' : valid_net n -> wireguard_action linux a n = Some n' -> valid_net n'.
Proof.
  intros Hn. pose proof (fun m Hm => mode_valid m n Hm Hn) as Hset. clear Hn. unfold wireguard_action.
  repeat case_match; intros; simplify_eq; apply Hset; by auto.
Qed.

Lemma save_valid c (Q : Config.CliConfig -> result Halt unit -> Prop) :
  valid_net (Config.network_config c) -> Q c (Ok tt) -> (forall e, Q c (Err (Failed e))) -> hoare writes_valid free save c Q.
Proof.
  intros Hv Ho He. unfold save. sm_step. sm_step. cbv beta iota.
  eapply (hoare_zoom of_conf (fun _ => tt) (fun _ c => c) Failed (Session.writes (fun c => valid_net (Config.network_config c))) free);
    [done|done|by apply (Session.save_writes _ c _ (fun _ _ => True))|]. intros [] [[]|e] _; [exact Ho|apply He].
Qed.

(** No command on the settings of the network makes valid settings invalid, in memory
    or in the file; it changes nothing else, and when it refuses its argument it
    changes nothing at all. *)
Theorem config_command_keeps_valid cmd c :
  valid_net (Config.network_config c) ->
  hoare writes_valid free (handle_config_command linux cmd) c (fun c' r =>
    valid_net (Config.network_config c') /\ set_net (Config.network_config c) c' = c /\
    (r = Err (Exited INVALID_INPUT) -> c' = c)).
Proof.
  intros Hv. assert (Hself : forall n, set_net (Config.network_config c) (set_net n c) = c) by (intros n; by destruct c).
  assert (Happly : forall f : Config.NetworkConfig -> option Config.NetworkConfig,
    (forall n', f (Config.network_config c) = Some n' -> valid_net n') ->
    hoare writes_valid free (c ← gets id; match f (Config.network_config c) with Some n => _ ← modify (set_net n); save
                                          | None => exit INVALID_INPUT end) c (fun c' r =>
      valid_net (Config.network_config c') /\ set_net (Config.network_config c) c' = c /\ (r = Err (Exited INVALID_INPUT) -> c' = c))).
  { intros f Hf. sm_step. sm_step. cbv beta iota. unfold exit. change (id c) with c.
    destruct (f (Config.network_config c)) as [n|] eqn:E; [|sm_step; split; [done|]; split; [by destruct c|done]].
    sm_step. sm_step. cbv beta iota. apply save_valid; [by apply Hf|split_and!; [by apply Hf|apply Hself|done]|intros e; split_and!; [by apply Hf|apply Hself|done]]. }
  destruct cmd as [|v|v|v|v|v|]; unfold handle_config_command; cbv zeta.
  - sm_step. split; [done|]. split; [by destruct c|done].
  - apply (Happly (relay_action v)). intros n'. by apply relay_valid.
  - apply (Happly (portmap_action v)). intros n'. unfold portmap_action. repeat case_match; intros; simplify_eq; exact Hv.
  - apply (Happly (ipv6_action v)). intros n'. unfold ipv6_action. repeat case_match; intros; simplify_eq; exact Hv.
  - apply (Happly (encrypt_action v)). intros n'. unfold encrypt_action. repeat case_match; intros; simplify_eq; exact Hv.
  - apply (Happly (wireguard_action linux v)). intros n'. by apply wireguard_valid.
  - apply (Happly (fun _ => Some Config.NetworkConfig_default)). intros n' [= <-]. unfold valid_net. by destruct linux.
Qed.
End Settings.

(** The only call is for a runtime. *)
Definition runtime_only (R : Set) (c : StartCall R) : Prop := match c with inl (inl RuntimeNew) => True | _ => False end.

(** A scan probes no address and writes nothing: it panics once it has a
    runtime, inside that of main, and else refuses its arguments. *)
Theorem scan_never_scans `{Api.ApiJson, Config.ConfigCodec} base_url parse_cidr cidr timeout c :
  hoare runtime_only free (scan base_url parse_cidr cidr timeout) c (fun c' r =>
    c' = c /\ (r = Err (Panicked NESTED) \/ r = Err (Exited INVALID_INPUT))).
Proof.
  unfold scan, run_native_scan, tolerate, perform, exit, block_on. sm_step; [sm_step; by auto|].
  sm_step. sm_step. apply hoare_attempt. sm_step. destruct (parse_cidr cidr) as [network|e]; sm_step; [|sm_step; sm_step; by auto].
  sm_step. sm_step; [done|]. cbv beta iota. case_match; sm_step; sm_step; [sm_step|]; by auto.
Qed.

Module Demo.
#[local] Existing Instance Links.toy_endpoints.
#[local] Existing Instance Links.toy_disco.

Definition args : StartArgs := {|
  run_mode := Service.Dual; transport := Service.L3; arg_network := Some "net-1"; daemon := false; as_exit_node := false;
  no_exit_node := false; exit_node := Some "10.0.0.9"; exit_node_v6 := None; port := 51820; secret := None;
  security_key := None; wireguard := Config.Auto; verbose := false |}.
Definition config : Config.CliConfig := {|
  Config.auth_file_default_path := Config.auth_file_default_path Config.Demo.config;
  Config.scan_result_default_path := Config.scan_result_default_path Config.Demo.config;
  Config.auth_response := Some {|
    Api.token := "t"; Api.refresh_token := ""; Api.access_token := "t"; Api.id_token := ""; Api.expires_in := 3600;
    Api.email := None; Api.user_id := None |}; Config.token_obtained_at := Some 1700000000;
  Config.device_uuid := Some "dev"; Config.device_name := Some "host"; Config.last_join_info := None;
  Config.last_network_id := None; Config.scan_ip := None;
  Config.scan_mac := None; Config.scan_mask := None;
  Config.scan_results := None; Config.identity_private_key := Some "k";
  Config.is_exit_node := true; Config.exit_node_ip := None; Config.exit_node_ip_v6 := None; Config.last_run_mode := None;
  Config.nucleus_port := None; Config.has_cluster_secret := false; Config.network_config := Config.NetworkConfig_default;
  Config.ssh_config := Config.ssh_config Config.Demo.config |}.

Definition answers (R : Set) (c : StartCall R) : R :=
  match c with
  | inl (inl c) =>
      match c in TermCall R return R with
      | IsRoot => true | ProgramArgs => [] | ExecSudo _ _ => None | Platform => "linux" | LocalIp => Err "" | Masks => Err ""
      | MacAddress => None | Connect _ => false | RuntimeNew => None
      end
  | inl (inr c) => Login.Demo.terminal R c
  | inr c => Service.Demo.answers R c
  end.
Definition run : SM StartCall Config.CliConfig Halt (option unit) :=
  start Session.Demo.relay_new (fun _ => "") (fun _ => None) true false "https://a" 3 args.

(** The run on the system above writes a unit, which is vetted as all it
    launches. *)
Definition unit_written : Call StartCall :=
  existT _ (of_service _ (Service.of_conf _ (Config.WriteFile Service.UNIT_TMP
    (Service.unit_text "OmniEdge Service"
       (Service.exec_start "/bin/omniedge" (daemon_spec args "net-1" (remember args config))) "Environment=RUST_LOG=info")))).

Lemma config_command_keeps_valid_witness :
  hoare (writes_valid true) (fun _ _ _ => True) (handle_config_command true (Relay "r.example.com:3478")) config (fun c' r =>
    valid_net true (Config.network_config c') /\ set_net (Config.network_config config) c' = config /\
    (r = Err (Exited INVALID_INPUT) -> c' = config)).
Proof. apply config_command_keeps_valid. reflexivity. Defined.

(** The daemon of an edge, which pgrep lists: with the interface of an earlier
    run still there it takes itself for a running one and ends. *)
Definition leftover (R : Set) (c : StartCall R) : R :=
  match c with
  | inr (inl (inl c)) =>
      match c in Service.HostCall R return R -> R with
      | Service.Interfaces => fun _ => Some [{| Service.if_name := "omniedge0"; Service.if_addr := [V4 167772162] |}]
      | _ => fun r => r
      end (Service.Demo.answers R (inl (inl c)))
  | c => answers R c
  end.
Definition as_daemon : StartArgs := {|
  run_mode := Service.Edge; transport := Service.L3; arg_network := Some "net-1"; daemon := true; as_exit_node := false;
  no_exit_node := false; exit_node := None; exit_node_v6 := None; port := 51820; secret := None;
  security_key := None; wireguard := Config.Auto; verbose := false |}.
Example daemon_sees_itself :
  returns leftover (start Session.Demo.relay_new (fun _ => "") (fun _ => None) true false "https://a" 3 as_daemon) config =
  Err (Exited SUCCESS).
Proof. vm_compute. reflexivity. Qed.
End Demo.
