(* ===== verification/Helper.v ===== *)
(** * The privileged helper (omni-helper/src/lib.rs and main.rs)

    The service that runs as root and connects the VPN for the users of the
    machine: the requests of its socket, the tasks they start, and the
    connections they come over.  The manager behind it is that of Session.v.
    A request that reads a handle of the manager without its lock gets any
    value as the reply, since a task may be at work; the lock makes every use
    of the manager one step. *)

From Stdlib Require Import Ascii.
From S2P Require Import Prelude RustStr Net Effects.
From S2P Require Api Config Routing Peers Dispatcher Session.

Open Scope string_scope.
Open Scope list_scope.
Open Scope Z_scope.

(** ** Requests and responses *)

Record StartArgs : Set := {
  token : string; network_id : string; device_id : string; hardware_id : string; as_exit_node : bool;
  nucleus : bool; exit_node_ip : option string; exit_node_ip_v6 : option string }.

(** The values that [json!] makes. *)
Inductive Data : Set :=
| VersionInfo (version protocol : string)
| StatusInfo (state : Session.ConnectionState) (network_id virtual_ip virtual_ip_v6 : option string)
| Flag (b : bool)
| Text (s : string).
Record HelperResponse : Set := { success : bool; message : string; data : option Data }.
Record HelperRequest (Value : Set) : Set := { command : string; args : Value }.
Arguments command {Value} _.
Arguments args {Value} _.

(** What serde_json makes of them: [enabled_flag] is [args["enabled"].as_bool()]. *)
Class HelperJson : Type := {
  Value : Set;
  from_slice : list Z -> result string (HelperRequest Value);
  from_value : Value -> result string StartArgs;
  enabled_flag : Value -> option bool;
  to_vec : HelperResponse -> result string (list Z) }.

(** ** The world *)

(** The handles the server keeps, read without the lock of the manager;
    [SpawnConnect]: a task that connects. *)
Inductive HandleCall : Set -> Set :=
| ReadState : HandleCall Session.ConnectionState
| ReadNetworkId : HandleCall (option string)
| ReadVirtualIp : HandleCall (option string)
| ReadVirtualIpV6 : HandleCall (option string)
| LoadExitNode : HandleCall bool
| SpawnConnect (a : StartArgs) : HandleCall unit.

Definition HelperCall (R : Set) : Set := (HandleCall R + Session.SessionCall R)%type.
Definition handle {R : Set} (c : HandleCall R) : HelperCall R := inl c.
Definition of_session (R : Set) (c : Session.SessionCall R) : HelperCall R := inr c.

Section Helper.
Context `{Api.ApiJson, Config.ConfigCodec, Peers.EndpointSets, Dispatcher.Disco, HelperJson}.
Context (relay_client_new : list Z -> Z -> SocketAddr -> Dispatcher.RelayClient) (debug_args : list string -> string).
(** The version, and the [Debug] text of a string. *)
Context (linux : bool) (VERSION : string) (quoted : string -> string).

(** The state is the manager behind the lock. *)
Abbreviation HM := (SM HelperCall Session.ConnectionManager Session.Fault) (only parsing).
Definition ask {R : Set} (c : HandleCall R) : HM R := call (handle c).
(** An operation under the lock; a panic is the task's. *)
Definition locked {A} (p : SM Session.SessionCall Session.ConnectionManager Session.Fault A) : HM (result string A) :=
  r ← attempt (zoom of_session Datatypes.id (fun m _ => m) Datatypes.id p);
  match r with
  | Ok a => mret (Ok a)
  | Err (Session.Failed e) => mret (Err e)
  | Err (Session.Panicked x) => throw (Session.Panicked x)
  end.

(** [{:?}]. *)
Definition show_state (s : Session.ConnectionState) : string :=
  match s with
  | Session.Disconnected => "Disconnected" | Session.Authenticating => "Authenticating"
  | Session.Authenticated => "Authenticated" | Session.Joining => "Joining" | Session.Joined => "Joined"
  | Session.Connecting => "Connecting" | Session.Connected => "Connected" | Session.Reconnecting => "Reconnecting"
  | Session.Stopping => "Stopping" | Session.Error e => "Error(" +:+ quoted e +:+ ")"
  end.

Definition reply (ok : bool) (msg : string) (d : option Data) : HelperResponse :=
  {| success := ok; message := msg; data := d |}.

Definition status : HM HelperResponse :=
  state ← ask ReadState;
  network ← ask ReadNetworkId;
  vip ← ask ReadVirtualIp;
  vip6 ← ask ReadVirtualIpV6;
  mret (reply true (show_state state) (Some (StatusInfo state network vip vip6))).

(** The check and the task are apart: between them the state may change. *)
Definition start_vpn (v : Value) : HM HelperResponse :=
  match from_value v with
  | Err e => mret (reply false ("Invalid start args: " +:+ e) None)
  | Ok a =>
      current ← ask ReadState;
      match current with
      | Session.Connected => mret (reply true "Already connected" None)
      | Session.Connecting => mret (reply true "Connection already in progress" None)
      | _ => _ ← ask (SpawnConnect a); mret (reply true "VPN connection initiated" None)
      end
  end.

(** The task: what it was told is only logged. *)
Definition connect_task (a : StartArgs) : HM unit :=
  _ ← locked (Session.connect_with_token relay_client_new debug_args linux (token a) (network_id a) (device_id a)
                (hardware_id a) (nucleus a) (as_exit_node a) (exit_node_ip a) (exit_node_ip_v6 a));
  mret tt.

Definition show_bool (b : bool) : string := if b then "true" else "false".
Definition set_as_exit_node (v : Value) : HM HelperResponse :=
  let enabled := default false (enabled_flag v) in
  r ← locked (Session.set_as_exit_node enabled);
  mret (match r with
        | Ok _ => reply true ("Exit node status updated to: " +:+ show_bool enabled) None
        | Err e => reply false ("Failed to update exit node status: " +:+ e) None
        end).

(** Any user may; an error is dropped. *)
Definition stop_vpn : HM HelperResponse :=
  _ ← locked (Session.disconnect debug_args linux);
  mret (reply true "VPN stopped" None).

Definition handle_request (req : HelperRequest Value) : HM HelperResponse :=
  let named c := bool_decide (command req = c) in
  if named "ping" then mret (reply true "pong" None)
  else if named "version" then mret (reply true "omniedge-helper" (Some (VersionInfo VERSION "rust-v2")))
  else if named "status" then status
  else if named "start_vpn" then start_vpn (args req)
  else if named "set_as_exit_node" then set_as_exit_node (args req)
  else if named "is_exit_node" then b ← ask LoadExitNode; mret (reply true "Current exit node status" (Some (Flag b)))
  else if named "get_virtual_ip" then
    vip ← ask ReadVirtualIp; mret (reply true "Current virtual IP" (Some (Text (default "" vip))))
  else if named "get_virtual_ip_v6" then
    vip ← ask ReadVirtualIpV6; mret (reply true "Current IPv6 virtual IP" (Some (Text (default "" vip))))
  else if named "stop_vpn" then stop_vpn
  else mret (reply false "Unknown command" None).

(** ** The server and its tasks

    A task waits for the lock of the manager; the order in which waiting tasks
    and requests get it is free. *)

Record Server : Type := { manager : Session.ConnectionManager; waiting : list StartArgs }.
Inductive Event : Set :=
| Answered (req : HelperRequest Value) (resp : HelperResponse)
| Finished (a : StartArgs)
| Panic (a : option StartArgs).

Definition spawns (c : Call HelperCall) : option StartArgs :=
  match c with existT _ (inl (SpawnConnect a)) => Some a | _ => None end.

Inductive step (s : Server) : Event -> Server -> Prop :=
| step_request {W} (sys : forall R : Set, HelperCall R -> W -> R * W) w req m' resp w' log :
    run_prog (traced sys) (handle_request req (manager s)) (w, []) = ((m', Ok resp), (w', log)) ->
    step s (Answered req resp) {| manager := m'; waiting := waiting s ++ omap spawns log |}
| step_request_panics {W} (sys : forall R : Set, HelperCall R -> W -> R * W) w req m' e wl :
    run_prog (traced sys) (handle_request req (manager s)) (w, []) = ((m', Err e), wl) ->
    step s (Panic None) {| manager := m'; waiting := waiting s |}
| step_task {W} (sys : forall R : Set, HelperCall R -> W -> R * W) w before a after m' r wl :
    waiting s = before ++ a :: after ->
    run_prog (traced sys) (connect_task a (manager s)) (w, []) = ((m', r), wl) ->
    step s (match r with Ok _ => Finished a | Err _ => Panic (Some a) end) {| manager := m'; waiting := before ++ after |}.

Inductive runs (s : Server) : list Event -> Server -> Prop :=
| runs_start : runs s [] s
| runs_on tr s' e s'' : runs s tr s' -> step s' e s'' -> runs s (tr ++ [e]) s''.

(** [HelperServer::new], with the keys the manager makes. *)
Definition new_server (base_url : string) (public private : list Z) (loaded : result string Config.CliConfig) : Server :=
  {| manager := Session.new base_url public private loaded; waiting := [] |}.

(** ** A connection *)

Inductive ReadResult : Set := Bytes (l : list Z) | ReadError (e : string) | ReadTimeout.
(** One read of at most [MAX_MESSAGE_SIZE] bytes, within the time. *)
Inductive SocketCall : Set -> Set :=
| ReadOnce : SocketCall ReadResult
| WriteAll (bytes : list Z) : SocketCall (result string unit).
Definition ConnCall (R : Set) : Set := (SocketCall R + HelperCall R)%type.
Definition of_helper (R : Set) (c : HelperCall R) : ConnCall R := inr c.
Abbreviation NM := (SM ConnCall Session.ConnectionManager Session.Fault) (only parsing).
Definition socket {R : Set} (c : SocketCall R) : NM R := call (inl c : ConnCall R).

Definition MAX_MESSAGE_SIZE : Z := 16 * 1024.
Definition quote : ascii := "034".
Definition backslash : ascii := "092".
Definition newline : ascii := "010".
Definition return_ : ascii := "013".

(** The message within the quotes of JSON. *)
Definition escape_char (c : ascii) : string :=
  if bool_decide (c = quote) then String backslash (String quote "")
  else if bool_decide (c = backslash) then String backslash (String backslash "")
  else if bool_decide (c = newline) then String backslash "n"
  else if bool_decide (c = return_) then String backslash "r"
  else String c "".
Fixpoint escape (s : string) : string := match s with EmptyString => "" | String c s => escape_char c +:+ escape s end.

Definition qt : string := String quote "".
Definition error_json (msg : string) : string :=
  "{" +:+ qt +:+ "success" +:+ qt +:+ ":false," +:+ qt +:+ "message" +:+ qt +:+ ":" +:+ qt +:+ escape msg +:+ qt +:+ "," +:+
  qt +:+ "data" +:+ qt +:+ ":null}".

Definition send_error_response (msg : string) : NM (result string unit) := socket (WriteAll (string_bytes (error_json msg))).

Definition handle_connection : NM unit :=
  got ← socket ReadOnce;
  match got with
  | ReadError _ | ReadTimeout | Bytes [] => mret tt
  | Bytes buf =>
      if Z.of_nat (length buf) =? MAX_MESSAGE_SIZE then _ ← send_error_response "Request too large"; mret tt
      else
        match from_slice buf with
        | Err _ => _ ← send_error_response "Invalid request format"; mret tt
        | Ok req =>
            resp ← zoom of_helper Datatypes.id (fun m _ => m) Datatypes.id (handle_request req);
            _ ← socket (WriteAll (match to_vec resp with
                                  | Ok bytes => bytes
                                  | Err _ => string_bytes (error_json "Internal error")
                                  end));
            mret tt
        end
  end.

(** ** Listening (unix) *)

Inductive Incoming : Set := Accepted (socket : Z) | AcceptError (e : string) | Shutdown.
(** [Metadata]: whether the metadata of a path can be read. *)
Inductive ListenCall : Set -> Set :=
| Exists (path : string) : ListenCall bool
| RemoveFile (path : string) : ListenCall (result string unit)
| BindUnix (path : string) : ListenCall (result string unit)
| Metadata (path : string) : ListenCall bool
| SetPermissions (path : string) (mode : Z) : ListenCall (result string unit)
| NextIncoming : ListenCall Incoming
| SpawnConnection (socket : Z) : ListenCall unit.
Definition SOCKET_PATH : string := "/var/run/omniedge-helper.sock".

(** [false]: the fuel is spent before the shutdown. *)
Fixpoint accept_loop (fuel : nat) : SM ListenCall unit string bool :=
  match fuel with
  | O => mret false
  | S fuel =>
      e ← call NextIncoming;
      match e with
      | Accepted socket => _ ← call (SpawnConnection socket); accept_loop fuel
      | AcceptError _ => accept_loop fuel
      | Shutdown => mret true
      end
  end.
Definition run_helper_server (fuel : nat) : SM ListenCall unit string bool :=
  there ← call (Exists SOCKET_PATH);
  _ ← (if there : bool then _ ← call (RemoveFile SOCKET_PATH); mret tt else mret tt);
  bound ← call (BindUnix SOCKET_PATH);
  _ ← lift bound;
  known ← call (Metadata SOCKET_PATH);
  _ ← (if known : bool then _ ← call (SetPermissions SOCKET_PATH 438); mret tt else mret tt);
  accept_loop fuel.
End Helper.

(** ** What requests do *)

Abbreviation free := (fun (R : Set) _ (_ : R) => True) (only parsing).

(** What is required of the calls of a run holds of those it logs. *)
Lemma run_traced {E : Set -> Set} {S X A W} (sys : forall R : Set, E R -> W -> R * W) P (p : SM E S X A) s Q w s' r w' log :
  hoare P free p s Q -> run_prog (traced sys) (p s) (w, []) = ((s', r), (w', log)) ->
  Q s' r /\ Forall (fun c => P (projT1 c) (projT2 c)) log.
Proof.
  intros Hp Hr.
  pose proof (wp_run P free (traced sys) (fun wl => Forall (fun c => P (projT1 c) (projT2 c)) wl.2) (p s)
    (fun sr => Q sr.1 sr.2) (w, [])) as Hw.
  rewrite Hr in Hw. refine (Hw _ Hp _); [|by constructor].
  intros R c [w0 l] Hl Hc. split; [done|]. unfold traced. cbn in *. destruct (sys R c w0) as [x w1]. cbn.
  apply Forall_app. by split; [|constructor].
Qed.

Section HelperTheorems.
Context `{Api.ApiJson, Config.ConfigCodec, Peers.EndpointSets, Dispatcher.Disco, HelperJson}.
Context (relay_client_new : list Z -> Z -> SocketAddr -> Dispatcher.RelayClient) (debug_args : list string -> string).
Context (linux : bool) (VERSION : string) (quoted : string -> string).
Abbreviation serve := (handle_request debug_args linux VERSION quoted).
Abbreviation task := (connect_task relay_client_new debug_args linux).
Abbreviation Manager := Session.ConnectionManager.

Definition COMMANDS : list string :=
  ["ping"; "version"; "status"; "start_vpn"; "set_as_exit_node"; "is_exit_node"; "get_virtual_ip"; "get_virtual_ip_v6"; "stop_vpn"].
(** The requests that use the manager. *)
Definition operates (c : string) : Prop := c = "set_as_exit_node" \/ c = "stop_vpn".
Definition permitted (req : HelperRequest Value) (R : Set) (c : HelperCall R) : Prop :=
  match c with
  | inl (SpawnConnect a) => command req = "start_vpn" /\ from_value (args req) = Ok a
  | inl _ => True
  | inr _ => operates (command req)
  end.

Lemma hoare_locked P {A} (p : SM Session.SessionCall Manager Session.Fault A) m Q :
  (forall (R : Set) (c : Session.SessionCall R), P R (of_session R c)) ->
  hoare (fun _ _ => True) free p m (fun m' r =>
    match r with
    | Ok a => Q m' (Ok (Ok a)) | Err (Session.Failed e) => Q m' (Ok (Err e))
    | Err (Session.Panicked x) => Q m' (Err (Session.Panicked x))
    end) ->
  hoare P free (locked p) m Q.
Proof.
  intros HP Hp. unfold locked. sm_step. apply hoare_attempt.
  eapply (hoare_zoom of_session Datatypes.id (fun m _ => m) Datatypes.id (fun _ _ => True) free); [by intros; apply HP|done|exact Hp|].
  intros m' [a|[e|x]] HQ; done.
Qed.

(** The settings of an exit node never fail and touch no connection. *)
Lemma set_as_exit_spec b m :
  hoare (fun _ _ => True) free (Session.set_as_exit_node b) m (fun m' r =>
    r = Ok tt /\ Session.state m' = Session.state m /\ Session.conn m' = Session.conn m).
Proof.
  unfold Session.set_as_exit_node. sm_step. sm_step. cbv beta iota. sm_step.
  apply Session.hoare_tolerate, Session.hoare_part; intros; cbv beta iota.
  all: sm_step; repeat first [apply Session.hoare_tolerate, Session.hoare_part; intros; cbv beta iota | sm_step | case_match; cbv beta iota]; by split_and!.
Qed.

(** What the answer and the manager are after a request. *)
Definition outcome (req : HelperRequest Value) (m m' : Manager) (r : result Session.Fault HelperResponse) : Prop :=
  match r with
  | Err _ => False
  | Ok resp =>
      (success resp = false <->
        command req ∉ COMMANDS \/ command req = "start_vpn" /\ exists e, from_value (args req) = Err e) /\
      (command req = "stop_vpn" -> Session.left_behind m m') /\
      (command req <> "stop_vpn" -> Session.state m' = Session.state m /\ Session.conn m' = Session.conn m) /\
      (~ operates (command req) -> m' = m)
  end.

Lemma outcome_quiet req m resp :
  command req ∈ COMMANDS -> command req <> "start_vpn" -> command req <> "stop_vpn" -> success resp = true ->
  outcome req m m (Ok resp).
Proof. intros Hc Hs Hn Hr. unfold outcome. rewrite Hr. split_and!; try done. split; [done|]. by intros [?|[? _]]. Qed.

Lemma request_outcome req m : hoare (permitted req) free (serve req) m (outcome req m).
Proof.
  unfold handle_request. cbv zeta.
  case_bool_decide as E1; [sm_step; by apply outcome_quiet; rewrite ?E1; [set_solver|..]|].
  case_bool_decide as E2; [sm_step; by apply outcome_quiet; rewrite ?E2; [set_solver|..]|].
  case_bool_decide as E3.
  { unfold status, ask. repeat (sm_step; try sm_step; [done|]; cbv beta iota). sm_step. by apply outcome_quiet; rewrite ?E3; [set_solver|..]. }
  case_bool_decide as E4.
  { unfold start_vpn, ask. destruct (from_value (args req)) as [a|e] eqn:Ea.
    - sm_step. sm_step; [done|]. cbv beta iota.
      assert (Hok : forall resp, success resp = true -> outcome req m m (Ok resp)).
      { intros resp Hr. unfold outcome. rewrite Hr, Ea, E4. split_and!; try done. split; [done|].
        intros [Hc|[_ [? ?]]]; [|done]. exfalso. apply Hc. set_solver. }
      case_match; try (sm_step; by apply Hok); sm_step; sm_step; try done; cbv beta iota; sm_step; by apply Hok.
    - sm_step. unfold outcome. cbn. rewrite Ea, E4. split_and!; try done. split; [|done]. intros _. right. split; [done|by eexists]. }
  case_bool_decide as E5.
  { unfold set_as_exit_node. sm_step. apply hoare_locked; [intros; by left|].
    eapply hoare_mono; [apply set_as_exit_spec|]. intros m' r (-> & Hs & Hc). cbv beta iota. sm_step. unfold outcome. cbn. rewrite E5.
    split_and!; try done; [|by intros []; left]. split; [done|]. intros [Hn|[? _]]; [exfalso; apply Hn; set_solver|done]. }
  case_bool_decide as E6; [unfold ask; sm_step; sm_step; [done|]; cbv beta iota; sm_step; by apply outcome_quiet; rewrite ?E6; [set_solver|..]|].
  case_bool_decide as E7; [unfold ask; sm_step; sm_step; [done|]; cbv beta iota; sm_step; by apply outcome_quiet; rewrite ?E7; [set_solver|..]|].
  case_bool_decide as E8; [unfold ask; sm_step; sm_step; [done|]; cbv beta iota; sm_step; by apply outcome_quiet; rewrite ?E8; [set_solver|..]|].
  case_bool_decide as E9.
  { unfold stop_vpn. sm_step. apply hoare_locked; [intros; by right|].
    eapply hoare_mono; [apply Session.disconnect_leaves_nothing|]. intros m' r [-> Hl]. cbv beta iota. sm_step. unfold outcome. cbn. rewrite E9.
    split_and!; try done; [|by intros []; right]. split; [done|]. intros [Hn|[? _]]; [exfalso; apply Hn; set_solver|done]. }
  sm_step. unfold outcome. cbn. split_and!; try done. split; [|done]. intros _. left. set_solver.
Qed.

(** Every request is answered and none panics: with an error exactly for an unknown
    command or a start whose arguments are not read.  Only a start that was read
    starts a task, only the two operations use the manager, a stop leaves nothing
    of the connection behind, and every other request leaves it as it is. *)
Theorem requests_answered req m :
  hoare (permitted req) free (serve req) m (fun m' r => exists resp, r = Ok resp /\
    (success resp = false <->
      command req ∉ COMMANDS \/ command req = "start_vpn" /\ exists e, from_value (args req) = Err e) /\
    (command req = "stop_vpn" -> Session.left_behind m m') /\
    (command req <> "stop_vpn" -> Session.state m' = Session.state m /\ Session.conn m' = Session.conn m) /\
    (~ operates (command req) -> m' = m)).
Proof. eapply hoare_mono; [apply request_outcome|]. intros m' [resp|e] Ho; [by exists resp|done]. Qed.

(** *** The server over time *)

Abbreviation steps := (step relay_client_new debug_args linux VERSION quoted).
Abbreviation reach := (runs relay_client_new debug_args linux VERSION quoted).

(** The arguments a start was accepted with, and those of the tasks that ended. *)
Definition initiated (e : Event) : option StartArgs :=
  match e with
  | Answered req resp =>
      if bool_decide (command req = "start_vpn") && bool_decide (message resp = "VPN connection initiated")
      then match from_value (args req) with Ok a => Some a | Err _ => None end
      else None
  | _ => None
  end.
Definition ended (e : Event) : option StartArgs :=
  match e with Finished a => Some a | Panic o => o | Answered _ _ => None end.

Lemma spawned_by req m m' resp log W (sys : forall R : Set, HelperCall R -> W -> R * W) w w' :
  run_prog (traced sys) (serve req m) (w, []) = ((m', Ok resp), (w', log)) ->
  omap spawns log = option_list (initiated (Answered req resp)).
Proof.
  intros Hr. cbn. case_bool_decide as Ec; cbn.
  - revert Hr. unfold handle_request. cbv zeta. rewrite Ec. repeat rewrite bool_decide_false by done. rewrite bool_decide_true by done.
    unfold start_vpn. destruct (from_value (args req)) as [a|e].
    + unfold ask, traced. sm_unfold. cbn. destruct (sys _ (handle ReadState) w) as [st w1].
      destruct st; cbn; try (by intros [= _ <- _ <-]);
        destruct (sys _ (handle (SpawnConnect a)) w1) as [[] w2]; cbn; by intros [= _ <- _ <-].
    + cbn. intros [= _ <- _ <-]. cbn. by case_bool_decide.
  - destruct (run_traced sys _ _ _ _ _ _ _ _ _ (request_outcome req m) Hr) as [_ Hl]. clear Hr.
    induction Hl as [|[R c] l Hc Hl IH]; [done|]. cbn. destruct c as [c|c]; [|exact IH]. destruct c; try exact IH.
    by destruct Hc.
Qed.

(** Connected only by a task that ended, to its network. *)
Definition sound (tr : list Event) (m : Manager) : Prop :=
  Session.state m = Session.Connected ->
  Session.is_connected m = true /\ is_Some (Session.proto (Session.conn m)) /\
  exists a, Finished a ∈ tr /\ Session.current_network_id (Session.conn m) = Some (network_id a).
Lemma sound_keeps tr e m m' :
  Session.state m' = Session.state m -> Session.conn m' = Session.conn m -> sound tr m -> sound (tr ++ [e]) m'.
Proof.
  unfold sound, Session.is_connected. intros -> -> Hm Hs. destruct (Hm Hs) as (? & ? & a & Ha & ?). split_and!; try done.
  exists a. split; [|done]. apply elem_of_app. by left.
Qed.

Lemma task_outcome a m :
  hoare (fun _ _ => True) free (task a) m (fun m' r =>
    match r with
    | Ok _ => Session.state m' = Session.Connected -> Session.is_connected m' = true /\
        is_Some (Session.proto (Session.conn m')) /\ Session.current_network_id (Session.conn m') = Some (network_id a)
    | Err _ => True
    end).
Proof.
  unfold connect_task. sm_step. apply hoare_locked; [done|].
  apply Session.connect_rule; [|intros m' e Hs _ _ _|done]; intros; cbv beta iota; sm_step; [|by rewrite Hs].
  intros _. match goal with Hj : Session.joined _ _ _ _ |- _ => destruct Hj as (Hst & Hc & Hn & Hv & _ & [pr Hp] & _) end.
  rewrite Hp. split_and!; done.
Qed.

(** Claim C38: However requests and tasks interleave, the attempts to connect are the starts that
    were accepted, each once, some still waiting; and unless a task panicked the manager is
    connected only to the network of an attempt that ended, with tunnel and protocol. *)
Theorem helper_accounts url public private loaded tr s :
  reach (new_server url public private loaded) tr s ->
  omap initiated tr ≡ₚ omap ended tr ++ waiting s /\
  ((forall o, Panic o ∉ tr) -> sound tr (manager s)).
Proof.
  induction 1 as [|tr s e s' Hr [Hp Hs] Hstep].
  { split; [done|]. intros _ Hc. cbn in Hc. unfold Session.new in Hc. by destruct loaded. }
  rewrite !omap_app. split.
  - destruct Hstep as [W sys w req m' resp w' log Hrun|W sys w req m' x wl Hrun|W sys w l1 a l2 m' r wl Hw Hrun].
    + rewrite (spawned_by _ _ _ _ _ _ _ _ _ Hrun), Hp. cbn. rewrite app_nil_r. by rewrite <- app_assoc.
    + cbn. rewrite app_nil_r, Hp. cbn. by rewrite app_nil_r.
    + rewrite Hp, Hw. destruct r; cbn; rewrite app_nil_r, <- app_assoc; f_equiv; cbn; symmetry; apply Permutation_middle.
  - intros Hno. assert (Hs' : sound tr (manager s)) by (apply Hs; intros o Ho; apply (Hno o), elem_of_app; by left).
    destruct Hstep as [W sys w req m' resp w' log Hrun|W sys w req m' x wl Hrun|W sys w l1 a l2 m' r wl Hw Hrun]; cbn.
    + destruct (run_traced sys _ _ _ _ _ _ _ _ _ (request_outcome req (manager s)) Hrun) as [(_ & Hstop & Hcalm & _) _].
      destruct (decide (command req = "stop_vpn")) as [E|E].
      * destruct (Hstop E) as [Hd _]. intros Hc. by rewrite Hd in Hc.
      * destruct (Hcalm E). by eapply sound_keeps.
    + exfalso. apply (Hno None), elem_of_app. right. set_solver.
    + destruct wl as [w' log]. destruct (run_traced sys _ _ _ _ _ _ _ _ _ (task_outcome a (manager s)) Hrun) as [Ht _].
      destruct r as [[]|x]; [|exfalso; apply (Hno (Some a)), elem_of_app; right; set_solver].
      intros Hc. destruct (Ht Hc) as (? & ? & ?). split_and!; try done. exists a. split; [|done]. apply elem_of_app. right. set_solver.
Qed.

(** A stop does not reach the tasks that wait: what was started before it
    connects after it. *)
Theorem stop_keeps_waiting s req resp s' :
  steps s (Answered req resp) s' -> command req = "stop_vpn" ->
  waiting s' = waiting s /\ Session.left_behind (manager s) (manager s').
Proof.
  intros Hstep Hc. inversion Hstep as [W sys w req' m' resp' w' log Hrun| |W sys w l1 a l2 m' r wl Hw Hrun Heq]; [|by destruct r].
  subst. cbn. rewrite (spawned_by _ _ _ _ _ _ _ _ _ Hrun). cbn. rewrite Hc, bool_decide_false by done. cbn. rewrite app_nil_r.
  split; [done|]. destruct (run_traced sys _ _ _ _ _ _ _ _ _ (request_outcome req (manager s)) Hrun) as [(_ & Hl & _) _]. by apply Hl.
Qed.
End HelperTheorems.

(** ** The server of connections *)

(** Connections in the order they come, each in a task of its own, and errors
    between them, until the shutdown. *)
Definition incoming (R : Set) (c : ListenCall R) (evs : list Incoming) : R * list Incoming :=
  match c in ListenCall R return R * list Incoming with
  | Exists _ => (true, evs) | RemoveFile _ => (Ok tt, evs) | BindUnix _ => (Ok tt, evs) | Metadata _ => (true, evs)
  | SetPermissions _ _ => (Ok tt, evs) | NextIncoming => (default Shutdown (head evs), tail evs)
  | SpawnConnection _ => (tt, evs)
  end.
Definition spawned_sockets (c : Call ListenCall) : option Z :=
  match c with existT _ (SpawnConnection s) => Some s | _ => None end.
Definition accepted (e : Incoming) : option Z := match e with Accepted s => Some s | _ => None end.

(** The loop gives every connection before the shutdown a task, errors or not,
    and ends with the shutdown. *)
Theorem every_connection_served fuel evs log w :
  Forall (fun e => e <> Shutdown) evs -> (length evs < fuel)%nat ->
  exists log', run_prog (traced incoming) (accept_loop fuel tt) (evs ++ Shutdown :: w, log) = ((tt, Ok true), (w, log ++ log')) /\
    omap spawned_sockets log' = omap accepted evs.
Proof.
  intros Hn. revert fuel log. induction Hn as [|e evs He Hn IH]; intros [|fuel] log Hf; cbn in Hf; try lia.
  - eexists. split; [cbn; reflexivity|done].
  - destruct e as [sock|x|]; [..|done].
    + destruct (IH fuel (log ++ [existT _ NextIncoming; existT _ (SpawnConnection sock)])) as (log' & Hr & Hl); [lia|].
      exists (existT _ NextIncoming :: existT _ (SpawnConnection sock) :: log'). split; [|cbn; by rewrite Hl].
      cbn [accept_loop]. sm_unfold. cbn. rewrite <- !app_assoc in *. exact Hr.
    + destruct (IH fuel (log ++ [existT _ NextIncoming])) as (log' & Hr & Hl); [lia|].
      exists (existT _ NextIncoming :: log'). split; [|cbn; by rewrite Hl].
      cbn [accept_loop]. sm_unfold. cbn. rewrite <- !app_assoc in *. exact Hr.
Qed.

(** ** The text of an error *)

(** A reader of JSON strings, after the quote that opens one: the string and
    the text behind the quote that closes it. *)
Definition unescaped (c : ascii) : option ascii :=
  if bool_decide (c = quote) then Some quote else if bool_decide (c = backslash) then Some backslash
  else if bool_decide (c = "n"%char) then Some newline else if bool_decide (c = "r"%char) then Some return_
  else if bool_decide (c = "t"%char) then Some "009"%char else if bool_decide (c = "/"%char) then Some c else None.
Definition control (c : ascii) : bool := Z.of_N (N_of_ascii c) <? 32.
Fixpoint read_string (s : string) : option (string * string) :=
  match s with
  | EmptyString => None
  | String c s' =>
      if bool_decide (c = quote) then Some ("", s')
      else if bool_decide (c = backslash) then
        match s' with
        | String d s'' => x ← unescaped d; r ← read_string s''; Some (String x r.1, r.2)
        | EmptyString => None
        end
      else if control c then None
      else r ← read_string s'; Some (String c r.1, r.2)
  end.

Fixpoint printable (s : string) : bool :=
  match s with
  | EmptyString => true
  | String c s => (negb (control c) || bool_decide (c = newline) || bool_decide (c = return_)) && printable s
  end.

(** The message of an error is read back whole from the response sent for it,
    unless it has control characters other than the two ends of a line: the
    reader stops at the quote the response closes it with, and not before. *)
Theorem errors_read_back msg rest :
  printable msg = true -> read_string (escape msg +:+ qt +:+ rest) = Some (msg, rest).
Proof.
  induction msg as [|c msg IH]; [done|]. cbn [escape printable]. intros [Hc Hp]%andb_true_iff. specialize (IH Hp).
  revert IH. generalize (escape msg) as t. intros t IH. unfold escape_char.
  assert (Hesc : forall d, unescaped d = Some c -> read_string ((String backslash (String d "") +:+ t) +:+ qt +:+ rest) = Some (String c msg, rest)).
  { intros d Hd. change ((String backslash (String d "") +:+ t) +:+ qt +:+ rest) with (String backslash (String d (t +:+ qt +:+ rest))).
    cbn [read_string]. rewrite bool_decide_false, bool_decide_true by done. rewrite Hd. cbn [mbind option_bind]. by rewrite IH. }
  case_bool_decide as E1; [subst; by apply Hesc|]. case_bool_decide as E2; [subst; by apply Hesc|].
  case_bool_decide as E3; [subst; by apply Hesc|]. case_bool_decide as E4; [subst; by apply Hesc|].
  rewrite !orb_false_r in Hc. apply negb_true_iff in Hc.
  change ((String c "" +:+ t) +:+ qt +:+ rest) with (String c (t +:+ qt +:+ rest)). cbn [read_string].
  rewrite !bool_decide_false by done. rewrite Hc. cbn [mbind option_bind]. by rewrite IH.
Qed.

(** *** A concrete server *)
Module Demo.
#[local] Existing Instance Links.toy_endpoints.
#[local] Existing Instance Links.toy_disco.

Definition asked_for : StartArgs := {|
  token := "t"; network_id := "n"; device_id := "d"; hardware_id := "h"; as_exit_node := false; nucleus := false;
  exit_node_ip := None; exit_node_ip_v6 := None |}.
#[local] Instance json : HelperJson := {|
  Value := unit;
  from_slice bytes := match bytes with
                      | [1] => Ok {| command := "start_vpn"; args := tt |} | [2] => Ok {| command := "stop_vpn"; args := tt |}
                      | _ => Err "expected value"
                      end;
  from_value _ := Ok asked_for; enabled_flag _ := None; to_vec r := Ok (string_bytes (message r)) |}.

Definition answers (R : Set) (c : HelperCall R) : R :=
  match c with
  | inl c =>
      match c in HandleCall R return R with
      | ReadState => Session.Disconnected | ReadNetworkId => None | ReadVirtualIp => None | ReadVirtualIpV6 => None
      | LoadExitNode => false | SpawnConnect _ => tt
      end
  | inr c => Session.Demo.answers R c
  end.
Definition machine (R : Set) (c : HelperCall R) (w : unit) : R * unit := (answers R c, w).
Definition begin : Server := new_server "https://a" [1] [2] (Err "none").
Definition start_req : HelperRequest Value := {| command := "start_vpn"; args := tt |}.
Definition stop_req : HelperRequest Value := {| command := "stop_vpn"; args := tt |}.
Definition accepting : Event := Answered start_req (reply true "VPN connection initiated" None).
Definition stopped : Event := Answered stop_req (reply true "VPN stopped" None).
Abbreviation to := (step Session.Demo.relay_new (fun _ => "") true "v" (fun s => s)).
Abbreviation reaches := (runs Session.Demo.relay_new (fun _ => "") true "v" (fun s => s)).

Definition outcome_of (req : HelperRequest Value) (m : Session.ConnectionManager) :=
  run_prog (traced machine) (handle_request (fun _ => "") true "v" (fun s => s) req m) (tt, []).
Lemma by_run m l req resp q :
  (outcome_of req m).1.2 = Ok resp -> omap spawns (outcome_of req m).2.2 = q ->
  to {| manager := m; waiting := l |} (Answered req resp) {| manager := (outcome_of req m).1.1; waiting := l ++ q |}.
Proof.
  unfold outcome_of. destruct (run_prog _ _ _) as [[m' r] [w' log]] eqn:Er. cbn. intros -> <-.
  exact (step_request _ _ _ _ _ {| manager := m; waiting := l |} machine tt req _ _ _ _ Er).
Qed.

(** Two users start, one stops, and both attempts are still to come. *)
Definition stopped_manager : Session.ConnectionManager := (outcome_of stop_req (manager begin)).1.1.
Lemma stopping l : to {| manager := manager begin; waiting := l |} stopped {| manager := stopped_manager; waiting := l |}.
Proof.
  pose proof (by_run (manager begin) l stop_req (reply true "VPN stopped" None) []) as Hs. rewrite app_nil_r in Hs.
  apply Hs; vm_compute; reflexivity.
Qed.
Lemma starting m l : to {| manager := m; waiting := l |} accepting {| manager := m; waiting := l ++ [asked_for] |}.
Proof. exact (by_run m l start_req (reply true "VPN connection initiated" None) [asked_for] eq_refl eq_refl). Qed.
Lemma late : reaches begin [accepting; accepting; stopped] {| manager := stopped_manager; waiting := [asked_for; asked_for] |}.
Proof.
  apply (runs_on _ _ _ _ _ begin [accepting; accepting] {| manager := manager begin; waiting := [asked_for; asked_for] |}); [|apply stopping].
  apply (runs_on _ _ _ _ _ begin [accepting] {| manager := manager begin; waiting := [asked_for] |}); [|apply starting].
  apply (runs_on _ _ _ _ _ begin [] begin); [constructor|apply starting].
Qed.
Lemma helper_accounts_witness :
  omap initiated [accepting; accepting; stopped] ≡ₚ omap ended [accepting; accepting; stopped] ++ [asked_for; asked_for] /\
  ((forall o, Panic o ∉ [accepting; accepting; stopped]) -> sound [accepting; accepting; stopped] stopped_manager).
Proof.
  exact (helper_accounts Session.Demo.relay_new (fun _ => "") true "v" (fun s => s) "https://a" [1] [2] (Err "none")
    _ {| manager := stopped_manager; waiting := [asked_for; asked_for] |} late).
Defined.
Lemma stop_keeps_waiting_witness :
  waiting {| manager := stopped_manager; waiting := [asked_for] |} = [asked_for] /\
  Session.left_behind (manager begin) stopped_manager.
Proof.
  apply (stop_keeps_waiting Session.Demo.relay_new (fun _ => "") true "v" (fun s => s)
    {| manager := manager begin; waiting := [asked_for] |} stop_req (reply true "VPN stopped" None)); [apply stopping|reflexivity].
Defined.

(** A request that comes in two parts is refused at the first. *)
Definition on_socket (first : list Z) (R : Set) (c : ConnCall R) : R :=
  match c with
  | inl c => match c in SocketCall R return R with ReadOnce => Bytes first | WriteAll _ => Ok tt end
  | inr c => answers R c
  end.
Example parts_refused :
  calls (on_socket [3]) (handle_connection (fun _ => "") true "v" (fun s => s)) (manager begin) =
  [existT _ (inl ReadOnce : ConnCall _); existT _ (inl (WriteAll (string_bytes (error_json "Invalid request format"))) : ConnCall _)].
Proof. vm_compute. reflexivity. Qed.
End Demo.
