(* ===== verification/CliSsh.v ===== *)
(** * The ssh commands (omni-cli/src/main.rs, omni-ssh/src/client and sftp)

    [ssh], [sftp], [scp] and [ssh-server]: programs over the SSH client of
    SshClient.v with the peers of the network behind it, the SFTP client, and
    the standalone server's configuration (Standalone.v).  Printing is left
    out, and the interactive shells that the commands say are missing. *)

From Stdlib Require Import Ascii.
From S2P Require Import Prelude RustStr Net SshTypes Auth Paths Effects Digests.
From S2P Require Standalone SshClient Api Config.

Open Scope string_scope.
Open Scope list_scope.
Open Scope Z_scope.

(** ** The backend *)

Record CliSshBackend : Type := { peers : list Api.VirtualNetworkDeviceResponse; device_id : string; network_id : string }.
Definition new (device network : string) : CliSshBackend := {| peers := []; device_id := device; network_id := network |}.
Definition set_peers (ps : list Api.VirtualNetworkDeviceResponse) (b : CliSshBackend) : CliSshBackend :=
  {| peers := ps; device_id := device_id b; network_id := network_id b |}.

(** The address of a peer, if it is one. *)
Definition peer_ip (p : Api.VirtualNetworkDeviceResponse) : option IpAddr := parse_ip (Api.member_virtual_ip p).
Definition has_ip (addr : IpAddr) (p : Api.VirtualNetworkDeviceResponse) : bool := bool_decide (peer_ip p = Some addr).

Definition identity (b : CliSshBackend) (p : Api.VirtualNetworkDeviceResponse) : PeerIdentity := {|
  peer_node := {| ni_id := Api.member_id p; ni_name := Api.member_name p; ni_virtual_ip := Api.member_virtual_ip p;
                  ni_tags := []; ni_online := Api.online p; ni_network_id := network_id b |};
  peer_user := {| up_id := ""; up_email := ""; up_name := None |} |}.
Definition who_is (b : CliSshBackend) (addr : IpAddr) : option PeerIdentity := identity b <$> List.find (has_ip addr) (peers b).
Definition is_omniedge_ip (b : CliSshBackend) (addr : IpAddr) : bool := existsb (has_ip addr) (peers b).

(** The first address among the peers that qualify; peers without one are
    passed over. *)
Fixpoint first_ip (f : Api.VirtualNetworkDeviceResponse -> bool) (ps : list Api.VirtualNetworkDeviceResponse) : option IpAddr :=
  match ps with
  | [] => None
  | p :: ps => if f p then match peer_ip p with Some ip => Some ip | None => first_ip f ps end else first_ip f ps
  end.
Definition named (name : string) (p : Api.VirtualNetworkDeviceResponse) : bool :=
  Standalone.eq_ignore_ascii_case (Api.member_name p) name.
Definition like (name : string) (p : Api.VirtualNetworkDeviceResponse) : bool :=
  contains (to_lowercase (Api.member_name p)) (to_lowercase name).
Definition resolve_peer_name (b : CliSshBackend) (name : string) : option IpAddr :=
  match first_ip (named name) (peers b) with Some ip => Some ip | None => first_ip (like name) (peers b) end.

Definition list_peers (b : CliSshBackend) : list Standalone.PeerInfo :=
  omap (fun p => (fun ip => {| Standalone.pi_name := Api.member_name p; Standalone.vpn_ip := ip;
                               Standalone.pi_online := Api.online p; Standalone.pi_device_id := Some (Api.member_id p) |})
                 <$> peer_ip p) (peers b).

(** What it promises the authenticator; the policy is the default one. *)
#[export] Instance cli_backend (b : CliSshBackend) (now : Z) : SshBackend := {|
  Auth.is_omniedge_ip := is_omniedge_ip b;
  Auth.who_is := fun addr => Ok (who_is b addr);
  Auth.get_ssh_policy := Ok (SshPolicy_default now) |}.

(** ** Sessions *)

Record Attrs : Set := { a_size : option Z; a_dir : bool; a_mtime : option Z; a_permissions : option Z }.
Record FileInfo : Set := { fi_name : string; fi_size : Z; fi_dir : bool; fi_modified : Z; fi_permissions : option Z }.

(** The channel of a session, the SFTP session on it, and the local files.  A
    file is a handle; a read is of at most [BUFFER] bytes, and empty at the
    end. *)
Definition BUFFER : Z := 32768.
Inductive WireCall : Set -> Set :=
| RequestPty (term : string) (cols rows : Z) : WireCall (result string unit)
| RequestShell : WireCall (result string unit)
| RequestSubsystem (name : string) : WireCall (result string unit)
| ChannelEof : WireCall (result string unit)
| ChannelClose : WireCall (result string unit)
| Disconnect : WireCall (result string unit)
| SftpInit : WireCall (result string unit)
| SftpClose : WireCall (result string unit)
| RemoteOpen (path : string) : WireCall (result string Z)
| RemoteCreate (path : string) : WireCall (result string Z)
| RemoteRead (fd : Z) : WireCall (result string (list Z))
| RemoteWrite (fd : Z) (bytes : list Z) : WireCall (result string unit)
| LocalOpen (path : string) : WireCall (result string Z)
| LocalCreate (path : string) : WireCall (result string Z)
| LocalRead (fd : Z) : WireCall (result string (list Z))
| LocalWrite (fd : Z) (bytes : list Z) : WireCall (result string unit)
| ReadDir (path : string) : WireCall (result string (list (string * Attrs)))
| Metadata (path : string) : WireCall (result string Attrs)
| CreateDir (path : string) : WireCall (result string unit)
| RemoveFile (path : string) : WireCall (result string unit)
| RemoveDir (path : string) : WireCall (result string unit)
| Rename (old new : string) : WireCall (result string unit)
| Canonicalize (path : string) : WireCall (result string string).

(** The end of the process, or an error that main returns. *)
Inductive End : Set := Exited (code : Z) | Failed (e : string).

Section Commands.
Context {D : Digests} {K : SshClient.PublicKeys} `{Api.ApiJson}.

Definition CliCall (R : Set) : Set := (SshClient.ClientCall R + Api.HttpCall R + WireCall R)%type.
Definition of_client (R : Set) (c : SshClient.ClientCall R) : CliCall R := inl (inl c).
Definition of_http (R : Set) (c : Api.HttpCall R) : CliCall R := inl (inr c).
Definition wire {R : Set} (c : WireCall R) : CliCall R := inr c.
Abbreviation TM := (SM CliCall unit End) (only parsing).
Definition try_wire {A : Set} (c : WireCall (result string A)) : TM A :=
  r ← call (wire c); match r with Ok a => mret a | Err e => throw (Failed e) end.

(** The client asks its backend for names. *)
Fixpoint resolved {A} (b : CliSshBackend) (m : prog SshClient.ClientCall A) : prog SshClient.ClientCall A :=
  match m with
  | Ret a => Ret a
  | Vis c k =>
      match c in SshClient.ClientCall R return (R -> prog SshClient.ClientCall A) -> prog SshClient.ClientCall A with
      | SshClient.ResolvePeerName name => fun k' => k' (Ok (resolve_peer_name b name))
      | c => fun k' => Vis c k'
      end (fun r => resolved b (k r))
  end.

(** [SshClient::new(backend)] and its connection; the store of known hosts
    begins with it. *)
Definition connect (home : option string) (b : CliSshBackend) (t : SshClient.SshTarget) : TM SshClient.SshTarget :=
  zoom of_client (fun _ => {| SshClient.path := ""; SshClient.hosts := ∅ |}) (fun _ u => u) Failed
    (fun s => resolved b (SshClient.connect home SshClient.HostKeyConfig_default t s)).
Definition exec (fuel : nat) (command : string) : TM (option SshClient.ExecResult) :=
  zoom of_client (fun u => u) (fun _ u => u) Failed (SshClient.exec fuel command).
Definition open_session : TM unit := zoom of_client (fun u => u) (fun _ u => u) Failed (SshClient.try_call SshClient.OpenSession).

Definition shell : TM unit :=
  _ ← open_session; _ ← try_wire (RequestPty "xterm-256color" 80 24); try_wire RequestShell.
Definition close_shell : TM unit := _ ← try_wire ChannelEof; try_wire ChannelClose.
Definition close_session : TM unit := try_wire Disconnect.

(** ** The SFTP client *)

Definition sftp : TM unit := _ ← open_session; _ ← try_wire (RequestSubsystem "sftp"); try_wire SftpInit.

(** What is read is written, until there is no more ([None]: no more fuel). *)
Fixpoint copy (fuel : nat) (read : WireCall (result string (list Z))) (write : list Z -> WireCall (result string unit))
    (total : Z) : TM (option Z) :=
  match fuel with
  | O => mret None
  | S fuel =>
      bytes ← try_wire read;
      match bytes with
      | [] => mret (Some total)
      | _ => _ ← try_wire (write bytes); copy fuel read write (total + Z.of_nat (length bytes))
      end
  end.
Definition get (fuel : nat) (remote local : string) : TM (option Z) :=
  remote_file ← try_wire (RemoteOpen remote);
  local_file ← try_wire (LocalCreate local);
  copy fuel (RemoteRead remote_file) (LocalWrite local_file) 0.
Definition put (fuel : nat) (local remote : string) : TM (option Z) :=
  local_file ← try_wire (LocalOpen local);
  remote_file ← try_wire (RemoteCreate remote);
  copy fuel (LocalRead local_file) (RemoteWrite remote_file) 0.

Definition file_info (name : string) (a : Attrs) : FileInfo := {|
  fi_name := name; fi_size := default 0 (a_size a); fi_dir := a_dir a; fi_modified := default 0 (a_mtime a);
  fi_permissions := a_permissions a |}.
Definition ls (path : string) : TM (list FileInfo) :=
  entries ← try_wire (ReadDir path); mret (map (fun e => file_info e.1 e.2) entries).
Definition mkdir (path : string) : TM unit := try_wire (CreateDir path).
Definition rm (path : string) : TM unit := try_wire (RemoveFile path).
Definition rmdir (path : string) : TM unit := try_wire (RemoveDir path).
Definition stat (path : string) : TM FileInfo :=
  attrs ← try_wire (Metadata path); mret (file_info (default "" (file_name path)) attrs).
Definition rename (oldpath newpath : string) : TM unit := try_wire (Rename oldpath newpath).
Definition realpath (path : string) : TM string := try_wire (Canonicalize path).
Definition close : TM unit := try_wire SftpClose.

(** ** The commands *)

Definition parse_target (target : string) : TM SshClient.SshTarget :=
  match SshClient.SshTarget_parse target with
  | Ok t => mret t
  | Err e => throw (Failed ("Invalid target '" +:+ target +:+ "': " +:+ e))
  end.
(** The flag counts unless it is the default. *)
Definition override_port (port : Z) (t : SshClient.SshTarget) : SshClient.SshTarget :=
  if port =? 22 then t else SshClient.with_port port t.

(** The peers of the network, if the API gives them. *)
Definition load_backend (base_url : string) (c : Config.CliConfig) : TM CliSshBackend :=
  let b := new (default "" (Config.device_uuid c)) (default "" (Config.last_network_id c)) in
  match Config.auth_response c, Config.last_network_id c with
  | Some auth, Some net =>
      r ← attempt (zoom of_http (fun u => u) (fun _ u => u) Failed
                     (Api.get_devices (Api.ApiClient_new base_url (Some (Api.token auth))) net));
      mret (match r with Ok ps => set_peers ps b | Err _ => b end)
  | _, _ => mret b
  end.

Context (home : option string) (base_url : string).

(** [None]: the fuel is spent while the command runs. *)
Definition handle_ssh_command (fuel : nat) (target : string) (port : Z) (command : list string) (c : Config.CliConfig)
    : TM (option unit) :=
  t ← parse_target target;
  let t := override_port port t in
  b ← load_backend base_url c;
  _ ← connect home b t;
  match command with
  | [] => _ ← shell; _ ← close_shell; _ ← close_session; mret (Some tt)
  | _ =>
      r ← exec fuel (join " " command);
      match r with
      | None => mret None
      | Some r => if SshClient.success r then _ ← close_session; mret (Some tt) else throw (Exited (SshClient.exit_code r))
      end
  end.

Definition handle_sftp_command (target : string) (port : Z) (c : Config.CliConfig) : TM unit :=
  t ← parse_target target;
  let t := override_port port t in
  b ← load_backend base_url c;
  _ ← connect home b t;
  _ ← sftp;
  _ ← close;
  close_session.

(** [splitn(2, ':')] that gives two parts. *)
Definition split_remote (s : string) : option (string * string) :=
  colon ← find_char ":" s; Some (take_str colon s, drop_str (S colon) s).
Record Transfer : Set := { is_download : bool; target_str : string; remote_path : string; local_path : string }.
Definition scp_ends (source destination : string) : result string Transfer :=
  if contains source "@" then
    match split_remote source with
    | Some (t, p) => Ok {| is_download := true; target_str := t; remote_path := p; local_path := destination |}
    | None => Err "Invalid remote source format. Use: user@host:path"
    end
  else if contains destination "@" then
    match split_remote destination with
    | Some (t, p) => Ok {| is_download := false; target_str := t; remote_path := p; local_path := source |}
    | None => Err "Invalid remote destination format. Use: user@host:path"
    end
  else Err "Either source or destination must be remote (user@host:path)".

(** A recursive transfer is one of the file. *)
Definition handle_scp_command (fuel : nat) (source destination : string) (port : Z) (c : Config.CliConfig) : TM (option Z) :=
  ends ← match scp_ends source destination with Ok e => mret e | Err e => throw (Failed e) end;
  t ← parse_target (target_str ends);
  let t := override_port port t in
  b ← load_backend base_url c;
  _ ← connect home b t;
  _ ← sftp;
  n ← (if is_download ends then get fuel (remote_path ends) (local_path ends)
       else put fuel (local_path ends) (remote_path ends));
  match n with
  | None => mret None
  | Some n => _ ← close; _ ← close_session; mret (Some n)
  end.
End Commands.

(** ** The standalone server *)

Section Server.
Context `{Standalone.IpNetworks}.
Import Standalone.

(** What the flags ask for. *)
Record ServerArgs : Set := {
  permissive_mode : bool; localhost_mode : bool; allow_networks : list string; server_device : string;
  user_maps : list string; server_user : option string; key_path : option string; quiet : bool }.

Definition named_server (device : string) (quiet : bool) (c : StandaloneConfig) : StandaloneConfig := {|
  Standalone.device_id := device; cfg_network_id := cfg_network_id c; ssh_enabled := ssh_enabled c;
  allow_any_ip := allow_any_ip c; allowed_networks := allowed_networks c; allowed_ips := allowed_ips c;
  host_key_path := host_key_path c; user_mapping := user_mapping c; default_local_user := default_local_user c;
  allow_all_features := allow_all_features c; custom_policy := custom_policy c; log_events := negb quiet |}.
Definition with_key_path (p : string) (c : StandaloneConfig) : StandaloneConfig := {|
  Standalone.device_id := Standalone.device_id c; cfg_network_id := cfg_network_id c; ssh_enabled := ssh_enabled c;
  allow_any_ip := allow_any_ip c; allowed_networks := allowed_networks c; allowed_ips := allowed_ips c;
  host_key_path := Some p; user_mapping := user_mapping c; default_local_user := default_local_user c;
  allow_all_features := allow_all_features c; custom_policy := custom_policy c; log_events := log_events c |}.

Fixpoint add_networks (ns : list string) (c : StandaloneConfig) : result string StandaloneConfig :=
  match ns with
  | [] => Ok c
  | n :: ns =>
      match net_parse n with
      | Some net => add_networks ns (set_access c (allow_any_ip c) (allowed_networks c ++ [net]) (allowed_ips c) (allow_all_features c))
      | None => Err ("Invalid network '" +:+ n +:+ "'")
      end
  end.
Definition add_mapping (m : string) (c : StandaloneConfig) : result string StandaloneConfig :=
  match split ":" m with
  | [s; l] => Ok (with_user_mapping s l c)
  | _ => Err ("Invalid user mapping '" +:+ m +:+ "'. Format: ssh_user:local_user")
  end.
Fixpoint add_mappings (ms : list string) (c : StandaloneConfig) : result string StandaloneConfig :=
  match ms with
  | [] => Ok c
  | m :: ms => match add_mapping m c with Ok c => add_mappings ms c | Err e => Err e end
  end.

(** [uuid]: as for the configurations of Standalone.v; [None]: one of their
    networks does not parse. *)
Definition server_config (uuid : string) (a : ServerArgs) : option (result string StandaloneConfig) :=
  c ← (if permissive_mode a then permissive uuid else if localhost_mode a then localhost_only uuid
       else StandaloneConfig_default uuid);
  Some (match add_networks (allow_networks a) (named_server (server_device a) (quiet a) c) with
        | Err e => Err e
        | Ok c =>
            match add_mappings (user_maps a) c with
            | Err e => Err e
            | Ok c =>
                let c := match server_user a with Some u => with_default_user u c | None => c end in
                Ok (match key_path a with Some p => with_key_path p c | None => c end)
            end
        end).
End Server.

(** ** Names and peers *)

Lemma first_ip_head f ps : first_ip f ps = head (omap peer_ip (List.filter f ps)).
Proof. induction ps as [|p ps IH]; [done|]. cbn. destruct (f p); [|exact IH]. cbn. by destruct (peer_ip p). Qed.

(** A name is the first address among its namesakes, whatever the case, and only without
    one the first among the peers whose name has it as a part. *)
Theorem resolves_namesakes_first b name :
  resolve_peer_name b name =
  head (omap peer_ip (List.filter (named name) (peers b)) ++ omap peer_ip (List.filter (like name) (peers b))).
Proof. unfold resolve_peer_name. rewrite !first_ip_head. by destruct (omap peer_ip (List.filter (named name) (peers b))). Qed.

(** The two questions about an address agree, and the peer is one of the list. *)
Theorem known_addresses b addr :
  is_omniedge_ip b addr = bool_decide (is_Some (who_is b addr)) /\
  (forall i, who_is b addr = Some i -> exists p, p ∈ peers b /\ peer_ip p = Some addr /\ i = identity b p).
Proof.
  unfold is_omniedge_ip, who_is. split.
  - induction (peers b) as [|p ps IH]; [done|]. cbn. destruct (has_ip addr p); [done|exact IH].
  - intros i Hi. destruct (List.find (has_ip addr) (peers b)) as [p|] eqn:Ep; [|done]. injection Hi as <-.
    apply find_some in Ep as [Hin Hp]. exists p. apply list_elem_of_In in Hin. split_and!; [done| |done].
    by apply bool_decide_eq_true in Hp.
Qed.

(** A server with this backend would let nobody in. *)
Theorem backend_admits_nobody `{UtcCalendar} b policy_at utc now addr user :
  exists reason, @authenticate _ (cli_backend b policy_at) utc now addr user = Ok (Reject reason).
Proof.
  unfold authenticate. cbn. destruct (is_omniedge_ip b addr); [|by eexists]. cbn.
  destruct (who_is b addr) as [p|]; cbn; by eexists.
Qed.

(** ** Where a connection goes *)

Section Reach.
Context {D : Digests} {K : SshClient.PublicKeys} `{Api.ApiJson}.
Context (b : CliSshBackend) (t : SshClient.SshTarget).

(** The address the target stands for, if it is one or the name of a peer. *)
Definition peer_address : option IpAddr :=
  match parse_ip (SshClient.host t) with Some ip => Some ip | None => resolve_peer_name b (SshClient.host t) end.
(** The resolver of the system is asked about no peer, and a connection goes
    to the peer, at the port of the target. *)
Definition goes_to_peer (R : Set) (c : SshClient.ClientCall R) : Prop :=
  match c with
  | SshClient.ResolvePeerName _ => False
  | SshClient.LookupHost _ => peer_address = None
  | SshClient.TcpConnect a => forall ip, peer_address = Some ip -> a = {| sa_ip := ip; sa_port := SshClient.port t |}
  | _ => True
  end.
Definition reaches (R : Set) (c : CliCall R) : Prop := match c with inl (inl c) => goes_to_peer R c | _ => True end.

Definition asks (R : Set) (c : SshClient.ClientCall R) : Prop :=
  match c with SshClient.ResolvePeerName _ => True | _ => goes_to_peer R c end.
Definition backed (R : Set) (c : SshClient.ClientCall R) : R -> Prop :=
  match c in SshClient.ClientCall R return R -> Prop with
  | SshClient.ResolvePeerName name => fun r => r = Ok (resolve_peer_name b name)
  | _ => fun _ => True
  end.
Lemma wp_resolved {A} (m : prog SshClient.ClientCall A) (Q : A -> Prop) :
  wp asks backed m Q -> wp goes_to_peer (fun _ _ _ => True) (resolved b m) Q.
Proof.
  induction m as [a|R c k IH]; [done|]. intros [Hc Hk]. destruct c; cbn [resolved]; try (split; [exact Hc|]; intros r _; by apply IH, Hk).
  by apply IH, Hk.
Qed.

Ltac any_store := repeat first [progress cbv beta iota zeta | sm_step | case_match]; try done.

Lemma asks_load s Q : (forall s' r, Q s' r) -> hoare asks backed SshClient.load s Q.
Proof.
  intros HQ. unfold SshClient.load, SshClient.try_call. sm_step. sm_step. cbv beta iota. sm_step. sm_step. sm_step; [done|].
  cbv beta iota. sm_step; [|apply HQ]. cbv beta iota.
  match goal with |- hoare _ _ (SshClient.load_lines ?l) ?s _ => clear -HQ; generalize s; induction l as [|x l IH]; intros s'; cbn [SshClient.load_lines] end.
  - sm_step. apply HQ.
  - any_store; try apply HQ; apply IH.
Qed.
Lemma asks_new p s Q : (forall s' r, Q s' r) -> hoare asks backed (SshClient.new p) s Q.
Proof. intros HQ. unfold SshClient.new. any_store; try apply HQ. by apply asks_load. Qed.
Lemma asks_key m h p key s Q : (forall s' r, Q s' r) -> hoare asks backed (SshClient.check_server_key m h p key) s Q.
Proof.
  intros HQ. unfold SshClient.check_server_key, SshClient.add, SshClient.save_entry, SshClient.make_parent, SshClient.try_call.
  any_store; apply HQ.
Qed.
Lemma asks_resolve (s : SshClient.KnownHostsStore) Q :
  (forall r, (forall a, r = Ok a -> forall ip, peer_address = Some ip -> a = {| sa_ip := ip; sa_port := SshClient.port t |}) -> Q s r) ->
  hoare asks backed (SshClient.resolve_peer t) s Q.
Proof.
  intros HQ. unfold SshClient.resolve_peer, SshClient.try_call. unfold peer_address in HQ |- *.
  destruct (parse_ip (SshClient.host t)) as [ip|] eqn:Ep.
  { sm_step. apply HQ. by intros a [= <-] ip' [= <-]. }
  sm_step. sm_step. sm_step; [done|]. cbn in *. subst. cbn [lift]. sm_step. cbv beta iota.
  destruct (resolve_peer_name b (SshClient.host t)) as [ip|] eqn:Er.
  { sm_step. apply HQ. by intros a [= <-] ip' [= <-]. }
  assert (Hnone : peer_address = None) by (unfold peer_address; by rewrite Ep).
  any_store; apply HQ; by intros.
Qed.

End Reach.

(** ** Transfers *)

Section Transfers.
Context {D : Digests} {K : SshClient.PublicKeys} `{Api.ApiJson}.

(** Files that give their parts one after the other and take what is written;
    the rest fails. *)
Definition pipes (R : Set) (c : CliCall R) (w : list (list Z) * list Z) : R * (list (list Z) * list Z) :=
  match c with
  | inl (inl c) =>
      match c in SshClient.ClientCall R return R * (list (list Z) * list Z) with
      | SshClient.PathExists _ => (false, w) | SshClient.WalkHosts _ => ([], w) | SshClient.ChannelWait => (None, w)
      | SshClient.ReadLines _ => (Err "", w) | SshClient.CreateDirAll _ => (Err "", w) | SshClient.OpenAppend _ => (Err "", w)
      | SshClient.CreateFile _ => (Err "", w) | SshClient.WriteLine _ _ => (Err "", w)
      | SshClient.ResolvePeerName _ => (Err "", w) | SshClient.LookupHost _ => (Err "", w)
      | SshClient.TcpConnect _ => (Err "", w) | SshClient.ServerKey => (Err "", w)
      | SshClient.FinishHandshake => (Err "", w) | SshClient.AuthenticateNone _ => (Err "", w)
      | SshClient.OpenSession => (Err "", w) | SshClient.ExecCommand _ => (Err "", w)
      end
  | inl (inr c) => match c in Api.HttpCall R return R * (list (list Z) * list Z) with Api.Http _ => (Err "", w) end
  | inr c =>
      match c in WireCall R return R * (list (list Z) * list Z) with
      | RemoteRead _ | LocalRead _ => (Ok (default [] (head w.1)), (tail w.1, w.2))
      | RemoteWrite _ bytes | LocalWrite _ bytes => (Ok tt, (w.1, w.2 ++ bytes))
      | RemoteOpen _ | RemoteCreate _ | LocalOpen _ | LocalCreate _ => (Ok 3, w)
      | ReadDir _ => (Err "", w) | Metadata _ => (Err "", w) | Canonicalize _ => (Err "", w)
      | _ => (Err "", w)
      end
  end.

Lemma copy_all fuel read write total chunks written :
  (forall w, pipes _ (wire read) w = (Ok (default [] (head w.1)), (tail w.1, w.2))) ->
  (forall bytes w, pipes _ (wire (write bytes)) w = (Ok tt, (w.1, w.2 ++ bytes))) ->
  Forall (fun c => c <> []) chunks -> (length chunks < fuel)%nat ->
  run_prog pipes (copy fuel read write total tt) (chunks, written) =
  ((tt, Ok (Some (total + Z.of_nat (length (concat chunks))))), ([], written ++ concat chunks)).
Proof.
  intros Hr Hw Hc. revert fuel total written. induction Hc as [|c chunks Hc Hcs IH]; intros [|fuel] total written Hf; cbn in Hf; try lia.
  - cbn [copy]. unfold try_wire. sm_unfold. cbn -[pipes wire].
    rewrite Hr. cbn. rewrite Z.add_0_r, app_nil_r. reflexivity.
  - destruct c as [|x c]; [done|].
    assert (total + Z.of_nat (length (concat ((x :: c) :: chunks))) = total + Z.of_nat (length (x :: c)) + Z.of_nat (length (concat chunks))) as ->
      by (cbn [concat]; rewrite length_app; lia).
    cbn [concat]. rewrite app_assoc. cbn [copy]. unfold try_wire. sm_unfold. cbn -[pipes wire]. rewrite Hr.
    cbn -[pipes wire copy]. rewrite Hw. cbn -[pipes wire copy]. by rewrite IH by lia.
Qed.

(** A transfer whose reads and writes succeed writes the bytes of the source in order, all
    of them, ends with the first empty read, and returns their number: downloads and
    uploads alike. *)
Theorem transfers_copy fuel a b chunks :
  Forall (fun c => c <> []) chunks -> (length chunks < fuel)%nat ->
  run_prog pipes (get fuel a b tt) (chunks, []) = ((tt, Ok (Some (Z.of_nat (length (concat chunks))))), ([], concat chunks)) /\
  run_prog pipes (put fuel a b tt) (chunks, []) = ((tt, Ok (Some (Z.of_nat (length (concat chunks))))), ([], concat chunks)).
Proof.
  intros Hc Hf. unfold get, put, try_wire. rewrite !run_sm_bind. cbn. rewrite !run_sm_bind. cbn.
  by rewrite !copy_all by done.
Qed.
End Transfers.

(** ** The ends of a copy *)

(** A copy from a target reads the target and the path, a copy to one too. *)
Theorem scp_reads_both t path file :
  no_char ":" t -> contains (t +:+ ":" +:+ path) "@" = true -> contains file "@" = false ->
  scp_ends (t +:+ ":" +:+ path) file = Ok {| is_download := true; target_str := t; remote_path := path; local_path := file |} /\
  scp_ends file (t +:+ ":" +:+ path) = Ok {| is_download := false; target_str := t; remote_path := path; local_path := file |}.
Proof.
  intros Ht Hat Hf. unfold scp_ends, split_remote. rewrite Hat, Hf. cbn [mbind option_bind].
  rewrite append_cons, append_nil_l, SshClient.find_char_app by done. cbn [mbind option_bind].
  by rewrite drop_str_S_app, take_str_app.
Qed.

(** A path with an at sign is taken for a target; of two targets the second is
    a local file; a port cannot be given with the target, nor an address of
    IPv6. *)
Example scp_misreadings :
  scp_ends "mail@home.txt" "root@db:/tmp" = Err "Invalid remote source format. Use: user@host:path" /\
  scp_ends "root@a:/x" "root@b:/y" =
    Ok {| is_download := true; target_str := "root@a"; remote_path := "/x"; local_path := "root@b:/y" |} /\
  scp_ends "root@a:2222:/x" "y" = Ok {| is_download := true; target_str := "root@a"; remote_path := "2222:/x"; local_path := "y" |} /\
  scp_ends "root@fd00::1:/x" "y" = Ok {| is_download := true; target_str := "root@fd00"; remote_path := ":1:/x"; local_path := "y" |}.
Proof. by vm_compute. Qed.

(** The flag of the port cannot set the default port. *)
Lemma override_port_22 t : override_port 22 t = t.
Proof. done. Qed.

(** ** Whom the standalone server lets in *)

Section ServerTheorems.
Context `{Standalone.IpNetworks}.
Import Standalone.

Definition access (c : StandaloneConfig) : bool * list IpNet * list IpAddr := (allow_any_ip c, allowed_networks c, allowed_ips c).
Lemma mappings_keep_access ms c c' : add_mappings ms c = Ok c' -> access c' = access c.
Proof.
  revert c. induction ms as [|m ms IH]; intros c; cbn; [by intros [= ->]|].
  unfold add_mapping. repeat case_match; simplify_eq; try done; intros Hm; by rewrite (IH _ Hm).
Qed.
Lemma networks_added ns c c' :
  add_networks ns c = Ok c' ->
  exists nets, Forall2 (fun n net => net_parse n = Some net) ns nets /\
    access c' = (allow_any_ip c, allowed_networks c ++ nets, allowed_ips c).
Proof.
  revert c. induction ns as [|n ns IH]; intros c; cbn.
  - intros [= <-]. exists []. split; [constructor|]. by rewrite app_nil_r.
  - destruct (net_parse n) as [net|] eqn:En; [|done]. intros Hn. destruct (IH _ Hn) as (nets & Hf & Ha). cbn in Ha.
    exists (net :: nets). split; [by constructor|]. by rewrite Ha, <- app_assoc.
Qed.

(** The configuration the mode begins with. *)
Definition mode_config (uuid : string) (a : ServerArgs) : option StandaloneConfig :=
  if permissive_mode a then permissive uuid else if localhost_mode a then localhost_only uuid else StandaloneConfig_default uuid.

(** The server lets in an address exactly when its mode does or a network of
    the flags has it: nothing else of the flags matters. *)
Theorem server_lets_in uuid a base c addr :
  mode_config uuid a = Some base -> server_config uuid a = Some (Ok c) ->
  is_ip_allowed (Standalone.new c) addr = true <->
  is_ip_allowed (Standalone.new base) addr = true \/
  exists n net, n ∈ allow_networks a /\ net_parse n = Some net /\ net_contains net addr = true.
Proof.
  unfold mode_config, server_config. intros Hb Hc. rewrite Hb in Hc. cbn in Hc.
  destruct (add_networks _ _) as [c1|] eqn:E1; [|done]. destruct (add_mappings _ _) as [c2|] eqn:E2; [|done].
  apply networks_added in E1 as (nets & Hf & Ha1). apply mappings_keep_access in E2.
  assert (Hacc : access c = (allow_any_ip base, allowed_networks base ++ nets, allowed_ips base)).
  { injection Hc as <-. transitivity (access c2); [by destruct (server_user a), (key_path a)|by rewrite E2, Ha1]. }
  unfold is_ip_allowed. cbn. injection Hacc as -> -> ->.
  destruct (allow_any_ip base); [by split; [left|]|]. case_bool_decide; [by split; [left|]|].
  rewrite existsb_app, orb_true_iff. apply or_iff_compat_l. rewrite existsb_exists. split.
  - intros (net & Hin & Hnet). apply list_elem_of_In, list_elem_of_lookup in Hin as [i Hi].
    destruct (Forall2_lookup_r _ _ _ _ _ Hf Hi) as (n & Hn & Hp). exists n, net. split_and!; [by eapply list_elem_of_lookup_2|done|done].
  - intros (n & net & Hin & Hp & Hnet). apply list_elem_of_lookup in Hin as [i Hi].
    destruct (Forall2_lookup_l _ _ _ _ _ Hf Hi) as (net' & Hn & Hp'). rewrite Hp in Hp'. injection Hp' as <-.
    exists net. split; [|done]. apply list_elem_of_In. by eapply list_elem_of_lookup_2.
Qed.
End ServerTheorems.

(** ** Concrete peers *)
Module Demo.
Definition peer (name ip : string) : Api.VirtualNetworkDeviceResponse := {|
  Api.member_id := name; Api.member_name := name; Api.member_hardware_id := ""; Api.member_os := "";
  Api.member_virtual_ip := ip; Api.member_virtual_ip_v6 := None; Api.is_exit_node := false; Api.online := true;
  Api.exit_node_enabled := false; Api.selected_exit_node_id := None |}.

(** A peer without an address is passed over for one that is only alike, and
    the empty name is anyone. *)
Example namesake_without_address :
  resolve_peer_name (set_peers [peer "db" ""; peer "old-db-2" "10.0.0.7"] (new "d" "n")) "DB" = Some (V4 167772167) /\
  resolve_peer_name (set_peers [peer "db" "10.0.0.3"; peer "old-db-2" "10.0.0.7"] (new "d" "n")) "" = Some (V4 167772163).
Proof. by vm_compute. Qed.

Lemma scp_reads_both_witness :
  scp_ends "root@db:/etc/motd" "motd" =
  Ok {| is_download := true; target_str := "root@db"; remote_path := "/etc/motd"; local_path := "motd" |}.
Proof. apply (scp_reads_both "root@db" "/etc/motd" "motd"); by vm_compute. Defined.

#[local] Existing Instance Api.Demo.json.
#[local] Existing Instance demo_digests.
#[local] Instance keys : SshClient.PublicKeys := SshClient.demo_keys "SHA256:".
Lemma transfers_copy_witness :
  run_prog pipes (get 3 "/a" "b" tt) ([[1; 2]; [3]], []) = ((tt, Ok (Some 3)), ([], [1; 2; 3])) /\
  run_prog pipes (put 3 "/a" "b" tt) ([[1; 2]; [3]], []) = ((tt, Ok (Some 3)), ([], [1; 2; 3])).
Proof. apply (transfers_copy 3 "/a" "b" [[1; 2]; [3]]); [by repeat constructor|cbn; lia]. Defined.
End Demo.
