(* ===== verification/Desktop.v ===== *)
(** * The desktop application (ui/desktop/src-tauri/src/lib.rs)

    The commands of its window that log in, connect and ask for the state: a
    client of the helper (Helper.v) beside a manager of its own (Session.v), to
    which it turns when the helper does not answer.  The commands of the data
    collection and of the plugins are in DesktopData.v.  A lock makes every use
    of the manager one step; the build is that for unix. *)

From Stdlib Require Import Ascii.
From S2P Require Import Prelude RustStr Net SortBy Paths Effects.
From S2P Require Api Config Routing Peers Dispatcher Links Session Service Helper.

Open Scope string_scope.
Open Scope list_scope.
Open Scope Z_scope.

Section Data.
Context `{Api.ApiJson}.

(** [HelperResponse], read from JSON. *)
Record Response : Type := { success : bool; message : string; data : option Api.Value }.
Record HelperStatusData : Set := {
  status_state : Session.ConnectionState; status_network_id : option string;
  status_virtual_ip : option string; status_virtual_ip_v6 : option string }.
End Data.

(** What serde_json makes of them. *)
Class DesktopJson `{Api.ApiJson} : Type := {
  as_bool : Api.Value -> option bool;
  json_bool : bool -> Api.Value;
  state_to_value : Session.ConnectionState -> Api.Value;
  request_to_vec : Helper.HelperRequest Api.Value -> result string (list Z);
  response_from_slice : list Z -> result string Response;
  state_from_value : Api.Value -> result string Session.ConnectionState;
  status_from_value : Api.Value -> result string HelperStatusData }.

(** ** The world

    A call to the helper that takes longer than its thirty seconds is [None].
    The lookups behind the icon of the tray are part of [SetTrayIcon]. *)

Record LogFile : Set := { log_path : string; log_modified : option Z }.
Inductive OwnCall : Set -> Set :=
| OpenHelper : OwnCall (option (result string Z))
| SendAll (stream : Z) (bytes : list Z) : OwnCall (option (result string unit))
| ReadSome (stream : Z) : OwnCall (option (result string (list Z)))
| Wait (ms : Z) : OwnCall unit
| Now : OwnCall Z
| SetTrayIcon (name : string) : OwnCall unit
| Emit (event : HelperStatusData) : OwnCall unit
| NewChannel : OwnCall Z
| SendCancel (channel : Z) : OwnCall unit
| DropSender (channel : Z) : OwnCall unit
| OpenUrl (url : string) : OwnCall (result string unit)
| ReadLogDir : OwnCall (option (list LogFile))
| ReadLog (path : string) : OwnCall (result string string).

Definition DeskCall (R : Set) : Set := (OwnCall R + Service.ServiceCall R)%type.
Definition of_service (R : Set) (c : Service.ServiceCall R) : DeskCall R := inr c.
Definition of_session (R : Set) (c : Session.SessionCall R) : DeskCall R := of_service R (Service.of_session R c).
Definition of_conf (R : Set) (c : Config.ConfCall R) : DeskCall R := of_service R (Service.of_conf R c).

Section Desktop.
Context `{Api.ApiJson, Config.ConfigCodec, Peers.EndpointSets, Dispatcher.Disco} {J : DesktopJson}.
Context (debug_args : list string -> string) (hex_decode : string -> option (list Z)) (linux : bool).

(** [AppState]; the sender is that of the login that waits. *)
Record AppState : Type := {
  manager : Session.ConnectionManager; login_cancel_tx : option Z; window_pinned : bool }.
Definition put_manager (m : Session.ConnectionManager) (a : AppState) : AppState :=
  {| manager := m; login_cancel_tx := login_cancel_tx a; window_pinned := window_pinned a |}.
Definition put_cancel (c : option Z) (a : AppState) : AppState :=
  {| manager := manager a; login_cancel_tx := c; window_pinned := window_pinned a |}.
Definition put_pinned (b : bool) (a : AppState) : AppState :=
  {| manager := manager a; login_cancel_tx := login_cancel_tx a; window_pinned := b |}.

(** Errors are those returned ([Failed]). *)
Abbreviation DM := (SM DeskCall AppState Session.Fault) (only parsing).
Definition own {R : Set} (c : OwnCall R) : DM R := call (inl c : DeskCall R).
Definition fail {A} (e : string) : DM A := throw (Session.Failed e).
Definition on_manager {A} (p : SM Session.SessionCall Session.ConnectionManager Session.Fault A) : DM A :=
  zoom of_session manager put_manager id p.
Definition conf {A} (p : SM Config.ConfCall unit string A) : DM A :=
  zoom of_conf (fun _ => tt) (fun _ a => a) Session.Failed p.
Definition get_state_local : DM Session.ConnectionState := gets (fun a => Session.state (manager a)).

(** ** Asking the helper *)

Definition request (name : string) (args : list (string * Api.Value)) : Helper.HelperRequest Api.Value :=
  {| Helper.command := name; Helper.args := Api.json_object args |}.
Definition within {A : Set} (c : OwnCall (option (result string A))) : DM (result string A) :=
  r ← own c; mret (match r with Some r => r | None => Err "Helper request timed out" end).

(** One read of at most 4096 bytes. *)
Definition call_helper (req : Helper.HelperRequest Api.Value) : DM (result string Response) :=
  match request_to_vec req with
  | Err e => mret (Err e)
  | Ok bytes =>
      stream ← within OpenHelper;
      match stream with
      | Err e => mret (Err e)
      | Ok stream =>
          sent ← within (SendAll stream bytes);
          match sent with
          | Err e => mret (Err e)
          | Ok _ => got ← within (ReadSome stream); mret (buf ← got; response_from_slice buf)
          end
      end
  end.
Definition ask (name : string) : DM (result string Response) := call_helper (request name []).

(** [data["key"]] of serde_json: null where there is none. *)
Definition index (v : Api.Value) (key : string) : Api.Value :=
  match Api.as_object v with Some get => default Api.json_null (get key) | None => Api.json_null end.

Definition update_tray_icon (s : Session.ConnectionState) : DM unit :=
  own (SetTrayIcon (match s with
                    | Session.Connected => "trayicon_connected.png"
                    | _ => "trayicon_disconnected.png"
                    end)).

(** ** Logging in *)

Definition try_auto_login : DM bool := on_manager Session.try_auto_login.

(** The time of the login stays the one of the file. *)
Definition save_login (auth : Api.AuthResp) : DM unit :=
  loaded ← attempt (conf Config.load);
  match loaded with
  | Ok c => _ ← attempt (conf (Config.save (Config.with_auth (Some auth) (Config.token_obtained_at c) c))); mret tt
  | Err _ => mret tt
  end.
Definition logged_in (auth : Api.AuthResp) : DM unit :=
  _ ← save_login auth; st ← get_state_local; update_tray_icon st.

Definition login_pwd (email password : string) : DM unit :=
  auth ← on_manager (Session.login_with_password email password); logged_in auth.
Definition start_device_flow : DM Api.DeviceCodeResp := on_manager Session.start_device_flow.
Definition poll_device_flow (code : string) : DM Api.AuthResp :=
  auth ← on_manager (Session.poll_device_flow code); _ ← logged_in auth; mret auth.
Definition start_session_login : DM Api.SessionResponse := on_manager Session.start_session_login.

(** A login in the browser is waited for between the two parts of
    [wait_for_session_login]: the first cancels the login that waits and leaves
    the sender of a new channel. *)
Definition begin_wait : DM (string * Z) :=
  url ← gets (fun a => Session.base_url (manager a));
  channel ← own NewChannel;
  old ← gets login_cancel_tx;
  _ ← match old with Some c => own (SendCancel c) | None => mret tt end;
  _ ← modify (put_cancel (Some channel));
  mret (url, channel).
(** The sender that is there is dropped, whosever it is. *)
Definition clear_sender : DM unit :=
  old ← gets login_cancel_tx;
  _ ← match old with Some c => own (DropSender c) | None => mret tt end;
  modify (put_cancel None).
Definition end_wait (got : result Session.Fault Api.WebSocketTokenResponse) : DM Api.AuthResp :=
  _ ← clear_sender;
  token ← lift got;
  auth ← on_manager (Session.handle_login_token token);
  _ ← logged_in auth;
  mret auth.
(** [None]: the fuel of the wait is spent. *)
Definition wait_for_session_login (fuel : nat) (session_id : string) : DM (option Api.AuthResp) :=
  begun ← begin_wait;
  got ← attempt (on_manager (Session.wait_for_session_login fuel begun.1 session_id));
  match got with
  | Ok None => mret None
  | Ok (Some token) => auth ← end_wait (Ok token); mret (Some auth)
  | Err e => auth ← end_wait (Err e); mret (Some auth)
  end.
Definition cancel_session_login : DM unit :=
  old ← gets login_cancel_tx;
  match old with
  | Some c => _ ← modify (put_cancel None); own (SendCancel c)
  | None => mret tt
  end.

(** ** Asking the API *)

Definition list_networks : DM (list Api.VirtualNetworkResponse) := on_manager Session.get_networks.
Definition list_devices : DM (list Api.DeviceResponse) := on_manager Session.get_devices.
Definition get_network_devices (network_id : string) : DM (list Api.VirtualNetworkDeviceResponse) :=
  on_manager (Session.get_network_devices network_id).
Definition get_profile : DM Api.ProfileResponse :=
  r ← attempt (on_manager Session.get_profile);
  match r with
  | Ok p => mret p
  | Err (Session.Failed e) => fail ("Profile error: " +:+ e)
  | Err e => throw e
  end.
Definition get_device_id : DM string := zoom of_service (fun _ => tt) (fun _ a => a) id (Service.get_hardware_id hex_decode).

(** ** Connecting *)

Definition load_failed (e : string) : string :=
  if contains e "Permission denied" || contains e "os error 13" then
    "Cannot read config file (permission denied). This can happen if the CLI was run with sudo. Fix with: sudo chown $USER ~/.omniedge/auth.json"
    +:+ String "010" "" +:+ "Original error: " +:+ e
  else e.

(** [to_value] of [StartArgs]. *)
Definition json_option (o : option string) : Api.Value :=
  match o with Some s => Api.json_string s | None => Api.json_null end.
Definition start_args (a : Helper.StartArgs) : list (string * Api.Value) :=
  [("token", Api.json_string (Helper.token a)); ("network_id", Api.json_string (Helper.network_id a));
   ("device_id", Api.json_string (Helper.device_id a)); ("hardware_id", Api.json_string (Helper.hardware_id a));
   ("as_exit_node", json_bool (Helper.as_exit_node a)); ("nucleus", json_bool (Helper.nucleus a));
   ("exit_node_ip", json_option (Helper.exit_node_ip a)); ("exit_node_ip_v6", json_option (Helper.exit_node_ip_v6 a))].

Definition after_deadline (deadline : Z) : DM bool := now ← own Now; mret (deadline <? now).

(** A round of the loop after its pause: [true] when it is connected. *)
Definition poll_status (deadline : Z) : DM bool :=
  r ← ask "status";
  match r with
  | Ok resp =>
      if success resp then
        match data resp with
        | Some d =>
            match state_from_value (index d "state") with
            | Ok Session.Connected => _ ← update_tray_icon Session.Connected; mret true
            | Ok (Session.Error msg) =>
                _ ← update_tray_icon (Session.Error msg); fail ("VPN connection failed: " +:+ msg)
            | Ok Session.Disconnected =>
                late ← after_deadline deadline;
                if late : bool then fail "VPN connection timed out (still disconnected)" else mret false
            | Ok _ => late ← after_deadline deadline; if late : bool then fail "VPN connection timed out" else mret false
            | Err _ => mret false
            end
        | None => mret false
        end
      else
        late ← after_deadline deadline;
        if late : bool then fail "Lost communication with helper during connection" else mret false
  | Err _ =>
      late ← after_deadline deadline;
      if late : bool then fail "Lost communication with helper during connection" else mret false
  end.

(** [false]: the fuel is spent. *)
Fixpoint await_connection (fuel : nat) (deadline : Z) : DM bool :=
  match fuel with
  | O => mret false
  | S fuel =>
      _ ← own (Wait 500);
      there ← poll_status deadline;
      if there : bool then mret true else await_connection fuel deadline
  end.

(** The request, up to its acceptance; the name of an unregistered device goes
    into a copy of the configuration that is dropped. *)
Definition start_vpn (network_id : string) (as_exit_node nucleus : option bool) (exit_node exit_node_v6 : option string) : DM unit :=
  loaded ← attempt (conf Config.load);
  config ← match loaded with
           | Ok c => mret c
           | Err (Session.Failed e) => fail (load_failed e)
           | Err e => throw e
           end;
  auth ← or_throw (Session.Failed "Not authenticated") (Config.auth_response config);
  _ ← match Config.device_uuid config with
      | None => _ ← call (of_service _ (Service.host Service.Hostname)); mret tt
      | Some _ => mret tt
      end;
  hardware ← get_device_id;
  answer ← call_helper (request "start_vpn" (start_args {|
    Helper.token := Api.effective_token auth; Helper.network_id := network_id;
    Helper.device_id := default hardware (Config.device_uuid config); Helper.hardware_id := hardware;
    Helper.as_exit_node := default false as_exit_node; Helper.nucleus := default false nucleus;
    Helper.exit_node_ip := exit_node; Helper.exit_node_ip_v6 := exit_node_v6 |}));
  match answer with
  | Ok resp => if success resp then mret tt else fail (message resp)
  | Err e =>
      fail ("Background helper not running. Please click 'Install Service' to enable background operations (requires one-time elevation). Error: " +:+ e)
  end.
Definition connect (fuel : nat) (network_id : string) (as_exit_node nucleus : option bool)
    (exit_node exit_node_v6 : option string) : DM bool :=
  _ ← start_vpn network_id as_exit_node nucleus exit_node exit_node_v6;
  now ← own Now;
  await_connection fuel (now + from_secs 60).

(** ** The other commands that ask the helper

    Without an answer most turn to the manager of the application. *)

Definition or_local {A} (name : string) (args : list (string * Api.Value)) (answered : Response -> DM A) (local : DM A) : DM A :=
  r ← call_helper (request name args); match r with Ok resp => answered resp | Err _ => local end.
Definition accepted (resp : Response) : DM unit := if success resp then mret tt else fail (message resp).

Definition disconnect : DM unit :=
  _ ← or_local "stop_vpn" [] accepted (on_manager (Session.disconnect debug_args linux));
  update_tray_icon Session.Disconnected.
Definition logout : DM unit :=
  _ ← attempt disconnect;
  _ ← on_manager Session.logout;
  update_tray_icon Session.Disconnected.

Definition text_of (d : option Api.Value) : option string := v ← d; Api.as_str v.
Definition get_virtual_ip : DM string :=
  or_local "get_virtual_ip" []
    (fun resp => if success resp then mret (default "" (text_of (data resp))) else fail (message resp))
    (on_manager Session.get_virtual_ip).
Definition get_virtual_ip_v6 : DM (option string) :=
  or_local "get_virtual_ip_v6" []
    (fun resp => mret (if success resp
                       then s ← text_of (data resp); if bool_decide (s = "") then None else Some s
                       else None))
    (gets (fun a => Session.virtual_ip_v6 (Session.conn (manager a)))).

Definition state_of (resp : Response) : Session.ConnectionState :=
  if success resp then
    match data resp with
    | Some d => match state_from_value (index d "state") with Ok st => st | Err _ => Session.Disconnected end
    | None => Session.Disconnected
    end
  else Session.Disconnected.
Definition get_state : DM Session.ConnectionState :=
  st ← or_local "status" [] (fun resp => mret (state_of resp)) get_state_local;
  _ ← update_tray_icon st;
  mret st.

(** The helper is not asked. *)
Definition set_exit_node (network_id exit_node_id exit_node_ip : string) (exit_node_ip_v6 : option string) : DM unit :=
  on_manager (Session.set_exit_node debug_args linux network_id exit_node_id
    (if bool_decide (exit_node_ip = "") then None else Some exit_node_ip) exit_node_ip_v6).
Definition set_as_exit_node (enabled : bool) : DM unit :=
  or_local "set_as_exit_node" [("enabled", json_bool enabled)] accepted (on_manager (Session.set_as_exit_node enabled)).
Definition is_exit_node : DM bool :=
  or_local "is_exit_node" []
    (fun resp => if success resp then mret (default false (d ← data resp; as_bool d)) else fail (message resp))
    (gets (fun a => Session.as_exit_node (Session.role (manager a)))).

(** Three attempts, then the version. *)
Fixpoint ping (n : nat) : DM bool :=
  match n with
  | O => mret false
  | S n => r ← ask "ping"; match r with Ok _ => mret true | Err _ => _ ← own (Wait 500); ping n end
  end.
Definition is_rust_v2 (d : Api.Value) : bool :=
  match (get ← Api.as_object d; p ← get "protocol"; Api.as_str p) with
  | Some p => bool_decide (p = "rust-v2")
  | None => false
  end.
Definition check_helper : DM bool :=
  there ← ping 3;
  if negb there then mret false
  else
    r ← ask "version";
    mret (match r with
          | Ok resp => success resp && from_option is_rust_v2 false (data resp)
          | Err _ => false
          end).
Definition get_helper_version : DM Api.Value :=
  r ← ask "version";
  match r with
  | Ok resp => match (if success resp then data resp else None) with Some d => mret d | None => fail (message resp) end
  | Err e => fail e
  end.

(** ** The rest of the window *)

Definition set_window_pinned (b : bool) : DM unit := modify (put_pinned b).
Definition get_window_pinned : DM bool := gets window_pinned.
Definition open_browser (url : string) : DM unit := r ← own (OpenUrl url); match r with Ok _ => mret tt | Err e => fail e end.

Definition get_wireguard_mode : DM string :=
  c ← conf Config.load; mret (Config.display_name (Config.wireguard_mode (Config.network_config c))).
(** Not checked as the configuration of a manager would be. *)
Definition with_mode (mode : Config.WireGuardMode) (n : Config.NetworkConfig) : Config.NetworkConfig := {|
  Config.relay_enabled := Config.relay_enabled n; Config.relay_server := Config.relay_server n;
  Config.portmap_enabled := Config.portmap_enabled n; Config.encrypt_signaling := Config.encrypt_signaling n;
  Config.ipv6_enabled := Config.ipv6_enabled n; Config.prefer_ipv6 := Config.prefer_ipv6 n;
  Config.ipv6_preference_threshold_ms := Config.ipv6_preference_threshold_ms n;
  Config.happy_eyeballs_delay_ms := Config.happy_eyeballs_delay_ms n; Config.mtu := Config.mtu n;
  Config.mtu_auto_detect := Config.mtu_auto_detect n; Config.wireguard_mode := mode |}.
Definition set_wireguard_mode (mode : string) : DM unit :=
  match Config.parse_mode mode with
  | Err e => fail e
  | Ok wg_mode =>
      if negb linux && bool_decide (wg_mode = Config.Kernel) then fail "Kernel WireGuard mode is only supported on Linux"
      else
        c ← conf Config.load;
        conf (Config.save (Config.with_network (Config.is_exit_node c) (with_mode wg_mode (Config.network_config c)) c))
  end.
(** The values on offer, with their labels. *)
Definition get_wireguard_mode_options : list (string * string * string) :=
  [("auto", "Auto", "Automatically choose based on platform")] ++
  (if linux then [("kernel", "Kernel", "Better performance, requires wireguard kernel module")] else []) ++
  [("userspace", "Userspace (BoringTun)", "Works everywhere, supports relay fallback")].

(** The newest log: of several the last in the order of the directory. *)
Definition log_before (a b : LogFile) : bool :=
  match log_modified a, log_modified b with
  | None, _ => true | Some _, None => false | Some x, Some y => x <=? y
  end.
Definition latest_log (entries : list LogFile) : option LogFile :=
  last (sort_by log_before (List.filter (fun e => bool_decide (extension (log_path e) = Some "log")) entries)).
Definition last_lines (n : nat) (content : string) : string :=
  let ls := Config.lines content in join "010" (drop (length ls - n) ls).
Definition log_info : DM (list (string * Api.Value)) :=
  entries ← own ReadLogDir;
  match (es ← entries; latest_log es) with
  | None => mret []
  | Some latest =>
      content ← own (ReadLog (log_path latest));
      mret (match content with
            | Ok content => [("helper_logs", Api.json_string (last_lines 50 content)); ("log_file", Api.json_string (log_path latest))]
            | Err _ => []
            end)
  end.
Definition get_debug_info : DM (list (string * Api.Value)) :=
  r ← ask "status";
  let helper := match r with
                | Ok resp => [("helper_active", json_bool true);
                              match data resp with
                              | Some d => ("helper_state", d)
                              | None => ("helper_message", Api.json_string (message resp))
                              end]
                | Err _ => [("helper_active", json_bool false)]
                end in
  st ← get_state_local;
  logs ← log_info;
  mret (helper ++ [("local_state", state_to_value st)] ++ logs).

(** ** Keeping up with the helper

    A tick of the background task, with the state and network it saw last. *)
Definition sync_tick (seen : Session.ConnectionState * option string) : DM (Session.ConnectionState * option string) :=
  r ← ask "status";
  match r with
  | Ok resp =>
      match (if success resp then data resp else None) with
      | Some d =>
          match status_from_value d with
          | Ok st =>
              let now := (status_state st, status_network_id st) in
              if bool_decide (now = seen) then mret seen
              else
                _ ← on_manager (Session.sync_state (status_state st) (status_network_id st)
                                  (status_virtual_ip st) (status_virtual_ip_v6 st));
                _ ← update_tray_icon (status_state st);
                _ ← own (Emit st);
                mret now
          | Err _ => mret seen
          end
      | None => mret seen
      end
  | Err _ => mret seen
  end.

(** The application at its start. *)
Definition start (base_url : string) (public private : list Z) (loaded : result string Config.CliConfig) : AppState :=
  {| manager := Session.new base_url public private loaded; login_cancel_tx := None; window_pinned := false |}.
End Desktop.

(** ** The manager of the application

    It joins no network itself: whatever its state says, there is no
    connection of its own. *)

Abbreviation free := (fun (R : Set) _ (_ : R) => True) (only parsing).
Abbreviation any m s Q := (hoare (fun _ _ => True) free m s Q) (only parsing).

Section Theorems.
Context `{Api.ApiJson, Config.ConfigCodec, Peers.EndpointSets, Dispatcher.Disco} {J : DesktopJson}.
Context (debug_args : list string -> string) (hex_decode : string -> option (list Z)) (linux : bool).

Definition unjoined (m : Session.ConnectionManager) : Prop :=
  let c := Session.conn m in
  Session.tun c = None /\ Session.proto c = None /\ Session.device_id c = None /\ Session.hardware_id c = None /\
  Session.shutdown_tx c = false /\ Session.task_handles c = [].
Abbreviation stays p := (forall m, unjoined m -> any p m (fun m' _ => unjoined m')).

Lemma same_conn_unjoined m m' : Session.conn m' = Session.conn m -> unjoined m -> unjoined m'.
Proof. unfold unjoined. by intros ->. Qed.

(** Through an operation that does not touch the connection. *)
Ltac apart :=
  repeat first
    [ progress cbv beta iota zeta | apply Session.hoare_tolerate, Session.hoare_part; intros | apply Session.hoare_part; intros
    | sm_step
    | progress unfold Session.set_state, Session.use_token, Session.new_client, Session.authenticated, Session.logged_in,
        Session.web, Session.conf, Session.cmd, Session.get_profile
    | case_match ];
  try (intros; first [exact I | assumption | eapply same_conn_unjoined; [|eassumption]; done]).

Lemma auto_stays : stays Session.try_auto_login.
Proof. intros m Hm. unfold Session.try_auto_login. apart. Qed.
Lemma password_stays mail password : stays (Session.login_with_password mail password).
Proof. intros m Hm. unfold Session.login_with_password. apart. Qed.
Lemma device_flow_stays code : stays (Session.poll_device_flow code).
Proof. intros m Hm. unfold Session.poll_device_flow. apart. Qed.
Lemma token_stays t : stays (Session.handle_login_token t).
Proof. intros m Hm. unfold Session.handle_login_token. apart. Qed.
Lemma logout_stays : stays Session.logout.
Proof. intros m Hm. unfold Session.logout. apart. Qed.
Lemma as_exit_stays b : stays (Session.set_as_exit_node b).
Proof. intros m Hm. unfold Session.set_as_exit_node. apart. Qed.
Lemma sync_stays st n ip v6 : stays (Session.sync_state st n ip v6).
Proof. intros m (Ht & Hp & Hd & Hh & Hs & Hk). unfold Session.sync_state, Session.set_state. by repeat sm_step. Qed.

(** Leaving finds nothing to stop. *)
Lemma leaving_stays : stays (Session.disconnect debug_args linux).
Proof.
  intros m (Ht & Hp & Hd & Hh & Hs & Hk). unfold Session.disconnect, Session.set_state, Session.stop_tasks.
  repeat first [progress cbn [Session.conn Session.put_state] | rewrite Hs | rewrite Hk | rewrite Ht
    | rewrite bool_decide_true by done | sm_step | progress cbv beta iota].
  apply Session.release_mapping; intros r; cbv beta iota; do 2 (sm_step; try sm_step; cbv beta iota).
  all: apply (Session.calm_cleanup linux true); [intros u; cbv beta iota|done].
  all: apart; unfold unjoined; cbn; by split_and!.
Qed.

Lemma exit_node_refused n e ip v6 m :
  unjoined m ->
  hoare (fun _ _ => False) free (Session.set_exit_node debug_args linux n e ip v6) m (fun m' r =>
    m' = m /\ (r = Err (Session.Failed "Not authenticated") \/ r = Err (Session.Failed "Device ID not set"))).
Proof.
  intros (Ht & Hp & Hd & Hh & Hs & Hk). unfold Session.set_exit_node, Session.authenticated. sm_step. sm_step. sm_step. cbv beta iota.
  destruct (Session.api_client m) as [c|]; cbn [or_throw]; sm_step; cbv beta iota; [|by split; [|left]].
  sm_step. sm_step. cbv beta iota. rewrite Hd. sm_step. cbn [or_throw]. sm_step. by split; [|right].
Qed.

(** ** What the commands keep *)

Lemma hoare_local {A} (p : SM Session.SessionCall Session.ConnectionManager Session.Fault A) a Q :
  any p (manager a) (fun m r => Q (put_manager m a) r) -> any (on_manager p) a Q.
Proof.
  intros Hp. eapply (hoare_zoom of_session manager put_manager id (fun _ _ => True) free); [done|done|exact Hp|].
  by intros m [x|e] HQ.
Qed.
Lemma hoare_conf {A} (p : SM Config.ConfCall unit string A) a Q :
  (forall x, Q a (Ok x)) -> (forall e, Q a (Err (Session.Failed e))) -> any (conf p) a Q.
Proof.
  intros Ho He. eapply (hoare_zoom of_conf _ _ _ (fun _ _ => True) free _ _ _ _ (fun _ _ => True)); [done|done|apply hoare_any|].
  intros _ [x|e] _; auto.
Qed.
Lemma hoare_helper req a Q : (forall r, Q a (Ok r)) -> any (call_helper req) a Q.
Proof.
  intros HQ. unfold call_helper, within, own. repeat first [progress cbv beta iota zeta | exact I | sm_step | case_match]; apply HQ.
Qed.

(** The commands of the window, and the tick of the background. *)
Inductive command : forall A, SM DeskCall AppState Session.Fault A -> Prop :=
| cmd_auto : command _ try_auto_login
| cmd_password e p : command _ (login_pwd e p)
| cmd_device : command _ start_device_flow
| cmd_poll c : command _ (poll_device_flow c)
| cmd_session : command _ start_session_login
| cmd_begin : command _ begin_wait
| cmd_end got : command _ (end_wait got)
| cmd_wait fuel i : command _ (wait_for_session_login fuel i)
| cmd_cancel : command _ cancel_session_login
| cmd_networks : command _ list_networks
| cmd_devices : command _ list_devices
| cmd_members n : command _ (get_network_devices n)
| cmd_profile : command _ get_profile
| cmd_connect fuel n e nu ip v6 : command _ (connect hex_decode fuel n e nu ip v6)
| cmd_disconnect : command _ (disconnect debug_args linux)
| cmd_logout : command _ (logout debug_args linux)
| cmd_ip : command _ get_virtual_ip
| cmd_ip_v6 : command _ get_virtual_ip_v6
| cmd_state : command _ get_state
| cmd_exit n e ip v6 : command _ (set_exit_node debug_args linux n e ip v6)
| cmd_as_exit b : command _ (set_as_exit_node b)
| cmd_is_exit : command _ is_exit_node
| cmd_check : command _ check_helper
| cmd_mode m : command _ (set_wireguard_mode linux m)
| cmd_debug : command _ get_debug_info
| cmd_sync seen : command _ (sync_tick seen).

Definition alone (a : AppState) : Prop := unjoined (manager a).

(** A manager's operation through which it stays unjoined. *)
Lemma local_stays {A} (p : SM Session.SessionCall Session.ConnectionManager Session.Fault A) a
    (Q : AppState -> result Session.Fault A -> Prop) :
  stays p -> alone a -> (forall a' r, alone a' -> Q a' r) -> any (on_manager p) a Q.
Proof. intros Hp Ha HQ. apply hoare_local. eapply hoare_mono; [by apply Hp|]. intros m r Hm. by apply HQ. Qed.
(** One that only asks. *)
Lemma asks_stay {A} (p : SM Api.HttpCall unit string A) : stays (Session.web p).
Proof. intros m Hm. by apply Session.hoare_part; intros. Qed.
Lemma networks_stay : stays Session.get_networks.
Proof. intros m Hm. unfold Session.get_networks. apart. Qed.
Lemma devices_stay : stays Session.get_devices.
Proof. intros m Hm. unfold Session.get_devices. apart. Qed.
Lemma members_stay n : stays (Session.get_network_devices n).
Proof. intros m Hm. unfold Session.get_network_devices. apart. Qed.
Lemma profile_stays : stays Session.get_profile.
Proof. intros m Hm. apart. Qed.
Lemma device_code_stays : stays Session.start_device_flow.
Proof. intros m Hm. unfold Session.start_device_flow. apart. Qed.
Lemma session_stays : stays Session.start_session_login.
Proof. intros m Hm. unfold Session.start_session_login. apart. Qed.
Lemma ip_stays : stays Session.get_virtual_ip.
Proof. intros m Hm. unfold Session.get_virtual_ip. apart. Qed.
Lemma exit_stays n e ip v6 : stays (Session.set_exit_node debug_args linux n e ip v6).
Proof.
  intros m Hm. eapply hoare_weaken; [by apply exit_node_refused|done|]. by intros m' r [-> _].
Qed.
Lemma waiting_stays fuel url i : stays (Session.wait_for_session_login fuel url i).
Proof.
  assert (Hw : forall fuel, stays (Session.await_token fuel)).
  { clear fuel. intros fuel. induction fuel as [|fuel IH]; intros m Hm; cbn [Session.await_token]; [by sm_step|].
    sm_step. apply Session.hoare_perform. intros e. cbv beta iota. repeat case_match; try by sm_step. by apply IH. }
  intros m Hm. unfold Session.wait_for_session_login. cbv zeta. sm_step. apply Session.hoare_perform_ok; [intros u|done]. cbv beta iota.
  sm_step. apply Session.hoare_perform. intros r. cbv beta iota. repeat case_match; try by sm_step. by apply Hw.
Qed.

#[local] Create HintDb stays discriminated.
#[local] Hint Resolve auto_stays password_stays device_flow_stays token_stays logout_stays as_exit_stays sync_stays leaving_stays
  networks_stay devices_stay members_stay profile_stays device_code_stays session_stays ip_stays exit_stays waiting_stays : stays.

Abbreviation kept p := (forall a, alone a -> any p a (fun a' _ => alone a')).
Lemma by_kept {A} (p : SM DeskCall AppState Session.Fault A) a (Q : AppState -> result Session.Fault A -> Prop) :
  kept p -> alone a -> (forall a' r, alone a' -> Q a' r) -> any p a Q.
Proof. intros Hp Ha HQ. eapply hoare_mono; [by apply Hp|]. intros a' r. apply HQ. Qed.

(** Through a program of the application, by its parts. *)
Ltac keep_alone :=
  repeat first
    [ progress cbv beta iota zeta | exact I | assumption
    | apply local_stays; [solve [auto 3 with stays nocore]|assumption|intros ? ? ?]
    | apply by_kept; [solve [auto 3 with stays nocore]|assumption|intros ? [?|?] ?]
    | apply hoare_conf; intros ? | apply hoare_helper; intros ? | sm_step
    | progress unfold own, fail, update_tray_icon, logged_in, save_login, get_state_local, or_local, accepted, ask, after_deadline,
        clear_sender, begin_wait, end_wait
    | case_match ];
  try (intros; first [exact I | assumption]).
Lemma get_device_id_kept : kept (get_device_id hex_decode).
Proof.
  intros a Ha. eapply (hoare_zoom of_service _ _ _ (fun _ _ => True) free _ _ _ _ (fun _ _ => True)); [done|done|apply hoare_any|].
  done.
Qed.
#[local] Hint Resolve get_device_id_kept : stays.
Lemma poll_kept d : kept (poll_status d).
Proof. intros a Ha. unfold poll_status. keep_alone. Qed.
#[local] Hint Resolve poll_kept : stays.
Lemma await_kept fuel d : kept (await_connection fuel d).
Proof. induction fuel as [|fuel IH]; intros a Ha; cbn [await_connection]; [by sm_step|]. keep_alone. Qed.
Lemma ping_kept n : kept (ping n).
Proof. induction n as [|n IH]; intros a Ha; cbn [ping]; [by sm_step|]. keep_alone. Qed.
Lemma start_vpn_kept n e nu ip v6 : kept (start_vpn hex_decode n e nu ip v6).
Proof. intros a Ha. unfold start_vpn. keep_alone. Qed.
Lemma disconnect_kept : kept (disconnect debug_args linux).
Proof. intros a Ha. unfold disconnect. keep_alone. Qed.
#[local] Hint Resolve await_kept ping_kept start_vpn_kept disconnect_kept : stays.

Lemma commands_kept A (p : SM DeskCall AppState Session.Fault A) : command A p -> kept p.
Proof.
  destruct 1; intros a Ha;
    unfold try_auto_login, login_pwd, start_device_flow, poll_device_flow, start_session_login, wait_for_session_login,
      cancel_session_login, list_networks, list_devices, get_network_devices, get_profile, connect, logout, get_virtual_ip,
      get_virtual_ip_v6, get_state, set_exit_node, set_as_exit_node, is_exit_node, check_helper, set_wireguard_mode,
      get_debug_info, log_info, sync_tick.
  all: keep_alone.
Qed.

(** The states an application comes to. *)
Inductive comes_to (a0 : AppState) : AppState -> Prop :=
| comes_start : comes_to a0 a0
| comes_on {A W} (sys : forall R : Set, DeskCall R -> W -> R * W) (p : SM DeskCall AppState Session.Fault A) a w a' r w' :
    comes_to a0 a -> command A p -> run_prog sys (p a) w = ((a', r), w') -> comes_to a0 a'.

Lemma application_alone url public private loaded a : comes_to (start url public private loaded) a -> alone a.
Proof.
  induction 1 as [|A W sys p a w a' r w' _ IH Hc Hr].
  - unfold alone, start, Session.new. by destruct loaded.
  - pose proof (run_hoare sys p a _ w (commands_kept A p Hc a IH)) as Hk. by rewrite Hr in Hk.
Qed.

(** Claim C40: However an application is used, choosing an exit node is refused, before
    anything is asked of the API: the manager it asks never joins a network, so
    it has no device; the connection is the helper's. *)
Theorem exit_node_out_of_reach url public private loaded a n e ip v6 :
  comes_to (start url public private loaded) a ->
  hoare (fun _ _ => False) free (set_exit_node debug_args linux n e ip v6) a (fun a' r =>
    a' = a /\ (r = Err (Session.Failed "Not authenticated") \/ r = Err (Session.Failed "Device ID not set"))).
Proof.
  intros Ha%application_alone. unfold set_exit_node, on_manager.
  eapply (hoare_zoom of_session manager put_manager id (fun _ _ => False) free); [done|done|by apply exit_node_refused|].
  intros m r [-> Hr]. split; [by destruct a|]. by destruct Hr as [-> | ->]; [left|right].
Qed.

(** ** Connecting *)

(** What the replies are known to satisfy: a clock past [t], and answers of
    the helper that say more than that all is well. *)
Definition readable (bytes : list Z) : Prop :=
  forall resp, response_from_slice bytes = Ok resp -> success resp = true ->
  exists d st, data resp = Some d /\ state_from_value (index d "state") = Ok st.
Definition telling (t : Z) (R : Set) (c : DeskCall R) : R -> Prop :=
  match c with
  | inl c =>
      match c in OwnCall R return R -> Prop with
      | Now => fun now => t <= now
      | ReadSome _ => fun r => forall bytes, r = Some (Ok bytes) -> readable bytes
      | _ => fun _ => True
      end
  | _ => fun _ => True
  end.

(** Through a call to the helper, with what is known of the bytes it answers. *)
Lemma hoare_answer (L : forall R : Set, DeskCall R -> R -> Prop) req a (Q : AppState -> result Session.Fault (result string Response) -> Prop) :
  (forall e, Q a (Ok (Err e))) ->
  (forall bytes stream, L _ (inl (ReadSome stream) : DeskCall _) (Some (Ok bytes)) -> Q a (Ok (response_from_slice bytes))) ->
  hoare (fun _ _ => True) L (call_helper req) a Q.
Proof.
  intros He Hb. unfold call_helper, within, own. destruct (request_to_vec req) as [bytes|e]; [|apply He].
  sm_step. sm_step. sm_step; [done|]. cbv beta iota. sm_step. destruct r as [[stream|e]|]; cbv beta iota; try (sm_step; apply He).
  sm_step. sm_step. sm_step; [done|]. cbv beta iota. sm_step. destruct r as [[u|e]|]; cbv beta iota; try (sm_step; apply He).
  sm_step. sm_step. sm_step; [done|]. cbv beta iota. sm_step. sm_step. destruct r as [[buf|e]|]; cbn; try apply He. by eapply Hb.
Qed.

(** A round that goes on was before the deadline. *)
Lemma late_round_ends t d a :
  hoare (fun _ _ => True) (telling t) (poll_status d) a (fun _ r => r = Ok false -> t <= d).
Proof.
  assert (Hlate : forall e (Q : AppState -> result Session.Fault bool -> Prop),
    (forall x, Q a (Err x)) -> (t <= d -> Q a (Ok false)) ->
    hoare (fun _ _ => True) (telling t) (late ← after_deadline d; if late : bool then fail e else mret false) a Q).
  { intros e Q Hx Hf. unfold after_deadline, own, fail. sm_step. sm_step. sm_step; [done|]. cbv beta iota. sm_step. cbn in *.
    case_match; [apply Hx|]. apply Hf. lia. }
  unfold poll_status, ask. sm_step. apply hoare_answer; [intros e|intros bytes stream Hb]; cbv beta iota.
  - by apply Hlate.
  - specialize (Hb _ eq_refl). destruct (response_from_slice bytes) as [resp|e] eqn:Er; [|by apply Hlate].
    destruct (success resp) eqn:Es; [|by apply Hlate]. destruct (Hb _ Er Es) as (v & st & -> & ->).
    destruct st; try (by apply Hlate); unfold update_tray_icon, own, fail; sm_step; sm_step; try done; cbv beta iota; by sm_step.
Qed.

(** A world with a clock that pauses move on, and a helper that answers as
    [telling] says. *)
Section Clock.
Context {W : Type} (sys : forall R : Set, DeskCall R -> W -> R * W) (clock : W -> Z).
Context (Hmono : forall (R : Set) (c : DeskCall R) w, clock w <= clock (sys R c w).2).
Context (Hwait : forall ms w, clock w + ms * 1000000 <= clock (sys _ (inl (Wait ms)) w).2).
Context (Hnow : forall w, clock w <= (sys _ (inl Now) w).1 <= clock (sys _ (inl Now) w).2).
Context (Htell : forall stream bytes w, (sys _ (inl (ReadSome stream)) w).1 = Some (Ok bytes) -> readable bytes).

Lemma world_tells t (R : Set) (c : DeskCall R) w : t <= clock w -> telling t R c (sys R c w).1 /\ t <= clock (sys R c w).2.
Proof.
  intros Ht. pose proof (Hmono R c w). split; [|lia]. destruct c as [c|c]; [|done].
  destruct c; try done; cbn; [intros bytes; apply Htell|]. pose proof (Hnow w). lia.
Qed.

Lemma round_ends d a w a' w' : run_prog sys (poll_status d a) w = ((a', Ok false), w') -> clock w <= d.
Proof.
  intros Hr.
  pose proof (wp_run (fun _ _ => True) (telling (clock w)) sys (fun w' => clock w <= clock w') _ _ w
    (fun R c w1 H1 _ => world_tells (clock w) R c w1 H1) (late_round_ends (clock w) d a) (Z.le_refl _)) as [Hw _].
  rewrite Hr in Hw. by apply Hw.
Qed.

Lemma await_ends fuel d a w :
  d < clock w + Z.of_nat fuel * 500000000 -> (0 < fuel)%nat -> (run_prog sys (await_connection fuel d a) w).1.2 <> Ok false.
Proof.
  revert a w. induction fuel as [|fuel IH]; intros a w Hd Hf; [lia|]. cbn [await_connection]. unfold own.
  rewrite run_sm_bind. cbn [run_prog call]. pose proof (Hwait 500 w) as Hw. destruct (sys _ (inl (Wait 500)) w) as [u w1]. cbn in Hw.
  rewrite run_sm_bind. pose proof (round_ends d a w1) as Hround.
  pose proof (run_grows sys clock (fun R c w => Hmono R c w) (poll_status d a) w1) as Hg.
  destruct (run_prog sys (poll_status d a) w1) as [[a2 [[]|e]] w2]; [done| |done]. specialize (Hround _ _ eq_refl). cbn in Hg.
  destruct fuel as [|fuel]; [lia|]. apply IH; lia.
Qed.

(** Waiting for a connection ends: with a helper whose answers carry a state,
    connecting succeeds or fails, within the pauses that fit into a minute. *)
Theorem connect_ends fuel n e nu ip v6 a w :
  (121 <= fuel)%nat -> (run_prog sys (connect hex_decode fuel n e nu ip v6 a) w).1.2 <> Ok false.
Proof.
  intros Hf. unfold connect. rewrite run_sm_bind. destruct (run_prog sys (start_vpn _ _ _ _ _ _ a) w) as [[a1 [u|x]] w1]; [|done].
  rewrite run_sm_bind. unfold own. cbn [run_prog call]. pose proof (Hnow w1). destruct (sys _ (inl Now) w1) as [now w2].
  apply await_ends; [|lia]. cbn in *. unfold from_secs, nanos_per_sec. lia.
Qed.
End Clock.

(** A request that is answered. *)
Lemma run_answered {W} (sys : forall R : Set, DeskCall R -> W -> R * W) req a w b stream w1 w2 got w3 :
  request_to_vec req = Ok b -> sys _ (inl OpenHelper) w = (Some (Ok stream), w1) ->
  sys _ (inl (SendAll stream b)) w1 = (Some (Ok tt), w2) -> sys _ (inl (ReadSome stream)) w2 = (Some (Ok got), w3) ->
  run_prog sys (call_helper req a) w = ((a, Ok (response_from_slice got)), w3).
Proof.
  intros Hv Ho Hs Hr. unfold call_helper, within, own. rewrite Hv. rewrite !run_sm_bind. cbn [run_prog call]. rewrite Ho.
  cbn [run_prog mret SM_ret]. rewrite !run_sm_bind. cbn [run_prog call]. rewrite Hs. cbn [run_prog mret SM_ret].
  rewrite !run_sm_bind. cbn [run_prog call]. rewrite Hr. done.
Qed.

(** An answer without a state is no reason to stop: with a helper that gives no
    other, no fuel is enough. *)
Definition replies_of (answer : forall R : Set, OwnCall R -> R) (other : forall R : Set, Service.ServiceCall R -> R)
    (R : Set) (c : DeskCall R) (w : unit) : R * unit :=
  (match c with inl c => answer R c | inr c => other R c end, w).
Theorem connect_may_not_end fuel (answer : forall R : Set, OwnCall R -> R) other d a b bytes resp :
  request_to_vec (request "status" []) = Ok b ->
  answer _ OpenHelper = Some (Ok 0) -> answer _ (SendAll 0 b) = Some (Ok tt) -> answer _ (ReadSome 0) = Some (Ok bytes) ->
  response_from_slice bytes = Ok resp -> success resp = true -> data resp = None ->
  (run_prog (replies_of answer other) (await_connection fuel d a) tt).1.2 = Ok false.
Proof.
  intros Hv Ho Hs Hr Hp Hok Hd. induction fuel as [|fuel IH]; [done|]. cbn [await_connection]. unfold own.
  rewrite run_sm_bind. cbn [run_prog call replies_of]. rewrite run_sm_bind.
  assert (Hround : run_prog (replies_of answer other) (poll_status d a) tt = ((a, Ok false), tt)).
  { unfold poll_status, ask. rewrite run_sm_bind, (run_answered _ _ a tt b 0 tt tt bytes tt); unfold replies_of; try congruence.
    by rewrite Hp, Hok, Hd. }
  by rewrite Hround.
Qed.

(** A connection is made only when the helper says that it is. *)
Definition never_connected (R : Set) (c : DeskCall R) : R -> Prop :=
  match c with
  | inl c =>
      match c in OwnCall R return R -> Prop with
      | ReadSome _ => fun r => forall bytes resp d, r = Some (Ok bytes) -> response_from_slice bytes = Ok resp ->
          success resp = true -> data resp = Some d -> state_from_value (index d "state") <> Ok Session.Connected
      | _ => fun _ => True
      end
  | inr _ => fun _ => True
  end.
Theorem connect_needs_word fuel n e nu ip v6 a :
  hoare (fun _ _ => True) never_connected (connect hex_decode fuel n e nu ip v6) a (fun _ r => r <> Ok true).
Proof.
  unfold connect. sm_step. eapply hoare_mono; [apply hoare_any|]. intros a1 [u|x] _; [|done]. cbv beta iota.
  unfold own. sm_step. sm_step; [done|]. cbv beta iota. generalize (r + from_secs 60) as d. clear r H3. revert a1.
  induction fuel as [|fuel IH]; intros a1 d; cbn [await_connection]; [by sm_step|].
  sm_step. unfold own. sm_step; [done|]. cbv beta iota. sm_step.
  apply (hoare_mono _ _ _ _ (fun _ r => r <> Ok true)).
  - unfold poll_status, ask. sm_step. apply hoare_answer; [intros x|intros bytes stream Hb]; cbv beta iota.
    + unfold after_deadline, own, fail. repeat first [progress cbv beta iota | done | sm_step].
    + destruct (response_from_slice bytes) as [resp|x] eqn:Er.
      2: { unfold after_deadline, own, fail. repeat first [progress cbv beta iota | done | sm_step]. }
      destruct (success resp) eqn:Es.
      2: { unfold after_deadline, own, fail. repeat first [progress cbv beta iota | done | sm_step]. }
      destruct (data resp) as [v|] eqn:Ev; [|by sm_step]. pose proof (Hb _ _ v eq_refl Er Es Ev) as Hn.
      unfold after_deadline, own, fail, update_tray_icon.
      destruct (state_from_value _) as [[]|]; try done; repeat first [progress cbv beta iota | done | sm_step].
  - intros a2 [[]|x] Hr; [done| |done]. cbv beta iota. apply IH.
Qed.

(** ** Logins in the browser

    Each login waits in a task of its own, between the two parts of
    [wait_for_session_login]; [true]: it was told to stop, by a message or
    because its sender was dropped. *)

Record Logins : Type := { app : AppState; waits : gmap Z bool }.
Inductive LoginEvent : Set := Began (channel : Z) | Ended (channel : Z) | CancelAsked.

Definition stops (c : Call DeskCall) : option Z :=
  match c with existT _ (inl (SendCancel ch)) => Some ch | existT _ (inl (DropSender ch)) => Some ch | _ => None end.
Definition tell (log : list (Call DeskCall)) (m : gmap Z bool) : gmap Z bool :=
  foldr (alter (fun _ => true)) m (omap stops log).
Definition CANCELLED : Session.Fault := Session.Failed "Login cancelled by user".

Inductive login_step (s : Logins) : LoginEvent -> Logins -> Prop :=
| step_begin {W} (sys : forall R : Set, DeskCall R -> W -> R * W) w a' url ch w' log :
    run_prog (traced sys) (begin_wait (app s)) (w, []) = ((a', Ok (url, ch)), (w', log)) -> waits s !! ch = None ->
    login_step s (Began ch) {| app := a'; waits := <[ch := false]> (tell log (waits s)) |}
| step_end {W} (sys : forall R : Set, DeskCall R -> W -> R * W) w ch told got a' r w' log :
    waits s !! ch = Some told -> (got = Err CANCELLED -> told = true) ->
    run_prog (traced sys) (end_wait got (app s)) (w, []) = ((a', r), (w', log)) ->
    login_step s (Ended ch) {| app := a'; waits := tell log (delete ch (waits s)) |}
| step_cancel {W} (sys : forall R : Set, DeskCall R -> W -> R * W) w a' r w' log :
    run_prog (traced sys) (cancel_session_login (app s)) (w, []) = ((a', r), (w', log)) ->
    login_step s CancelAsked {| app := a'; waits := tell log (waits s) |}.
Inductive logins (a : AppState) : list LoginEvent -> Logins -> Prop :=
| logins_start : logins a [] {| app := a; waits := ∅ |}
| logins_on tr s e s' : logins a tr s -> login_step s e s' -> logins a (tr ++ [e]) s'.

(** The logins that wait untold are that of the sender that is kept. *)
Definition kept_lives (s : Logins) : Prop := forall ch, waits s !! ch = Some false <-> login_cancel_tx (app s) = Some ch.

Lemma tell_one c m : tell [c] m = match stops c with Some ch => alter (fun _ => true) ch m | None => m end.
Proof. unfold tell. cbn. by destruct (stops c). Qed.
Lemma tell_untold log m ch : tell log m !! ch = Some false <-> m !! ch = Some false /\ ch ∉ omap stops log.
Proof.
  unfold tell. induction (omap stops log) as [|x l IH]; cbn; [set_solver|]. destruct (decide (x = ch)) as [->|Hn].
  - rewrite lookup_alter_eq. split; [by destruct (foldr _ m l !! ch)|]. set_solver.
  - rewrite lookup_alter_ne by done. rewrite IH. set_solver.
Qed.

(** What is in the log stays there. *)
Lemma traced_keeps {W A} (sys : forall R : Set, DeskCall R -> W -> R * W) (p : prog DeskCall A) wl c :
  c ∈ wl.2 -> c ∈ (run_prog (traced sys) p wl).2.2.
Proof.
  revert wl. induction p as [x|R d k IH]; intros [w l] Hc; cbn in *; [done|]. unfold traced at 1. cbn.
  destruct (sys R d w) as [r w']. apply IH. cbn. set_solver.
Qed.

(** A login that ends drops the sender that is kept and keeps none. *)
Lemma hoare_slot {A} (p : SM Session.SessionCall Session.ConnectionManager Session.Fault A) a :
  any (on_manager p) a (fun a' _ => login_cancel_tx a' = login_cancel_tx a).
Proof. apply hoare_local. eapply hoare_mono; [apply hoare_any|done]. Qed.
Lemma logged_in_slot auth a : any (logged_in auth) a (fun a' _ => login_cancel_tx a' = login_cancel_tx a).
Proof.
  unfold logged_in, save_login, get_state_local, update_tray_icon, own.
  repeat first [progress cbv beta iota | exact I | reflexivity | apply hoare_conf; intros ? | sm_step | case_match].
Qed.
Definition dropping (c : Z) : Call DeskCall := existT _ (inl (DropSender c) : DeskCall unit).
Definition dropped (o : option Z) : list (Call DeskCall) := dropping <$> option_list o.
Lemma run_clear {W} (sys : forall R : Set, DeskCall R -> W -> R * W) a w l :
  exists w', run_prog (traced sys) (clear_sender a) (w, l) = ((put_cancel None a, Ok tt), (w', l ++ dropped (login_cancel_tx a))).
Proof.
  unfold clear_sender, own. rewrite run_sm_bind. cbn [run_prog gets]. rewrite run_sm_bind. destruct (login_cancel_tx a) as [c|].
  - cbn [run_prog call]. unfold traced at 1. cbn [fst snd]. destruct (sys _ _ w) as [[] w1]. by exists w1.
  - exists w. by rewrite app_nil_r.
Qed.
Lemma end_wait_spec {W} (sys : forall R : Set, DeskCall R -> W -> R * W) got a w a' r w' log :
  run_prog (traced sys) (end_wait got a) (w, []) = ((a', r), (w', log)) ->
  login_cancel_tx a' = None /\ forall c, login_cancel_tx a = Some c -> c ∈ omap stops log.
Proof.
  unfold end_wait. rewrite run_sm_bind. destruct (run_clear sys a w []) as [w1 ->]. rewrite app_nil_l.
  set (rest := token ← lift got; _). intros Hr. split.
  - assert (Hslot : any rest (put_cancel None a) (fun a' _ => login_cancel_tx a' = None)).
    { unfold rest. sm_step. destruct got as [t|x]; cbn [lift]; sm_step; [|done]. sm_step.
      eapply hoare_mono; [apply hoare_slot|]. intros a2 [auth|x] Hs; [|done]. cbv beta iota. sm_step.
      eapply hoare_mono; [apply logged_in_slot|]. intros a3 [u|x] Hl; [|by rewrite Hl]. cbv beta iota. sm_step. by rewrite Hl. }
    pose proof (run_hoare (traced sys) _ _ _ (w1, dropped (login_cancel_tx a)) Hslot) as Hn. by rewrite Hr in Hn.
  - intros c Hc. pose proof (traced_keeps sys (rest (put_cancel None a)) (w1, dropped (login_cancel_tx a)) (dropping c)) as Hk.
    rewrite Hr, Hc in Hk. apply list_elem_of_omap. exists (dropping c). split; [|done]. apply Hk, list_elem_of_here.
Qed.
Lemma begin_wait_spec {W} (sys : forall R : Set, DeskCall R -> W -> R * W) a w a' url ch w' log :
  run_prog (traced sys) (begin_wait a) (w, []) = ((a', Ok (url, ch)), (w', log)) ->
  login_cancel_tx a' = Some ch /\ omap stops log = option_list (login_cancel_tx a).
Proof.
  unfold begin_wait, own. rewrite !run_sm_bind. cbn [run_prog gets]. rewrite run_sm_bind. cbn [run_prog call]. unfold traced at 1. cbn [fst snd].
  destruct (sys _ _ w) as [c w1]. rewrite run_sm_bind. cbn [run_prog gets]. rewrite run_sm_bind. destruct (login_cancel_tx a) as [o|].
  - cbn [run_prog call]. unfold traced at 1. cbn [fst snd]. destruct (sys _ _ w1) as [u w2]. cbn. by intros [= <- <- <- <- <-].
  - cbn. by intros [= <- <- <- <- <-].
Qed.
Lemma cancel_spec {W} (sys : forall R : Set, DeskCall R -> W -> R * W) a w a' r w' log :
  run_prog (traced sys) (cancel_session_login a) (w, []) = ((a', r), (w', log)) ->
  login_cancel_tx a' = None /\ omap stops log = option_list (login_cancel_tx a).
Proof.
  unfold cancel_session_login, own. rewrite run_sm_bind. cbn [run_prog gets]. destruct (login_cancel_tx a) as [o|] eqn:Eo.
  - rewrite run_sm_bind. cbn [run_prog modify call]. unfold traced at 1. cbn [fst snd]. destruct (sys _ _ w) as [u w1]. cbn. by intros [= <- <- <- <-].
  - cbn. by intros [= <- <- <- <-].
Qed.

(** Claim C13: However logins in the browser overlap, the one that waits untold is the
    one whose sender is kept, so that a cancel reaches it; but after any login
    has ended, be it one that another replaced, none is left that was not told to
    stop. *)
Theorem one_login_lives a tr s :
  login_cancel_tx a = None -> logins a tr s ->
  kept_lives s /\ forall ch s', login_step s (Ended ch) s' -> forall b, waits s' !! b <> Some false.
Proof.
  clear hex_decode. intros Ha Hl. assert (Hk : kept_lives s).
  { induction Hl as [|tr s e s' Hl Hk Hs]; [intros ch; cbn; by rewrite Ha|]. intros ch. destruct Hs as
      [W sys w a' url c w' log Hr Hn|W sys w c told got a' r w' log Hw Hg Hr|W sys w a' r w' log Hr]; cbn.
    - apply begin_wait_spec in Hr as [-> Ho]. destruct (decide (c = ch)) as [->|Hc]; [by rewrite lookup_insert_eq|].
      rewrite lookup_insert_ne, tell_untold, (Hk ch), Ho by done.
      split; [|by intros [= ?]]. intros [-> Hno]. cbn in Hno. set_solver.
    - apply end_wait_spec in Hr as [-> Hd]. split; [|done]. rewrite tell_untold. intros [Hu Hno].
      apply lookup_delete_Some in Hu as [_ Hu]. by apply Hk, Hd in Hu.
    - apply cancel_spec in Hr as [-> Ho]. split; [|done]. rewrite tell_untold, (Hk ch), Ho. intros [-> Hno]. cbn in Hno. set_solver. }
  split; [done|]. intros ch s' Hs b Hb. inversion Hs as [|W sys w c told got a' r w' log Hw Hg Hr|]; subst. cbn in Hb.
  apply end_wait_spec in Hr as [_ Hd]. apply tell_untold in Hb as [Hu Hno]. apply lookup_delete_Some in Hu as [_ Hu].
  by apply Hk, Hd in Hu.
Qed.

(** ** The helper's word *)

(** A tick of the background leaves everything as it is, or brings state and
    network of the manager to those the helper told; either way it remembers what
    it saw. *)
Theorem sync_mirrors seen a :
  any (sync_tick seen) a (fun a' r => exists now, r = Ok now /\
    (a' = a /\ now = seen \/
     Session.state (manager a') = now.1 /\ Session.current_network_id (Session.conn (manager a')) = now.2)).
Proof.
  assert (Hstay : exists now, @Ok Session.Fault _ seen = Ok now /\ (a = a /\ now = seen \/
    Session.state (manager a) = now.1 /\ Session.current_network_id (Session.conn (manager a)) = now.2)) by (exists seen; auto).
  unfold sync_tick, ask. sm_step. apply hoare_helper. intros r. cbv beta iota. destruct r as [resp|e]; [|by sm_step].
  sm_step; [|by sm_step]. destruct (status_from_value x) as [st|e]; [|by sm_step]. cbv zeta. sm_step; [by sm_step|].
  sm_step. apply hoare_local. unfold Session.sync_state, Session.set_state, update_tray_icon, own. sm_step. sm_step. cbv beta iota. sm_step.
  cbv beta iota. sm_step. sm_step; [done|]. cbv beta iota. sm_step. sm_step; [done|]. cbv beta iota. sm_step. eexists. split; [done|]. by right.
Qed.

(** Leaving asks the helper; the manager of the application leaves only when
    there is no answer, and a refusal is passed on. *)
Theorem disconnect_outcome a :
  any (disconnect debug_args linux) a (fun a' r =>
    match r with
    | Ok _ => a' = a \/ Session.left_behind (manager a) (manager a')
    | Err (Session.Failed _) => a' = a
    | Err (Session.Panicked _) => False
    end).
Proof.
  unfold disconnect, or_local, accepted, fail, update_tray_icon, own. sm_step. sm_step. apply hoare_helper. intros r. cbv beta iota.
  destruct r as [resp|e].
  - case_match; sm_step; cbv beta iota; [|done]. sm_step; [done|by left].
  - apply hoare_local. eapply hoare_mono; [apply Session.disconnect_leaves_nothing|]. intros m r [-> Hl]. cbv beta iota.
    sm_step; [done|]. by right.
Qed.
End Theorems.

(** ** The application and the helper together

    The socket carries what the application writes to a connection of the
    helper, and the application reads what that connection wrote, up to its
    4096 bytes.  The rest of the world is any. *)

Section Together.
Context `{Api.ApiJson, Config.ConfigCodec, Peers.EndpointSets, Dispatcher.Disco} {J : DesktopJson} {HJ : Helper.HelperJson}.
Context (debug_args : list string -> string) (linux : bool) (VERSION : string) (quoted : string -> string).
Context {U : Type} (host : forall R : Set, Session.SessionCall R -> U -> R * U) (desk : forall R : Set, DeskCall R -> U -> R * U).

(** What [json!] makes, and the response as the application reads it. *)
Definition data_value (d : Helper.Data) : Api.Value :=
  match d with
  | Helper.VersionInfo v p => Api.json_object [("version", Api.json_string v); ("protocol", Api.json_string p)]
  | Helper.StatusInfo s n ip v6 =>
      Api.json_object [("state", state_to_value s); ("network_id", json_option n); ("virtual_ip", json_option ip);
                       ("virtual_ip_v6", json_option v6)]
  | Helper.Flag b => json_bool b
  | Helper.Text s => Api.json_string s
  end.
Definition received (r : Helper.HelperResponse) : Response :=
  {| success := Helper.success r; message := Helper.message r; data := data_value <$> Helper.data r |}.

Record World : Type := {
  helper : Session.ConnectionManager; connecting : list Helper.StartArgs; answer : list Z; rest : U }.

(** The calls of a request: the handles show the manager, tasks wait. *)
Definition helper_side (m : Session.ConnectionManager) (R : Set) (c : Helper.HelperCall R) (x : U * list Helper.StartArgs)
    : R * (U * list Helper.StartArgs) :=
  match c with
  | inl c =>
      match c in Helper.HandleCall R return R * (U * list Helper.StartArgs) with
      | Helper.ReadState => (Session.state m, x)
      | Helper.ReadNetworkId => (Session.current_network_id (Session.conn m), x)
      | Helper.ReadVirtualIp => (Session.virtual_ip (Session.conn m), x)
      | Helper.ReadVirtualIpV6 => (Session.virtual_ip_v6 (Session.conn m), x)
      | Helper.LoadExitNode => (Session.as_exit_node (Session.role m), x)
      | Helper.SpawnConnect a => (tt, (x.1, x.2 ++ [a]))
      end
  | inr c => let '(r, u) := host R c x.1 in (r, (u, x.2))
  end.
Definition socket_side (m : Session.ConnectionManager) (bytes : list Z) (R : Set) (c : Helper.ConnCall R)
    (x : U * list Helper.StartArgs * list Z) : R * (U * list Helper.StartArgs * list Z) :=
  match c with
  | inl c =>
      match c in Helper.SocketCall R return R * (U * list Helper.StartArgs * list Z) with
      | Helper.ReadOnce => (Helper.Bytes bytes, x)
      | Helper.WriteAll b => (Ok tt, (x.1, b))
      end
  | inr c => let '(r, y) := helper_side m R c x.1 in (r, (y, x.2))
  end.
Definition serve (bytes : list Z) (w : World) : World :=
  let '((m, _), (u, q, b)) := run_prog (socket_side (helper w) bytes)
    (Helper.handle_connection debug_args linux VERSION quoted (helper w)) (rest w, connecting w, []) in
  {| helper := m; connecting := q; answer := b; rest := u |}.

Definition elsewhere {R : Set} (c : DeskCall R) (w : World) : R * World :=
  let '(r, u) := desk R c (rest w) in (r, {| helper := helper w; connecting := connecting w; answer := answer w; rest := u |}).
Definition both (R : Set) (c : DeskCall R) (w : World) : R * World :=
  match c with
  | inl c =>
      match c in OwnCall R return R * World with
      | OpenHelper => (Some (Ok 0), w)
      | SendAll _ bytes => (Some (Ok tt), serve bytes w)
      | ReadSome _ => (Some (Ok (take 4096 (answer w))), w)
      | Wait ms => elsewhere (inl (Wait ms)) w
      | Now => elsewhere (inl Now) w
      | SetTrayIcon n => elsewhere (inl (SetTrayIcon n)) w
      | Emit e => elsewhere (inl (Emit e)) w
      | NewChannel => elsewhere (inl NewChannel) w
      | SendCancel c => elsewhere (inl (SendCancel c)) w
      | DropSender c => elsewhere (inl (DropSender c)) w
      | OpenUrl u => elsewhere (inl (OpenUrl u)) w
      | ReadLogDir => elsewhere (inl ReadLogDir) w
      | ReadLog p => elsewhere (inl (ReadLog p)) w
      end
  | inr c => elsewhere (inr c) w
  end.

(** A request that arrives whole as the helper's, and a response that fits. *)
Definition carried (req : Helper.HelperRequest Api.Value) (bytes : list Z) (hreq : Helper.HelperRequest Helper.Value) : Prop :=
  request_to_vec req = Ok bytes /\ bytes <> [] /\ Z.of_nat (length bytes) <> Helper.MAX_MESSAGE_SIZE /\
  Helper.from_slice bytes = Ok hreq /\ Helper.command hreq = Helper.command req.
Definition returned (resp : Helper.HelperResponse) : Prop :=
  exists bytes, Helper.to_vec resp = Ok bytes /\ (length bytes <= 4096)%nat /\ response_from_slice bytes = Ok (received resp).

Abbreviation request_run hreq w := (run_prog (helper_side (helper w)) (Helper.handle_request debug_args linux VERSION quoted hreq (helper w))
  (rest w, connecting w)) (only parsing).

Lemma run_serve bytes hreq w m resp u q :
  bytes <> [] -> Z.of_nat (length bytes) <> Helper.MAX_MESSAGE_SIZE -> Helper.from_slice bytes = Ok hreq ->
  request_run hreq w = ((m, Ok resp), (u, q)) ->
  forall b, Helper.to_vec resp = Ok b -> serve bytes w = {| helper := m; connecting := q; answer := b; rest := u |}.
Proof.
  intros Hne Hlen Hfrom Hrun b Hb. unfold serve, Helper.handle_connection, Helper.socket. rewrite run_sm_bind. cbn [run_prog call socket_side].
  destruct bytes as [|x bytes]; [done|]. rewrite (proj2 (Z.eqb_neq _ _) Hlen), Hfrom. rewrite run_sm_bind.
  unfold zoom. rewrite run_bind.
  assert (Hemb : forall A (p : prog Helper.HelperCall A) y (c : list Z),
    run_prog (socket_side (helper w) (x :: bytes)) (embed Helper.of_helper p) (y, c) =
    let '(a, y') := run_prog (helper_side (helper w)) p y in (a, (y', c))).
  { clear. intros A p. induction p as [a|R c k IH]; intros y c0; [done|]. cbn. destruct (helper_side (helper w) R c y) as [r y']. apply IH. }
  rewrite Hemb. cbn [id]. unfold Datatypes.id. rewrite Hrun. cbn [run_prog]. rewrite run_sm_bind. cbn [run_prog call socket_side]. rewrite Hb.
  by cbn.
Qed.

Lemma run_asked req bytes hreq a w m resp u q :
  carried req bytes hreq -> request_run hreq w = ((m, Ok resp), (u, q)) -> returned resp ->
  exists b, run_prog both (call_helper req a) w =
    ((a, Ok (Ok (received resp))), {| helper := m; connecting := q; answer := b; rest := u |}).
Proof.
  intros (Hv & Hne & Hlen & Hfrom & _) Hrun (b & Hb & Hl & Hresp). exists b.
  rewrite (run_answered both req a w bytes 0 w {| helper := m; connecting := q; answer := b; rest := u |} b
    {| helper := m; connecting := q; answer := b; rest := u |}); [by rewrite Hresp|done|done| |].
  - cbn. by rewrite (run_serve bytes hreq w m resp u q Hne Hlen Hfrom Hrun b Hb).
  - cbn. by rewrite take_ge.
Qed.

Section Asking.
Context `{!Api.ApiJsonLaws} (Hstate : forall s, state_from_value (state_to_value s) = Ok s).

(** What the helper says of itself. *)
Definition status_of (m : Session.ConnectionManager) : Helper.HelperResponse :=
  let c := Session.conn m in
  Helper.reply true (Helper.show_state quoted (Session.state m))
    (Some (Helper.StatusInfo (Session.state m) (Session.current_network_id c) (Session.virtual_ip c) (Session.virtual_ip_v6 c))).
Lemma status_answered hreq w :
  Helper.command hreq = "status" -> request_run hreq w = ((helper w, Ok (status_of (helper w))), (rest w, connecting w)).
Proof. intros Hc. unfold Helper.handle_request. rewrite Hc. reflexivity. Qed.
Lemma status_read m :
  exists d, data (received (status_of m)) = Some d /\ state_from_value (index d "state") = Ok (Session.state m).
Proof.
  eexists. split; [done|]. cbn. unfold index.
  destruct (Api.object_fields [("state", state_to_value (Session.state m)); ("network_id", json_option (Session.current_network_id (Session.conn m)));
    ("virtual_ip", json_option (Session.virtual_ip (Session.conn m))); ("virtual_ip_v6", json_option (Session.virtual_ip_v6 (Session.conn m)))])
    as (get & -> & Hg). rewrite Hg. cbn. apply Hstate.
Qed.

Context (bytes : list Z) (hreq : Helper.HelperRequest Helper.Value) (Hstatus : carried (request "status" []) bytes hreq).

(** The application shows the state of the helper as it is, and asking for it
    changes neither. *)
Theorem state_through_socket a w :
  returned (status_of (helper w)) ->
  exists w', run_prog both (get_state a) w = ((a, Ok (Session.state (helper w))), w') /\
    helper w' = helper w /\ connecting w' = connecting w.
Proof.
  intros Hr. unfold get_state, or_local. rewrite run_sm_bind. rewrite run_sm_bind.
  destruct (run_asked _ _ _ a w _ _ _ _ Hstatus (status_answered hreq w (proj2 (proj2 (proj2 (proj2 Hstatus))))) Hr) as [b ->].
  cbn [run_prog mret SM_ret]. unfold state_of.
  destruct (status_read (helper w)) as (v & -> & ->). cbn [success received status_of Helper.reply Helper.success]. rewrite run_sm_bind. unfold update_tray_icon, own. cbn [run_prog call both]. unfold elsewhere.
  destruct (desk _ _ _) as [[] u]. by eexists.
Qed.

(** Where the helper is connected, a request for any network is accepted and the
    wait for it succeeds at once; nothing has changed. *)
Theorem connected_elsewhere_suffices args b2 hreq2 fuel d a w :
  Session.state (helper w) = Session.Connected ->
  carried (request "start_vpn" (start_args args)) b2 hreq2 -> Helper.from_value (Helper.args hreq2) = Ok args ->
  returned (Helper.reply true "Already connected" None) -> returned (status_of (helper w)) ->
  exists w1 w2,
    run_prog both (call_helper (request "start_vpn" (start_args args)) a) w =
      ((a, Ok (Ok {| success := true; message := "Already connected"; data := None |})), w1) /\
    run_prog both (await_connection (S fuel) d a) w1 = ((a, Ok true), w2) /\
    helper w2 = helper w /\ connecting w2 = connecting w.
Proof.
  intros Hc Hcar Hargs Hr1 Hr2.
  assert (Hrun : request_run hreq2 w = ((helper w, Ok (Helper.reply true "Already connected" None)), (rest w, connecting w))).
  { assert (Heq : Helper.handle_request debug_args linux VERSION quoted hreq2 = Helper.start_vpn (Helper.args hreq2)).
    { unfold Helper.handle_request. rewrite (proj2 (proj2 (proj2 (proj2 Hcar)))). reflexivity. }
    rewrite Heq. unfold Helper.start_vpn, Helper.ask. rewrite Hargs, run_sm_bind. cbn. by rewrite Hc. }
  destruct (run_asked _ _ _ a w _ _ _ _ Hcar Hrun Hr1) as [b ->].
  exists {| helper := helper w; connecting := connecting w; answer := b; rest := rest w |}. cbn [await_connection]. unfold own. rewrite run_sm_bind. cbn [run_prog call both]. unfold elsewhere.
  destruct (desk _ _ _) as [[] u]. set (w3 := Build_World _ _ _ u). rewrite run_sm_bind.
  unfold poll_status, ask. rewrite run_sm_bind.
  destruct (run_asked _ _ _ a w3 _ _ _ _ Hstatus (status_answered hreq w3 (proj2 (proj2 (proj2 (proj2 Hstatus))))) Hr2) as [b3 ->].
  destruct (status_read (helper w3)) as (v & -> & ->). cbn [success received status_of Helper.reply Helper.success helper w3]. rewrite Hc.
  rewrite run_sm_bind. unfold update_tray_icon, own. cbn [run_prog call both]. unfold elsewhere. destruct (desk _ _ _) as [[] u2].
  eexists. split_and!; reflexivity.
Qed.
End Asking.

(** Disconnecting the application disconnects the helper, and leaves what waits there to connect. *)
Theorem stop_through_socket a w b hreq :
  carried (request "stop_vpn" []) b hreq -> returned (Helper.reply true "VPN stopped" None) ->
  exists w', run_prog both (disconnect debug_args linux a) w = ((a, Ok tt), w') /\
    Session.left_behind (helper w) (helper w') /\ connecting w' = connecting w.
Proof.
  intros Hcar Hret.
  assert (Hh : hoare (fun R (c : Helper.HelperCall R) => match c with inl _ => False | inr _ => True end) free
    (Helper.handle_request debug_args linux VERSION quoted hreq) (helper w)
    (fun m r => Session.left_behind (helper w) m /\ r = Ok (Helper.reply true "VPN stopped" None))).
  { replace (Helper.handle_request debug_args linux VERSION quoted hreq) with (Helper.stop_vpn debug_args linux).
    2: { unfold Helper.handle_request. rewrite (proj2 (proj2 (proj2 (proj2 Hcar)))). reflexivity. }
    unfold Helper.stop_vpn. sm_step. apply Helper.hoare_locked; [done|]. eapply hoare_mono; [apply Session.disconnect_leaves_nothing|].
    intros m r [-> Hl]. by sm_step. }
  assert (Hside : forall (R : Set) (c : Helper.HelperCall R) (x : U * list Helper.StartArgs), x.2 = connecting w ->
    match c with inl _ => False | inr _ => True end -> True /\ (helper_side (helper w) R c x).2.2 = connecting w).
  { intros R [c|c] [u q] Hq Hc; [done|]. cbn in *. by destruct (host R c u). }
  pose proof (wp_run _ free (helper_side (helper w)) _ _ _ (rest w, connecting w) Hside Hh eq_refl) as Hrun. clear Hside.
  destruct (run_prog _ (Helper.handle_request _ _ _ _ _ _) _) as [[m r] [u q]] eqn:Er. destruct Hrun as [[Hl Hr] Hq]. cbn in Hl, Hr, Hq. subst r.
  unfold disconnect, or_local. rewrite !run_sm_bind. destruct (run_asked _ _ _ a w _ _ _ _ Hcar Er Hret) as [b' ->].
  unfold accepted, update_tray_icon, own. cbn [success received Helper.reply Helper.success run_prog mret SM_ret call both]. unfold elsewhere.
  destruct (desk _ _ _) as [[] u2]. by eexists.
Qed.
End Together.

(** ** A concrete world *)
Module Demo.
#[local] Existing Instance Links.toy_endpoints.
#[local] Existing Instance Links.toy_disco.
#[local] Existing Instances Api.Demo.json Api.Demo.json_laws.

Definition name_of (s : Session.ConnectionState) : Api.Demo.JV :=
  match s with
  | Session.Error e => Api.Demo.JCons "Error" (Api.Demo.JS e) Api.Demo.JNil
  | s => Api.Demo.JS (Helper.show_state id s)
  end.
Definition names : list Session.ConnectionState :=
  [Session.Disconnected; Session.Authenticating; Session.Authenticated; Session.Joining; Session.Joined; Session.Connecting;
   Session.Connected; Session.Reconnecting; Session.Stopping].
Definition state_named (v : Api.Demo.JV) : result string Session.ConnectionState :=
  match v with
  | Api.Demo.JCons _ (Api.Demo.JS e) _ => Ok (Session.Error e)
  | Api.Demo.JS s => ok_or "unknown variant" (List.find (fun st => bool_decide (Helper.show_state id st = s)) names)
  | _ => Err "expected a variant"
  end.

Definition told (m : string) (st : option Session.ConnectionState) : Response := {|
  success := true; message := m;
  data := (fun st => Api.json_object [("state", name_of st); ("network_id", json_option None); ("virtual_ip", json_option None);
                                      ("virtual_ip_v6", json_option None)]) <$> st |}.
Definition messages : list string := ["VPN stopped"; "Already connected"; "Connected"; "Disconnected"; "fine"].
#[local] Instance json : DesktopJson := {|
  as_bool v := None; json_bool b := Api.Demo.JI (if b then 1 else 0); state_to_value := name_of;
  request_to_vec r := Ok (if bool_decide (Helper.command r = "start_vpn") then [1]
                          else if bool_decide (Helper.command r = "stop_vpn") then [2] else [3]);
  response_from_slice bytes := match bytes with
                               | [0] => Ok (told "VPN stopped" None) | [1] => Ok (told "Already connected" None)
                               | [2] => Ok (told "Connected" (Some Session.Connected))
                               | [3] => Ok (told "Disconnected" (Some Session.Disconnected))
                               | _ => Ok (told "fine" None)
                               end;
  state_from_value := state_named; status_from_value v := Err "missing field" |}.
#[local] Instance helper_json : Helper.HelperJson := {|
  Helper.Value := unit;
  Helper.from_slice bytes := Ok {| Helper.command := match bytes with [1] => "start_vpn" | [2] => "stop_vpn" | _ => "status" end; Helper.args := tt |};
  Helper.from_value _ := Ok Helper.Demo.asked_for; Helper.enabled_flag _ := None;
  Helper.to_vec r := match list_find (fun m => m = Helper.message r) messages with Some (i, _) => Ok [Z.of_nat i] | None => Err "no name" end |}.
Lemma states_return s : state_from_value (state_to_value s) = Ok s.
Proof. by destruct s. Qed.

Definition begin : AppState := start "https://a" [1] [2] (Err "none").
Lemma exit_node_out_of_reach_witness :
  hoare (fun _ _ => False) free (set_exit_node (fun _ => "") true "n" "peer" "10.0.0.9" None) begin (fun a' r =>
    a' = begin /\ (r = Err (Session.Failed "Not authenticated") \/ r = Err (Session.Failed "Device ID not set"))).
Proof. apply (exit_node_out_of_reach (fun _ => "") (fun _ => None) true "https://a" [1] [2] (Err "none")). apply comes_start. Defined.

(** A machine whose helper is not there and whose clock pauses move. *)
Definition alone (R : Set) (c : DeskCall R) (now : Z) : R * Z :=
  match c with
  | inl c =>
      match c in OwnCall R return R * Z with
      | OpenHelper => (Some (Err "refused"), now) | SendAll _ _ => (None, now) | ReadSome _ => (None, now)
      | Wait ms => (tt, now + Z.max 0 ms * 1000000) | Now => (now, now) | SetTrayIcon _ => (tt, now) | Emit _ => (tt, now)
      | NewChannel => (now, now + 1) | SendCancel _ => (tt, now) | DropSender _ => (tt, now) | OpenUrl _ => (Ok tt, now)
      | ReadLogDir => (None, now) | ReadLog _ => (Err "", now)
      end
  | inr c => (Service.Demo.answers R c, now)
  end.
Lemma connect_ends_witness :
  (run_prog alone (connect (fun _ => None) 121 "n" None None None None begin) 0).1.2 <> Ok false.
Proof.
  apply (connect_ends (fun _ => None) alone (fun now => now)); [| | |intros ? ? ? [=]|lia].
  - intros R [c|c] w; [|cbn; lia]. destruct c; cbn; lia.
  - intros ms w. cbn. lia.
  - intros w. cbn. lia.
Defined.

(** Two logins: the end of the older one takes the newer one with it. *)
Definition after_two : Logins := {| app := put_cancel (Some 1) begin; waits := {[0 := true; 1 := false]} |}.
Definition after_end : Logins := {| app := put_cancel None begin; waits := {[1 := true]} |}.
Lemma two_logins : logins begin [Began 0; Began 1] after_two.
Proof.
  assert (H1 : logins begin [Began 0] {| app := put_cancel (Some 0) begin; waits := {[0 := false]} |}).
  { eapply (logins_on _ []); [apply logins_start|]. exact (step_begin {| app := begin; waits := ∅ |} alone 0 _ _ _ _ _ eq_refl eq_refl). }
  eapply (logins_on _ [Began 0]); [exact H1|].
  exact (step_begin {| app := put_cancel (Some 0) begin; waits := {[0 := false]} |} alone 1 _ _ _ _ _ eq_refl eq_refl).
Qed.
Lemma older_login_ends : login_step after_two (Ended 0) after_end.
Proof. exact (step_end after_two alone 2 0 true (Err CANCELLED) _ _ _ _ eq_refl (fun _ => eq_refl) eq_refl). Qed.
Lemma one_login_lives_witness :
  kept_lives after_two /\ (forall b, waits after_end !! b <> Some false) /\ waits after_end !! 1 = Some true.
Proof.
  destruct (one_login_lives begin _ after_two eq_refl two_logins) as [Hk He]. split; [exact Hk|].
  split; [exact (He 0 after_end older_login_ends)|reflexivity].
Defined.

(** The application and a helper that is connected, or is not. *)
Definition machine (R : Set) (c : DeskCall R) (u : unit) : R * unit := ((alone R c 0).1, u).
Definition host (R : Set) (c : Session.SessionCall R) (u : unit) : R * unit := (Session.Demo.answers R c, u).
Definition with_helper (m : Session.ConnectionManager) : World :=
  {| helper := m; connecting := []; answer := []; rest := tt |}.
Definition connected : Session.ConnectionManager := Session.put_state Session.Connected (manager begin).
Definition as_sent (name : string) : Helper.HelperRequest Helper.Value := {| Helper.command := name; Helper.args := tt |}.
Definition ask_status := as_sent "status".
Lemma status_carried : carried (request "status" []) [3] ask_status.
Proof. by split_and!. Qed.
Lemma response_fits resp i : Helper.to_vec resp = Ok [i] -> response_from_slice [i] = Ok (received resp) -> returned resp.
Proof. intros Ht Hr. exists [i]. split_and!; [done|cbn; lia|done]. Qed.

Abbreviation world := (both (fun _ => "") true "v" id host machine).
Lemma state_through_socket_witness :
  exists w', run_prog world (get_state begin) (with_helper connected) = ((begin, Ok Session.Connected), w') /\
    helper w' = connected /\ connecting w' = [].
Proof.
  apply (state_through_socket (fun _ => "") true "v" id host machine states_return [3] ask_status status_carried begin (with_helper connected)).
  apply (response_fits _ 2); reflexivity.
Defined.
Lemma stop_through_socket_witness :
  exists w', run_prog world (disconnect (fun _ => "") true begin) (with_helper connected) = ((begin, Ok tt), w') /\
    Session.left_behind connected (helper w') /\ connecting w' = [].
Proof.
  apply (stop_through_socket (fun _ => "") true "v" id host machine begin (with_helper connected) [2] (as_sent "stop_vpn")); [by split_and!|]. apply (response_fits _ 0); reflexivity.
Defined.
Lemma connected_elsewhere_witness :
  exists w1 w2,
    run_prog world (call_helper (request "start_vpn" (start_args Helper.Demo.asked_for)) begin) (with_helper connected) =
      ((begin, Ok (Ok {| success := true; message := "Already connected"; data := None |})), w1) /\
    run_prog world (await_connection 1 0 begin) w1 = ((begin, Ok true), w2) /\ helper w2 = connected /\ connecting w2 = [].
Proof.
  apply (connected_elsewhere_suffices (fun _ => "") true "v" id host machine states_return [3] ask_status status_carried
    Helper.Demo.asked_for [1] (as_sent "start_vpn") 0 0 begin (with_helper connected));
    [done|by split_and!|done|apply (response_fits _ 1); reflexivity|apply (response_fits _ 2); reflexivity].
Defined.

(** A helper whose answers carry no state. *)
Definition mute (R : Set) (c : OwnCall R) : R :=
  match c in OwnCall R return R with
  | OpenHelper => Some (Ok 0) | SendAll _ _ => Some (Ok tt) | ReadSome _ => Some (Ok [9]) | Wait _ => tt | Now => 0
  | SetTrayIcon _ => tt | Emit _ => tt | NewChannel => 0 | SendCancel _ => tt | DropSender _ => tt | OpenUrl _ => Ok tt
  | ReadLogDir => None | ReadLog _ => Err ""
  end.
Lemma connect_may_not_end_witness :
  (run_prog (replies_of mute Service.Demo.answers) (await_connection 1000 0 begin) tt).1.2 = Ok false.
Proof. by apply (connect_may_not_end 1000 mute Service.Demo.answers 0 begin [3] [9] (told "fine" None)). Defined.
End Demo.
