(* ===== verification/DesktopData.v ===== *)
(** * The data collection of the desktop application (ui/desktop/src-tauri/src/lib.rs)

    The commands of the window over the plugin of Collector.v, the simulation
    that shows how they would look, the commands over the plugins of
    PluginManager.v and the updates of Updater.v, and where the windows are
    put.  The build has the robotics feature and does not check overflows, as
    released. *)

From Stdlib Require Import Ascii.
From S2P Require Import Prelude RustStr F32 Effects.
From S2P Require Api Buffer Triggers Storage Upload Collector PluginLoader PluginManager Updater.

Open Scope string_scope.
Open Scope list_scope.
Open Scope Z_scope.

(** ** What the window shows *)

Record DataCollectionStatsUI : Set := {
  samples_received : Z; episodes_started : Z; episodes_completed : Z; episodes_failed : Z;
  bytes_packaged : Z; bytes_uploaded : Z }.
Record ActiveEpisodeInfoUI : Set := {
  active_id : string; active_start_ns : Z; active_expected_end_ns : Z;
  elapsed_seconds : spec_float; remaining_seconds : spec_float }.
Record DataCollectionStatusUI : Set := {
  ui_state : string; ui_robot_id : string; ui_is_recording : bool; ui_current_episode_id : option string;
  ui_stats : DataCollectionStatsUI; ui_active_episode : option ActiveEpisodeInfoUI }.
Record StartRecordingResponseUI : Set := { started_id : string; started_ns : Z }.
Record StopRecordingResponseUI : Set := {
  stopped_id : string; saved : bool; stopped_duration : spec_float; stopped_bytes : Z }.
Record EpisodeSummaryUI : Set := {
  es_id : string; es_robot_id : string; es_start_ns : Z; es_duration : spec_float; es_samples : Z; es_bytes : Z;
  es_quality : spec_float; es_uploaded : bool }.
Record StreamInfoUI : Set := { si_id : string; si_samples : Z; si_capacity : Z; si_utilization : spec_float }.

(** [(page * page_size) as usize] of two [u32], and the page of a list. *)
Definition page_start (page page_size : Z) : Z := (page * page_size) `mod` (u32_max + 1).
Definition page_of {A} (page page_size : Z) (l : list A) : list A :=
  take (Z.to_nat page_size) (drop (Z.to_nat (page_start page page_size)) l).
(** [part as f32 / whole as f32 * 100.0]. *)
Definition percent (part whole : Z) : spec_float := f32_mul (f32_div (f32_of part) (f32_of whole)) (f32_of 100).

(** ** The commands over the plugin *)

Section Collection.
Context {Payload : Set} (payload_bytes : Payload -> Z).
Context {T : Type} `{Triggers.Trigger T}.
(** The texts of errors, of paths, and of the errors of triggers; [h]: the
    triggers a new plugin finds. *)
Context (show_error : Collector.PluginError -> string) (debug_path : string -> string).
Context (h : gmap nat T).
Abbreviation Plugin := (@Collector.Plugin Payload T) (only parsing).

(** The state is [data_collection]. *)
Abbreviation DC := (SM Collector.PluginCall (option Plugin) string) (only parsing).

Definition plugin : DC Plugin := p ← gets id; or_throw "Data collection plugin not initialized" p.
(** A program of the plugin there is, with what its errors are told with. *)
Definition on_plugin {A} (p : Plugin) (what : string) (m : SM Collector.PluginCall Plugin Collector.PluginError A) : DC A :=
  zoom (fun _ c => c) (fun _ => p) (fun p _ => Some p) (fun e => what +:+ show_error e) m.
Definition now_ns : DC Z := t ← call (Collector.own Collector.CurrentTimestamp); mret (Storage.epoch_ns t).

(** [..Default::default()] has no streams. *)
Definition init_config (robot_id data_dir : string) : Collector.DataCollectionConfig :=
  let d := Collector.DataCollectionConfig_new robot_id in {|
  Collector.name := Collector.name d; Collector.robot_id := robot_id; Collector.fleet_id := Collector.fleet_id d;
  Collector.streams := Collector.streams d; Collector.memory_limit_bytes := Collector.memory_limit_bytes d;
  Collector.default_capacity := Collector.default_capacity d; Collector.max_age_seconds := Collector.max_age_seconds d;
  Collector.storage := Storage.StorageConfig_new data_dir; Collector.upload := Collector.upload d;
  Collector.auto_upload := Collector.auto_upload d; Collector.auto_start := Collector.auto_start d;
  Collector.default_episode_duration_secs := Collector.default_episode_duration_secs d;
  Collector.trigger_cooldown_secs := Collector.trigger_cooldown_secs d |}.
Definition init_data_collection (robot_id data_dir : string) : DC unit :=
  match Collector.Plugin_new (Payload := Payload) (init_config robot_id data_dir) h with
  | Err e => throw ("Failed to create data collection plugin: " +:+ show_error e)
  | Ok p =>
      p ← zoom (fun _ c => c) (fun _ => p) (fun _ o => o) (fun e => "Failed to start plugin: " +:+ show_error e)
            (_ ← Collector.start; gets id);
      modify (fun _ => Some p)
  end.
Definition is_data_collection_initialized : DC bool := gets (fun o => match o with Some _ => true | None => false end).

Definition debug_state (s : Collector.PluginState) : string :=
  match s with
  | Collector.Created => "Created" | Collector.Initialized => "Initialized" | Collector.Running => "Running"
  | Collector.Recording => "Recording" | Collector.Packaging => "Packaging" | Collector.Stopped => "Stopped"
  | Collector.Error => "Error"
  end.
Definition get_data_collection_status : DC DataCollectionStatusUI :=
  p ← plugin;
  active ← on_plugin p "" Collector.active_episode_info;
  let s := Collector.stats p in
  mret {| ui_state := debug_state (Collector.state p); ui_robot_id := Collector.robot_id (Collector.config p);
          ui_is_recording := Collector.is_recording p; ui_current_episode_id := Collector.current_episode_id p;
          ui_stats := {| samples_received := Collector.samples_received s; episodes_started := Collector.episodes_started s;
                         episodes_completed := Collector.episodes_completed s; episodes_failed := Collector.episodes_failed s;
                         bytes_packaged := Collector.bytes_packaged s; bytes_uploaded := Collector.bytes_uploaded s |};
          ui_active_episode := (fun e => {|
            active_id := Collector.info_id e; active_start_ns := Collector.info_start_ns e;
            active_expected_end_ns := Collector.info_expected_end_ns e;
            elapsed_seconds := f64_seconds (Collector.elapsed_ns e);
            remaining_seconds := f64_seconds (Collector.remaining_ns e) |}) <$> active |}.

Definition start_data_recording (reason : string) : DC StartRecordingResponseUI :=
  p ← plugin;
  id ← on_plugin p "Failed to start recording: " (Collector.start_episode_manual reason);
  p ← plugin;
  active ← on_plugin p "" Collector.active_episode_info;
  mret {| started_id := id; started_ns := from_option Collector.info_start_ns 0 active |}.
Definition trigger_manual_recording : string -> DC StartRecordingResponseUI := start_data_recording.

(** An episode that is to be discarded goes on. *)
Definition stop_data_recording (discard : bool) : DC StopRecordingResponseUI :=
  p ← plugin;
  if negb (Collector.is_recording p) then throw "No recording in progress"
  else
    now ← now_ns;
    if discard then
      mret {| stopped_id := default "" (Collector.current_episode_id p); saved := false; stopped_duration := S754_zero false;
              stopped_bytes := 0 |}
    else
      r ← on_plugin p "Failed to finish episode: " (Collector.finish_episode debug_path now);
      mret {| stopped_id := Storage.pr_episode_id r; saved := true; stopped_duration := f64_seconds (Storage.pr_duration_ns r);
              stopped_bytes := Storage.file_size_bytes r |}.

Definition summary (e : Storage.EpisodeIndexEntry) : EpisodeSummaryUI := {|
  es_id := Storage.episode_id e; es_robot_id := Storage.robot_id e; es_start_ns := Storage.start_time_ns e;
  es_duration := Storage.duration_seconds e; es_samples := Storage.sample_count e; es_bytes := Storage.size_bytes e;
  es_quality := Storage.quality_score e; es_uploaded := Storage.uploaded e |}.
Definition the_storage (p : Plugin) : DC Storage.StorageManager :=
  or_throw "Storage manager not available" (Collector.storage_manager p).
Definition the_episode (id : string) (s : Storage.StorageManager) : DC Storage.EpisodeIndexEntry :=
  or_throw ("Episode '" +:+ id +:+ "' not found") (Storage.get_episode id s).

(** The newest first. *)
Definition list_data_episodes (page page_size : Z) : DC (list EpisodeSummaryUI) :=
  p ← plugin;
  s ← the_storage p;
  entries ← on_plugin p "" (Collector.on_storage Storage.values s);
  mret (map summary (page_of page page_size (rev (Storage.sorted_by_age entries)))).
Definition get_data_episode (id : string) : DC EpisodeSummaryUI :=
  p ← plugin; s ← the_storage p; e ← the_episode id s; mret (summary e).
Definition delete_data_episode (id : string) : DC bool :=
  p ← plugin;
  s ← the_storage p;
  _ ← on_plugin p "Failed to delete episode: " (Collector.on_storage (Storage.delete_episode id) s);
  mret true.
Definition upload_data_episode (id : string) : DC bool :=
  p ← plugin;
  s ← the_storage p;
  e ← the_episode id s;
  u ← or_throw "Upload manager not available" (Collector.upload_manager p);
  _ ← on_plugin p "Failed to queue upload: "
        (Collector.on_upload (Upload.upload_episode debug_path e (Storage.root_dir (Collector.storage (Collector.config p)))) u);
  mret true.
Definition get_data_upload_status : DC Upload.UploadSessionStats :=
  p ← plugin;
  u ← or_throw "Upload manager not available" (Collector.upload_manager p);
  mret (Upload.session_stats u).

Definition stream_info (p : Plugin) (id : string) : option StreamInfoUI :=
  r ← Buffer.get_buffer id (Collector.buffers p);
  b ← Buffer.heap (Collector.buffers p) !! r;
  let capacity := Z.of_nat (Buffer.capacity b) in
  Some {| si_id := id; si_samples := Buffer.samples_pushed (Buffer.rb_stats b); si_capacity := capacity;
          si_utilization := if 0 <? capacity then percent (Z.of_nat (Buffer.len b)) capacity else S754_zero false |}.
Definition list_data_streams : DC (list StreamInfoUI) := p ← plugin; mret (omap (stream_info p) (Collector.list_streams p)).
End Collection.

(** ** What becomes of the commands *)

Section CollectionTheorems.
Context {Payload : Set} {T : Type} `{Triggers.Trigger T}.
Context (show_error : Collector.PluginError -> string) (debug_path : string -> string) (h : gmap nat T).
Abbreviation Plugin := (@Collector.Plugin Payload T) (only parsing).

Inductive data_command : forall A, SM Collector.PluginCall (option Plugin) string A -> Prop :=
| dc_status : data_command _ (get_data_collection_status show_error)
| dc_start r : data_command _ (start_data_recording show_error r)
| dc_trigger r : data_command _ (trigger_manual_recording show_error r)
| dc_stop d : data_command _ (stop_data_recording show_error debug_path d)
| dc_list n k : data_command _ (list_data_episodes show_error n k)
| dc_get i : data_command _ (get_data_episode i)
| dc_delete i : data_command _ (delete_data_episode show_error i)
| dc_upload i : data_command _ (upload_data_episode show_error debug_path i)
| dc_uploads : data_command _ get_data_upload_status
| dc_streams : data_command _ list_data_streams.

(** The states the application comes to, whatever the system answers. *)
Inductive data_comes_to (o : option Plugin) : option Plugin -> Prop :=
| data_start : data_comes_to o o
| data_init {W} (sys : forall R : Set, Collector.PluginCall R -> W -> R * W) robot dir o1 w o2 r w' :
    data_comes_to o o1 -> run_prog sys (init_data_collection show_error h robot dir o1) w = ((o2, r), w') -> data_comes_to o o2
| data_on {A W} (sys : forall R : Set, Collector.PluginCall R -> W -> R * W) (p : SM Collector.PluginCall (option Plugin) string A) o1 w o2 r w' :
    data_comes_to o o1 -> data_command A p -> run_prog sys (p o1) w = ((o2, r), w') -> data_comes_to o o2.

(** The configuration of the window has no stream, and a plugin wants one. *)
Lemma init_refused robot dir (o : option Plugin) :
  exists e, init_data_collection show_error h robot dir o = Ret (o, Err ("Failed to create data collection plugin: " +:+ show_error (Collector.Config e))).
Proof.
  unfold init_data_collection, Collector.Plugin_new, Collector.validate. cbn. case_bool_decide; cbn; by eexists.
Qed.
Lemma command_without_plugin A (p : SM Collector.PluginCall (option Plugin) string A) :
  data_command A p -> p None = Ret (None, Err "Data collection plugin not initialized").
Proof. by destruct 1. Qed.

(** Claim C31: The plugin of the window is never there: initialising it fails whatever the
    robot and the directory, before anything is asked of the system, and so each of
    its commands says that it is not initialised. *)
Theorem data_collection_never_starts o :
  data_comes_to None o ->
  o = None /\
  (forall robot dir, exists e, init_data_collection show_error h robot dir o =
    Ret (None, Err ("Failed to create data collection plugin: " +:+ show_error (Collector.Config e)))) /\
  forall A p, data_command A p -> p o = Ret (None, Err "Data collection plugin not initialized").
Proof.
  intros Ho. assert (Hn : o = None).
  { induction Ho as [|W sys robot dir o1 w o2 r w' _ -> Hr|A W sys p o1 w o2 r w' _ -> Hc Hr]; [done| |].
    - destruct (init_refused robot dir None) as [e Hi]. rewrite Hi in Hr. by injection Hr.
    - rewrite (command_without_plugin A p Hc) in Hr. by injection Hr. }
  subst o. split; [done|]. split; [intros robot dir; apply init_refused|]. intros A p Hc. by apply command_without_plugin.
Qed.

(** Were it there, an episode that is stopped to be discarded would go on: what is
    answered is that it was not saved, and the plugin is as it was. *)
Theorem discarded_episode_goes_on (p : Plugin) :
  Collector.is_recording p = true ->
  hoare (fun _ _ => True) (fun _ _ _ => True) (stop_data_recording show_error debug_path true) (Some p) (fun o r =>
    o = Some p /\ exists resp, r = Ok resp /\ saved resp = false /\ Some (stopped_id resp) = Collector.current_episode_id p).
Proof.
  intros Hp. unfold stop_data_recording, plugin, now_ns.
  repeat first [progress cbv beta iota | progress cbn [or_throw negb id] | rewrite Hp | exact I | sm_step].
  split; [done|]. eexists. split_and!; [done..|]. cbn.
  unfold Collector.is_recording, Collector.current_episode_id in *. by destruct (Collector.active_episode p).
Qed.
End CollectionTheorems.

(** ** Pages *)

Lemma page_start_small page k : 0 <= page * k <= u32_max -> page_start page k = page * k.
Proof. intros Hp. apply Z.mod_small. lia. Qed.

(** As long as the product fits, the pages from the first are the list in order,
    without gaps and without repetitions. *)
Theorem pages_in_order {A} (k : Z) (l : list A) n :
  0 <= k -> Z.of_nat n * k <= u32_max ->
  concat (map (fun i => page_of (Z.of_nat i) k l) (seq 0 n)) = take (n * Z.to_nat k) l.
Proof.
  intros Hk. induction n as [|n IH]; intros Hn; [done|]. rewrite seq_S, map_app, concat_app. rewrite IH by lia.
  cbn [map concat]. rewrite app_nil_r. unfold page_of. rewrite page_start_small by (cbn; nia).
  replace (Z.to_nat (Z.of_nat (0 + n) * k)) with (n * Z.to_nat k)%nat by (cbn; nia).
  rewrite <- (take_drop (n * Z.to_nat k) (take (S n * Z.to_nat k) l)). rewrite take_take, Nat.min_l by nia. f_equal.
  rewrite skipn_firstn_comm. f_equal. nia.
Qed.
(** Past that the pages begin again. *)
Example page_wraps : page_start 65536 65536 = page_start 0 65536.
Proof. reflexivity. Qed.

(** ** The simulation

    Times since the epoch and of the clock are nanoseconds. *)

Record SimulatedEpisode : Set := {
  sim_id : string; sim_robot_id : string; sim_start_ns : Z; sim_duration : spec_float; sim_samples : Z; sim_bytes : Z;
  sim_uploaded : bool }.
Record SimulatedStream : Set := {
  stream_id : string; stream_samples : Z; stream_capacity : Z; samples_per_second : spec_float }.
Record SimulationState : Set := {
  initialized : bool; robot_id : string; is_recording : bool; current_episode_id : option string;
  recording_start_time : option Z; episodes : list SimulatedEpisode; streams : list SimulatedStream;
  total_samples : Z; bytes_written : Z }.
Definition SimulationState_default : SimulationState := {|
  initialized := false; robot_id := ""; is_recording := false; current_episode_id := None; recording_start_time := None;
  episodes := []; streams := []; total_samples := 0; bytes_written := 0 |}.

(** [SystemNow]: since the epoch, in 64 bits. *)
Inductive SimCall : Set -> Set :=
| SystemNow : SimCall Z
| InstantNow : SimCall Z
| NewUuid : SimCall string.
Abbreviation SimM := (SM SimCall SimulationState string) (only parsing).

Definition wrap_sub (a b : Z) : Z := (a - b) `mod` (u64_max + 1).
Definition wrap_mul (a b : Z) : Z := (a * b) `mod` (u64_max + 1).
Definition f64_tenths (n : Z) : spec_float := f64_div (f64_of n) (f64_of 10).
Definition new_episode_id : SimM string :=
  u ← call NewUuid; mret ("ep-" +:+ match split "-" u with part :: _ => part | [] => "demo" end).

Definition demo_stream (id : string) (capacity rate : Z) : SimulatedStream :=
  {| stream_id := id; stream_samples := 0; stream_capacity := capacity; samples_per_second := f32_of rate |}.
Definition demo_streams : list SimulatedStream :=
  [demo_stream "/camera/forehead" 100 30; demo_stream "/camera/left_head" 100 30; demo_stream "/camera/right_head" 100 30;
   demo_stream "/camera/left_hand" 100 30; demo_stream "/camera/right_hand" 100 30; demo_stream "/camera/chest" 100 30;
   demo_stream "/camera/back" 100 30; demo_stream "/joint_states" 1000 100; demo_stream "/imu/data" 500 200;
   demo_stream "/cmd_vel" 200 50].
Definition demo_episode (id robot : string) (start_ns : Z) (duration : spec_float) (samples bytes : Z) (up : bool) : SimulatedEpisode :=
  {| sim_id := id; sim_robot_id := robot; sim_start_ns := start_ns; sim_duration := duration; sim_samples := samples;
     sim_bytes := bytes; sim_uploaded := up |}.

(** A recording that goes on is forgotten. *)
Definition init_simulation_mode (robot : string) : SimM unit :=
  now ← call SystemNow;
  id1 ← new_episode_id;
  id2 ← new_episode_id;
  id3 ← new_episode_id;
  modify (fun _ => {|
    initialized := true; robot_id := robot; is_recording := false; current_episode_id := None; recording_start_time := None;
    episodes := [demo_episode id1 robot (wrap_sub now 3600000000000) (f64_tenths 1205) 48200 156000000 true;
                 demo_episode id2 robot (wrap_sub now 1800000000000) (f64_tenths 852) 34080 98500000 false;
                 demo_episode id3 robot (wrap_sub now 600000000000) (f64_tenths 458) 18320 52300000 false];
    streams := demo_streams; total_samples := 100600; bytes_written := 306800000 |}).

(** The time of the recording: the clock is read only if there is one. *)
Definition recording_elapsed (s : SimulationState) : SimM (option Z) :=
  match recording_start_time s with
  | Some t => now ← call InstantNow; mret (Some (elapsed t now))
  | None => mret None
  end.
Definition seconds (o : option Z) : spec_float := from_option as_secs_f64 (S754_zero false) o.

Record SimulationStatus : Set := {
  st_robot_id : string; st_recording : bool; st_current : option string; st_elapsed : spec_float; st_episodes : nat;
  st_streams : nat; st_samples : Z; st_bytes : Z }.
Definition get_simulation_status : SimM SimulationStatus :=
  s ← gets id;
  if negb (initialized s) then throw "Simulation not initialized"
  else
    e ← recording_elapsed s;
    mret {| st_robot_id := robot_id s; st_recording := is_recording s; st_current := current_episode_id s;
            st_elapsed := seconds e; st_episodes := length (episodes s); st_streams := length (streams s);
            st_samples := total_samples s; st_bytes := bytes_written s |}.

Definition with_samples (n : Z) (s : SimulatedStream) : SimulatedStream :=
  {| stream_id := stream_id s; stream_samples := n; stream_capacity := stream_capacity s;
     samples_per_second := samples_per_second s |}.
Definition put_streams (l : list SimulatedStream) (s : SimulationState) : SimulationState := {|
  initialized := initialized s; robot_id := robot_id s; is_recording := is_recording s;
  current_episode_id := current_episode_id s; recording_start_time := recording_start_time s; episodes := episodes s;
  streams := l; total_samples := total_samples s; bytes_written := bytes_written s |}.
Definition put_recording (r : option (string * Z)) (s : SimulationState) : SimulationState := {|
  initialized := initialized s; robot_id := robot_id s;
  is_recording := match r with Some _ => true | None => false end;
  current_episode_id := fst <$> r; recording_start_time := snd <$> r; episodes := episodes s; streams := streams s;
  total_samples := total_samples s; bytes_written := bytes_written s |}.
Definition put_episodes (l : list SimulatedEpisode) (samples bytes : Z) (s : SimulationState) : SimulationState := {|
  initialized := initialized s; robot_id := robot_id s; is_recording := is_recording s;
  current_episode_id := current_episode_id s; recording_start_time := recording_start_time s; episodes := l;
  streams := streams s; total_samples := samples; bytes_written := bytes |}.

(** The reason is only told back. *)
Definition start_simulation_recording : SimM string :=
  s ← gets id;
  if negb (initialized s) then throw "Simulation not initialized"
  else if is_recording s then throw "Already recording"
  else
    id ← new_episode_id;
    now ← call InstantNow;
    _ ← modify (fun s => put_streams (map (with_samples 0) (streams s)) (put_recording (Some (id, now)) s));
    mret id.

Record SimulationStopped : Set := {
  so_id : string; so_duration : spec_float; so_samples : Z; so_bytes : Z; so_saved : bool }.
(** What the streams showed when they were last asked for. *)
Definition shown_samples (s : SimulationState) : Z := foldl (fun n st => wrap_add u64_max n (stream_samples st)) 0 (streams s).
Definition stop_simulation_recording (discard : bool) : SimM SimulationStopped :=
  s ← gets id;
  if negb (is_recording s) then throw "Not recording"
  else
    let id := default "" (current_episode_id s) in
    e ← recording_elapsed s;
    let duration := seconds e in
    let samples := shown_samples s in
    let bytes := wrap_mul samples 4000 in
    _ ← modify (put_recording None);
    _ ← (if discard then mret tt
         else
           now ← call SystemNow;
           modify (fun s => put_episodes
             ({| sim_id := id; sim_robot_id := robot_id s;
                 sim_start_ns := wrap_sub now (f32_to_u64 (f64_mul duration (f64_of 1000000000)));
                 sim_duration := duration; sim_samples := samples; sim_bytes := bytes; sim_uploaded := false |} :: episodes s)
             (wrap_add u64_max (total_samples s) samples) (wrap_add u64_max (bytes_written s) bytes) s));
    mret {| so_id := id; so_duration := duration; so_samples := samples; so_bytes := bytes; so_saved := negb discard |}.

(** [Duration::as_secs_f32]. *)
Definition as_secs_f32 (n : Z) : spec_float :=
  f32_add (f32_of (n / nanos_per_sec)) (f32_div (f32_of (n mod nanos_per_sec)) (f32_of nanos_per_sec)).
Definition sim_stream_info (s : SimulatedStream) : StreamInfoUI := {|
  si_id := stream_id s; si_samples := stream_samples s; si_capacity := stream_capacity s;
  si_utilization := percent (stream_samples s mod stream_capacity s) (stream_capacity s) |}.
Definition get_simulation_streams : SimM (list StreamInfoUI) :=
  s ← gets id;
  if negb (initialized s) then throw "Simulation not initialized"
  else
    _ ← (if is_recording s then
           e ← recording_elapsed s;
           match e with
           | Some e => modify (fun s => put_streams
               (map (fun st => with_samples (f32_to_u64 (f32_mul (as_secs_f32 e) (samples_per_second st))) st) (streams s)) s)
           | None => mret tt
           end
         else mret tt);
    s ← gets id;
    mret (map sim_stream_info (streams s)).

(** [0.95]. *)
Definition demo_quality : spec_float := f32_div (f32_of 95) (f32_of 100).
Definition sim_summary (e : SimulatedEpisode) : EpisodeSummaryUI := {|
  es_id := sim_id e; es_robot_id := sim_robot_id e; es_start_ns := sim_start_ns e; es_duration := sim_duration e;
  es_samples := sim_samples e; es_bytes := sim_bytes e; es_quality := demo_quality; es_uploaded := sim_uploaded e |}.
Definition get_simulation_episodes (page page_size : Z) : SimM (list EpisodeSummaryUI) :=
  s ← gets id;
  if negb (initialized s) then throw "Simulation not initialized"
  else mret (map sim_summary (page_of page page_size (episodes s))).

Definition named (id : string) (e : SimulatedEpisode) : bool := bool_decide (sim_id e = id).
Definition put_list (l : list SimulatedEpisode) (s : SimulationState) : SimulationState :=
  put_episodes l (total_samples s) (bytes_written s) s.
(** What is left is there also when the length tells that nothing went. *)
Definition delete_simulation_episode (id : string) : SimM unit :=
  s ← gets Datatypes.id;
  let left := List.filter (fun e => negb (named id e)) (episodes s) in
  _ ← modify (put_list left);
  if (length left =? length (episodes s))%nat then throw "Episode not found" else mret tt.

Definition mark_uploaded (e : SimulatedEpisode) : SimulatedEpisode := {|
  sim_id := sim_id e; sim_robot_id := sim_robot_id e; sim_start_ns := sim_start_ns e; sim_duration := sim_duration e;
  sim_samples := sim_samples e; sim_bytes := sim_bytes e; sim_uploaded := true |}.
Fixpoint upload_first (id : string) (es : list SimulatedEpisode) : option (list SimulatedEpisode) :=
  match es with
  | [] => None
  | e :: es => if named id e then Some (mark_uploaded e :: es) else cons e <$> upload_first id es
  end.
Definition upload_simulation_episode (id : string) : SimM unit :=
  s ← gets Datatypes.id;
  match upload_first id (episodes s) with
  | Some es => modify (put_list es)
  | None => throw "Episode not found"
  end.
Definition is_simulation_initialized : SimM bool := gets initialized.

(** ** What the simulation does *)

Abbreviation free := (fun (R : Set) _ (_ : R) => True) (only parsing).
Abbreviation any p s Q := (hoare (fun _ _ => True) free p s Q) (only parsing).

(** A recording has a name and a start; without one there is neither. *)
Definition sim_coherent (s : SimulationState) : Prop :=
  if is_recording s then initialized s = true /\ is_Some (current_episode_id s) /\ is_Some (recording_start_time s)
  else current_episode_id s = None /\ recording_start_time s = None.

Inductive sim_command : forall A, SimM A -> Prop :=
| sim_init r : sim_command _ (init_simulation_mode r)
| sim_status : sim_command _ get_simulation_status
| sim_start : sim_command _ start_simulation_recording
| sim_stop d : sim_command _ (stop_simulation_recording d)
| sim_streams : sim_command _ get_simulation_streams
| sim_episodes n k : sim_command _ (get_simulation_episodes n k)
| sim_delete i : sim_command _ (delete_simulation_episode i)
| sim_upload i : sim_command _ (upload_simulation_episode i).

Lemma hoare_elapsed s0 s (Q : SimulationState -> result string (option Z) -> Prop) :
  (forall e, Q s (Ok e)) -> any (recording_elapsed s0) s Q.
Proof. intros HQ. unfold recording_elapsed. destruct (recording_start_time s0); [|by sm_step]. sm_step. sm_step; [done|]. cbv beta iota. by sm_step. Qed.
Lemma hoare_episode_id s (Q : SimulationState -> result string string -> Prop) : (forall i, Q s (Ok i)) -> any new_episode_id s Q.
Proof. intros HQ. unfold new_episode_id. sm_step. sm_step; [done|]. cbv beta iota. by sm_step. Qed.
Ltac sim :=
  repeat first
    [ progress cbv beta iota zeta | exact I | apply hoare_elapsed; intros ? | apply hoare_episode_id; intros ? | sm_step | case_match ].

(** Whatever the clocks say, every command keeps the simulation coherent. *)
Theorem simulation_coherent A (p : SimM A) s : sim_command A p -> sim_coherent s -> any p s (fun s' _ => sim_coherent s').
Proof.
  destruct 1; intros Hs;
    unfold init_simulation_mode, get_simulation_status, start_simulation_recording, stop_simulation_recording,
      get_simulation_streams, get_simulation_episodes, delete_simulation_episode, upload_simulation_episode; sim; try exact Hs.
  all: unfold sim_coherent in *; cbn in *; try done; repeat split; try done.
  all: match goal with H : negb (initialized _) = false |- _ => by apply negb_false_iff in H | _ => by destruct (is_recording _) end.
Qed.

(** What a recording leaves: with the name it was given, the samples its streams
    showed when they were last asked for, and first in the list; or nothing. *)
Theorem recording_left d s :
  sim_coherent s -> is_recording s = true ->
  any (stop_simulation_recording d) s (fun s' r =>
    is_recording s' = false /\ streams s' = streams s /\ exists resp, r = Ok resp /\ so_samples resp = shown_samples s /\
    if d then episodes s' = episodes s
    else exists e, episodes s' = e :: episodes s /\ Some (sim_id e) = current_episode_id s /\ sim_samples e = shown_samples s /\
      sim_bytes e = wrap_mul (shown_samples s) 4000 /\ sim_uploaded e = false).
Proof.
  unfold sim_coherent. intros Hs Hr. rewrite Hr in Hs. destruct Hs as (Hi & [i Hc] & _).
  unfold stop_simulation_recording.
  repeat first [progress cbv beta iota zeta | exact I | rewrite Hr | progress cbn [negb id] | apply hoare_elapsed; intros ? | sm_step].
  - destruct d; [|done]. split_and!; [done..|]. by eexists.
  - destruct d; [done|]. split_and!; [done..|]. eexists. split_and!; [done..|]. eexists. split_and!; [done| |done..].
    cbn. by rewrite Hc.
Qed.

Lemma fresh_streams_show_nothing l : foldl (fun n st => wrap_add u64_max n (stream_samples st)) 0 (map (with_samples 0) l) = 0.
Proof.
  enough (Hz : forall n, n = 0 -> foldl (fun n st => wrap_add u64_max n (stream_samples st)) n (map (with_samples 0) l) = 0) by by apply Hz.
  induction l as [|st l IH]; intros n ->; [done|]. cbn. by apply IH.
Qed.
(** A recording nobody watches saves no samples, however long it lasted. *)
Theorem unwatched_recording_is_empty s :
  any (_ ← start_simulation_recording; stop_simulation_recording false) s (fun _ r => forall resp, r = Ok resp -> so_samples resp = 0).
Proof.
  unfold start_simulation_recording, stop_simulation_recording.
  repeat first [ progress cbv beta iota zeta | exact I | apply hoare_elapsed; intros ? | apply hoare_episode_id; intros ? | sm_step ]; try done.
  all: intros resp [= <-]; cbn; apply fresh_streams_show_nothing.
Qed.

(** A deletion takes every episode of the name, and is an error exactly when there
    is none. *)
Theorem deletion_exact i s :
  any (delete_simulation_episode i) s (fun s' r =>
    episodes s' = List.filter (fun e => negb (named i e)) (episodes s) /\
    (is_ok r = false <-> forall e, e ∈ episodes s -> sim_id e <> i)).
Proof.
  assert (Hl : forall es, ((length (List.filter (fun e => negb (named i e)) es) =? length es)%nat = true <-> forall e, e ∈ es -> sim_id e <> i)).
  { intros es. rewrite Nat.eqb_eq. induction es as [|e es IH]; [by split; [intros _ e Hn%elem_of_nil|]|]. cbn. unfold named at 1.
    pose proof (filter_length_le (fun e => negb (named i e)) es) as Hle. case_bool_decide as He; cbn.
    - split; [lia|]. intros Hall. destruct (Hall e); [by left|done].
    - rewrite Nat.succ_inj_wd, IH. split; [|intros Hall x Hx; apply Hall; by right]. intros Hall x [->|Hx]%elem_of_cons; [done|by apply Hall]. }
  unfold delete_simulation_episode. sm_step. sm_step. cbv beta iota zeta. sm_step. sm_step. cbv beta iota. specialize (Hl (episodes s)).
  destruct (_ =? _)%nat; sm_step; (split; [done|]); cbn; rewrite <- Hl; by split.
Qed.

(** ** Where the windows are put

    Positions and sizes are in pixels, positions as [i32]. *)

Abbreviation wrap_i32 := Api.wrap_i32 (only parsing).
(** [x as i32]: towards zero, saturating, 0 for NaN. *)
Definition to_i32 (x : spec_float) : Z :=
  match x with
  | S754_finite s m e => if s then Z.max (- 2 ^ 31) (- Z.shiftl (Zpos m) e) else Z.min (2 ^ 31 - 1) (Z.shiftl (Zpos m) e)
  | S754_infinity s => if s then - 2 ^ 31 else 2 ^ 31 - 1
  | _ => 0
  end.
Definition scaled (px : Z) (scale : spec_float) : Z := to_i32 (f64_mul (f64_of px) scale).

Record Screen : Set := { screen_x : Z; screen_y : Z; screen_w : Z; screen_h : Z; screen_scale : spec_float }.
(** The windows are named by their labels. *)
Inductive WinCall : Set -> Set :=
| HasWindow (label : string) : WinCall bool
| IsVisible : WinCall (option bool)
| CurrentMonitor : WinCall (option Screen)
| ScaleFactor : WinCall (option spec_float)
| OuterPosition : WinCall (option (Z * Z))
| OuterSize : WinCall (option (Z * Z))
| InnerSize : WinCall (option (Z * Z))
| SetSize (w h : Z) : WinCall (result string unit)
| SetPosition (x y : Z) : WinCall unit
| Show (label : string) : WinCall (result string unit)
| SetFocus (label : string) : WinCall (result string unit)
| Hide : WinCall (result string unit)
| BuildDataWindow : WinCall (result string unit).
Abbreviation WinM := (SM WinCall unit string) (only parsing).
Definition try_win {A : Set} (c : WinCall (result string A)) : WinM A := r ← call c; lift r.

(** Above the icon that was clicked, within the screen; or in the corner. *)
Definition window_place (m : Screen) (w h : Z) (tray : option (spec_float * spec_float)) : Z * Z :=
  let padding := scaled 12 (screen_scale m) in
  match tray with
  | Some (tx, ty) =>
      let x := wrap_i32 (to_i32 tx - Z.quot (wrap_i32 w) 2) in
      let y := wrap_i32 (wrap_i32 (to_i32 ty - wrap_i32 h) - padding) in
      let right := wrap_i32 (screen_x m + wrap_i32 (screen_w m)) in
      let x := if wrap_i32 (right - padding) <? wrap_i32 (x + wrap_i32 w)
               then wrap_i32 (wrap_i32 (right - wrap_i32 w) - padding) else x in
      let left := wrap_i32 (screen_x m + padding) in
      (if x <? left then left else x, Z.max y (wrap_i32 (screen_y m + padding)))
  | None =>
      (wrap_i32 (wrap_i32 (wrap_i32 (screen_x m + wrap_i32 (screen_w m)) - wrap_i32 w) - padding),
       wrap_i32 (wrap_i32 (wrap_i32 (wrap_i32 (screen_y m + wrap_i32 (screen_h m)) - wrap_i32 h)
                           - scaled 48 (screen_scale m)) - padding))
  end.
(** An error of the window here is a panic. *)
Definition toggle_window (tray : option (spec_float * spec_float)) : WinM unit :=
  there ← call (HasWindow "main");
  if negb there then mret tt
  else
    visible ← call IsVisible;
    if default false visible then try_win Hide
    else
      monitor ← call CurrentMonitor;
      _ ← match monitor with
          | Some m =>
              size ← call OuterSize;
              let '(w, h) := default (320, 480) size in
              let '(x, y) := window_place m w h tray in
              call (SetPosition x y)
          | None => mret tt
          end;
      _ ← try_win (Show "main");
      try_win (SetFocus "main").

Definition clamp (lo hi x : Z) : Z := Z.max lo (Z.min hi x).
(** The lower edge stays where it is, unless the window would leave the screen
    at the top. *)
Definition resized_y (m : Screen) (scale : spec_float) (y height_diff : Z) : Z :=
  Z.max (wrap_i32 (y - height_diff)) (wrap_i32 (screen_y m + scaled 12 scale)).
Definition resize_window (height : Z) : WinM unit :=
  there ← call (HasWindow "main");
  if negb there then mret tt
  else
    scale ← call ScaleFactor;
    pos ← call OuterPosition;
    old ← call OuterSize;
    _ ← try_win (SetSize 320 (clamp 200 900 height));
    new ← call OuterSize;
    let diff := wrap_i32 (wrap_i32 (default (320, clamp 200 900 height) new).2 - wrap_i32 (default (320, 480) old).2) in
    if diff =? 0 then mret tt
    else
      monitor ← call CurrentMonitor;
      match monitor with
      | Some m =>
          let '(x, y) := default (0, 0) pos in
          call (SetPosition x (resized_y m (default (f64_of 1) scale) y diff))
      | None => mret tt
      end.

Definition open_data_collection_window : WinM unit :=
  there ← call (HasWindow "data-collection");
  if there : bool then _ ← try_win (Show "data-collection"); try_win (SetFocus "data-collection")
  else try_win BuildDataWindow.
(** [x as u32] of a width is [f32_to_u32], whatever the format. *)
Definition resize_data_collection_window (height : Z) : WinM unit :=
  there ← call (HasWindow "data-collection");
  if negb there then mret tt
  else
    size ← call InnerSize;
    scale ← call ScaleFactor;
    let width := f32_to_u32 (f64_div (f64_of (default (480, 600) size).1) (default (f64_of 1) scale)) in
    try_win (SetSize (Z.max width 400) (clamp 300 900 height)).
(** A window that loses the focus hides, unless it is pinned. *)
Definition focus_lost (pinned : bool) : WinM unit := if pinned then mret tt else _ ← call Hide; mret tt.

Lemma wrap_i32_small z : - 2 ^ 31 <= z < 2 ^ 31 -> wrap_i32 z = z.
Proof. intros Hz. unfold Api.wrap_i32. rewrite Z.mod_small; lia. Qed.

(** What sizes and positions of real screens are. *)
Definition modest (z : Z) : Prop := - 2 ^ 28 <= z <= 2 ^ 28.

(** A window above the icon keeps its distance from the left and the upper edge,
    and from the right one if it is no wider than the screen without the
    distances. *)
Theorem window_on_screen m w h tx ty x y :
  let padding := scaled 12 (screen_scale m) in
  Forall modest [screen_x m; screen_y m; screen_w m; w; h; padding; to_i32 tx; to_i32 ty] -> 0 <= w -> 0 <= padding ->
  window_place m w h (Some (tx, ty)) = (x, y) ->
  screen_x m + padding <= x /\ screen_y m + padding <= y /\
  (w + 2 * padding <= screen_w m -> x + w <= screen_x m + screen_w m - padding).
Proof.
  intros padding Hall Hw Hp. repeat rewrite Forall_cons in Hall. unfold modest in Hall.
  assert (Hq : 0 <= Z.quot w 2 <= w) by (split; [apply Z.quot_pos; lia|apply Z.quot_le_upper_bound; lia]).
  unfold window_place. fold padding. rewrite !(wrap_i32_small w), !(wrap_i32_small h), !(wrap_i32_small (screen_w m)) by lia.
  rewrite !(wrap_i32_small (screen_x m + screen_w m)) by lia. rewrite !(wrap_i32_small (to_i32 tx - _)) by lia.
  repeat rewrite wrap_i32_small by (rewrite ?wrap_i32_small by lia; lia).
  intros [= <- <-]. repeat case_match; reflect_bools; lia.
Qed.

(** A resized window stands on its lower edge, or at the top of the screen. *)
Theorem resized_keeps_edge m scale y old new :
  Forall modest [screen_y m; y; old; new; scaled 12 scale] ->
  let y' := resized_y m scale y (new - old) in
  y' + new = y + old \/ y' = screen_y m + scaled 12 scale /\ y + old < y' + new.
Proof.
  intros Hall. repeat rewrite Forall_cons in Hall. unfold modest in Hall. cbv zeta. unfold resized_y. rewrite !wrap_i32_small by lia. lia.
Qed.

(** ** The commands over the plugins *)

Section Plugins.
Import PluginLoader PluginManager.
Context `{PluginTypes} `{!PluginCodecs} `{!StateCodec}.
(** [from_value] to a map, and [to_value] of one. *)
Context (json_map : Json -> result string (gmap string Json)) (map_json : gmap string Json -> Json).

Record PluginInfoUI : Set := {
  pi_id : string; pi_name : string; pi_version : string; pi_author : string; pi_description : string; pi_type : string;
  pi_enabled : bool; pi_status : string; pi_error : option string; pi_permissions : list string }.

(** [format!("{:?}", c).to_lowercase()]. *)
Definition capability_name (c : Capability) : string :=
  match c with
  | EventHooks => "eventhooks" | Authentication => "authentication" | NetworkPolicy => "networkpolicy"
  | DataTriage => "datatriage" | QosEnforcement => "qosenforcement" | PdmReporting => "pdmreporting"
  | Compliance => "compliance" | UiWidgets => "uiwidgets"
  end.
Definition plugin_info (e : RegistryEntry) : PluginInfoUI :=
  let m := r_manifest e in {|
  pi_id := PluginLoader.id m; pi_name := PluginLoader.name m; pi_version := PluginLoader.version m;
  pi_author := PluginLoader.author m; pi_description := PluginLoader.m_description m;
  pi_type := match capabilities m with c :: _ => capability_name c | [] => "event" end;
  pi_enabled := enabled e;
  pi_status := match last_error e with Some _ => "error" | None => if enabled e then "active" else "disabled" end;
  pi_error := last_error e; pi_permissions := map capability_name (capabilities m) |}.

(** Errors as text. *)
Abbreviation UiM := (SM PCall PluginManager string) (only parsing).
Definition told {A} (m : SM PCall PluginManager PluginError A) : UiM A :=
  zoom (fun _ c => c) Datatypes.id (fun s _ => s) show_error m.
Definition list_plugins : UiM (list PluginInfoUI) := gets (fun m => map plugin_info (list_all (registry m))).
Definition refresh_plugins : UiM (list PluginInfoUI) := _ ← told discover; list_plugins.
Definition discover_plugins : UiM (list string) := told discover.
Definition get_plugin_info (i : string) : UiM PluginInfoUI :=
  r ← gets registry;
  e ← or_throw ("Plugin '" +:+ i +:+ "' not found") (get i r);
  mret (plugin_info e).
Definition enable_plugin (i : string) : UiM unit := told (PluginManager.enable_plugin i).
Definition disable_plugin (i : string) : UiM unit := told (PluginManager.disable_plugin i).
Definition install_plugin_from_file (path : string) : UiM PluginInfoUI := i ← told (install_plugin path); get_plugin_info i.
Definition uninstall_plugin (i : string) : UiM unit := told (PluginManager.uninstall_plugin i).
Definition get_plugin_config (i : string) : UiM Json :=
  r ← gets registry;
  e ← or_throw ("Plugin '" +:+ i +:+ "' not found") (get i r);
  mret (map_json (PluginManager.config e)).
Definition set_plugin_config (i : string) (v : Json) : UiM unit :=
  c ← lift (json_map v); told (update_config i c).
(** The plugin need not have run. *)
Definition reload_plugin (i : string) : UiM unit := _ ← attempt (told (unload_plugin i)); told (load_plugin i).

(** At the start, in the background: errors are logged. *)
Definition start_plugins : UiM unit :=
  r ← attempt (told initialize);
  match r with
  | Err _ => mret tt
  | Ok _ => _ ← attempt (told discover); _ ← attempt (told load_all); mret tt
  end.

Lemma hoare_told {A} (m : SM PCall PluginManager PluginError A) s (Q : PluginManager -> result string A -> Prop) :
  any m s (fun s' r => Q s' (match r with Ok a => Ok a | Err e => Err (show_error e) end)) -> any (told m) s Q.
Proof.
  intros Hm. eapply (hoare_zoom (fun _ c => c) Datatypes.id (fun s _ => s) show_error (fun _ _ => True) free); [done|done|exact Hm|]. done.
Qed.

(** A reload leaves only registered and enabled plugins running, whether the
    plugin ran before or not and whatever fails. *)
Theorem reload_runs i m : runs_enabled m -> any (reload_plugin i) m (fun m' _ => runs_enabled m').
Proof.
  intros Hm. unfold reload_plugin. sm_step. sm_step. apply hoare_told. eapply hoare_mono; [by apply unload_runs|].
  intros m1 r [Hm1 _]. cbv beta iota. apply hoare_told. by apply load_runs.
Qed.
End Plugins.

(** ** Updates *)

Section Updates.
Context {J : Updater.ReleaseJson} (os : Updater.Os) (arch : Updater.Arch) (VERSION : string).

Record UpdateCheckResponse : Set := {
  u_current : string; u_available : bool; u_latest : option string; u_notes : option string; u_download : option string;
  u_release : option string; u_published : option string }.
Record ReleaseInfoResponse : Set := {
  r_version : string; r_tag : string; r_name : string; r_body : string; r_prerelease : bool; r_published : string;
  r_url : string; r_is_current : bool }.
Definition updater_config (include_prerelease : bool) : Updater.UpdaterConfig := {|
  Updater.repo := Updater.repo Updater.UpdaterConfig_default; Updater.include_prerelease := include_prerelease;
  Updater.download_dir := Updater.download_dir Updater.UpdaterConfig_default |}.

(** A program of an updater with its own configuration. *)
Abbreviation UpM := (SM Updater.UpdCall unit string) (only parsing).
Definition with_updater {A} (c : Updater.UpdaterConfig) (m : SM Updater.UpdCall Updater.UpdaterConfig string A) : UpM A :=
  zoom (fun _ c => c) (fun _ => c) (fun _ u => u) Datatypes.id m.
Definition update_response (r : Updater.UpdateCheckResult) : UpdateCheckResponse := {|
  u_current := Updater.current_version r; u_available := Updater.update_available r;
  u_latest := Updater.version <$> Updater.latest_release r; u_notes := Updater.body <$> Updater.latest_release r;
  u_download := Updater.download_url r; u_release := Updater.html_url <$> Updater.latest_release r;
  u_published := Updater.published_at <$> Updater.latest_release r |}.
Definition check_for_updates (include_prerelease : bool) : UpM UpdateCheckResponse :=
  r ← with_updater (updater_config include_prerelease) (Updater.check_for_update os arch Updater.Desktop VERSION);
  mret (update_response r).
Definition release_response (r : Updater.ReleaseInfo) : ReleaseInfoResponse := {|
  r_version := Updater.version r; r_tag := Updater.tag_name r; r_name := Updater.name r; r_body := Updater.body r;
  r_prerelease := Updater.prerelease r; r_published := Updater.published_at r; r_url := Updater.html_url r;
  r_is_current := bool_decide (Updater.version r = VERSION) |}.
Definition get_releases (limit : nat) (include_prerelease : bool) : UpM (list ReleaseInfoResponse) :=
  rs ← with_updater (updater_config include_prerelease) (Updater.get_all_releases limit); mret (map release_response rs).

(** The choice of prereleases changes nothing about the check. *)
Theorem prereleases_unasked {W} (sys : forall R : Set, Updater.UpdCall R -> W -> R * W) w :
  run_prog sys (check_for_updates true tt) w = run_prog sys (check_for_updates false tt) w.
Proof.
  unfold check_for_updates, with_updater, zoom, Updater.check_for_update, Updater.get_latest_release, Updater.api_get, Updater.try_context.
  
  unfold mbind, SM_bind, mret, SM_ret. cbn. destruct (sys _ _ w) as [[resp|e] w']; cbn; [|done]. destruct (Updater.is_success resp); cbn; [|done].
  by destruct (Updater.parse_release _).
Qed.
End Updates.

(** ** Concrete inputs *)
Module Demo.
Definition plugin_of_window : option (@Collector.Plugin unit Triggers.TeleopTrigger) := None.
Lemma data_collection_never_starts_witness :
  plugin_of_window = None /\
  (forall robot dir, init_data_collection (fun _ => "Invalid configuration") ∅ robot dir plugin_of_window =
    Ret (None, Err ("Failed to create data collection plugin: Invalid configuration"))) /\
  stop_data_recording (fun _ => "") (fun s => s) true plugin_of_window = Ret (None, Err "Data collection plugin not initialized").
Proof.
  destruct (data_collection_never_starts (fun _ => "Invalid configuration") (fun s => s) ∅ plugin_of_window (data_start _ _ _ _))
    as (Hn & Hi & Hc).
  split; [exact Hn|]. split; [intros robot dir; destruct (Hi robot dir) as [e He]; exact He|].
  exact (Hc _ _ (dc_stop _ _ true)).
Defined.

Definition screen : Screen := {| screen_x := 0; screen_y := 0; screen_w := 1920; screen_h := 1080; screen_scale := f64_of 1 |}.
(** At the right edge, the window moves to the left of its icon's middle. *)
Example window_at_the_edge : window_place screen 320 480 (Some (f64_of 1900, f64_of 1060)) = (1588, 568).
Proof. by vm_compute. Qed.
Lemma window_on_screen_witness : 12 <= 1588 /\ 12 <= 568 /\ (320 + 2 * 12 <= 1920 -> 1588 + 320 <= 1920 - 12).
Proof.
  refine (window_on_screen screen 320 480 (f64_of 1900) (f64_of 1060) 1588 568 _ _ _ _); [|done|done|by vm_compute].
  unfold modest. repeat constructor; vm_compute; congruence.
Defined.

Definition recording_now : SimulationState :=
  put_streams [with_samples 90 (demo_stream "/imu/data" 500 200)] (put_recording (Some ("ep-1", 0))
    {| initialized := true; robot_id := "r"; is_recording := false; current_episode_id := None; recording_start_time := None;
       episodes := []; streams := []; total_samples := 0; bytes_written := 0 |}).
Lemma recording_left_witness :
  any (stop_simulation_recording true) recording_now (fun s' r =>
    is_recording s' = false /\ streams s' = streams recording_now /\ exists resp, r = Ok resp /\ so_samples resp = 90 /\ episodes s' = []).
Proof. apply (recording_left true recording_now); [by repeat split; eexists|done]. Defined.
End Demo.
